(* ===== verification/_CoqProject ===== *)
-Q . S2P
Prelude.v
Clib.v
FcgiProto.v
OsUnix.v
OsAsync.v
OsAioInv.v
OsDoIo.v
OsSocket.v
FcgiStream.v
FcgiSink.v
FcgiWriter.v
FcgiParams.v
FcgiReader.v
FcgiSource.v
FcgiWire.v
FcgiInput.v
FcgiRequest.v
FcgiFinish.v
FcgiCorners.v
FcgiStreambuf.v
FcgiPrintf.v
FcgiPrintfOk.v
FcgiTotal.v
FcgiStdio.v
BaseEscape.v
BaseUrl.v
BaseEncode.v
BaseEncodeXml.v
BaseMd5.v
BaseHash.v
BaseContinuum.v
BaseCache.v
BaseRwlock.v
BaseMessageQueue.v
BaseThreadPool.v
Qlz.v
QlzTokens.v
QlzCompress.v
QlzDecompress.v
QlzRoundtrip.v
CgiString.v
CgiStrip.v
CgiHdf.v
CgiParse.v
CgiRequest.v
CgiImport.v
CgiOutput.v
CgiResponse.v
CwfHttp.v
CwfRequest.v
CwfServe.v
CwfConnect.v
