(* ===== verification/Prelude.v ===== *)
(** * A verified model of the C core of oce

    The repository is the source of a social network's backend: hundreds of C++
    services generated around an RPC framework, and below them a small number of C
    files and header-only C++ components that do the work which is the program's own.
    This library models those: the FastCGI application library (src/cwf/libfcgi),
    which every web-facing process of the repository links, with its wrappers of stdio
    and its C++ stream buffer; the web framework on top of it (src/cwf); and the
    utilities of src/base: containers, hashes, encoders, URLs, MD5, and the read-write
    lock, message queue and thread pool that its servers run on.  It also
    models the QuickLZ codec of the feed service (src/feed/feedview/quicklz.c) and the
    CGI library of the advertising hub (src/AdHot/hub/cgi/cgi.c), a modified part of
    ClearSilver.

    ** Parts, and the files that model them

    - Prelude: machine integers, results of calls ([outcome]: a value, [Crash] for an
      aborted process or undefined behaviour, [NoFuel] for a loop that has not ended),
      bytes and strings, generic lemmas.
    - Clib: what the modelled code calls of the C library on strings and numbers.
    - FcgiProto: fastcgi.h (constants, record layouts) and the builders MakeHeader,
      MakeEndRequestBody, MakeUnknownTypeBody, AlignInt8, AlignPtr8 of fcgiapp.c;
      [record] and [encode_record], the records of the protocol document.
    - OsUnix: os_unix.c.  The kernel is a record of scripts: per connection the results
      that [read], [write] and [select] will give, and for the listening socket those of
      [accept]; the calls consume them and append to the bytes a connection received.
      The globals of the file are [aio_state] and [os_state].  Functions keep their names
      (OS_Read, OS_Write, OS_Close, OS_Accept, ClientAddrOK, ...).
    - OsAsync: the asynchronous operations of os_unix.c (OS_AsyncRead, OS_AsyncWrite,
      OS_CloseRead, OS_DoIo).  [select] and the completion procedures, which get the
      whole state with the memory of the process, are arguments; a call may end in
      [exit] ([io]).
    - OsAioInv, OsDoIo: the invariant of the table and the sets, stated once for the
      two sides of a descriptor; that the calls keep it ([api_step]); the theorems
      about OS_DoIo.
    - OsSocket: listening and connecting sockets, signals and spawned processes of
      os_unix.c; the kernel is a function of the calls made so far.
    - FcgiStream: the stream, its buffer and the request (FCGX_Stream, FCGX_Stream_Data,
      FCGX_Request) with NewStream, SetReaderType, write_it_all and the output
      operations FCGX_PutStr, FCGX_PutChar, FCGX_FFlush, FCGX_FClose.  Pointers into the
      buffer are indices; a [sys] is a stream with its request and the system.  The
      function pointer [emptyBuffProc] is an argument of the operations.
    - FcgiSink: what the output operations need from [emptyBuffProc], as the class
      [Sink], and their theorems against it.
    - FcgiWriter: EmptyBuffProc and WriteCloseRecords, shown to be a [Sink], and the
      theorems about output.
    - FcgiParams: the vector of parameters (NewParams, PutParam, FCGX_GetParam).
    - FcgiReader: the input operations, ReadParams, ProcessManagementRecord,
      ProcessBeginRecord, ProcessHeader and FillBuffProc, whose loop is cut into one
      definition per stage.
    - FcgiSource: what the input operations need from [fillBuffProc], as the class
      [Source], the abstract input stream ([spec_rops] on a list of bytes) and the
      refinement theorems against the class.
    - FcgiWire: the conversation with the server: which records may arrive ([wire],
      [wires]), what must be answered to them, how a stream may end ([ending]).
    - FcgiInput: FillBuffProc is a [Source] for such a conversation, cut into reads in
      any way; the theorems about input and parameters.
    - FcgiRequest: FCGX_Init, FCGX_InitRequest, FCGX_Accept, FCGX_Accept_r,
      FCGX_Finish_r, FCGX_Free on the globals of fcgiapp.c ([fcgx]).
    - FcgiFinish, FcgiCorners: the end of a request, and the corners where the code
      loses data, overruns an array or never returns.
    - FcgiPrintf: FCGX_VFPrintF and the part of sprintf it uses; floating-point numbers
      and pointers are printed by the class [Libc].
    - FcgiPrintfOk: formats as literal texts and conversions, and the theorems.  What is
      assumed of the C library's printing of numbers is the class [LibcLaws].
    - FcgiTotal: the output operations, FCGX_VFPrintF and FCGX_Finish_r on any stream
      that is well formed ([stream_ok]), when writes may fail: they return.  What they
      need from [emptyBuffProc] is the class [Empties], and EmptyBuffProc implements it.
    - FcgiStreambuf: [fcgi_streambuf] of fcgio.cpp with the operations of
      [std::streambuf] it inherits, on the [Sink] or [Source] it is attached to; its
      buffer is the caller's array, of any size.
    - FcgiStdio: fcgi_stdio.c, on a heap of [FCGI_FILE] structs, each of which is open
      on a file of the C library, on a stream, or on nothing.  The C library's calls on
      files are the class [Stdio], its documented laws about which files are open
      [StdioLaws]; [table_stdio] is an implementation of both.
    - BaseEscape: the escape functors of base/escape.h and CharMask of base/charmask.h.
    - BaseEncode: stringencode.cc: escape, encode, the URL and hexadecimal encoders and
      s_transform.  The two buffers are ranges of one memory, so that a decoder may work
      in place; [transform_frame] is the loop they share.
    - BaseEncodeXml: the part of stringencode.cc on UTF-8, HTML and XML.
    - BaseMd5: md5.cc and stringdigest.cc; [RFC] is the algorithm of RFC 1321.
    - BaseHash: MurmurHash2 and MurmurHash64B of base/hash.h, circular_count.
    - BaseContinuum: the consistent-hash ring Continuum of base/consistenthash.h.
    - BaseCache: the LRU cache HashCache of base/cache.h, as a step relation between
      the locked sections its threads execute.
    - BaseUrl: base/url.h and url.cc: [Parse], [UpdateUrl], [Validate], escapes; [parts] is
      the grammar of what is accepted.
    - BaseRwlock: base/rwlock.h.  What a thread does with the mutex is one section, a
      definition on the fields; [run] is a section of one thread in a process of many,
      [reachable] the interleavings, with spurious wake-ups and any choice of the thread
      that [notify_one] wakes.
    - BaseMessageQueue: base/messagequeue.h, as steps of the threads that post and of the
      worker ([mq_step]); what is outside the mutex is a step of its own.
    - BaseThreadPool: base/threadpool.h and threadpool.cc, over BaseMessageQueue; what a
      call reads of the running workers is an argument.
    - Qlz: quicklz.c as quicklz.h configures it (level 1, no streaming buffer, not
      memory safe): memory is a list of bytes, a pointer into it an index, the scratch
      memory a record of functions from the hash to the entry, whose initial contents
      are arbitrary.
    - QlzTokens: the compressed form as a sequence of literals and matches ([token]), how
      one may be cut from a source ([parse]) and what bytes it is sent as ([stream]).
    - QlzCompress, QlzDecompress: the compressor produces such a stream and the
      decompressor expands it; the invariants of the two loops.
    - QlzRoundtrip: the container (header, raw blocks) and the theorems.
    - CgiString, CgiStrip: the functions of cgi.c on strings (cgi_url_unescape,
      Utf8StringTrunc, MaxLength, RFeedTime; cgi_html_ws_strip), on buffers.
    - CgiHdf: what cgi.c uses of ClearSilver, as classes: the data set ([Hdf], with the
      laws its header file documents, [HdfLaws], stated on a flat model of it), the
      wrapper of the CGI environment ([CgiWrap]) and the registration of error types
      ([NeoErr]), each with an implementation for concrete examples.
    - CgiParse: requests (cgi_init, cgi_parse and what they call).
    - CgiOutput: responses (cgi_output, cgi_headers, cgi_display, redirects, cookies).
    - CgiRequest, CgiImport, CgiResponse: the theorems about them, against the classes.
    - CwfHttp: cwf/http.h and http.cc: the enumerations and their names (class [Enum]),
      classes of codes and headers, attributes, dates with what [sscanf] does for their
      format; [mktime] and [timezone] are arguments.
    - CwfRequest: cwf/stream.h, stream.cc and cookie.h (Request, Cookie, Header,
      Response), and the dispatcher of frame.cc with action.h and pattern.h.  Boost's
      [split], [starts_with] and [lexical_cast] are the class [Boost] with [BoostLaws];
      [std_boost] implements them.  An action is a record of its two methods.
    - CwfServe: FastcgiProc of frame.cc, the loop of a thread, over FcgiRequest and
      CwfRequest.
    - CwfConnect: FastcgiConnect of connect.cc, which binds a socket and forks the
      processes that serve on it, and what main does next.  A process has a table of
      descriptors ([effect] of a call on it); whether a call succeeds is an argument.

    ** What the theorems show

    - Output (FcgiWriter): whatever a client writes, in any pieces, is received as
      well-formed records whose contents are exactly those bytes, then the closing
      records; [write_it_all] writes everything or fails with the error of the kernel.
    - Input (FcgiInput): whatever mixture of records arrives and however it is cut into
      reads, the input operations return what they would return on the concatenated
      contents of the records of their stream, and the answers the protocol asks for are
      sent; ReadParams decodes what a server encodes.
    - Requests (FcgiRequest, FcgiFinish): from [accept] to END_REQUEST.
    - Serving (CwfServe): a process answers its clients one after another; the theorem
      composes those about accepting, input, the framework, output and finishing.
    - Starting (CwfConnect): a forked process serves with the listening socket as
      descriptor 0 and no other descriptor it should not have; options that do nothing.
    - The framework (CwfRequest, CwfHttp): what a browser encodes is what an action
      reads, the dispatcher calls the first action that matches, cookies, attributes and
      dates are parsed, with what goes wrong there.
    - Stream buffers (FcgiStreambuf): a buffer of any size changes nothing of what is
      written or read, until a read has met the end of the input.
    - stdio (FcgiStdio): a wrapper on the stdout of a request does what ISO C says of
      the function it wraps; every call that keeps its contract ([callable]) returns,
      also when writes fail, and keeps files, streams and structs live, but for
      the calls that leave one dangling.
    - Formatted output (FcgiPrintfOk): both paths of FCGX_VFPrintF print what the C
      standard says when the field widths are small enough and a [%Lf] is of a number in
      the range of double; a wider field, and a longer number out of that range, overrun the
      buffer.
    - Asynchronous operations (OsDoIo): the dispatcher completes every ready operation
      once and in order and keeps the invariant whatever its procedures do; it calls
      nobody any more after a posted descriptor was closed.  Sockets (OsSocket): a
      client reaches the address its server has bound.
    - Corners (FcgiCorners): what happens outside those hypotheses.
    - Utilities: escapes and encoders are faithful and safe (for the two script
      functors against strict readers of JSON strings and JavaScript literals), stay in
      their buffers and may work in place; MD5 of pieces is the MD5 of the whole; sets are sets, hashing a
      changed word changes the hash, the ring finds the next point and moves no more keys than it
      must, the cache is a map under every interleaving and least-recently-used under a
      discipline of its clients, and what breaks without it.
    - Threads (BaseRwlock, BaseMessageQueue, BaseThreadPool): the lock excludes and loses no
      wake-up, under every interleaving; messages run once and in order, by the worker the
      pool promises; a [Close] may be lost, and what goes wrong when a pool shrinks.
    - URLs (BaseUrl): exactly the URLs of a grammar are accepted, and the text of an accepted
      one is a normal form, with the corners where it is not; escapes are read back.
    - QuickLZ (QlzRoundtrip): what is compressed is decompressed to the same bytes for
      every source up to 2^32 - 401 bytes and every content of the scratch memories,
      within the slack the header file asks for; runs, short sources, malformed input.
    - CGI: every encoding of a query string gives its pairs (CgiRequest), cgi_init
      imports the environment and confines what a client sends to its part of the data
      set, bodies are read however they are cut, and a short PUT is never finished
      (CgiImport); pages are sent with their headers and stripped of nothing but white
      space (CgiResponse, CgiStrip); unescaping and truncation (CgiString).

    ** Bounds and fuel

    Integers are [Z] with the conversions [u8] ... [s32] written where C converts.
    Loops that are not structural take fuel: loops over a script take as much as the
    script is long ([write_fuel], [close_fuel]); FillBuffProc and ReadParams, whose
    number of turns depends on the input, take it as an argument and their theorems
    require a bound that is linear in the length of the input; the loops of quicklz.c
    take one more than the length of what they consume, and so do those of cgi.c, whose
    walks over the nodes of a level take one more than the number of nodes; the loop of
    a PUT, which need not end, takes its fuel as an argument.  OS_DoIo visits at
    most FD_SETSIZE descriptors ([dispatch_fuel]); the loops of stringencode.cc, http.cc
    and fcgio.cpp take the length of their source or request; FastcgiProc takes one turn
    more than there are clients.  The executions of BaseRwlock and BaseMessageQueue end by a measure ([work],
    [mq_work]).  No
    property is about a run that is assumed to return: they state that there is a result, and
    which.  What may wait for ever is the client's: [FCGI_Accept] returns when
    [FCGX_Accept] does, which is the theorem about accepting.

    ** Not modelled

    In cgi.c: cgi_destroy, which only frees, the one-line wrappers of ClearSilver's
    escape functions, and the remote debugger, which is not compiled.
    In os_unix.c: the locks of AcquireLock, which are not compiled, and the time that
    [select] leaves in its argument.  In fcgi_stdio.h: the macros that
    give the wrappers the names of the C library.  In cwf: FastcgiMain (threads,
    logs and templates), the command line of main, the Windows half of connect.cc,
    dynalib.cc and the sample actions.  In src/base: logging, atomic operations (assembly),
    the wrappers of boost::asio and of Ice, the small helpers for paths, directories,
    JDBC URLs and network interfaces, and threadpool.cpp, an older copy of threadpool.cc.  The Windows layer, the C++ services, which are calls into Ice, MySQL and
    memcached, and third-party code.  The addresses and initial contents that [malloc]
    returns, the uninitialised bytes of the stack that are sent and [inet_addr] are
    arguments of the definitions that use them. *)
From Stdlib Require Import ZArith Lia Bool String Ascii.
From stdpp Require Import base list numbers.

Declare Scope oce_scope.
Delimit Scope oce_scope with oce.
Open Scope oce_scope.
Open Scope Z_scope.

(** ** Machine integers *)

(** Conversions of C: to [unsigned char], [unsigned short], [unsigned int],
    [unsigned long], and to [char], [int], [short] and [long] (two's complement). *)
Definition u8 (z : Z) : Z := z mod 2 ^ 8.
Definition u16 (z : Z) : Z := z mod 2 ^ 16.
Definition u32 (z : Z) : Z := z mod 2 ^ 32.
Definition u64 (z : Z) : Z := z mod 2 ^ 64.
Definition s8 (z : Z) : Z := (z + 2 ^ 7) mod 2 ^ 8 - 2 ^ 7.
Definition s32 (z : Z) : Z := (z + 2 ^ 31) mod 2 ^ 32 - 2 ^ 31.
Definition s16 (z : Z) : Z := (z + 2 ^ 15) mod 2 ^ 16 - 2 ^ 15.
Definition s64 (z : Z) : Z := (z + 2 ^ 63) mod 2 ^ 64 - 2 ^ 63.

Definition is_byte (z : Z) : Prop := 0 <= z < 256.
Definition is_byteb (z : Z) : bool := (0 <=? z) && (z <? 256).
Definition is_u32 (x : Z) : Prop := 0 <= x < 2 ^ 32.

(** The little-endian word of four bytes: [*(unsigned int * )p]. *)
Definition le32 (a b c d : Z) : Z := a + b * 2 ^ 8 + c * 2 ^ 16 + d * 2 ^ 24.

#[global] Arguments u8 z : simpl never.
#[global] Arguments u16 z : simpl never.
#[global] Arguments u32 z : simpl never.
#[global] Arguments u64 z : simpl never.
#[global] Arguments s8 z : simpl never.
#[global] Arguments s32 z : simpl never.
#[global] Arguments s16 z : simpl never.
#[global] Arguments s64 z : simpl never.

(** The value EOF of stdio.h. *)
Definition EOF : Z := -1.

(** ** Results of calls *)

(** A call returns a value, stops the process or leaves the defined behaviour
    of C (a failed ASSERT, a write past an array, a NULL dereference), or has
    not returned within the iterations it was given. *)
Inductive outcome (A : Type) : Type :=
| Ret (a : A)
| Crash
| NoFuel.
Arguments Ret {A} a.
Arguments Crash {A}.
Arguments NoFuel {A}.

Definition obind {A B : Type} (m : outcome A) (k : A -> outcome B) : outcome B :=
  match m with
  | Ret a => k a
  | Crash => Crash
  | NoFuel => NoFuel
  end.

Notation "'let!' p ':=' m 'in' k" := (obind m (fun p => k))
  (at level 10, p pattern, m at level 200, k at level 200)
  : oce_scope.

(** [ASSERT (e)] of fcgimisc.h: the process aborts when [e] is false. *)
Notation "'ASSERT' b 'in' k" := (if b then k else Crash)
  (at level 10, b at level 100, k at level 200) : oce_scope.

Definition terminates {A : Type} (m : outcome A) : Prop := m <> NoFuel.
Definition returns {A : Type} (m : outcome A) : Prop := exists a, m = Ret a.

(** ** Byte strings *)

(** The bytes of a string literal, without its terminating NUL. *)
Fixpoint bytes_of_string (s : string) : list Z :=
  match s with
  | EmptyString => []
  | String a s => Z.of_nat (nat_of_ascii a) :: bytes_of_string s
  end.
Notation "'b!' s" := (bytes_of_string s%string) (at level 1, s at level 0, only parsing) : oce_scope.

(** The C string that starts at the beginning of a buffer: the bytes before the
    first NUL. *)
Fixpoint cstr (b : list Z) : list Z :=
  match b with
  | [] => []
  | c :: b => if c =? 0 then [] else c :: cstr b
  end.

(** ** Buffers *)

(** [b[off .. off+n)] and the effect of [memcpy (b + off, bs, length bs)]. *)
Definition slice {A} (b : list A) (lo hi : nat) : list A := take (hi - lo) (drop lo b).
Definition mem_write {A} (b : list A) (off : nat) (bs : list A) : list A :=
  take off b ++ bs ++ drop (off + length bs) b.

#[global] Arguments slice {A} b lo hi : simpl never.
#[global] Arguments mem_write {A} b off bs : simpl never.

Definition list_Z_eqb : list Z -> list Z -> bool :=
  fix go l1 l2 :=
    match l1, l2 with
    | [], [] => true
    | x :: l1, y :: l2 => (x =? y) && go l1 l2
    | _, _ => false
    end.

(** ** Lemmas on integers *)

Lemma u8_bound z : is_byte (u8 z).
Proof. unfold is_byte, u8. pose proof (Z.mod_pos_bound z (2 ^ 8)). lia. Qed.

Lemma u8_small z : is_byte z -> u8 z = z.
Proof. unfold is_byte, u8. intros. apply Z.mod_small. lia. Qed.

Lemma u32_small z : 0 <= z < 2 ^ 32 -> u32 z = z.
Proof. apply Z.mod_small. Qed.

Lemma s32_small z : - 2 ^ 31 <= z < 2 ^ 31 -> s32 z = z.
Proof. unfold s32. intros. rewrite Z.mod_small by lia. lia. Qed.

Lemma land_255 z : Z.land z 255 = z mod 256.
Proof. change 255 with (Z.ones 8). by rewrite Z.land_ones by lia. Qed.

Lemma shiftr_8 z : Z.shiftr z 8 = z / 256.
Proof. by rewrite Z.shiftr_div_pow2 by lia. Qed.

Lemma shiftl_8 z : Z.shiftl z 8 = z * 256.
Proof. by rewrite Z.shiftl_mul_pow2 by lia. Qed.

Lemma shiftl_16 z : Z.shiftl z 16 = z * 65536.
Proof. by rewrite Z.shiftl_mul_pow2 by lia. Qed.

Lemma shiftl_24 z : Z.shiftl z 24 = z * 16777216.
Proof. by rewrite Z.shiftl_mul_pow2 by lia. Qed.

Lemma is_byteb_spec z : is_byteb z = true <-> is_byte z.
Proof. unfold is_byteb, is_byte. rewrite andb_true_iff. lia. Qed.

(** A masked byte keeps its value: the form the header builders produce. *)
Lemma u8_land_255 z : u8 (Z.land z 255) = z mod 256.
Proof. unfold u8. rewrite land_255. by rewrite Zmod_mod. Qed.

(** A property of bytes that holds for each of the 256 values. *)
Lemma is_byte_forall (P : Z -> bool) :
  forallb P (seqZ 0 256) = true -> forall b, is_byte b -> P b = true.
Proof.
  intros H b Hb. rewrite forallb_forall in H. apply H.
  apply list_elem_of_In, elem_of_seqZ. unfold is_byte in Hb. lia.
Qed.

Lemma land_128 b : is_byte b -> Z.land b 128 = if b <? 128 then 0 else 128.
Proof.
  intros Hb. apply Z.eqb_eq. revert b Hb.
  apply (is_byte_forall (fun b => Z.land b 128 =? if b <? 128 then 0 else 128)).
  by vm_compute.
Qed.

Lemma land_127 z : Z.land z 127 = z mod 128.
Proof. change 127 with (Z.ones 7). by rewrite Z.land_ones by lia. Qed.

(** Disjoint bits add up; a shifted number and one below the shift have none in
    common. *)
Lemma lor_add a b : Z.land a b = 0 -> Z.lor a b = a + b.
Proof. intros H. rewrite <-Z.lxor_lor by done. symmetry. by apply Z.add_nocarry_lxor. Qed.

Lemma lor_shiftl a k b : 0 <= k -> 0 <= b < 2 ^ k -> Z.lor (Z.shiftl a k) b = a * 2 ^ k + b.
Proof.
  intros Hk Hb. rewrite <- Z.shiftl_mul_pow2 by done. apply lor_add.
  apply Z.bits_inj'. intros n Hn. rewrite Z.land_spec, Z.bits_0.
  destruct (Z.ltb_spec n k).
  - by rewrite Z.shiftl_spec_low by done.
  - rewrite <- (Z.mod_small b (2 ^ k)) by done. rewrite Z.mod_pow2_bits_high by lia. apply andb_false_r.
Qed.

(** ** Lemmas on buffers *)

Section Buffers.
Context {A : Type}.
Implicit Types (b bs : list A) (lo hi off n : nat).

Lemma length_mem_write b off bs :
  (off + length bs <= length b)%nat -> length (mem_write b off bs) = length b.
Proof. intros. unfold mem_write. rewrite !length_app, length_take, length_drop. lia. Qed.

Lemma length_slice b lo hi :
  (lo <= hi <= length b)%nat -> length (slice b lo hi) = (hi - lo)%nat.
Proof. intros. unfold slice. rewrite length_take, length_drop. lia. Qed.

Lemma slice_nil b lo : slice b lo lo = [].
Proof. unfold slice. by rewrite Nat.sub_diag. Qed.

Lemma slice_app b lo mid hi :
  (lo <= mid <= hi)%nat -> slice b lo hi = slice b lo mid ++ slice b mid hi.
Proof.
  intros. unfold slice.
  replace (hi - lo)%nat with ((mid - lo) + (hi - mid))%nat by lia.
  rewrite <-take_take_drop. f_equal. f_equal. rewrite drop_drop. f_equal. lia.
Qed.

Lemma slice_take b lo hi n :
  (n <= hi - lo)%nat -> take n (slice b lo hi) = slice b lo (lo + n).
Proof. intros. unfold slice. rewrite take_take. f_equal. lia. Qed.

Lemma slice_drop b lo hi n : drop n (slice b lo hi) = slice b (lo + n) hi.
Proof.
  unfold slice. rewrite skipn_firstn_comm, drop_drop. f_equal. lia.
Qed.

(** The bytes just written are read back, and the bytes before them are kept. *)
Lemma slice_mem_write b off bs :
  (off + length bs <= length b)%nat ->
  slice (mem_write b off bs) off (off + length bs) = bs.
Proof.
  intros. unfold slice, mem_write.
  rewrite drop_app_length' by (rewrite length_take; lia).
  rewrite take_app_length' by lia. done.
Qed.

Lemma slice_mem_write_before b off bs lo hi :
  (hi <= off)%nat -> (off + length bs <= length b)%nat ->
  slice (mem_write b off bs) lo hi = slice b lo hi.
Proof.
  intros. unfold slice, mem_write.
  destruct (decide (lo <= hi)%nat) as [Hle|]; [|by replace (hi - lo)%nat with 0%nat by lia].
  rewrite drop_app_le by (rewrite length_take; lia).
  rewrite take_app_le by (rewrite length_drop, length_take; lia).
  rewrite skipn_firstn_comm, take_take. f_equal. lia.
Qed.

Lemma slice_mem_write_from b off bs hi :
  (off + length bs <= hi <= length b)%nat ->
  slice (mem_write b off bs) off hi = bs ++ slice b (off + length bs) hi.
Proof.
  intros. unfold slice, mem_write.
  rewrite drop_app_length' by (rewrite length_take; lia).
  rewrite take_app_ge by lia. do 2 f_equal. lia.
Qed.

Lemma take_mem_write b off bs :
  (off + length bs <= length b)%nat ->
  take (off + length bs) (mem_write b off bs) = take off b ++ bs.
Proof.
  intros. unfold mem_write. rewrite app_assoc, take_app_length'; [done|].
  rewrite length_app, length_take. lia.
Qed.

(** Consecutive writes are one write. *)
Lemma mem_write_app (m : list A) a c o :
  (a + length c + length o <= length m)%nat ->
  mem_write (mem_write m a c) (a + length c) o = mem_write m a (c ++ o).
Proof.
  intros. unfold mem_write at 1 3. rewrite take_mem_write by lia. rewrite <- !app_assoc.
  do 3 f_equal. unfold mem_write. rewrite app_assoc, drop_app_ge;
    rewrite ?length_app, ?length_take; [|lia].
  rewrite drop_drop. f_equal. lia.
Qed.

Lemma mem_write_nil (m : list A) a : mem_write m a [] = m.
Proof. unfold mem_write. cbn. rewrite Nat.add_0_r. apply take_drop. Qed.

(** A write before the slice is not seen. *)
Lemma slice_mem_write_after (m : list A) a c lo hi :
  (a + length c <= lo)%nat -> (a + length c <= length m)%nat ->
  slice (mem_write m a c) lo hi = slice m lo hi.
Proof.
  intros. unfold slice. f_equal. unfold mem_write.
  rewrite drop_app_ge, drop_app_ge; rewrite ?length_take; [|lia|lia].
  rewrite drop_drop. f_equal. lia.
Qed.

Lemma drop_length_take n b : drop (length (take n b)) b = drop n b.
Proof.
  rewrite length_take. destruct (decide (n <= length b)%nat).
  - f_equal. lia.
  - by rewrite !drop_ge by lia.
Qed.

Lemma slice_all b n : length b = n -> slice b 0 n = b.
Proof. intros <-. unfold slice. rewrite drop_0, Nat.sub_0_r. apply take_ge; lia. Qed.

Lemma slice_cons b lo hi :
  (lo < hi <= length b)%nat -> exists x, b !! lo = Some x /\ slice b lo hi = x :: slice b (S lo) hi.
Proof.
  intros. destruct (lookup_lt_is_Some_2 b lo) as [x Hx]; [lia|]. exists x. split; [done|].
  unfold slice. rewrite (drop_S _ _ _ Hx).
  by replace (hi - lo)%nat with (S (hi - S lo)) by lia.
Qed.
End Buffers.

Lemma list_Z_eqb_spec l1 l2 : list_Z_eqb l1 l2 = true <-> l1 = l2.
Proof.
  revert l2; induction l1 as [|x l1 IH]; intros [|y l2]; cbn; try done.
  rewrite andb_true_iff, Z.eqb_eq, IH. split; [intros [-> ->]|intros [= -> ->]]; done.
Qed.

(** ** Tactics *)

(** Splits the goal on the first match of a hypothesis or of the goal, keeping
    the equation. *)
Ltac case_goal :=
  match goal with
  | |- context [match ?e with _ => _ end] => destruct e eqn:?
  end.

(** Turns boolean comparisons in the context into propositions for [lia]. *)
Ltac bool_to_prop :=
  repeat match goal with
  | H : context [Z.eqb ?a ?b = true] |- _ => rewrite Z.eqb_eq in H
  | H : context [Z.eqb ?a ?b = false] |- _ => rewrite Z.eqb_neq in H
  | H : (_ && _)%bool = true |- _ => apply andb_true_iff in H; destruct H
  | H : (_ || _)%bool = false |- _ => apply orb_false_iff in H; destruct H
  | H : negb _ = true |- _ => apply negb_true_iff in H
  | H : negb _ = false |- _ => apply negb_false_iff in H
  end.

Create HintDb oce.
Create Rewrite HintDb oce.
#[export] Hint Resolve u8_bound : oce.
#[export] Hint Rewrite @length_app @length_take @length_drop @length_cons @length_replicate : oce.

(** ** Lemmas on C strings *)

Lemma cstr_nonzero_app a t : Forall (fun c => c <> 0) a -> cstr (a ++ 0 :: t) = a.
Proof. induction 1 as [|c a Hc _ IH]; cbn; [done|]. destruct (Z.eqb_spec c 0); [done|]. by rewrite IH. Qed.
