(* ===== verification/Clib.v ===== *)
(** The functions of the C library that the modelled code calls on strings and
    numbers: ctype.h in the C locale, [strchr], [atoi], [snprintf] and the access to
    a buffer, in which an index outside it is [Crash]. *)
From Stdlib Require Import ZArith Lia Bool String.
From stdpp Require Import base list numbers.
From S2P Require Import Prelude.

(** ** Characters and buffers *)

Definition isspace (c : Z) : bool := (c =? 32) || ((9 <=? c) && (c <=? 13)).
Definition isdigit (c : Z) : bool := (48 <=? c) && (c <=? 57).
Definition isxdigit (c : Z) : bool :=
  isdigit c || ((65 <=? c) && (c <=? 70)) || ((97 <=? c) && (c <=? 102)).
Definition tolower (c : Z) : Z := if (65 <=? c) && (c <=? 90) then c + 32 else c.

(** [b[i]] and [b[i] = v]. *)
Definition ld (b : list Z) (i : nat) : outcome Z :=
  match b !! i with Some c => Ret c | None => Crash end.
Definition st (b : list Z) (i : nat) (v : Z) : outcome (list Z) :=
  if (i <? length b)%nat then Ret (<[i := v]> b) else Crash.

(** [memmove (b + o, b + i, n)]. *)
Definition memmove (b : list Z) (o i n : nat) : outcome (list Z) :=
  if (i + n <=? length b)%nat && (o + n <=? length b)%nat
  then Ret (mem_write b o (slice b i (i + n))) else Crash.

(** [strchr (p, c)] for a [c] that is not NUL: the distance from [p]. *)
Fixpoint strchr (c : Z) (p : list Z) : outcome (option nat) :=
  match p with
  | [] => Crash
  | x :: p =>
      if x =? c then Ret (Some 0%nat)
      else if x =? 0 then Ret None
      else let! r := strchr c p in Ret (S <$> r)
  end.

(** [!strncasecmp (p, lit, strlen (lit))] for a [lit] in lower case. *)
Fixpoint prefix_nocase (lit p : list Z) : outcome bool :=
  match lit with
  | [] => Ret true
  | l :: lit =>
      match p with
      | [] => Crash
      | x :: p => if tolower x =? l then prefix_nocase lit p else Ret false
      end
  end.

(** The text of [%d]. *)
Fixpoint dec_digits (fuel : nat) (k : Z) : list Z :=
  match fuel with
  | O => [k mod 10 + 48]
  | S fuel => if k <? 10 then [k + 48] else dec_digits fuel (k / 10) ++ [k mod 10 + 48]
  end.
Definition format_d (k : Z) : list Z :=
  if k <? 0 then 45 :: dec_digits 10 (- k) else dec_digits 10 k.

(** [snprintf (buf, n, ...)] where [text] is what the format expands to. *)
Definition snprintf (n : nat) (text : list Z) : list Z := take (n - 1) text.

(** The bytes of the longest prefix that satisfies [f] ([strspn]), and the rest. *)
Fixpoint span (f : Z -> bool) (s : list Z) : list Z * list Z :=
  match s with
  | [] => ([], [])
  | c :: t => if f c then (c :: (span f t).1, (span f t).2) else ([], s)
  end.

Definition char_in (c : Z) (s : list Z) : bool := existsb (Z.eqb c) s.
Lemma char_in_app c s t : char_in c (s ++ t) = char_in c s || char_in c t.
Proof. apply existsb_app. Qed.

(** Splits [char_in op "..." = true] into the characters. *)
Ltac char_cases H :=
  unfold char_in in H; rewrite existsb_exists in H;
  let x := fresh in let Hx := fresh in let He := fresh in
  destruct H as (x & Hx & He); apply Z.eqb_eq in He; subst;
  vm_compute in Hx; repeat (destruct Hx as [<- | Hx]); try (by destruct Hx).

(** The character at a pointer into a C string: the NUL after its last. *)
Definition char_at (s : list Z) : Z := match s with c :: _ => c | [] => 0 end.

(** ** Numbers *)

(** [atoll]. *)
Fixpoint atoll_digits (s : list Z) (n : Z) : Z :=
  match s with
  | c :: s => if isdigit c then atoll_digits s (n * 10 + (c - 48)) else n
  | [] => n
  end.
Fixpoint skip_space (s : list Z) : list Z :=
  match s with
  | c :: t => if isspace c then skip_space t else s
  | [] => []
  end.
Definition atoll (s : list Z) : Z :=
  match skip_space s with
  | c :: t =>
      if c =? 45 then - atoll_digits t 0
      else if c =? 43 then atoll_digits t 0
      else atoll_digits (c :: t) 0
  | [] => 0
  end.

(** [atoi]; [strtol] of a number that does not fit is not modelled. *)
Definition atoi (s : list Z) : Z := s32 (atoll s).

(** [strtoul (s, &ptr, base)] for the bases 10 and 16, on a 64-bit machine: the value
    and how far [ptr] is from [s].  A number that does not fit is ULONG_MAX; nothing
    is read when there is no digit. *)
Definition digit_of (c : Z) : Z :=
  if isdigit c then c - 48
  else if (97 <=? tolower c) && (tolower c <=? 122) then tolower c - 97 + 10
  else 99.
Definition is_digit_of (base c : Z) : bool := digit_of c <? base.

Definition strtoul_sign (s : list Z) : bool * nat :=
  match s with
  | c :: _ => if c =? 45 then (true, 1%nat) else if c =? 43 then (false, 1%nat) else (false, 0%nat)
  | [] => (false, 0%nat)
  end.
Definition strtoul_prefix (base : Z) (s : list Z) : nat :=
  match s with
  | c :: d :: e :: _ =>
      if (base =? 16) && (c =? 48) && (tolower d =? 120) && is_digit_of 16 e then 2%nat else 0%nat
  | _ => 0%nat
  end.
Definition strtoul (base : Z) (s : list Z) : Z * nat :=
  let t := skip_space s in
  let '(neg, n) := strtoul_sign t in
  let t := drop n t in
  let t := drop (strtoul_prefix base t) t in
  let ds := (span (is_digit_of base) t).1 in
  let t := (span (is_digit_of base) t).2 in
  match ds with
  | [] => (0, 0%nat)
  | _ :: _ =>
      let v := fold_left (fun v c => v * base + digit_of c) ds 0 in
      (if 2 ^ 64 <=? v then 2 ^ 64 - 1 else if neg then u64 (- v) else v, (length s - length t)%nat)
  end.

Lemma snprintf_fits n s : (length s < n)%nat -> snprintf n s = s.
Proof. intros. unfold snprintf. apply take_ge. lia. Qed.

Lemma dec_digits_plain fuel k : 0 <= k -> Forall (fun c => 48 <= c <= 57) (dec_digits fuel k).
Proof.
  revert k. induction fuel as [|fuel IH]; intros k Hk; cbn [dec_digits].
  { pose proof (Z.mod_pos_bound k 10). constructor; [lia|constructor]. }
  pose proof (Z.mod_pos_bound k 10). destruct (Z.ltb_spec k 10).
  { constructor; [lia|constructor]. }
  apply Forall_app. split; [apply IH, Z.div_pos; lia|]. constructor; [lia|constructor].
Qed.

Lemma format_d_plain k : 0 <= k -> Forall (fun c => 48 <= c <= 57) (format_d k).
Proof. intros. unfold format_d. destruct (Z.ltb_spec k 0); [lia|]. by apply dec_digits_plain. Qed.

(** The number a text of digits stands for. *)
Definition dec_value (s : list Z) : Z := fold_left (fun n c => n * 10 + (c - 48)) s 0.

Lemma dec_value_digits fuel k : 0 <= k < 10 ^ Z.of_nat (S fuel) -> dec_value (dec_digits fuel k) = k.
Proof.
  revert k. induction fuel as [|fuel IH]; intros k Hk; cbn [dec_digits].
  { rewrite Z.mod_small by lia. unfold dec_value. cbn. lia. }
  destruct (Z.ltb_spec k 10); [unfold dec_value; cbn; lia|].
  unfold dec_value in *. rewrite fold_left_app, IH.
  - cbn. pose proof (Z.div_mod k 10). lia.
  - rewrite Nat2Z.inj_succ, Z.pow_succ_r in Hk by lia.
    split; [apply Z.div_pos; lia|apply Z.div_lt_upper_bound; lia].
Qed.

Lemma format_d_inj i j : 0 <= i < 10 ^ 11 -> 0 <= j < 10 ^ 11 -> format_d i = format_d j -> i = j.
Proof.
  unfold format_d. intros Hi Hj. destruct (Z.ltb_spec i 0), (Z.ltb_spec j 0); try lia.
  intros E. rewrite <-(dec_value_digits 10 i), <-(dec_value_digits 10 j) by lia. by rewrite E.
Qed.

Lemma dec_digits_length n fuel k :
  0 <= k < 10 ^ Z.of_nat (S n) -> (length (dec_digits fuel k) <= S n)%nat.
Proof.
  revert n k. induction fuel as [|fuel IH]; intros n k Hk; cbn [dec_digits]; [cbn; lia|].
  destruct (Z.ltb_spec k 10); [cbn; lia|]. rewrite length_app. cbn [length].
  destruct n as [|n]; [lia|]. rewrite Nat2Z.inj_succ, Z.pow_succ_r in Hk by lia.
  assert (length (dec_digits fuel (k / 10)) <= S n)%nat; [|lia]. apply IH.
  split; [apply Z.div_pos; lia|apply Z.div_lt_upper_bound; lia].
Qed.

Lemma format_d_length n k :
  0 <= k -> k < 10 ^ Z.of_nat (S n) -> (length (format_d k) <= S n)%nat.
Proof. intros H0 H. unfold format_d. destruct (Z.ltb_spec k 0); [lia|]. by apply dec_digits_length. Qed.

(** [atoi] reads back what [%d] prints. *)
Lemma atoll_digits_app s t n :
  Forall (fun c => 48 <= c <= 57) s ->
  atoll_digits (s ++ t) n = atoll_digits t (fold_left (fun n c => n * 10 + (c - 48)) s n).
Proof.
  revert n. induction s as [|c s IH]; intros n; [done|].
  intros [Hc Hs]%List.Forall_cons_iff. cbn [app atoll_digits fold_left].
  replace (isdigit c) with true by (unfold isdigit; lia). by apply IH.
Qed.

Lemma atoll_format_d k : 0 <= k < 10 ^ 11 -> atoll (format_d k) = k.
Proof.
  intros Hk. pose proof (format_d_plain k ltac:(lia)) as Hp.
  assert (E : atoll_digits (format_d k) 0 = k).
  { rewrite <- (app_nil_r (format_d k)), atoll_digits_app by done. cbn [atoll_digits].
    unfold format_d. destruct (Z.ltb_spec k 0); [lia|]. by apply (dec_value_digits 10). }
  unfold atoll. destruct (format_d k) as [|c t]; [exact E|].
  apply List.Forall_cons_iff in Hp as [Hc _]. cbn [skip_space].
  replace (isspace c) with false by (unfold isspace; lia).
  replace (c =? 45) with false by lia. replace (c =? 43) with false by lia. exact E.
Qed.

Lemma atoi_format_d k : 0 <= k < 2 ^ 31 -> atoi (format_d k) = k.
Proof. intros Hk. unfold atoi. rewrite atoll_format_d by lia. apply s32_small. lia. Qed.
