(* ===== verification/FcgiProto.v ===== *)
(** FastCGI wire format: the record layouts of cwf/libfcgi/fastcgi.h and the
    functions of cwf/libfcgi/fcgiapp.c that build them.  Structures of unsigned
    chars are records of bytes, and [header_bytes] and the like give their memory
    image, which is what the code copies to and from buffers. *)
From Stdlib Require Import ZArith Lia Bool String.
From stdpp Require Import base list numbers.
From S2P Require Import Prelude.

(** ** Constants of fastcgi.h and fcgiapp.h *)

Definition FCGI_LISTENSOCK_FILENO : Z := 0.
Definition FCGI_MAX_LENGTH : Z := 65535.
Definition FCGI_HEADER_LEN : nat := 8.
Definition FCGI_VERSION_1 : Z := 1.
Definition FCGI_BEGIN_REQUEST : Z := 1.
Definition FCGI_ABORT_REQUEST : Z := 2.
Definition FCGI_END_REQUEST : Z := 3.
Definition FCGI_PARAMS : Z := 4.
Definition FCGI_STDIN : Z := 5.
Definition FCGI_STDOUT : Z := 6.
Definition FCGI_STDERR : Z := 7.
Definition FCGI_DATA : Z := 8.
Definition FCGI_GET_VALUES : Z := 9.
Definition FCGI_GET_VALUES_RESULT : Z := 10.
Definition FCGI_UNKNOWN_TYPE : Z := 11.
Definition FCGI_NULL_REQUEST_ID : Z := 0.
Definition FCGI_KEEP_CONN : Z := 1.
Definition FCGI_RESPONDER : Z := 1.
Definition FCGI_AUTHORIZER : Z := 2.
Definition FCGI_FILTER : Z := 3.
Definition FCGI_REQUEST_COMPLETE : Z := 0.
Definition FCGI_CANT_MPX_CONN : Z := 1.

Definition FCGX_UNSUPPORTED_VERSION : Z := -2.
Definition FCGX_PROTOCOL_ERROR : Z := -3.
Definition FCGX_PARAMS_ERROR : Z := -4.
Definition FCGX_CALL_SEQ_ERROR : Z := -5.

(** ** Record layouts *)

Record FCGI_Header := mkHeader {
  version : Z;
  type : Z;
  requestIdB1 : Z;
  requestIdB0 : Z;
  contentLengthB1 : Z;
  contentLengthB0 : Z;
  paddingLength : Z;
  reserved : Z
}.

Definition header_bytes (h : FCGI_Header) : list Z :=
  [version h; type h; requestIdB1 h; requestIdB0 h;
   contentLengthB1 h; contentLengthB0 h; paddingLength h; reserved h].

(** The header whose memory image is [b], as [memcpy (&header, ...)] fills it. *)
Definition header_of_bytes (b : list Z) : FCGI_Header :=
  mkHeader (nth 0 b 0) (nth 1 b 0) (nth 2 b 0) (nth 3 b 0)
           (nth 4 b 0) (nth 5 b 0) (nth 6 b 0) (nth 7 b 0).

Record FCGI_BeginRequestBody := mkBeginBody {
  roleB1 : Z;
  roleB0 : Z;
  begin_flags : Z;
  begin_reserved : list Z
}.

Definition begin_body_of_bytes (b : list Z) : FCGI_BeginRequestBody :=
  mkBeginBody (nth 0 b 0) (nth 1 b 0) (nth 2 b 0) (drop 3 b).

Record FCGI_EndRequestBody := mkEndBody {
  appStatusB3 : Z;
  appStatusB2 : Z;
  appStatusB1 : Z;
  appStatusB0 : Z;
  protocolStatus : Z;
  end_reserved : list Z
}.

Definition end_body_bytes (b : FCGI_EndRequestBody) : list Z :=
  [appStatusB3 b; appStatusB2 b; appStatusB1 b; appStatusB0 b; protocolStatus b]
  ++ end_reserved b.

Record FCGI_UnknownTypeBody := mkUnknownBody {
  unknown_type : Z;
  unknown_reserved : list Z
}.

Definition unknown_body_bytes (b : FCGI_UnknownTypeBody) : list Z :=
  unknown_type b :: unknown_reserved b.

(** ** Builders of fcgiapp.c *)

Definition MakeHeader (type requestId contentLength paddingLength : Z)
  : outcome FCGI_Header :=
  ASSERT (0 <=? contentLength) && (contentLength <=? FCGI_MAX_LENGTH) in
  ASSERT (0 <=? paddingLength) && (paddingLength <=? 0xff) in
  Ret {| version := FCGI_VERSION_1;
         FcgiProto.type := u8 type;
         requestIdB1 := u8 (Z.land (Z.shiftr requestId 8) 0xff);
         requestIdB0 := u8 (Z.land requestId 0xff);
         contentLengthB1 := u8 (Z.land (Z.shiftr contentLength 8) 0xff);
         contentLengthB0 := u8 (Z.land contentLength 0xff);
         FcgiProto.paddingLength := u8 paddingLength;
         reserved := 0 |}.

Definition MakeEndRequestBody (appStatus protocolStatus : Z) : FCGI_EndRequestBody :=
  {| appStatusB3 := u8 (Z.land (Z.shiftr appStatus 24) 0xff);
     appStatusB2 := u8 (Z.land (Z.shiftr appStatus 16) 0xff);
     appStatusB1 := u8 (Z.land (Z.shiftr appStatus 8) 0xff);
     appStatusB0 := u8 (Z.land appStatus 0xff);
     FcgiProto.protocolStatus := u8 protocolStatus;
     end_reserved := replicate 3 0 |}.

Definition MakeUnknownTypeBody (type : Z) : FCGI_UnknownTypeBody :=
  {| unknown_type := u8 type;
     unknown_reserved := replicate 7 0 |}.

(** [static int AlignInt8(unsigned n)]: UINT_MAX is [2^32 - 1]. *)
Definition AlignInt8 (n : Z) : Z :=
  s32 (Z.land (u32 (u32 n + 7)) (2 ^ 32 - 1 - 7)).

(** [AlignPtr8]: ULONG_MAX is [2^64 - 1], the pointer is its address. *)
Definition AlignPtr8 (p : Z) : Z :=
  let u := p in
  let u := u64 (Z.land (u64 (u + 7)) (2 ^ 64 - 1 - 7) - u) in
  p + u.

(** ** The wire format as a specification *)

(** What a header says, computed as [ProcessHeader] reads it. *)
Definition header_requestId (h : FCGI_Header) : Z :=
  Z.shiftl (requestIdB1 h) 8 + requestIdB0 h.
Definition header_contentLength (h : FCGI_Header) : Z :=
  Z.shiftl (contentLengthB1 h) 8 + contentLengthB0 h.

(** A record of the protocol: its type, request, content and padding. *)
Record record := mkRecord {
  rec_type : Z;
  rec_id : Z;
  rec_content : list Z;
  rec_padding : list Z
}.

Definition record_ok (r : record) : Prop :=
  is_byte (rec_type r) /\ 0 <= rec_id r < 65536 /\
  Z.of_nat (length (rec_content r)) <= 65535 /\ Z.of_nat (length (rec_padding r)) <= 255.

(** The octets of a record, from the FastCGI specification: version, type, the
    two-octet big-endian request id and content length, padding length, a
    reserved octet, then content and padding. *)
Definition encode_record (r : record) : list Z :=
  let n := Z.of_nat (length (rec_content r)) in
  [1; rec_type r; rec_id r / 256; rec_id r mod 256; n / 256; n mod 256;
   Z.of_nat (length (rec_padding r)); 0] ++ rec_content r ++ rec_padding r.

Definition encode_records (rs : list record) : list Z := concat (map encode_record rs).

(** The END_REQUEST record of the specification. *)
Definition end_request_record (id appStatus protocolStatus : Z) : record :=
  mkRecord FCGI_END_REQUEST id
    [appStatus / 2 ^ 24 mod 256; appStatus / 2 ^ 16 mod 256;
     appStatus / 2 ^ 8 mod 256; appStatus mod 256; protocolStatus mod 256; 0; 0; 0] [].

#[global] Arguments header_bytes h : simpl never.
#[global] Arguments encode_record r : simpl never.
#[global] Arguments AlignInt8 n : simpl never.

(** ** Lemmas *)

Lemma header_roundtrip h : header_of_bytes (header_bytes h) = h.
Proof. by destruct h. Qed.

Lemma length_header_bytes h : length (header_bytes h) = FCGI_HEADER_LEN.
Proof. done. Qed.

Lemma MakeHeader_asserts t id cl pl :
  0 <= cl <= 65535 -> 0 <= pl <= 255 -> returns (MakeHeader t id cl pl).
Proof.
  intros. unfold MakeHeader, FCGI_MAX_LENGTH.
  repeat (case_goal; bool_to_prop; [|lia || (rewrite andb_false_iff in *; lia)]).
  eexists; done.
Qed.

(** The header built for a record is the header of its wire format. *)
Lemma MakeHeader_encodes t id cl pl :
  is_byte t -> 0 <= id < 65536 -> 0 <= cl <= 65535 -> 0 <= pl <= 255 ->
  exists h, MakeHeader t id cl pl = Ret h /\
    header_bytes h = [1; t; id / 256; id mod 256; cl / 256; cl mod 256; pl; 0].
Proof.
  intros Ht Hid Hcl Hpl. destruct (MakeHeader_asserts t id cl pl Hcl Hpl) as [h Hh].
  exists h. split; [done|]. unfold MakeHeader in Hh.
  repeat case_match; try done. injection Hh as <-. unfold header_bytes; cbn -[Z.div Z.modulo].
  rewrite !u8_land_255, !shiftr_8, (u8_small t) by done.
  rewrite (u8_small pl) by (unfold is_byte; lia).
  repeat f_equal; apply Z.mod_small; split;
    (apply Z.div_pos || apply Z.div_lt_upper_bound); lia.
Qed.

(** The header built for a content and a padding of these lengths makes a record. *)
Lemma MakeHeader_record t id cl pl :
  is_byte t -> 0 <= id < 65536 -> 0 <= cl <= 65535 -> 0 <= pl <= 255 ->
  exists h, MakeHeader t id cl pl = Ret h /\
    forall content padding,
      Z.of_nat (length content) = cl -> Z.of_nat (length padding) = pl ->
      header_bytes h ++ content ++ padding = encode_record (mkRecord t id content padding).
Proof.
  intros Ht Hid Hcl Hpl. destruct (MakeHeader_encodes t id cl pl Ht Hid Hcl Hpl) as (h & Hh & Hb).
  exists h. split; [done|]. intros content padding <- <-. by rewrite Hb.
Qed.

Lemma header_requestId_value h id :
  requestIdB1 h = id / 256 -> requestIdB0 h = id mod 256 -> header_requestId h = id.
Proof.
  unfold header_requestId. intros -> ->. rewrite shiftl_8.
  pose proof (Z.div_mod id 256). lia.
Qed.

Lemma header_contentLength_value h n :
  contentLengthB1 h = n / 256 -> contentLengthB0 h = n mod 256 -> header_contentLength h = n.
Proof.
  unfold header_contentLength. intros -> ->. rewrite shiftl_8.
  pose proof (Z.div_mod n 256). lia.
Qed.

Lemma length_encode_record r :
  length (encode_record r) = (8 + length (rec_content r) + length (rec_padding r))%nat.
Proof. unfold encode_record. rewrite !length_app. cbn [length]. lia. Qed.

Lemma encode_records_cons r rs :
  encode_records (r :: rs) = encode_record r ++ encode_records rs.
Proof. done. Qed.

Lemma encode_records_app rs1 rs2 :
  encode_records (rs1 ++ rs2) = encode_records rs1 ++ encode_records rs2.
Proof. unfold encode_records. by rewrite map_app, concat_app. Qed.

(** ** Alignment *)

Lemma land_align w x :
  3 <= w -> 0 <= x < 2 ^ w -> Z.land x (2 ^ w - 1 - 7) = x / 8 * 8.
Proof.
  intros Hw Hx.
  replace (2 ^ w - 1 - 7) with (Z.ldiff (Z.ones w) (Z.ones 3)).
  - replace (Z.land x (Z.ldiff (Z.ones w) (Z.ones 3)))
      with (Z.ldiff (Z.land x (Z.ones w)) (Z.ones 3)).
    + rewrite Z.land_ones, Z.mod_small by lia. rewrite Z.ldiff_ones_r by lia.
      by rewrite Z.shiftr_div_pow2, Z.shiftl_mul_pow2 by lia.
    + apply Z.bits_inj'. intros n Hn. rewrite Z.ldiff_spec, !Z.land_spec, Z.ldiff_spec.
      by rewrite andb_assoc.
  - rewrite Z.ldiff_ones_r by lia. rewrite Z.shiftr_div_pow2, Z.shiftl_mul_pow2 by lia.
    replace (Z.ones w) with ((2 ^ (w - 3) - 1) * 8 + 7).
    + rewrite Z.div_add_l by lia. change (2 ^ 3) with 8. change (7 / 8) with 0.
      replace (2 ^ w) with (2 ^ (w - 3) * 2 ^ 3) by (rewrite <-Z.pow_add_r by lia; f_equal; lia).
      lia.
    + rewrite Z.ones_equiv.
      replace (2 ^ w) with (2 ^ (w - 3) * 2 ^ 3) by (rewrite <-Z.pow_add_r by lia; f_equal; lia).
      lia.
Qed.

Lemma AlignInt8_value n : 0 <= n <= 2 ^ 31 - 8 -> AlignInt8 n = (n + 7) / 8 * 8.
Proof.
  intros Hn. unfold AlignInt8. rewrite (u32_small n) by lia.
  rewrite u32_small by lia. rewrite land_align by lia. apply s32_small.
  pose proof (Z.div_mod (n + 7) 8). pose proof (Z.mod_pos_bound (n + 7) 8). lia.
Qed.

Lemma AlignInt8_bounds n :
  0 <= n <= 2 ^ 31 - 8 -> n <= AlignInt8 n < n + 8 /\ AlignInt8 n mod 8 = 0.
Proof.
  intros Hn. rewrite AlignInt8_value by done. rewrite Z.mod_mul by lia.
  pose proof (Z.div_mod (n + 7) 8). pose proof (Z.mod_pos_bound (n + 7) 8). lia.
Qed.

Lemma AlignPtr8_value p :
  0 <= p < 2 ^ 64 - 8 -> AlignPtr8 p = (p + 7) / 8 * 8.
Proof.
  intros Hp. unfold AlignPtr8. cbn zeta. unfold u64 at 2. rewrite Z.mod_small by lia.
  rewrite land_align by lia. unfold u64. rewrite Z.mod_small.
  - lia.
  - pose proof (Z.div_mod (p + 7) 8). pose proof (Z.mod_pos_bound (p + 7) 8). lia.
Qed.
