(* ===== verification/OsUnix.v ===== *)
(** The operating-system layer of the FastCGI library: cwf/libfcgi/os_unix.c,
    over a model of the kernel calls it makes.

    The kernel is a record of scripts: what each [read] and [write] on a connected
    descriptor returns, which connections [accept] yields (with the signals that
    arrive meanwhile) and what [select] says.  Every theorem quantifies over the
    scripts.  [os_state] is the static state of os_unix.c together with errno. *)
From Stdlib Require Import ZArith Lia Bool String.
From stdpp Require Import base list numbers gmap.
From S2P Require Import Prelude.

(** ** The kernel *)

(** One [read]: bytes that have arrived, or an error. A [read] at the end of the
    script is the end of file. *)
Inductive read_event :=
| RData (bs : list Z)
| RErr (e : Z).

(** One [write]: how many bytes the kernel takes at most, or an error. A [write]
    at the end of the script takes everything. *)
Inductive write_event :=
| WTake (n : nat)
| WErr (e : Z).

Inductive sockaddr :=
| SA_inet (addr : Z)
| SA_unix
| SA_other (family : Z).

(** An open connection: the scripts of its reads and writes, what has been
    written to it, whether it becomes readable within the two seconds of
    [is_af_unix_keeper], and what [select] returns while it is being closed. *)
Record conn := mkConn {
  c_rx : list read_event;
  c_wr : list write_event;
  c_tx : list Z;
  c_readable : bool;
  c_select : list Z
}.

(** One return of [accept]: a descriptor with its peer, or an errno; the flag says
    that SIGUSR1 is delivered before [accept] returns. *)
Inductive accept_event :=
| AConn (sig : bool) (fd : Z) (sa : sockaddr) (c : conn)
| AErr (sig : bool) (e : Z).

(** The open connections, the script of [accept], and the closed descriptors with
    what had been written to them. *)
Record kernel := mkKernel {
  k_conns : gmap Z conn;
  k_accept : list accept_event;
  k_closed : list (Z * list Z)
}.

(** ** The static state of os_unix.c *)

(** An entry of the table of outstanding asynchronous operations; a completion
    procedure is named by a number, and [aio_buf] is the address of the buffer. *)
Record AioInfo := mkAio {
  procPtr : option nat;
  clientData : Z;
  aio_fd : Z;
  aio_len : Z;
  aio_offset : Z;
  aio_buf : Z;
  inUse : bool
}.

Record aio_state := mkAioState {
  asyncIoInUse : bool;
  asyncIoTableSize : Z;
  asyncIoTable : option (list AioInfo);
  readFdSet : gset Z;
  writeFdSet : gset Z;
  readFdSetPost : gset Z;
  writeFdSetPost : gset Z;
  numRdPosted : Z;
  numWrPosted : Z;
  maxFd : Z
}.

Record os_state := mkOs {
  os_errno : Z;
  shutdownPending : bool;
  shutdownNow : bool;
  libInitialized : bool;
  async : aio_state;
  kern : kernel
}.

Definition set_asyncIoInUse (v : bool) (a : aio_state) : aio_state :=
  {| asyncIoInUse := v; asyncIoTableSize := asyncIoTableSize a;
     asyncIoTable := asyncIoTable a; readFdSet := readFdSet a;
     writeFdSet := writeFdSet a; readFdSetPost := readFdSetPost a;
     writeFdSetPost := writeFdSetPost a; numRdPosted := numRdPosted a;
     numWrPosted := numWrPosted a; maxFd := maxFd a |}.
Definition set_asyncIoTableSize (v : Z) (a : aio_state) : aio_state :=
  {| asyncIoInUse := asyncIoInUse a; asyncIoTableSize := v;
     asyncIoTable := asyncIoTable a; readFdSet := readFdSet a;
     writeFdSet := writeFdSet a; readFdSetPost := readFdSetPost a;
     writeFdSetPost := writeFdSetPost a; numRdPosted := numRdPosted a;
     numWrPosted := numWrPosted a; maxFd := maxFd a |}.
Definition set_asyncIoTable (v : option (list AioInfo)) (a : aio_state) : aio_state :=
  {| asyncIoInUse := asyncIoInUse a; asyncIoTableSize := asyncIoTableSize a;
     asyncIoTable := v; readFdSet := readFdSet a; writeFdSet := writeFdSet a;
     readFdSetPost := readFdSetPost a; writeFdSetPost := writeFdSetPost a;
     numRdPosted := numRdPosted a; numWrPosted := numWrPosted a;
     maxFd := maxFd a |}.
Definition set_readFdSet (v : gset Z) (a : aio_state) : aio_state :=
  {| asyncIoInUse := asyncIoInUse a; asyncIoTableSize := asyncIoTableSize a;
     asyncIoTable := asyncIoTable a; readFdSet := v; writeFdSet := writeFdSet a;
     readFdSetPost := readFdSetPost a; writeFdSetPost := writeFdSetPost a;
     numRdPosted := numRdPosted a; numWrPosted := numWrPosted a;
     maxFd := maxFd a |}.
Definition set_writeFdSet (v : gset Z) (a : aio_state) : aio_state :=
  {| asyncIoInUse := asyncIoInUse a; asyncIoTableSize := asyncIoTableSize a;
     asyncIoTable := asyncIoTable a; readFdSet := readFdSet a; writeFdSet := v;
     readFdSetPost := readFdSetPost a; writeFdSetPost := writeFdSetPost a;
     numRdPosted := numRdPosted a; numWrPosted := numWrPosted a;
     maxFd := maxFd a |}.
Definition set_readFdSetPost (v : gset Z) (a : aio_state) : aio_state :=
  {| asyncIoInUse := asyncIoInUse a; asyncIoTableSize := asyncIoTableSize a;
     asyncIoTable := asyncIoTable a; readFdSet := readFdSet a;
     writeFdSet := writeFdSet a; readFdSetPost := v;
     writeFdSetPost := writeFdSetPost a; numRdPosted := numRdPosted a;
     numWrPosted := numWrPosted a; maxFd := maxFd a |}.
Definition set_writeFdSetPost (v : gset Z) (a : aio_state) : aio_state :=
  {| asyncIoInUse := asyncIoInUse a; asyncIoTableSize := asyncIoTableSize a;
     asyncIoTable := asyncIoTable a; readFdSet := readFdSet a;
     writeFdSet := writeFdSet a; readFdSetPost := readFdSetPost a;
     writeFdSetPost := v; numRdPosted := numRdPosted a;
     numWrPosted := numWrPosted a; maxFd := maxFd a |}.
Definition set_numRdPosted (v : Z) (a : aio_state) : aio_state :=
  {| asyncIoInUse := asyncIoInUse a; asyncIoTableSize := asyncIoTableSize a;
     asyncIoTable := asyncIoTable a; readFdSet := readFdSet a;
     writeFdSet := writeFdSet a; readFdSetPost := readFdSetPost a;
     writeFdSetPost := writeFdSetPost a; numRdPosted := v;
     numWrPosted := numWrPosted a; maxFd := maxFd a |}.
Definition set_numWrPosted (v : Z) (a : aio_state) : aio_state :=
  {| asyncIoInUse := asyncIoInUse a; asyncIoTableSize := asyncIoTableSize a;
     asyncIoTable := asyncIoTable a; readFdSet := readFdSet a;
     writeFdSet := writeFdSet a; readFdSetPost := readFdSetPost a;
     writeFdSetPost := writeFdSetPost a; numRdPosted := numRdPosted a;
     numWrPosted := v; maxFd := maxFd a |}.
Definition set_maxFd (v : Z) (a : aio_state) : aio_state :=
  {| asyncIoInUse := asyncIoInUse a; asyncIoTableSize := asyncIoTableSize a;
     asyncIoTable := asyncIoTable a; readFdSet := readFdSet a;
     writeFdSet := writeFdSet a; readFdSetPost := readFdSetPost a;
     writeFdSetPost := writeFdSetPost a; numRdPosted := numRdPosted a;
     numWrPosted := numWrPosted a; maxFd := v |}.

Definition set_os_errno (v : Z) (o : os_state) : os_state :=
  {| os_errno := v; shutdownPending := shutdownPending o;
     shutdownNow := shutdownNow o; libInitialized := libInitialized o;
     async := async o; kern := kern o |}.
Definition set_shutdownPending (v : bool) (o : os_state) : os_state :=
  {| os_errno := os_errno o; shutdownPending := v; shutdownNow := shutdownNow o;
     libInitialized := libInitialized o; async := async o; kern := kern o |}.
Definition set_shutdownNow (v : bool) (o : os_state) : os_state :=
  {| os_errno := os_errno o; shutdownPending := shutdownPending o;
     shutdownNow := v; libInitialized := libInitialized o; async := async o;
     kern := kern o |}.
Definition set_libInitialized (v : bool) (o : os_state) : os_state :=
  {| os_errno := os_errno o; shutdownPending := shutdownPending o;
     shutdownNow := shutdownNow o; libInitialized := v; async := async o;
     kern := kern o |}.
Definition set_async (v : aio_state) (o : os_state) : os_state :=
  {| os_errno := os_errno o; shutdownPending := shutdownPending o;
     shutdownNow := shutdownNow o; libInitialized := libInitialized o; async := v;
     kern := kern o |}.
Definition set_kern (v : kernel) (o : os_state) : os_state :=
  {| os_errno := os_errno o; shutdownPending := shutdownPending o;
     shutdownNow := shutdownNow o; libInitialized := libInitialized o;
     async := async o; kern := v |}.

Definition upd_async (f : aio_state -> aio_state) (o : os_state) : os_state :=
  set_async (f (async o)) o.

Definition put_conn (fd : Z) (c : conn) (o : os_state) : os_state :=
  set_kern (mkKernel (<[fd := c]> (k_conns (kern o))) (k_accept (kern o))
                     (k_closed (kern o))) o.

(** errno values (Linux). *)
Definition EINTR : Z := 4.
Definition EBADF : Z := 9.
Definition EPROTO : Z := 71.
Definition ENETUNREACH : Z := 101.
Definition ECONNABORTED : Z := 103.
Definition ECONNRESET : Z := 104.
Definition ETIMEDOUT : Z := 110.
Definition EHOSTUNREACH : Z := 113.

(** ** System calls *)

(** [read (fd, buf, len)]: the count and the bytes stored in [buf]. *)
Definition sys_read (fd : Z) (len : nat) (o : os_state) : Z * list Z * os_state :=
  match k_conns (kern o) !! fd with
  | None => (-1, [], set_os_errno EBADF o)
  | Some c =>
      match c_rx c with
      | [] => (0, [], o)
      | RErr e :: rx =>
          (-1, [], set_os_errno e
             (put_conn fd (mkConn rx (c_wr c) (c_tx c) (c_readable c) (c_select c)) o))
      | RData bs :: rx =>
          let rx := if (length bs <=? len)%nat then rx else RData (drop len bs) :: rx in
          (Z.of_nat (length (take len bs)), take len bs,
           put_conn fd (mkConn rx (c_wr c) (c_tx c) (c_readable c) (c_select c)) o)
      end
  end.

(** [write (fd, buf, len)] on the bytes of [buf]. *)
Definition sys_write (fd : Z) (bs : list Z) (o : os_state) : Z * os_state :=
  match k_conns (kern o) !! fd with
  | None => (-1, set_os_errno EBADF o)
  | Some c =>
      match c_wr c with
      | [] => (Z.of_nat (length bs),
               put_conn fd (mkConn (c_rx c) [] (c_tx c ++ bs) (c_readable c) (c_select c)) o)
      | WErr e :: wr =>
          (-1, set_os_errno e
             (put_conn fd (mkConn (c_rx c) wr (c_tx c) (c_readable c) (c_select c)) o))
      | WTake n :: wr =>
          (Z.of_nat (length (take n bs)),
           put_conn fd (mkConn (c_rx c) wr (c_tx c ++ take n bs) (c_readable c) (c_select c)) o)
      end
  end.

(** [close (fd)]: the descriptor disappears and what was written to it is logged. *)
Definition sys_close (fd : Z) (o : os_state) : Z * os_state :=
  match k_conns (kern o) !! fd with
  | None => (-1, set_os_errno EBADF o)
  | Some c =>
      (0, set_kern (mkKernel (delete fd (k_conns (kern o))) (k_accept (kern o))
                             (k_closed (kern o) ++ [(fd, c_tx c)])) o)
  end.

(** [shutdown (fd, 1)]. *)
Definition sys_shutdown (fd : Z) (o : os_state) : Z :=
  match k_conns (kern o) !! fd with None => -1 | Some _ => 0 end.

(** [select] on the single descriptor [fd] while it is being closed: the next
    result of its script, a timeout when the script is exhausted. *)
Definition sys_select_closing (fd : Z) (o : os_state) : Z * os_state :=
  match k_conns (kern o) !! fd with
  | None => (-1, set_os_errno EBADF o)
  | Some c =>
      match c_select c with
      | [] => (0, o)
      | r :: rs => (r, put_conn fd (mkConn (c_rx c) (c_wr c) (c_tx c) (c_readable c) rs) o)
      end
  end.

Inductive accept_result :=
| Accepted (fd : Z) (sa : sockaddr)
| Failed.

(** [accept (listen_sock, ...)]; [None] when the script is exhausted, that is,
    when the call blocks forever. *)
Definition sys_accept (o : os_state) : option (accept_result * os_state) :=
  match k_accept (kern o) with
  | [] => None
  | AErr sig e :: evs =>
      Some (Failed,
            set_os_errno e
              (set_shutdownPending (shutdownPending o || sig)
                 (set_kern (mkKernel (k_conns (kern o)) evs (k_closed (kern o))) o)))
  | AConn sig fd sa c :: evs =>
      Some (Accepted fd sa,
            put_conn fd c
              (set_shutdownPending (shutdownPending o || sig)
                 (set_kern (mkKernel (k_conns (kern o)) evs (k_closed (kern o))) o)))
  end.

(** ** The functions of os_unix.c: input and output *)

Definition OS_ShutdownPending (o : os_state) : os_state := set_shutdownPending true o.

Definition OS_Read (fd : Z) (len : nat) (o : os_state) : Z * list Z * os_state :=
  if shutdownNow o then (-1, [], o) else sys_read fd len o.

Definition OS_Write (fd : Z) (bs : list Z) (o : os_state) : Z * os_state :=
  if shutdownNow o then (-1, o) else sys_write fd bs o.

(** The table index of the read and the write operation of a descriptor. *)
Definition AIO_RD_IX (fd : Z) : Z := fd * 2.
Definition AIO_WR_IX (fd : Z) : Z := fd * 2 + 1.

(** [asyncIoTable[index]] and its update; [None] when the table is NULL or the
    index is outside it. *)
Definition aio_get (index : Z) (a : aio_state) : option AioInfo :=
  if index <? 0 then None
  else t ← asyncIoTable a; t !! Z.to_nat index.
Definition aio_put (index : Z) (i : AioInfo) (a : aio_state) : aio_state :=
  set_asyncIoTable (fmap <[Z.to_nat index := i]> (asyncIoTable a)) a.

Definition set_inUse (v : bool) (i : AioInfo) : AioInfo :=
  mkAio (procPtr i) (clientData i) (aio_fd i) (aio_len i) (aio_offset i) (aio_buf i) v.

(** Clears [inUse] of an entry when it is set. *)
Definition aio_release (index : Z) (a : aio_state) : outcome aio_state :=
  match aio_get index a with
  | None => Crash
  | Some i => Ret (if inUse i then aio_put index (set_inUse false i) a else a)
  end.

(** The descriptors an [fd_set] has a bit for: FD_SET, FD_CLR and FD_ISSET of
    another write or read past it. *)
Definition FD_SETSIZE : Z := 1024.
Definition fd_in_set (fd : Z) : bool := (0 <=? fd) && (fd <? FD_SETSIZE).

(** The part of [OS_Close] that forgets the asynchronous operations of [fd]. *)
Definition close_async (fd : Z) (a : aio_state) : outcome aio_state :=
  ASSERT fd_in_set fd in
  let a := set_readFdSet (readFdSet a ∖ {[fd]}) a in
  let a := set_readFdSetPost (readFdSetPost a ∖ {[fd]}) a in
  let! a := aio_release (AIO_RD_IX fd) a in
  let a := set_writeFdSet (writeFdSet a ∖ {[fd]}) a in
  let a := set_writeFdSetPost (writeFdSetPost a ∖ {[fd]}) a in
  let! a := aio_release (AIO_WR_IX fd) a in
  Ret (if maxFd a =? fd then set_maxFd (maxFd a - 1) a else a).

(** The loop of [OS_Close] that reads the client's data until the end of file or
    a timeout. *)
Fixpoint close_drain (fuel : nat) (fd : Z) (o : os_state) : outcome os_state :=
  match fuel with
  | O => NoFuel
  | S fuel =>
      let '(rv, o) := sys_select_closing fd o in
      if rv >? 0 then
        let '(n, _, o) := sys_read fd 1024 o in
        if n >? 0 then close_drain fuel fd o else Ret o
      else Ret o
  end.

(** Each turn of the loop uses up one result of the [select] script. *)
Definition close_fuel (fd : Z) (o : os_state) : nat :=
  match k_conns (kern o) !! fd with
  | None => 1
  | Some c => S (length (c_select c))
  end.

Definition OS_Close (fd : Z) (o : os_state) : outcome (Z * os_state) :=
  if fd =? -1 then Ret (0, o)
  else
    let! o :=
      (if asyncIoInUse (async o) then
         let! a := close_async fd (async o) in Ret (set_async a o)
       else Ret o) in
    let! o :=
      (if sys_shutdown fd o =? 0 then close_drain (close_fuel fd o) fd o else Ret o) in
    Ret (sys_close fd o).

Definition OS_IpcClose (ipcFd : Z) (o : os_state) : outcome (Z * os_state) :=
  OS_Close ipcFd o.

(** ** Accepting connections *)

Definition is_reasonable_accept_errno (error : Z) : bool :=
  (error =? EPROTO) || (error =? ECONNABORTED) || (error =? ECONNRESET) ||
  (error =? ETIMEDOUT) || (error =? EHOSTUNREACH) || (error =? ENETUNREACH).

(** USE_LOCKING is not defined in fcgi_config.h. *)
Definition AcquireLock (sock : Z) (fail_on_intr : bool) : Z := 0.
Definition ReleaseLock (sock : Z) : Z := 0.

(** [select] on a fresh AF_UNIX connection: does it become readable in time? *)
Definition is_af_unix_keeper (fd : Z) (o : os_state) : bool :=
  match k_conns (kern o) !! fd with
  | None => false
  | Some c => c_readable c
  end.

(** The parts of a comma separated list, as the loop over [strchr (cur, ',')]
    visits them: there is always at least one. *)
Fixpoint split_commas (acc s : list Z) : list (list Z) :=
  match s with
  | [] => [rev acc]
  | c :: s => if c =? 44 then rev acc :: split_commas [] s else split_commas (c :: acc) s
  end.

Section Accept.
(** [inet_addr] of the C library. *)
Variable inet_addr : list Z -> Z.

(** [clientList] is a C string, [None] when the pointer is NULL. *)
Definition ClientAddrOK (addr : Z) (clientList : option (list Z)) : bool :=
  match clientList with
  | None => true
  | Some [] => true
  | Some l => existsb (fun cur => inet_addr cur =? addr) (split_commas [] l)
  end.

(** The innermost loop, around [accept]. The descriptor and the address of the
    peer are those of the last successful call. *)
Fixpoint accept_retry (fuel : nat) (fail_on_intr : bool) (socket : Z) (sa : sockaddr)
    (o : os_state) : outcome (Z * sockaddr * os_state) :=
  match fuel with
  | O => NoFuel
  | S fuel =>
      if shutdownPending o then Ret (socket, sa, o)
      else
        match sys_accept o with
        | None => NoFuel
        | Some (Accepted fd sa, o) => Ret (fd, sa, o)
        | Some (Failed, o) =>
            if (os_errno o =? EINTR) && negb fail_on_intr && negb (shutdownPending o)
            then accept_retry fuel fail_on_intr (-1) sa o
            else Ret (-1, sa, o)
        end
  end.

(** The loop inside the lock: [None] when [OS_Accept] returns -1. *)
Fixpoint accept_inner (fuel : nat) (listen_sock : Z) (fail_on_intr : bool)
    (webServerAddrs : option (list Z)) (socket : Z) (sa : sockaddr) (o : os_state)
    : outcome (option (Z * sockaddr) * os_state) :=
  match fuel with
  | O => NoFuel
  | S fuel =>
      let! (socket, sa, o) := accept_retry (S fuel) fail_on_intr socket sa o in
      if socket <? 0 then
        if shutdownPending o || negb (is_reasonable_accept_errno (os_errno o))
        then Ret (None, o)
        else accept_inner fuel listen_sock fail_on_intr webServerAddrs socket sa
               (set_os_errno 0 o)
      else
        match sa with
        | SA_inet addr =>
            if ClientAddrOK addr webServerAddrs then Ret (Some (socket, sa), o)
            else
              let '(_, o) := sys_close socket o in
              accept_inner fuel listen_sock fail_on_intr webServerAddrs socket sa o
        | _ => Ret (Some (socket, sa), o)
        end
  end.

Fixpoint accept_outer (fuel : nat) (listen_sock : Z) (fail_on_intr : bool)
    (webServerAddrs : option (list Z)) (socket : Z) (sa : sockaddr) (o : os_state)
    : outcome (Z * os_state) :=
  match fuel with
  | O => NoFuel
  | S fuel =>
      if negb (AcquireLock listen_sock fail_on_intr =? 0) then Ret (-1, o)
      else
        let! (r, o) := accept_inner (S fuel) listen_sock fail_on_intr webServerAddrs
                         socket sa o in
        match r with
        | None => Ret (-1, o)
        | Some (socket, sa) =>
            if negb (ReleaseLock listen_sock =? 0) then Ret (-1, o)
            else
              match sa with
              | SA_unix =>
                  if is_af_unix_keeper socket o then Ret (socket, o)
                  else
                    let '(_, o) := sys_close socket o in
                    accept_outer fuel listen_sock fail_on_intr webServerAddrs socket sa o
              | _ => Ret (socket, o)
              end
        end
  end.

(** [sa] is uninitialised before the first connection; it is then never read. *)
Definition OS_Accept (fuel : nat) (listen_sock : Z) (fail_on_intr : bool)
    (webServerAddrs : option (list Z)) (o : os_state) : outcome (Z * os_state) :=
  accept_outer fuel listen_sock fail_on_intr webServerAddrs (-1) (SA_other 0) o.
End Accept.

(** ** Initialisation *)

Definition ENOMEM : Z := 12.

(** [OS_LibInit]; [table] is the memory [malloc] returns for the table, cleared by
    [memset], or [None] when it fails. Installing the handlers of SIGPIPE and
    SIGUSR1 changes none of the state modelled here. *)
Definition OS_LibInit (malloc_ok : bool) (o : os_state) : Z * os_state :=
  if libInitialized o then (0, o)
  else if negb malloc_ok then (-1, set_os_errno ENOMEM o)
  else
    let table := replicate (Z.to_nat (asyncIoTableSize (async o))) (mkAio None 0 0 0 0 0 false) in
    let o := upd_async (set_asyncIoTable (Some table)) o in
    let o := upd_async (fun a => set_writeFdSetPost ∅ (set_readFdSetPost ∅
               (set_writeFdSet ∅ (set_readFdSet ∅ a)))) o in
    (0, set_libInitialized true o).

Definition OS_LibShutdown (o : os_state) : os_state :=
  if negb (libInitialized o) then o
  else set_libInitialized false (upd_async (set_asyncIoTable None) o).
