(* ===== verification/OsAsync.v ===== *)
(** The asynchronous input and output of cwf/libfcgi/os_unix.c: OS_AsyncRead,
    OS_AsyncWrite, OS_CloseRead and the dispatcher OS_DoIo, with the completion
    procedures of the application as functions on the whole state.

    [aio_ok] is the invariant of the table and of the descriptor sets. The theorems
    of OsDoIo state that the dispatcher keeps it, whom it calls, and when it stops
    calling anyone. *)
From Stdlib Require Import ZArith Lia Bool String.
From stdpp Require Import base list numbers gmap.
From S2P Require Import Prelude.
From S2P Require Import OsUnix.

(** ** Calls that may end the process *)

(** The value of a call, or the status it passes to [exit]. *)
Definition io (B : Type) : Type := outcome (B + Z).
Definition io_ret {B} (b : B) : io B := Ret (inl b).
Definition io_exit {B} (code : Z) : io B := Ret (inr code).
Definition io_bind {B C} (m : io B) (k : B -> io C) : io C :=
  let! r := m in match r with inl b => k b | inr code => io_exit code end.

Notation "'let?' p ':=' m 'in' k" := (io_bind m (fun p => k))
  (at level 10, p pattern, m at level 200, k at level 200) : oce_scope.

(** ** Starting operations *)

(** An entry cleared by [memset]. *)
Definition aio_zero : AioInfo := mkAio None 0 0 0 0 0 false.

(** The stores that start an operation on the entry [index]. *)
Definition aio_start (index fd offset buf len : Z) (proc : option nat) (client : Z)
    (a : aio_state) : outcome aio_state :=
  match aio_get index a with
  | None => Crash
  | Some i =>
      ASSERT negb (inUse i) in
      Ret (aio_put index (mkAio proc client fd len offset buf true) a)
  end.

Definition FD_SET_read (fd : Z) (a : aio_state) : outcome aio_state :=
  ASSERT fd_in_set fd in Ret (set_readFdSet ({[fd]} ∪ readFdSet a) a).
Definition FD_SET_write (fd : Z) (a : aio_state) : outcome aio_state :=
  ASSERT fd_in_set fd in Ret (set_writeFdSet ({[fd]} ∪ writeFdSet a) a).

Definition raise_maxFd (fd : Z) (a : aio_state) : aio_state :=
  if fd >? maxFd a then set_maxFd fd a else a.

Definition STDIN_FILENO : Z := 0.

Definition OS_AsyncReadStdin (buf len : Z) (proc : option nat) (client : Z)
    (a : aio_state) : io (Z * aio_state) :=
  let index := AIO_RD_IX STDIN_FILENO in
  let a := set_asyncIoInUse true a in
  let! a := aio_start index STDIN_FILENO 0 buf len proc client a in
  let! a := FD_SET_read STDIN_FILENO a in
  io_ret (0, raise_maxFd STDIN_FILENO a).

Section Alloc.
(** What a new block of [n] entries holds; [None] when there is no memory. *)
Variable malloc_entries : Z -> option (list AioInfo).

(** [realloc]: the old entries, followed by what the new memory holds. *)
Definition realloc_entries (t : option (list AioInfo)) (n : Z) : option (list AioInfo) :=
  let old := default [] t in
  m ← malloc_entries n; Some (take (Z.to_nat n) (old ++ drop (length old) m)).

(** The doubling of an [int] that is too large is undefined. *)
Definition GrowAsyncTable (a : aio_state) : io aio_state :=
  let oldTableSize := asyncIoTableSize a in
  ASSERT oldTableSize <? 2 ^ 30 in
  let a := set_asyncIoTableSize (oldTableSize * 2) a in
  match realloc_entries (asyncIoTable a) (asyncIoTableSize a) with
  | None => io_exit ENOMEM
  | Some t =>
      let n := Z.to_nat oldTableSize in
      io_ret (set_asyncIoTable
                (Some (Prelude.mem_write t n (replicate n aio_zero))) a)
  end.

Fixpoint grow_until (fuel : nat) (index : Z) (a : aio_state) : io aio_state :=
  match fuel with
  | O => NoFuel
  | S fuel =>
      if index >=? asyncIoTableSize a then
        let? a := GrowAsyncTable a in grow_until fuel index a
      else io_ret a
  end.

(** The table at least doubles in every turn. *)
Definition grow_fuel (index : Z) : nat := S (S (Z.to_nat (Z.log2 index))).

Definition OS_AsyncRead (fd offset buf len : Z) (proc : option nat) (client : Z)
    (a : aio_state) : io (Z * aio_state) :=
  let index := AIO_RD_IX fd in
  ASSERT bool_decide (is_Some (asyncIoTable a)) in
  let a := set_asyncIoInUse true a in
  let a := raise_maxFd fd a in
  let? a := grow_until (grow_fuel index) index a in
  let! a := aio_start index fd offset buf len proc client a in
  let! a := FD_SET_read fd a in
  io_ret (0, a).

Definition OS_AsyncWrite (fd offset buf len : Z) (proc : option nat) (client : Z)
    (a : aio_state) : io (Z * aio_state) :=
  let index := AIO_WR_IX fd in
  let a := set_asyncIoInUse true a in
  let a := raise_maxFd fd a in
  let? a := grow_until (grow_fuel index) index a in
  let! a := aio_start index fd offset buf len proc client a in
  let! a := FD_SET_write fd a in
  io_ret (0, a).
End Alloc.

(** ** Cancelling reads *)

(** [shutdown (fd, 0)]: nothing more can be received. *)
Definition sys_shutdown_read (fd : Z) (o : os_state) : Z * os_state :=
  match k_conns (kern o) !! fd with
  | None => (-1, set_os_errno EBADF o)
  | Some c => (0, put_conn fd (mkConn [] (c_wr c) (c_tx c) (c_readable c) (c_select c)) o)
  end.

(** What OS_CloseRead does to the table and the sets. *)
Definition cancel_read (fd : Z) (a : aio_state) : outcome aio_state :=
  match aio_get (AIO_RD_IX fd) a with
  | None => Crash
  | Some i =>
      if inUse i then
        let a := aio_put (AIO_RD_IX fd) (set_inUse false i) a in
        ASSERT fd_in_set fd in Ret (set_readFdSet (readFdSet a ∖ {[fd]}) a)
      else Ret a
  end.

Definition OS_CloseRead (fd : Z) (o : os_state) : outcome (Z * os_state) :=
  let! a := cancel_read fd (async o) in
  Ret (sys_shutdown_read fd (set_async a o)).

(** ** The dispatcher *)

(** The state of the library, the memory of the process, in which a byte that was
    never stored is 0, and the state of the application. *)
Record dio (A : Type) := mkDio {
  d_os : os_state;
  d_mem : gmap Z Z;
  d_app : A
}.
Arguments mkDio {A} d_os d_mem d_app.
Arguments d_os {A} d.
Arguments d_mem {A} d.
Arguments d_app {A} d.

Definition d_async {A} (d : dio A) : aio_state := async (d_os d).
Definition upd_d {A} (f : aio_state -> aio_state) (d : dio A) : dio A :=
  mkDio (upd_async f (d_os d)) (d_mem d) (d_app d).

Definition mem_load (addr n : Z) (m : gmap Z Z) : list Z :=
  (fun i => default 0 (m !! (addr + i))) <$> seqZ 0 n.
Fixpoint mem_store (addr : Z) (bs : list Z) (m : gmap Z Z) : gmap Z Z :=
  match bs with
  | [] => m
  | b :: bs => mem_store (addr + 1) bs (<[addr := b]> m)
  end.

(** The entry of an operation that has completed. *)
Definition finish_entry (i : AioInfo) : AioInfo :=
  mkAio None (clientData i) (aio_fd i) (aio_len i) (aio_offset i) (aio_buf i) false.

Section DoIo.
Context {A : Type}.
(** The completion procedures: procedure number, client data and result. *)
Variable completion : nat -> Z -> Z -> dio A -> io (dio A).
(** [select] of the kernel: the number of descriptors, the two sets and the
    timeout; its result, the sets it leaves and the state (a signal may arrive). *)
Variable select : Z -> gset Z -> gset Z -> option (Z * Z) -> os_state ->
  Z * gset Z * gset Z * os_state.

(** A call through [procPtr]. *)
Definition call_proc (p : option nat) (client len : Z) (d : dio A) : io (dio A) :=
  match p with None => Crash | Some p => completion p client len d end.

(** The loop that copies a set, one descriptor after the other. *)
Definition copy_set (maxFd : Z) (s : gset Z) : gset Z :=
  foldl (fun cpy fd => if decide (fd ∈ s) then {[fd]} ∪ cpy else cpy) ∅
        (seqZ 0 (maxFd + 1)).

(** The body of the loop that lists the completed events. *)
Definition post_events (r w : gset Z) (a : aio_state) (fd : Z) : aio_state :=
  let a :=
    if decide (fd ∈ r) then
      let a := set_numRdPosted (numRdPosted a + 1) a in
      let a := set_readFdSetPost ({[fd]} ∪ readFdSetPost a) a in
      set_readFdSet (readFdSet a ∖ {[fd]}) a
    else a in
  if decide (fd ∈ w) then
    let a := set_numWrPosted (numWrPosted a + 1) a in
    let a := set_writeFdSetPost ({[fd]} ∪ writeFdSetPost a) a in
    set_writeFdSet (writeFdSet a ∖ {[fd]}) a
  else a.

(** A negative length becomes a huge [size_t], whose effect is not defined. *)
Definition dispatch_read (fd : Z) (d : dio A) : io (dio A) :=
  if decide (fd ∈ readFdSetPost (d_async d)) then
    match aio_get (AIO_RD_IX fd) (d_async d) with
    | None => Crash
    | Some i =>
        if inUse i then
          let d := upd_d (fun a => set_numRdPosted (numRdPosted a - 1) a) d in
          let d := upd_d (fun a => set_readFdSetPost (readFdSetPost a ∖ {[fd]}) a) d in
          ASSERT 0 <=? aio_len i in
          let '(len, bs, o) := sys_read (aio_fd i) (Z.to_nat (aio_len i)) (d_os d) in
          let d := mkDio o (mem_store (aio_buf i) bs (d_mem d)) (d_app d) in
          let d := upd_d (aio_put (AIO_RD_IX fd) (finish_entry i)) d in
          call_proc (procPtr i) (clientData i) len d
        else io_ret d
    end
  else io_ret d.

Definition dispatch_write (fd : Z) (d : dio A) : io (dio A) :=
  if decide (fd ∈ writeFdSetPost (d_async d)) then
    match aio_get (AIO_WR_IX fd) (d_async d) with
    | None => Crash
    | Some i =>
        if inUse i then
          let d := upd_d (fun a => set_numWrPosted (numWrPosted a - 1) a) d in
          let d := upd_d (fun a => set_writeFdSetPost (writeFdSetPost a ∖ {[fd]}) a) d in
          ASSERT 0 <=? aio_len i in
          let '(len, o) := sys_write (aio_fd i) (mem_load (aio_buf i) (aio_len i) (d_mem d))
                             (d_os d) in
          let d := mkDio o (d_mem d) (d_app d) in
          let d := upd_d (aio_put (AIO_WR_IX fd) (finish_entry i)) d in
          call_proc (procPtr i) (clientData i) len d
        else io_ret d
    end
  else io_ret d.

(** The last loop; a completion procedure may change [maxFd]. *)
Fixpoint dispatch_loop (fuel : nat) (fd : Z) (d : dio A) : io (dio A) :=
  match fuel with
  | O => NoFuel
  | S fuel =>
      if fd <=? maxFd (d_async d) then
        ASSERT fd_in_set fd in
        let? d := dispatch_read fd d in
        let? d := dispatch_write fd d in
        dispatch_loop fuel (fd + 1) d
      else io_ret d
  end.

(** No descriptor of an [fd_set] is visited twice. *)
Definition dispatch_fuel : nat := S (Z.to_nat FD_SETSIZE).

(** The part of OS_DoIo that asks for new events and posts them. *)
Definition poll_events (tmo : option (Z * Z)) (d : dio A) : io (dio A) :=
  let a := d_async d in
  let readFdSetCpy := copy_set (maxFd a) (readFdSet a) in
  let writeFdSetCpy := copy_set (maxFd a) (writeFdSet a) in
  if (numRdPosted a =? 0) && (numWrPosted a =? 0) then
    let '(selectStatus, r, w, o) :=
      select (maxFd a + 1) readFdSetCpy writeFdSetCpy tmo (d_os d) in
    if selectStatus <? 0 then io_exit (os_errno o)
    else
      let d := mkDio o (d_mem d) (d_app d) in
      io_ret (upd_d (fun a => foldl (post_events r w) a (seqZ 0 (maxFd a + 1))) d)
  else io_ret d.

Definition OS_DoIo (tmo : option (Z * Z)) (d : dio A) : io (Z * dio A) :=
  let d := upd_d (set_asyncIoInUse true) d in
  ASSERT maxFd (d_async d) <? FD_SETSIZE in
  let? d := poll_events tmo d in
  if (numRdPosted (d_async d) =? 0) && (numWrPosted (d_async d) =? 0)
  then io_ret (0, d)
  else let? d := dispatch_loop dispatch_fuel 0 d in io_ret (0, d).
End DoIo.
