(* ===== verification/OsAioInv.v ===== *)
(** The invariant of the asynchronous operations of cwf/libfcgi/os_unix.c and the
    lemmas that each library call keeps it.

    Reads and writes are two sides of one table: [ix], [pending], [posted] and
    [count] select the index, the set of waiting descriptors, the set of posted
    events and its counter of a side, so that every lemma is stated once. *)
From Stdlib Require Import ZArith Lia Bool String.
From stdpp Require Import base list numbers gmap relations.
From S2P Require Import Prelude.
From S2P Require Import OsUnix.
From S2P Require Import OsAsync.

(** ** The two sides *)

Inductive side := Rd | Wr.
#[export] Instance side_eq_dec : EqDecision side.
Proof. solve_decision. Defined.

Definition ix (s : side) : Z -> Z := match s with Rd => AIO_RD_IX | Wr => AIO_WR_IX end.
Definition pending (s : side) : aio_state -> gset Z :=
  match s with Rd => readFdSet | Wr => writeFdSet end.
Definition posted (s : side) : aio_state -> gset Z :=
  match s with Rd => readFdSetPost | Wr => writeFdSetPost end.
Definition count (s : side) : aio_state -> Z :=
  match s with Rd => numRdPosted | Wr => numWrPosted end.
Definition set_pending (s : side) : gset Z -> aio_state -> aio_state :=
  match s with Rd => set_readFdSet | Wr => set_writeFdSet end.
Definition set_posted (s : side) : gset Z -> aio_state -> aio_state :=
  match s with Rd => set_readFdSetPost | Wr => set_writeFdSetPost end.
Definition set_count (s : side) : Z -> aio_state -> aio_state :=
  match s with Rd => set_numRdPosted | Wr => set_numWrPosted end.

(** The entry of the operation of a descriptor. *)
Abbreviation entry s fd a := (aio_get (ix s fd) a).

Lemma ix_inj s s' fd fd' : ix s fd = ix s' fd' -> s = s' /\ fd = fd'.
Proof. destruct s, s'; unfold ix, AIO_RD_IX, AIO_WR_IX; intros; split; try done; lia. Qed.

Lemma ix_bound s fd : 0 <= ix s fd <-> 0 <= fd.
Proof. destruct s; unfold ix, AIO_RD_IX, AIO_WR_IX; lia. Qed.

(** ** The table *)

Lemma aio_get_nonneg j a i : aio_get j a = Some i -> 0 <= j.
Proof. unfold aio_get. destruct (Z.ltb_spec j 0); [done | lia]. Qed.

Lemma aio_get_put_eq j i a : is_Some (aio_get j a) -> aio_get j (aio_put j i a) = Some i.
Proof.
  intros [i0 H]. unfold aio_get, aio_put in *. destruct (j <? 0); [done|].
  destruct (asyncIoTable a) as [t|] eqn:E; simpl in *; [|done].
  apply list_lookup_insert_eq. by eapply lookup_lt_Some.
Qed.

Lemma aio_get_put_ne j k i a :
  0 <= j -> j <> k -> aio_get k (aio_put j i a) = aio_get k a.
Proof.
  intros Hj Hne. unfold aio_get, aio_put. destruct (Z.ltb_spec k 0); [done|].
  simpl. destruct (asyncIoTable a) as [t|]; simpl; [|done].
  apply list_lookup_insert_ne. lia.
Qed.

(** ** The invariant *)

(** What a library call may do to an entry it is not about: nothing, or leave an
    operation that is not in use. *)
Definition entry_le (o o' : option AioInfo) : Prop :=
  o = o' \/ exists i, o' = Some i /\ inUse i = false.

(** What the growth of the table does to an entry. *)
Definition entry_grows (o o' : option AioInfo) : Prop :=
  o = o' \/ o = None /\ exists i, o' = Some i /\ inUse i = false.

Lemma entry_grows_le o o' : entry_grows o o' -> entry_le o o'.
Proof. unfold entry_grows, entry_le. tauto. Qed.

Lemma entry_grows_trans o p q : entry_grows o p -> entry_grows p q -> entry_grows o q.
Proof.
  unfold entry_grows. intros [-> | [-> (i & -> & Hi)]] [<- | [? (i' & -> & Hi')]]; auto;
    right; split; eauto.
Qed.

Lemma entry_grows_live o o' i :
  entry_grows o o' -> o' = Some i -> inUse i = true -> o = Some i.
Proof. intros [-> | [_ (i' & -> & Hi')]]; [done|]. intros [= ->]. congruence. Qed.

(** An operation in use waits or is posted, and can be completed. *)
Record live (s : side) (fd : Z) (i : AioInfo) (a : aio_state) : Prop := {
  live_set : fd ∈ pending s a ∪ posted s a;
  live_proc : is_Some (procPtr i);
  live_fd : aio_fd i = fd;
  live_len : 0 <= aio_len i
}.

Record side_ok (s : side) (a : aio_state) : Prop := {
  side_range : forall fd, fd ∈ pending s a ∪ posted s a ->
    0 <= fd <= maxFd a /\ is_Some (entry s fd a);
  side_entry : forall fd i, entry s fd a = Some i -> inUse i = true -> live s fd i a;
  side_count : Z.of_nat (size (posted s a)) <= count s a
}.

Record aio_ok (a : aio_state) : Prop := {
  ok_table : exists t, asyncIoTable a = Some t /\
    Z.of_nat (length t) = asyncIoTableSize a /\ 0 < asyncIoTableSize a;
  ok_max : -1 <= maxFd a < FD_SETSIZE;
  ok_side : forall s, side_ok s a
}.

(** No event was cancelled after it had been posted, and every waiting descriptor
    still has its operation. *)
Record aio_exact (a : aio_state) : Prop := {
  exact_ok : aio_ok a;
  exact_count : forall s, count s a = Z.of_nat (size (posted s a));
  exact_entry : forall s fd, fd ∈ pending s a ∪ posted s a ->
    exists i, entry s fd a = Some i /\ inUse i = true;
  exact_disjoint : forall s fd, fd ∈ pending s a -> fd ∉ posted s a
}.

(** A change that starts nothing on this side. *)
Lemma side_ok_sub s a a' :
  side_ok s a ->
  (forall g, g ∈ pending s a' ∪ posted s a' ->
     g ∈ pending s a ∪ posted s a /\ g <= maxFd a') ->
  (forall g, entry_le (entry s g a) (entry s g a')) ->
  (forall g i, entry s g a' = Some i -> inUse i = true ->
     g ∈ pending s a ∪ posted s a -> g ∈ pending s a' ∪ posted s a') ->
  Z.of_nat (size (posted s a')) <= count s a' ->
  side_ok s a'.
Proof.
  intros [Hr He Hc] Hsub Hle Hkeep Hc'. split; [| |done].
  - intros fd Hfd. destruct (Hsub fd Hfd) as [Hin Hmax].
    destruct (Hr fd Hin) as [? Hs]. split; [lia|].
    destruct (Hle fd) as [<- | (i & -> & _)]; [done | by eexists].
  - intros fd i Hi Hu. destruct (Hle fd) as [E | (i' & E & Hf)]; [|congruence].
    rewrite Hi in E. destruct (He fd i E Hu). split; [|done..]. by eapply Hkeep.
Qed.

(** A change that leaves the sets of this side alone. *)
Lemma side_ok_frame s a a' :
  side_ok s a ->
  pending s a' = pending s a -> posted s a' = posted s a -> count s a' = count s a ->
  maxFd a <= maxFd a' -> (forall g, entry_le (entry s g a) (entry s g a')) ->
  side_ok s a'.
Proof.
  intros H Hp Hq Hc Hm Hle. apply (side_ok_sub s a a' H); [| done | | ].
  - rewrite Hp, Hq. intros g Hg. split; [done|]. pose proof (side_range s a H g Hg). lia.
  - by rewrite Hp, Hq.
  - rewrite Hq, Hc. apply (side_count s a H).
Qed.

Lemma in_started g fd (P Q : gset Z) : g ∈ ({[fd]} ∪ P) ∪ Q <-> g = fd \/ g ∈ P ∪ Q.
Proof. rewrite !elem_of_union, elem_of_singleton. tauto. Qed.

Lemma in_removed g fd (P Q : gset Z) :
  g ∈ (P ∖ {[fd]}) ∪ (Q ∖ {[fd]}) <-> g <> fd /\ g ∈ P ∪ Q.
Proof. rewrite !elem_of_union, !elem_of_difference, !elem_of_singleton. tauto. Qed.

Lemma in_removed_left g fd (P Q : gset Z) :
  g <> fd -> g ∈ (P ∖ {[fd]}) ∪ Q <-> g ∈ P ∪ Q.
Proof. rewrite !elem_of_union, elem_of_difference, elem_of_singleton. tauto. Qed.

Lemma size_removed (Q : gset Z) fd : (size (Q ∖ {[fd]}) <= size Q)%nat.
Proof. apply subseteq_size. intros g. rewrite elem_of_difference. tauto. Qed.

(** The start of an operation. *)
Lemma side_ok_start s fd i a a' :
  side_ok s a ->
  pending s a' = {[fd]} ∪ pending s a -> posted s a' = posted s a ->
  count s a' = count s a -> maxFd a <= maxFd a' -> 0 <= fd <= maxFd a' ->
  entry s fd a' = Some i -> is_Some (procPtr i) -> aio_fd i = fd -> 0 <= aio_len i ->
  (forall g, g <> fd -> entry_le (entry s g a) (entry s g a')) ->
  side_ok s a'.
Proof.
  intros [Hr He Hc] Hp Hq Hn Hm Hfd Hi Hproc Hifd Hlen Hle. split.
  - rewrite Hp, Hq. intros g Hg%in_started. destruct (decide (g = fd)) as [-> | Hne].
    { split; [done | by eexists]. }
    destruct (Hr g) as [? Hs]; [tauto|]. split; [lia|].
    destruct (Hle g Hne) as [<- | (i' & -> & _)]; [done | by eexists].
  - intros g i' Hi' Hu. destruct (decide (g = fd)) as [-> | Hne].
    { rewrite Hi in Hi'. injection Hi' as <-. split; [|done..].
      rewrite Hp, Hq. apply in_started. by left. }
    destruct (Hle g Hne) as [E | (i2 & E & Hf)]; [|congruence].
    rewrite Hi' in E. destruct (He g i' E Hu). split; [|done..].
    rewrite Hp, Hq. apply in_started. by right.
  - by rewrite Hq, Hn.
Qed.

(** ** Growing the table *)

(** The fields that [GrowAsyncTable] leaves alone. *)
Definition same_sets (a a' : aio_state) : Prop :=
  maxFd a' = maxFd a /\
  forall s, pending s a' = pending s a /\ posted s a' = posted s a /\ count s a' = count s a.

Lemma same_sets_refl a : same_sets a a.
Proof. by split. Qed.

Lemma same_sets_trans a b c : same_sets a b -> same_sets b c -> same_sets a c.
Proof.
  intros [? H1] [? H2]. split; [congruence|]. intros s.
  destruct (H1 s) as (?&?&?), (H2 s) as (?&?&?). split_and!; congruence.
Qed.

(** [table_ok] is the part of the invariant about the table alone. *)
Definition table_ok (a : aio_state) : Prop :=
  exists t, asyncIoTable a = Some t /\
    Z.of_nat (length t) = asyncIoTableSize a /\ 0 < asyncIoTableSize a.

Lemma aio_get_is_Some j a :
  table_ok a -> is_Some (aio_get j a) <-> 0 <= j < asyncIoTableSize a.
Proof.
  intros (t & Ht & Hlen & _). unfold aio_get. destruct (Z.ltb_spec j 0).
  - split; [by intros [? ?] | lia].
  - rewrite Ht. simpl. rewrite lookup_lt_is_Some. lia.
Qed.

Section Steps.
Context {malloc_entries : Z -> option (list AioInfo)}.
Hypothesis malloc_length : forall n m, malloc_entries n = Some m -> length m = Z.to_nat n.

Lemma grow_spec a a' :
  table_ok a -> GrowAsyncTable malloc_entries a = io_ret a' ->
  table_ok a' /\ asyncIoTableSize a' = asyncIoTableSize a * 2 /\ same_sets a a' /\
  forall j, entry_grows (aio_get j a) (aio_get j a').
Proof.
  intros (t & Ht & Hlen & Hpos). unfold GrowAsyncTable, realloc_entries.
  destruct (_ <? 2 ^ 30); [|done]. cbn [asyncIoTable set_asyncIoTableSize asyncIoTableSize].
  rewrite Ht. simpl. destruct (malloc_entries _) as [m|] eqn:Hm; [|done].
  apply malloc_length in Hm. simpl. unfold io_ret. intros [= <-].
  set (n := length t) in *. set (k := Z.to_nat (asyncIoTableSize a)) in *.
  assert (Hk : k = n) by lia.
  assert (Ht' : take (Z.to_nat (asyncIoTableSize a * 2)) (t ++ drop n m)
                = t ++ drop n m).
  { apply take_ge. rewrite length_app, length_drop. fold n. lia. }
  assert (Hw : Prelude.mem_write (t ++ drop n m) n (replicate n aio_zero)
               = t ++ replicate n aio_zero).
  { unfold Prelude.mem_write. rewrite take_app_length', drop_ge, app_nil_r; [done| |done].
    rewrite length_app, length_drop, length_replicate. fold n. lia. }
  rewrite Ht', Hk, Hw.
  unfold table_ok. simpl. split_and!; [|done|split; [done | by intros []]|].
  - eexists. split_and!; [done | rewrite length_app, length_replicate; fold n; lia | lia].
  - intros j. unfold aio_get, entry_grows. destruct (j <? 0); [by left|]. simpl. rewrite Ht. simpl.
    destruct (decide (Z.to_nat j < n)%nat).
    + left. by rewrite lookup_app_l by done.
    + rewrite lookup_app_r, (lookup_ge_None_2 t) by (fold n; lia).
      destruct (replicate n aio_zero !! _) as [i|] eqn:E; [|by left].
      apply lookup_replicate in E as [-> _]. right. split; [done|]. by exists aio_zero.
Qed.

Lemma io_bind_ret {B C} (m : io B) (k : B -> io C) c :
  io_bind m k = io_ret c -> exists b, m = io_ret b /\ k b = io_ret c.
Proof. destruct m as [[b|z]| |]; try done. intros H. by exists b. Qed.

Lemma obind_ret {B C} (m : outcome B) (k : B -> io C) c :
  obind m k = io_ret c -> exists b, m = Ret b /\ k b = io_ret c.
Proof. destruct m as [b| |]; try done. intros H. by exists b. Qed.

Lemma grow_until_spec fuel index a a' :
  table_ok a -> grow_until malloc_entries fuel index a = io_ret a' ->
  table_ok a' /\ index < asyncIoTableSize a' /\ same_sets a a' /\
  forall j, entry_grows (aio_get j a) (aio_get j a').
Proof.
  revert a. induction fuel as [|fuel IH]; intros a Hok; simpl; [done|].
  destruct (Z.geb_spec index (asyncIoTableSize a)).
  - intros (b & Hb & H')%io_bind_ret.
    destruct (grow_spec a b Hok Hb) as (Hok' & _ & Hs & Hle).
    destruct (IH b Hok' H') as (? & ? & Hs' & Hle').
    split_and!; [done | done | by eapply same_sets_trans |].
    intros j. by eapply entry_grows_trans.
  - unfold io_ret. intros [= <-]. split_and!; [done | done | apply same_sets_refl |].
    intros j. by left.
Qed.

(** ** Starting an operation *)

(** The operation [i] has been started on [fd]. *)
Record arms (s : side) (fd : Z) (i : AioInfo) (a a' : aio_state) : Prop := {
  arms_free : forall i0, entry s fd a = Some i0 -> inUse i0 = false;
  arms_entry : entry s fd a' = Some i;
  arms_le : forall j, j <> ix s fd -> entry_grows (aio_get j a) (aio_get j a');
  arms_fd : 0 <= fd < FD_SETSIZE;
  arms_max : maxFd a' = Z.max fd (maxFd a);
  arms_pending : pending s a' = {[fd]} ∪ pending s a;
  arms_other : forall s', s' <> s -> pending s' a' = pending s' a;
  arms_posted : forall s', posted s' a' = posted s' a /\ count s' a' = count s' a;
  arms_table : table_ok a'
}.

Lemma arms_ok s fd i a a' :
  aio_ok a -> arms s fd i a a' -> is_Some (procPtr i) -> aio_fd i = fd -> 0 <= aio_len i ->
  aio_ok a'.
Proof.
  intros [_ Hm Hs] [_ Hi Hle Hfd Hmax Hp Ho Hq Ht] Hproc Hifd Hlen.
  split; [exact Ht | lia |]. intros s'. destruct (Hq s') as [Hq1 Hq2].
  destruct (decide (s' = s)) as [-> | Hne].
  - apply (side_ok_start s fd i a a'); auto; [lia..|].
    intros g Hg. apply entry_grows_le, Hle. intros [_ ?]%ix_inj. done.
  - apply (side_ok_frame s' a a'); auto; [lia|].
    intros g. apply entry_grows_le, Hle. intros [? _]%ix_inj. done.
Qed.

Lemma raise_maxFd_spec fd a :
  table_ok a ->
  let b := raise_maxFd fd (set_asyncIoInUse true a) in
  table_ok b /\ maxFd b = Z.max fd (maxFd a) /\
  (forall s, pending s b = pending s a /\ posted s b = posted s a /\ count s b = count s a) /\
  forall j, aio_get j b = aio_get j a.
Proof.
  intros Ht. unfold raise_maxFd. simpl. destruct (Z.gtb_spec fd (maxFd a)); simpl.
  - split_and!; [done | lia | by intros [] | done].
  - split_and!; [done | lia | by intros [] | done].
Qed.

Lemma aio_start_spec s fd offset buf len p c b b' :
  table_ok b -> aio_start (ix s fd) fd offset buf len p c b = Ret b' ->
  table_ok b' /\ same_sets b b' /\
  (forall i0, entry s fd b = Some i0 -> inUse i0 = false) /\
  entry s fd b' = Some (mkAio p c fd len offset buf true) /\
  forall j, j <> ix s fd -> aio_get j b' = aio_get j b.
Proof.
  intros (t & Ht & Hlen & Hpos). unfold aio_start.
  destruct (aio_get (ix s fd) b) as [i|] eqn:Hi; [|done].
  destruct (inUse i) eqn:Hu; simpl; [done|]. intros [= <-].
  pose proof (aio_get_nonneg _ _ _ Hi). split_and!.
  - unfold table_ok. simpl. rewrite Ht. simpl. eexists.
    split_and!; [done | by rewrite length_insert | done].
  - split; [done | by intros []].
  - by intros i0 [= <-].
  - by apply aio_get_put_eq; eexists.
  - intros j Hj. by apply aio_get_put_ne.
Qed.

(** The three calls that start an operation, after the table has grown to [b]. *)
Lemma arms_intro s fd offset buf len p c a b b' :
  same_sets (raise_maxFd fd (set_asyncIoInUse true a)) b ->
  (forall j, entry_grows (aio_get j a) (aio_get j b)) ->
  table_ok a -> table_ok b ->
  aio_start (ix s fd) fd offset buf len p c b = Ret b' -> fd_in_set fd = true ->
  arms s fd (mkAio p c fd len offset buf true) a (set_pending s ({[fd]} ∪ pending s b') b').
Proof.
  intros [Hm Hs] Hle Hta Htb Hst Hfd.
  destruct (raise_maxFd_spec fd a Hta) as (_ & Hmax & Hsets & _).
  destruct (aio_start_spec s fd offset buf len p c b b' Htb Hst)
    as (Htb' & [Hm' Hs'] & Hfree & Hent & Hne).
  assert (Hp : forall s', pending s' b' = pending s' a /\ posted s' b' = posted s' a /\
                          count s' b' = count s' a).
  { intros s'. destruct (Hs s') as (?&?&?), (Hs' s') as (?&?&?), (Hsets s') as (?&?&?).
    split_and!; congruence. }
  assert (Hget : forall j, aio_get j (set_pending s ({[fd]} ∪ pending s b') b') = aio_get j b').
  { by destruct s. }
  assert (Hpo : forall s', s' <> s ->
    pending s' (set_pending s ({[fd]} ∪ pending s b') b') = pending s' b').
  { by destruct s, s'. }
  apply andb_true_iff in Hfd. split.
  - intros i0 Hi0. destruct (Hle (ix s fd)) as [E | [E _]]; [|congruence].
    apply Hfree. congruence.
  - by rewrite Hget.
  - intros j Hj. rewrite Hget, Hne by done. apply Hle.
  - lia.
  - transitivity (maxFd b'); [by destruct s|]. lia.
  - destruct (Hp s) as [<- _]. by destruct s.
  - intros s' Hs0. rewrite Hpo by done. apply Hp.
  - intros s'. destruct (Hp s') as (_ & <- & <-). by destruct s, s'.
  - by destruct s.
Qed.

Lemma OS_AsyncRead_arms fd offset buf len p c a z a' :
  table_ok a -> OS_AsyncRead malloc_entries fd offset buf len p c a = io_ret (z, a') ->
  z = 0 /\ arms Rd fd (mkAio p c fd len offset buf true) a a'.
Proof.
  intros Ht. unfold OS_AsyncRead. destruct (bool_decide _); [|done].
  destruct (raise_maxFd_spec fd a Ht) as (Ht1 & _ & _ & Hget).
  intros (b & Hb & (b' & Hst & (b2 & Hset & Hr)%obind_ret)%obind_ret)%io_bind_ret.
  unfold io_ret in Hr. injection Hr as <- <-. split; [done|].
  unfold FD_SET_read in Hset. destruct (fd_in_set fd) eqn:Hfd; [|done].
  injection Hset as <-.
  destruct (grow_until_spec _ _ _ _ Ht1 Hb) as (Htb & _ & Hs & Hle).
  apply (arms_intro Rd fd offset buf len p c a b b'); try done.
  intros j. rewrite <- Hget. apply Hle.
Qed.

Lemma OS_AsyncWrite_arms fd offset buf len p c a z a' :
  table_ok a -> OS_AsyncWrite malloc_entries fd offset buf len p c a = io_ret (z, a') ->
  z = 0 /\ arms Wr fd (mkAio p c fd len offset buf true) a a'.
Proof.
  intros Ht. unfold OS_AsyncWrite.
  destruct (raise_maxFd_spec fd a Ht) as (Ht1 & _ & _ & Hget).
  intros (b & Hb & (b' & Hst & (b2 & Hset & Hr)%obind_ret)%obind_ret)%io_bind_ret.
  unfold io_ret in Hr. injection Hr as <- <-. split; [done|].
  unfold FD_SET_write in Hset. destruct (fd_in_set fd) eqn:Hfd; [|done].
  injection Hset as <-.
  destruct (grow_until_spec _ _ _ _ Ht1 Hb) as (Htb & _ & Hs & Hle).
  apply (arms_intro Wr fd offset buf len p c a b b'); try done.
  intros j. rewrite <- Hget. apply Hle.
Qed.

Lemma aio_start_set_maxFd m index fd offset buf len p c a b :
  aio_start index fd offset buf len p c a = Ret b ->
  aio_start index fd offset buf len p c (set_maxFd m a) = Ret (set_maxFd m b).
Proof.
  unfold aio_start. change (aio_get index (set_maxFd m a)) with (aio_get index a).
  destruct (aio_get index a) as [i|]; [|done]. destruct (inUse i); [done|].
  cbn [negb]. by intros [= <-].
Qed.

Lemma aio_start_maxFd index fd offset buf len p c a b :
  aio_start index fd offset buf len p c a = Ret b -> maxFd b = maxFd a.
Proof.
  unfold aio_start. destruct (aio_get index a) as [i|]; [|done]. destruct (inUse i); [done|].
  cbn [negb]. by intros [= <-].
Qed.

Lemma OS_AsyncReadStdin_arms buf len p c a z a' :
  table_ok a -> OS_AsyncReadStdin buf len p c a = io_ret (z, a') ->
  z = 0 /\ arms Rd 0 (mkAio p c 0 len 0 buf true) a a'.
Proof.
  intros Ht. unfold OS_AsyncReadStdin.
  destruct (raise_maxFd_spec 0 a Ht) as (Ht1 & _ & _ & Hget).
  intros (b' & Hst & (b2 & Hset & Hr)%obind_ret)%obind_ret.
  unfold FD_SET_read in Hset. injection Hset as <-.
  unfold io_ret in Hr. injection Hr as <- <-. split; [done|].
  set (f := raise_maxFd 0) in *.
  assert (Hst' : aio_start (AIO_RD_IX 0) 0 0 buf len p c (f (set_asyncIoInUse true a))
                 = Ret (f b')).
  { unfold f, raise_maxFd. rewrite (aio_start_maxFd _ _ _ _ _ _ _ _ _ Hst).
    destruct (0 >? _); [by apply (aio_start_set_maxFd _ _ _ _ _ _ _ _ _ _ Hst) | done]. }
  assert (E : raise_maxFd STDIN_FILENO (set_readFdSet ({[STDIN_FILENO]} ∪ readFdSet b') b')
              = set_pending Rd ({[0]} ∪ pending Rd (f b')) (f b')).
  { unfold f, raise_maxFd, STDIN_FILENO. simpl. by destruct (0 >? maxFd b'). }
  rewrite E. apply (arms_intro Rd 0 0 buf len p c a (f (set_asyncIoInUse true a)));
    [apply same_sets_refl | | done | done | done | done].
  intros j. left. by rewrite Hget.
Qed.

(** ** Forgetting operations *)

Lemma aio_put_same_sets j i a : same_sets a (aio_put j i a).
Proof. split; [done | by intros []]. Qed.

Lemma aio_put_table j i a : table_ok a -> table_ok (aio_put j i a).
Proof.
  intros (t & Ht & Hlen & Hpos). unfold table_ok. simpl. rewrite Ht. simpl. eexists.
  split_and!; [done | by rewrite length_insert | done].
Qed.

(** An entry that is put out of use. *)
Lemma aio_put_unused j i i' a :
  aio_get j a = Some i -> inUse i' = false ->
  aio_get j (aio_put j i' a) = Some i' /\
  forall k, entry_le (aio_get k a) (aio_get k (aio_put j i' a)).
Proof.
  intros Hi Hu. pose proof (aio_get_nonneg _ _ _ Hi) as Hj.
  assert (E : aio_get j (aio_put j i' a) = Some i') by (apply aio_get_put_eq; by eexists).
  split; [done|]. intros k. destruct (decide (j = k)) as [<- | Hne].
  - right. by exists i'.
  - left. by rewrite aio_get_put_ne.
Qed.

Lemma aio_release_spec j a a' :
  aio_release j a = Ret a' ->
  same_sets a a' /\ (table_ok a -> table_ok a') /\
  (forall i, aio_get j a' = Some i -> inUse i = false) /\
  forall k, entry_le (aio_get k a) (aio_get k a').
Proof.
  unfold aio_release. destruct (aio_get j a) as [i|] eqn:Hi; [|done]. intros [= <-].
  destruct (inUse i) eqn:Hu.
  - destruct (aio_put_unused j i (set_inUse false i) a Hi eq_refl) as [E Hle].
    split_and!; [apply aio_put_same_sets | apply aio_put_table | | done].
    rewrite E. by intros ? [= <-].
  - split_and!; [apply same_sets_refl | done | | by left].
    intros i'. by rewrite Hi; intros [= <-].
Qed.

Lemma entry_le_unused o o' :
  (forall i, o = Some i -> inUse i = false) -> entry_le o o' ->
  forall i, o' = Some i -> inUse i = false.
Proof. intros H [<- | (i' & -> & Hi)]; [done|]. by intros i [= <-]. Qed.

Lemma entry_le_trans o p q : entry_le o p -> entry_le p q -> entry_le o q.
Proof. unfold entry_le. intros [-> | ?] [<- | ?]; auto. Qed.

Lemma close_async_spec fd a a' :
  close_async fd a = Ret a' ->
  fd_in_set fd = true /\
  (forall s, pending s a' = pending s a ∖ {[fd]} /\ posted s a' = posted s a ∖ {[fd]} /\
     count s a' = count s a /\ forall i, entry s fd a' = Some i -> inUse i = false) /\
  (forall k, entry_le (aio_get k a) (aio_get k a')) /\
  (table_ok a -> table_ok a') /\
  maxFd a' = if maxFd a =? fd then maxFd a - 1 else maxFd a.
Proof.
  unfold close_async. destruct (fd_in_set fd); [|done].
  set (a1 := set_readFdSetPost _ _).
  destruct (aio_release _ a1) as [b| |] eqn:H1; try done. cbn [obind].
  set (b1 := set_writeFdSetPost _ _).
  destruct (aio_release _ b1) as [c| |] eqn:H2; try done. cbn [obind].
  apply aio_release_spec in H1 as ([Hm1 Hs1] & Ht1 & Hu1 & Hle1).
  apply aio_release_spec in H2 as ([Hm2 Hs2] & Ht2 & Hu2 & Hle2).
  assert (Hc : maxFd c = maxFd a) by (rewrite Hm2; exact Hm1).
  destruct (Hs1 Rd) as (R1 & R2 & R3), (Hs1 Wr) as (R4 & R5 & R6).
  destruct (Hs2 Rd) as (W1 & W2 & W3), (Hs2 Wr) as (W4 & W5 & W6).
  set (d := if _ =? _ then _ else _). intros [= <-].
  assert (Hd : (forall s, pending s d = pending s c /\ posted s d = posted s c /\
      count s d = count s c) /\ (forall k, aio_get k d = aio_get k c) /\
      (table_ok c -> table_ok d) /\ maxFd d = if maxFd c =? fd then maxFd c - 1 else maxFd c).
  { unfold d. destruct (maxFd c =? fd); (split_and!; [by intros [] | done..]). }
  destruct Hd as (Hds & Hdg & Hdt & Hdm). split; [done|]. split_and!.
  - intros s. destruct (Hds s) as (-> & -> & ->). rewrite Hdg. destruct s; simpl in *.
    + rewrite W1, W2, W3. unfold b1; simpl. rewrite R1, R2, R3. split_and!; try done.
      eapply entry_le_unused; [exact Hu1 | exact (Hle2 (AIO_RD_IX fd))].
    + rewrite W4, W5, W6. unfold b1; simpl. rewrite R4, R5, R6. split_and!; try done.
  - intros k. rewrite Hdg. eapply entry_le_trans; [exact (Hle1 k) | exact (Hle2 k)].
  - intros Ht. apply Hdt, Ht2, Ht1, Ht.
  - by rewrite Hdm, Hc.
Qed.

Lemma close_async_ok fd a a' : aio_ok a -> close_async fd a = Ret a' -> aio_ok a'.
Proof.
  intros [Ht Hm Hs] H. apply close_async_spec in H as (Hfd & Hset & Hle & Ht' & Hmax).
  apply andb_true_iff in Hfd.
  split; [by apply Ht' | destruct (Z.eqb_spec (maxFd a) fd); lia |].
  intros s. destruct (Hset s) as (Hp & Hq & Hc & Hu).
  apply (side_ok_sub s a a' (Hs s)); [| done | |].
  - rewrite Hp, Hq. intros g [Hne Hin]%in_removed. split; [done|]. pose proof (side_range s a (Hs s) g Hin).
    destruct (Z.eqb_spec (maxFd a) fd); lia.
  - intros g i Hi Hui Hin. destruct (decide (g = fd)) as [-> | Hne].
    { rewrite (Hu i Hi) in Hui. done. }
    rewrite Hp, Hq. by apply in_removed.
  - rewrite Hq, Hc. pose proof (side_count s a (Hs s)).
    pose proof (size_removed (posted s a) fd). lia.
Qed.

Lemma cancel_read_ok fd a a' : aio_ok a -> cancel_read fd a = Ret a' -> aio_ok a'.
Proof.
  intros [Ht Hm Hs]. unfold cancel_read.
  destruct (aio_get (AIO_RD_IX fd) a) as [i|] eqn:Hi; [|done].
  destruct (inUse i) eqn:Hu; [|by intros [= <-]; split].
  destruct (fd_in_set fd); [|done]. intros [= <-].
  destruct (aio_put_unused _ i (set_inUse false i) a Hi eq_refl) as [E Hle].
  set (a' := set_readFdSet _ _).
  assert (Hget : forall k, aio_get k a' = aio_get k (aio_put (AIO_RD_IX fd) (set_inUse false i) a))
    by done.
  split; [exact (aio_put_table _ _ a Ht) | done |].
  intros s. destruct s.
  - apply (side_ok_sub Rd a a' (Hs Rd)).
    + intros g Hg. assert (g ∈ pending Rd a ∪ posted Rd a) as Hin.
      { revert Hg. simpl. rewrite !elem_of_union, elem_of_difference. tauto. }
      split; [done|]. apply (side_range Rd a (Hs Rd) g Hin).
    + intros g. rewrite Hget. apply Hle.
    + intros g i' Hi' Hu' Hin. destruct (decide (g = fd)) as [-> | Hne].
      { rewrite Hget in Hi'. simpl in Hi'. rewrite E in Hi'. injection Hi' as <-. done. }
      by apply in_removed_left.
    + apply (side_count Rd a (Hs Rd)).
  - apply (side_ok_frame Wr a a' (Hs Wr)); done.
Qed.

(** ** The calls a completion procedure may make *)

(** Starting an operation with a procedure and a length. *)
Inductive start_step (a a' : aio_state) : Prop :=
| start_stdin buf len p c z :
    0 <= len -> OS_AsyncReadStdin buf len (Some p) c a = io_ret (z, a') -> start_step a a'
| start_read fd offset buf len p c z :
    0 <= len -> OS_AsyncRead malloc_entries fd offset buf len (Some p) c a = io_ret (z, a') ->
    start_step a a'
| start_write fd offset buf len p c z :
    0 <= len -> OS_AsyncWrite malloc_entries fd offset buf len (Some p) c a = io_ret (z, a') ->
    start_step a a'.

(** Any call: also the ends of OS_Close and OS_CloseRead that forget operations. *)
Inductive api_step (a a' : aio_state) : Prop :=
| api_start : start_step a a' -> api_step a a'
| api_close fd : close_async fd a = Ret a' -> api_step a a'
| api_close_read fd : cancel_read fd a = Ret a' -> api_step a a'.

Lemma start_step_arms a a' :
  table_ok a -> start_step a a' ->
  exists s fd i, arms s fd i a a' /\ is_Some (procPtr i) /\ aio_fd i = fd /\ 0 <= aio_len i /\
    inUse i = true.
Proof.
  intros Ht [buf len p c z Hl H | fd off buf len p c z Hl H | fd off buf len p c z Hl H].
  - apply OS_AsyncReadStdin_arms in H as [_ H]; [|done].
    do 3 eexists. split; [exact H|]. simpl. by eauto.
  - apply OS_AsyncRead_arms in H as [_ H]; [|done].
    do 3 eexists. split; [exact H|]. simpl. by eauto.
  - apply OS_AsyncWrite_arms in H as [_ H]; [|done].
    do 3 eexists. split; [exact H|]. simpl. by eauto.
Qed.

Lemma start_step_ok a a' : aio_ok a -> start_step a a' -> aio_ok a'.
Proof.
  intros H Hst. destruct (start_step_arms a a' (ok_table a H) Hst) as (s & fd & i & Ha & ?&?&?&_).
  by eapply arms_ok.
Qed.

(** Starting operations leaves the posted events and their operations alone. *)
Lemma start_step_exact a a' : aio_exact a -> start_step a a' ->
  aio_exact a' /\
  (forall s, posted s a' = posted s a) /\
  forall s g, g ∈ posted s a -> entry s g a' = entry s g a.
Proof.
  intros [Hok Hc He Hd] Hst.
  pose proof (start_step_ok a a' Hok Hst) as Hok'.
  destruct (start_step_arms a a' (ok_table a Hok) Hst) as (s & fd & i & Ha & _ & _ & _ & Hu).
  destruct Ha as [Hfree Hi Hle _ _ Hp Ho Hq _].
  assert (Hkeep : forall s' g, g ∈ pending s' a ∪ posted s' a ->
    ix s' g <> ix s fd /\ entry s' g a' = entry s' g a).
  { intros s' g Hg. destruct (He s' g Hg) as (i' & Hi' & Hu').
    assert (Hne : ix s' g <> ix s fd).
    { intros [-> ->]%ix_inj. rewrite (Hfree i' Hi') in Hu'. done. }
    split; [done|]. destruct (Hle (ix s' g) Hne) as [<- | [E _]]; [done|]. congruence. }
  split_and!.
  - split; [done | | |].
    + intros s'. destruct (Hq s') as [-> ->]. apply Hc.
    + intros s' g Hg. destruct (Hq s') as [Hq' _]. rewrite Hq' in Hg.
      destruct (decide (g ∈ pending s' a ∪ posted s' a)) as [Hin | Hout].
      { destruct (Hkeep s' g Hin) as [_ ->]. by apply He. }
      destruct (decide (s' = s)) as [-> | Hne]; [|by rewrite Ho in Hg].
      rewrite Hp in Hg. apply in_started in Hg as [-> | Hg]; [|done]. by exists i.
    + intros s' g Hg. destruct (Hq s') as [-> _].
      destruct (decide (s' = s)) as [-> | Hne]; [|rewrite Ho in Hg by done; by apply Hd].
      rewrite Hp, elem_of_union, elem_of_singleton in Hg.
      destruct Hg as [-> | Hg]; [|by apply Hd]. intros Hin.
      destruct (Hkeep s fd) as [Hne _]; [apply elem_of_union; by right | done].
  - intros s'. apply Hq.
  - intros s' g Hg. apply Hkeep. apply elem_of_union. by right.
Qed.

Lemma api_step_ok a a' : aio_ok a -> api_step a a' -> aio_ok a'.
Proof.
  intros H [Hst | fd Hc | fd Hc].
  - by eapply start_step_ok.
  - by eapply close_async_ok.
  - by eapply cancel_read_ok.
Qed.

Lemma api_steps_ok a a' : aio_ok a -> rtc api_step a a' -> aio_ok a'.
Proof. intros H Hs. revert H. induction Hs; [done|]. eauto using api_step_ok. Qed.

Lemma start_steps_exact a a' : aio_exact a -> rtc start_step a a' ->
  aio_exact a' /\ (forall s, posted s a' = posted s a) /\
  forall s g, g ∈ posted s a -> entry s g a' = entry s g a.
Proof.
  intros H Hs. revert H. induction Hs as [a | a b c Hab _ IH]; intros H; [done|].
  destruct (start_step_exact a b H Hab) as (Hb & Hq & He).
  destruct (IH Hb) as (Hc & Hq' & He'). split_and!; [done | |].
  - intros s. by rewrite Hq', Hq.
  - intros s g Hg. rewrite He', He; [done | done |]. by rewrite Hq.
Qed.
End Steps.
