(* ===== verification/OsDoIo.v ===== *)
(** The dispatcher OS_DoIo of cwf/libfcgi/os_unix.c, over completion procedures
    that make library calls.

    [OS_DoIo_safe]: it keeps the invariant, and stays within the table and the
    descriptor sets. [OS_DoIo_completes]: when procedures only start operations,
    every ready operation is completed once, in the order of the descriptors.
    [OS_DoIo_stalls]: a posted descriptor that is closed keeps the dispatcher from
    ever calling [select] again. *)
From Stdlib Require Import ZArith Lia Bool String.
From stdpp Require Import base list numbers gmap relations.
From S2P Require Import Prelude.
From S2P Require Import OsUnix.
From S2P Require Import OsAsync.
From S2P Require Import OsAioInv.

(** ** The system calls leave the static state alone *)

Lemma sys_read_async fd len o : async (snd (sys_read fd len o)) = async o.
Proof.
  unfold sys_read. destruct (k_conns (kern o) !! fd) as [c|]; [|done].
  by destruct (c_rx c) as [|[bs|e] rx].
Qed.

Lemma sys_write_async fd bs o : async (snd (sys_write fd bs o)) = async o.
Proof.
  unfold sys_write. destruct (k_conns (kern o) !! fd) as [c|]; [|done].
  by destruct (c_wr c) as [|[n|e] wr].
Qed.

(** ** Posting events *)

(** The events of a side. *)
Definition events (r w : gset Z) (s : side) : gset Z := match s with Rd => r | Wr => w end.

Lemma post_events_fields r w a fd s :
  let a' := post_events r w a fd in
  (pending s a' = if decide (fd ∈ events r w s) then pending s a ∖ {[fd]} else pending s a) /\
  (posted s a' = if decide (fd ∈ events r w s) then {[fd]} ∪ posted s a else posted s a) /\
  (count s a' = if decide (fd ∈ events r w s) then count s a + 1 else count s a) /\
  asyncIoTable a' = asyncIoTable a /\ asyncIoTableSize a' = asyncIoTableSize a /\
  maxFd a' = maxFd a.
Proof.
  unfold post_events. destruct s; simpl;
    destruct (decide (fd ∈ r)), (decide (fd ∈ w)); by split_and!.
Qed.

(** The whole loop over the descriptors of [l]. *)
Lemma post_events_all r w l a :
  let a' := foldl (post_events r w) a l in
  (asyncIoTable a' = asyncIoTable a /\ asyncIoTableSize a' = asyncIoTableSize a /\
   maxFd a' = maxFd a) /\
  forall s,
    (forall g, g ∈ pending s a' <-> g ∈ pending s a /\ ~ (g ∈ l /\ g ∈ events r w s)) /\
    (forall g, g ∈ posted s a' <-> g ∈ posted s a \/ (g ∈ l /\ g ∈ events r w s)) /\
    (NoDup l -> (forall g, g ∈ l -> g ∉ posted s a) ->
     count s a' - Z.of_nat (size (posted s a')) = count s a - Z.of_nat (size (posted s a))).
Proof.
  revert a. induction l as [|fd l IH]; intros a; simpl.
  { split; [done|]. intros s. split_and!; [| |done]; intros g; rewrite elem_of_nil; tauto. }
  destruct (IH (post_events r w a fd)) as [(Ht & Hz & Hm) Hs].
  split.
  { destruct (post_events_fields r w a fd Rd) as (_&_&_&?&?&?). split_and!; congruence. }
  intros s. destruct (Hs s) as (Hp & Hq & Hc).
  destruct (post_events_fields r w a fd s) as (Fp & Fq & Fc & _).
  split_and!.
  - intros g. rewrite Hp, Fp, elem_of_cons.
    destruct (decide (fd ∈ events r w s)); [rewrite elem_of_difference, elem_of_singleton|];
      destruct (decide (g = fd)) as [->|]; tauto.
  - intros g. rewrite Hq, Fq, elem_of_cons.
    destruct (decide (fd ∈ events r w s)); [rewrite elem_of_union, elem_of_singleton|];
      destruct (decide (g = fd)) as [->|]; tauto.
  - intros [Hn Hnd]%NoDup_cons Hfresh. rewrite Hc; [|done|].
    + rewrite Fq, Fc. destruct (decide (fd ∈ events r w s)); [|done].
      rewrite size_union, size_singleton; [lia|].
      intros g ->%elem_of_singleton. apply Hfresh. by left.
    + intros g Hg. rewrite Fq.
      assert (Hg' : g ∉ posted s a) by (apply Hfresh; by right).
      destruct (decide (fd ∈ events r w s)); [|done].
      rewrite elem_of_union, elem_of_singleton. intros [-> | ?]; done.
Qed.

Lemma copy_set_spec m s g : g ∈ copy_set m s <-> g ∈ s /\ 0 <= g <= m.
Proof.
  unfold copy_set.
  assert (H : forall l (acc : gset Z), g ∈ foldl (fun cpy fd => if decide (fd ∈ s) then {[fd]} ∪ cpy else cpy)
                              acc l <-> g ∈ acc \/ (g ∈ s /\ g ∈ l)).
  { induction l as [|fd l IH]; intros acc; simpl; [rewrite elem_of_nil; tauto|].
    rewrite IH, elem_of_cons. destruct (decide (fd ∈ s));
      [rewrite elem_of_union, elem_of_singleton|]; destruct (decide (g = fd)) as [->|]; tauto. }
  rewrite H, elem_of_empty, elem_of_seqZ. split; [intros [? | [? ?]] | intros [? ?]];
    [done | split; [done | lia] | right; split; [done | lia]].
Qed.

Lemma copy_pending s a : aio_ok a -> copy_set (maxFd a) (pending s a) = pending s a.
Proof.
  intros H. apply set_eq. intros g. rewrite copy_set_spec. split; [tauto|]. intros Hg.
  split; [done|].
  apply (side_range s a (ok_side a H s)). apply elem_of_union. by left.
Qed.

(** No event is posted when its counter is zero. *)
Lemma nothing_posted s a : aio_ok a -> count s a = 0 -> posted s a = ∅.
Proof.
  intros H Hc. pose proof (side_count s a (ok_side a H s)).
  apply leibniz_equiv, size_empty_inv. lia.
Qed.

(** Posting what [select] reported keeps the invariant. *)
Lemma poll_ok r w a :
  aio_ok a -> count Rd a = 0 -> count Wr a = 0 ->
  (forall s, events r w s ⊆ pending s a) ->
  let a' := foldl (post_events r w) a (seqZ 0 (maxFd a + 1)) in
  aio_ok a' /\ maxFd a' = maxFd a /\ (forall j, aio_get j a' = aio_get j a) /\
  (forall s, pending s a' = pending s a ∖ events r w s /\ posted s a' = events r w s /\
    count s a' = Z.of_nat (size (events r w s))).
Proof.
  intros H H0 H1 Hev a'.
  destruct (post_events_all r w (seqZ 0 (maxFd a + 1)) a) as [(Ht & Hz & Hm) Hs].
  fold a' in Ht, Hz, Hm, Hs.
  assert (Hq0 : forall s, posted s a = ∅) by (intros []; by apply nothing_posted).
  assert (Hin : forall s g, g ∈ events r w s -> g ∈ seqZ 0 (maxFd a + 1)).
  { intros s g Hg. apply elem_of_seqZ.
    destruct (side_range s a (ok_side a H s) g) as [? _]; [|lia].
    apply elem_of_union. left. by apply Hev. }
  assert (Hget : forall j, aio_get j a' = aio_get j a).
  { intros j. unfold aio_get. by rewrite Ht. }
  assert (Hset : forall s, pending s a' = pending s a ∖ events r w s /\
    posted s a' = events r w s /\ count s a' = Z.of_nat (size (events r w s))).
  { intros s. destruct (Hs s) as (Hp & Hq & Hc).
    assert (Eq : posted s a' = events r w s).
    { apply set_eq. intros g. rewrite Hq, Hq0, elem_of_empty.
      split; [tauto|]. intros Hg. right. split; [by eapply Hin | done]. }
    split_and!; [|done|].
    - apply set_eq. intros g. rewrite Hp, elem_of_difference. split; [|tauto].
      intros [? Hn]. split; [done|]. intros Hg. apply Hn. split; [by eapply Hin | done].
    - assert (Hc0 : count s a = 0) by (by destruct s).
      rewrite Eq, Hq0, size_empty, Hc0 in Hc.
      enough (count s a' - Z.of_nat (size (events r w s)) = 0 - Z.of_nat 0) by lia.
      apply Hc; [apply NoDup_seqZ|]. intros g _. apply not_elem_of_empty. }
  split_and!; [|done..]. destruct H as [Htab Hmax Hside]. split.
  - by rewrite Ht, Hz.
  - by rewrite Hm.
  - intros s. destruct (Hset s) as (Hp & Hq & Hc).
    apply (side_ok_sub s a a' (Hside s)).
    + intros g. rewrite Hp, Hq, elem_of_union, elem_of_difference, elem_of_union.
      intros Hg. assert (g ∈ pending s a) by (destruct Hg as [[? _] | ?]; [done | by apply Hev]).
      split; [by left|]. rewrite Hm.
      apply (side_range s a (Hside s)), elem_of_union. by left.
    + intros g. left. by rewrite Hget.
    + intros g i _ _. rewrite Hp, Hq, Hq0, union_empty_r_L, elem_of_union, elem_of_difference.
      destruct (decide (g ∈ events r w s)); tauto.
    + rewrite Hq, Hc. lia.
Qed.

(** ** Completing an operation *)

(** What the dispatcher does to the state before it calls the procedure. *)
Definition finish_side (s : side) (fd : Z) (i : AioInfo) (a : aio_state) : aio_state :=
  aio_put (ix s fd) (finish_entry i)
    (set_posted s (posted s a ∖ {[fd]}) (set_count s (count s a - 1) a)).

Lemma finish_side_fields s fd i a :
  let a' := finish_side s fd i a in
  (forall s', pending s' a' = pending s' a /\
    posted s' a' = (if decide (s' = s) then posted s' a ∖ {[fd]} else posted s' a) /\
    count s' a' = (if decide (s' = s) then count s' a - 1 else count s' a)) /\
  maxFd a' = maxFd a /\ (table_ok a -> table_ok a') /\
  forall j, aio_get j a' = aio_get j (aio_put (ix s fd) (finish_entry i) a).
Proof.
  split; [by intros []; destruct s|]. split; [by destruct s|].
  split; [intros H; apply aio_put_table; by destruct s | by destruct s].
Qed.

(** The entries after the completion of [fd]: its own is free, the others stay. *)
Lemma finish_side_entry s fd i a :
  entry s fd a = Some i ->
  entry s fd (finish_side s fd i a) = Some (finish_entry i) /\
  (forall j, j <> ix s fd -> aio_get j (finish_side s fd i a) = aio_get j a) /\
  forall j, entry_le (aio_get j a) (aio_get j (finish_side s fd i a)).
Proof.
  intros Hi. destruct (finish_side_fields s fd i a) as (_ & _ & _ & Hget).
  destruct (aio_put_unused _ i (finish_entry i) a Hi eq_refl) as [E Hle].
  pose proof (aio_get_nonneg _ _ _ Hi). split_and!.
  - by rewrite Hget.
  - intros j Hj. rewrite Hget. by apply aio_get_put_ne.
  - intros j. rewrite Hget. apply Hle.
Qed.

Lemma finish_side_ok s fd i a :
  aio_ok a -> fd ∈ posted s a -> entry s fd a = Some i -> aio_ok (finish_side s fd i a).
Proof.
  intros [Ht Hm Hs] Hq Hi.
  destruct (finish_side_fields s fd i a) as (Hf & Hmax & Htab & _).
  destruct (finish_side_entry s fd i a Hi) as (He & _ & Hle).
  split; [by apply Htab | by rewrite Hmax |]. intros s'.
  destruct (Hf s') as (Fp & Fq & Fc). destruct (decide (s' = s)) as [-> | Hne].
  - apply (side_ok_sub s a _ (Hs s)); [| intros g; apply Hle | |].
    + rewrite Fp, Fq, Hmax. intros g Hg.
      assert (Hin : g ∈ pending s a ∪ posted s a).
      { revert Hg. rewrite !elem_of_union, elem_of_difference. tauto. }
      split; [done|]. apply (side_range s a (Hs s) g Hin).
    + intros g i' Hi' Hu Hin. destruct (decide (g = fd)) as [-> | Hne].
      { rewrite He in Hi'. by injection Hi' as <-. }
      rewrite Fp, Fq. revert Hin. rewrite !elem_of_union, elem_of_difference, elem_of_singleton.
      tauto.
    + rewrite Fq, Fc. pose proof (side_count s a (Hs s)) as Hc.
      rewrite size_difference, size_singleton by (by apply singleton_subseteq_l).
      assert (size (posted s a) <> 0%nat); [|lia].
      intros E. apply size_empty_inv in E. by apply (E fd) in Hq.
  - apply (side_ok_frame s' a _ (Hs s')); [done | done | done | lia |]. intros g. apply Hle.
Qed.

Lemma finish_side_exact s fd i a :
  aio_exact a -> fd ∈ posted s a -> entry s fd a = Some i -> aio_exact (finish_side s fd i a).
Proof.
  intros [Hok Hc He Hd] Hq Hi. pose proof (finish_side_ok s fd i a Hok Hq Hi) as Hok'.
  destruct (finish_side_fields s fd i a) as (Hf & _ & _ & _).
  destruct (finish_side_entry s fd i a Hi) as (_ & Hne & _).
  split; [done | | |].
  - intros s'. destruct (Hf s') as (_ & -> & ->). rewrite Hc.
    destruct (decide (s' = s)) as [-> |]; [|done].
    rewrite size_difference, size_singleton by (by apply singleton_subseteq_l).
    assert (size (posted s a) <> 0%nat); [|lia].
    intros E. apply size_empty_inv in E. by apply (E fd) in Hq.
  - intros s' g Hg. destruct (Hf s') as (Fp & Fq & _). rewrite Fp, Fq in Hg.
    assert (Hin : g ∈ pending s' a ∪ posted s' a /\ (s' = s -> g <> fd)).
    { destruct (decide (s' = s)) as [-> |]; [|split; [done | tauto]].
      revert Hg. rewrite !elem_of_union, elem_of_difference, elem_of_singleton.
      intros [Hp | [? ?]]; (split; [tauto | intros _ ->]); [|done]. by apply (Hd s fd Hp). }
    destruct Hin as [Hin Hgs]. destruct (He s' g Hin) as (i' & Hi' & Hu). exists i'.
    split; [|done]. rewrite Hne; [done|]. intros [-> ->]%ix_inj. by apply Hgs.
  - intros s' g. destruct (Hf s') as (-> & -> & _). intros Hg.
    destruct (decide (s' = s)); [|by apply Hd].
    rewrite elem_of_difference. intros [Hin _]. by apply (Hd s' g Hg).
Qed.

Section Dispatch.
Context {A : Type}.
Variable completion : nat -> Z -> Z -> dio A -> io (dio A).

Definition dispatch (s : side) : Z -> dio A -> io (dio A) :=
  match s with Rd => dispatch_read completion | Wr => dispatch_write completion end.

(** A posted operation in use: the procedure is called on the state in which the
    operation is finished. *)
Lemma dispatch_posted s fd i d :
  fd ∈ posted s (d_async d) -> entry s fd (d_async d) = Some i -> inUse i = true ->
  0 <= aio_len i ->
  exists n d1, dispatch s fd d = call_proc completion (procPtr i) (clientData i) n d1 /\
    d_async d1 = finish_side s fd i (d_async d) /\ d_app d1 = d_app d.
Proof.
  intros Hq Hi Hu Hl%Z.leb_le. destruct s; simpl in *.
  - unfold dispatch_read. rewrite decide_True by done. rewrite Hi, Hu, Hl.
    set (d2 := upd_d _ (upd_d _ d)).
    pose proof (sys_read_async (aio_fd i) (Z.to_nat (aio_len i)) (d_os d2)) as Ha.
    destruct (sys_read _ _ _) as [[n bs] o]. simpl in Ha.
    eexists n, _. split; [reflexivity|]. split; [|done].
    unfold d_async, upd_d, upd_async. simpl. by rewrite Ha.
  - unfold dispatch_write. rewrite decide_True by done. rewrite Hi, Hu, Hl.
    set (d2 := upd_d _ (upd_d _ d)). set (bs := mem_load _ _ _).
    pose proof (sys_write_async (aio_fd i) bs (d_os d2)) as Ha.
    destruct (sys_write _ _ _) as [n o]. simpl in Ha.
    eexists n, _. split; [reflexivity|]. split; [|done].
    unfold d_async, upd_d, upd_async. simpl. by rewrite Ha.
Qed.

(** Otherwise nothing happens; the table is not left. *)
Lemma dispatch_other s fd d :
  aio_ok (d_async d) ->
  dispatch s fd d = io_ret d \/
  exists i, fd ∈ posted s (d_async d) /\ entry s fd (d_async d) = Some i /\ inUse i = true.
Proof.
  intros H. destruct (decide (fd ∈ posted s (d_async d))) as [Hq | Hq].
  - destruct (side_range s _ (ok_side _ H s) fd) as [_ [i Hi]];
      [apply elem_of_union; by right|].
    destruct (inUse i) eqn:Hu; [by right; exists i|]. left.
    destruct s; simpl in *; [unfold dispatch_read | unfold dispatch_write];
      (rewrite decide_True by done); by rewrite Hi, Hu.
  - left. destruct s; simpl in *; [unfold dispatch_read | unfold dispatch_write];
      by rewrite decide_False.
Qed.
End Dispatch.

(** ** The specification *)

(** The memory [malloc] returns has the size asked for. *)
Definition malloc_law (malloc_entries : Z -> option (list AioInfo)) : Prop :=
  forall n m, malloc_entries n = Some m -> length m = Z.to_nat n.

(** [select] changes no variable of the library but [shutdownPending] and errno,
    and only takes descriptors out of its sets. *)
Definition select_law
    (select : Z -> gset Z -> gset Z -> option (Z * Z) -> os_state ->
              Z * gset Z * gset Z * os_state) : Prop :=
  forall nfds r w tmo o st r' w' o',
    select nfds r w tmo o = (st, r', w', o') ->
    async o' = async o /\ (0 <= st -> r' ⊆ r /\ w' ⊆ w).

Section Spec.
Context {A : Type}.
Variable malloc_entries : Z -> option (list AioInfo).
Variable completion : nat -> Z -> Z -> dio A -> io (dio A).

(** The completion procedures return or exit, and reach the asynchronous state
    through the calls of the library only. *)
Definition makes_calls : Prop :=
  forall p c n d, aio_ok (d_async d) ->
    exists r, completion p c n d = Ret r /\
      forall d', r = inl d' -> rtc (api_step (malloc_entries := malloc_entries))
                                 (d_async d) (d_async d').

(** They only start operations, and record their calls in the application's state. *)
Definition starts_and_logs (log : A -> list (nat * Z)) : Prop :=
  forall p c n d, aio_exact (d_async d) ->
    exists d', completion p c n d = io_ret d' /\
      rtc (start_step (malloc_entries := malloc_entries)) (d_async d) (d_async d') /\
      log (d_app d') = log (d_app d) ++ [(p, c)].
End Spec.

(** The call that completes an operation: procedure and client data. *)
Definition call_of (s : side) (g : Z) (a : aio_state) : list (nat * Z) :=
  match entry s g a with
  | Some i => match procPtr i with Some p => [(p, clientData i)] | None => [] end
  | None => []
  end.

Definition calls_at (ev : side -> gset Z) (a : aio_state) (g : Z) : list (nat * Z) :=
  (if decide (g ∈ ev Rd) then call_of Rd g a else []) ++
  (if decide (g ∈ ev Wr) then call_of Wr g a else []).

(** The calls for the events of the descriptors from [lo] on, in their order, the
    read before the write. *)
Definition calls_from (ev : side -> gset Z) (a : aio_state) (lo : Z) : list (nat * Z) :=
  concat (calls_at ev a <$> seqZ lo (FD_SETSIZE - lo)).

Lemma calls_from_cons ev a lo :
  lo < FD_SETSIZE -> calls_from ev a lo = calls_at ev a lo ++ calls_from ev a (lo + 1).
Proof.
  intros H. unfold calls_from. rewrite seqZ_cons by lia. simpl. do 3 f_equal.
  unfold Z.succ. f_equal. lia.
Qed.

Lemma calls_from_ext ev ev' a a' lo :
  (forall g, lo <= g -> calls_at ev a g = calls_at ev' a' g) ->
  calls_from ev a lo = calls_from ev' a' lo.
Proof.
  intros H. unfold calls_from. f_equal. apply list_fmap_ext.
  intros i g Hg. apply H. apply list_elem_of_lookup_2, elem_of_seqZ in Hg. lia.
Qed.

Lemma calls_at_none ev a g : g ∉ ev Rd -> g ∉ ev Wr -> calls_at ev a g = [].
Proof. intros H1 H2. unfold calls_at. by rewrite !decide_False. Qed.

Lemma concat_nothing {B C} (f : B -> list C) l :
  (forall x, x ∈ l -> f x = []) -> concat (f <$> l) = [].
Proof.
  induction l as [|x l IH]; intros H; simpl; [done|].
  rewrite H by (by left). apply IH. intros y Hy. apply H. by right.
Qed.

Lemma calls_from_none ev a lo :
  (forall s g, lo <= g -> g ∉ ev s) -> calls_from ev a lo = [].
Proof.
  intros H. apply concat_nothing. intros g [Hg _]%elem_of_seqZ.
  by apply calls_at_none; apply H.
Qed.

(** ** The dispatcher keeps the invariant *)

Section Safe.
Context {A : Type}.
Context {malloc_entries : Z -> option (list AioInfo)}.
Context {completion : nat -> Z -> Z -> dio A -> io (dio A)}.
Hypothesis Hmalloc : malloc_law malloc_entries.
Hypothesis Hcalls : makes_calls malloc_entries completion.

(** A result that is an exit or satisfies the invariant. *)
Definition ends_ok (m : io (dio A)) : Prop :=
  exists r, m = Ret r /\ forall d', r = inl d' -> aio_ok (d_async d').

Lemma ends_ok_bind m (k : dio A -> io (dio A)) :
  ends_ok m -> (forall d, aio_ok (d_async d) -> ends_ok (k d)) -> ends_ok (io_bind m k).
Proof.
  intros ([d | code] & -> & Hd) Hk; simpl; [by apply Hk, Hd|].
  exists (inr code). by split.
Qed.

Lemma dispatch_ok s fd d : aio_ok (d_async d) -> ends_ok (dispatch completion s fd d).
Proof.
  intros H. destruct (dispatch_other completion s fd d H) as [-> | (i & Hq & Hi & Hu)].
  { exists (inl d). split; [done|]. by intros ? [= <-]. }
  destruct (side_entry s _ (ok_side _ H s) fd i Hi Hu) as [_ [p Hp] _ Hl].
  destruct (dispatch_posted completion s fd i d Hq Hi Hu Hl) as (n & d1 & -> & Ha & _).
  rewrite Hp. simpl. pose proof (finish_side_ok s fd i _ H Hq Hi) as Hok. rewrite <- Ha in Hok.
  destruct (Hcalls p (clientData i) n d1 Hok) as (r & -> & Hr).
  exists r. split; [done|]. intros d' Hd'. by eapply api_steps_ok, Hr.
Qed.

Lemma dispatch_loop_ok fuel fd d :
  aio_ok (d_async d) -> 0 <= fd <= FD_SETSIZE -> (Z.to_nat (FD_SETSIZE - fd) < fuel)%nat ->
  ends_ok (dispatch_loop completion fuel fd d).
Proof.
  revert fd d. induction fuel as [|fuel IH]; intros fd d H Hfd Hfuel; [lia|]. simpl.
  pose proof (ok_max _ H) as Hm. destruct (Z.leb_spec fd (maxFd (d_async d))).
  - replace (fd_in_set fd) with true by (unfold fd_in_set; lia).
    apply ends_ok_bind; [exact (dispatch_ok Rd fd d H)|]. intros d1 H1.
    apply ends_ok_bind; [exact (dispatch_ok Wr fd d1 H1)|]. intros d2 H2.
    apply IH; [done | lia | lia].
  - exists (inl d). split; [done|]. by intros ? [= <-].
Qed.
End Safe.

Lemma set_asyncIoInUse_ok v a : aio_ok a -> aio_ok (set_asyncIoInUse v a).
Proof.
  intros [Ht Hm Hs]. split; [done | done |]. intros s.
  apply (side_ok_frame s a _ (Hs s)); try (by destruct s). intros g. by left.
Qed.

(** [select] reports waiting descriptors only. *)
Lemma select_reports select nfds tmo a o st r w o' :
  select_law select -> aio_ok a -> 0 <= st ->
  select nfds (copy_set (maxFd a) (readFdSet a)) (copy_set (maxFd a) (writeFdSet a)) tmo o
    = (st, r, w, o') ->
  forall s, events r w s ⊆ pending s a.
Proof.
  intros Hsel H Hst E. destruct (Hsel _ _ _ _ _ _ _ _ _ E) as [_ Hsub].
  destruct (Hsub Hst) as [Hr Hw]. intros [] g Hg.
  - rewrite <- (copy_pending Rd a H). by apply Hr.
  - rewrite <- (copy_pending Wr a H). by apply Hw.
Qed.

(** C16. For completion procedures that reach the asynchronous state through the
    library only (starting and cancelling operations, closing descriptors), a call
    of OS_DoIo returns or exits: it never leaves the table of operations or the
    descriptor sets, calls no null procedure and visits every descriptor once; and
    when it returns, it returns 0 and the invariant of the table, the sets and the
    counters holds again. *)
Theorem OS_DoIo_safe {A} malloc_entries
    (completion : nat -> Z -> Z -> dio A -> io (dio A)) select tmo d
    (Hmalloc : malloc_law malloc_entries) (Hcalls : makes_calls malloc_entries completion)
    (Hsel : select_law select) (Hok : aio_ok (d_async d)) :
  exists r, OS_DoIo completion select tmo d = Ret r /\
    forall z d', r = inl (z, d') -> z = 0 /\ aio_ok (d_async d').
Proof.
  unfold OS_DoIo. set (d0 := upd_d _ d).
  assert (H0 : aio_ok (d_async d0)) by (by apply set_asyncIoInUse_ok).
  pose proof (ok_max _ H0) as Hm.
  replace (maxFd (d_async d0) <? FD_SETSIZE) with true by lia.
  assert (Hp : ends_ok (poll_events select tmo d0)).
  { unfold poll_events.
    destruct (Z.eqb_spec (numRdPosted (d_async d0)) 0) as [Hr|];
      [destruct (Z.eqb_spec (numWrPosted (d_async d0)) 0) as [Hw|]|]; simpl;
      [| exists (inl d0); split; [done | by intros ? [= <-]]..].
    destruct (select _ _ _ _ _) as [[[st r] w] o] eqn:E.
    destruct (Z.ltb_spec st 0); [by exists (inr (os_errno o))|].
    destruct (Hsel _ _ _ _ _ _ _ _ _ E) as [Ho _].
    eexists (inl _). split; [reflexivity|]. intros d' [= <-].
    unfold d_async, upd_d, upd_async. simpl. rewrite Ho.
    apply (poll_ok r w (d_async d0) H0 Hr Hw). by eapply select_reports. }
  destruct Hp as ([d1 | code] & -> & H1); cbn [io_bind obind]; [|by exists (inr code)].
  specialize (H1 d1 eq_refl). destruct (_ && _).
  { exists (inl (0, d1)). split; [done|]. by intros ? ? [= <- <-]. }
  assert (H2 : ends_ok (dispatch_loop completion dispatch_fuel 0 d1)).
  { apply (dispatch_loop_ok Hmalloc Hcalls); [done | unfold FD_SETSIZE; lia |].
    unfold dispatch_fuel. lia. }
  destruct H2 as ([d2 | code] & -> & H2); cbn [io_bind obind].
  - exists (inl (0, d2)). split; [done|]. intros ? ? [= <- <-]. split; [done | by apply H2].
  - by exists (inr code).
Qed.

(** ** Every ready operation is completed *)

Section Complete.
Context {A : Type}.
Context {malloc_entries : Z -> option (list AioInfo)}.
Context {completion : nat -> Z -> Z -> dio A -> io (dio A)}.
Context {log : A -> list (nat * Z)}.
Hypothesis Hmalloc : malloc_law malloc_entries.
Hypothesis Hstarts : starts_and_logs malloc_entries completion log.

(** The events still posted for [fd] on one side are completed and logged. *)
Lemma dispatch_exact s fd d :
  aio_exact (d_async d) ->
  exists d', dispatch completion s fd d = io_ret d' /\ aio_exact (d_async d') /\
    (forall s', posted s' (d_async d') =
       if decide (s' = s) then posted s' (d_async d) ∖ {[fd]} else posted s' (d_async d)) /\
    (forall s' g, g ∈ posted s' (d_async d') ->
       entry s' g (d_async d') = entry s' g (d_async d)) /\
    log (d_app d') = log (d_app d) ++
      (if decide (fd ∈ posted s (d_async d)) then call_of s fd (d_async d) else []).
Proof.
  intros H. pose proof (exact_ok _ H) as Hok.
  destruct (decide (fd ∈ posted s (d_async d))) as [Hq | Hq].
  - destruct (exact_entry _ H s fd) as (i & Hi & Hu); [apply elem_of_union; by right|].
    destruct (side_entry s _ (ok_side _ Hok s) fd i Hi Hu) as [_ [p Hp] _ Hl].
    destruct (dispatch_posted completion s fd i d Hq Hi Hu Hl) as (n & d1 & -> & Ha & Happ).
    pose proof (finish_side_exact s fd i _ H Hq Hi) as He. rewrite <- Ha in He.
    destruct (finish_side_fields s fd i (d_async d)) as (Hf & _).
    destruct (finish_side_entry s fd i (d_async d) Hi) as (_ & Hne & _).
    rewrite <- Ha in Hf, Hne. rewrite Hp. cbn [call_proc].
    destruct (Hstarts p (clientData i) n d1 He) as (d' & -> & Hst & Hlog).
    destruct (start_steps_exact Hmalloc _ _ He Hst) as (He' & Hq' & Hent).
    exists d'. split_and!; [done | done | | |].
    + intros s'. rewrite Hq'. apply Hf.
    + intros s' g Hg. rewrite Hq' in Hg. rewrite (Hent s' g Hg). apply Hne.
      intros [-> ->]%ix_inj. destruct (Hf s) as (_ & E & _). rewrite E, decide_True in Hg by done.
      apply elem_of_difference in Hg as [_ Hg]. by apply Hg, elem_of_singleton.
    + rewrite Hlog, Happ. unfold call_of. by rewrite Hi, Hp.
  - exists d. destruct (dispatch_other completion s fd d Hok) as [-> | (i & Hq' & _)]; [|done].
    split_and!; [done | done | | done | by rewrite app_nil_r].
    intros s'. destruct (decide (s' = s)) as [-> |]; [|done].
    apply set_eq. intros g. rewrite elem_of_difference, elem_of_singleton. split; [|tauto].
    intros Hg. split; [done|]. by intros ->.
Qed.

(** The body of the loop, for both sides. *)
Lemma dispatch_both_exact fd d :
  aio_exact (d_async d) ->
  exists d1 d', dispatch_read completion fd d = io_ret d1 /\
    dispatch_write completion fd d1 = io_ret d' /\ aio_exact (d_async d') /\
    (forall s, posted s (d_async d') = posted s (d_async d) ∖ {[fd]}) /\
    (forall s g, g ∈ posted s (d_async d') ->
       entry s g (d_async d') = entry s g (d_async d)) /\
    log (d_app d') = log (d_app d) ++
      calls_at (fun s => posted s (d_async d)) (d_async d) fd.
Proof.
  intros H. destruct (dispatch_exact Rd fd d H) as (d1 & E1 & H1 & Q1 & N1 & L1).
  destruct (dispatch_exact Wr fd d1 H1) as (d' & E2 & H2 & Q2 & N2 & L2).
  exists d1, d'. split_and!; [done | done | done | | |].
  - intros []; rewrite Q2, Q1; by simpl.
  - intros s g Hg. rewrite N2 by done. apply N1. rewrite Q2 in Hg.
    destruct (decide (s = Wr)); [by apply elem_of_difference in Hg as [? _] | done].
  - rewrite L2, L1, <- app_assoc. do 2 f_equal. unfold calls_at.
    rewrite (Q1 Wr). simpl. destruct (decide (fd ∈ writeFdSetPost (d_async d))) as [Hin|]; [|done].
    unfold call_of. rewrite (N1 Wr); [done|]. by rewrite Q1.
Qed.

Lemma dispatch_loop_exact fuel fd d :
  aio_exact (d_async d) -> 0 <= fd <= FD_SETSIZE -> (Z.to_nat (FD_SETSIZE - fd) < fuel)%nat ->
  (forall s g, g ∈ posted s (d_async d) -> fd <= g) ->
  exists d', dispatch_loop completion fuel fd d = io_ret d' /\ aio_exact (d_async d') /\
    (forall s, posted s (d_async d') = ∅) /\
    log (d_app d') = log (d_app d) ++
      calls_from (fun s => posted s (d_async d)) (d_async d) fd.
Proof.
  revert fd d. induction fuel as [|fuel IH]; intros fd d H Hfd Hfuel Hge; [lia|].
  cbn [dispatch_loop]. pose proof (exact_ok _ H) as Hok. pose proof (ok_max _ Hok) as Hm.
  assert (Hle : forall s g, g ∈ posted s (d_async d) -> g <= maxFd (d_async d)).
  { intros s g Hg. apply (side_range s _ (ok_side _ Hok s)), elem_of_union. by right. }
  destruct (Z.leb_spec fd (maxFd (d_async d))).
  - replace (fd_in_set fd) with true by (unfold fd_in_set; lia).
    destruct (dispatch_both_exact fd d H) as (d1 & d2 & -> & E2 & H2 & Q2 & N2 & L2).
    cbn [io_bind obind io_ret]. rewrite E2. cbn [io_bind obind io_ret].
    assert (Hin : forall s g, g ∈ posted s (d_async d2) <-> g ∈ posted s (d_async d) /\ g <> fd).
    { intros s g. by rewrite Q2, elem_of_difference, elem_of_singleton. }
    destruct (IH (fd + 1) d2) as (d' & -> & H' & Q' & L'); [done | lia | lia | |].
    { intros s g [Hg Hne]%Hin. pose proof (Hge s g Hg). lia. }
    exists d'. split_and!; [done | done | done |].
    rewrite L', L2, <- app_assoc. f_equal. rewrite (calls_from_cons _ (d_async d) fd) by lia. f_equal.
    apply calls_from_ext. intros g Hg. unfold calls_at. f_equal.
    + destruct (decide (g ∈ posted Rd (d_async d2))) as [Hi | Hi]; rewrite Hin in Hi.
      * rewrite decide_True by tauto. unfold call_of. by rewrite (N2 Rd) by (by apply Hin).
      * rewrite decide_False; [done|]. intros ?. apply Hi. split; [done | lia].
    + destruct (decide (g ∈ posted Wr (d_async d2))) as [Hi | Hi]; rewrite Hin in Hi.
      * rewrite decide_True by tauto. unfold call_of. by rewrite (N2 Wr) by (by apply Hin).
      * rewrite decide_False; [done|]. intros ?. apply Hi. split; [done | lia].
  - assert (Hno : forall s g, g ∉ posted s (d_async d)).
    { intros s g Hg. pose proof (Hge s g Hg). pose proof (Hle s g Hg). lia. }
    exists d. split_and!; [done | done | |].
    + intros s. apply set_eq. intros g. rewrite elem_of_empty. split; [apply Hno | done].
    + rewrite calls_from_none; [by rewrite app_nil_r|]. intros s g _. apply Hno.
Qed.
End Complete.

Lemma set_asyncIoInUse_exact v a : aio_exact a -> aio_exact (set_asyncIoInUse v a).
Proof.
  intros [Hok Hc He Hd]. split; [by apply set_asyncIoInUse_ok | | |].
  - intros []; [exact (Hc Rd) | exact (Hc Wr)].
  - intros [] g Hg; [exact (He Rd g Hg) | exact (He Wr g Hg)].
  - intros [] g Hg; [exact (Hd Rd g Hg) | exact (Hd Wr g Hg)].
Qed.

Lemma poll_exact r w a :
  aio_exact a -> count Rd a = 0 -> count Wr a = 0 ->
  (forall s, events r w s ⊆ pending s a) ->
  aio_exact (foldl (post_events r w) a (seqZ 0 (maxFd a + 1))).
Proof.
  intros [Hok Hc He Hd] H0 H1 Hev.
  destruct (poll_ok r w a Hok H0 H1 Hev) as (Hok' & _ & Hget & Hset).
  split; [done | | |].
  - intros s. by destruct (Hset s) as (_ & -> & ->).
  - intros s g. destruct (Hset s) as (-> & -> & _). rewrite Hget.
    rewrite elem_of_union, elem_of_difference. intros Hg. apply He, elem_of_union. left.
    destruct Hg as [[? _] | ?]; [done | by apply Hev].
  - intros s g. destruct (Hset s) as (-> & -> & _). rewrite elem_of_difference. tauto.
Qed.

(** Polling when nothing is posted. *)
Lemma poll_ready {A} select tmo (d : dio A) st r w o :
  select_law select -> aio_exact (d_async d) -> (forall s, posted s (d_async d) = ∅) ->
  select (maxFd (d_async d) + 1) (readFdSet (d_async d)) (writeFdSet (d_async d)) tmo (d_os d)
    = (st, r, w, o) -> 0 <= st ->
  exists d1, poll_events select tmo d = io_ret d1 /\ aio_exact (d_async d1) /\
    d_app d1 = d_app d /\
    calls_from (fun s => posted s (d_async d1)) (d_async d1) 0
      = calls_from (events r w) (d_async d) 0.
Proof.
  intros Hsel H Hnone Es Hst. pose proof (exact_ok _ H) as Hok.
  assert (Hc : forall s, count s (d_async d) = 0).
  { intros s. by rewrite (exact_count _ H s), Hnone, size_empty. }
  assert (Cr : copy_set (maxFd (d_async d)) (readFdSet (d_async d)) = readFdSet (d_async d))
    by exact (copy_pending Rd _ Hok).
  assert (Cw : copy_set (maxFd (d_async d)) (writeFdSet (d_async d)) = writeFdSet (d_async d))
    by exact (copy_pending Wr _ Hok).
  assert (Hev : forall s, events r w s ⊆ pending s (d_async d)).
  { eapply (select_reports select); [done | done | exact Hst |].
    rewrite Cr, Cw. exact Es. }
  destruct (poll_ok r w (d_async d) Hok (Hc Rd) (Hc Wr) Hev) as (_ & _ & Hget & Hset).
  pose proof (poll_exact r w (d_async d) H (Hc Rd) (Hc Wr) Hev) as H1.
  destruct (Hsel _ _ _ _ _ _ _ _ _ Es) as [Ho _].
  exists (upd_d (fun a => foldl (post_events r w) a (seqZ 0 (maxFd a + 1)))
            (mkDio o (d_mem d) (d_app d))).
  set (d1 := upd_d _ _).
  assert (E1 : d_async d1
    = foldl (post_events r w) (d_async d) (seqZ 0 (maxFd (d_async d) + 1))).
  { unfold d1, d_async, upd_d, upd_async. simpl. by rewrite Ho. }
  rewrite <- E1 in Hget, Hset, H1. split_and!; [| done | done |].
  - unfold poll_events. rewrite (Hc Rd : numRdPosted (d_async d) = 0),
      (Hc Wr : numWrPosted (d_async d) = 0), Cr, Cw, Es.
    replace (st <? 0) with false by lia. done.
  - apply calls_from_ext. intros g _. unfold calls_at, call_of.
    destruct (Hset Rd) as (_ & -> & _), (Hset Wr) as (_ & -> & _). by rewrite !Hget.
Qed.

(** C15. When nothing is posted and completion procedures only start operations (on
    other descriptors or again on their own), OS_DoIo completes every operation that
    [select] reports as ready: its procedure is called once, with its client data,
    in the order of the descriptors and the read of a descriptor before its write,
    and no other procedure is called. The call returns 0 with nothing posted, so that
    the next one asks [select] again. *)
Theorem OS_DoIo_completes {A} malloc_entries
    (completion : nat -> Z -> Z -> dio A -> io (dio A)) (log : A -> list (nat * Z))
    select tmo d st r w o
    (Hmalloc : malloc_law malloc_entries)
    (Hstarts : starts_and_logs malloc_entries completion log)
    (Hsel : select_law select)
    (Hex : aio_exact (d_async d)) (Hnone : forall s, posted s (d_async d) = ∅)
    (Hready : select (maxFd (d_async d) + 1) (readFdSet (d_async d)) (writeFdSet (d_async d))
                tmo (d_os (upd_d (set_asyncIoInUse true) d)) = (st, r, w, o))
    (Hst : 0 <= st) :
  exists d', OS_DoIo completion select tmo d = io_ret (0, d') /\
    log (d_app d') = log (d_app d) ++ calls_from (events r w) (d_async d) 0 /\
    aio_exact (d_async d') /\ forall s, posted s (d_async d') = ∅.
Proof.
  unfold OS_DoIo. set (d0 := upd_d (set_asyncIoInUse true) d) in *.
  assert (H0 : aio_exact (d_async d0)) by (by apply set_asyncIoInUse_exact).
  pose proof (ok_max _ (exact_ok _ H0)) as Hm.
  replace (maxFd (d_async d0) <? FD_SETSIZE) with true by lia.
  destruct (poll_ready select tmo d0 st r w o Hsel H0) as (d1 & -> & H1 & Happ & Hcalls);
    [intros []; [exact (Hnone Rd) | exact (Hnone Wr)] | exact Hready | done |].
  assert (Hl : log (d_app d) ++ calls_from (events r w) (d_async d) 0
    = log (d_app d1) ++ calls_from (fun s => posted s (d_async d1)) (d_async d1) 0)
    by (by rewrite Happ, Hcalls).
  rewrite Hl. cbn [io_bind obind io_ret]. destruct (_ && _) eqn:Hz.
  - exists d1. apply andb_true_iff in Hz as [Hz1 Hz2].
    assert (Hq : forall s, posted s (d_async d1) = ∅).
    { pose proof (exact_ok _ H1). intros []; apply nothing_posted; try done; simpl; lia. }
    split_and!; [done | | done | done].
    rewrite calls_from_none; [by rewrite app_nil_r|].
    intros s g _. rewrite Hq. apply not_elem_of_empty.
  - destruct (dispatch_loop_exact Hmalloc Hstarts dispatch_fuel 0 d1 H1)
      as (d' & E & H' & Q' & L').
    + unfold FD_SETSIZE. lia.
    + unfold dispatch_fuel. lia.
    + intros s g Hg. apply (side_range s _ (ok_side _ (exact_ok _ H1) s)), elem_of_union.
      by right.
    + exists d'. rewrite E. by split_and!.
Qed.

(** ** The dispatcher after a posted descriptor has been closed *)

Section Stall.
Context {A : Type}.
Variable completion : nat -> Z -> Z -> dio A -> io (dio A).
Variable select : Z -> gset Z -> gset Z -> option (Z * Z) -> os_state ->
  Z * gset Z * gset Z * os_state.

(** [n] calls of OS_DoIo, as the main loop of an application makes them. *)
Fixpoint DoIo_times (n : nat) (tmo : option (Z * Z)) (d : dio A) : io (dio A) :=
  match n with
  | O => io_ret d
  | S n => let? (_, d) := OS_DoIo completion select tmo d in DoIo_times n tmo d
  end.

Lemma dispatch_loop_nothing fuel fd d :
  0 <= fd <= FD_SETSIZE -> maxFd (d_async d) < FD_SETSIZE ->
  (Z.to_nat (FD_SETSIZE - fd) < fuel)%nat -> (forall s, posted s (d_async d) = ∅) ->
  dispatch_loop completion fuel fd d = io_ret d.
Proof.
  intros Hfd Hm Hfuel Hnone. revert fd Hfd Hfuel.
  induction fuel as [|fuel IH]; intros fd Hfd Hfuel; [lia|]. cbn [dispatch_loop].
  destruct (Z.leb_spec fd (maxFd (d_async d))); [|done].
  replace (fd_in_set fd) with true by (unfold fd_in_set; lia).
  unfold dispatch_read at 1. rewrite (Hnone Rd : readFdSetPost (d_async d) = ∅).
  rewrite decide_False by apply not_elem_of_empty. cbn [io_bind obind io_ret].
  unfold dispatch_write at 1. rewrite (Hnone Wr : writeFdSetPost (d_async d) = ∅).
  rewrite decide_False by apply not_elem_of_empty. cbn [io_bind obind io_ret].
  apply IH; lia.
Qed.

(** A counter above its set: OS_DoIo finds nothing to complete and asks for nothing. *)
Lemma OS_DoIo_idle tmo d :
  maxFd (d_async d) < FD_SETSIZE -> asyncIoInUse (d_async d) = true ->
  (forall s, posted s (d_async d) = ∅) -> (exists s, count s (d_async d) <> 0) ->
  OS_DoIo completion select tmo d = io_ret (0, d).
Proof.
  intros Hm Hu Hnone [s Hc].
  assert (Hd : upd_d (set_asyncIoInUse true) d = d).
  { destruct d as [[e p n l a k] m ap]. unfold upd_d, upd_async. simpl in *.
    destruct a. simpl in *. by subst. }
  assert (Hz : (numRdPosted (d_async d) =? 0) && (numWrPosted (d_async d) =? 0) = false).
  { apply andb_false_iff. rewrite !Z.eqb_neq. destruct s; [left | right]; exact Hc. }
  unfold OS_DoIo. rewrite Hd. replace (maxFd (d_async d) <? FD_SETSIZE) with true by lia.
  unfold poll_events. rewrite Hz. cbn [io_bind obind io_ret]. rewrite Hz.
  rewrite dispatch_loop_nothing; [done | unfold FD_SETSIZE; lia | done | | done].
  unfold dispatch_fuel. lia.
Qed.
End Stall.

(** When a completion procedure closes a descriptor whose event has been posted
    but not yet dispatched, OS_Close takes the descriptor out of the set of posted
    events but leaves its counter alone. With no other event posted, OS_DoIo from
    then on returns 0 without calling [select] and without calling anyone, however
    often it is called and whatever other operations wait. *)
Theorem OS_DoIo_stalls {A} (completion : nat -> Z -> Z -> dio A -> io (dio A)) select
    s fd a (d : dio A)
    (Hex : aio_exact a) (Huse : asyncIoInUse (d_async d) = true)
    (Hposted : fd ∈ posted s a) (Honly : forall s', posted s' a ⊆ {[fd]})
    (Hclose : close_async fd a = Ret (d_async d)) :
  pending s (d_async d) = pending s a ∖ {[fd]} /\
  forall n tmo, DoIo_times completion select n tmo d = io_ret d.
Proof.
  pose proof (close_async_ok fd a _ (exact_ok _ Hex) Hclose) as Hok.
  destruct (close_async_spec fd a _ Hclose) as (_ & Hset & _).
  assert (Hnone : forall s', posted s' (d_async d) = ∅).
  { intros s'. destruct (Hset s') as (_ & -> & _). apply set_eq. intros g.
    rewrite elem_of_difference, elem_of_empty. split; [|done].
    intros [Hg Hn]. by apply Hn, (Honly s'). }
  assert (Hc : count s (d_async d) <> 0).
  { destruct (Hset s) as (_ & _ & -> & _). rewrite (exact_count _ Hex).
    intros E. assert (Hz : size (posted s a) = 0%nat) by lia.
    apply size_empty_inv in Hz. by apply (Hz fd) in Hposted. }
  split; [apply Hset|]. intros n tmo. induction n as [|n IH]; cbn [DoIo_times]; [done|].
  rewrite OS_DoIo_idle; [exact IH | apply (ok_max _ Hok) | done | done | by exists s].
Qed.

(** ** A concrete table *)

(** OS_Close does not grow the table: a descriptor that has no entry takes it out of
    the table. *)
Lemma close_leaves_table fd a :
  table_ok a -> asyncIoTableSize a <= ix Rd fd -> close_async fd a = Crash.
Proof.
  intros Ht Hfd. unfold close_async, aio_release. destruct (fd_in_set fd); [|done].
  match goal with |- context [aio_get (AIO_RD_IX fd) ?b] =>
    assert (E : aio_get (AIO_RD_IX fd) b = aio_get (ix Rd fd) a) by done; rewrite E end.
  destruct (aio_get (ix Rd fd) a) as [i|] eqn:Hi; [|done].
  destruct (proj1 (aio_get_is_Some (ix Rd fd) a Ht)); [by eexists | lia].
Qed.

(** OS_LibInit on the static state of a new process. *)
Lemma OS_LibInit_exact o :
  libInitialized o = false -> 0 < asyncIoTableSize (async o) ->
  numRdPosted (async o) = 0 -> numWrPosted (async o) = 0 -> maxFd (async o) = -1 ->
  aio_exact (async (snd (OS_LibInit true o))).
Proof.
  intros Hi Hz Hr Hw Hm. unfold OS_LibInit. rewrite Hi. simpl.
  set (a := set_writeFdSetPost _ _).
  assert (He : forall j i, aio_get j a = Some i -> inUse i = false).
  { intros j i. unfold aio_get. destruct (j <? 0); [done|]. simpl.
    by intros [-> _]%lookup_replicate. }
  assert (Hs : forall s, pending s a = ∅ /\ posted s a = ∅ /\ count s a = 0) by (by intros []).
  split.
  - split; [| simpl; rewrite Hm; unfold FD_SETSIZE; lia |].
    + eexists. split_and!; [reflexivity | simpl; rewrite length_replicate; lia | done].
    + intros s. destruct (Hs s) as (Hp & Hq & Hc). split.
      * intros fd. rewrite Hp, Hq, elem_of_union, !elem_of_empty. tauto.
      * intros fd i Hfd Hu. rewrite (He _ _ Hfd) in Hu. done.
      * by rewrite Hq, Hc, size_empty.
  - intros s. destruct (Hs s) as (_ & -> & ->). by rewrite size_empty.
  - intros s fd. destruct (Hs s) as (-> & -> & _). rewrite elem_of_union, !elem_of_empty. tauto.
  - intros s fd. destruct (Hs s) as (-> & _). by rewrite elem_of_empty.
Qed.

Definition demo_malloc (n : Z) : option (list AioInfo) :=
  Some (replicate (Z.to_nat n) aio_zero).

Lemma demo_malloc_law : malloc_law demo_malloc.
Proof. intros n m [= <-]. apply length_replicate. Qed.

(** A kernel in which every waiting descriptor is ready. *)
Definition demo_select (nfds : Z) (r w : gset Z) (tmo : option (Z * Z)) (o : os_state)
    : Z * gset Z * gset Z * os_state :=
  (Z.of_nat (size r + size w), r, w, o).

Lemma demo_select_law : select_law demo_select.
Proof. intros nfds r w tmo o st r' w' o' [= <- <- <- <-]. by split. Qed.

(** The state after a call, or the old one when the call does not return. *)
Definition after (m : io (Z * aio_state)) (a : aio_state) : aio_state :=
  match m with Ret (inl (_, a')) => a' | _ => a end.

(** A procedure that logs its call and reads the next 64 bytes of its descriptor. *)
Definition demo_again (p : nat) (c n : Z) (d : dio (list (nat * Z))) : io (dio (list (nat * Z))) :=
  let a := after (OS_AsyncRead demo_malloc c 0 1000 64 (Some p) c (d_async d)) (d_async d) in
  io_ret (mkDio (set_async a (d_os d)) (d_mem d) (d_app d ++ [(p, c)])).

Lemma after_read_steps fd buf len p c a :
  0 <= len ->
  rtc (start_step (malloc_entries := demo_malloc)) a
      (after (OS_AsyncRead demo_malloc fd 0 buf len (Some p) c a) a).
Proof.
  intros Hl. destruct (OS_AsyncRead demo_malloc fd 0 buf len (Some p) c a)
    as [[[z a'] | code] | |] eqn:E; simpl; try apply rtc_refl.
  apply rtc_once. by eapply start_read.
Qed.

Lemma demo_again_starts : starts_and_logs demo_malloc demo_again (fun l => l).
Proof.
  intros p c n d _. eexists. split; [reflexivity|]. split; [|done].
  by apply after_read_steps.
Qed.

(** A procedure that closes the descriptor after its own as well. *)
Definition demo_close (p : nat) (c n : Z) (d : dio unit) : io (dio unit) :=
  match close_async (c + 1) (d_async d) with
  | Ret a => io_ret (upd_d (fun _ => a) d)
  | _ => io_exit 1
  end.

Lemma demo_close_calls : makes_calls demo_malloc demo_close.
Proof.
  intros p c n d _. unfold demo_close.
  destruct (close_async (c + 1) (d_async d)) as [a| |] eqn:E; eexists; (split; [reflexivity|]);
    intros d'; [|done..]. intros [= <-]. apply rtc_once. by eapply api_close.
Qed.

Definition demo_conn (bs : list Z) : conn := mkConn [RData bs] [] [] true [].
Definition demo_kern : kernel :=
  mkKernel {[4 := demo_conn (b! "abc"); 5 := demo_conn (b! "de"); 9 := demo_conn []]} [] [].

(** The library initialised, with reads on the descriptors 4, 5 and 9 and a write
    on 4; the table has grown for the third. *)
Definition demo_aio : aio_state :=
  let o := snd (OS_LibInit true (mkOs 0 false false false
             (mkAioState false 16 None ∅ ∅ ∅ ∅ 0 0 (-1)) demo_kern)) in
  let a := async o in
  let a := after (OS_AsyncRead demo_malloc 5 0 100 64 (Some 1%nat) 5 a) a in
  let a := after (OS_AsyncRead demo_malloc 9 0 200 64 (Some 2%nat) 9 a) a in
  after (OS_AsyncRead demo_malloc 4 0 300 64 (Some 3%nat) 4 a) a.

Lemma demo_aio_exact : aio_exact demo_aio.
Proof.
  unfold demo_aio. do 3 (eapply (start_steps_exact demo_malloc_law);
    [|by apply after_read_steps]). by apply OS_LibInit_exact.
Qed.

Definition demo_d {A} (app : A) : dio A :=
  mkDio (mkOs 0 false false true demo_aio demo_kern) ∅ app.

(** The procedure of 4 closes 5, whose event is posted as well. *)
Example OS_DoIo_safe_witness :
  exists r, OS_DoIo demo_close demo_select None (demo_d tt) = Ret r /\
    forall z d', r = inl (z, d') -> z = 0 /\ aio_ok (d_async d').
Proof.
  apply (OS_DoIo_safe demo_malloc demo_close demo_select None (demo_d tt)).
  - apply demo_malloc_law.
  - apply demo_close_calls.
  - apply demo_select_law.
  - apply demo_aio_exact.
Defined.

Example OS_DoIo_completes_witness :
  exists d', OS_DoIo demo_again demo_select None (demo_d []) = io_ret (0, d') /\
    d_app d' = [(3%nat, 4); (1%nat, 5); (2%nat, 9)] /\
    forall s, posted s (d_async d') = ∅.
Proof.
  destruct (OS_DoIo_completes demo_malloc demo_again (fun l => l) demo_select None (demo_d [])
    3 (readFdSet demo_aio) (writeFdSet demo_aio)
    (d_os (upd_d (set_asyncIoInUse true) (demo_d (A := list (nat * Z)) []))))
    as (d' & E & L & _ & Hq).
  - apply demo_malloc_law.
  - apply demo_again_starts.
  - apply demo_select_law.
  - apply demo_aio_exact.
  - intros []; by vm_compute.
  - by vm_compute.
  - lia.
  - exists d'. split_and!; [exact E | | exact Hq].
    cbv beta in L. rewrite L. by vm_compute.
Defined.

(** 5 has been posted when the procedure of 4 closes it: the reads that wait on 9
    are never completed. *)
Definition demo_posted : aio_state :=
  foldl (post_events {[5]} ∅) demo_aio (seqZ 0 (maxFd demo_aio + 1)).

Example OS_DoIo_stalls_witness :
  let d := mkDio (mkOs 0 false false true (default demo_posted
             (match close_async 5 demo_posted with Ret a => Some a | _ => None end))
             demo_kern) ∅ tt in
  9 ∈ pending Rd (d_async d) /\
  forall n tmo, DoIo_times demo_close demo_select n tmo d = io_ret d.
Proof.
  intros d.
  destruct (OS_DoIo_stalls demo_close demo_select Rd 5 demo_posted d) as [Hp Hn].
  - apply poll_exact; [apply demo_aio_exact | by vm_compute | by vm_compute |].
    intros []; apply (bool_decide_unpack _); by vm_compute.
  - by vm_compute.
  - apply (bool_decide_unpack _). by vm_compute.
  - intros []; apply (bool_decide_unpack _); by vm_compute.
  - by vm_compute.
  - split; [|exact Hn]. apply (bool_decide_unpack _). by vm_compute.
Defined.
