(* ===== verification/OsSocket.v ===== *)
(** The sockets, signals and processes of cwf/libfcgi/os_unix.c: the listening
    socket of a FastCGI server, the connection of its client, and the small calls
    around them.

    The kernel is a function [answer] of the calls made so far and the next call; it
    gives the result and errno. The calls are recorded in a [trace], on which the
    theorems speak: [OS_FcgiConnect_reaches_listener] states that the client goes to
    the address the server has bound. *)
From Stdlib Require Import ZArith Lia Bool String.
From stdpp Require Import base list numbers gmap.
From S2P Require Import Prelude.
From S2P Require Import Clib.
From S2P Require Import FcgiProto.
From S2P Require Import OsUnix.
From S2P Require Import OsAsync.
From S2P Require Import OsAioInv.

(** ** Addresses and system calls *)

(** The family of an address: AF_UNIX and AF_INET. *)
Inductive family := AF_UNIX | AF_INET.
#[export] Instance family_eq_dec : EqDecision family.
Proof. solve_decision. Defined.

(** [sun_path] with the length given to the kernel; the four bytes of an Internet
    address as [s_addr] holds them, and the port. *)
Inductive sock_addr :=
| SA_un (path : list Z) (servLen : Z)
| SA_in (s_addr port : Z).

Definition addr_family (a : sock_addr) : family :=
  match a with SA_un _ _ => AF_UNIX | SA_in _ _ => AF_INET end.

Inductive sys_call :=
| CSocket (f : family)
| CReuseAddr (fd : Z)
| CUnlink (path : list Z)
| CBind (fd : Z) (a : sock_addr)
| CListen (fd backlog : Z)
| CConnect (fd : Z) (a : sock_addr)
| CClose (fd : Z)
| CDup2 (fd fd2 : Z)
| CExec (path : list Z)
| CGetFlags (fd : Z)
| CSetFlags (fd val : Z)
| CGetPeerName (fd : Z).

Definition trace := list sys_call.

Definition INADDR_ANY : Z := 0.
Definition INADDR_NONE : Z := 2 ^ 32 - 1.
Definition MAXPATHLEN : nat := 4096.
(** [sizeof (sun_path)] and [sizeof (sun_family)]. *)
Definition SUN_PATH_SIZE : nat := 108.
Definition SUN_FAMILY_SIZE : Z := 2.
Definition ENOTCONN : Z := 107.

(** ** OS_BuildSockAddrUn *)

(** HAVE_SOCKADDR_UN_SUN_LEN is not defined in fcgi_config.h; [None] is -1. *)
Definition OS_BuildSockAddrUn (bindPath : list Z) : option sock_addr :=
  let bindPathLen := length bindPath in
  if (SUN_PATH_SIZE <? bindPathLen)%nat then None
  else Some (SA_un bindPath (SUN_FAMILY_SIZE + Z.of_nat bindPathLen)).

(** ** The host and the port of a path *)

(** [strchr (host, ':')]: the text before and after the first colon. *)
Fixpoint at_colon (s : list Z) : option (list Z * list Z) :=
  match s with
  | [] => None
  | c :: t =>
      if c =? 58 then Some ([], t)
      else match at_colon t with Some (h, r) => Some (c :: h, r) | None => None end
  end.

(** The beginning of OS_CreateLocalIpcFd and of OS_FcgiConnect, after [strcpy]: the
    host and the port when the path names them. *)
Definition tcp_target (bindPath : list Z) : option (list Z * Z) :=
  match at_colon bindPath with
  | None => None
  | Some (host, tp) =>
      let port := s16 (atoi tp) in if port =? 0 then None else Some (host, port)
  end.

Section Net.
(** The kernel, and the name service of the C library: [inet_addr] of a text, and
    [gethostbyname], whether the addresses are of AF_INET and what they are (their
    first four bytes). *)
Variable answer : trace -> sys_call -> Z * Z.
Variable inet_addr : list Z -> Z.
Variable gethostbyname : list Z -> option (bool * list Z).

(** A system call: its result and the longer trace. *)
Definition sys (c : sys_call) (tr : trace) : Z * trace := (fst (answer tr c), tr ++ [c]).
Definition errno_of (c : sys_call) (tr : trace) : Z := snd (answer tr c).

(** The address a server listens on. *)
Definition listen_host (host : list Z) : io Z :=
  if list_Z_eqb host [] || list_Z_eqb host (b! "*") then io_ret INADDR_ANY
  else
    let tcp_ia := inet_addr host in
    if tcp_ia =? INADDR_NONE then
      match gethostbyname host with
      | None => io_exit 1
      | Some (is_inet, addrs) =>
          match addrs with
          | [] => io_exit 1
          | a :: more =>
              if negb is_inet then io_exit 1
              else match more with [] => io_ret a | _ => io_exit 1 end
          end
      end
    else io_ret tcp_ia.

(** The binding of the socket, which both kinds share; [perror] leaves errno as it
    was. *)
Definition bind_and_listen (listenSock : Z) (sa : sock_addr) (backlog : Z) (tr : trace)
    : io (Z * trace) :=
  let c1 := CBind listenSock sa in
  let '(r1, tr1) := sys c1 tr in
  if r1 <? 0 then io_exit (errno_of c1 tr)
  else
    let c2 := CListen listenSock backlog in
    let '(r2, tr2) := sys c2 tr1 in
    if r2 <? 0 then io_exit (errno_of c2 tr1) else io_ret (listenSock, tr2).

Definition OS_CreateLocalIpcFd (bindPath : list Z) (backlog : Z) (tr : trace)
    : io (Z * trace) :=
  ASSERT (length bindPath <? MAXPATHLEN)%nat in
  match tcp_target bindPath with
  | Some (host, port) =>
      let? tcp_ia := listen_host host in
      let '(listenSock, tr) := sys (CSocket AF_INET) tr in
      if listenSock <? 0 then io_ret (-1, tr)
      else
        let '(r, tr) := sys (CReuseAddr listenSock) tr in
        if r <? 0 then io_exit 1001
        else bind_and_listen listenSock (SA_in tcp_ia (u16 port)) backlog tr
  | None =>
      let '(listenSock, tr) := sys (CSocket AF_UNIX) tr in
      if listenSock <? 0 then io_ret (-1, tr)
      else
        let '(_, tr) := sys (CUnlink bindPath) tr in
        match OS_BuildSockAddrUn bindPath with
        | None => io_exit 1000
        | Some sa => bind_and_listen listenSock sa backlog tr
        end
  end.

(** The end of OS_FcgiConnect. *)
Definition connect_to (resultSock : Z) (sa : sock_addr) (tr : trace) : io (Z * trace) :=
  ASSERT 0 <=? resultSock in
  let '(connectStatus, tr) := sys (CConnect resultSock sa) tr in
  if connectStatus >=? 0 then io_ret (resultSock, tr)
  else let '(_, tr) := sys (CClose resultSock) tr in io_ret (-1, tr).

(** [h_addr] is read without a test that there is an address, or of its family. *)
Definition OS_FcgiConnect (bindPath : list Z) (tr : trace) : io (Z * trace) :=
  ASSERT (length bindPath <? MAXPATHLEN)%nat in
  match tcp_target bindPath with
  | Some (host, port) =>
      match gethostbyname (if list_Z_eqb host [] then b! "localhost" else host) with
      | None => io_exit 1000
      | Some (_, []) => Crash
      | Some (_, a :: _) =>
          let '(resultSock, tr) := sys (CSocket AF_INET) tr in
          connect_to resultSock (SA_in a (u16 port)) tr
      end
  | None =>
      match OS_BuildSockAddrUn bindPath with
      | None => io_exit 1000
      | Some sa =>
          let '(resultSock, tr) := sys (CSocket AF_UNIX) tr in
          connect_to resultSock sa tr
      end
  end.

(** ** Descriptors and processes *)

(** An application that was started by a web server has its listening socket as
    descriptor 0, which has no peer. *)
Definition OS_IsFcgi (sock : Z) (tr : trace) : bool * trace :=
  let c := CGetPeerName sock in
  (negb (fst (answer tr c) =? 0) && (errno_of c tr =? ENOTCONN), tr ++ [c]).

Definition OS_SetFlags (fd flags : Z) (tr : trace) : io trace :=
  let c1 := CGetFlags fd in
  let '(val, tr1) := sys c1 tr in
  if val <? 0 then io_exit (errno_of c1 tr)
  else
    let c2 := CSetFlags fd (Z.lor val flags) in
    let '(r, tr2) := sys c2 tr1 in
    if r <? 0 then io_exit (errno_of c2 tr1) else io_ret tr2.

(** The child of OS_SpawnChild: it ends in the program, or with the errno of
    [execl]; [inr] carries the status. *)
Definition spawned_child (appPath : list Z) (listenFd : Z) (tr : trace) : trace * Z :=
  let '(_, tr) := sys (CClose 0) tr in
  let tr :=
    if listenFd =? FCGI_LISTENSOCK_FILENO then tr
    else
      let '(_, tr) := sys (CDup2 listenFd FCGI_LISTENSOCK_FILENO) tr in
      snd (sys (CClose listenFd) tr) in
  let '(_, tr) := sys (CClose 1) tr in
  let '(_, tr) := sys (CClose 2) tr in
  (tr ++ [CExec appPath], errno_of (CExec appPath) tr).

Inductive spawned :=
| Parent (result : Z)
| Child (calls : trace) (exec_errno : Z).

(** [forkResult] and its errno are what [fork] gives; the function runs in the
    process that asks and, with 0, in its child. *)
Definition OS_SpawnChild (forkResult fork_errno : Z) (appPath : list Z) (listenFd : Z)
    (tr : trace) : io spawned :=
  if forkResult <? 0 then io_exit fork_errno
  else if forkResult =? 0 then
    let '(calls, e) := spawned_child appPath listenFd tr in io_ret (Child calls e)
  else io_ret (Parent 0).
End Net.

(** ** Signals *)

Inductive sig_handler := SIG_DFL | SIG_IGN | Handler (name : list Z).
#[export] Instance sig_handler_eq_dec : EqDecision sig_handler.
Proof. solve_decision. Defined.

Definition SIGUSR1 : Z := 10.
Definition SIGPIPE : Z := 13.

(** The disposition of every signal; one that is not in the map is SIG_DFL. *)
Definition installSignalHandler (signo : Z) (act : sig_handler) (force : bool)
    (sigs : gmap Z sig_handler) : gmap Z sig_handler :=
  let sa := default SIG_DFL (sigs !! signo) in
  if force || bool_decide (sa = SIG_DFL) then <[signo := act]> sigs else sigs.

Definition OS_InstallSignalHandlers (force : bool) (sigs : gmap Z sig_handler)
    : gmap Z sig_handler :=
  let sigs := installSignalHandler SIGPIPE (Handler (b! "OS_SigpipeHandler")) force sigs in
  installSignalHandler SIGUSR1 (Handler (b! "OS_Sigusr1Handler")) force sigs.

(** ** Paths that name a host and a port *)

Lemma at_colon_app h t : 58 ∉ h -> at_colon (h ++ 58 :: t) = Some (h, t).
Proof.
  induction h as [|c h IH]; intros Hn; [done|]. cbn [app at_colon].
  apply not_elem_of_cons in Hn as [Hc Hn].
  destruct (Z.eqb_spec c 58) as [-> |]; [done|]. by rewrite IH.
Qed.

(** A decimal port is read back, whatever its sixteen bits are. *)
Lemma tcp_target_port host port :
  58 ∉ host -> 0 < port < 2 ^ 16 ->
  exists p, tcp_target (host ++ 58 :: format_d port) = Some (host, p) /\ u16 p = port.
Proof.
  intros Hn Hp. exists (s16 port). unfold tcp_target. rewrite at_colon_app by done.
  rewrite atoi_format_d by lia.
  assert (E : u16 (s16 port) = port).
  { unfold u16, s16. rewrite Zminus_mod, Zmod_mod, <- Zminus_mod.
    replace (port + 2 ^ 15 - 2 ^ 15) with port by lia. apply Z.mod_small. lia. }
  destruct (Z.eqb_spec (s16 port) 0) as [E0|]; [|done].
  rewrite E0 in E. change (u16 0) with 0 in E. lia.
Qed.

(** A port that is a multiple of 2^16 is lost: the path is taken for that of a
    UNIX socket. *)
Lemma port_65536_is_a_path host : 58 ∉ host -> tcp_target (host ++ b! ":65536") = None.
Proof.
  intros Hn. unfold tcp_target. change (b! ":65536") with (58 :: b! "65536").
  rewrite at_colon_app by done. reflexivity.
Qed.

Lemma list_Z_eqb_false l l' : l <> l' -> list_Z_eqb l l' = false.
Proof.
  revert l'. induction l as [|x l IH]; intros [|y l'] Hne; cbn; try done.
  destruct (Z.eqb_spec x y) as [-> |]; [|done]. apply IH. congruence.
Qed.

Section Reaches.
Context {answer answer' : trace -> sys_call -> Z * Z}.
Context {inet_addr : list Z -> Z}.
Context {gethostbyname : list Z -> option (bool * list Z)}.
Hypothesis dotted : forall h, inet_addr h <> INADDR_NONE ->
  gethostbyname h = Some (true, [inet_addr h]).

(** A host that the server resolves is the first address of the name service. *)
Lemma listen_host_resolves host ia :
  host <> [] -> host <> b! "*" ->
  listen_host inet_addr gethostbyname host = io_ret ia ->
  exists i more, gethostbyname host = Some (i, ia :: more).
Proof.
  intros H1 H2. unfold listen_host. rewrite !list_Z_eqb_false by done. cbn [orb].
  destruct (Z.eqb_spec (inet_addr host) INADDR_NONE) as [|Hd].
  - destruct (gethostbyname host) as [[i [|a [|]]]|]; try done; destruct i; try done.
    unfold io_ret. intros [= <-]. by exists true, [].
  - intros H. injection H as <-. exists true, []. by apply dotted.
Qed.

Lemma bind_and_listen_ret fd sa backlog tr r tr' :
  bind_and_listen answer fd sa backlog tr = io_ret (r, tr') ->
  r = fd /\ tr' = tr ++ [CBind fd sa; CListen fd backlog].
Proof.
  unfold bind_and_listen, sys. destruct (_ <? 0); [done|]. destruct (_ <? 0); [done|].
  intros H. injection H as <- <-. by rewrite <- app_assoc.
Qed.

(** The result and the calls of a client once it has its address. *)
Definition connected (adr : sock_addr) (tr : trace) : Z * trace :=
  let c := CSocket (addr_family adr) in
  let s := fst (answer' tr c) in
  if fst (answer' (tr ++ [c]) (CConnect s adr)) >=? 0 then (s, tr ++ [c; CConnect s adr])
  else (-1, tr ++ [c; CConnect s adr; CClose s]).

Lemma connect_to_ret adr tr :
  0 <= fst (answer' tr (CSocket (addr_family adr))) ->
  (let '(s, tr1) := sys answer' (CSocket (addr_family adr)) tr in
   connect_to answer' s adr tr1) = io_ret (connected adr tr).
Proof.
  intros Hs%Z.leb_le. unfold connected, connect_to, sys. rewrite Hs.
  destruct (_ >=? 0); by rewrite <- !app_assoc.
Qed.

(** The calls of a server that got its socket, and the address it listens on. *)
Lemma OS_CreateLocalIpcFd_ret bindPath backlog tr fd tr' :
  OS_CreateLocalIpcFd answer inet_addr gethostbyname bindPath backlog tr = io_ret (fd, tr') ->
  0 <= fd ->
  (length bindPath < MAXPATHLEN)%nat /\
  exists pre adr, tr' = pre ++ [CBind fd adr; CListen fd backlog] /\
    match tcp_target bindPath with
    | Some (host, port) => exists ia,
        listen_host inet_addr gethostbyname host = io_ret ia /\ adr = SA_in ia (u16 port)
    | None => OS_BuildSockAddrUn bindPath = Some adr
    end.
Proof.
  unfold OS_CreateLocalIpcFd. destruct (Nat.ltb_spec (length bindPath) MAXPATHLEN); [|done].
  destruct (tcp_target bindPath) as [[host port]|] eqn:Et; intros H0 Hfd; (split; [done|]).
  - apply io_bind_ret in H0 as (ia & Hia & H0). unfold sys in H0.
    destruct (_ <? 0); [injection H0 as <- _; lia|]. destruct (_ <? 0); [done|].
    apply bind_and_listen_ret in H0 as [-> ->]. eexists _, _. split; [reflexivity|]. by exists ia.
  - unfold sys in H0. destruct (_ <? 0); [injection H0 as <- _; lia|].
    destruct (OS_BuildSockAddrUn bindPath) as [sa|]; [|done].
    apply bind_and_listen_ret in H0 as [-> ->]. eexists _, _. by split.
Qed.
End Reaches.

(** C17. A client that calls OS_FcgiConnect with the path for which
    OS_CreateLocalIpcFd has returned a descriptor makes a socket of the family and
    connects it to the very address the server has bound: the resolved host and the
    port in sixteen bits when the path is host:port with a host other than "" and
    "*", the UNIX socket of the path otherwise. It returns the socket, or closes it
    and returns -1 when the kernel refuses. *)
Theorem OS_FcgiConnect_reaches_listener answer answer' inet_addr gethostbyname
    bindPath backlog tr fd tr'
    (dotted : forall h, inet_addr h <> INADDR_NONE ->
       gethostbyname h = Some (true, [inet_addr h]))
    (Hlisten : OS_CreateLocalIpcFd answer inet_addr gethostbyname bindPath backlog tr
               = io_ret (fd, tr'))
    (Hfd : 0 <= fd)
    (Hhost : forall host port, tcp_target bindPath = Some (host, port) ->
       host <> [] /\ host <> b! "*")
    (Hsocket : forall t f, 0 <= fst (answer' t (CSocket f))) :
  exists pre adr, tr' = pre ++ [CBind fd adr; CListen fd backlog] /\
    (forall t, OS_FcgiConnect answer' gethostbyname bindPath t
               = io_ret (connected (answer' := answer') adr t)) /\
    (forall host port, bindPath = host ++ 58 :: format_d port -> 58 ∉ host ->
       0 < port < 2 ^ 16 -> exists ia, adr = SA_in ia port).
Proof.
  destruct (OS_CreateLocalIpcFd_ret _ _ _ _ _ Hlisten Hfd) as (Hlen & pre & adr & -> & Hadr).
  exists pre, adr. split; [done|]. unfold OS_FcgiConnect. apply Nat.ltb_lt in Hlen.
  rewrite Hlen. destruct (tcp_target bindPath) as [[host port]|] eqn:Et.
  - destruct Hadr as (ia & Hia & ->). destruct (Hhost host port eq_refl) as [H1 H2].
    destruct (listen_host_resolves dotted host ia H1 H2 Hia) as (i & more & Hg).
    rewrite (list_Z_eqb_false host []) by done. rewrite Hg. split.
    + intros t. apply (connect_to_ret (SA_in ia (u16 port)) t), Hsocket.
    + intros h p -> Hn Hp. destruct (tcp_target_port h p Hn Hp) as (p' & E & Eu).
      rewrite Et in E. injection E as <- <-. exists ia. by rewrite Eu.
  - rewrite Hadr. assert (Hf : addr_family adr = AF_UNIX).
    { revert Hadr. unfold OS_BuildSockAddrUn. destruct (SUN_PATH_SIZE <? length bindPath)%nat; [done|]. by intros [= <-]. }
    split.
    + intros t. pose proof (connect_to_ret (answer' := answer') adr t) as E.
      rewrite Hf in E. apply E, Hsocket.
    + intros h p -> Hn Hp. destruct (tcp_target_port h p Hn Hp) as (p' & E & _). congruence.
Qed.

(** 127.0.0.1:9000, on a kernel that hands out descriptor 3. *)
Example OS_FcgiConnect_reaches_listener_witness :
  let path := b! "127.0.0.1:9000" in
  let answer := fun (t : trace) (c : sys_call) =>
    (match c with CSocket _ => 3 | _ => 0 end, 0) in
  let inet_addr := fun h => if list_Z_eqb h (b! "127.0.0.1") then 16777343 else INADDR_NONE in
  let gethostbyname := fun h =>
    if list_Z_eqb h (b! "127.0.0.1") then Some (true, [16777343]) else None in
  OS_CreateLocalIpcFd answer inet_addr gethostbyname path 5 []
    = io_ret (3, [CSocket AF_INET; CReuseAddr 3] ++
                 [CBind 3 (SA_in 16777343 9000); CListen 3 5]) /\
  OS_FcgiConnect answer gethostbyname path []
    = io_ret (3, [CSocket AF_INET; CConnect 3 (SA_in 16777343 9000)]).
Proof.
  intros path answer inet_addr gethostbyname. split; [by vm_compute|].
  destruct (OS_FcgiConnect_reaches_listener answer answer inet_addr gethostbyname path 5 [] 3
    ([CSocket AF_INET; CReuseAddr 3] ++ [CBind 3 (SA_in 16777343 9000); CListen 3 5]))
    as (pre & adr & E & Hc & _).
  - intros h. unfold inet_addr, gethostbyname. by destruct (list_Z_eqb h _).
  - by vm_compute.
  - lia.
  - intros host port. vm_compute. by intros [= <- <-].
  - intros t f. cbn. lia.
  - rewrite Hc. change [CBind 3 (SA_in 16777343 9000); CListen 3 5]
      with ([CBind 3 (SA_in 16777343 9000)] ++ [CListen 3 5]) in E.
    change [CBind 3 adr; CListen 3 5] with ([CBind 3 adr] ++ [CListen 3 5]) in E.
    rewrite !app_assoc in E. apply app_inj_tail in E as [E _].
    apply app_inj_tail in E as [_ E]. injection E as <-. reflexivity.
Defined.

(** ** Processes and signals *)

(** The program of a spawned child has the listening socket as descriptor 0 and
    none of the three standard descriptors of its parent. *)
Lemma spawned_child_calls answer appPath listenFd :
  fst (spawned_child answer appPath listenFd []) =
    (CClose 0 :: (if listenFd =? 0 then [] else [CDup2 listenFd 0; CClose listenFd])) ++
    [CClose 1; CClose 2; CExec appPath].
Proof. unfold spawned_child, sys, FCGI_LISTENSOCK_FILENO. by destruct (listenFd =? 0). Qed.

(** OS_LibInit installs its handlers without force: a handler of the application
    and a signal it ignores are kept. *)
Lemma OS_InstallSignalHandlers_keeps sigs signo h :
  sigs !! signo = Some h -> h <> SIG_DFL ->
  OS_InstallSignalHandlers false sigs !! signo = Some h.
Proof.
  intros Hs Hh. unfold OS_InstallSignalHandlers, installSignalHandler. cbn [orb].
  assert (H : forall s act (m : gmap Z sig_handler), m !! signo = Some h ->
    (if bool_decide (default SIG_DFL (m !! s) = SIG_DFL) then <[s := act]> m else m) !! signo
      = Some h).
  { intros s act m Hm. destruct (decide (s = signo)) as [-> | Hne].
    - rewrite Hm. simpl. by rewrite bool_decide_eq_false_2.
    - case_bool_decide; [by rewrite lookup_insert_ne | done]. }
  by apply H, H.
Qed.
