(* ===== verification/FcgiStream.v ===== *)
(** Streams of the FastCGI library (cwf/libfcgi/fcgiapp.c): the data they keep and
    the operations that do not depend on the direction of the stream. *)
From Stdlib Require Import ZArith Lia Bool String.
From stdpp Require Import base list numbers gmap.
From S2P Require Import Prelude FcgiProto OsUnix.

(** ** State *)

(** [FCGX_Stream_Data]. Pointers into the buffer are offsets from [data->buff];
    [buff] is the contents of the whole allocation from there on. *)
Record FCGX_Stream_Data := mkData {
  buff : list Z;
  bufflen : nat;
  mBuff : Z;
  buffStop : nat;
  sd_type : Z;
  eorStop : bool;
  skip : bool;
  contentLen : Z;
  paddingLen : Z;
  isAnythingWritten : bool;
  rawWrite : bool
}.

(** [FCGX_Stream]; [stopUnget] is [None] for NULL. The function pointers are the
    parameters [fillBuffProc] and [emptyBuffProc] of the operations. *)
Record FCGX_Stream := mkStream {
  rdNext : nat;
  wrNext : nat;
  stop : nat;
  stopUnget : option nat;
  isReader : bool;
  isClosed : bool;
  wasFCloseCalled : bool;
  FCGI_errno : Z;
  data : FCGX_Stream_Data
}.

(** [FCGX_Request] without its streams and parameters, which FcgiRequest.v adds. *)
Record FCGX_Request := mkRequest {
  requestId : Z;
  role : Z;
  ipcFd : Z;
  isBeginProcessed : bool;
  keepConnection : bool;
  appStatus : Z;
  nWriters : Z;
  rq_flags : Z;
  listen_sock : Z
}.

(** What an operation on one stream works on: the stream, the request its data
    points to (shared with the other streams of the request), and the system. *)
Record sys := mkSys {
  strm : FCGX_Stream;
  req : FCGX_Request;
  os : os_state
}.

Definition set_buff (v : list Z) (d : FCGX_Stream_Data) : FCGX_Stream_Data :=
  {| buff := v; bufflen := bufflen d; mBuff := mBuff d; buffStop := buffStop d;
     sd_type := sd_type d; eorStop := eorStop d; skip := skip d;
     contentLen := contentLen d; paddingLen := paddingLen d;
     isAnythingWritten := isAnythingWritten d; rawWrite := rawWrite d |}.
Definition set_bufflen (v : nat) (d : FCGX_Stream_Data) : FCGX_Stream_Data :=
  {| buff := buff d; bufflen := v; mBuff := mBuff d; buffStop := buffStop d;
     sd_type := sd_type d; eorStop := eorStop d; skip := skip d;
     contentLen := contentLen d; paddingLen := paddingLen d;
     isAnythingWritten := isAnythingWritten d; rawWrite := rawWrite d |}.
Definition set_mBuff (v : Z) (d : FCGX_Stream_Data) : FCGX_Stream_Data :=
  {| buff := buff d; bufflen := bufflen d; mBuff := v; buffStop := buffStop d;
     sd_type := sd_type d; eorStop := eorStop d; skip := skip d;
     contentLen := contentLen d; paddingLen := paddingLen d;
     isAnythingWritten := isAnythingWritten d; rawWrite := rawWrite d |}.
Definition set_buffStop (v : nat) (d : FCGX_Stream_Data) : FCGX_Stream_Data :=
  {| buff := buff d; bufflen := bufflen d; mBuff := mBuff d; buffStop := v;
     sd_type := sd_type d; eorStop := eorStop d; skip := skip d;
     contentLen := contentLen d; paddingLen := paddingLen d;
     isAnythingWritten := isAnythingWritten d; rawWrite := rawWrite d |}.
Definition set_sd_type (v : Z) (d : FCGX_Stream_Data) : FCGX_Stream_Data :=
  {| buff := buff d; bufflen := bufflen d; mBuff := mBuff d;
     buffStop := buffStop d; sd_type := v; eorStop := eorStop d; skip := skip d;
     contentLen := contentLen d; paddingLen := paddingLen d;
     isAnythingWritten := isAnythingWritten d; rawWrite := rawWrite d |}.
Definition set_eorStop (v : bool) (d : FCGX_Stream_Data) : FCGX_Stream_Data :=
  {| buff := buff d; bufflen := bufflen d; mBuff := mBuff d;
     buffStop := buffStop d; sd_type := sd_type d; eorStop := v; skip := skip d;
     contentLen := contentLen d; paddingLen := paddingLen d;
     isAnythingWritten := isAnythingWritten d; rawWrite := rawWrite d |}.
Definition set_skip (v : bool) (d : FCGX_Stream_Data) : FCGX_Stream_Data :=
  {| buff := buff d; bufflen := bufflen d; mBuff := mBuff d;
     buffStop := buffStop d; sd_type := sd_type d; eorStop := eorStop d; skip := v;
     contentLen := contentLen d; paddingLen := paddingLen d;
     isAnythingWritten := isAnythingWritten d; rawWrite := rawWrite d |}.
Definition set_contentLen (v : Z) (d : FCGX_Stream_Data) : FCGX_Stream_Data :=
  {| buff := buff d; bufflen := bufflen d; mBuff := mBuff d;
     buffStop := buffStop d; sd_type := sd_type d; eorStop := eorStop d;
     skip := skip d; contentLen := v; paddingLen := paddingLen d;
     isAnythingWritten := isAnythingWritten d; rawWrite := rawWrite d |}.
Definition set_paddingLen (v : Z) (d : FCGX_Stream_Data) : FCGX_Stream_Data :=
  {| buff := buff d; bufflen := bufflen d; mBuff := mBuff d;
     buffStop := buffStop d; sd_type := sd_type d; eorStop := eorStop d;
     skip := skip d; contentLen := contentLen d; paddingLen := v;
     isAnythingWritten := isAnythingWritten d; rawWrite := rawWrite d |}.
Definition set_isAnythingWritten (v : bool) (d : FCGX_Stream_Data) : FCGX_Stream_Data :=
  {| buff := buff d; bufflen := bufflen d; mBuff := mBuff d;
     buffStop := buffStop d; sd_type := sd_type d; eorStop := eorStop d;
     skip := skip d; contentLen := contentLen d; paddingLen := paddingLen d;
     isAnythingWritten := v; rawWrite := rawWrite d |}.
Definition set_rawWrite (v : bool) (d : FCGX_Stream_Data) : FCGX_Stream_Data :=
  {| buff := buff d; bufflen := bufflen d; mBuff := mBuff d;
     buffStop := buffStop d; sd_type := sd_type d; eorStop := eorStop d;
     skip := skip d; contentLen := contentLen d; paddingLen := paddingLen d;
     isAnythingWritten := isAnythingWritten d; rawWrite := v |}.

Definition set_rdNext (v : nat) (s : FCGX_Stream) : FCGX_Stream :=
  {| rdNext := v; wrNext := wrNext s; stop := stop s; stopUnget := stopUnget s;
     isReader := isReader s; isClosed := isClosed s;
     wasFCloseCalled := wasFCloseCalled s; FCGI_errno := FCGI_errno s;
     data := data s |}.
Definition set_wrNext (v : nat) (s : FCGX_Stream) : FCGX_Stream :=
  {| rdNext := rdNext s; wrNext := v; stop := stop s; stopUnget := stopUnget s;
     isReader := isReader s; isClosed := isClosed s;
     wasFCloseCalled := wasFCloseCalled s; FCGI_errno := FCGI_errno s;
     data := data s |}.
Definition set_stop (v : nat) (s : FCGX_Stream) : FCGX_Stream :=
  {| rdNext := rdNext s; wrNext := wrNext s; stop := v; stopUnget := stopUnget s;
     isReader := isReader s; isClosed := isClosed s;
     wasFCloseCalled := wasFCloseCalled s; FCGI_errno := FCGI_errno s;
     data := data s |}.
Definition set_stopUnget (v : option nat) (s : FCGX_Stream) : FCGX_Stream :=
  {| rdNext := rdNext s; wrNext := wrNext s; stop := stop s; stopUnget := v;
     isReader := isReader s; isClosed := isClosed s;
     wasFCloseCalled := wasFCloseCalled s; FCGI_errno := FCGI_errno s;
     data := data s |}.
Definition set_isReader (v : bool) (s : FCGX_Stream) : FCGX_Stream :=
  {| rdNext := rdNext s; wrNext := wrNext s; stop := stop s;
     stopUnget := stopUnget s; isReader := v; isClosed := isClosed s;
     wasFCloseCalled := wasFCloseCalled s; FCGI_errno := FCGI_errno s;
     data := data s |}.
Definition set_isClosed (v : bool) (s : FCGX_Stream) : FCGX_Stream :=
  {| rdNext := rdNext s; wrNext := wrNext s; stop := stop s;
     stopUnget := stopUnget s; isReader := isReader s; isClosed := v;
     wasFCloseCalled := wasFCloseCalled s; FCGI_errno := FCGI_errno s;
     data := data s |}.
Definition set_wasFCloseCalled (v : bool) (s : FCGX_Stream) : FCGX_Stream :=
  {| rdNext := rdNext s; wrNext := wrNext s; stop := stop s;
     stopUnget := stopUnget s; isReader := isReader s; isClosed := isClosed s;
     wasFCloseCalled := v; FCGI_errno := FCGI_errno s; data := data s |}.
Definition set_FCGI_errno (v : Z) (s : FCGX_Stream) : FCGX_Stream :=
  {| rdNext := rdNext s; wrNext := wrNext s; stop := stop s;
     stopUnget := stopUnget s; isReader := isReader s; isClosed := isClosed s;
     wasFCloseCalled := wasFCloseCalled s; FCGI_errno := v; data := data s |}.
Definition set_data (v : FCGX_Stream_Data) (s : FCGX_Stream) : FCGX_Stream :=
  {| rdNext := rdNext s; wrNext := wrNext s; stop := stop s;
     stopUnget := stopUnget s; isReader := isReader s; isClosed := isClosed s;
     wasFCloseCalled := wasFCloseCalled s; FCGI_errno := FCGI_errno s; data := v |}.

Definition set_requestId (v : Z) (r : FCGX_Request) : FCGX_Request :=
  {| requestId := v; role := role r; ipcFd := ipcFd r;
     isBeginProcessed := isBeginProcessed r; keepConnection := keepConnection r;
     appStatus := appStatus r; nWriters := nWriters r; rq_flags := rq_flags r;
     listen_sock := listen_sock r |}.
Definition set_role (v : Z) (r : FCGX_Request) : FCGX_Request :=
  {| requestId := requestId r; role := v; ipcFd := ipcFd r;
     isBeginProcessed := isBeginProcessed r; keepConnection := keepConnection r;
     appStatus := appStatus r; nWriters := nWriters r; rq_flags := rq_flags r;
     listen_sock := listen_sock r |}.
Definition set_ipcFd (v : Z) (r : FCGX_Request) : FCGX_Request :=
  {| requestId := requestId r; role := role r; ipcFd := v;
     isBeginProcessed := isBeginProcessed r; keepConnection := keepConnection r;
     appStatus := appStatus r; nWriters := nWriters r; rq_flags := rq_flags r;
     listen_sock := listen_sock r |}.
Definition set_isBeginProcessed (v : bool) (r : FCGX_Request) : FCGX_Request :=
  {| requestId := requestId r; role := role r; ipcFd := ipcFd r;
     isBeginProcessed := v; keepConnection := keepConnection r;
     appStatus := appStatus r; nWriters := nWriters r; rq_flags := rq_flags r;
     listen_sock := listen_sock r |}.
Definition set_keepConnection (v : bool) (r : FCGX_Request) : FCGX_Request :=
  {| requestId := requestId r; role := role r; ipcFd := ipcFd r;
     isBeginProcessed := isBeginProcessed r; keepConnection := v;
     appStatus := appStatus r; nWriters := nWriters r; rq_flags := rq_flags r;
     listen_sock := listen_sock r |}.
Definition set_appStatus (v : Z) (r : FCGX_Request) : FCGX_Request :=
  {| requestId := requestId r; role := role r; ipcFd := ipcFd r;
     isBeginProcessed := isBeginProcessed r; keepConnection := keepConnection r;
     appStatus := v; nWriters := nWriters r; rq_flags := rq_flags r;
     listen_sock := listen_sock r |}.
Definition set_nWriters (v : Z) (r : FCGX_Request) : FCGX_Request :=
  {| requestId := requestId r; role := role r; ipcFd := ipcFd r;
     isBeginProcessed := isBeginProcessed r; keepConnection := keepConnection r;
     appStatus := appStatus r; nWriters := v; rq_flags := rq_flags r;
     listen_sock := listen_sock r |}.
Definition set_rq_flags (v : Z) (r : FCGX_Request) : FCGX_Request :=
  {| requestId := requestId r; role := role r; ipcFd := ipcFd r;
     isBeginProcessed := isBeginProcessed r; keepConnection := keepConnection r;
     appStatus := appStatus r; nWriters := nWriters r; rq_flags := v;
     listen_sock := listen_sock r |}.
Definition set_listen_sock (v : Z) (r : FCGX_Request) : FCGX_Request :=
  {| requestId := requestId r; role := role r; ipcFd := ipcFd r;
     isBeginProcessed := isBeginProcessed r; keepConnection := keepConnection r;
     appStatus := appStatus r; nWriters := nWriters r; rq_flags := rq_flags r;
     listen_sock := v |}.

Definition set_strm (v : FCGX_Stream) (y : sys) : sys :=
  {| strm := v; req := req y; os := os y |}.
Definition set_req (v : FCGX_Request) (y : sys) : sys :=
  {| strm := strm y; req := v; os := os y |}.
Definition set_os (v : os_state) (y : sys) : sys :=
  {| strm := strm y; req := req y; os := v |}.

Definition upd_strm (f : FCGX_Stream -> FCGX_Stream) (y : sys) : sys := set_strm (f (strm y)) y.
Definition upd_data (f : FCGX_Stream_Data -> FCGX_Stream_Data) (y : sys) : sys :=
  set_strm (set_data (f (data (strm y))) (strm y)) y.
Definition upd_req (f : FCGX_Request -> FCGX_Request) (y : sys) : sys := set_req (f (req y)) y.
Definition upd_os (f : os_state -> os_state) (y : sys) : sys := set_os (f (os y)) y.

(** Shorthands for the fields an operation reads. *)
Abbreviation sdata y := (data (strm y)) (only parsing).

(** ** Errors *)

Definition SetError (errno : Z) (y : sys) : sys :=
  let y := if FCGI_errno (strm y) =? 0 then upd_strm (set_FCGI_errno errno) y else y in
  upd_strm (set_isClosed true) y.

Definition FCGX_GetError (y : sys) : Z := FCGI_errno (strm y).

Definition FCGX_ClearError (y : sys) : sys := upd_strm (set_FCGI_errno 0) y.

Definition FCGX_HasSeenEOF (y : sys) : Z := if isClosed (strm y) then EOF else 0.

(** ** Creating and resetting streams *)

(** [NewStream]. [addr] is the address [Malloc] returns for the buffer, [mem] its
    initial contents; the buffer starts at the first multiple of 8 in it. *)
Definition NewStream (addr : Z) (mem : list Z) (bufflen0 : Z) (reader : bool)
    (streamType : Z) : FCGX_Stream :=
  let bufflen0 := AlignInt8 (Z.min (Z.max bufflen0 32) (FCGI_MAX_LENGTH + 1)) in
  let buff0 := AlignPtr8 addr in
  let bufflen1 := if negb (buff0 =? addr) then bufflen0 - 8 else bufflen0 in
  let d :=
    {| buff := slice mem (Z.to_nat (buff0 - addr)) (Z.to_nat bufflen0);
       bufflen := Z.to_nat bufflen1;
       mBuff := addr;
       buffStop := if reader then 0%nat else Z.to_nat bufflen1;
       sd_type := streamType;
       eorStop := false;
       skip := false;
       contentLen := 0;
       paddingLen := 0;
       isAnythingWritten := false;
       rawWrite := false |} in
  if reader then
    {| rdNext := 0; stop := 0; stopUnget := Some 0%nat; wrNext := 0;
       isReader := true; isClosed := false; wasFCloseCalled := false;
       FCGI_errno := 0; data := d |}
  else
    {| wrNext := FCGI_HEADER_LEN; stop := buffStop d; stopUnget := None;
       rdNext := buffStop d; isReader := false; isClosed := false;
       wasFCloseCalled := false; FCGI_errno := 0; data := d |}.

Definition NewReader (addr : Z) (mem : list Z) (bufflen0 streamType : Z) : FCGX_Stream :=
  NewStream addr mem bufflen0 true streamType.
Definition NewWriter (addr : Z) (mem : list Z) (bufflen0 streamType : Z) : FCGX_Stream :=
  NewStream addr mem bufflen0 false streamType.

Definition SetReaderType (streamType : Z) (s : FCGX_Stream) : outcome FCGX_Stream :=
  ASSERT isReader s in
  let d := set_paddingLen 0 (set_contentLen 0 (set_skip false
             (set_eorStop false (set_sd_type streamType (data s))))) in
  Ret (set_isClosed false (set_wrNext (rdNext s) (set_stop (rdNext s) (set_data d s)))).

Definition FCGX_SetExitStatus (status : Z) (y : sys) : sys :=
  upd_req (set_appStatus status) y.

Definition FCGX_StartFilterData (y : sys) : outcome (Z * sys) :=
  if negb (role (req y) =? FCGI_FILTER) || negb (isReader (strm y))
     || negb (isClosed (strm y)) || negb (sd_type (sdata y) =? FCGI_STDIN)
  then Ret (-1, SetError FCGX_CALL_SEQ_ERROR y)
  else let! s := SetReaderType FCGI_DATA (strm y) in Ret (0, set_strm s y).

(** ** Writing to the connection *)

(** [write_it_all]: its loop, and the iterations it needs: each [OS_Write] that
    does not take everything uses up one result of the script. *)
Fixpoint write_loop (fuel : nat) (fd : Z) (buf : list Z) (o : os_state)
    : outcome (Z * os_state) :=
  match fuel with
  | O => NoFuel
  | S fuel =>
      match buf with
      | [] => Ret (0, o)
      | _ =>
          let '(wrote, o) := OS_Write fd buf o in
          if wrote <? 0 then Ret (wrote, o)
          else write_loop fuel fd (drop (Z.to_nat wrote) buf) o
      end
  end.

Definition write_fuel (fd : Z) (o : os_state) : nat :=
  match k_conns (kern o) !! fd with
  | None => 2
  | Some c => S (S (length (c_wr c)))
  end.

Definition write_it_all (fd : Z) (buf : list Z) (o : os_state) : outcome (Z * os_state) :=
  write_loop (write_fuel fd o) fd buf o.

(** Writes [bs] on the connection of the request; an error closes the stream.
    [true] when everything was written. *)
Definition ipc_write (bs : list Z) (y : sys) : outcome (bool * sys) :=
  let! (r, o) := write_it_all (ipcFd (req y)) bs (os y) in
  let y := set_os o y in
  if r <? 0 then Ret (false, SetError (os_errno o) y) else Ret (true, y).

(** ** Output operations *)

Section Output.
(** The function pointer [stream->emptyBuffProc]. *)
Variable emptyBuffProc : bool -> sys -> outcome sys.

(** [memcpy (stream->wrNext, bs, n); stream->wrNext += n]; past the end of the
    buffer this is undefined. *)
Definition put_bytes (bs : list Z) (y : sys) : outcome sys :=
  let w := wrNext (strm y) in
  if (w + length bs <=? length (buff (sdata y)))%nat then
    Ret (upd_strm (set_wrNext (w + length bs))
           (upd_data (set_buff (mem_write (buff (sdata y)) w bs)) y))
  else Crash.

Definition FCGX_PutChar (c : Z) (y : sys) : outcome (Z * sys) :=
  if negb (wrNext (strm y) =? stop (strm y))%nat then
    let! y := put_bytes [u8 c] y in Ret (u8 c, y)
  else if isClosed (strm y) || isReader (strm y) then Ret (EOF, y)
  else
    let! y := emptyBuffProc false y in
    if negb (wrNext (strm y) =? stop (strm y))%nat then
      let! y := put_bytes [u8 c] y in Ret (u8 c, y)
    else ASSERT isClosed (strm y) in Ret (EOF, y).

(** The general case of [FCGX_PutStr]; [str] is what is left to write and [n]
    the length of the whole string. *)
Fixpoint PutStr_loop (fuel : nat) (n : Z) (str : list Z) (y : sys) : outcome (Z * sys) :=
  match fuel with
  | O => NoFuel
  | S fuel =>
      let flush str y :=
        if isClosed (strm y) || isReader (strm y) then Ret (-1, y)
        else
          let! y := emptyBuffProc false y in
          PutStr_loop fuel n str y in
      if negb (wrNext (strm y) =? stop (strm y))%nat then
        let m := Nat.min (length str) (stop (strm y) - wrNext (strm y)) in
        let! y := put_bytes (take m str) y in
        if (m =? length str)%nat then Ret (n, y) else flush (drop m str) y
      else flush str y
  end.

Definition FCGX_PutStr (str : list Z) (y : sys) : outcome (Z * sys) :=
  let n := Z.of_nat (length str) in
  if n <=? Z.of_nat (stop (strm y)) - Z.of_nat (wrNext (strm y)) then
    let! y := put_bytes str y in Ret (n, y)
  else PutStr_loop (S (S (length str))) n str y.

(** [str] is a C string of less than 2^31 bytes: the code passes [strlen (str)] as an
    [int]. *)
Definition FCGX_PutS (str : list Z) (y : sys) : outcome (Z * sys) :=
  FCGX_PutStr (cstr str) y.

Definition FCGX_FFlush (y : sys) : outcome (Z * sys) :=
  if isClosed (strm y) || isReader (strm y) then Ret (0, y)
  else
    let! y := emptyBuffProc false y in
    Ret (if isClosed (strm y) then -1 else 0, y).

Definition FCGX_FClose (y : sys) : outcome (Z * sys) :=
  let! y :=
    (if negb (wasFCloseCalled (strm y)) then
       let! y := (if negb (isReader (strm y)) then emptyBuffProc true y else Ret y) in
       let y := upd_strm (set_isClosed true) (upd_strm (set_wasFCloseCalled true) y) in
       if isReader (strm y) then
         Ret (upd_strm (fun s => set_wrNext (rdNext s) (set_stop (rdNext s) s)) y)
       else
         Ret (upd_strm (fun s => set_rdNext (wrNext s) (set_stop (wrNext s) s)) y)
     else Ret y) in
  Ret (if FCGI_errno (strm y) =? 0 then 0 else EOF, y).
End Output.
