(* ===== verification/FcgiSink.v ===== *)
(** Output operations against an interface.  A [Sink] says what the buffer and the
    [emptyBuffProc] of a stream promise to the operations that write to it; the
    results of FCGX_PutChar, FCGX_PutStr and FCGX_FFlush follow from it alone.
    FcgiWriter.v gives two implementations: writing records, and the raw mode in
    which the closing records are written. *)
From Stdlib Require Import ZArith Lia Bool.
From stdpp Require Import base list numbers.
From S2P Require Import Prelude FcgiProto OsUnix FcgiStream.

(** [holds d y]: stream [y] is an open output stream that has accepted the bytes
    [d] so far. *)
Class Sink (emptyBuffProc : bool -> sys -> outcome sys)
    (holds : list Z -> sys -> Prop) : Prop := {
  sink_open : forall d y, holds d y ->
    isClosed (strm y) = false /\ isReader (strm y) = false /\
    (wrNext (strm y) <= stop (strm y))%nat;
  sink_put : forall d y bs, holds d y ->
    (length bs <= stop (strm y) - wrNext (strm y))%nat ->
    exists y', put_bytes bs y = Ret y' /\ holds (d ++ bs) y';
  sink_flush : forall d y, holds d y ->
    exists y', emptyBuffProc false y = Ret y' /\ holds d y' /\
      (wrNext (strm y') < stop (strm y'))%nat
}.

Section Sink.
Context {emptyBuffProc : bool -> sys -> outcome sys} {holds : list Z -> sys -> Prop}.
Context `{SK : !Sink emptyBuffProc holds}.

Lemma PutStr_loop_ok fuel n str d y :
  holds d y ->
  (length str + (if decide (wrNext (strm y) < stop (strm y))%nat then 0 else 1) < fuel)%nat ->
  str <> [] ->
  exists y', PutStr_loop emptyBuffProc fuel n str y = Ret (n, y') /\ holds (d ++ str) y'.
Proof.
  revert str d y. induction fuel as [|fuel IH]; intros str d y Hy Hf Hne; [lia|].
  destruct (sink_open d y Hy) as (Hcl & Hrd & Hle).
  assert (Hflush : forall str d y, holds d y -> str <> [] -> (length str < fuel)%nat ->
    exists y', (if isClosed (strm y) || isReader (strm y) then Ret (-1, y)
                else let! y := emptyBuffProc false y in
                     PutStr_loop emptyBuffProc fuel n str y) = Ret (n, y')
               /\ holds (d ++ str) y').
  { clear -SK IH. intros str d y Hy Hne Hl.
    destruct (sink_open d y Hy) as (-> & -> & _); cbn [orb].
    destruct (sink_flush d y Hy) as (y1 & -> & Hy1 & Hroom); cbn [obind].
    apply IH; [done| |done]. rewrite decide_True by done. lia. }
  cbn [PutStr_loop].
  destruct (Nat.eqb_spec (wrNext (strm y)) (stop (strm y))) as [Heq|Hneq]; cbn [negb].
  { apply Hflush; [done..|]. rewrite decide_False in Hf by lia. lia. }
  set (m := Nat.min (length str) (stop (strm y) - wrNext (strm y))).
  destruct (sink_put d y (take m str) Hy) as (y1 & -> & Hy1);
    [rewrite length_take; lia|]; cbn [obind].
  destruct (Nat.eqb_spec m (length str)) as [Hm|Hm].
  { exists y1. rewrite Hm, firstn_all in Hy1. done. }
  destruct (Hflush (drop m str) (d ++ take m str) y1 Hy1) as (y2 & -> & Hy2).
  { intros Hnil. apply (f_equal length) in Hnil. rewrite length_drop in Hnil. cbn in Hnil. lia. }
  { rewrite length_drop. rewrite decide_True in Hf by lia. lia. }
  exists y2. rewrite <-app_assoc, take_drop in Hy2. done.
Qed.

Lemma PutStr_sink str d y :
  holds d y ->
  exists y', FCGX_PutStr emptyBuffProc str y = Ret (Z.of_nat (length str), y') /\
    holds (d ++ str) y'.
Proof.
  intros Hy. unfold FCGX_PutStr. destruct (sink_open d y Hy) as (_ & _ & Hle).
  destruct (Z.leb_spec (Z.of_nat (length str))
              (Z.of_nat (stop (strm y)) - Z.of_nat (wrNext (strm y)))).
  - destruct (sink_put d y str Hy) as (y1 & -> & Hy1); [lia|]. by exists y1.
  - apply PutStr_loop_ok; [done| |].
    + case_decide; lia.
    + intros ->. cbn in *. lia.
Qed.

Lemma PutChar_sink c d y :
  holds d y ->
  exists y', FCGX_PutChar emptyBuffProc c y = Ret (u8 c, y') /\ holds (d ++ [u8 c]) y'.
Proof.
  intros Hy. unfold FCGX_PutChar. destruct (sink_open d y Hy) as (-> & -> & Hle).
  destruct (Nat.eqb_spec (wrNext (strm y)) (stop (strm y))) as [Heq|Hneq]; cbn [negb orb].
  - destruct (sink_flush d y Hy) as (y1 & -> & Hy1 & Hroom); cbn [obind].
    destruct (Nat.eqb_spec (wrNext (strm y1)) (stop (strm y1))); [lia|]; cbn [negb].
    destruct (sink_put d y1 [u8 c] Hy1) as (y2 & -> & Hy2); [cbn; lia|]. by exists y2.
  - destruct (sink_put d y [u8 c] Hy) as (y2 & -> & Hy2); [cbn; lia|]. by exists y2.
Qed.

Lemma FFlush_sink d y :
  holds d y ->
  exists y', FCGX_FFlush emptyBuffProc y = Ret (0, y') /\ holds d y'.
Proof.
  intros Hy. unfold FCGX_FFlush. destruct (sink_open d y Hy) as (-> & -> & Hle); cbn [orb].
  destruct (sink_flush d y Hy) as (y1 & -> & Hy1 & Hroom); cbn [obind].
  destruct (sink_open d y1 Hy1) as (-> & _). by exists y1.
Qed.
End Sink.
