(* ===== verification/FcgiWriter.v ===== *)
(** The writer side of fcgiapp.c: [EmptyBuffProc] and [WriteCloseRecords], and
    what a sequence of output operations puts on the connection. *)
From Stdlib Require Import ZArith Lia Bool String.
From stdpp Require Import base list numbers gmap.
From S2P Require Import Prelude FcgiProto OsUnix FcgiStream FcgiSink.

(** ** Code *)

(** Fills in the header of the record in the buffer and pads it to a multiple of 8
    bytes, or takes back the space of the header when there is no content. *)
Definition encapsulate (y : sys) : outcome sys :=
  let cLen := s32 (Z.of_nat (wrNext (strm y)) - 8) in
  if cLen >? 0 then
    let eLen := AlignInt8 cLen in
    let! y := put_bytes (replicate (Z.to_nat (eLen - cLen)) 0) y in
    let! h := MakeHeader (sd_type (sdata y)) (requestId (req y)) cLen (eLen - cLen) in
    Ret (upd_data (fun d => set_buff (mem_write (buff d) 0 (header_bytes h)) d) y)
  else Ret (upd_strm (set_wrNext 0) y).

Section EmptyBuff.
Variable WriteCloseRecords : sys -> outcome sys.

Definition EmptyBuffProc_with (doClose : bool) (y : sys) : outcome sys :=
  let! y := (if negb (rawWrite (sdata y)) then encapsulate y else Ret y) in
  let! y := (if doClose then WriteCloseRecords y else Ret y) in
  let! (ok, y) :=
    (if negb (wrNext (strm y) =? 0)%nat then
       let y := upd_data (set_isAnythingWritten true) y in
       let! (ok, y) := ipc_write (take (wrNext (strm y)) (buff (sdata y))) y in
       Ret (ok, if ok : bool then upd_strm (set_wrNext 0) y else y)
     else Ret (true, y)) in
  if ok : bool then
    Ret (if negb (rawWrite (sdata y))
         then upd_strm (fun s => set_wrNext (wrNext s + FCGI_HEADER_LEN) s) y else y)
  else Ret y.
End EmptyBuff.

(** [EmptyBuffProc (stream, FALSE)], which does not call [WriteCloseRecords]. *)
Definition EmptyBuff_flush (doClose : bool) (y : sys) : outcome sys :=
  EmptyBuffProc_with (fun _ => NoFuel) doClose y.

Definition WriteCloseRecords (y : sys) : outcome sys :=
  let y := upd_data (set_rawWrite true) y in
  let! y :=
    (if negb ((sd_type (sdata y) =? FCGI_STDERR) && (wrNext (strm y) =? 0)%nat
              && negb (isAnythingWritten (sdata y))) then
       let! h := MakeHeader (sd_type (sdata y)) (requestId (req y)) 0 0 in
       let! (_, y) := FCGX_PutStr EmptyBuff_flush (header_bytes h) y in
       Ret y
     else Ret y) in
  let! y :=
    (if nWriters (req y) =? 1 then
       let! h := MakeHeader FCGI_END_REQUEST (requestId (req y)) 8 0 in
       let b := MakeEndRequestBody (appStatus (req y)) FCGI_REQUEST_COMPLETE in
       let! (_, y) := FCGX_PutStr EmptyBuff_flush (header_bytes h ++ end_body_bytes b) y in
       Ret y
     else Ret y) in
  Ret (upd_req (fun r => set_nWriters (nWriters r - 1) r) y).

Definition EmptyBuffProc (doClose : bool) (y : sys) : outcome sys :=
  EmptyBuffProc_with WriteCloseRecords doClose y.

(** [FCGX_CreateWriter]: a request of its own, with two writers so that no
    END_REQUEST record is written. The fields it leaves uninitialised are those
    of [junk]. *)
Definition FCGX_CreateWriter (junk : FCGX_Request) (addr : Z) (mem : list Z)
    (ipcFd0 requestId0 bufflen0 streamType : Z) (o : os_state) : sys :=
  {| strm := NewWriter addr mem bufflen0 streamType;
     req := set_nWriters 2 (set_requestId requestId0 (set_ipcFd ipcFd0 junk));
     os := o |}.

(** A client's use of an output stream. *)
Inductive wop :=
| WStr (str : list Z)
| WChar (c : Z)
| WFlush.

Definition run_wop (w : wop) (y : sys) : outcome (Z * sys) :=
  match w with
  | WStr str => FCGX_PutStr EmptyBuffProc str y
  | WChar c => FCGX_PutChar EmptyBuffProc c y
  | WFlush => FCGX_FFlush EmptyBuffProc y
  end.

Fixpoint run_wops (ws : list wop) (y : sys) : outcome (list Z * sys) :=
  match ws with
  | [] => Ret ([], y)
  | w :: ws =>
      let! (r, y) := run_wop w y in
      let! (rs, y) := run_wops ws y in
      Ret (r :: rs, y)
  end.

(** What an operation writes, and the result of its success. *)
Definition wop_data (w : wop) : list Z :=
  match w with WStr str => str | WChar c => [u8 c] | WFlush => [] end.
Definition wop_result (w : wop) : Z :=
  match w with WStr str => Z.of_nat (length str) | WChar c => u8 c | WFlush => 0 end.

(** ** Writing to a connection without errors *)

Definition conn_tx (c : conn) (wr : list write_event) (tx : list Z) : conn :=
  mkConn (c_rx c) wr tx (c_readable c) (c_select c).

Definition wtakes (wr : list write_event) : Prop :=
  Forall (fun e => match e with WTake _ => True | WErr _ => False end) wr.

Lemma put_conn_put_conn fd c c' o : put_conn fd c' (put_conn fd c o) = put_conn fd c' o.
Proof. unfold put_conn; cbn. by rewrite insert_insert_eq. Qed.

Lemma put_conn_lookup fd c o : k_conns (kern (put_conn fd c o)) !! fd = Some c.
Proof. cbn. by rewrite lookup_insert_eq. Qed.

Lemma put_conn_id fd c o : k_conns (kern o) !! fd = Some c -> put_conn fd c o = o.
Proof.
  intros H. destruct o as [? ? ? ? ? [cs acc cl]]; unfold put_conn, set_kern; cbn in *.
  by rewrite insert_id by done.
Qed.

(** What [OS_Write] does on any script: it takes a prefix or fails. *)
Lemma OS_Write_any fd c tx wr bs o :
  shutdownNow o = false ->
  (exists n wr', OS_Write fd bs (put_conn fd (conn_tx c wr tx) o)
      = (Z.of_nat (length (take n bs)), put_conn fd (conn_tx c wr' (tx ++ take n bs)) o)
    /\ (length wr' < length wr \/ n = length bs)%nat /\ incl wr' wr) \/
  (exists e wr', wr = WErr e :: wr' /\
     OS_Write fd bs (put_conn fd (conn_tx c wr tx) o)
       = (-1, set_os_errno e (put_conn fd (conn_tx c wr' tx) o))).
Proof.
  intros Hs.
  assert (OS_Write fd bs (put_conn fd (conn_tx c wr tx) o)
    = sys_write fd bs (put_conn fd (conn_tx c wr tx) o)) as ->.
  { unfold OS_Write.
    by assert (shutdownNow (put_conn fd (conn_tx c wr tx) o) = false) as -> by done. }
  unfold sys_write. rewrite put_conn_lookup. cbn [conn_tx c_wr c_tx c_rx c_readable c_select].
  destruct wr as [|[n|e] wr].
  - left. exists (length bs), []. rewrite firstn_all, put_conn_put_conn.
    split_and!; auto using incl_refl.
  - left. exists n, wr. rewrite put_conn_put_conn. split_and!; cbn; auto with lia.
    by apply incl_tl, incl_refl.
  - right. exists e, wr. by rewrite put_conn_put_conn.
Qed.

Lemma write_loop_any fuel fd c tx wr bs o :
  shutdownNow o = false -> (S (S (length wr)) <= fuel)%nat ->
  exists out rest wr',
    bs = out ++ rest /\ incl wr' wr /\
    ((rest = [] /\ write_loop fuel fd bs (put_conn fd (conn_tx c wr tx) o)
       = Ret (0, put_conn fd (conn_tx c wr' (tx ++ out)) o)) \/
     (rest <> [] /\ exists e, In (WErr e) wr /\
        write_loop fuel fd bs (put_conn fd (conn_tx c wr tx) o)
        = Ret (-1, set_os_errno e (put_conn fd (conn_tx c wr' (tx ++ out)) o)))).
Proof.
  intros Hs. revert tx wr bs. induction fuel as [|fuel IH]; intros tx wr bs Hf; [lia|].
  cbn [write_loop]. destruct bs as [|b bs].
  { exists [], [], wr. split_and!; [done|by apply incl_refl|]. left. by rewrite app_nil_r. }
  destruct (OS_Write_any fd c tx wr (b :: bs) o Hs)
    as [(n & wr' & -> & Hn & Hle)|(e & wr' & -> & ->)].
  2:{ exists [], (b :: bs), wr'. split_and!; [done|by apply incl_tl, incl_refl|]. right.
      split; [done|]. exists e. split; [by left|]. by rewrite app_nil_r. }
  destruct (Z.ltb_spec (Z.of_nat (length (take n (b :: bs)))) 0); [lia|].
  rewrite Nat2Z.id, drop_length_take.
  destruct Hn as [Hlt|Heq].
  - destruct (IH (tx ++ take n (b :: bs)) wr' (drop n (b :: bs)))
      as (out & rest & wr2 & Hb & Hi & Hcase); [lia|].
    exists (take n (b :: bs) ++ out), rest, wr2. split_and!.
    + by rewrite <-app_assoc, <-Hb, take_drop.
    + by apply (incl_tran Hi).
    + rewrite <-app_assoc in Hcase.
      destruct Hcase as [[-> ->]|(Hr & e & He & ->)]; [by left|]. right. split; [done|].
      exists e. split; [|done]. by apply Hle.
  - rewrite Heq, drop_all, firstn_all.
    destruct fuel as [|fuel]; [lia|]. exists (b :: bs), [], wr'.
    split_and!; [by rewrite app_nil_r|done|by left].
Qed.

Lemma write_loop_ok fuel fd c tx wr bs o :
  shutdownNow o = false -> wtakes wr -> (S (S (length wr)) <= fuel)%nat ->
  exists wr', write_loop fuel fd bs (put_conn fd (conn_tx c wr tx) o)
      = Ret (0, put_conn fd (conn_tx c wr' (tx ++ bs)) o) /\ wtakes wr'.
Proof.
  intros Hs Hw Hf. unfold wtakes in *. rewrite List.Forall_forall in Hw.
  destruct (write_loop_any fuel fd c tx wr bs o Hs Hf)
    as (out & rest & wr' & Hb & Hi & [[-> Hr]|(_ & e & He & _)]).
  - rewrite app_nil_r in Hb. subst out. exists wr'. split; [done|].
    apply List.Forall_forall. intros x Hx. apply Hw, Hi, Hx.
  - by apply Hw in He.
Qed.

Lemma write_it_all_ok fd c tx wr bs o :
  shutdownNow o = false -> wtakes wr ->
  exists wr', write_it_all fd bs (put_conn fd (conn_tx c wr tx) o)
      = Ret (0, put_conn fd (conn_tx c wr' (tx ++ bs)) o) /\ wtakes wr'.
Proof.
  intros Hs Hw. unfold write_it_all, write_fuel. rewrite put_conn_lookup.
  by apply write_loop_ok.
Qed.

(** ** The invariant of an open output stream *)

Record writer_inv (y : sys) : Prop := {
  wi_reader : isReader (strm y) = false;
  wi_closed : isClosed (strm y) = false;
  wi_fclose : wasFCloseCalled (strm y) = false;
  wi_errno : FCGI_errno (strm y) = 0;
  wi_stop : stop (strm y) = bufflen (sdata y);
  wi_wrNext : (wrNext (strm y) <= stop (strm y))%nat;
  wi_buff : (bufflen (sdata y) <= length (buff (sdata y)))%nat;
  wi_align : Z.of_nat (bufflen (sdata y)) mod 8 = 0;
  wi_size : 24 <= Z.of_nat (bufflen (sdata y)) <= 65536
}.

(** Records a stream of type [T] of request [id] may emit: content that is not
    empty, padding with zeros to a multiple of 8 bytes. *)
Definition data_record (T id : Z) (r : record) : Prop :=
  rec_type r = T /\ rec_id r = id /\ rec_content r <> [] /\ record_ok r /\
  Forall (eq 0) (rec_padding r) /\
  Z.of_nat (length (encode_record r)) mod 8 = 0.

Section Records.
Context (o0 : os_state) (c0 : conn) (q0 : FCGX_Request) (T : Z) (any0 : bool).
Context (Hshut : shutdownNow o0 = false) (HT : is_byte T)
        (Hid : 0 <= requestId q0 < 65536).

(** What the connection has received is what it had received before, followed by
    [out]; nothing else of the system and of the request has changed. *)
Definition sent (out : list Z) (y : sys) : Prop :=
  exists wr, os y = put_conn (ipcFd q0) (conn_tx c0 wr (c_tx c0 ++ out)) o0 /\ wtakes wr.

Definition pending (y : sys) : list Z := slice (buff (sdata y)) FCGI_HEADER_LEN (wrNext (strm y)).

(** Record mode: [d] is the content of the records sent, then the content that is
    still in the buffer. [any0] says that records had been sent before. *)
Definition holds_records (d : list Z) (y : sys) : Prop :=
  writer_inv y /\ req y = q0 /\ sd_type (sdata y) = T /\ rawWrite (sdata y) = false /\
  (FCGI_HEADER_LEN <= wrNext (strm y))%nat /\
  exists rs, sent (encode_records rs) y /\ Forall (data_record T (requestId q0)) rs /\
    (isAnythingWritten (sdata y) = any0 || negb (bool_decide (rs = []))) /\
    d = concat (map rec_content rs) ++ pending y.

(** Raw mode: [d] is everything sent and everything in the buffer. *)
Definition holds_raw (d : list Z) (y : sys) : Prop :=
  writer_inv y /\ req y = q0 /\ sd_type (sdata y) = T /\ rawWrite (sdata y) = true /\
  exists out, sent out y /\ d = out ++ take (wrNext (strm y)) (buff (sdata y)).
End Records.

Section Proofs.
Context (o0 : os_state) (c0 : conn) (q0 : FCGX_Request) (T : Z) (any0 : bool).
Context (Hshut : shutdownNow o0 = false) (HT : is_byte T)
        (Hid : 0 <= requestId q0 < 65536).
Implicit Types (y : sys) (bs out d : list Z).

Local Abbreviation sent := (sent o0 c0 q0).
Local Abbreviation holds_records := (holds_records o0 c0 q0 T any0).
Local Abbreviation holds_raw := (holds_raw o0 c0 q0 T).

(** The state after [put_bytes]. *)
Definition put_state bs y : sys :=
  upd_strm (set_wrNext (wrNext (strm y) + length bs))
    (upd_data (set_buff (mem_write (buff (sdata y)) (wrNext (strm y)) bs)) y).

Lemma put_bytes_ok bs y :
  writer_inv y -> (length bs <= stop (strm y) - wrNext (strm y))%nat ->
  put_bytes bs y = Ret (put_state bs y) /\ writer_inv (put_state bs y).
Proof.
  intros Hy Hl. pose proof (wi_wrNext y Hy). pose proof (wi_buff y Hy).
  pose proof (wi_stop y Hy). split.
  - unfold put_bytes. destruct (Nat.leb_spec (wrNext (strm y) + length bs)
      (length (buff (sdata y)))); [done|lia].
  - destruct Hy. constructor; cbn; try done; try lia.
    rewrite length_mem_write by lia. done.
Qed.

Lemma ipc_write_ok bs out y :
  ipcFd (req y) = ipcFd q0 -> sent out y ->
  exists o, ipc_write bs y = Ret (true, set_os o y) /\ sent (out ++ bs) (set_os o y).
Proof.
  intros Hq (wr & Ho & Hw). unfold ipc_write. rewrite Hq, Ho.
  destruct (write_it_all_ok (ipcFd q0) c0 (c_tx c0 ++ out) wr bs o0 Hshut Hw)
    as (wr' & -> & Hw').
  cbn [obind]. eexists. split; [done|]. exists wr'. cbn. by rewrite app_assoc.
Qed.

(** The record that [encapsulate] completes in the buffer. *)
Definition pending_record y : record :=
  let n := Z.of_nat (length (pending y)) in
  mkRecord T (requestId q0) (pending y) (replicate (Z.to_nat (AlignInt8 n - n)) 0).

Lemma pending_record_ok y :
  writer_inv y -> (FCGI_HEADER_LEN < wrNext (strm y))%nat ->
  data_record T (requestId q0) (pending_record y) /\
  Z.of_nat (length (encode_record (pending_record y)))
    = 8 + AlignInt8 (Z.of_nat (wrNext (strm y)) - 8) /\
  8 + AlignInt8 (Z.of_nat (wrNext (strm y)) - 8) <= Z.of_nat (stop (strm y)).
Proof.
  intros Hy Hw. pose proof (wi_wrNext y Hy). pose proof (wi_buff y Hy).
  pose proof (wi_stop y Hy). pose proof (wi_size y Hy). pose proof (wi_align y Hy).
  unfold FCGI_HEADER_LEN in *.
  assert (length (pending y) = (wrNext (strm y) - 8)%nat) as Hlen
    by (unfold pending; rewrite length_slice by (unfold FCGI_HEADER_LEN; lia); done).
  pose proof (AlignInt8_bounds (Z.of_nat (wrNext (strm y)) - 8)) as [Hb Hm]; [lia|].
  assert (AlignInt8 (Z.of_nat (length (pending y)))
          = AlignInt8 (Z.of_nat (wrNext (strm y)) - 8)) as Heq by (f_equal; lia).
  assert (length (encode_record (pending_record y))
    = Z.to_nat (8 + AlignInt8 (Z.of_nat (wrNext (strm y)) - 8))) as Hr.
  { rewrite length_encode_record. unfold pending_record; cbn [rec_content rec_padding].
    rewrite length_replicate. lia. }
  repeat split; cbn [rec_content rec_padding rec_type rec_id pending_record]; try done.
  all: try (rewrite ?length_replicate; lia).
  - intros Hn. rewrite Hn in Hlen. cbn in Hlen. lia.
  - apply HT.
  - apply HT.
  - apply Forall_replicate. done.
  - rewrite Hr, Z2Nat.id by lia.
    rewrite <-Z.add_mod_idemp_r, Hm by lia. done.
  - pose proof (Z.div_mod (Z.of_nat (bufflen (sdata y))) 8).
    pose proof (Z.div_mod (AlignInt8 (Z.of_nat (wrNext (strm y)) - 8)) 8). lia.
Qed.

(** The parts of a state that filling the buffer leaves alone. *)
Definition same_meta y y' : Prop :=
  os y' = os y /\ req y' = req y /\ sd_type (sdata y') = sd_type (sdata y) /\
  rawWrite (sdata y') = rawWrite (sdata y) /\
  isAnythingWritten (sdata y') = isAnythingWritten (sdata y).

Lemma encapsulate_empty y :
  writer_inv y -> wrNext (strm y) = FCGI_HEADER_LEN ->
  encapsulate y = Ret (upd_strm (set_wrNext 0) y).
Proof. intros _ Hw. unfold encapsulate. rewrite Hw. done. Qed.

Lemma encapsulate_ok y :
  writer_inv y -> (FCGI_HEADER_LEN < wrNext (strm y))%nat ->
  sd_type (sdata y) = T -> req y = q0 ->
  exists y', encapsulate y = Ret y' /\ writer_inv y' /\ same_meta y y' /\
    wrNext (strm y') = length (encode_record (pending_record y)) /\
    take (wrNext (strm y')) (buff (sdata y')) = encode_record (pending_record y).
Proof.
  intros Hy Hw HTy Hq.
  destruct (pending_record_ok y Hy Hw) as (_ & Hlen & Hfit).
  pose proof (wi_wrNext y Hy). pose proof (wi_buff y Hy).
  pose proof (wi_stop y Hy). pose proof (wi_size y Hy).
  unfold FCGI_HEADER_LEN in *.
  set (n := Z.of_nat (wrNext (strm y)) - 8) in *.
  assert (length (pending y) = Z.to_nat n) as Hp
    by (unfold pending; rewrite length_slice by (unfold FCGI_HEADER_LEN; lia);
        unfold FCGI_HEADER_LEN; lia).
  pose proof (AlignInt8_bounds n) as [Hb Hm]; [lia|].
  unfold encapsulate. rewrite s32_small by lia. fold n.
  destruct (Z.gtb_spec n 0); [|lia]. cbn zeta.
  set (z := replicate (Z.to_nat (AlignInt8 n - n)) 0).
  assert (length z = Z.to_nat (AlignInt8 n - n)) as Hz by apply length_replicate.
  destruct (put_bytes_ok z y Hy) as (-> & Hy1); [lia|].
  set (y1 := put_state z y) in *. cbn [obind].
  replace (sd_type (sdata y1)) with T by done.
  replace (requestId (req y1)) with (requestId q0) by (subst y1; cbn; by rewrite Hq).
  destruct (MakeHeader_encodes T (requestId q0) n (AlignInt8 n - n)) as (h & -> & Hh);
    [done|done|lia|lia|].
  cbn [obind]. eexists. split; [done|].
  assert (encode_record (pending_record y)
    = header_bytes h ++ pending y ++ z) as Hrec.
  { rewrite Hh. unfold encode_record, pending_record; cbn [rec_type rec_id rec_content rec_padding].
    rewrite !length_replicate, Hp, Z2Nat.id by lia. subst z.
    rewrite (Z2Nat.id (AlignInt8 n - n)) by lia. done. }
  split_and!.
  - destruct Hy1. constructor; cbn in *; try done.
    rewrite length_mem_write; [done|]. rewrite length_header_bytes. unfold FCGI_HEADER_LEN.
    rewrite length_mem_write by lia. lia.
  - done.
  - cbn. lia.
  - cbn -[header_bytes]. rewrite Hrec. unfold mem_write at 1. rewrite take_0, app_nil_l.
    rewrite length_header_bytes, Nat.add_0_l.
    rewrite take_app, length_header_bytes.
    rewrite take_ge by (rewrite length_header_bytes; unfold FCGI_HEADER_LEN; lia).
    f_equal. change (take (wrNext (strm y) + length z - FCGI_HEADER_LEN)
      (drop FCGI_HEADER_LEN (mem_write (buff (sdata y)) (wrNext (strm y)) z)))
      with (slice (mem_write (buff (sdata y)) (wrNext (strm y)) z) FCGI_HEADER_LEN
              (wrNext (strm y) + length z)).
    rewrite (slice_app _ _ (wrNext (strm y))) by (unfold FCGI_HEADER_LEN; lia).
    rewrite slice_mem_write by lia. rewrite slice_mem_write_before by lia. done.
Qed.

Lemma sent_frame out y y' : os y' = os y -> sent out y -> sent out y'.
Proof. intros He (wr & Ho & Hw). exists wr. by rewrite He. Qed.

Lemma writer_inv_frame y y' :
  isReader (strm y') = isReader (strm y) -> isClosed (strm y') = isClosed (strm y) ->
  wasFCloseCalled (strm y') = wasFCloseCalled (strm y) ->
  FCGI_errno (strm y') = FCGI_errno (strm y) -> stop (strm y') = stop (strm y) ->
  (wrNext (strm y') <= stop (strm y))%nat ->
  bufflen (sdata y') = bufflen (sdata y) -> buff (sdata y') = buff (sdata y) ->
  writer_inv y -> writer_inv y'.
Proof. intros E1 E2 E3 E4 E5 E6 E7 E8 []. constructor; congruence || lia. Qed.

(** Writing out the buffer: its first [wrNext] bytes reach the connection. *)
Lemma drain_ok out y :
  ipcFd (req y) = ipcFd q0 -> sent out y ->
  exists o, ipc_write (take (wrNext (strm y)) (buff (sdata y)))
              (upd_data (set_isAnythingWritten true) y)
      = Ret (true, set_os o (upd_data (set_isAnythingWritten true) y)) /\
    sent (out ++ take (wrNext (strm y)) (buff (sdata y)))
      (set_os o (upd_data (set_isAnythingWritten true) y)).
Proof.
  intros Hq Hs. apply ipc_write_ok; [done|]. by eapply sent_frame; [|exact Hs].
Qed.

Lemma flush_records W d y :
  holds_records d y ->
  exists y', EmptyBuffProc_with W false y = Ret y' /\ holds_records d y' /\
    wrNext (strm y') = FCGI_HEADER_LEN.
Proof.
  intros (Hy & Hq & HTy & Hraw & Hw & rs & Hs & Hrs & Hany & Hd).
  unfold EmptyBuffProc_with. rewrite Hraw; cbn [negb].
  pose proof (wi_size y Hy). pose proof (wi_stop y Hy).
  destruct (decide (wrNext (strm y) = FCGI_HEADER_LEN)) as [Heq|Hne].
  - rewrite encapsulate_empty by done. cbn. rewrite Hraw; cbn.
    eexists. split; [done|]. split; [|done]. split_and!; cbn; try done.
    { eapply writer_inv_frame; [..|exact Hy]; cbn; try done. unfold FCGI_HEADER_LEN in *; lia. }
    exists rs. split_and!; try done.
    unfold pending in *; cbn. by rewrite Hd, Heq, !slice_nil.
  - destruct (encapsulate_ok y Hy) as (y1 & -> & Hy1 & (Ho1 & Hq1 & HT1 & Hr1 & Ha1) & Hw1 & Hb1);
      [lia|done..|].
    cbn [obind]. rewrite length_encode_record in Hw1.
    destruct (Nat.eqb_spec (wrNext (strm y1)) 0); [lia|]; cbn [negb].
    destruct (drain_ok (encode_records rs) y1) as (o & Hi & Hs1); [congruence|by eapply sent_frame|].
    cbn [upd_data strm set_strm data set_data buff set_isAnythingWritten wrNext].
    rewrite Hi. cbn [obind]. cbn [upd_strm strm set_strm set_wrNext data set_data upd_data
      set_os rawWrite set_isAnythingWritten]. rewrite Hr1, Hraw; cbn [negb].
    eexists. split; [done|]. split; [|done]. split_and!; cbn; try congruence; try apply Nat.le_refl.
    { eapply writer_inv_frame; [..|exact Hy1]; cbn; try done.
      pose proof (wi_size y1 Hy1). pose proof (wi_stop y1 Hy1). unfold FCGI_HEADER_LEN; lia. }
    destruct (pending_record_ok y Hy) as (Hrec & _); [lia|].
    exists (rs ++ [pending_record y]). split_and!.
    + rewrite encode_records_app. rewrite Hb1 in Hs1.
      eapply sent_frame; [|unfold encode_records at 2; cbn [map concat]; rewrite app_nil_r; exact Hs1].
      done.
    + apply Forall_app; split; [done|]. by apply Forall_singleton.
    + cbn. rewrite bool_decide_false; [by destruct any0|]. by destruct rs.
    + unfold pending at 1; cbn. rewrite slice_nil, app_nil_r, map_app, concat_app; cbn.
      by rewrite app_nil_r.
Qed.

Lemma put_records d y bs :
  holds_records d y -> (length bs <= stop (strm y) - wrNext (strm y))%nat ->
  exists y', put_bytes bs y = Ret y' /\ holds_records (d ++ bs) y'.
Proof.
  intros (Hy & Hq & HTy & Hraw & Hw & rs & Hs & Hrs & Hany & Hd) Hl.
  destruct (put_bytes_ok bs y Hy Hl) as (-> & Hy1). eexists. split; [done|].
  pose proof (wi_buff y Hy). pose proof (wi_stop y Hy). pose proof (wi_wrNext y Hy).
  unfold holds_records. split_and!; try done; [cbn; lia|].
  exists rs. split_and!; try done.
  unfold pending in *; cbn.
  rewrite (slice_app _ _ (wrNext (strm y))) by lia.
  rewrite slice_mem_write, slice_mem_write_before by lia.
  by rewrite Hd, app_assoc.
Qed.

(** Record mode implements the output interface. *)
Lemma records_sink W : Sink (EmptyBuffProc_with W) holds_records.
Proof.
  constructor.
  - intros d y (Hy & _). split_and!; apply Hy.
  - intros d y bs. apply put_records.
  - intros d y Hd. destruct (flush_records W d y Hd) as (y' & -> & Hy' & Hw).
    exists y'. split_and!; try done. rewrite Hw. destruct Hy' as (Hy' & _).
    pose proof (wi_size y' Hy'). pose proof (wi_stop y' Hy'). unfold FCGI_HEADER_LEN. lia.
Qed.

Lemma flush_raw W d y :
  holds_raw d y ->
  exists y', EmptyBuffProc_with W false y = Ret y' /\ holds_raw d y' /\
    wrNext (strm y') = 0%nat.
Proof.
  intros (Hy & Hq & HTy & Hraw & out & Hs & Hd).
  unfold EmptyBuffProc_with. rewrite Hraw; cbn [negb obind].
  pose proof (wi_size y Hy). pose proof (wi_stop y Hy).
  destruct (Nat.eqb_spec (wrNext (strm y)) 0) as [Heq|Hne]; cbn [negb].
  - cbn. rewrite Hraw; cbn. eexists. split; [done|]. split; [|done].
    split_and!; try done. by exists out.
  - destruct (drain_ok out y) as (o & Hi & Hs1); [congruence|done|].
    cbn [upd_data strm set_strm data set_data buff set_isAnythingWritten wrNext].
    rewrite Hi. cbn. rewrite Hraw; cbn.
    eexists. split; [done|]. split; [|done]. split_and!; cbn; try done.
    { eapply writer_inv_frame; [..|exact Hy]; cbn; try done. lia. }
    eexists. split; [eapply sent_frame; [|exact Hs1]; done|].
    cbn. by rewrite app_nil_r.
Qed.

Lemma raw_sink W : Sink (EmptyBuffProc_with W) holds_raw.
Proof.
  constructor.
  - intros d y (Hy & _). split_and!; apply Hy.
  - intros d y bs (Hy & Hq & HTy & Hraw & out & Hs & Hd) Hl.
    destruct (put_bytes_ok bs y Hy Hl) as (-> & Hy1). eexists. split; [done|].
    pose proof (wi_buff y Hy). pose proof (wi_stop y Hy). pose proof (wi_wrNext y Hy).
    unfold holds_raw. split_and!; try done.
    exists out. split; [done|]. cbn.
    rewrite take_mem_write by lia. by rewrite Hd, app_assoc.
  - intros d y Hd. destruct (flush_raw W d y Hd) as (y' & -> & Hy' & Hw).
    exists y'. split_and!; try done. rewrite Hw. destruct Hy' as (Hy' & _).
    pose proof (wi_size y' Hy'). pose proof (wi_stop y' Hy'). lia.
Qed.

#[local] Existing Instance records_sink.
#[local] Existing Instance raw_sink.

Lemma run_wop_ok w d y :
  holds_records d y ->
  exists y', run_wop w y = Ret (wop_result w, y') /\ holds_records (d ++ wop_data w) y'.
Proof.
  intros Hy. destruct w as [str|c|]; cbn [run_wop wop_result wop_data].
  - by apply PutStr_sink.
  - by apply PutChar_sink.
  - rewrite app_nil_r. by apply FFlush_sink.
Qed.

Lemma run_wops_ok ws d y :
  holds_records d y ->
  exists y', run_wops ws y = Ret (map wop_result ws, y') /\
    holds_records (d ++ concat (map wop_data ws)) y'.
Proof.
  revert d y. induction ws as [|w ws IH]; intros d y Hy; cbn.
  - exists y. by rewrite app_nil_r.
  - destruct (run_wop_ok w d y Hy) as (y1 & -> & Hy1); cbn.
    destruct (IH _ _ Hy1) as (y2 & -> & Hy2); cbn. exists y2. by rewrite <-app_assoc in Hy2.
Qed.

(** ** Closing *)

(** The records that end a stream: an empty record, which a stderr stream on which
    nothing was written omits, and END_REQUEST when the stream is the last one. *)
Definition closing_records (quiet last : bool) : list record :=
  (if quiet then [] else [mkRecord T (requestId q0) [] []]) ++
  (if last then [end_request_record (requestId q0) (appStatus q0) FCGI_REQUEST_COMPLETE] else []).

Lemma raw_put bs d y :
  holds_raw d y ->
  exists y', FCGX_PutStr EmptyBuff_flush bs y = Ret (Z.of_nat (length bs), y') /\
    holds_raw (d ++ bs) y'.
Proof. apply (PutStr_sink (emptyBuffProc := EmptyBuff_flush)). Qed.

Lemma header_record_bytes T' n :
  is_byte T' -> 0 <= n <= 65535 ->
  exists h, MakeHeader T' (requestId q0) n 0 = Ret h /\
    forall content, Z.of_nat (length content) = n ->
      header_bytes h ++ content = encode_record (mkRecord T' (requestId q0) content []).
Proof.
  intros HT' Hn. destruct (MakeHeader_record T' (requestId q0) n 0) as (h & Hh & Hb);
    [done..|lia|]. exists h. split; [done|]. intros content Hl.
  rewrite <-(Hb content [] Hl eq_refl). by rewrite app_nil_r.
Qed.

Lemma WriteCloseRecords_ok d y :
  holds_raw d (upd_data (set_rawWrite true) y) ->
  exists y', WriteCloseRecords y = Ret (upd_req (fun r => set_nWriters (nWriters r - 1) r) y') /\
    holds_raw (d ++ encode_records (closing_records
      ((T =? FCGI_STDERR) && (wrNext (strm y) =? 0)%nat && negb (isAnythingWritten (sdata y)))
      (nWriters q0 =? 1))) y'.
Proof.
  intros Hy. assert (sd_type (sdata y) = T) as HTy by apply Hy.
  assert (req y = q0) as Hq by apply Hy.
  unfold WriteCloseRecords. cbn zeta.
  cbn [upd_data strm set_strm data set_data sd_type set_rawWrite wrNext isAnythingWritten req].
  rewrite HTy, Hq. set (quiet := _ && _ && _).
  destruct (header_record_bytes T 0) as (h & -> & Hh); [done|lia|]. cbn [obind].
  specialize (Hh [] eq_refl). rewrite app_nil_r in Hh. rewrite Hh.
  assert (exists y1, (if negb quiet then
      let! (_, y) := FCGX_PutStr EmptyBuff_flush (encode_record (mkRecord T (requestId q0) [] []))
                       (upd_data (set_rawWrite true) y) in Ret y
    else Ret (upd_data (set_rawWrite true) y)) = Ret y1 /\
    holds_raw (d ++ encode_records (if quiet then [] else [mkRecord T (requestId q0) [] []])) y1)
    as (y1 & -> & Hy1).
  { destruct quiet; cbn [negb].
    - eexists; split; [done|]. by rewrite app_nil_r.
    - edestruct raw_put as (y1 & -> & Hy1); [exact Hy|]. cbn [obind].
      exists y1. split; [done|]. unfold encode_records; cbn [map concat].
      by rewrite app_nil_r. }
  cbn [obind]. assert (req y1 = q0) as Hq1 by apply Hy1. rewrite Hq1.
  destruct (header_record_bytes FCGI_END_REQUEST 8) as (h2 & -> & Hh2);
    [unfold is_byte, FCGI_END_REQUEST; lia|lia|]. cbn [obind].
  set (b := MakeEndRequestBody _ _).
  assert (encode_record (end_request_record (requestId q0) (appStatus q0) FCGI_REQUEST_COMPLETE)
    = header_bytes h2 ++ end_body_bytes b) as Hend.
  { rewrite (Hh2 (end_body_bytes b)) by done. unfold end_request_record. f_equal.
    unfold b, end_body_bytes, MakeEndRequestBody; cbn -[Z.div Z.modulo].
    rewrite !u8_land_255, !Z.shiftr_div_pow2 by lia. done. }
  rewrite <-Hend. unfold closing_records.
  rewrite encode_records_app, app_assoc.
  destruct (nWriters q0 =? 1); cbn [obind].
  - edestruct raw_put as (y2 & -> & Hy2); [exact Hy1|]. cbn [obind].
    exists y2. split; [done|]. unfold encode_records at 2; cbn [map concat].
    by rewrite app_nil_r.
  - exists y1. split; [done|]. by rewrite app_nil_r.
Qed.

(** The buffer completed as a record: everything sent or buffered is then a
    sequence of records whose contents are the bytes accepted. *)
Lemma encapsulate_raw d y :
  holds_records d y ->
  exists y1 rs, encapsulate y = Ret y1 /\
    holds_raw (encode_records rs) (upd_data (set_rawWrite true) y1) /\
    Forall (data_record T (requestId q0)) rs /\ concat (map rec_content rs) = d /\
    (wrNext (strm y1) =? 0)%nat && negb (isAnythingWritten (sdata y1))
      = negb any0 && bool_decide (rs = []).
Proof.
  intros (Hy & Hq & HTy & Hraw & Hw & rs & Hs & Hrs & Hany & Hd).
  destruct (decide (wrNext (strm y) = FCGI_HEADER_LEN)) as [Heq|Hne].
  - rewrite encapsulate_empty by done. do 2 eexists. split; [done|].
    unfold pending in Hd. rewrite Heq, slice_nil, app_nil_r in Hd. split_and!; [|done|done|].
    + unfold holds_raw; cbn. split_and!; try done.
      { eapply writer_inv_frame; [..|exact Hy]; cbn; try done. lia. }
      exists (encode_records rs). split; [done|]. by rewrite app_nil_r.
    + cbn. rewrite Hany, negb_orb, negb_involutive. done.
  - destruct (encapsulate_ok y Hy) as (y1 & -> & Hy1 & (Ho1 & Hq1 & HT1 & Hr1 & Ha1) & Hw1 & Hb1);
      [lia|done..|].
    destruct (pending_record_ok y Hy) as (Hrec & _); [lia|].
    exists y1, (rs ++ [pending_record y]). split; [done|]. split_and!.
    + unfold holds_raw; cbn. split_and!; try congruence.
      { eapply writer_inv_frame; [..|exact Hy1]; cbn; try done. apply (wi_wrNext y1 Hy1). }
      exists (encode_records rs). split; [by eapply sent_frame; [|exact Hs]|].
      rewrite Hb1, encode_records_app. unfold encode_records at 2; cbn [map concat].
      by rewrite app_nil_r.
    + apply Forall_app; split; [done|]. by apply Forall_singleton.
    + rewrite map_app, concat_app; cbn. by rewrite app_nil_r.
    + rewrite length_encode_record in Hw1. rewrite bool_decide_false, andb_false_r by (by destruct rs).
      destruct (Nat.eqb_spec (wrNext (strm y1)) 0); [lia|done].
Qed.

(** [EmptyBuffProc (stream, TRUE)] sends everything and the closing records. *)
Lemma EmptyBuffProc_close d y :
  holds_records d y ->
  exists y1 rs, EmptyBuffProc true y = Ret y1 /\
    Forall (data_record T (requestId q0)) rs /\ concat (map rec_content rs) = d /\
    sent (encode_records (rs ++ closing_records
      ((T =? FCGI_STDERR) && negb any0 && bool_decide (rs = [])) (nWriters q0 =? 1))) y1 /\
    isReader (strm y1) = false /\ FCGI_errno (strm y1) = 0 /\ wrNext (strm y1) = 0%nat /\
    req y1 = set_nWriters (nWriters q0 - 1) q0.
Proof.
  intros Hy. assert (rawWrite (sdata y) = false) as Hraw by apply Hy.
  destruct (encapsulate_raw d y Hy) as (y1 & rs & He & Hy1 & Hrs & Hd & Hquiet).
  destruct (WriteCloseRecords_ok _ _ Hy1) as (y2 & HW & Hy2).
  rewrite <-andb_assoc, Hquiet, andb_assoc in Hy2.
  destruct Hy2 as (Hi2 & Hq2 & HT2 & Hr2 & out & Hs2 & Hd2).
  unfold EmptyBuffProc, EmptyBuffProc_with. rewrite Hraw; cbn [negb]. rewrite He; cbn [obind].
  rewrite HW; cbn [obind upd_req strm set_req].
  destruct (Nat.eqb_spec (wrNext (strm y2)) 0) as [Hz|Hz]; cbn [negb].
  - cbn. rewrite Hr2; cbn. eexists _, rs. split; [done|]. split_and!; cbn; try done.
    + rewrite encode_records_app, Hd2, Hz, take_0, app_nil_r. by eapply sent_frame; [|exact Hs2].
    + apply Hi2.
    + apply Hi2.
    + by rewrite Hq2.
  - destruct (drain_ok out (upd_req (fun r => set_nWriters (nWriters r - 1) r) y2))
      as (o & Hi & Hs3); [cbn; congruence|by eapply sent_frame; [|exact Hs2]|].
    cbn in Hi |- *. rewrite Hi.
    cbn. rewrite Hr2; cbn. eexists _, rs. split; [done|]. split_and!; cbn; try done.
    + rewrite encode_records_app, Hd2. by eapply sent_frame; [|exact Hs3].
    + apply Hi2.
    + apply Hi2.
    + by rewrite Hq2.
Qed.

Lemma FClose_ok d y :
  holds_records d y ->
  exists y1 rs, FCGX_FClose EmptyBuffProc y = Ret (0, y1) /\
    Forall (data_record T (requestId q0)) rs /\ concat (map rec_content rs) = d /\
    sent (encode_records (rs ++ closing_records
      ((T =? FCGI_STDERR) && negb any0 && bool_decide (d = [])) (nWriters q0 =? 1))) y1 /\
    isClosed (strm y1) = true /\ wasFCloseCalled (strm y1) = true /\
    stop (strm y1) = wrNext (strm y1) /\
    req y1 = set_nWriters (nWriters q0 - 1) q0.
Proof.
  intros Hy. unfold FCGX_FClose.
  assert (isReader (strm y) = false) as Hrd by apply Hy.
  assert (wasFCloseCalled (strm y) = false) as Hfc by apply Hy.
  rewrite Hfc, Hrd; cbn [negb].
  destruct (EmptyBuffProc_close d y Hy) as (y1 & rs & -> & Hrs & Hd & Hs & Hr & He & Hw & Hq).
  cbn. rewrite Hr; cbn. rewrite He; cbn.
  eexists _, rs. split; [done|]. split_and!; cbn; try done.
  assert (bool_decide (d = []) = bool_decide (rs = [])) as ->; [|done].
  apply bool_decide_ext. split; [|by intros ->; subst d].
  intros ->. destruct rs as [|r rs]; [done|]. inversion Hrs as [|? ? (_ & _ & Hne & _)]; subst.
  cbn in Hd. apply app_eq_nil in Hd as [? _]. done.
Qed.
End Proofs.

(** ** A new output stream *)

Lemma buffer_size n :
  let m := AlignInt8 (Z.min (Z.max n 32) (FCGI_MAX_LENGTH + 1)) in
  32 <= m <= 65536 /\ m mod 8 = 0.
Proof.
  unfold FCGI_MAX_LENGTH. cbn zeta.
  pose proof (AlignInt8_bounds (Z.min (Z.max n 32) (65535 + 1))) as [Hb Hm]; [lia|].
  split; [|done]. split; [lia|].
  pose proof (Z.div_mod (AlignInt8 (Z.min (Z.max n 32) (65535 + 1))) 8). lia.
Qed.

Lemma AlignPtr8_offset p :
  0 <= p < 2 ^ 64 - 8 -> 0 <= AlignPtr8 p - p < 8.
Proof.
  intros. rewrite AlignPtr8_value by done.
  pose proof (Z.div_mod (p + 7) 8). pose proof (Z.mod_pos_bound (p + 7) 8). lia.
Qed.

Lemma NewWriter_holds addr mem n T q o c :
  0 <= addr < 2 ^ 64 - 8 ->
  Z.of_nat (length mem) = AlignInt8 (Z.min (Z.max n 32) (FCGI_MAX_LENGTH + 1)) ->
  k_conns (kern o) !! ipcFd q = Some c -> wtakes (c_wr c) ->
  holds_records o c q T false [] (mkSys (NewWriter addr mem n T) q o).
Proof.
  intros Ha Hm Hc Hw. destruct (buffer_size n) as [Hn Hn8].
  pose proof (AlignPtr8_offset addr Ha).
  unfold NewWriter, NewStream.
  set (m := AlignInt8 _) in *. cbn zeta.
  set (m' := if negb _ then _ else _).
  assert (24 <= m' <= m /\ m' mod 8 = 0 /\ m' <= m - (AlignPtr8 addr - addr)) as (Hm' & Hm8 & Hmo).
  { subst m'. destruct (Z.eqb_spec (AlignPtr8 addr) addr); cbn [negb]; split_and!; try lia.
    rewrite <-Zminus_mod_idemp_l, Hn8. done. }
  unfold holds_records; cbn. split_and!; try done.
  - constructor; cbn; unfold FCGI_HEADER_LEN; try done; try lia.
    + rewrite length_slice by lia. lia.
    + by rewrite Z2Nat.id by lia.
  - exists []. split_and!; try done.
    + exists (c_wr c). split; [|done]. rewrite app_nil_r. cbn.
      rewrite put_conn_id; [done|]. rewrite Hc. by destruct c.
Qed.

(** C2.  What a client writes is what the connection receives.  Take a new output
    stream on a connection whose [write]s may be partial but do not fail, run any
    sequence of FCGX_PutStr, FCGX_PutChar and FCGX_FFlush on it, and close it with
    FCGX_FClose.  Every operation reports success, and the connection has received,
    after what it had received before, exactly a sequence of well-formed records of
    the stream's type and request whose contents joined together are the bytes
    written, followed by the closing records: the empty record that ends the stream
    (left out for a stderr stream nothing was written to), and END_REQUEST with the
    application status if this was the last open writer.  The number of open writers
    goes down by one. *)
Theorem output_stream_refines_records addr mem n T q o c ws :
  0 <= addr < 2 ^ 64 - 8 ->
  Z.of_nat (length mem) = AlignInt8 (Z.min (Z.max n 32) (FCGI_MAX_LENGTH + 1)) ->
  is_byte T -> 0 <= requestId q < 65536 ->
  k_conns (kern o) !! ipcFd q = Some c -> wtakes (c_wr c) -> shutdownNow o = false ->
  exists y1 y2 rs wr,
    run_wops ws (mkSys (NewWriter addr mem n T) q o) = Ret (map wop_result ws, y1) /\
    FCGX_FClose EmptyBuffProc y1 = Ret (0, y2) /\
    Forall (data_record T (requestId q)) rs /\
    concat (map rec_content rs) = concat (map wop_data ws) /\
    os y2 = put_conn (ipcFd q) (conn_tx c wr (c_tx c ++ encode_records (rs ++
      closing_records q T
        ((T =? FCGI_STDERR) && bool_decide (concat (map wop_data ws) = []))
        (nWriters q =? 1)))) o /\
    req y2 = set_nWriters (nWriters q - 1) q /\ isClosed (strm y2) = true.
Proof.
  intros Ha Hm HT Hid Hc Hw Hs.
  pose proof (NewWriter_holds addr mem n T q o c Ha Hm Hc Hw) as Hy.
  destruct (run_wops_ok o c q T false Hs HT Hid ws _ _ Hy) as (y1 & Hr & Hy1).
  destruct (FClose_ok o c q T false Hs HT Hid _ _ Hy1)
    as (y2 & rs & Hf & Hrs & Hd & (wr & Ho & _) & Hcl & _ & _ & Hq).
  exists y1, y2, rs, wr. cbn [app negb] in *. rewrite andb_true_r in Ho. split_and!; done.
Qed.

(** A concrete stream: 32 bytes of buffer at address 8, a connection that takes 3
    bytes, then none, then everything. *)
Definition demo_conn : conn := mkConn [] [WTake 3; WTake 0] [] true [].
Definition demo_aio : aio_state := mkAioState false 16 None ∅ ∅ ∅ ∅ 0 0 (-1).
Definition demo_os : os_state :=
  mkOs 0 false false false demo_aio (mkKernel {[5 := demo_conn]} [] []).
Definition demo_request : FCGX_Request := mkRequest 7 1 5 true false 3 1 0 0.

Lemma output_stream_refines_records_witness :
  exists y1 y2 rs wr,
    run_wops [WStr (bytes_of_string "hello, world"); WChar 10; WFlush; WStr [0; 255]]
      (mkSys (NewWriter 8 (replicate 32 0) 10 FCGI_STDOUT) demo_request demo_os)
      = Ret ([12; 10; 0; 2], y1) /\
    FCGX_FClose EmptyBuffProc y1 = Ret (0, y2) /\
    Forall (data_record FCGI_STDOUT 7) rs /\
    concat (map rec_content rs) = bytes_of_string "hello, world" ++ [10; 0; 255] /\
    os y2 = put_conn 5 (conn_tx demo_conn wr ([] ++ encode_records (rs ++
      [mkRecord FCGI_STDOUT 7 [] []; end_request_record 7 3 0]))) demo_os /\
    req y2 = set_nWriters 0 demo_request /\ isClosed (strm y2) = true.
Proof.
  apply (output_stream_refines_records 8 (replicate 32 0) 10 FCGI_STDOUT demo_request demo_os
    demo_conn [WStr (bytes_of_string "hello, world"); WChar 10; WFlush; WStr [0; 255]]).
  - lia.
  - reflexivity.
  - unfold is_byte, FCGI_STDOUT; lia.
  - cbn; lia.
  - reflexivity.
  - repeat constructor.
  - reflexivity.
Defined.

(** C3.  [write_it_all] on any script of [write] results: it returns, and either it
    returned 0 and all of [buf] was written, or it returned -1, errno is that of one
    of the failed [write]s, and a proper prefix of [buf] was written. *)
Theorem write_it_all_writes fd buf o c :
  shutdownNow o = false -> k_conns (kern o) !! fd = Some c ->
  exists out rest wr,
    buf = out ++ rest /\
    ((rest = [] /\ write_it_all fd buf o
        = Ret (0, put_conn fd (conn_tx c wr (c_tx c ++ out)) o)) \/
     (rest <> [] /\ exists e, In (WErr e) (c_wr c) /\ write_it_all fd buf o
        = Ret (-1, set_os_errno e (put_conn fd (conn_tx c wr (c_tx c ++ out)) o)))).
Proof.
  intros Hs Hc. unfold write_it_all, write_fuel. rewrite Hc.
  assert (o = put_conn fd (conn_tx c (c_wr c) (c_tx c)) o) as Ho.
  { rewrite put_conn_id; [done|]. rewrite Hc. by destruct c. }
  destruct (write_loop_any (S (S (length (c_wr c)))) fd c (c_tx c) (c_wr c) buf o Hs)
    as (out & rest & wr & Hb & _ & Hcase); [lia|].
  rewrite <-Ho in Hcase. by exists out, rest, wr.
Qed.

Lemma write_it_all_writes_witness :
  exists out rest wr,
    bytes_of_string "abc" = out ++ rest /\
    ((rest = [] /\ write_it_all 5 (bytes_of_string "abc") demo_os
        = Ret (0, put_conn 5 (conn_tx demo_conn wr (c_tx demo_conn ++ out)) demo_os)) \/
     (rest <> [] /\ exists e, In (WErr e) (c_wr demo_conn) /\
        write_it_all 5 (bytes_of_string "abc") demo_os
        = Ret (-1, set_os_errno e
            (put_conn 5 (conn_tx demo_conn wr (c_tx demo_conn ++ out)) demo_os)))).
Proof. apply (write_it_all_writes 5 (bytes_of_string "abc") demo_os demo_conn); reflexivity. Defined.
