(* ===== verification/FcgiParams.v ===== *)
(** Parameters of a request: the growing vector of name=value strings of
    cwf/libfcgi/fcgiapp.c ([Params]) and [FCGX_GetParam]. *)
From Stdlib Require Import ZArith Lia Bool String.
From stdpp Require Import base list numbers.
From S2P Require Import Prelude.

(** ** Code *)

(** [Params]: the strings stored so far ([cur - vec] is their number) and the
    number of pointers [vec] has room for. The pointer at [cur] is NULL. *)
Record Params := mkParams {
  vec : list (list Z);
  params_length : Z
}.

(** [*result->cur = NULL] needs room for one pointer. *)
Definition NewParams (length : Z) : outcome Params :=
  if 1 <=? length then Ret {| vec := []; params_length := length |} else Crash.

(** [nameValue] is the contents of the allocated string. Storing the string and the
    NULL after it are writes to [vec[size - 1]] and [vec[size]]. *)
Definition PutParam (nameValue : list Z) (p : Params) : outcome Params :=
  let size := Z.of_nat (length (vec p)) + 1 in
  if params_length p <? size then Crash
  else
    let len := if params_length p <=? size then s32 (params_length p * 2)
               else params_length p in
    if len <=? size then Crash
    else Ret {| vec := vec p ++ [nameValue]; params_length := len |}.

(** [strncmp (name, s, len) == 0] and [s[len] == '=']: [name] has no NUL in its
    [len] bytes, so both say that the string [s] begins with [name] and '='. *)
Fixpoint param_value (name s : list Z) : option (list Z) :=
  match name with
  | [] => match s with c :: s => if c =? 61 then Some s else None | [] => None end
  | n :: name =>
      match s with
      | c :: s => if (n =? c) && negb (c =? 0) then param_value name s else None
      | [] => None
      end
  end.

(** [FCGX_GetParam]: the string found is the rest of the entry after the '='. *)
Fixpoint GetParam_loop (name : list Z) (envp : list (list Z)) : option (list Z) :=
  match envp with
  | [] => None
  | p :: envp =>
      match param_value name p with
      | Some v => Some v
      | None => GetParam_loop name envp
      end
  end.

Definition FCGX_GetParam (name : option (list Z)) (envp : option (list (list Z)))
    : option (list Z) :=
  match name, envp with
  | Some name, Some envp => GetParam_loop (cstr name) envp
  | _, _ => None
  end.

(** ** Lemmas *)

(** There is always room for the NULL that ends the vector. *)
Definition params_ok (p : Params) : Prop :=
  Z.of_nat (length (vec p)) < params_length p <= 2 ^ 30.

Lemma NewParams_ok n :
  1 <= n <= 2 ^ 30 -> exists p, NewParams n = Ret p /\ params_ok p /\ vec p = [].
Proof.
  intros Hn. unfold NewParams. destruct (Z.leb_spec 1 n); [|lia].
  eexists; split; [done|]. split; [|done]. unfold params_ok; cbn. lia.
Qed.

Lemma PutParam_stores nv p :
  params_ok p -> Z.of_nat (length (vec p)) < 2 ^ 29 - 1 ->
  exists p', PutParam nv p = Ret p' /\ params_ok p' /\ vec p' = vec p ++ [nv].
Proof.
  unfold params_ok. intros Hp Hl. unfold PutParam.
  set (size := Z.of_nat (length (vec p)) + 1).
  destruct (Z.ltb_spec (params_length p) size); [lia|].
  destruct (Z.leb_spec (params_length p) size).
  - rewrite s32_small by lia. destruct (Z.leb_spec (params_length p * 2) size); [lia|].
    eexists; split; [done|]. cbn. rewrite length_app; cbn. split; [lia|done].
  - destruct (Z.leb_spec (params_length p) size); [lia|].
    eexists; split; [done|]. cbn. rewrite length_app; cbn. split; [lia|done].
Qed.

Lemma param_value_spec name s v :
  Forall (fun c => c <> 0) name ->
  param_value name s = Some v <-> s = name ++ 61 :: v.
Proof.
  intros Hn. revert s. induction Hn as [|n name Hn0 Hn IH]; intros s; cbn.
  - destruct s as [|c s]; [done|]. destruct (Z.eqb_spec c 61); split; intros [= ]; subst; done.
  - destruct s as [|c s]; [done|].
    destruct (Z.eqb_spec n c) as [->|]; cbn [andb].
    + destruct (Z.eqb_spec c 0); [done|]; cbn [negb]. rewrite IH. split; [by intros ->|by intros [= ->]].
    + split; [done|]. by intros [= -> ->].
Qed.

Lemma cstr_app s t : Forall (fun c => c <> 0) s -> cstr (s ++ 0 :: t) = s.
Proof.
  induction 1 as [|c s Hc Hs IH]; cbn; [done|].
  destruct (Z.eqb_spec c 0); [done|]. by rewrite IH.
Qed.

Lemma cstr_no_nul s : Forall (fun c => c <> 0) (cstr s).
Proof.
  induction s as [|c s IH]; cbn; [done|].
  destruct (Z.eqb_spec c 0); [done|]. by constructor.
Qed.
