(* ===== verification/FcgiReader.v ===== *)
(** The reader side of cwf/libfcgi/fcgiapp.c: input operations, the record state
    machine [FillBuffProc] with [ProcessHeader], and [ReadParams].

    The code is mutually recursive through the function pointer
    [stream->fillBuffProc]: FillBuffProc calls ProcessHeader, which reads the body
    of management and begin records with FCGX_GetStr, which calls fillBuffProc.
    Here the input operations take the pointer as a parameter and [FillBuffProc]
    passes itself with less fuel; the fuel bounds the iterations of every loop. *)
From Stdlib Require Import ZArith Lia Bool String.
From stdpp Require Import base list numbers gmap.
From S2P Require Import Prelude FcgiProto OsUnix FcgiStream FcgiParams.

(** ** Input operations *)

Section Input.
(** The function pointer [stream->fillBuffProc], and the fuel of the loops. *)
Variable fillBuffProc : sys -> outcome sys.
Variable fuel : nat.

(** [*stream->rdNext++]. *)
Definition read_byte (y : sys) : outcome (Z * sys) :=
  match buff (sdata y) !! rdNext (strm y) with
  | Some c => Ret (c, upd_strm (set_rdNext (S (rdNext (strm y)))) y)
  | None => Crash
  end.

Definition FCGX_GetChar (y : sys) : outcome (Z * sys) :=
  if isClosed (strm y) || negb (isReader (strm y)) then Ret (EOF, y)
  else if negb (rdNext (strm y) =? stop (strm y))%nat then read_byte y
  else
    let! y := fillBuffProc y in
    if isClosed (strm y) then Ret (EOF, y)
    else
      let y := upd_strm (set_stopUnget (Some (rdNext (strm y)))) y in
      if negb (rdNext (strm y) =? stop (strm y))%nat then read_byte y
      else ASSERT isClosed (strm y) in Ret (EOF, y).

(** The general case of [FCGX_GetStr]; [got] holds the bytes moved so far. *)
Fixpoint GetStr_loop (k : nat) (n : Z) (got : list Z) (y : sys)
    : outcome (list Z * sys) :=
  match k with
  | O => NoFuel
  | S k =>
      let fill got y :=
        if isClosed (strm y) || negb (isReader (strm y)) then Ret (got, y)
        else
          let! y := fillBuffProc y in
          if isClosed (strm y) then Ret (got, y)
          else GetStr_loop k n got (upd_strm (set_stopUnget (Some (rdNext (strm y)))) y) in
      if negb (rdNext (strm y) =? stop (strm y))%nat then
        let m := Z.to_nat (Z.min (n - Z.of_nat (length got))
                             (Z.of_nat (stop (strm y)) - Z.of_nat (rdNext (strm y)))) in
        let got := got ++ slice (buff (sdata y)) (rdNext (strm y)) (rdNext (strm y) + m) in
        let y := upd_strm (set_rdNext (rdNext (strm y) + m)) y in
        if Z.of_nat (length got) =? n then Ret (got, y) else fill got y
      else fill got y
  end.

(** The bytes stored in [str]; their number is the result. *)
Definition FCGX_GetStr (n : Z) (y : sys) : outcome (list Z * sys) :=
  if isClosed (strm y) || negb (isReader (strm y)) || (n <=? 0) then Ret ([], y)
  else if n <=? Z.of_nat (stop (strm y)) - Z.of_nat (rdNext (strm y)) then
    Ret (slice (buff (sdata y)) (rdNext (strm y)) (rdNext (strm y) + Z.to_nat n),
         upd_strm (set_rdNext (rdNext (strm y) + Z.to_nat n)) y)
  else GetStr_loop fuel n [] y.

(** The loop of [FCGX_GetLine]: [k] characters may still be stored. The flag says
    whether the end of input was the first thing read. *)
Fixpoint GetLine_loop (k : nat) (got : list Z) (y : sys)
    : outcome (option (list Z) * sys) :=
  match k with
  | O => Ret (Some got, y)
  | S k =>
      let! (c, y) := FCGX_GetChar y in
      if c =? EOF then Ret (match got with [] => None | _ => Some got end, y)
      else if c =? 10 then Ret (Some (got ++ [c]), y)
      else GetLine_loop k (got ++ [c]) y
  end.

(** [None] for NULL, otherwise the characters stored before the NUL. *)
Definition FCGX_GetLine (n : Z) (y : sys) : outcome (option (list Z) * sys) :=
  GetLine_loop (Z.to_nat (n - 1)) [] y.

Definition FCGX_UnGetChar (c : Z) (y : sys) : outcome (Z * sys) :=
  if (c =? EOF) || isClosed (strm y) || negb (isReader (strm y))
     || bool_decide (Some (rdNext (strm y)) = stopUnget (strm y))
  then Ret (EOF, y)
  else
    match rdNext (strm y) with
    | O => Crash
    | S r =>
        Ret (c, upd_data (fun d => set_buff (mem_write (buff d) r [u8 c]) d)
                  (upd_strm (set_rdNext r) y))
    end.

(** ** ReadParams *)

(** The rest of a four-byte length whose first byte is [b]; [None] when the three
    bytes are not there. *)
Definition read_length (b : Z) (y : sys) : outcome (option Z * sys) :=
  if negb (Z.land b 0x80 =? 0) then
    let! (lenBuff, y) := FCGX_GetStr 3 y in
    if negb (Z.of_nat (length lenBuff) =? 3) then Ret (None, SetError FCGX_PARAMS_ERROR y)
    else Ret (Some (Z.shiftl (Z.land b 0x7f) 24 + Z.shiftl (nth 0 lenBuff 0) 16
                    + Z.shiftl (nth 1 lenBuff 0) 8 + nth 2 lenBuff 0), y)
  else Ret (Some b, y).

(** [Malloc (n)] with the [int] argument converted to [size_t]: [malloc] fails on
    more than PTRDIFF_MAX bytes, and then the ASSERT of [Malloc] does. *)
Definition Malloc (n : Z) : outcome Z :=
  let size := u64 (s32 n) in
  ASSERT size <? 2 ^ 63 in Ret size.

(** One turn of the loop of [ReadParams] after the first byte of the name length:
    [None] when the pair is malformed. Bytes stored past the allocated string
    leave the defined behaviour. *)
Definition read_pair (b : Z) (y : sys) : outcome (option (list Z) * sys) :=
  let! (nameLen, y) := read_length b y in
  match nameLen with
  | None => Ret (None, y)
  | Some nameLen =>
      let! (v, y) := FCGX_GetChar y in
      if v =? EOF then Ret (None, SetError FCGX_PARAMS_ERROR y)
      else
        let! (valueLen, y) := read_length v y in
        match valueLen with
        | None => Ret (None, y)
        | Some valueLen =>
            let! size := Malloc (nameLen + valueLen + 2) in
            let! (name, y) := FCGX_GetStr nameLen y in
            if size <? Z.of_nat (length name) then Crash
            else if negb (Z.of_nat (length name) =? nameLen)
            then Ret (None, SetError FCGX_PARAMS_ERROR y)
            else if size <? nameLen + 1 then Crash
            else
              let! (value, y) := FCGX_GetStr valueLen y in
              if size <? nameLen + 1 + Z.of_nat (length value) then Crash
              else if negb (Z.of_nat (length value) =? valueLen)
              then Ret (None, SetError FCGX_PARAMS_ERROR y)
              else if size <? nameLen + valueLen + 2 then Crash
              else Ret (Some (name ++ [61] ++ value ++ [0]), y)
        end
  end.

Fixpoint ReadParams_loop (k : nat) (p : Params) (y : sys) : outcome (Z * Params * sys) :=
  match k with
  | O => NoFuel
  | S k =>
      let! (b, y) := FCGX_GetChar y in
      if b =? EOF then Ret (0, p, y)
      else
        let! (nv, y) := read_pair b y in
        match nv with
        | None => Ret (-1, p, y)
        | Some nv => let! p := PutParam nv p in ReadParams_loop k p y
        end
  end.

Definition ReadParams (p : Params) (y : sys) : outcome (Z * Params * sys) :=
  ReadParams_loop fuel p y.
End Input.

(** ** Records *)

(** Return codes of the Process* functions. *)
Definition STREAM_RECORD : Z := 0.
Definition SKIP : Z := 1.
Definition BEGIN_RECORD : Z := 2.
Definition MGMT_RECORD : Z := 3.

(** The bytes up to the first '=' of a C string, [None] when it has none
    ([strchr] returns NULL, which the code writes through). *)
Fixpoint until_eq (s : list Z) : option (list Z) :=
  match s with
  | [] => None
  | c :: s =>
      if c =? 0 then None
      else if c =? 61 then Some []
      else match until_eq s with Some n => Some (c :: n) | None => None end
  end.

(** The value FCGI_GET_VALUES reports for a variable. *)
Definition get_values_result (name : list Z) : option Z :=
  if list_Z_eqb name (b! "FCGI_MAX_CONNS") then Some 49
  else if list_Z_eqb name (b! "FCGI_MAX_REQS") then Some 49
  else if list_Z_eqb name (b! "FCGI_MPXS_CONNS") then Some 48
  else None.

(** The loop over the parameters of FCGI_GET_VALUES: [sprintf] appends
    length, 1, name and value and a NUL at [responseP]; outside the 64 bytes of
    [response] this is undefined. *)
Fixpoint get_values_loop (entries : list (list Z)) (response : list Z) (responseP : nat)
    : outcome (list Z * nat) :=
  match entries with
  | [] => Ret (response, responseP)
  | e :: entries =>
      match until_eq e with
      | None => Crash
      | Some name =>
          match get_values_result name with
          | None => get_values_loop entries response responseP
          | Some value =>
              let len := length name in
              let out := [Z.of_nat len; 1] ++ name ++ [value; 0] in
              if (responseP + length out <=? length response)%nat
              then get_values_loop entries (mem_write response responseP out) (responseP + len + 3)
              else Crash
          end
      end
  end.

Section Fill.
(** The 64 bytes of [response] before [ProcessManagementRecord] writes to them. *)
Variable stack : list Z.

Section Process.
Variable fillBuffProc : sys -> outcome sys.
Variable fuel : nat.

(** Sends [response]; an error closes the stream. *)
Definition send_response (bs : list Z) (status : Z) (y : sys) : outcome (Z * sys) :=
  let! (ok, y) := ipc_write bs y in
  Ret (if ok : bool then status else -1, y).

Definition ProcessManagementRecord (type : Z) (y : sys) : outcome (Z * sys) :=
  let! p := NewParams 3 in
  if type =? FCGI_GET_VALUES then
    let! (_, p, y) := ReadParams fillBuffProc fuel p y in
    if negb (FCGX_GetError y =? 0) || negb (contentLen (sdata y) =? 0)
    then Ret (FCGX_PROTOCOL_ERROR, y)
    else
      let! (response, responseP) := get_values_loop (vec p) stack FCGI_HEADER_LEN in
      let len := Z.of_nat responseP - 8 in
      let paddedLen := AlignInt8 len in
      let! h := MakeHeader FCGI_GET_VALUES_RESULT FCGI_NULL_REQUEST_ID len (paddedLen - len) in
      let response := mem_write response 0 (header_bytes h) in
      send_response (take (Z.to_nat (8 + paddedLen)) response) MGMT_RECORD y
  else
    let! h := MakeHeader FCGI_UNKNOWN_TYPE FCGI_NULL_REQUEST_ID 8 0 in
    send_response (header_bytes h ++ unknown_body_bytes (MakeUnknownTypeBody type))
      MGMT_RECORD y.

Definition ProcessBeginRecord (requestId0 : Z) (y : sys) : outcome (Z * sys) :=
  if (requestId0 =? 0) || negb (contentLen (sdata y) =? 8)
  then Ret (FCGX_PROTOCOL_ERROR, y)
  else if isBeginProcessed (req y) then
    let! h := MakeHeader FCGI_END_REQUEST requestId0 8 0 in
    send_response (header_bytes h ++ end_body_bytes (MakeEndRequestBody 0 FCGI_CANT_MPX_CONN))
      SKIP y
  else
    let y := upd_req (set_requestId requestId0) y in
    let! (body, y) := FCGX_GetStr fillBuffProc fuel 8 y in
    if negb (Z.of_nat (length body) =? 8) then Ret (FCGX_PROTOCOL_ERROR, y)
    else
      let body := begin_body_of_bytes body in
      let y := upd_req (set_keepConnection
                 (negb (Z.land (begin_flags body) FCGI_KEEP_CONN =? 0))) y in
      let y := upd_req (set_role (Z.shiftl (roleB1 body) 8 + roleB0 body)) y in
      let y := upd_req (set_isBeginProcessed true) y in
      Ret (BEGIN_RECORD, y).

Definition ProcessHeader (header : FCGI_Header) (y : sys) : outcome (Z * sys) :=
  if negb (version header =? FCGI_VERSION_1) then Ret (FCGX_UNSUPPORTED_VERSION, y)
  else
    let requestId0 := header_requestId header in
    let y := upd_data (set_contentLen (header_contentLength header)) y in
    let y := upd_data (set_paddingLen (paddingLength header)) y in
    if type header =? FCGI_BEGIN_REQUEST then ProcessBeginRecord requestId0 y
    else if requestId0 =? FCGI_NULL_REQUEST_ID
    then ProcessManagementRecord (type header) y
    else if negb (requestId0 =? requestId (req y)) then Ret (SKIP, y)
    else if negb (type header =? sd_type (sdata y)) then Ret (FCGX_PROTOCOL_ERROR, y)
    else Ret (STREAM_RECORD, y).
End Process.

(** *** FillBuffProc *)

(** How a stage of the loop ends: the function returns, the loop starts again, or
    the next stage follows. *)
Inductive stage :=
| Returns (y : sys)
| Continues (y : sys)
| Falls (y : sys).

(** If the buffer is empty, reads into it. *)
Definition fill_read (y : sys) : stage :=
  let d := sdata y in
  if (rdNext (strm y) =? buffStop d)%nat then
    let '(count, bs, o) := OS_Read (ipcFd (req y)) (bufflen d) (os y) in
    let y := set_os o y in
    if count <=? 0 then
      Returns (SetError (if count =? 0 then FCGX_PROTOCOL_ERROR else os_errno o) y)
    else
      let y := upd_data (set_buff (mem_write (buff d) 0 bs)) y in
      Falls (upd_strm (set_rdNext 0) (upd_data (set_buffStop (Z.to_nat count)) y))
  else Falls y.

(** Delivers the content bytes of the current record, or skips them. *)
Definition fill_content (y : sys) : stage :=
  let d := sdata y in
  if contentLen d >? 0 then
    let count := Z.min (contentLen d) (Z.of_nat (buffStop d) - Z.of_nat (rdNext (strm y))) in
    let y := upd_data (set_contentLen (contentLen d - count)) y in
    let next := (rdNext (strm y) + Z.to_nat count)%nat in
    if negb (skip d) then Returns (upd_strm (fun s => set_wrNext next (set_stop next s)) y)
    else
      let y := upd_strm (set_rdNext next) y in
      if contentLen (sdata y) >? 0 then Continues y
      else Falls (upd_data (set_skip false) y)
  else Falls y.

(** Skips the padding of the current record. *)
Definition fill_padding (y : sys) : stage :=
  let d := sdata y in
  if paddingLen d >? 0 then
    let count := Z.min (paddingLen d) (Z.of_nat (buffStop d) - Z.of_nat (rdNext (strm y))) in
    let y := upd_data (set_paddingLen (paddingLen d - count)) y in
    let y := upd_strm (set_rdNext (rdNext (strm y) + Z.to_nat count)) y in
    if paddingLen (sdata y) >? 0 then Continues y else Falls y
  else Falls y.

(** In a recursive call from ProcessHeader the end of the record is delivered as
    the end of the stream. *)
Definition fill_eor (y : sys) : stage :=
  if eorStop (sdata y) then
    Returns (upd_strm (set_isClosed true) (upd_strm (set_stop (rdNext (strm y))) y))
  else Falls y.

(** Collects header bytes; [hdr] are those collected before. *)
Definition fill_header (hdr : list Z) (y : sys) : list Z * sys :=
  let count := Nat.min (8 - length hdr) (buffStop (sdata y) - rdNext (strm y)) in
  (hdr ++ slice (buff (sdata y)) (rdNext (strm y)) (rdNext (strm y) + count),
   upd_strm (set_rdNext (rdNext (strm y) + count)) y).

(** What follows the interpretation of a header. *)
Definition fill_dispatch (status : Z) (y : sys) : outcome stage :=
  let y := upd_data (set_eorStop false) y in
  let y := upd_strm (set_isClosed false) y in
  if status =? STREAM_RECORD then
    if contentLen (sdata y) =? 0 then
      Ret (Returns (upd_strm (set_isClosed true)
        (upd_strm (fun s => set_wrNext (rdNext s) (set_stop (rdNext s) s)) y)))
    else Ret (Continues y)
  else if status =? SKIP then Ret (Continues (upd_data (set_skip true) y))
  else if status =? BEGIN_RECORD then Ret (Returns y)
  else if status =? MGMT_RECORD then Ret (Continues y)
  else ASSERT status <? 0 in Ret (Returns (SetError status y)).

(** [FillBuffProc]; [hdr] is the part of the header already collected. *)
Fixpoint FillBuff_loop (fuel : nat) (hdr : list Z) (y : sys) : outcome sys :=
  match fuel with
  | O => NoFuel
  | S fuel =>
      let then_ st (k : sys -> outcome sys) :=
        match st with
        | Returns y => Ret y
        | Continues y => FillBuff_loop fuel hdr y
        | Falls y => k y
        end in
      then_ (fill_read y) (fun y =>
      then_ (fill_content y) (fun y =>
      then_ (fill_padding y) (fun y =>
      then_ (fill_eor y) (fun y =>
      let '(hdr, y) := fill_header hdr y in
      if (length hdr <? 8)%nat then FillBuff_loop fuel hdr y
      else
        let y := upd_data (set_eorStop true) y in
        let y := upd_strm (set_stop (rdNext (strm y))) y in
        let! (status, y) :=
          ProcessHeader (FillBuff_loop fuel []) fuel (header_of_bytes hdr) y in
        let! st := fill_dispatch status y in
        match st with
        | Returns y => Ret y
        | Continues y => FillBuff_loop fuel [] y
        | Falls y => Ret y
        end))))
  end.

Definition FillBuffProc (fuel : nat) (y : sys) : outcome sys := FillBuff_loop fuel [] y.
End Fill.
