(* ===== verification/FcgiSource.v ===== *)
(** Input operations against an interface.  A [Source] says what the buffer and the
    [fillBuffProc] of a stream promise to the operations that read from it; the
    results of FCGX_GetChar, FCGX_GetStr, FCGX_GetLine, FCGX_UnGetChar and
    ReadParams follow from it alone.  FcgiInput.v gives two implementations: the
    body of a single record, and a stream made of records. *)
From Stdlib Require Import ZArith Lia Bool.
From stdpp Require Import base list numbers.
From S2P Require Import Prelude FcgiProto OsUnix FcgiStream FcgiParams FcgiReader.

(** The states in which the character [c] has been pushed back. *)
Definition unget_state (r : nat) (c : Z) (y : sys) : sys :=
  upd_data (fun d => set_buff (mem_write (buff d) r [u8 c]) d) (upd_strm (set_rdNext r) y).

(** [reads d y]: stream [y] is an open input stream that will deliver the bytes [d]
    and then end; [ended y]: it has ended. *)
Class Source (fillBuffProc : sys -> outcome sys)
    (reads : list Z -> sys -> Prop) (ended : sys -> Prop) : Prop := {
  source_open : forall d y, reads d y ->
    isClosed (strm y) = false /\ isReader (strm y) = true /\
    (rdNext (strm y) <= stop (strm y) <= length (buff (sdata y)))%nat /\
    exists rest, d = slice (buff (sdata y)) (rdNext (strm y)) (stop (strm y)) ++ rest;
  source_take : forall d y n, reads d y ->
    (n <= stop (strm y) - rdNext (strm y))%nat ->
    reads (drop n d) (upd_strm (set_rdNext (rdNext (strm y) + n)) y);
  source_mark : forall d y u, reads d y -> reads d (upd_strm (set_stopUnget u) y);
  source_back : forall d y r c, reads d y -> rdNext (strm y) = S r ->
    reads (u8 c :: d) (unget_state r c y);
  source_fill : forall d y, reads d y -> rdNext (strm y) = stop (strm y) ->
    exists y', fillBuffProc y = Ret y' /\
      ((d = [] /\ ended y') \/
       (d <> [] /\ reads d y' /\ (rdNext (strm y') < stop (strm y'))%nat));
  source_ended : forall y, ended y -> isClosed (strm y) = true
}.

(** ** Name-value pairs *)

(** The encoding of a length: one byte below 128, otherwise four bytes with the
    high bit of the first one set. *)
Definition encode_length (n : Z) : list Z :=
  if n <? 128 then [n]
  else [128 + n / 2 ^ 24; n / 2 ^ 16 mod 256; n / 2 ^ 8 mod 256; n mod 256].

Definition encode_pair (nv : list Z * list Z) : list Z :=
  encode_length (Z.of_nat (length nv.1)) ++ encode_length (Z.of_nat (length nv.2))
  ++ nv.1 ++ nv.2.

Definition encode_pairs (ps : list (list Z * list Z)) : list Z := concat (map encode_pair ps).

(** The string [ReadParams] stores for a pair. *)
Definition entry (nv : list Z * list Z) : list Z := nv.1 ++ [61] ++ nv.2 ++ [0].

(** The value of the first pair of this name. *)
Fixpoint assoc (name : list Z) (ps : list (list Z * list Z)) : option (list Z) :=
  match ps with
  | [] => None
  | (n, v) :: ps => if decide (n = name) then Some v else assoc name ps
  end.

(** A name that FCGX_GetParam can find. *)
Definition plain_name (name : list Z) : Prop := Forall (fun c => c <> 0 /\ c <> 61) name.

(** The sum of the lengths stays clear of the overflow of [nameLen + valueLen + 2]. *)
Definition pair_ok (nv : list Z * list Z) : Prop :=
  Z.of_nat (length nv.1) + Z.of_nat (length nv.2) < 2 ^ 31 - 2 /\
  Forall is_byte nv.1 /\ Forall is_byte nv.2.

(** The line at the front of [d], of at most [k] characters. *)
Fixpoint line (k : nat) (d : list Z) : list Z :=
  match k, d with
  | S k, c :: d => c :: (if c =? 10 then [] else line k d)
  | _, _ => []
  end.

(** A client's use of an input stream, and its specification on the bytes [d] that
    are left: the result and the bytes left after it. [RLine n] is FCGX_GetLine with
    a buffer of [n] bytes; [RUnget x] reads a character and pushes [x] back. *)
Inductive rop :=
| RStr (n : nat)
| RChar
| RLine (n : nat)
| RUnget (x : Z).

Inductive rres :=
| Bytes (bs : list Z)
| Char (c : Z)
| Line (l : option (list Z)).

Definition run_rop (fillBuffProc : sys -> outcome sys) (fuel : nat) (r : rop) (y : sys)
    : outcome (rres * sys) :=
  match r with
  | RStr n => let! (bs, y) := FCGX_GetStr fillBuffProc fuel (Z.of_nat n) y in Ret (Bytes bs, y)
  | RChar => let! (c, y) := FCGX_GetChar fillBuffProc y in Ret (Char c, y)
  | RLine n => let! (l, y) := FCGX_GetLine fillBuffProc (Z.of_nat n) y in Ret (Line l, y)
  | RUnget x =>
      let! (c, y) := FCGX_GetChar fillBuffProc y in
      if c =? EOF then Ret (Char c, y)
      else let! (c, y) := FCGX_UnGetChar x y in Ret (Char c, y)
  end.

Fixpoint run_rops (fillBuffProc : sys -> outcome sys) (fuel : nat) (rs : list rop) (y : sys)
    : outcome (list rres * sys) :=
  match rs with
  | [] => Ret ([], y)
  | r :: rs =>
      let! (x, y) := run_rop fillBuffProc fuel r y in
      let! (xs, y) := run_rops fillBuffProc fuel rs y in
      Ret (x :: xs, y)
  end.

Definition spec_rop (r : rop) (d : list Z) : rres * list Z :=
  match r with
  | RStr n => (Bytes (take n d), drop n d)
  | RChar => match d with [] => (Char EOF, []) | c :: d => (Char c, d) end
  | RLine n =>
      (Line (match n - 1, d with S _, [] => None | k, _ => Some (line k d) end)%nat,
       drop (length (line (n - 1) d)) d)
  | RUnget x =>
      match d with
      | [] => (Char EOF, [])
      | c :: d => (Char x, if x =? EOF then d else u8 x :: d)
      end
  end.

Fixpoint spec_rops (rs : list rop) (d : list Z) : list rres * list Z :=
  match rs with
  | [] => ([], d)
  | r :: rs =>
      let '(x, d) := spec_rop r d in
      let '(xs, d) := spec_rops rs d in (x :: xs, d)
  end.

(** ** Results of the operations *)

Lemma plain_name_split a b v w :
  plain_name a -> plain_name b -> a ++ 61 :: v = b ++ 61 :: w -> a = b /\ v = w.
Proof.
  intros Ha. revert b. induction Ha as [|c a [_ Hc] Ha IH]; intros b Hb H;
    destruct Hb as [|d b [_ Hd] Hb]; cbn in H.
  - by injection H.
  - by injection H.
  - by injection H.
  - injection H as -> H. by destruct (IH b Hb H) as [-> ->].
Qed.

Lemma GetParam_entries name ps :
  plain_name name -> Forall (fun nv => plain_name nv.1) ps ->
  GetParam_loop name (map entry ps) = (fun v => v ++ [0]) <$> assoc name ps.
Proof.
  intros Hn. assert (Forall (fun c => c <> 0) name) as Hn0
    by (eapply List.Forall_impl; [|exact Hn]; cbn; tauto).
  induction 1 as [|[n v] ps Hnv _ IH]; [done|]. cbn [map GetParam_loop assoc].
  destruct (param_value name (entry (n, v))) as [w|] eqn:E.
  - apply param_value_spec in E; [|done]. unfold entry in E. cbn [fst snd app] in *.
    destruct (plain_name_split n name (v ++ [0]) w Hnv Hn E) as [-> <-].
    by rewrite decide_True.
  - rewrite decide_False; [done|]. intros ->.
    assert (param_value name (entry (name, v)) = Some (v ++ [0])) as E'
      by (by apply param_value_spec). congruence.
Qed.

Section Source.
Context {fillBuffProc : sys -> outcome sys}.
Context {reads : list Z -> sys -> Prop} {ended : sys -> Prop}.
Context `{SO : !Source fillBuffProc reads ended}.

Lemma GetStr_ended fuel n y : ended y -> FCGX_GetStr fillBuffProc fuel n y = Ret ([], y).
Proof. intros Hy. unfold FCGX_GetStr. by rewrite (source_ended y Hy). Qed.

Lemma GetChar_ended y : ended y -> FCGX_GetChar fillBuffProc y = Ret (EOF, y).
Proof. intros Hy. unfold FCGX_GetChar. by rewrite (source_ended y Hy). Qed.

(** What a call for [n] bytes returns on a stream that will deliver [d]. *)
Definition got_str (n : nat) (d : list Z) (r : outcome (list Z * sys)) : Prop :=
  exists y', r = Ret (take n d, y') /\
    (if decide (n <= length d)%nat then reads (drop n d) y' else ended y').

Lemma GetStr_loop_ok k n got d y :
  reads d y -> (length got < n)%nat ->
  (length d + (if decide (rdNext (strm y) < stop (strm y))%nat then 0 else 1) < k)%nat ->
  exists y', GetStr_loop fillBuffProc k (Z.of_nat n) got y = Ret (got ++ take (n - length got) d, y') /\
    (if decide (n - length got <= length d)%nat then reads (drop (n - length got) d) y' else ended y').
Proof.
  revert got d y. induction k as [|k IH]; intros got d y Hy Hn Hk; [lia|].
  destruct (source_open d y Hy) as (Hcl & Hrd & Hle & rest & Hd).
  assert (Hfill : forall got d y, reads d y -> rdNext (strm y) = stop (strm y) ->
    (length got < n)%nat -> (length d < k)%nat ->
    exists y', (if isClosed (strm y) || negb (isReader (strm y)) then Ret (got, y)
      else let! y := fillBuffProc y in
           if isClosed (strm y) then Ret (got, y)
           else GetStr_loop fillBuffProc k (Z.of_nat n) got
                  (upd_strm (set_stopUnget (Some (rdNext (strm y)))) y))
      = Ret (got ++ take (n - length got) d, y') /\
    (if decide (n - length got <= length d)%nat then reads (drop (n - length got) d) y' else ended y')).
  { clear -SO IH. intros got d y Hy Heq Hn Hk.
    destruct (source_open d y Hy) as (-> & -> & _); cbn [orb negb].
    destruct (source_fill d y Hy Heq) as (y1 & -> & [(-> & He)|(Hne & Hy1 & Hlt)]); cbn [obind].
    - rewrite (source_ended y1 He). exists y1. rewrite take_nil, app_nil_r. split; [done|].
      rewrite decide_False by (cbn; lia). done.
    - destruct (source_open d y1 Hy1) as (-> & _).
      apply IH; [by apply source_mark|done|]. cbn. rewrite decide_True by done. lia. }
  cbn [GetStr_loop].
  destruct (Nat.eqb_spec (rdNext (strm y)) (stop (strm y))) as [Heq|Hneq]; cbn [negb].
  { apply Hfill; [done..|]. rewrite decide_False in Hk by lia. lia. }
  set (s := slice _ _ _) in Hd.
  assert (length s = (stop (strm y) - rdNext (strm y))%nat) as Hs
    by (unfold s; rewrite length_slice by lia; done).
  set (m := Nat.min (n - length got) (stop (strm y) - rdNext (strm y))).
  assert (Z.to_nat (Z.min (Z.of_nat n - Z.of_nat (length got))
    (Z.of_nat (stop (strm y)) - Z.of_nat (rdNext (strm y)))) = m) as -> by lia.
  assert (slice (buff (sdata y)) (rdNext (strm y)) (rdNext (strm y) + m) = take m d) as ->.
  { rewrite Hd, take_app_le by lia. unfold s. by rewrite slice_take by lia. }
  assert (length (take m d) = m) as Hm
    by (rewrite length_take, Hd, length_app; lia).
  pose proof (source_take d y m Hy ltac:(lia)) as Hy1.
  rewrite length_app, Hm.
  destruct (Z.eqb_spec (Z.of_nat (length got + m)) (Z.of_nat n)).
  - replace (n - length got)%nat with m by lia. eexists. split; [done|].
    rewrite decide_True; [done|]. rewrite Hd, length_app. lia.
  - assert (m = (stop (strm y) - rdNext (strm y))%nat) as Hms by lia.
    assert (length d >= m)%nat by (rewrite Hd, length_app; lia).
    destruct (Hfill (got ++ take m d) (drop m d)
      (upd_strm (set_rdNext (rdNext (strm y) + m)) y) Hy1) as (y2 & -> & Hy2).
    + cbn. lia.
    + rewrite length_app, Hm. lia.
    + rewrite length_drop. rewrite decide_True in Hk by lia. lia.
    + rewrite length_app, Hm, length_drop in *.
      assert ((got ++ take m d) ++ take (n - (length got + m)) (drop m d)
        = got ++ take (n - length got) d) as Ht.
      { rewrite <-app_assoc. f_equal. rewrite take_take_drop. f_equal. lia. }
      rewrite Ht. eexists. split; [done|]. rewrite drop_drop in Hy2.
      replace (m + (n - (length got + m)))%nat with (n - length got)%nat in Hy2 by lia.
      repeat case_decide; try lia; done.
Qed.

Lemma GetStr_source fuel n d y :
  reads d y -> (length d + 1 < fuel)%nat ->
  got_str n d (FCGX_GetStr fillBuffProc fuel (Z.of_nat n) y).
Proof.
  intros Hy Hf. unfold got_str, FCGX_GetStr.
  destruct (source_open d y Hy) as (-> & -> & Hle & rest & Hd); cbn [orb negb].
  destruct (Z.leb_spec (Z.of_nat n) 0) as [Hn|Hn].
  { replace n with 0%nat by lia. exists y. rewrite decide_True by lia. done. }
  destruct (Z.leb_spec (Z.of_nat n)
    (Z.of_nat (stop (strm y)) - Z.of_nat (rdNext (strm y)))) as [Hle'|Hgt].
  - rewrite Nat2Z.id.
    assert (slice (buff (sdata y)) (rdNext (strm y)) (rdNext (strm y) + n) = take n d) as ->.
    { rewrite Hd, take_app_le by (rewrite length_slice; lia). by rewrite slice_take by lia. }
    eexists. split; [done|]. rewrite decide_True.
    + apply source_take; [done|lia].
    + rewrite Hd, length_app, length_slice by lia. lia.
  - destruct (GetStr_loop_ok fuel n [] d y Hy) as (y' & -> & Hy'); [cbn; lia|case_decide; lia|].
    cbn [length app] in *. rewrite Nat.sub_0_r in *. by exists y'.
Qed.

Lemma read_byte_source c d y :
  reads (c :: d) y -> (rdNext (strm y) < stop (strm y))%nat ->
  exists y', read_byte y = Ret (c, y') /\ reads d y' /\
    rdNext (strm y') = S (rdNext (strm y)) /\ stopUnget (strm y') = stopUnget (strm y).
Proof.
  intros Hy Hlt. destruct (source_open _ y Hy) as (_ & _ & Hle & rest & Hd).
  destruct (slice_cons (buff (sdata y)) (rdNext (strm y)) (stop (strm y))) as (x & Hx & Hs); [lia|].
  rewrite Hs in Hd. cbn [app] in Hd. injection Hd as -> Hd. unfold read_byte. rewrite Hx.
  eexists. split; [done|]. split; [|done].
  pose proof (source_take _ y 1 Hy ltac:(lia)) as H1. rewrite Nat.add_comm in H1. exact H1.
Qed.

(** [stopUnget] is not beyond the next byte of the buffer to be read. *)
Definition unget_ok (y : sys) : Prop :=
  rdNext (strm y) = stop (strm y) \/
  exists u, stopUnget (strm y) = Some u /\ (u <= rdNext (strm y))%nat.

Lemma GetChar_source_unget d y :
  reads d y ->
  match d with
  | c :: d' => exists y', FCGX_GetChar fillBuffProc y = Ret (c, y') /\ reads d' y' /\
      (unget_ok y -> exists r u, rdNext (strm y') = S r /\ stopUnget (strm y') = Some u /\ (u <= r)%nat)
  | [] => exists y', FCGX_GetChar fillBuffProc y = Ret (EOF, y') /\ ended y'
  end.
Proof.
  intros Hy. unfold FCGX_GetChar.
  destruct (source_open _ y Hy) as (-> & -> & Hle & rest & Hd); cbn [orb negb].
  destruct (Nat.eqb_spec (rdNext (strm y)) (stop (strm y))) as [Heq|Hne]; cbn [negb].
  - destruct (source_fill _ y Hy Heq) as (y1 & -> & [(-> & He)|(Hne & Hy1 & Hlt)]); cbn [obind].
    + rewrite (source_ended y1 He). eauto.
    + destruct (source_open _ y1 Hy1) as (-> & _).
      cbn [upd_strm strm set_strm rdNext set_stopUnget stop].
      destruct (Nat.eqb_spec (rdNext (strm y1)) (stop (strm y1))); [lia|]; cbn [negb].
      destruct d as [|c d]; [done|].
      apply (source_mark _ _ (Some (rdNext (strm y1)))) in Hy1.
      destruct (read_byte_source c d _ Hy1) as (y2 & -> & Hy2 & Hr & Hu); [cbn; lia|].
      exists y2. split_and!; [done..|]. intros _. cbn in Hr, Hu. eauto.
  - destruct d as [|c d].
    + apply (f_equal length) in Hd. rewrite length_app, length_slice in Hd by lia. cbn in Hd. lia.
    + destruct (read_byte_source c d y Hy) as (y2 & -> & Hy2 & Hr & Hu); [lia|].
      exists y2. split_and!; [done..|]. intros [Hs|(u & Hs & Hle')]; [done|].
      exists (rdNext (strm y)), u. by rewrite Hu.
Qed.

Lemma GetChar_source d y :
  reads d y ->
  match d with
  | c :: d' => exists y', FCGX_GetChar fillBuffProc y = Ret (c, y') /\ reads d' y'
  | [] => exists y', FCGX_GetChar fillBuffProc y = Ret (EOF, y') /\ ended y'
  end.
Proof.
  intros Hy. pose proof (GetChar_source_unget d y Hy) as H. destruct d as [|c d]; [done|].
  destruct H as (y' & H1 & H2 & _). by exists y'.
Qed.

(** A character read can be pushed back, as any character but EOF. *)
Lemma UnGetChar_source d y x :
  reads d y -> (exists r u, rdNext (strm y) = S r /\ stopUnget (strm y) = Some u /\ (u <= r)%nat) ->
  x <> EOF ->
  exists y', FCGX_UnGetChar x y = Ret (x, y') /\ reads (u8 x :: d) y' /\ unget_ok y'.
Proof.
  intros Hy (r & u & Hr & Hs & Hle) Hx. exists (unget_state r x y). split_and!.
  - unfold FCGX_UnGetChar. destruct (Z.eqb_spec x EOF); [done|].
    destruct (source_open _ _ Hy) as (-> & -> & _). rewrite Hr, Hs.
    rewrite bool_decide_false by (intros [= ]; lia). done.
  - by apply source_back.
  - right. exists u. by split.
Qed.

(** The stream will deliver [d], and may have ended when [d] is empty. *)
Definition feeds (d : list Z) (y : sys) : Prop := reads d y \/ d = [] /\ ended y.

Lemma feeds_GetStr fuel n d y : feeds d y -> (length d + 1 < fuel)%nat ->
  exists y', FCGX_GetStr fillBuffProc fuel (Z.of_nat n) y = Ret (take n d, y') /\ feeds (drop n d) y'.
Proof.
  intros [Hy|[-> Hy]] Hf.
  - destruct (GetStr_source fuel n d y Hy Hf) as (y' & E & H). exists y'. split; [done|].
    case_decide; [by left|right]. split; [apply drop_ge; lia|done].
  - exists y. rewrite take_nil, drop_nil. split; [by apply GetStr_ended|by right].
Qed.

Lemma feeds_GetChar d y : feeds d y ->
  exists y', FCGX_GetChar fillBuffProc y = Ret (hd EOF d, y') /\ feeds (tl d) y'.
Proof.
  intros [Hy|[-> Hy]].
  - pose proof (GetChar_source d y Hy) as H. destruct d; destruct H as (y' & E & H'); exists y'; (split; [exact E|]);
      [by right|by left].
  - exists y. split; [by apply GetChar_ended|by right].
Qed.

(** Every operation leaves an open stream in such a state. *)
Definition unget_inv (y : sys) : Prop := isClosed (strm y) = true \/ unget_ok y.

Lemma unget_advance n y :
  unget_ok y -> (n <= stop (strm y) - rdNext (strm y))%nat ->
  unget_ok (upd_strm (set_rdNext (rdNext (strm y) + n)) y).
Proof.
  intros [H|(u & H & Hu)] Hn; [left; cbn; lia|right]. exists u. cbn. split; [done|lia].
Qed.

Lemma GetStr_loop_unget k n got y r y' :
  GetStr_loop fillBuffProc k n got y = Ret (r, y') -> unget_ok y -> unget_inv y'.
Proof.
  revert got y. induction k as [|k IH]; intros got y H Hu; [done|]. cbn [GetStr_loop] in H.
  assert (Hfill : forall got y, unget_ok y ->
    (if isClosed (strm y) || negb (isReader (strm y)) then Ret (got, y)
     else let! y := fillBuffProc y in
          if isClosed (strm y) then Ret (got, y)
          else GetStr_loop fillBuffProc k n got
                 (upd_strm (set_stopUnget (Some (rdNext (strm y)))) y)) = Ret (r, y') ->
    unget_inv y').
  { clear -IH. intros got y Hu H. destruct (_ || _); [injection H as _ <-; by right|].
    destruct (fillBuffProc y) as [y1| |]; cbn [obind] in H; [|done..].
    destruct (isClosed (strm y1)) eqn:Hc; [injection H as _ <-; by left|].
    apply (IH _ _ H). right. by eexists. }
  destruct (Nat.eqb_spec (rdNext (strm y)) (stop (strm y))); cbn [negb] in H; [by eapply Hfill|].
  set (m := Z.to_nat _) in H.
  assert (unget_ok (upd_strm (set_rdNext (rdNext (strm y) + m)) y)) as Hu'.
  { destruct (decide (rdNext (strm y) <= stop (strm y))%nat).
    - apply unget_advance; [done|]. lia.
    - assert (m = 0%nat) as -> by lia. rewrite Nat.add_0_r. destruct Hu as [?|(u & ? & ?)]; [lia|].
      right. by exists u. }
  destruct (_ =? n); [injection H as _ <-; by right|]. by eapply Hfill.
Qed.

Lemma GetStr_unget fuel n y r y' :
  FCGX_GetStr fillBuffProc fuel n y = Ret (r, y') -> unget_ok y -> unget_inv y'.
Proof.
  unfold FCGX_GetStr. intros H Hu. destruct (_ || _); [injection H as _ <-; by right|].
  destruct (Z.leb_spec n (Z.of_nat (stop (strm y)) - Z.of_nat (rdNext (strm y)))).
  - injection H as _ <-. right. destruct (decide (0 <= n)).
    + apply unget_advance; [done|lia].
    + replace (Z.to_nat n) with 0%nat by lia. rewrite Nat.add_0_r.
      destruct Hu as [Hu|(u & Hu & ?)]; [by left|]. right. by exists u.
  - by eapply GetStr_loop_unget.
Qed.

Lemma GetLine_loop_ok k got d y :
  reads d y -> unget_ok y -> Forall is_byte d ->
  exists y', GetLine_loop fillBuffProc k got y
      = Ret (if decide (k <> 0%nat /\ got = [] /\ d = []) then None else Some (got ++ line k d), y') /\
    (reads (drop (length (line k d)) d) y' /\ unget_ok y' \/ drop (length (line k d)) d = [] /\ ended y').
Proof.
  revert got d y. induction k as [|k IH]; intros got d y Hy Hu Hb; cbn [GetLine_loop line].
  { exists y. rewrite decide_False by (intros [? _]; done). rewrite app_nil_r. split; [done|]. by left. }
  pose proof (GetChar_source_unget d y Hy) as Hc. destruct d as [|c d].
  - destruct Hc as (y1 & -> & Hy1); cbn [obind]. rewrite Z.eqb_refl. exists y1.
    split; [|right; split; [by rewrite drop_nil|done]]. destruct got; [done|]. rewrite decide_False by (intros (_ & [=] & _)).
    by rewrite app_nil_r.
  - destruct Hc as (y1 & -> & Hy1 & (r & u & Hr & Hs & Hle)%(fun H => H Hu)); cbn [obind].
    assert (unget_ok y1) as Hu1 by (right; exists u; split; [done|lia]). inversion Hb as [|? ? Hc Hb']; subst.
    rewrite decide_False by (intros (_ & _ & [=])).
    assert ((c =? EOF) = false) as -> by (apply Z.eqb_neq; unfold is_byte, EOF in *; lia).
    destruct (c =? 10).
    + exists y1. split; [done|]. left. done.
    + destruct (IH (got ++ [c]) d y1 Hy1 Hu1 Hb') as (y2 & -> & Hy2). exists y2.
      rewrite decide_False by (intros (_ & Hg & _); by destruct got).
      rewrite <-app_assoc. split; [done|]. exact Hy2.
Qed.

(** The stream will deliver [d]; it may have ended when [d] is empty. *)
Definition live (d : list Z) (y : sys) : Prop :=
  reads d y /\ unget_ok y \/ d = [] /\ ended y.

Lemma run_rop_ok fuel r d y :
  live d y -> Forall is_byte d -> (length d + 1 < fuel)%nat ->
  exists y', run_rop fillBuffProc fuel r y = Ret ((spec_rop r d).1, y') /\ live (spec_rop r d).2 y'.
Proof.
  intros [[Hy Hu]|[-> Hy]] Hb Hf; destruct r as [n| |n|x]; cbn [run_rop spec_rop fst snd].
  - destruct (GetStr_source fuel n d y Hy Hf) as (y' & Hr & H). rewrite Hr. exists y'.
    split; [done|]. case_decide; [left|right; split; [apply drop_ge; lia|done]].
    split; [done|]. destruct (GetStr_unget _ _ _ _ _ Hr Hu) as [Hc|]; [|done].
    destruct (source_open _ _ H) as [Hc' _]. congruence.
  - pose proof (GetChar_source_unget d y Hy) as H. destruct d.
    + destruct H as (y' & -> & H). exists y'. split; [done|by right].
    + destruct H as (y' & -> & H & (r & u & Hr & Hs & Hle)%(fun H => H Hu)). exists y'.
      split; [done|]. left. split; [done|]. right. exists u. split; [done|lia].
  - unfold FCGX_GetLine. replace (Z.to_nat (Z.of_nat n - 1)) with (n - 1)%nat by lia.
    destruct (GetLine_loop_ok (n - 1) [] d y Hy Hu Hb) as (y' & -> & H). exists y'.
    split; [|done]. cbn [obind]. do 3 f_equal. destruct (n - 1)%nat as [|k].
    + by rewrite decide_False by (intros [? _]; done).
    + destruct d; [by rewrite decide_True|]. by rewrite decide_False by (intros (_ & _ & [=])).
  - pose proof (GetChar_source_unget d y Hy) as H. destruct d as [|c d].
    + destruct H as (y' & -> & H). exists y'. split; [done|by right].
    + destruct H as (y1 & -> & H & Hun%(fun H => H Hu)). cbn [obind].
      inversion Hb; subst. assert ((c =? EOF) = false) as ->
        by (apply Z.eqb_neq; unfold is_byte, EOF in *; lia).
      destruct (Z.eqb_spec x EOF) as [->|Hx].
      * exists y1. split; [done|]. left. split; [done|].
        destruct Hun as (r & u & Hr & Hs & Hle). right. exists u. split; [done|lia].
      * destruct (UnGetChar_source d y1 x H Hun Hx) as (y2 & -> & Hy2 & Hu2).
        exists y2. split; [done|]. by left.
  - rewrite GetStr_ended by done. exists y. rewrite take_nil, drop_nil. split; [done|]. by right.
  - rewrite GetChar_ended by done. exists y. split; [done|]. by right.
  - exists y. rewrite drop_nil. split; [|by right].
    unfold FCGX_GetLine. replace (Z.to_nat (Z.of_nat n - 1)) with (n - 1)%nat by lia.
    destruct (n - 1)%nat as [|k]; [done|]. cbn [GetLine_loop]. by rewrite GetChar_ended.
  - rewrite GetChar_ended by done. exists y. split; [done|]. by right.
Qed.

Lemma spec_rop_bytes r d :
  Forall is_byte d -> Forall is_byte (spec_rop r d).2 /\ (length (spec_rop r d).2 <= length d)%nat.
Proof.
  intros Hd. destruct r as [n| |n|x]; cbn [spec_rop snd].
  - split; [by apply Forall_drop|rewrite length_drop; lia].
  - destruct Hd; [done|]. split; [done|cbn; lia].
  - split; [by apply Forall_drop|rewrite length_drop; lia].
  - destruct Hd; [done|]. cbn [snd]. destruct (x =? EOF); cbn [length]; (split; [|lia]); [done|].
    constructor; [apply u8_bound|done].
Qed.

Lemma run_rops_source fuel rs d y :
  live d y -> Forall is_byte d -> (length d + 1 < fuel)%nat ->
  exists y', run_rops fillBuffProc fuel rs y = Ret ((spec_rops rs d).1, y') /\ live (spec_rops rs d).2 y'.
Proof.
  revert d y. induction rs as [|r rs IH]; intros d y Hy Hb Hf; cbn [run_rops spec_rops].
  { by exists y. }
  destruct (run_rop_ok fuel r d y Hy Hb Hf) as (y1 & -> & Hy1). cbn [obind].
  destruct (spec_rop_bytes r d Hb) as [Hb1 Hl1]. destruct (spec_rop r d) as [x d1]. cbn [fst snd] in *.
  destruct (IH d1 y1 Hy1 Hb1) as (y2 & -> & Hy2); [lia|].
  exists y2. by destruct (spec_rops rs d1).
Qed.

(** *** ReadParams *)

Lemma take_app_got n d1 d2 y' :
  n = length d1 ->
  (if decide (n <= length (d1 ++ d2))%nat then reads (drop n (d1 ++ d2)) y' else ended y') ->
  take n (d1 ++ d2) = d1 /\ reads d2 y'.
Proof.
  intros -> H. rewrite decide_True in H by (rewrite length_app; lia).
  rewrite drop_app_length in H. by rewrite take_app_length.
Qed.

Lemma GetStr_exact fuel d1 d2 n y :
  reads (d1 ++ d2) y -> (length (d1 ++ d2) + 1 < fuel)%nat -> n = Z.of_nat (length d1) ->
  exists y', FCGX_GetStr fillBuffProc fuel n y = Ret (d1, y') /\ reads d2 y'.
Proof.
  intros Hy Hf ->. destruct (GetStr_source fuel (length d1) _ y Hy Hf) as (y' & -> & H').
  apply take_app_got in H' as [-> H']; [|done]. by exists y'.
Qed.

Lemma encode_length_head n :
  0 <= n < 2 ^ 31 -> exists b t, encode_length n = b :: t /\ is_byte b.
Proof.
  intros Hn. unfold encode_length, is_byte. destruct (Z.ltb_spec n 128).
  - eexists _, _. split; [done|lia].
  - eexists _, _. split; [done|].
    pose proof (Z.div_pos n (2 ^ 24)). pose proof (Z.div_lt_upper_bound n (2 ^ 24) 128). lia.
Qed.

Lemma div_mod_256 n a : 0 < a -> n / a = n / (a * 256) * 256 + n / a mod 256.
Proof.
  intros. rewrite <-Z.div_div by lia. pose proof (Z.div_mod (n / a) 256). lia.
Qed.

Lemma read_length_source fuel n b t d y :
  0 <= n < 2 ^ 31 -> encode_length n = b :: t -> reads (t ++ d) y ->
  (length (t ++ d) + 1 < fuel)%nat ->
  exists y', read_length fillBuffProc fuel b y = Ret (Some n, y') /\ reads d y'.
Proof.
  intros Hn He Hy Hf. unfold encode_length in He. unfold read_length.
  destruct (Z.ltb_spec n 128).
  - injection He as <- <-.
    assert (Z.land n 128 = 0) as ->.
    { apply Z.bits_inj_0. intros i. rewrite Z.land_spec. change 128 with (2 ^ 7).
      destruct (decide (i = 7)) as [->|Hi].
      - assert (Z.testbit n 7 = false) as ->; [|done].
        destruct (decide (n = 0)) as [->|]; [by rewrite Z.bits_0|].
        apply Z.bits_above_log2; [lia|]. apply Z.log2_lt_pow2; lia.
      - rewrite Z.pow2_bits_false by lia. by rewrite andb_false_r. }
    cbn [Z.eqb negb]. by exists y.
  - injection He as <- <-. set (q := n / 2 ^ 24).
    assert (0 <= q < 128) as Hq.
    { unfold q. split; [apply Z.div_pos; lia|apply Z.div_lt_upper_bound; lia]. }
    assert (Z.land (128 + q) 128 = 128) as ->.
    { rewrite land_128 by (unfold is_byte; lia). by destruct (Z.ltb_spec (128 + q) 128); [lia|]. }
    cbn [Z.eqb negb].
    destruct (GetStr_exact fuel [n / 2 ^ 16 mod 256; n / 2 ^ 8 mod 256; n mod 256] d 3 y Hy Hf eq_refl)
      as (y' & -> & Hy'); cbn [obind].
    exists y'. split; [|done]. cbn [length Z.of_nat Z.eqb negb nth].
    change (Z.of_nat 3 =? 3) with true. cbn [negb]. do 3 f_equal.
    rewrite land_127, shiftl_24, shiftl_16, shiftl_8.
    replace ((128 + q) mod 128) with q by (rewrite <-Z.add_mod_idemp_l, Z.add_0_l, Z.mod_small by lia; lia).
    pose proof (div_mod_256 n 1). pose proof (div_mod_256 n (2 ^ 8)).
    pose proof (div_mod_256 n (2 ^ 16)). rewrite Z.div_1_r in *. subst q.
    change (2 ^ 8 * 256) with (2 ^ 16) in *. change (2 ^ 16 * 256) with (2 ^ 24) in *.
    change (1 * 256) with (2 ^ 8) in *. lia.
Qed.

Lemma Malloc_ok n : 0 <= n < 2 ^ 31 -> Malloc n = Ret n.
Proof.
  intros Hn. unfold Malloc. rewrite s32_small by lia. unfold u64. rewrite Z.mod_small by lia.
  by destruct (Z.ltb_spec n (2 ^ 63)); [|lia].
Qed.

(** The pair is read whole and stored as [name=value]. *)
Lemma read_pair_source fuel nv b t d y :
  pair_ok nv -> encode_pair nv = b :: t -> reads (t ++ d) y ->
  (length (t ++ d) + 1 < fuel)%nat ->
  exists y', read_pair fillBuffProc fuel b y = Ret (Some (entry nv), y') /\ reads d y'.
Proof.
  destruct nv as [n v]. intros (Hlen & Hn & Hv) He Hy Hf. cbn [fst snd] in *.
  unfold encode_pair in He; cbn [fst snd] in He.
  set (ln := Z.of_nat (length n)) in *. set (lv := Z.of_nat (length v)) in *.
  destruct (encode_length_head ln) as (bn & tn & En & Hbn); [lia|].
  destruct (encode_length_head lv) as (bv & tv & Ev & Hbv); [lia|].
  rewrite En, Ev in He. cbn [app] in He. injection He as <- <-.
  rewrite <-!app_assoc in Hy, Hf. cbn [app] in Hy, Hf. rewrite <-!app_assoc in Hy, Hf.
  unfold read_pair.
  destruct (read_length_source fuel ln bn tn _ y ltac:(lia) En Hy Hf) as (y1 & -> & Hy1); cbn [obind].
  destruct (GetChar_source _ y1 Hy1) as (y2 & -> & Hy2); cbn [obind].
  assert ((bv =? EOF) = false) as -> by (apply Z.eqb_neq; unfold is_byte, EOF in *; lia).
  rewrite !length_app in Hf. cbn [length] in Hf. rewrite !length_app in Hf.
  destruct (read_length_source fuel lv bv tv _ y2 ltac:(lia) Ev Hy2) as (y3 & -> & Hy3);
    [rewrite !length_app; lia|]; cbn [obind].
  rewrite Malloc_ok by lia; cbn [obind].
  destruct (GetStr_exact fuel n _ ln y3 Hy3) as (y4 & -> & Hy4); [rewrite !length_app; lia|done|].
  cbn [obind]. fold ln. rewrite Z.eqb_refl; cbn [negb].
  destruct (GetStr_exact fuel v _ lv y4 Hy4) as (y5 & -> & Hy5); [rewrite !length_app; lia|done|].
  cbn [obind]. fold lv. rewrite Z.eqb_refl; cbn [negb].
  repeat match goal with |- context [?a <? ?b] => destruct (Z.ltb_spec a b); [lia|] end.
  by exists y5.
Qed.

Lemma encode_pair_head nv : pair_ok nv -> exists b t, encode_pair nv = b :: t /\ is_byte b.
Proof.
  intros (Hlen & _). destruct (encode_length_head (Z.of_nat (length nv.1))) as (b & t & He & Hb); [lia|].
  unfold encode_pair. rewrite He. by eexists b, _.
Qed.

Lemma ReadParams_loop_ok fuel k ps p y :
  Forall pair_ok ps -> reads (encode_pairs ps) y ->
  (length (encode_pairs ps) + 1 < fuel)%nat -> (length ps < k)%nat ->
  params_ok p -> Z.of_nat (length (vec p)) + Z.of_nat (length ps) < 2 ^ 29 ->
  exists p' y', ReadParams_loop fillBuffProc fuel k p y = Ret (0, p', y') /\
    ended y' /\ params_ok p' /\ vec p' = vec p ++ map entry ps.
Proof.
  intros Hps. revert k p y. induction Hps as [|nv ps Hnv Hps IH];
    intros k p y Hy Hf Hk Hp Hroom; (destruct k as [|k]; [cbn in Hk; lia|]); cbn [ReadParams_loop].
  - destruct (GetChar_source _ y Hy) as (y1 & -> & He); cbn [obind]. rewrite Z.eqb_refl.
    exists p, y1. cbn [map]. by rewrite app_nil_r.
  - destruct (encode_pair_head nv Hnv) as (b & t & He & Hb).
    assert (encode_pairs (nv :: ps) = b :: t ++ encode_pairs ps) as Hd
      by (unfold encode_pairs; cbn [map concat]; by rewrite He).
    rewrite Hd in Hy, Hf. cbn [length] in Hf.
    destruct (GetChar_source _ y Hy) as (y1 & -> & Hy1); cbn [obind].
    assert ((b =? EOF) = false) as -> by (apply Z.eqb_neq; unfold is_byte, EOF in *; lia).
    destruct (read_pair_source fuel nv b t _ y1 Hnv He Hy1) as (y2 & -> & Hy2); [lia|]; cbn [obind].
    cbn [length] in *.
    destruct (PutParam_stores (entry nv) p Hp) as (p1 & -> & Hp1 & Hv1); [lia|]; cbn [obind].
    destruct (IH k p1 y2 Hy2) as (p2 & y3 & -> & Hend & Hp2 & Hv2); try done.
    + rewrite length_app in Hf. lia.
    + lia.
    + rewrite Hv1, length_app. cbn [length]. lia.
    + exists p2, y3. split_and!; [done..|]. rewrite Hv2, Hv1, <-app_assoc. done.
Qed.

Lemma length_encode_pairs ps : Forall pair_ok ps -> (length ps <= length (encode_pairs ps))%nat.
Proof.
  induction 1 as [|nv ps Hnv _ IH]; [done|].
  destruct (encode_pair_head nv Hnv) as (b & t & He & _).
  unfold encode_pairs in *; cbn [map concat]. rewrite He, length_app. cbn [length]. lia.
Qed.

Lemma ReadParams_source fuel ps p y :
  Forall pair_ok ps -> reads (encode_pairs ps) y ->
  (length (encode_pairs ps) + 1 < fuel)%nat ->
  params_ok p -> Z.of_nat (length (vec p)) + Z.of_nat (length ps) < 2 ^ 29 ->
  exists p' y', ReadParams fillBuffProc fuel p y = Ret (0, p', y') /\
    ended y' /\ params_ok p' /\ vec p' = vec p ++ map entry ps.
Proof.
  intros. pose proof (length_encode_pairs ps ltac:(done)).
  apply ReadParams_loop_ok; try done. lia.
Qed.
End Source.

(** ** A source of its own: a stream whose bytes are all in its buffer *)

(** [fillBuffProc] of such a stream ends it. *)
Definition end_fill (y : sys) : outcome sys := Ret (upd_strm (set_isClosed true) y).

Definition buffered (d : list Z) (y : sys) : Prop :=
  isClosed (strm y) = false /\ isReader (strm y) = true /\
  (rdNext (strm y) <= stop (strm y) <= length (buff (sdata y)))%nat /\
  d = slice (buff (sdata y)) (rdNext (strm y)) (stop (strm y)).

#[export] Instance buffer_source : Source end_fill buffered (fun y => isClosed (strm y) = true).
Proof.
  constructor.
  - intros d y (H1 & H2 & H3 & H4). split_and!; try done; try lia. exists []. by rewrite app_nil_r.
  - intros d y n (H1 & H2 & H3 & ->) Hn. split_and!; cbn; try done; try lia. by rewrite slice_drop.
  - intros d y u (H1 & H2 & H3 & H4). split_and!; cbn; try done; lia.
  - intros d y r c (H1 & H2 & H3 & ->) Hr. split_and!; cbn; try done;
      rewrite ?length_mem_write by (cbn; lia); try lia.
    rewrite slice_mem_write_from by (cbn [length]; lia). cbn [length app]. by rewrite Hr, Nat.add_1_r.
  - intros d y (H1 & H2 & H3 & ->) Heq. eexists. split; [done|]. left. rewrite Heq, slice_nil. done.
  - done.
Qed.
