(* ===== verification/FcgiWire.v ===== *)
(** The records an input stream meets on the connection, what they contribute to the
    data the stream delivers and how the library answers them: the specification
    that FcgiInput.v proves of [FillBuffProc]. *)
From Stdlib Require Import ZArith Lia Bool String.
From stdpp Require Import base list numbers gmap.
From S2P Require Import Prelude FcgiProto OsUnix FcgiStream FcgiParams FcgiReader FcgiSource.

(** ** Records on the wire *)

Definition record_header (r : record) : list Z :=
  let n := Z.of_nat (length (rec_content r)) in
  [1; rec_type r; rec_id r / 256; rec_id r mod 256; n / 256; n mod 256;
   Z.of_nat (length (rec_padding r)); 0].

(** The answer to a management record of an unknown type. *)
Definition unknown_type_record (type : Z) : record :=
  mkRecord FCGI_UNKNOWN_TYPE FCGI_NULL_REQUEST_ID [type; 0; 0; 0; 0; 0; 0; 0] [].

(** The content of the answer to FCGI_GET_VALUES: the variables asked for that are
    known, with their values. *)
Definition value_pair (nv : list Z * list Z) : list Z :=
  match get_values_result nv.1 with
  | None => []
  | Some v => encode_pair (nv.1, [v])
  end.
Definition values_content (ps : list (list Z * list Z)) : list Z := concat (map value_pair ps).

Section Wire.
Context (stack : list Z).

(** What follows the content in the array [response]: the NUL [sprintf] writes and
    what the array held before. The padding of the answer is taken from there. *)
Definition values_tail (content : list Z) : list Z :=
  match content with
  | [] => drop 8 stack
  | _ => 0 :: drop (8 + length content + 1) stack
  end.
Definition values_record (ps : list (list Z * list Z)) : record :=
  let content := values_content ps in
  let n := Z.of_nat (length content) in
  mkRecord FCGI_GET_VALUES_RESULT FCGI_NULL_REQUEST_ID content
    (take (Z.to_nat (AlignInt8 n - n)) (values_tail content)).

(** [wire q T r d rep]: while reading the records of type [T] of request [q], the
    record [r] contributes the data [d] and is answered with the bytes [rep]. *)
Inductive wire (q : FCGX_Request) (T : Z) : record -> list Z -> list Z -> Prop :=
| wire_data r :
    rec_type r = T -> rec_id r = requestId q -> rec_content r <> [] ->
    wire q T r (rec_content r) []
| wire_foreign r :
    rec_type r <> FCGI_BEGIN_REQUEST -> rec_id r <> FCGI_NULL_REQUEST_ID ->
    rec_id r <> requestId q -> rec_content r <> [] ->
    wire q T r [] []
| wire_begin r :
    rec_type r = FCGI_BEGIN_REQUEST -> rec_id r <> FCGI_NULL_REQUEST_ID ->
    length (rec_content r) = 8%nat -> isBeginProcessed q = true ->
    wire q T r [] (encode_record (end_request_record (rec_id r) 0 FCGI_CANT_MPX_CONN))
| wire_unknown r :
    rec_type r <> FCGI_BEGIN_REQUEST -> rec_id r = FCGI_NULL_REQUEST_ID ->
    rec_type r <> FCGI_GET_VALUES -> rec_content r = [] ->
    wire q T r [] (encode_record (unknown_type_record (rec_type r)))
| wire_values r ps :
    rec_type r = FCGI_GET_VALUES -> rec_id r = FCGI_NULL_REQUEST_ID ->
    rec_content r = encode_pairs ps -> Forall pair_ok ps ->
    Forall (fun nv => Forall (fun c => c <> 0 /\ c <> 61) nv.1) ps ->
    (length (values_content ps) <= 55)%nat ->
    wire q T r [] (encode_record (values_record ps)).

(** A sequence of records followed by the bytes [last]. The end of a GET_VALUES
    record is noticed only when a byte follows its content. *)
Inductive wires (q : FCGX_Request) (T : Z) (last : list Z) : list record -> list Z -> list Z -> Prop :=
| wires_nil : wires q T last [] [] []
| wires_cons r rs d1 d2 rep1 rep2 :
    record_ok r -> wire q T r d1 rep1 ->
    (rec_type r = FCGI_GET_VALUES -> rec_padding r ++ encode_records rs ++ last <> []) ->
    wires q T last rs d2 rep2 ->
    wires q T last (r :: rs) (d1 ++ d2) (rep1 ++ rep2).

(** How a stream ends, with [FCGI_errno] after that: the empty record of its type;
    the end of the connection or an error of it between records or in a header; a
    header of another version; a record of another type of this request. *)
Inductive ending (q : FCGX_Request) (T : Z) (later : list read_event) : list Z -> Z -> Prop :=
| end_of_stream pad tail :
    Z.of_nat (length pad) <= 255 ->
    ending q T later (encode_record (mkRecord T (requestId q) [] pad) ++ tail) 0
| end_of_connection last :
    (length last < 8)%nat -> later = [] -> ending q T later last FCGX_PROTOCOL_ERROR
| end_read_error last e evs :
    (length last < 8)%nat -> later = RErr e :: evs -> ending q T later last e
| end_version last :
    (8 <= length last)%nat -> nth 0 last 0 <> FCGI_VERSION_1 ->
    ending q T later last FCGX_UNSUPPORTED_VERSION
| end_type r tail :
    record_ok r -> rec_id r = requestId q -> rec_type r <> T ->
    rec_type r <> FCGI_BEGIN_REQUEST ->
    ending q T later (encode_record r ++ tail) FCGX_PROTOCOL_ERROR.
End Wire.

(** ** The answer to FCGI_GET_VALUES *)

Lemma until_eq_entry nv :
  Forall (fun c => c <> 0 /\ c <> 61) nv.1 -> until_eq (entry nv) = Some nv.1.
Proof.
  destruct nv as [n v]. unfold entry; cbn [fst snd]. induction 1 as [|c n [H0 H1] _ IH]; [done|].
  cbn [app until_eq]. destruct (Z.eqb_spec c 0); [done|]. destruct (Z.eqb_spec c 61); [done|].
  cbn [app] in IH. by rewrite IH.
Qed.

(** The array [response] after [content] has been written from offset [P] on. *)
Definition response_with (response : list Z) (P : nat) (content : list Z) : list Z :=
  take P response ++ content ++
  match content with
  | [] => drop P response
  | _ => 0 :: drop (P + length content + 1) response
  end.

Lemma response_with_nil response P : response_with response P [] = response.
Proof. unfold response_with; cbn. apply take_drop. Qed.

Lemma response_with_ne response P content :
  content <> [] ->
  response_with response P content
    = take P response ++ content ++ 0 :: drop (P + length content + 1) response.
Proof. by destruct content. Qed.

Lemma response_with_next response P a b :
  a <> [] -> (P + length a + 1 <= length response)%nat ->
  response_with (response_with response P a) (P + length a) b = response_with response P (a ++ b).
Proof.
  intros Ha Hl. destruct (decide (b = [])) as [->|Hb].
  { by rewrite response_with_nil, app_nil_r. }
  rewrite !response_with_ne by (try done; by destruct a).
  assert (length (take P response ++ a) = P + length a)%nat as Hlen
    by (rewrite length_app, length_take; lia).
  rewrite (app_assoc (take P response) a). rewrite take_app_length' by done.
  rewrite <-!app_assoc. do 4 f_equal.
  rewrite (app_assoc (take P response) a), drop_app_ge by lia. rewrite Hlen, length_app.
  replace (P + length a + length b + 1 - (P + length a))%nat with (S (length b)) by lia.
  cbn [drop]. rewrite drop_drop. f_equal. lia.
Qed.

Lemma value_pair_some nv v :
  get_values_result nv.1 = Some v ->
  value_pair nv = [Z.of_nat (length nv.1); 1] ++ nv.1 ++ [v] /\ (0 < length nv.1)%nat.
Proof.
  intros Hv. unfold value_pair. rewrite Hv. destruct nv as [n w]; cbn [fst] in *.
  assert (n = b! "FCGI_MAX_CONNS" \/ n = b! "FCGI_MAX_REQS" \/ n = b! "FCGI_MPXS_CONNS") as Hn.
  { unfold get_values_result in Hv.
    repeat match type of Hv with (if ?b then _ else _) = _ => destruct b eqn:?E; [|clear E] end;
      rewrite ?list_Z_eqb_spec in *; by auto. }
  destruct Hn as [->|[->| ->]]; (split; [done|cbn; lia]).
Qed.

Lemma get_values_loop_ok ps response P :
  Forall (fun nv => Forall (fun c => c <> 0 /\ c <> 61) nv.1) ps ->
  (P + length (values_content ps) + 1 <= length response)%nat ->
  get_values_loop (map entry ps) response P
    = Ret (response_with response P (values_content ps), (P + length (values_content ps))%nat).
Proof.
  intros Hps. revert response P. induction Hps as [|nv ps Hnv Hps IH]; intros response P Hl.
  { cbn. unfold response_with; cbn. by rewrite take_drop, Nat.add_0_r. }
  cbn [map get_values_loop]. rewrite until_eq_entry by done.
  unfold values_content in *; cbn [map concat] in *. rewrite length_app in *.
  destruct (get_values_result nv.1) as [v|] eqn:Hv; cycle 1.
  { assert (value_pair nv = []) as Hnil by (unfold value_pair; by rewrite Hv).
    rewrite Hnil in *. apply IH. cbn in Hl. lia. }
  destruct (value_pair_some nv v Hv) as [Hp Hpos].
  set (out := [Z.of_nat (length nv.1); 1] ++ nv.1 ++ [v; 0]).
  assert (out = value_pair nv ++ [0]) as Hout
    by (rewrite Hp; unfold out; by rewrite <-!app_assoc).
  assert (length out = length (value_pair nv) + 1)%nat as Hlo by (rewrite Hout, length_app; done).
  assert (length (value_pair nv) = length nv.1 + 3)%nat as Hlp
    by (rewrite Hp, !length_app; cbn [length]; lia).
  destruct (Nat.leb_spec (P + length out) (length response)); [|lia].
  assert (value_pair nv <> []) as Hne by (intros E; rewrite E in Hlp; cbn in Hlp; lia).
  assert (mem_write response P out = response_with response P (value_pair nv)) as ->.
  { rewrite response_with_ne by done. unfold mem_write. rewrite Hout, <-!app_assoc. do 2 f_equal.
    cbn [app]. do 2 f_equal. rewrite length_app. cbn [length]. lia. }
  rewrite <-Nat.add_assoc, <-Hlp, IH.
  - rewrite response_with_next by (done || lia). f_equal. f_equal. lia.
  - rewrite response_with_ne by done. rewrite !length_app. cbn [length].
    rewrite length_take, length_drop. lia.
Qed.
