(* ===== verification/FcgiInput.v ===== *)
(** What input streams deliver: [FillBuffProc] of fcgiapp.c implements the [Source]
    interface, for the body of a single record and for a stream made of records,
    however the bytes of the connection are cut into [read]s. *)
From Stdlib Require Import ZArith Lia Bool String.
From stdpp Require Import base list numbers gmap.
From S2P Require Import Prelude FcgiProto OsUnix FcgiStream FcgiSink FcgiWriter.
From S2P Require Import FcgiParams FcgiReader FcgiSource FcgiWire.

(** ** Where a reader stands *)

(** A connection with what is left to read, how writes behave, what was written. *)
Definition conn_io (c : conn) (rx : list read_event) (wr : list write_event) (tx : list Z) : conn :=
  mkConn rx wr tx (c_readable c) (c_select c).

(** How far [FillBuffProc] is in the current record, and whether the stream ended. *)
Definition phase (y : sys) : Z * Z * bool * bool * bool :=
  (contentLen (sdata y), paddingLen (sdata y), skip (sdata y), eorStop (sdata y),
   isClosed (strm y)).

Section Reader.
Context (o0 : os_state) (c0 : conn) (fd : Z) (later : list read_event).

(** Stream [y] of request [q] reads records of type [T]; [flat] are the bytes from
    [rdNext] on, in the buffer and still to arrive, [tx] those written so far. After
    the bytes come the events [later]. *)
Record at_ (q : FCGX_Request) (T : Z) (tx flat : list Z) (y : sys) : Prop := {
  at_ptr : (rdNext (strm y) <= buffStop (sdata y) <= bufflen (sdata y))%nat;
  at_len : (0 < bufflen (sdata y) <= length (buff (sdata y)))%nat;
  at_os : exists chunks wr,
    os y = put_conn fd (conn_io c0 (map RData chunks ++ later) wr tx) o0 /\
    Forall (fun b => b <> []) chunks /\ wtakes wr /\
    flat = slice (buff (sdata y)) (rdNext (strm y)) (buffStop (sdata y)) ++ concat chunks;
  at_req : req y = q;
  at_fd : ipcFd q = fd;
  at_type : sd_type (sdata y) = T;
  at_reader : isReader (strm y) = true;
  at_errno : FCGI_errno (strm y) = 0
}.

(** The loop of [FillBuffProc] is about to run with [cont] content bytes and [pad]
    padding bytes of the current record to come. *)
Definition loop_at q T tx (cont pad rest : list Z) (sk eor : bool) (y : sys) : Prop :=
  at_ q T tx (cont ++ pad ++ rest) y /\
  phase y = (Z.of_nat (length cont), Z.of_nat (length pad), sk, eor, false).
End Reader.

Section Stages.
Context (o0 : os_state) (c0 : conn) (fd : Z) (later : list read_event).
Context (Hshut : shutdownNow o0 = false).
Implicit Types (y : sys) (flat tx cont pad rest : list Z).
Local Abbreviation at_ := (at_ o0 c0 fd later).
Local Abbreviation loop_at := (loop_at o0 c0 fd later).

Lemma at_frame q T tx flat y y' :
  at_ q T tx flat y ->
  rdNext (strm y') = rdNext (strm y) -> buff (sdata y') = buff (sdata y) ->
  bufflen (sdata y') = bufflen (sdata y) -> buffStop (sdata y') = buffStop (sdata y) ->
  os y' = os y -> req y' = req y -> sd_type (sdata y') = sd_type (sdata y) ->
  isReader (strm y') = isReader (strm y) -> FCGI_errno (strm y') = FCGI_errno (strm y) ->
  at_ q T tx flat y'.
Proof.
  intros [] H1 H2 H3 H4 H5 H6 H7 H8 H9.
  constructor; rewrite ?H1, ?H2, ?H3, ?H4, ?H5, ?H6, ?H7, ?H8, ?H9; done.
Qed.

(** Advancing over bytes of the buffer. *)
Lemma at_advance q T tx flat y n :
  at_ q T tx flat y -> (n <= buffStop (sdata y) - rdNext (strm y))%nat ->
  at_ q T tx (drop n flat) (upd_strm (set_rdNext (rdNext (strm y) + n)) y).
Proof.
  intros [Hp Hl (chunks & wr & Ho & Hc & Hw & Hf)] Hn. constructor; cbn; try done.
  - lia.
  - exists chunks, wr. split_and!; try done. rewrite Hf, drop_app_le by (rewrite length_slice; lia).
    by rewrite slice_drop.
Qed.

(** The bytes in the buffer come first. *)
Lemma at_buffered q T tx flat y :
  at_ q T tx flat y ->
  exists rest, flat = slice (buff (sdata y)) (rdNext (strm y)) (buffStop (sdata y)) ++ rest.
Proof. intros [_ _ (chunks & wr & _ & _ & _ & Hf)]. by exists (concat chunks). Qed.

Lemma at_avail q T tx flat y :
  at_ q T tx flat y -> (buffStop (sdata y) - rdNext (strm y) <= length flat)%nat.
Proof.
  intros Hy. destruct (at_buffered _ _ _ _ _ Hy) as [rest ->]. destruct Hy.
  rewrite length_app, length_slice; lia.
Qed.

Lemma at_take q T tx flat y n :
  at_ q T tx flat y -> (n <= buffStop (sdata y) - rdNext (strm y))%nat ->
  slice (buff (sdata y)) (rdNext (strm y)) (rdNext (strm y) + n) = take n flat.
Proof.
  intros Hy Hn. destruct (at_buffered _ _ _ _ _ Hy) as [rest ->]. destruct Hy.
  rewrite take_app_le by (rewrite length_slice; lia). by rewrite slice_take by lia.
Qed.

(** A [read] into the empty buffer delivers the first bytes still to arrive. *)
Lemma fill_read_ok q T tx flat y :
  at_ q T tx flat y -> flat <> [] ->
  exists y', fill_read y = Falls y' /\ at_ q T tx flat y' /\ phase y' = phase y /\
    (rdNext (strm y') < buffStop (sdata y'))%nat.
Proof.
  intros [Hp Hl (chunks & wr & Ho & Hc & Hw & Hf) Hq Hfd HT Hr He] Hne. unfold fill_read.
  destruct (Nat.eqb_spec (rdNext (strm y)) (buffStop (sdata y))) as [Heq|Hneq]; cycle 1.
  { exists y. split_and!; [done| |done|lia]. constructor; try done. by exists chunks, wr. }
  rewrite Heq, slice_nil in Hf. cbn [app] in Hf.
  destruct chunks as [|b chunks]; [by subst|]. apply Forall_cons in Hc as [Hb Hc'].
  set (n := bufflen (sdata y)) in *.
  assert (OS_Read (ipcFd (req y)) n (os y) = (Z.of_nat (length (take n b)), take n b,
    put_conn fd (conn_io c0 (map RData (if (length b <=? n)%nat then chunks else drop n b :: chunks)
      ++ later) wr tx) o0)) as ->.
  { rewrite Hq, Hfd, Ho. unfold OS_Read. cbn [put_conn shutdownNow set_kern]. rewrite Hshut.
    unfold sys_read. rewrite put_conn_lookup. cbn [conn_io c_rx map app].
    rewrite put_conn_put_conn. f_equal. f_equal. unfold conn_io; cbn. by destruct (_ <=? _)%nat. }
  cbn [fst snd].
  assert (0 < length (take n b) <= n)%nat
    by (rewrite length_take; destruct b; [done|]; cbn [length]; lia).
  destruct (Z.leb_spec (Z.of_nat (length (take n b))) 0); [lia|].
  eexists. split; [done|]. split_and!; [|done|cbn; rewrite Nat2Z.id; lia].
  constructor; cbn; rewrite ?Nat2Z.id; try done; try lia.
  - rewrite length_mem_write by (fold n in Hl; lia). done.
  - eexists _, wr. split; [done|].
    rewrite <-(Nat.add_0_l (length (take n b))), slice_mem_write by (fold n in Hl; lia).
    destruct (Nat.leb_spec (length b) n).
    + split_and!; try done. rewrite Hf, take_ge by lia. done.
    + split_and!; try done.
      * constructor; [|done]. intros Hd. apply (f_equal length) in Hd.
        rewrite length_drop in Hd. cbn in Hd. lia.
      * rewrite Hf. cbn [concat]. by rewrite app_assoc, take_drop.
Qed.

(** At the end of the bytes an empty buffer meets the events that follow. *)
Lemma fill_read_end q T tx y e (evs : list read_event) :
  at_ q T tx [] y -> later = evs ->
  match evs with
  | [] => e = FCGX_PROTOCOL_ERROR
  | RErr e' :: _ => e = e'
  | RData _ :: _ => False
  end ->
  exists y', fill_read y = Returns y' /\ isClosed (strm y') = true /\ FCGI_errno (strm y') = e /\
    isReader (strm y') = true /\ req y' = q /\
    exists c, k_conns (kern (os y')) !! fd = Some c /\ c_tx c = tx.
Proof.
  intros [Hp Hl (chunks & wr & Ho & Hc & Hw & Hf) Hq Hfd HT Hr He] -> Hevs. unfold fill_read.
  symmetry in Hf. apply app_eq_nil in Hf as [Hs Hch].
  assert (rdNext (strm y) = buffStop (sdata y)) as ->.
  { apply (f_equal length) in Hs. rewrite length_slice in Hs by lia. cbn in Hs. lia. }
  rewrite Nat.eqb_refl.
  assert (chunks = []) as -> by (destruct chunks as [|b chunks]; [done|];
    inversion Hc; subst; cbn in Hch; by apply app_eq_nil in Hch as [? _]).
  unfold OS_Read, sys_read. rewrite Hq, Hfd, Ho. cbn [put_conn shutdownNow set_kern].
  rewrite Hshut, put_conn_lookup. cbn [conn_io c_rx map app].
  destruct evs as [|[b|e'] evs]; [subst e|done|subst e'].
  - cbn [Z.leb Z.compare Z.eqb]. eexists; split; [done|].
    unfold SetError; cbn. rewrite He; cbn. split_and!; try done.
    eexists. rewrite lookup_insert_eq. done.
  - cbn [Z.leb Z.compare Z.eqb]. eexists; split; [done|].
    unfold SetError; cbn. rewrite He; cbn. split_and!; try done.
    eexists. rewrite !lookup_insert_eq. done.
Qed.

(** ** The content of a record *)

(** The stream will deliver [d], the rest of the content of the current record:
    what lies between [rdNext] and [stop], and then [contentLen] bytes more. *)
Definition deliver_at q T tx d pad rest (eor : bool) y : Prop :=
  (rdNext (strm y) <= stop (strm y) <= buffStop (sdata y))%nat /\
  at_ q T tx (d ++ pad ++ rest) y /\
  exists cont, d = slice (buff (sdata y)) (rdNext (strm y)) (stop (strm y)) ++ cont /\
    phase y = (Z.of_nat (length cont), Z.of_nat (length pad), false, eor, false).

Lemma deliver_start q T tx d pad rest eor y :
  deliver_at q T tx d pad rest eor y -> rdNext (strm y) = stop (strm y) ->
  loop_at q T tx d pad rest false eor y.
Proof.
  intros (_ & Hy & cont & -> & Hph) Heq. rewrite Heq, slice_nil in *. by split.
Qed.

Lemma deliver_take q T tx d pad rest eor y n :
  deliver_at q T tx d pad rest eor y -> (n <= stop (strm y) - rdNext (strm y))%nat ->
  deliver_at q T tx (drop n d) pad rest eor (upd_strm (set_rdNext (rdNext (strm y) + n)) y).
Proof.
  intros (Hp & Hy & cont & Hd & Hph) Hn. pose proof (at_len _ _ _ _ _ _ _ _ _ Hy).
  pose proof (at_ptr _ _ _ _ _ _ _ _ _ Hy).
  assert (n <= length d)%nat by (rewrite Hd, length_app, length_slice; lia).
  split; [cbn; lia|]. split.
  - rewrite <-drop_app_le by done. apply at_advance; [done|lia].
  - exists cont. split; [|done]. cbn.
    rewrite Hd, drop_app_le by (rewrite length_slice; lia). by rewrite slice_drop.
Qed.

Lemma deliver_mark q T tx d pad rest eor y u :
  deliver_at q T tx d pad rest eor y ->
  deliver_at q T tx d pad rest eor (upd_strm (set_stopUnget u) y).
Proof.
  intros (Hp & Hy & cont & Hd & Hph). split; [done|]. split; [by eapply at_frame|].
  by exists cont.
Qed.

Lemma deliver_back q T tx d pad rest eor y r c :
  deliver_at q T tx d pad rest eor y -> rdNext (strm y) = S r ->
  deliver_at q T tx (u8 c :: d) pad rest eor (unget_state r c y).
Proof.
  intros (Hp & [Hp' Hl (chunks & wr & Ho & Hc & Hw & Hf)] & cont & Hd & Hph) Hr.
  split; [cbn; lia|]. split.
  - constructor; cbn; try done; try lia.
    + rewrite length_mem_write by (cbn [length]; lia). done.
    + exists chunks, wr. split_and!; try done.
      rewrite slice_mem_write_from by (cbn [length]; lia). rewrite Hf. cbn [length app].
      by rewrite Hr, Nat.add_1_r.
  - exists cont. split; [|done]. cbn.
    rewrite slice_mem_write_from by (cbn [length]; lia). rewrite Hd. cbn [length app].
    by rewrite Hr, Nat.add_1_r.
Qed.

Lemma deliver_open q T tx d pad rest eor y :
  deliver_at q T tx d pad rest eor y ->
  isClosed (strm y) = false /\ isReader (strm y) = true /\
  (rdNext (strm y) <= stop (strm y) <= length (buff (sdata y)))%nat /\
  exists rest, d = slice (buff (sdata y)) (rdNext (strm y)) (stop (strm y)) ++ rest.
Proof.
  intros (Hp & Hy & cont & Hd & Hph). pose proof (at_len _ _ _ _ _ _ _ _ _ Hy).
  pose proof (at_ptr _ _ _ _ _ _ _ _ _ Hy).
  injection Hph. intros. split_and!; [done|apply Hy|lia|lia|by exists cont].
Qed.

Context (stack : list Z).
Local Abbreviation loop := (FillBuff_loop stack).

(** Content is delivered, at least one byte at a time. *)
Lemma loop_deliver fuel hdr q T tx cont pad rest eor y :
  loop_at q T tx cont pad rest false eor y -> cont <> [] ->
  exists y', loop (S fuel) hdr y = Ret y' /\ deliver_at q T tx cont pad rest eor y' /\
    (rdNext (strm y') < stop (strm y'))%nat.
Proof.
  intros [Hy Hph] Hne. cbn [FillBuff_loop].
  destruct (fill_read_ok q T tx _ y Hy) as (y1 & -> & Hy1 & Hph1 & Hlt); [by destruct cont|].
  rewrite Hph in Hph1. unfold phase in Hph1. injection Hph1 as Hcl Hpl Hsk Heor Hclosed.
  pose proof (at_ptr _ _ _ _ _ _ _ _ _ Hy1). pose proof (at_len _ _ _ _ _ _ _ _ _ Hy1).
  unfold fill_content. rewrite Hcl, Hsk. cbn [negb].
  assert (0 < length cont)%nat by (destruct cont; [done|cbn; lia]).
  destruct (Z.gtb_spec (Z.of_nat (length cont)) 0); [|lia].
  set (n := Nat.min (length cont) (buffStop (sdata y1) - rdNext (strm y1))).
  assert (Z.min (Z.of_nat (length cont)) (Z.of_nat (buffStop (sdata y1)) -
    Z.of_nat (rdNext (strm y1))) = Z.of_nat n) as -> by lia.
  rewrite Nat2Z.id. eexists. split; [done|]. split; [|cbn; lia].
  split; [cbn; lia|]. split; [by eapply at_frame|]. exists (drop n cont). cbn. split.
  - rewrite (at_take _ _ _ _ _ n Hy1) by lia. by rewrite take_app_le, take_drop by lia.
  - unfold phase; cbn. rewrite Hpl, Hsk, Heor, Hclosed, length_drop. do 4 f_equal. lia.
Qed.

(** ** Skipping content and padding, collecting a header *)

(** What is left of the content, if anything, is to be skipped. *)
Definition skip_at q T tx cont pad rest eor y : Prop :=
  loop_at q T tx cont pad rest (negb (bool_decide (cont = []))) eor y.

Lemma fill_content_skip q T tx cont pad rest eor y :
  skip_at q T tx cont pad rest eor y -> (rdNext (strm y) < buffStop (sdata y))%nat ->
  (exists y' cont', fill_content y = Continues y' /\ cont' <> [] /\
     (length cont' < length cont)%nat /\ skip_at q T tx cont' pad rest eor y') \/
  (exists y', fill_content y = Falls y' /\ loop_at q T tx [] pad rest false eor y' /\
     (cont = [] -> y' = y)).
Proof.
  intros [Hy Hph] Hlt. pose proof Hph as Hph'. unfold phase in Hph'.
  injection Hph' as Hcl Hpl Hsk Heor Hclosed. unfold fill_content. rewrite Hcl, Hsk.
  destruct cont as [|c cont0].
  { right. exists y. cbn in *. by split_and!. }
  rewrite bool_decide_false in * by done. cbn [negb] in *.
  remember (c :: cont0) as cont eqn:Hcont. assert (0 < length cont)%nat by (subst; cbn; lia).
  destruct (Z.gtb_spec (Z.of_nat (length cont)) 0); [|lia].
  set (n := Nat.min (length cont) (buffStop (sdata y) - rdNext (strm y))).
  assert (Z.min (Z.of_nat (length cont)) (Z.of_nat (buffStop (sdata y)) -
    Z.of_nat (rdNext (strm y))) = Z.of_nat n) as -> by lia.
  rewrite Nat2Z.id. pose proof (at_advance _ _ _ _ y n Hy ltac:(lia)) as Hy1.
  rewrite drop_app_le in Hy1 by lia. cbn -[Z.gtb Z.sub skip_at].
  destruct (Z.gtb_spec (Z.of_nat (length cont) - Z.of_nat n) 0) as [Hgt|Hle].
  - left. eexists _, (drop n cont). split; [done|].
    assert (drop n cont <> []) as Hne.
    { intros Hd. apply (f_equal length) in Hd. rewrite length_drop in Hd. cbn in Hd. lia. }
    split_and!; [done|rewrite length_drop; lia|]. split; [by eapply at_frame|].
    rewrite bool_decide_false by done. cbn. unfold phase; cbn.
    rewrite Hpl, Hsk, Heor, Hclosed, length_drop. do 4 f_equal. lia.
  - right. eexists. split; [done|]. split; [|by intros ->]. rewrite drop_ge in Hy1 by lia.
    split; [by eapply at_frame|]. unfold phase; cbn.
    rewrite Hpl, Heor, Hclosed. do 4 f_equal. lia.
Qed.

Lemma fill_padding_skip q T tx pad rest eor y :
  loop_at q T tx [] pad rest false eor y ->
  (exists y' pad', fill_padding y = Continues y' /\ pad' <> [] /\ (length pad' <= length pad)%nat /\
     ((rdNext (strm y) < buffStop (sdata y))%nat -> (length pad' < length pad)%nat) /\
     loop_at q T tx [] pad' rest false eor y') \/
  (exists y', fill_padding y = Falls y' /\ loop_at q T tx [] [] rest false eor y' /\
     (pad = [] -> y' = y)).
Proof.
  intros [Hy Hph]. pose proof Hph as Hph'. unfold phase in Hph'.
  injection Hph' as Hcl Hpl Hsk Heor Hclosed. unfold fill_padding. rewrite Hpl.
  destruct (Z.gtb_spec (Z.of_nat (length pad)) 0); cycle 1.
  { assert (pad = []) as -> by (destruct pad; [done|cbn [length] in *; lia]).
    right. exists y. cbn in *. by split_and!. }
  set (n := Nat.min (length pad) (buffStop (sdata y) - rdNext (strm y))).
  assert (Z.min (Z.of_nat (length pad)) (Z.of_nat (buffStop (sdata y)) -
    Z.of_nat (rdNext (strm y))) = Z.of_nat n) as -> by (pose proof (at_ptr _ _ _ _ _ _ _ _ _ Hy); lia).
  rewrite Nat2Z.id. pose proof (at_advance _ _ _ _ y n Hy ltac:(lia)) as Hy1.
  cbn [app] in Hy1. rewrite drop_app_le in Hy1 by lia.
  cbn -[Z.gtb Z.sub].
  destruct (Z.gtb_spec (Z.of_nat (length pad) - Z.of_nat n) 0) as [Hgt|Hle].
  - left. eexists _, (drop n pad). split; [done|]. rewrite length_drop.
    split_and!; [|lia|lia|].
    { intros Hd. apply (f_equal length) in Hd. rewrite length_drop in Hd. cbn in Hd. lia. }
    split; [by eapply at_frame|]. unfold phase; cbn.
    rewrite Hcl, Hsk, Heor, Hclosed, length_drop. do 4 f_equal. lia.
  - right. eexists. split; [done|]. split; [|by intros ->; cbn in *; lia].
    rewrite drop_ge in Hy1 by lia. split; [by eapply at_frame|]. unfold phase; cbn.
    rewrite Hcl, Hsk, Heor, Hclosed. do 4 f_equal. lia.
Qed.

(** In a nested call the end of the record is the end of the stream. *)
Lemma loop_body_end fuel q T tx pad rest y :
  loop_at q T tx [] pad rest false true y -> pad ++ rest <> [] -> (length pad < fuel)%nat ->
  exists y', loop fuel [] y = Ret y' /\ at_ q T tx rest y' /\ phase y' = (0, 0, false, true, true).
Proof.
  revert pad y. induction fuel as [|fuel IH]; intros pad y [Hy Hph] Hne Hf; [lia|].
  cbn [FillBuff_loop].
  destruct (fill_read_ok q T tx _ y Hy Hne) as (y1 & -> & Hy1 & Hph1 & Hlt). rewrite Hph in Hph1.
  destruct (fill_content_skip q T tx [] pad rest true y1) as
    [(? & ? & _ & _ & Hl & _)|(y2 & -> & Hy2 & Heq)]; [by split|done|cbn in Hl; lia|].
  specialize (Heq eq_refl) as ->.
  destruct (fill_padding_skip q T tx pad rest true y1 Hy2) as
    [(y3 & pad' & -> & Hne' & _ & Hl & Hy3)|(y3 & -> & [Hy3 Hph3] & _)].
  - apply IH with (pad := pad'); [done|by destruct pad'|]. specialize (Hl Hlt). lia.
  - injection Hph3 as Hcl Hpl Hsk Heor Hclosed. unfold fill_eor. rewrite Heor. eexists. split; [done|].
    split; [by eapply at_frame|]. unfold phase; cbn. by rewrite Hcl, Hpl, Hsk, Heor.
Qed.

(** What [FillBuff_loop] does with a complete header. *)
Definition dispatch (fuel : nat) (hdr : list Z) (y : sys) : outcome sys :=
  let y := upd_data (set_eorStop true) y in
  let y := upd_strm (set_stop (rdNext (strm y))) y in
  let! (status, y) := ProcessHeader stack (loop fuel []) fuel (header_of_bytes hdr) y in
  let! st := fill_dispatch status y in
  match st with
  | Returns y => Ret y
  | Continues y => loop fuel [] y
  | Falls y => Ret y
  end.

(** One turn of the loop that delivers nothing takes at least one byte. *)
Lemma loop_turn fuel hdr q T tx cont pad rest y :
  skip_at q T tx cont pad rest false y -> cont ++ pad ++ rest <> [] ->
  (length hdr < 8)%nat -> (hdr <> [] -> cont ++ pad = []) ->
  (exists y' cont' pad', loop (S fuel) hdr y = loop fuel hdr y' /\
     skip_at q T tx cont' pad' rest false y' /\ (hdr <> [] -> cont' ++ pad' = []) /\
     (length (cont' ++ pad') < length (cont ++ pad))%nat) \/
  (exists y' n, (n <= length rest)%nat /\ (length hdr + n <= 8)%nat /\
     (cont ++ pad = [] -> 0 < n)%nat /\
     loop (S fuel) hdr y =
       (if (length hdr + n <? 8)%nat then loop fuel (hdr ++ take n rest) y'
        else dispatch fuel (hdr ++ take n rest) y') /\
     loop_at q T tx [] [] (drop n rest) false false y').
Proof.
  intros [Hy Hph] Hne Hh Hcp. cbn [FillBuff_loop].
  destruct (fill_read_ok q T tx _ y Hy Hne) as (y1 & -> & Hy1 & Hph1 & Hlt). rewrite Hph in Hph1.
  destruct (fill_content_skip q T tx cont pad rest false y1) as
    [(y2 & cont' & -> & Hne' & Hl & Hy2)|(y2 & -> & Hy2 & Heq)]; [by split|done|..].
  { left. exists y2, cont', pad. split_and!; [done|done| |rewrite !length_app; lia].
    intros Hn. apply Hcp in Hn. apply app_eq_nil in Hn as [-> _]. cbn in Hl. lia. }
  destruct (fill_padding_skip q T tx pad rest false y2 Hy2) as
    [(y3 & pad' & -> & Hne' & Hle & Hl & Hy3)|(y3 & -> & [Hy3 Hph3] & Heq3)].
  { left. exists y3, [], pad'. split_and!; [done|done| |].
    - intros Hn. apply Hcp in Hn. apply app_eq_nil in Hn as [_ ->]. cbn in Hle. by destruct pad'; cbn in *; [|lia].
    - rewrite !length_app. destruct cont; [|cbn; lia].
      rewrite Heq in Hl by done. specialize (Hl Hlt). cbn. lia. }
  right. injection Hph3 as Hcl Hpl Hsk Heor Hclosed. unfold fill_eor. rewrite Heor.
  unfold fill_header. set (n := Nat.min (8 - length hdr) (buffStop (sdata y3) - rdNext (strm y3))).
  pose proof (at_avail _ _ _ _ _ Hy3) as Hav. cbn [app] in Hav, Hy3.
  exists (upd_strm (set_rdNext (rdNext (strm y3) + n)) y3), n.
  split_and!; [lia|lia| | |].
  - intros Hcp'. apply app_eq_nil in Hcp' as [-> ->]. unfold n. rewrite (Heq3 eq_refl), (Heq eq_refl). lia.
  - rewrite (at_take _ _ _ _ _ n Hy3) by lia. cbn [app]. rewrite length_app, length_take.
    by replace (Nat.min n (length rest)) with n by lia.
  - split; [cbn [app]; apply at_advance; [done|lia]|]. unfold phase; cbn.
    by rewrite Hcl, Hpl, Hsk, Heor, Hclosed.
Qed.

(** A whole header is collected and interpreted. *)
Lemma loop_header fuel hdr q T tx cont pad x rest y :
  skip_at q T tx cont pad (x ++ rest) false y -> (length (hdr ++ x) = 8)%nat -> x <> [] ->
  (hdr <> [] -> cont ++ pad = []) -> (length (cont ++ pad ++ x) <= fuel)%nat ->
  exists fuel' y', loop fuel hdr y = dispatch fuel' (hdr ++ x) y' /\
    (fuel' < fuel <= fuel' + length (cont ++ pad ++ x))%nat /\
    loop_at q T tx [] [] rest false false y'.
Proof.
  revert hdr cont pad x y. induction fuel as [|fuel IH]; intros hdr cont pad x y Hy Hh Hx Hcp Hf.
  { destruct x; [done|]. rewrite !length_app in Hf. cbn in Hf. lia. }
  assert (forall a b, length (a ++ b ++ x) = length (a ++ b) + length x)%nat as L
    by (intros a b; rewrite !length_app; lia).
  rewrite length_app in Hh. assert (0 < length x)%nat by (destruct x; [done|cbn; lia]).
  destruct (loop_turn fuel hdr q T tx cont pad (x ++ rest) y Hy) as
    [(y1 & cont' & pad' & -> & Hy1 & Hcp1 & Hl)|(y1 & n & Hn & Hn8 & Hpos & -> & Hy1)]; try done; try lia.
  { intros Hnil. apply app_eq_nil in Hnil as [_ Hnil]. apply app_eq_nil in Hnil as [_ Hnil]. by apply app_eq_nil in Hnil as [? _]. }
  - rewrite L in Hf. destruct (IH hdr cont' pad' x y1) as (fuel' & y2 & -> & Hf2 & Hy2);
      rewrite ?L; try done; try lia; [by rewrite length_app|].
    rewrite L in Hf2. exists fuel', y2. split_and!; [done|lia|lia|done].
  - rewrite L in *.
    assert (0 < length (cont ++ pad) + n)%nat as Hprog.
    { destruct (decide (cont ++ pad = [])) as [E|E]; [specialize (Hpos E); lia|].
      destruct (cont ++ pad); [done|cbn; lia]. }
    destruct (Nat.ltb_spec (length hdr + n) 8).
    + rewrite drop_app_le in Hy1 by lia. rewrite take_app_le by lia.
      assert (length (drop n x) <> 0)%nat by (rewrite length_drop; lia).
      destruct (IH (hdr ++ take n x) [] [] (drop n x) y1) as (fuel' & y2 & -> & Hf2 & Hy2); try done.
      * rewrite <-app_assoc, take_drop, length_app. done.
      * intros Hd. by rewrite Hd in *.
      * cbn [app]. rewrite length_drop. lia.
      * rewrite <-app_assoc, take_drop in *. exists fuel', y2. split_and!; [done|lia| |done].
        cbn [app] in Hf2. rewrite length_drop in Hf2. lia.
    + assert (n = length x) as -> by lia. rewrite drop_app_length in Hy1. rewrite take_app_length.
      exists fuel, y1. split_and!; [done|lia|lia|done].
Qed.

(** ** Interpreting a header *)

Lemma encode_record_split r : encode_record r = record_header r ++ rec_content r ++ rec_padding r.
Proof. done. Qed.

Lemma record_header_fields r :
  record_ok r ->
  let h := header_of_bytes (record_header r) in
  version h = 1 /\ FcgiProto.type h = rec_type r /\ header_requestId h = rec_id r /\
  header_contentLength h = Z.of_nat (length (rec_content r)) /\
  paddingLength h = Z.of_nat (length (rec_padding r)).
Proof.
  intros (_ & Hid & _ & _). cbn. split_and!; try done.
  - by apply header_requestId_value.
  - by apply header_contentLength_value.
Qed.

(** The state in which [ProcessHeader] interprets record [r]. *)
Definition header_state (r : record) y : sys :=
  upd_data (set_paddingLen (Z.of_nat (length (rec_padding r))))
    (upd_data (set_contentLen (Z.of_nat (length (rec_content r))))
      (upd_strm (set_stop (rdNext (strm y))) (upd_data (set_eorStop true) y))).

Lemma header_state_at q T tx r rest y :
  loop_at q T tx [] [] (rec_content r ++ rec_padding r ++ rest) false false y ->
  deliver_at q T tx (rec_content r) (rec_padding r) rest true (header_state r y) /\
  rdNext (strm (header_state r y)) = stop (strm (header_state r y)).
Proof.
  intros [Hy Hph]. injection Hph as Hcl Hpl Hsk Heor Hclosed. split; [|done].
  pose proof (at_ptr _ _ _ _ _ _ _ _ _ Hy). split; [cbn; lia|].
  split; [by eapply at_frame|]. exists (rec_content r). cbn. rewrite slice_nil.
  split; [done|]. unfold phase; cbn. by rewrite Hsk, Hclosed.
Qed.

(** Where [ProcessHeader] dispatches to, for a record on the wire. *)
Lemma dispatch_header fuel r y :
  record_ok r ->
  dispatch fuel (record_header r) y =
  let! (status, y) :=
    (if rec_type r =? FCGI_BEGIN_REQUEST
     then ProcessBeginRecord (loop fuel []) fuel (rec_id r) (header_state r y)
     else if rec_id r =? FCGI_NULL_REQUEST_ID
     then ProcessManagementRecord stack (loop fuel []) fuel (rec_type r) (header_state r y)
     else if negb (rec_id r =? requestId (req y)) then Ret (SKIP, header_state r y)
     else if negb (rec_type r =? sd_type (sdata y)) then Ret (FCGX_PROTOCOL_ERROR, header_state r y)
     else Ret (STREAM_RECORD, header_state r y)) in
  let! st := fill_dispatch status y in
  match st with Returns y => Ret y | Continues y => loop fuel [] y | Falls y => Ret y end.
Proof.
  intros Hr. destruct (record_header_fields r Hr) as (Hv & Ht & Hi & Hc & Hp).
  unfold dispatch, ProcessHeader. rewrite Hv, Ht, Hi, Hc, Hp. done.
Qed.

(** A record of the stream: its content is delivered next. *)
Lemma dispatch_data fuel q T tx r rest y :
  record_ok r -> rec_type r = T -> rec_id r = requestId q -> rec_content r <> [] ->
  T <> FCGI_BEGIN_REQUEST -> requestId q <> 0 ->
  loop_at q T tx [] [] (rec_content r ++ rec_padding r ++ rest) false false y ->
  exists y', dispatch fuel (record_header r) y = loop fuel [] y' /\
    loop_at q T tx (rec_content r) (rec_padding r) rest false false y'.
Proof.
  intros Hr HT Hid Hne HTb Hq0 Hy. rewrite dispatch_header by done.
  rewrite HT, Hid. destruct Hy as [Hy Hph].
  rewrite (at_req _ _ _ _ _ _ _ _ _ Hy), (at_type _ _ _ _ _ _ _ _ _ Hy), !Z.eqb_refl.
  destruct (Z.eqb_spec T FCGI_BEGIN_REQUEST); [done|].
  destruct (Z.eqb_spec (requestId q) FCGI_NULL_REQUEST_ID); [done|]. cbn [negb obind].
  unfold fill_dispatch. cbn [Z.eqb STREAM_RECORD header_state upd_data upd_strm strm set_strm
    data set_data set_isClosed set_eorStop contentLen set_contentLen set_paddingLen set_stop].
  destruct (Z.eqb_spec (Z.of_nat (length (rec_content r))) 0) as [Hz|_].
  { destruct (rec_content r); [done|cbn in Hz; lia]. }
  cbn [obind]. eexists. split; [done|]. injection Hph as Hcl Hpl Hsk Heor Hclosed.
  split; [by eapply at_frame|]. unfold phase; cbn. by rewrite Hsk.
Qed.

(** A response is sent whole; nothing else changes. *)
Lemma send_response_ok q T tx flat bs st y :
  at_ q T tx flat y ->
  exists o, send_response bs st y = Ret (st, set_os o y) /\ at_ q T (tx ++ bs) flat (set_os o y).
Proof.
  intros [Hp Hl (chunks & wr & Ho & Hc & Hw & Hf) Hq Hfd HT Hr He].
  unfold send_response, ipc_write. rewrite Hq, Hfd, Ho.
  set (c := conn_io c0 (map RData chunks ++ later) [] []).
  destruct (write_it_all_ok fd c tx wr bs o0 Hshut Hw) as (wr' & Hwr & Hw').
  unfold conn_tx in Hwr. cbn in Hwr. unfold conn_io. rewrite Hwr. cbn [obind].
  eexists. split; [done|]. constructor; cbn; try done. by exists chunks, wr'.
Qed.

(** A record that is not of the stream: what is left of it is skipped, after its
    answer. *)
Definition side_result (fuel : nat) q T tx r rest rep y : Prop :=
  exists y' cont pad, dispatch fuel (record_header r) y = loop fuel [] y' /\
    skip_at q T (tx ++ rep) cont pad rest false y' /\
    (length (cont ++ pad) <= length (rec_content r ++ rec_padding r))%nat.

Lemma skip_dispatch fuel q T tx r rest y :
  rec_content r <> [] -> deliver_at q T tx (rec_content r) (rec_padding r) rest true y ->
  rdNext (strm y) = stop (strm y) ->
  exists y', (let! st := fill_dispatch SKIP y in
     match st with Returns y => Ret y | Continues y => loop fuel [] y | Falls y => Ret y end)
     = loop fuel [] y' /\ skip_at q T tx (rec_content r) (rec_padding r) rest false y'.
Proof.
  intros Hne Hy Heq. destruct (deliver_start _ _ _ _ _ _ _ _ Hy Heq) as [Hy' Hph].
  injection Hph as Hcl Hpl Hsk Heor Hclosed. eexists. split; [reflexivity|].
  split; [by eapply at_frame|]. rewrite bool_decide_false by done. unfold phase; cbn. by rewrite Hcl, Hpl.
Qed.

Lemma dispatch_foreign fuel q T tx r rest y :
  record_ok r -> rec_type r <> FCGI_BEGIN_REQUEST -> rec_id r <> FCGI_NULL_REQUEST_ID ->
  rec_id r <> requestId q -> rec_content r <> [] ->
  loop_at q T tx [] [] (rec_content r ++ rec_padding r ++ rest) false false y ->
  side_result fuel q T tx r rest [] y.
Proof.
  intros Hr Hb H0 Hid Hne Hy. unfold side_result. rewrite dispatch_header by done.
  destruct (header_state_at _ _ _ _ _ _ Hy) as [Hh Heq]. destruct Hy as [Hy Hph].
  rewrite (at_req _ _ _ _ _ _ _ _ _ Hy).
  destruct (Z.eqb_spec (rec_type r) FCGI_BEGIN_REQUEST); [done|].
  destruct (Z.eqb_spec (rec_id r) FCGI_NULL_REQUEST_ID); [done|].
  destruct (Z.eqb_spec (rec_id r) (requestId q)); [done|]. cbn [negb obind].
  destruct (skip_dispatch fuel q T tx r rest _ Hne Hh Heq) as (y' & -> & Hy').
  exists y', (rec_content r), (rec_padding r). by rewrite app_nil_r.
Qed.

(** A second begin record is refused: the application does not multiplex. *)
Lemma dispatch_begin fuel q T tx r rest y :
  record_ok r -> rec_type r = FCGI_BEGIN_REQUEST -> rec_id r <> FCGI_NULL_REQUEST_ID ->
  length (rec_content r) = 8%nat -> isBeginProcessed q = true ->
  loop_at q T tx [] [] (rec_content r ++ rec_padding r ++ rest) false false y ->
  side_result fuel q T tx r rest
    (encode_record (end_request_record (rec_id r) 0 FCGI_CANT_MPX_CONN)) y.
Proof.
  intros Hr Hb H0 Hl Hbeg Hy. unfold side_result. rewrite dispatch_header by done.
  destruct (header_state_at _ _ _ _ _ _ Hy) as [Hh Heq].
  pose proof (proj1 (proj2 Hh)) as Hat. destruct Hy as [Hy Hph].
  rewrite Hb. cbn [Z.eqb FCGI_BEGIN_REQUEST Pos.eqb]. unfold ProcessBeginRecord.
  destruct (Z.eqb_spec (rec_id r) 0); [done|]. cbn [orb].
  assert ((contentLen (sdata (header_state r y)) =? 8) = true) as ->
    by (apply Z.eqb_eq; cbn; by rewrite Hl).
  cbn [negb]. rewrite (at_req _ _ _ _ _ _ _ _ _ Hat), Hbeg.
  destruct (MakeHeader_record FCGI_END_REQUEST (rec_id r) 8 0) as (h & Hh8 & Hb8);
    [unfold is_byte, FCGI_END_REQUEST; lia|apply Hr|lia..|].
  rewrite Hh8. cbn [obind].
  assert (header_bytes h ++ end_body_bytes (MakeEndRequestBody 0 FCGI_CANT_MPX_CONN)
    = encode_record (end_request_record (rec_id r) 0 FCGI_CANT_MPX_CONN)) as ->.
  { etrans; [|apply (Hb8 (end_body_bytes (MakeEndRequestBody 0 FCGI_CANT_MPX_CONN)) [] eq_refl eq_refl)].
    by rewrite app_nil_r. }
  destruct (send_response_ok q T tx _ (encode_record (end_request_record (rec_id r) 0
    FCGI_CANT_MPX_CONN)) SKIP _ Hat) as (o & -> & Ho). cbn [obind].
  assert (deliver_at q T (tx ++ encode_record (end_request_record (rec_id r) 0 FCGI_CANT_MPX_CONN))
    (rec_content r) (rec_padding r) rest true (set_os o (header_state r y))) as Hd.
  { destruct Hh as (Hp & _ & cont & Hc & Hphh). split; [done|]. split; [done|]. by exists cont. }
  destruct (skip_dispatch fuel q T _ r rest _ ltac:(by destruct (rec_content r)) Hd Heq)
    as (y' & -> & Hy').
  by exists y', (rec_content r), (rec_padding r).
Qed.

Lemma dispatch_unknown fuel q T tx r rest y :
  record_ok r -> rec_type r <> FCGI_BEGIN_REQUEST -> rec_id r = FCGI_NULL_REQUEST_ID ->
  rec_type r <> FCGI_GET_VALUES -> rec_content r = [] ->
  loop_at q T tx [] [] (rec_content r ++ rec_padding r ++ rest) false false y ->
  side_result fuel q T tx r rest (encode_record (unknown_type_record (rec_type r))) y.
Proof.
  intros Hr Hb H0 Hg Hc Hy. unfold side_result. rewrite dispatch_header by done.
  destruct (header_state_at _ _ _ _ _ _ Hy) as [Hh Heq].
  pose proof (proj1 (proj2 Hh)) as Hat. destruct Hy as [Hy Hph].
  destruct (Z.eqb_spec (rec_type r) FCGI_BEGIN_REQUEST); [done|].
  rewrite H0, Z.eqb_refl. unfold ProcessManagementRecord, NewParams. cbn [Z.leb Z.compare obind Pos.compare Pos.compare_cont].
  destruct (Z.eqb_spec (rec_type r) FCGI_GET_VALUES); [done|].
  destruct (MakeHeader_record FCGI_UNKNOWN_TYPE 0 8 0) as (h & Hh8 & Hb8);
    [unfold is_byte, FCGI_UNKNOWN_TYPE; lia|lia|lia..|].
  unfold FCGI_NULL_REQUEST_ID. rewrite Hh8. cbn [obind].
  assert (header_bytes h ++ unknown_body_bytes (MakeUnknownTypeBody (rec_type r))
    = encode_record (unknown_type_record (rec_type r))) as ->.
  { rewrite <-(app_nil_r (unknown_body_bytes _)), Hb8 by done. unfold unknown_type_record. do 2 f_equal.
    unfold unknown_body_bytes, MakeUnknownTypeBody; cbn. rewrite u8_small; [done|apply Hr]. }
  edestruct (send_response_ok q T tx) as (o & -> & Ho); [exact Hat|]. cbn [obind].
  eexists _, [], (rec_padding r). split; [reflexivity|]. rewrite Hc in *.
  injection Hph as Hcl Hpl Hsk Heor Hclosed. split; [|by rewrite ?Hc].
  split; [by eapply at_frame|]. unfold phase; cbn. by rewrite Hsk, Hc.
Qed.

(** A record that ends the stream. *)
Lemma dispatch_eof fuel q T tx pad tail y :
  Z.of_nat (length pad) <= 255 -> is_byte T -> 0 < requestId q < 65536 -> T <> FCGI_BEGIN_REQUEST ->
  loop_at q T tx [] [] (pad ++ tail) false false y ->
  exists y', dispatch fuel (record_header (mkRecord T (requestId q) [] pad)) y = Ret y' /\
    at_ q T tx (pad ++ tail) y' /\ phase y' = (0, Z.of_nat (length pad), false, false, true) /\
    (rdNext (strm y') <= buffStop (sdata y'))%nat.
Proof.
  intros Hpad HT Hq0 HTb Hy. set (r := mkRecord _ _ _ _).
  assert (record_ok r) as Hr by (unfold record_ok, is_byte in *; cbn; lia).
  destruct (header_state_at q T tx r tail y Hy) as [Hh Heq].
  pose proof (proj1 (proj2 Hh)) as Hat. destruct Hy as [Hy Hph].
  rewrite dispatch_header by done. cbn [rec_type rec_id r].
  rewrite (at_req _ _ _ _ _ _ _ _ _ Hy), (at_type _ _ _ _ _ _ _ _ _ Hy), !Z.eqb_refl.
  destruct (Z.eqb_spec T FCGI_BEGIN_REQUEST); [done|].
  destruct (Z.eqb_spec (requestId q) FCGI_NULL_REQUEST_ID); [unfold FCGI_NULL_REQUEST_ID in *; lia|].
  eexists. split; [reflexivity|]. injection Hph as Hcl Hpl Hsk Heor Hclosed.
  split_and!; [by eapply at_frame| |].
  - unfold phase; cbn. by rewrite Hsk.
  - apply (at_ptr _ _ _ _ _ _ _ _ _ Hat).
Qed.

(** The stream has ended with error [e], which is not 0 for an abnormal end; what
    was written to the connection is [tx]. *)
Definition closed_with (e : Z) q tx y : Prop :=
  isClosed (strm y) = true /\ FCGI_errno (strm y) = e /\ isReader (strm y) = true /\
  req y = q /\ exists c, k_conns (kern (os y)) !! fd = Some c /\ c_tx c = tx.

Lemma SetError_closed e q T tx flat y :
  at_ q T tx flat y -> closed_with e q tx (SetError e y).
Proof.
  intros [_ _ (chunks & wr & Ho & _) Hq Hfd _ Hr He].
  unfold SetError. rewrite He. cbn [Z.eqb]. split_and!; try done.
  eexists. split; [cbn; rewrite Ho; apply put_conn_lookup|]. done.
Qed.

Lemma dispatch_version fuel q T tx hdr rest y :
  nth 0 hdr 0 <> FCGI_VERSION_1 -> loop_at q T tx [] [] rest false false y ->
  exists y', dispatch fuel hdr y = Ret y' /\ closed_with FCGX_UNSUPPORTED_VERSION q tx y'.
Proof.
  intros Hv [Hy _]. unfold dispatch, ProcessHeader. cbn [header_of_bytes version].
  destruct (Z.eqb_spec (nth 0 hdr 0) FCGI_VERSION_1); [done|]. cbn [negb obind].
  eexists. split; [reflexivity|]. eapply SetError_closed, at_frame; [exact Hy|done..].
Qed.

Lemma dispatch_type fuel q T tx r rest y :
  record_ok r -> rec_id r = requestId q -> rec_type r <> T ->
  rec_type r <> FCGI_BEGIN_REQUEST -> requestId q <> 0 ->
  loop_at q T tx [] [] rest false false y ->
  exists y', dispatch fuel (record_header r) y = Ret y' /\ closed_with FCGX_PROTOCOL_ERROR q tx y'.
Proof.
  intros Hr Hid HT Hb Hq0 [Hy _]. rewrite dispatch_header by done.
  rewrite (at_req _ _ _ _ _ _ _ _ _ Hy), (at_type _ _ _ _ _ _ _ _ _ Hy), Hid, Z.eqb_refl.
  destruct (Z.eqb_spec (rec_type r) FCGI_BEGIN_REQUEST); [done|].
  destruct (Z.eqb_spec (requestId q) FCGI_NULL_REQUEST_ID); [done|].
  destruct (Z.eqb_spec (rec_type r) T); [done|]. cbn [negb obind].
  eexists. split; [reflexivity|]. eapply SetError_closed, at_frame; [exact Hy|done..].
Qed.

(** ** The body of a record as a source *)

Definition reads_body fuel q T tx pad rest d y : Prop :=
  deliver_at q T tx d pad rest true y /\ pad ++ rest <> [] /\ (length pad < fuel)%nat.
Definition ended_body q T tx rest y : Prop :=
  at_ q T tx rest y /\ phase y = (0, 0, false, true, true).

#[export] Instance body_source fuel q T tx pad rest :
  Source (loop fuel []) (reads_body fuel q T tx pad rest) (ended_body q T tx rest).
Proof.
  constructor.
  - intros d y [Hy _]. by eapply deliver_open.
  - intros d y n (Hy & Hne & Hf) Hn. split_and!; [by apply deliver_take|done|done].
  - intros d y u (Hy & Hne & Hf). split_and!; [by apply deliver_mark|done|done].
  - intros d y r c (Hy & Hne & Hf) Hr. split_and!; [by apply deliver_back|done|done].
  - intros d y (Hy & Hne & Hf) Heq. pose proof (deliver_start _ _ _ _ _ _ _ _ Hy Heq) as Hl.
    destruct (decide (d = [])) as [->|Hd].
    + destruct (loop_body_end fuel q T tx pad rest y Hl Hne Hf) as (y' & -> & He).
      exists y'. split; [done|]. by left.
    + destruct fuel as [|fuel]; [lia|].
      destruct (loop_deliver fuel [] q T tx d pad rest true y Hl Hd) as (y' & -> & Hy' & Hlt).
      exists y'. split; [done|]. right. by split_and!.
  - intros y [_ Hph]. by injection Hph.
Qed.

Lemma dispatch_values fuel q T tx r ps rest y :
  record_ok r -> rec_type r = FCGI_GET_VALUES -> rec_id r = FCGI_NULL_REQUEST_ID ->
  rec_content r = encode_pairs ps -> Forall pair_ok ps ->
  Forall (fun nv => Forall (fun c => c <> 0 /\ c <> 61) nv.1) ps ->
  (length (values_content ps) <= 55)%nat -> length stack = 64%nat ->
  rec_padding r ++ rest <> [] ->
  (length (rec_content r ++ rec_padding r) + 1 < fuel)%nat ->
  loop_at q T tx [] [] (rec_content r ++ rec_padding r ++ rest) false false y ->
  side_result fuel q T tx r rest (encode_record (values_record stack ps)) y.
Proof.
  intros Hr Hg H0 Hc Hps Hnames Hfit Hstack Hne Hf Hy. unfold side_result.
  rewrite dispatch_header by done. rewrite Hg, H0.
  destruct (header_state_at _ _ _ _ _ _ Hy) as [Hh Heq].
  cbn [Z.eqb Pos.eqb FCGI_GET_VALUES FCGI_BEGIN_REQUEST FCGI_NULL_REQUEST_ID].
  unfold ProcessManagementRecord.
  destruct (NewParams_ok 3) as (p0 & -> & Hp0 & Hv0); [lia|]. cbn [obind].
  rewrite length_app in Hf. rewrite Hc in Hf, Hh.
  destruct (ReadParams_source (SO := body_source fuel q T tx (rec_padding r) rest)
    fuel ps p0 (header_state r y)) as (p1 & y1 & -> & [Hy1 Hph1] & Hp1 & Hv1); try done; try lia.
  { split_and!; [done|done|lia]. }
  { rewrite Hv0. pose proof (length_encode_pairs ps Hps).
    assert (Z.of_nat (length (rec_content r)) <= 65535) by apply Hr. rewrite Hc in *. cbn [length]. lia. }
  cbn [obind Z.eqb Pos.eqb]. unfold FCGX_GetError. rewrite (at_errno _ _ _ _ _ _ _ _ _ Hy1).
  injection Hph1 as Hcl Hpl Hsk Heor Hclosed. rewrite Hcl. cbn [Z.eqb negb orb].
  rewrite Hv1, Hv0. cbn [app]. unfold FCGI_HEADER_LEN.
  rewrite get_values_loop_ok by (done || lia). cbn [obind].
  set (content := values_content ps) in *.
  replace (Z.of_nat (8 + length content) - 8) with (Z.of_nat (length content)) by lia.
  set (n := Z.of_nat (length content)).
  pose proof (AlignInt8_bounds n ltac:(lia)) as [Hal Hal8].
  assert (AlignInt8 n <= 56) as Hal56.
  { pose proof (Z.div_mod (AlignInt8 n) 8). lia. }
  destruct (MakeHeader_record FCGI_GET_VALUES_RESULT FCGI_NULL_REQUEST_ID n (AlignInt8 n - n))
    as (h & -> & Hb); [unfold is_byte, FCGI_GET_VALUES_RESULT; lia|unfold FCGI_NULL_REQUEST_ID; lia|lia..|].
  cbn [obind].
  set (tail := values_tail stack content).
  assert (response_with stack 8 content = take 8 stack ++ content ++ tail) as Hresp by done.
  assert (length tail = 56 - length content)%nat as Htail.
  { unfold tail, values_tail. destruct content; cbn [length] in *; rewrite length_drop; lia. }
  assert (take (Z.to_nat (8 + AlignInt8 n)) (mem_write (response_with stack 8 content) 0 (header_bytes h))
    = encode_record (values_record stack ps)) as ->.
  { unfold mem_write. rewrite take_0, Hresp. cbn [app Nat.add].
    rewrite length_header_bytes, drop_app_length' by (rewrite length_take; unfold FCGI_HEADER_LEN; lia).
    unfold values_record. fold content. fold n. rewrite <-Hb; [|done|].
    - rewrite take_app_ge by (rewrite length_header_bytes; unfold FCGI_HEADER_LEN; lia). f_equal.
      rewrite length_header_bytes. unfold FCGI_HEADER_LEN. rewrite take_app_ge by lia. do 2 f_equal.
      lia.
    - fold tail. rewrite length_take. lia. }
  edestruct (send_response_ok q T tx) as (o & -> & Ho); [exact Hy1|]. cbn [obind].
  eexists _, [], []. split; [reflexivity|]. split; [|cbn; lia].
  split; [by eapply at_frame|]. unfold phase; cbn. by rewrite Hcl, Hpl, Hsk.
Qed.

(** ** The end of the connection *)

Lemma fill_end_closed e q T tx y :
  at_ q T tx [] y ->
  (later = [] /\ e = FCGX_PROTOCOL_ERROR \/ exists evs, later = RErr e :: evs) ->
  exists y', fill_read y = Returns y' /\ closed_with e q tx y'.
Proof.
  intros Hy He. destruct (fill_read_end q T tx y e later Hy eq_refl) as (y' & H & ? & ? & ? & ? & ?).
  - by destruct He as [[-> ->]|[evs ->]].
  - by exists y'.
Qed.

Lemma loop_short fuel hdr e q T tx cont pad x y :
  skip_at q T tx cont pad x false y -> (length (hdr ++ x) < 8)%nat ->
  (hdr <> [] -> cont ++ pad = []) -> (length (cont ++ pad ++ x) < fuel)%nat ->
  (later = [] /\ e = FCGX_PROTOCOL_ERROR \/ exists evs, later = RErr e :: evs) ->
  exists y', loop fuel hdr y = Ret y' /\ closed_with e q tx y'.
Proof.
  intros Hy Hh Hcp Hf He. revert hdr cont pad x y Hy Hh Hcp Hf.
  induction fuel as [|fuel IH]; intros hdr cont pad x y Hy Hh Hcp Hf; [lia|].
  assert (forall a b, length (a ++ b ++ x) = length (a ++ b) + length x)%nat as L
    by (intros a b; rewrite !length_app; lia).
  destruct (decide (cont ++ pad ++ x = [])) as [Hnil|Hne].
  { destruct Hy as [Hy _]. rewrite Hnil in Hy.
    destruct (fill_end_closed e q T tx y Hy He) as (y' & Hr & Hc).
    exists y'. split; [|done]. cbn [FillBuff_loop]. by rewrite Hr. }
  rewrite length_app in Hh.
  destruct (loop_turn fuel hdr q T tx cont pad x y Hy) as
    [(y1 & cont' & pad' & -> & Hy1 & Hcp1 & Hl)|(y1 & n & Hn & Hn8 & Hpos & -> & Hy1)]; try done; try lia.
  - apply (IH hdr cont' pad' x y1); try done; [by rewrite length_app|].
    rewrite L in Hf. rewrite L. lia.
  - destruct (Nat.ltb_spec (length hdr + n) 8); [|lia].
    apply (IH (hdr ++ take n x) [] [] (drop n x) y1); try done.
    + rewrite <-app_assoc, take_drop, length_app. done.
    + cbn [app]. rewrite length_drop. rewrite L in Hf.
      destruct (decide (cont ++ pad = [])) as [E|E]; [specialize (Hpos E); lia|].
      destruct (cont ++ pad); [done|cbn [length] in *; lia].
Qed.

(** ** The begin record of a request *)

(** The request after its begin record [r] has been read. *)
Definition begun q (r : record) : FCGX_Request :=
  let body := begin_body_of_bytes (rec_content r) in
  set_isBeginProcessed true
    (set_role (Z.shiftl (roleB1 body) 8 + roleB0 body)
      (set_keepConnection (negb (Z.land (begin_flags body) FCGI_KEEP_CONN =? 0))
        (set_requestId (rec_id r) q))).

Lemma at_set_req q q' T tx flat y :
  at_ q T tx flat y -> ipcFd q' = ipcFd q -> at_ q' T tx flat (set_req q' y).
Proof. intros [] Hfd. constructor; cbn; try done. congruence. Qed.

Lemma begin_fill fuel q T tx r rest y :
  at_ q T tx (encode_record r ++ rest) y -> phase y = (0, 0, false, false, false) ->
  isBeginProcessed q = false -> rec_type r = FCGI_BEGIN_REQUEST -> rec_id r <> 0 ->
  record_ok r -> length (rec_content r) = 8%nat -> rec_padding r = [] -> rest <> [] ->
  (20 < fuel)%nat ->
  exists y', loop fuel [] y = Ret y' /\ at_ (begun q r) T tx rest y' /\
    phase y' = (0, 0, false, false, false).
Proof.
  intros Hy Hph Hb Ht H0 Hr Hl Hpad Hrest Hf.
  rewrite encode_record_split, <-!app_assoc in Hy.
  destruct (loop_header fuel [] q T tx [] [] (record_header r) (rec_content r ++ rec_padding r ++ rest) y)
    as (f' & y1 & -> & Hf1 & Hy1); try done; [cbn; lia|]. cbn [app length record_header] in Hf1.
  destruct (header_state_at q T tx r rest y1 Hy1) as [Hh Heq]. destruct Hy1 as [Hy1 _].
  change ([] ++ record_header r) with (record_header r). rewrite dispatch_header, Ht by done.
  cbn [Z.eqb Pos.eqb FCGI_BEGIN_REQUEST]. unfold ProcessBeginRecord.
  destruct (Z.eqb_spec (rec_id r) 0); [done|]. cbn [orb].
  assert ((contentLen (sdata (header_state r y1)) =? 8) = true) as ->
    by (apply Z.eqb_eq; cbn; by rewrite Hl).
  cbn [negb]. pose proof (proj1 (proj2 Hh)) as Hat. rewrite (at_req _ _ _ _ _ _ _ _ _ Hat), Hb.
  rewrite Hpad in Hh. set (q1 := set_requestId (rec_id r) q).
  assert (reads_body f' q1 T tx [] rest (rec_content r ++ [])
    (upd_req (set_requestId (rec_id r)) (header_state r y1))) as Hbody.
  { rewrite app_nil_r. split_and!; [|done|cbn; lia].
    destruct Hh as (Hp & Hat' & cont & Hc & Hphh). split; [done|]. split; [|by exists cont].
    unfold upd_req. rewrite (at_req _ _ _ _ _ _ _ _ _ Hat').
    by apply at_set_req with (q := q). }
  destruct (GetStr_exact (SO := body_source f' q1 T tx [] rest) f' (rec_content r) [] 8
    _ Hbody) as (y2 & -> & (_ & Hy2 & cont & Hnil & Hph2) & _);
    [rewrite length_app; cbn; lia|by rewrite Hl|].
  cbn [obind]. rewrite Hl. cbn [Z.of_nat Z.eqb Pos.eqb Pos.of_succ_nat Pos.succ negb obind].
  symmetry in Hnil. apply app_eq_nil in Hnil as [_ ->]. cbn [app] in Hy2.
  injection Hph2 as Hcl Hpl Hsk Heor Hclosed.
  eexists. split; [reflexivity|].
  unfold begun. split; [|unfold phase; cbn; by rewrite Hcl, Hpl, Hsk].
  pose proof (at_req _ _ _ _ _ _ _ _ _ Hy2) as Hq2. unfold upd_req; cbn. rewrite Hq2.
  eapply at_frame; [apply at_set_req with (q := q1); [exact Hy2|]|..]; done.
Qed.

(** ** A stream of records as a source *)

Section Stream.
Context (q : FCGX_Request) (T : Z) (last : list Z) (e : Z) (base : list Z).
Context (HT : is_byte T) (HTb : T <> FCGI_BEGIN_REQUEST) (Hid : 0 < requestId q < 65536).
Context (Hstack : length stack = 64%nat) (Hend : ending q T later last e).

(** The records [rs] and the bytes [last] are still to come; the connection has
    received [base] and some answers, and will have received [total] when [d] has
    been delivered. *)
Definition reads_stream (fuel : nat) (total d : list Z) y : Prop :=
  exists c pad rs d' tx rep,
    d = c ++ d' /\ (base `prefix_of` tx /\ tx ++ rep = total) /\
    deliver_at q T tx c pad (encode_records rs ++ last) false y /\
    wires stack q T last rs d' rep /\
    (length (pad ++ encode_records rs ++ last) + 2 < fuel)%nat.

Definition ended_stream (total : list Z) y : Prop :=
  closed_with e q total y /\
  forall pad tail, last = encode_record (mkRecord T (requestId q) [] pad) ++ tail ->
    at_ q T total (pad ++ tail) y /\ phase y = (0, Z.of_nat (length pad), false, false, true).

Lemma at_closed tx flat y :
  at_ q T tx flat y -> isClosed (strm y) = true -> closed_with 0 q tx y.
Proof.
  intros Hy Hc. split_and!; try apply Hy; try done.
  destruct Hy as [_ _ (chunks & wr & Ho & _)]. eexists. split; [rewrite Ho; apply put_conn_lookup|done].
Qed.

(** All records have been read. *)
Lemma stream_end fuel tx cont pad y :
  skip_at q T tx cont pad last false y -> (length (cont ++ pad ++ last) + 2 < fuel)%nat ->
  exists y', loop fuel [] y = Ret y' /\ ended_stream tx y'.
Proof.
  intros Hy Hf. unfold ended_stream.
  assert (forall x rest (P : sys -> Prop), last = x ++ rest -> length x = 8%nat ->
    (forall fuel' y', loop_at q T tx [] [] rest false false y' ->
       exists y'', dispatch fuel' x y' = Ret y'' /\ P y'') ->
    exists y', loop fuel [] y = Ret y' /\ P y') as Hdisp.
  { intros x rest P Hl Hx HP. rewrite Hl in Hy, Hf.
    destruct (loop_header fuel [] q T tx cont pad x rest y Hy) as (f' & y1 & -> & _ & Hy1); try done.
    - by destruct x.
    - rewrite !length_app in *. lia.
    - by apply HP. }
  destruct Hend as [pad' tail Hpad|last Hl Hlat|last e' evs Hl Hlat|last Hl Hv|r tail Hr Hri Hrt Hrb].
  - apply Hdisp with (x := record_header (mkRecord T (requestId q) [] pad')) (rest := pad' ++ tail);
      [|done|].
    { rewrite encode_record_split. cbn [rec_content rec_padding app]. by rewrite <-app_assoc. }
    intros fuel' y1 Hy1.
    destruct (dispatch_eof fuel' q T tx pad' tail y1 Hpad HT Hid HTb Hy1) as (y2 & -> & Hy2 & Hph & _).
    exists y2. split; [done|]. split; [eapply at_closed; [done|by injection Hph]|].
    intros pad2 tail2 Heq. rewrite !encode_record_split in Heq. cbn [rec_content rec_padding app] in Heq.
    rewrite <-!app_assoc in Heq.
    assert (length pad' = length pad2) as Hlen
      by (apply (f_equal (nth 6)) in Heq; apply (f_equal (fun f => f 0)) in Heq; cbn in Heq; lia).
    apply app_inj_1 in Heq as [_ Heq]; [|done]. apply app_inj_1 in Heq as [-> ->]; [|done]. done.
  - destruct (loop_short fuel [] FCGX_PROTOCOL_ERROR q T tx cont pad last y Hy) as (y' & -> & Hc);
      try done; try lia; [by left|]. exists y'. split; [done|]. split; [done|].
    intros pad2 tail2 ->. rewrite length_app, length_encode_record in Hl. lia.
  - destruct (loop_short fuel [] e' q T tx cont pad last y Hy) as (y' & -> & Hc);
      try done; try lia; [right; by exists evs|]. exists y'. split; [done|]. split; [done|].
    intros pad2 tail2 ->. rewrite length_app, length_encode_record in Hl. lia.
  - apply Hdisp with (x := take 8 last) (rest := drop 8 last); [by rewrite take_drop| |].
    { rewrite length_take. lia. }
    intros fuel' y1 Hy1.
    destruct (dispatch_version fuel' q T tx (take 8 last) (drop 8 last) y1) as (y2 & -> & Hc); [|done|].
    { by destruct last. }
    exists y2. split; [done|]. split; [done|]. intros pad2 tail2 ->. done.
  - apply Hdisp with (x := record_header r) (rest := rec_content r ++ rec_padding r ++ tail); [|done|].
    { rewrite encode_record_split. by rewrite <-!app_assoc. }
    intros fuel' y1 Hy1.
    destruct (dispatch_type fuel' q T tx r _ y1 Hr Hri Hrt Hrb ltac:(lia) Hy1) as (y2 & -> & Hc).
    exists y2. split; [done|]. split; [done|]. intros pad2 tail2 Heq.
    rewrite !encode_record_split in Heq. injection Heq. done.
Qed.

Lemma stream_fill F fuel tx cont pad rs d rep y :
  skip_at q T tx cont pad (encode_records rs ++ last) false y ->
  wires stack q T last rs d rep -> base `prefix_of` tx ->
  (length (cont ++ pad ++ encode_records rs ++ last) + 2 < fuel <= F)%nat ->
  exists y', loop fuel [] y = Ret y' /\
    ((d = [] /\ ended_stream (tx ++ rep) y') \/
     (d <> [] /\ reads_stream F (tx ++ rep) d y' /\ (rdNext (strm y') < stop (strm y'))%nat)).
Proof.
  intros Hy Hw. revert fuel tx cont pad y Hy.
  induction Hw as [|r rs d1 d2 rep1 rep2 Hr Hw Hval Hws IH]; intros fuel tx cont pad y Hy Hpre Hf.
  { destruct (stream_end fuel tx cont pad y Hy) as (y' & -> & He); [apply Hf|].
    exists y'. rewrite app_nil_r. split; [done|]. by left. }
  rewrite encode_records_cons, encode_record_split, <-!app_assoc in Hy, Hf.
  assert (length (record_header r) = 8%nat) as H8 by done.
  destruct (loop_header fuel [] q T tx cont pad (record_header r)
    (rec_content r ++ rec_padding r ++ encode_records rs ++ last) y Hy) as (f' & y1 & -> & Hf1 & Hy1);
    try done; [rewrite !length_app in *; lia|]. cbn [app].
  rewrite !length_app in Hf, Hf1. rewrite (length_app (record_header r)), !length_app, H8 in Hf.
  rewrite H8 in Hf1. set (rest := encode_records rs ++ last) in *.
  assert (length rest = length (encode_records rs) + length last)%nat as Hrest
    by (unfold rest; by rewrite length_app).
  assert (Hside : side_result f' q T tx r rest rep1 y1 -> d1 = [] ->
    exists y', dispatch f' (record_header r) y1 = Ret y' /\
    ((d1 ++ d2 = [] /\ ended_stream (tx ++ rep1 ++ rep2) y') \/
     (d1 ++ d2 <> [] /\ reads_stream F (tx ++ rep1 ++ rep2) (d1 ++ d2) y' /\
      (rdNext (strm y') < stop (strm y'))%nat))).
  { intros (y2 & cont2 & pad2 & -> & Hy2 & Hl2) ->. cbn [app]. rewrite app_assoc.
    apply (IH f' (tx ++ rep1) cont2 pad2 y2); [done|by apply prefix_app_r|]. rewrite !length_app in *. lia. }
  destruct Hw as [r HrT Hri Hne|r Hrb Hr0 Hri Hne|r Hrb Hr0 Hl Hbeg|r Hrb Hr0 Hg Hc|r ps Hg Hr0 Hc Hps Hnm Hfit].
  - clear Hside. destruct (dispatch_data f' q T tx r rest y1) as (y2 & -> & Hy2); try done; [lia|].
    destruct f' as [|f']; [lia|].
    destruct (loop_deliver f' [] q T tx (rec_content r) (rec_padding r) rest false y2 Hy2 Hne)
      as (y3 & -> & Hy3 & Hlt).
    exists y3. split; [done|]. right. split; [by destruct (rec_content r)|]. split; [|done].
    exists (rec_content r), (rec_padding r), rs, d2, tx, rep2. split_and!; try done.
    fold rest. rewrite length_app. lia.
  - apply Hside; [|done]. by apply dispatch_foreign.
  - apply Hside; [|done]. by apply dispatch_begin.
  - apply Hside; [|done]. by apply dispatch_unknown.
  - apply Hside; [|done]. apply dispatch_values; try done; [by apply Hval|].
    rewrite length_app. lia.
Qed.

#[export] Instance stream_source fuel total :
  Source (loop fuel []) (reads_stream fuel total) (ended_stream total).
Proof.
  constructor.
  - intros d y (c & pad & rs & d' & tx & rep & -> & _ & Hy & _).
    destruct (deliver_open _ _ _ _ _ _ _ _ Hy) as (H1 & H2 & H3 & rest & ->).
    split_and!; [done..|lia|lia|]. exists (rest ++ d'). by rewrite app_assoc.
  - intros d y n (c & pad & rs & d' & tx & rep & -> & [Hpre Ht] & Hy & Hw & Hf) Hn.
    destruct (deliver_open _ _ _ _ _ _ _ _ Hy) as (_ & _ & H3 & rest & Hc).
    exists (drop n c), pad, rs, d', tx, rep. split_and!; try done; [|by apply deliver_take].
    apply drop_app_le. rewrite Hc, length_app, length_slice by lia. lia.
  - intros d y u (c & pad & rs & d' & tx & rep & -> & [Hpre Ht] & Hy & Hw & Hf).
    exists c, pad, rs, d', tx, rep. split_and!; try done. by apply deliver_mark.
  - intros d y r x (c & pad & rs & d' & tx & rep & -> & [Hpre Ht] & Hy & Hw & Hf) Hr.
    exists (u8 x :: c), pad, rs, d', tx, rep. split_and!; try done. by apply deliver_back.
  - intros d y (c & pad & rs & d' & tx & rep & -> & [Hpre <-] & Hy & Hw & Hf) Heq.
    pose proof (deliver_start _ _ _ _ _ _ _ _ Hy Heq) as Hl.
    destruct (decide (c = [])) as [->|Hc].
    + cbn [app]. apply (stream_fill fuel fuel tx [] pad rs d' rep y); [done..|]. cbn [app]. lia.
    + destruct fuel as [|fuel]; [lia|].
      destruct (loop_deliver fuel [] q T tx c pad _ false y Hl Hc) as (y' & -> & Hy' & Hlt).
      exists y'. split; [done|]. right. split_and!; [by destruct c| |done].
      by exists c, pad, rs, d', tx, rep.
  - intros y [(Hc & _) _]. done.
Qed.
End Stream.
End Stages.

(** ** Theorems *)

Lemma wires_data_length stack q T last rs d rep :
  wires stack q T last rs d rep -> (length d <= length (encode_records rs))%nat.
Proof.
  induction 1 as [|r rs d1 d2 rep1 rep2 Hr Hw _ _ IH]; [done|].
  rewrite encode_records_cons, !length_app, length_encode_record.
  destruct Hw; cbn [length]; lia.
Qed.

(** A reader of records of type [T], between records, with [residual] in its buffer:
    what NewReader makes, and SetReaderType of a stream that has ended. *)
Record reader_ready (T : Z) (residual : list Z) (s : FCGX_Stream) : Prop := {
  rr_reader : isReader s = true;
  rr_open : isClosed s = false;
  rr_errno : FCGI_errno s = 0;
  rr_empty : rdNext s = stop s;
  rr_ptr : (stop s <= buffStop (data s) <= bufflen (data s))%nat;
  rr_len : (0 < bufflen (data s) <= length (buff (data s)))%nat;
  rr_type : sd_type (data s) = T;
  rr_phase : contentLen (data s) = 0 /\ paddingLen (data s) = 0 /\ skip (data s) = false /\
    eorStop (data s) = false;
  rr_residual : residual = slice (buff (data s)) (rdNext s) (buffStop (data s))
}.

Lemma ready_at T residual s q o c chunks later :
  reader_ready T residual s -> k_conns (kern o) !! ipcFd q = Some c ->
  c_rx c = map RData chunks ++ later -> Forall (fun b => b <> []) chunks -> wtakes (c_wr c) ->
  at_ o c (ipcFd q) later q T (c_tx c) (residual ++ concat chunks) (mkSys s q o).
Proof.
  intros [Hr Ho He Heq Hp Hl HT Hph ->] Hc Hrx Hch Hw. constructor; cbn; try done; [lia|].
  exists chunks, (c_wr c). split_and!; try done. symmetry. apply put_conn_id.
  rewrite Hc, <-Hrx. by destruct c.
Qed.

Lemma at_stream o c fd later stack q T last base fuel rs d rep y :
  at_ o c fd later q T base (encode_records rs ++ last) y ->
  phase y = (0, 0, false, false, false) -> rdNext (strm y) = stop (strm y) ->
  wires stack q T last rs d rep -> (length (encode_records rs ++ last) + 2 < fuel)%nat ->
  reads_stream o c fd later stack q T last base fuel (base ++ rep) d y.
Proof.
  intros Hat Hph Heq Hws Hf. exists [], [], rs, d, base, rep. split_and!; try done.
  split; [pose proof (at_ptr _ _ _ _ _ _ _ _ _ Hat); lia|]. split; [done|].
  exists []. by rewrite Heq, slice_nil.
Qed.

Lemma ready_stream stack T residual s q o c chunks later fuel rs last d rep :
  reader_ready T residual s -> k_conns (kern o) !! ipcFd q = Some c ->
  c_rx c = map RData chunks ++ later -> Forall (fun b => b <> []) chunks -> wtakes (c_wr c) ->
  residual ++ concat chunks = encode_records rs ++ last ->
  wires stack q T last rs d rep ->
  (length (residual ++ concat chunks) + 2 < fuel)%nat ->
  reads_stream o c (ipcFd q) later stack q T last (c_tx c) fuel (c_tx c ++ rep) d (mkSys s q o).
Proof.
  intros Hs Hc Hrx Hch Hw Hflat Hws Hf.
  pose proof (ready_at T residual s q o c chunks later Hs Hc Hrx Hch Hw) as Hat.
  rewrite Hflat in *. destruct Hs as [_ Hop _ Heq ? _ _ (H1 & H2 & H3 & H4) _].
  apply at_stream with (rs := rs); try done. unfold phase; cbn. by rewrite H1, H2, H3, H4, Hop.
Qed.

(** C4.  An input stream delivers exactly the bytes it was sent.  Let the buffer and
    the connection hold, cut into reads in any way, the records [rs] and then an
    [ending]: records of the stream, records of other requests, begin records and
    management records, in any order.  Then any sequence of FCGX_GetStr, FCGX_GetChar,
    FCGX_GetLine and FCGX_UnGetChar returns what it would return on the list [d] of the
    contents of the stream's records; the connection has received a prefix of the
    answers [rep]; and once the end is seen the error is that of the ending and all
    answers have been sent.  In particular no operation blocks, loops or crashes. *)
Theorem input_stream_refines stack T residual s q o c chunks later rs last d rep e ops fuel :
  reader_ready T residual s -> k_conns (kern o) !! ipcFd q = Some c ->
  c_rx c = map RData chunks ++ later -> Forall (fun b => b <> []) chunks -> wtakes (c_wr c) ->
  residual ++ concat chunks = encode_records rs ++ last ->
  wires stack q T last rs d rep -> ending q T later last e ->
  shutdownNow o = false -> length stack = 64%nat ->
  is_byte T -> T <> FCGI_BEGIN_REQUEST -> 0 < requestId q < 65536 -> Forall is_byte d ->
  (length (residual ++ concat chunks) + 2 < fuel)%nat ->
  exists y', run_rops (FillBuffProc stack fuel) fuel ops (mkSys s q o)
      = Ret ((spec_rops ops d).1, y') /\
    exists c' rep1 rep2, rep = rep1 ++ rep2 /\
      k_conns (kern (os y')) !! ipcFd q = Some c' /\ c_tx c' = c_tx c ++ rep1 /\
      (isClosed (strm y') = true ->
         (spec_rops ops d).2 = [] /\ FCGI_errno (strm y') = e /\ rep2 = []).
Proof.
  intros Hs Hc Hrx Hch Hw Hflat Hws Hend Hsh Hst HT HTb Hid Hb Hf.
  pose proof (ready_stream stack T residual s q o c chunks later fuel rs last d rep
    Hs Hc Hrx Hch Hw Hflat Hws Hf) as Hy.
  pose proof (wires_data_length _ _ _ _ _ _ _ Hws) as Hlen.
  rewrite Hflat, length_app in Hf.
  destruct (run_rops_source (SO := stream_source o c (ipcFd q) later Hsh stack q T last e (c_tx c)
    HT HTb Hid Hst Hend fuel (c_tx c ++ rep)) fuel ops d (mkSys s q o)) as (y' & Hrun & Hy');
    [left; split; [done|left; apply Hs]|done|lia|].
  exists y'. split; [exact Hrun|].
  destruct Hy' as [[(c1 & pad & rs' & d' & tx & rep2 & _ & [[rep1 ->] Ht] & Hd & Hw' & _) _]
    |[Hd [(Hcl & He & _ & _ & c' & Hc' & Htx) _]]].
  - pose proof Hd as (_ & [_ _ (ch & wr & Ho & _)] & _).
    destruct (deliver_open _ _ _ _ _ _ _ _ _ _ _ _ Hd) as (Hcl & _).
    rewrite <-app_assoc in Ht. apply app_inv_head in Ht.
    eexists _, rep1, rep2. rewrite Ho, put_conn_lookup. split_and!; try done. by rewrite Hcl.
  - exists c', rep, []. rewrite app_nil_r. by split_and!.
Qed.

(** A reader with 32 bytes of buffer, four of them still unread. *)
Definition demo_reader (T : Z) (residual : list Z) : FCGX_Stream :=
  mkStream 0 0 0 (Some 0%nat) true false false 0
    (mkData (residual ++ replicate (32 - length residual) 0) 32 8 (length residual) T
       false false 0 0 false false).

(** The input in pieces of [n + 1] bytes. *)
Fixpoint chop (fuel n : nat) (bs : list Z) : list (list Z) :=
  match fuel, bs with
  | S fuel, b :: bs => (b :: take n bs) :: chop fuel n (drop n bs)
  | _, _ => []
  end.

Definition demo_begin (id : Z) : record :=
  mkRecord FCGI_BEGIN_REQUEST id [0; 1; 1; 0; 0; 0; 0; 0] [].
Definition demo_pairs : list (list Z * list Z) := [(b! "FCGI_MAX_CONNS", []); (b! "X", [])].
Definition demo_records : list record :=
  [mkRecord FCGI_STDIN 9 [1; 2] [0]; mkRecord FCGI_GET_VALUES 0 (encode_pairs demo_pairs) [];
   mkRecord 99 0 [] []; mkRecord FCGI_STDIN 7 (b! "hello") [0; 0; 0]; demo_begin 8;
   mkRecord FCGI_STDIN 7 (b! "world") []].
Definition demo_last : list Z := encode_record (mkRecord FCGI_STDIN 7 [] [0; 0]) ++ [5; 6].
Definition demo_answers : list Z :=
  [] ++ encode_record (values_record (replicate 64 255) demo_pairs)
  ++ encode_record (unknown_type_record 99) ++ []
  ++ encode_record (end_request_record 8 0 FCGI_CANT_MPX_CONN) ++ [] ++ [].

(** Bounds on concrete values. *)
Ltac concrete_record := unfold record_ok, is_byte; cbv -[Z.le Z.lt]; lia.

Ltac concrete_forall :=
  vm_compute; repeat first [apply List.Forall_nil | apply List.Forall_cons]; vm_compute; lia.

Lemma demo_wires :
  wires (replicate 64 255) demo_request FCGI_STDIN demo_last demo_records
    (b! "helloworld") demo_answers.
Proof.
  change (b! "helloworld") with ([] ++ [] ++ [] ++ b! "hello" ++ [] ++ b! "world" ++ []).
  unfold demo_records, demo_answers.
  repeat (apply wires_cons; [concrete_record| |done|]); [..|apply wires_nil].
  - by apply wire_foreign.
  - eapply wire_values; try done; repeat constructor; concrete_record.
  - by apply wire_unknown.
  - by apply wire_data.
  - by apply wire_begin.
  - by apply wire_data.
Qed.

Definition demo_input : list Z := encode_records demo_records ++ demo_last.
Definition demo_in_conn : conn :=
  mkConn (map RData (chop 200 6 (drop 4 demo_input)) ++ []) [WTake 3] [] true [].
Definition demo_in_os : os_state := put_conn 5 demo_in_conn demo_os.

Lemma input_stream_refines_witness :
  exists y',
    run_rops (FillBuffProc (replicate 64 255) 300) 300 [RChar; RUnget 66; RStr 4; RLine 100; RChar]
      (mkSys (demo_reader FCGI_STDIN (take 4 demo_input)) demo_request demo_in_os)
      = Ret ([Char 104; Char 66; Bytes (b! "Bllo"); Line (Some (b! "world")); Char EOF], y') /\
    exists c' rep1 rep2, demo_answers = rep1 ++ rep2 /\
      k_conns (kern (os y')) !! 5 = Some c' /\ c_tx c' = [] ++ rep1 /\
      (isClosed (strm y') = true -> ([] : list Z) = [] /\ FCGI_errno (strm y') = 0 /\ rep2 = []).
Proof.
  apply (input_stream_refines (replicate 64 255) FCGI_STDIN (take 4 demo_input)
    (demo_reader FCGI_STDIN (take 4 demo_input)) demo_request demo_in_os demo_in_conn
    (chop 200 6 (drop 4 demo_input)) [] demo_records demo_last (b! "helloworld") demo_answers 0
    [RChar; RUnget 66; RStr 4; RLine 100; RChar] 300).
  - constructor; try reflexivity; vm_compute; first [lia | split_and!; reflexivity].
  - reflexivity.
  - reflexivity.
  - vm_compute. repeat constructor; intros [=].
  - repeat constructor.
  - reflexivity.
  - exact demo_wires.
  - apply (end_of_stream demo_request FCGI_STDIN [] [0; 0] [5; 6]). cbn. lia.
  - reflexivity.
  - reflexivity.
  - unfold is_byte, FCGI_STDIN; lia.
  - discriminate.
  - cbn. lia.
  - repeat constructor; unfold is_byte; cbn; lia.
  - vm_compute. lia.
Defined.

(** C5.  The parameters of a request arrive as they were sent.  When the data of the
    stream is the encoding of name-value pairs, ReadParams returns 0 with one string
    name=value per pair appended to the vector, in their order, and FCGX_GetParam
    finds for each name the value of the first pair of that name. *)
Theorem ReadParams_receives stack T residual s q o c chunks later rs last ps rep e p fuel name :
  reader_ready T residual s -> k_conns (kern o) !! ipcFd q = Some c ->
  c_rx c = map RData chunks ++ later -> Forall (fun b => b <> []) chunks -> wtakes (c_wr c) ->
  residual ++ concat chunks = encode_records rs ++ last ->
  wires stack q T last rs (encode_pairs ps) rep -> ending q T later last e ->
  shutdownNow o = false -> length stack = 64%nat ->
  is_byte T -> T <> FCGI_BEGIN_REQUEST -> 0 < requestId q < 65536 ->
  (length (residual ++ concat chunks) + 2 < fuel)%nat ->
  Forall pair_ok ps -> params_ok p ->
  Z.of_nat (length (vec p)) + Z.of_nat (length ps) < 2 ^ 29 ->
  plain_name name -> Forall (fun nv => plain_name nv.1) ps ->
  exists p' y', ReadParams (FillBuffProc stack fuel) fuel p (mkSys s q o) = Ret (0, p', y') /\
    params_ok p' /\ vec p' = vec p ++ map entry ps /\
    FCGX_GetParam (Some name) (Some (map entry ps)) = (fun v => v ++ [0]) <$> assoc name ps /\
    isClosed (strm y') = true /\ FCGI_errno (strm y') = e.
Proof.
  intros Hs Hc Hrx Hch Hw Hflat Hws Hend Hsh Hst HT HTb Hid Hf Hps Hp Hroom Hn Hns.
  pose proof (ready_stream stack T residual s q o c chunks later fuel rs last _ rep
    Hs Hc Hrx Hch Hw Hflat Hws Hf) as Hy.
  pose proof (wires_data_length _ _ _ _ _ _ _ Hws) as Hlen.
  rewrite Hflat, length_app in Hf.
  destruct (ReadParams_source (SO := stream_source o c (ipcFd q) later Hsh stack q T last e (c_tx c)
    HT HTb Hid Hst Hend fuel (c_tx c ++ rep)) fuel ps p (mkSys s q o) Hps Hy)
    as (p' & y' & Hr & Hy' & Hp' & Hv); [lia|done..|].
  exists p', y'. split_and!; try done; [|apply Hy'..].
  unfold FCGX_GetParam. rewrite <-GetParam_entries by done. f_equal.
  assert (forall n, Forall (fun c => c <> 0 /\ c <> 61) n -> cstr n = n) as Hcstr; [|by apply Hcstr].
  induction 1 as [|x n [Hx _] _ IH]; cbn; [done|]. destruct (Z.eqb_spec x 0); [done|]. by rewrite IH.
Qed.

Definition demo_params : list (list Z * list Z) := [(b! "A", b! "1"); (b! "B", []); (b! "A", b! "2")].
Definition demo_params_records : list record :=
  [mkRecord FCGI_PARAMS 7 (take 3 (encode_pairs demo_params)) [0];
   mkRecord FCGI_PARAMS 7 (drop 3 (encode_pairs demo_params)) []].
Definition demo_params_last : list Z := encode_record (mkRecord FCGI_PARAMS 7 [] []).
Definition demo_params_conn : conn :=
  mkConn (map RData (chop 100 4 (encode_records demo_params_records ++ demo_params_last)) ++ [])
    [] [] true [].

Lemma demo_params_wires :
  wires (replicate 64 0) demo_request FCGI_PARAMS demo_params_last demo_params_records
    (encode_pairs demo_params) ([] ++ [] ++ []).
Proof.
  change (encode_pairs demo_params)
    with (take 3 (encode_pairs demo_params) ++ drop 3 (encode_pairs demo_params) ++ []).
  unfold demo_params_records.
  repeat (apply wires_cons; [concrete_record| |done|]); [..|apply wires_nil]; by apply wire_data.
Qed.

Lemma ReadParams_receives_witness :
  exists p' y', ReadParams (FillBuffProc (replicate 64 0) 100) 100 (mkParams [] 30)
      (mkSys (demo_reader FCGI_PARAMS []) demo_request (put_conn 5 demo_params_conn demo_os))
      = Ret (0, p', y') /\
    params_ok p' /\ vec p' = [] ++ [b! "A=1" ++ [0]; b! "B=" ++ [0]; b! "A=2" ++ [0]] /\
    FCGX_GetParam (Some (b! "A")) (Some (map entry demo_params)) = Some (b! "1" ++ [0]) /\
    isClosed (strm y') = true /\ FCGI_errno (strm y') = 0.
Proof.
  apply (ReadParams_receives (replicate 64 0) FCGI_PARAMS [] (demo_reader FCGI_PARAMS [])
    demo_request (put_conn 5 demo_params_conn demo_os) demo_params_conn
    (chop 100 4 (encode_records demo_params_records ++ demo_params_last)) []
    demo_params_records demo_params_last demo_params ([] ++ [] ++ []) 0 (mkParams [] 30) 100 (b! "A")).
  - constructor; try reflexivity; vm_compute; first [lia | split_and!; reflexivity].
  - reflexivity.
  - reflexivity.
  - vm_compute. repeat constructor; intros [=].
  - repeat constructor.
  - reflexivity.
  - exact demo_params_wires.
  - rewrite <-(app_nil_r demo_params_last). apply (end_of_stream demo_request FCGI_PARAMS [] [] []).
    cbn. lia.
  - reflexivity.
  - reflexivity.
  - unfold is_byte, FCGI_PARAMS; lia.
  - discriminate.
  - cbn. lia.
  - vm_compute. lia.
  - repeat constructor; concrete_record.
  - unfold params_ok; cbn; lia.
  - cbn. lia.
  - concrete_forall.
  - concrete_forall.
Defined.
