(* ===== verification/FcgiRequest.v ===== *)
(** Requests: accepting and finishing them (cwf/libfcgi/fcgiapp.c, Control). *)
From Stdlib Require Import ZArith Lia Bool String.
From stdpp Require Import base list numbers gmap.
From S2P Require Import Prelude FcgiProto OsUnix FcgiStream FcgiSink FcgiWriter.
From S2P Require Import FcgiParams FcgiReader FcgiSource FcgiWire FcgiInput.

(** ** State *)

(** The request ([rq] holds its scalar fields), the globals of fcgiapp.c and the
    system. [None] stands for NULL. *)
Record fcgx := mkFcgx {
  rq : FCGX_Request;
  in_ : option FCGX_Stream;
  out : option FCGX_Stream;
  err : option FCGX_Stream;
  envp : option (list (list Z));
  paramsPtr : option Params;
  isFastCGI : Z;
  fcgx_libInitialized : bool;
  webServerAddressList : option (list Z);
  fos : os_state
}.

Definition set_rq (v : FCGX_Request) (g : fcgx) : fcgx :=
  {| rq := v; in_ := in_ g; out := out g; err := err g; envp := envp g;
     paramsPtr := paramsPtr g; isFastCGI := isFastCGI g;
     fcgx_libInitialized := fcgx_libInitialized g;
     webServerAddressList := webServerAddressList g; fos := fos g |}.
Definition set_in_ (v : option FCGX_Stream) (g : fcgx) : fcgx :=
  {| rq := rq g; in_ := v; out := out g; err := err g; envp := envp g;
     paramsPtr := paramsPtr g; isFastCGI := isFastCGI g;
     fcgx_libInitialized := fcgx_libInitialized g;
     webServerAddressList := webServerAddressList g; fos := fos g |}.
Definition set_out (v : option FCGX_Stream) (g : fcgx) : fcgx :=
  {| rq := rq g; in_ := in_ g; out := v; err := err g; envp := envp g;
     paramsPtr := paramsPtr g; isFastCGI := isFastCGI g;
     fcgx_libInitialized := fcgx_libInitialized g;
     webServerAddressList := webServerAddressList g; fos := fos g |}.
Definition set_err (v : option FCGX_Stream) (g : fcgx) : fcgx :=
  {| rq := rq g; in_ := in_ g; out := out g; err := v; envp := envp g;
     paramsPtr := paramsPtr g; isFastCGI := isFastCGI g;
     fcgx_libInitialized := fcgx_libInitialized g;
     webServerAddressList := webServerAddressList g; fos := fos g |}.
Definition set_envp (v : option (list (list Z))) (g : fcgx) : fcgx :=
  {| rq := rq g; in_ := in_ g; out := out g; err := err g; envp := v;
     paramsPtr := paramsPtr g; isFastCGI := isFastCGI g;
     fcgx_libInitialized := fcgx_libInitialized g;
     webServerAddressList := webServerAddressList g; fos := fos g |}.
Definition set_paramsPtr (v : option Params) (g : fcgx) : fcgx :=
  {| rq := rq g; in_ := in_ g; out := out g; err := err g; envp := envp g;
     paramsPtr := v; isFastCGI := isFastCGI g;
     fcgx_libInitialized := fcgx_libInitialized g;
     webServerAddressList := webServerAddressList g; fos := fos g |}.
Definition set_isFastCGI (v : Z) (g : fcgx) : fcgx :=
  {| rq := rq g; in_ := in_ g; out := out g; err := err g; envp := envp g;
     paramsPtr := paramsPtr g; isFastCGI := v;
     fcgx_libInitialized := fcgx_libInitialized g;
     webServerAddressList := webServerAddressList g; fos := fos g |}.
Definition set_fcgx_libInitialized (v : bool) (g : fcgx) : fcgx :=
  {| rq := rq g; in_ := in_ g; out := out g; err := err g; envp := envp g;
     paramsPtr := paramsPtr g; isFastCGI := isFastCGI g; fcgx_libInitialized := v;
     webServerAddressList := webServerAddressList g; fos := fos g |}.
Definition set_webServerAddressList (v : option (list Z)) (g : fcgx) : fcgx :=
  {| rq := rq g; in_ := in_ g; out := out g; err := err g; envp := envp g;
     paramsPtr := paramsPtr g; isFastCGI := isFastCGI g;
     fcgx_libInitialized := fcgx_libInitialized g; webServerAddressList := v;
     fos := fos g |}.
Definition set_fos (v : os_state) (g : fcgx) : fcgx :=
  {| rq := rq g; in_ := in_ g; out := out g; err := err g; envp := envp g;
     paramsPtr := paramsPtr g; isFastCGI := isFastCGI g;
     fcgx_libInitialized := fcgx_libInitialized g;
     webServerAddressList := webServerAddressList g; fos := v |}.

(** The view of stream [s] of the request, and the state after an operation on it. *)
Definition view (s : FCGX_Stream) (g : fcgx) : sys := mkSys s (rq g) (fos g).
Definition unview (y : sys) (g : fcgx) : fcgx := set_fos (os y) (set_rq (req y) g).

(** ** Code *)

(** [FCGX_FClose (NULL)] returns 0. *)
Definition FClose_ptr (s : option FCGX_Stream) (g : fcgx)
    : outcome (Z * option FCGX_Stream * fcgx) :=
  match s with
  | None => Ret (0, None, g)
  | Some s =>
      let! (r, y) := FCGX_FClose EmptyBuffProc (view s g) in
      Ret (r, Some (strm y), unview y g)
  end.

Definition FCGX_Free (close : bool) (g : fcgx) : outcome fcgx :=
  let g := set_in_ None g in
  let g := set_out None g in
  let g := set_err None g in
  let g := set_paramsPtr None g in
  if close then
    let! (_, o) := OS_IpcClose (ipcFd (rq g)) (fos g) in
    let g := set_fos o g in
    Ret (set_rq (set_ipcFd (-1) (rq g)) g)
  else Ret g.

Definition FCGX_Finish_r (g : fcgx) : outcome fcgx :=
  let close := negb (keepConnection (rq g)) in
  match in_ g with
  | Some s =>
      let! (r1, e, g) := FClose_ptr (err g) g in
      let g := set_err e g in
      let! (r2, u, g) := FClose_ptr (out g) g in
      let g := set_out u g in
      let r3 := FCGX_GetError (view s g) in
      FCGX_Free (close || negb (r1 =? 0) || negb (r2 =? 0) || negb (r3 =? 0)) g
  | None => FCGX_Free close g
  end.

(** [memset (request, 0, ...)], then the three fields. *)
Definition FCGX_InitRequest (sock flags : Z) (g : fcgx) : Z * fcgx :=
  (0, set_paramsPtr None (set_envp None (set_err None (set_out None (set_in_ None
        (set_rq {| requestId := 0; role := 0; ipcFd := -1; isBeginProcessed := false;
                   keepConnection := false; appStatus := 0; nWriters := 0;
                   rq_flags := flags; listen_sock := sock |} g)))))).

(** [addrs] is the value of FCGI_WEB_SERVER_ADDRS in the environment. *)
Definition FCGX_Init (malloc_ok : bool) (addrs : option (list Z)) (g : fcgx) : Z * fcgx :=
  if fcgx_libInitialized g then (0, g)
  else
    let '(_, g) := FCGX_InitRequest FCGI_LISTENSOCK_FILENO 0 g in
    let '(r, o) := OS_LibInit malloc_ok (fos g) in
    let g := set_fos o g in
    if r =? -1 then ((if os_errno o =? 0 then -9997 else os_errno o), g)
    else (0, set_fcgx_libInitialized true (set_webServerAddressList (fmap cstr addrs) g)).

(** The string [FCGX_Accept_r] enters for the role, [None] for an unknown role. *)
Definition role_string (role : Z) : option (list Z) :=
  if role =? FCGI_RESPONDER then Some (b! "FCGI_ROLE=RESPONDER")
  else if role =? FCGI_AUTHORIZER then Some (b! "FCGI_ROLE=AUTHORIZER")
  else if role =? FCGI_FILTER then Some (b! "FCGI_ROLE=FILTER")
  else None.

Section Accept.
(** [inet_addr] of the C library; the stack bytes of [response]; the addresses
    and initial contents of the buffers [Malloc] returns for the three streams. *)
Variable inet_addr : list Z -> Z.
Variable stack : list Z.
Variables (addr_in addr_out addr_err : Z) (mem_in mem_out mem_err : list Z).

(** Reads the begin record and the environment from an open connection: [None]
    when the connection must be closed and another one tried. *)
Definition read_request (fuel : nat) (g : fcgx) : outcome (bool * fcgx) :=
  let g := set_rq (set_isBeginProcessed false (rq g)) g in
  let! y := FillBuffProc stack fuel (view (NewReader addr_in mem_in 8192 0) g) in
  let g := set_in_ (Some (strm y)) (unview y g) in
  if negb (isBeginProcessed (rq g)) then Ret (false, g)
  else
    match role_string (role (rq g)) with
    | None => Ret (false, g)
    | Some roleStr =>
        let! p := NewParams 30 in
        let! p := PutParam (roleStr ++ [0]) p in
        let g := set_paramsPtr (Some p) g in
        let! s := SetReaderType FCGI_PARAMS (strm y) in
        let! (r, p, y) := ReadParams (FillBuffProc stack fuel) fuel p (view s g) in
        let g := set_paramsPtr (Some p) (set_in_ (Some (strm y)) (unview y g)) in
        Ret (0 <=? r, g)
    end.

(** Builds the streams of an accepted request. *)
Definition open_request (g : fcgx) : outcome fcgx :=
  match in_ g, paramsPtr g with
  | Some s, Some p =>
      let! s := SetReaderType FCGI_STDIN s in
      let g := set_in_ (Some s) g in
      let g := set_out (Some (NewWriter addr_out mem_out 8192 FCGI_STDOUT)) g in
      let g := set_err (Some (NewWriter addr_err mem_err 512 FCGI_STDERR)) g in
      let g := set_rq (set_nWriters 2 (rq g)) g in
      Ret (set_envp (Some (vec p)) g)
  | _, _ => Crash
  end.

Fixpoint Accept_loop (k fuel : nat) (g : fcgx) : outcome (Z * fcgx) :=
  match k with
  | O => NoFuel
  | S k =>
      let! (r, g) :=
        (if ipcFd (rq g) <? 0 then
           let! (fd, o) := OS_Accept inet_addr fuel (listen_sock (rq g))
                             (negb (Z.land (rq_flags (rq g)) 1 =? 0))
                             (webServerAddressList g) (fos g) in
           let g := set_rq (set_ipcFd fd (rq g)) (set_fos o g) in
           Ret (if fd <? 0 then (if os_errno o >? 0 then 0 - os_errno o else -9999) else 0, g)
         else Ret (0, g)) in
      if r <? 0 then Ret (r, g)
      else
        let! (ok, g) := read_request fuel g in
        if ok : bool then
          let! g := open_request g in Ret (0, g)
        else
          let! g := FCGX_Free true g in
          Accept_loop k fuel g
  end.

Definition FCGX_Accept_r (fuel : nat) (g : fcgx) : outcome (Z * fcgx) :=
  if negb (fcgx_libInitialized g) then Ret (-9998, g)
  else
    let! g := FCGX_Finish_r g in
    Accept_loop fuel fuel g.
End Accept.

Definition FCGX_Accept (inet_addr : list Z -> Z) (stack : list Z)
    (addr_in addr_out addr_err : Z) (mem_in mem_out mem_err : list Z)
    (malloc_ok : bool) (addrs : option (list Z)) (fuel : nat) (g : fcgx)
    : outcome (Z * fcgx) :=
  let '(rc, g) := if negb (fcgx_libInitialized g) then FCGX_Init malloc_ok addrs g else (0, g) in
  if negb (rc =? 0) then Ret (rc, g)
  else
    FCGX_Accept_r inet_addr stack addr_in addr_out addr_err mem_in mem_out mem_err fuel g.

(** What a call of [FCGX_Accept] finds: stack bytes, and the buffers [Malloc] returns. *)
Record accept_env := mkAccept {
  ae_stack : list Z;
  ae_addr_in : Z;
  ae_addr_out : Z;
  ae_addr_err : Z;
  ae_mem_in : list Z;
  ae_mem_out : list Z;
  ae_mem_err : list Z;
}.

(** ** Accepting a request *)

(** The accepted connection is from a peer the library serves. *)
Definition peer_ok (inet_addr : list Z -> Z) (addrs : option (list Z)) (sa : sockaddr) (c : conn) : bool :=
  match sa with
  | SA_inet addr => ClientAddrOK inet_addr addr addrs
  | SA_unix => c_readable c
  | SA_other _ => true
  end.

Lemma OS_Accept_ok inet_addr fuel sock intr addrs fd sa c evs o :
  shutdownPending o = false -> k_accept (kern o) = AConn false fd sa c :: evs -> 0 <= fd ->
  peer_ok inet_addr addrs sa c = true -> (0 < fuel)%nat ->
  exists o1, OS_Accept inet_addr fuel sock intr addrs o = Ret (fd, o1) /\
    k_conns (kern o1) !! fd = Some c /\ shutdownNow o1 = shutdownNow o /\ k_closed (kern o1) = k_closed (kern o) /\
    k_accept (kern o1) = evs /\ shutdownPending o1 = false /\ async o1 = async o.
Proof.
  intros Hp Ha Hfd Hpeer Hf. destruct fuel as [|fuel]; [lia|].
  unfold OS_Accept. cbn [accept_outer]. change (AcquireLock sock intr =? 0) with true.
  cbn [negb accept_inner accept_retry]. rewrite Hp. unfold sys_accept. rewrite Ha. cbn [obind].
  destruct (Z.ltb_spec fd 0); [lia|]. set (o1 := put_conn fd c _).
  assert (k_conns (kern o1) !! fd = Some c) as Hc by apply put_conn_lookup.
  assert (shutdownPending o1 = false) as Hp1 by (cbn; by rewrite Hp).
  destruct sa as [addr| |f]; cbn [peer_ok] in Hpeer.
  - rewrite Hpeer. cbn [obind]. change (ReleaseLock sock =? 0) with true. cbn [negb].
    by exists o1.
  - cbn [obind]. change (ReleaseLock sock =? 0) with true. cbn [negb].
    unfold is_af_unix_keeper. rewrite Hc, Hpeer. by exists o1.
  - cbn [obind]. change (ReleaseLock sock =? 0) with true. cbn [negb]. by exists o1.
Qed.

(** What the library found when it was initialised is not changed by a request. *)
Definition same_library (g g' : fcgx) : Prop :=
  fcgx_libInitialized g' = fcgx_libInitialized g /\ webServerAddressList g' = webServerAddressList g.

(** No request is open: nothing is closed. *)
Lemma Finish_none g :
  in_ g = None -> ipcFd (rq g) = -1 -> keepConnection (rq g) = false ->
  FCGX_Finish_r g = Ret (set_rq (set_ipcFd (-1) (rq g))
    (set_paramsPtr None (set_err None (set_out None (set_in_ None g))))).
Proof.
  intros Hi Hfd Hk. unfold FCGX_Finish_r. rewrite Hi, Hk. unfold FCGX_Free. cbn. by rewrite Hfd.
Qed.

Lemma NewReader_at addr mem n T q o c fd chunks later :
  0 <= addr < 2 ^ 64 - 8 ->
  Z.of_nat (length mem) = AlignInt8 (Z.min (Z.max n 32) (FCGI_MAX_LENGTH + 1)) ->
  k_conns (kern o) !! fd = Some c -> ipcFd q = fd -> c_rx c = map RData chunks ++ later ->
  Forall (fun b => b <> []) chunks -> wtakes (c_wr c) ->
  let y := mkSys (NewReader addr mem n T) q o in
  at_ o c fd later q T (c_tx c) (concat chunks) y /\ phase y = (0, 0, false, false, false) /\
  rdNext (strm y) = stop (strm y).
Proof.
  intros Ha Hm Hc Hfd Hrx Hch Hw. destruct (buffer_size n) as [Hn _].
  pose proof (AlignPtr8_offset addr Ha). unfold NewReader, NewStream.
  set (m := AlignInt8 _) in *. cbn zeta. set (m' := if negb _ then _ else _).
  assert (24 <= m' /\ m' <= m - (AlignPtr8 addr - addr)) as (Hm' & Hmo).
  { subst m'. destruct (Z.eqb_spec (AlignPtr8 addr) addr); cbn [negb]; lia. }
  split; [|done]. constructor; cbn; try done; try lia.
  - rewrite length_slice by lia. lia.
  - exists chunks, (c_wr c). split_and!; try done. symmetry. apply put_conn_id.
    rewrite Hc, <-Hrx. by destruct c.
Qed.

(** A stream that stands between records is made a reader of another type. *)
Lemma SetReaderType_at o c fd later q T T' tx flat y :
  at_ o c fd later q T tx flat y ->
  exists s, SetReaderType T' (strm y) = Ret s /\ at_ o c fd later q T' tx flat (set_strm s y) /\
    phase (set_strm s y) = (0, 0, false, false, false) /\ rdNext s = stop s.
Proof.
  intros Hy. pose proof (at_reader _ _ _ _ _ _ _ _ _ Hy) as Hr. unfold SetReaderType. rewrite Hr.
  eexists. split; [reflexivity|]. split; [|done].
  destruct Hy as [Hp Hl Hos Hq Hfd HT Hr' He]. by constructor.
Qed.

(** What a web server sends for one request: a begin record [r], records [prs] with
    the parameters [ps], the end of the parameters, records [irs] with the input [d],
    and an ending; [rep1] and [rep2] are the answers the records in between call for. *)
Record request_sent (stack : list Z) (q : FCGX_Request) (r : record)
    (prs : list record) (ps : list (list Z * list Z)) (rep1 : list Z)
    (irs : list record) (d rep2 last : list Z) (later : list read_event) (e : Z)
    (rolestr : list Z) : Prop := {
  rs_ok : record_ok r;
  rs_type : rec_type r = FCGI_BEGIN_REQUEST;
  rs_id : rec_id r <> 0;
  rs_body : length (rec_content r) = 8%nat;
  rs_padding : rec_padding r = [];
  rs_role : role_string (role (begun q r)) = Some rolestr;
  rs_pairs : Forall pair_ok ps;
  rs_count : Z.of_nat (length ps) < 2 ^ 28;
  rs_params : wires stack (begun q r) FCGI_PARAMS
    (encode_record (mkRecord FCGI_PARAMS (rec_id r) [] []) ++ encode_records irs ++ last)
    prs (encode_pairs ps) rep1;
  rs_input : wires stack (set_nWriters 2 (begun q r)) FCGI_STDIN last irs d rep2;
  rs_ending : ending (set_nWriters 2 (begun q r)) FCGI_STDIN later last e
}.

Definition request_bytes (r : record) (prs irs : list record) (last : list Z) : list Z :=
  encode_record r ++ encode_records prs
  ++ encode_record (mkRecord FCGI_PARAMS (rec_id r) [] []) ++ encode_records irs ++ last.

Section Accepting.
Context (inet_addr : list Z -> Z) (stack : list Z).
Context (addr_in addr_out addr_err : Z) (mem_in mem_out mem_err : list Z).
Context (Hstack : length stack = 64%nat) (Haddr : 0 <= addr_in < 2 ^ 64 - 8)
  (Hmem : Z.of_nat (length mem_in) = 8192).

Lemma read_request_ok fuel o c fd q r prs ps rep1 irs d rep2 last later e rolestr chunks g :
  request_sent stack q r prs ps rep1 irs d rep2 last later e rolestr ->
  q = set_isBeginProcessed false (rq g) -> fos g = o -> shutdownNow o = false ->
  k_conns (kern o) !! fd = Some c -> ipcFd q = fd -> c_rx c = map RData chunks ++ later ->
  Forall (fun b => b <> []) chunks -> wtakes (c_wr c) ->
  concat chunks = request_bytes r prs irs last -> (length (concat chunks) + 2 < fuel)%nat ->
  exists g' s p, read_request stack addr_in mem_in fuel g = Ret (true, g') /\
    in_ g' = Some s /\ paramsPtr g' = Some p /\ vec p = (rolestr ++ [0]) :: map entry ps /\
    at_ o c fd later (begun q r) FCGI_PARAMS (c_tx c ++ rep1) (encode_records irs ++ last) (view s g') /\
    same_library g g'.
Proof.
  intros [] Hq Ho Hsh Hc Hfd Hrx Hch Hw Hflat Hf. unfold read_request. rewrite <-Hq.
  destruct (NewReader_at addr_in mem_in 8192 0 q o c fd chunks later) as (Hy & Hph & Heq); try done.
  unfold view at 1. cbn [rq set_rq fos]. rewrite Ho. unfold request_bytes in Hflat.
  rewrite Hflat in Hy, Hf. set (plast := encode_record (mkRecord FCGI_PARAMS _ _ _) ++ _ ++ _) in *.
  destruct (begin_fill o c fd later Hsh stack fuel q 0 (c_tx c) r (encode_records prs ++ plast) _ Hy Hph)
    as (y1 & Hfill & Hy1 & Hph1); try done.
  { by subst q. }
  { by destruct (encode_records prs). }
  { assert (8 <= length plast)%nat by (unfold plast; rewrite length_app, length_encode_record; lia).
    rewrite !length_app, length_encode_record in Hf. lia. }
  change (FillBuffProc stack fuel) with (FillBuff_loop stack fuel []). rewrite Hfill. cbn [obind].
  pose proof (at_req _ _ _ _ _ _ _ _ _ Hy1) as Hq1.
  cbn [rq unview set_in_ set_rq set_fos in_ fos]. rewrite Hq1. cbn [isBeginProcessed begun set_isBeginProcessed negb].
  change (role (set_isBeginProcessed true _)) with (role (begun q r)). rewrite rs_role0.
  destruct (NewParams_ok 30) as (p0 & -> & Hp0 & Hv0); [lia|]. cbn [obind].
  destruct (PutParam_stores (rolestr ++ [0]) p0 Hp0) as (p1 & -> & Hp1 & Hv1); [rewrite Hv0; cbn; lia|].
  cbn [obind]. rewrite Hv0 in Hv1.
  destruct (SetReaderType_at _ _ _ _ _ _ FCGI_PARAMS _ _ _ Hy1) as (s & -> & Hs & Hphs & Heqs).
  cbn [obind]. rewrite length_app in Hf. rewrite length_encode_record in Hf.
  assert (reads_stream o c fd later stack (begun q r) FCGI_PARAMS plast (c_tx c) fuel (c_tx c ++ rep1)
    (encode_pairs ps) (set_strm s y1)) as Hreads.
  { eapply at_stream; try done. lia. }
  pose proof (wires_data_length _ _ _ _ _ _ _ rs_params0) as Hlen. rewrite length_app in Hf.
  assert (ending (begun q r) FCGI_PARAMS later plast 0) as Hend
    by (apply (end_of_stream (begun q r) FCGI_PARAMS later []); cbn; lia).
  assert (0 < rec_id r < 65536) as Hid by (destruct rs_ok0 as (_ & ? & _); lia).
  destruct (ReadParams_source (SO := stream_source o c fd later Hsh stack (begun q r) FCGI_PARAMS plast 0
    (c_tx c) ltac:(done) ltac:(done) Hid Hstack Hend fuel (c_tx c ++ rep1))
    fuel ps p1 (set_strm s y1) rs_pairs0 Hreads) as (p2 & y2 & Hrp & [_ Hy2] & Hp2 & Hv2);
    [lia|done|rewrite Hv1; cbn; lia|].
  destruct (Hy2 [] (encode_records irs ++ last) eq_refl) as [Hat2 _].
  assert (view s (set_paramsPtr (Some p1) (set_in_ (Some (strm y1)) (unview y1
    (set_rq q g)))) = set_strm s y1) as -> by done.
  rewrite Hrp. cbn [obind].
  eexists _, (strm y2), p2. split; [reflexivity|]. cbn. split_and!; try done.
  - by rewrite Hv2, Hv1.
  - destruct y2. exact Hat2.
Qed.

(** The request whose streams are about to be opened. *)
Lemma open_request_ok o c fd q later T tx flat g s p :
  in_ g = Some s -> paramsPtr g = Some p -> at_ o c fd later q T tx flat (view s g) ->
  exists g' s', open_request addr_out addr_err mem_out mem_err g = Ret g' /\ in_ g' = Some s' /\
    envp g' = Some (vec p) /\ rq g' = set_nWriters 2 q /\
    out g' = Some (NewWriter addr_out mem_out 8192 FCGI_STDOUT) /\
    err g' = Some (NewWriter addr_err mem_err 512 FCGI_STDERR) /\
    at_ o c fd later (set_nWriters 2 q) FCGI_STDIN tx flat (view s' g') /\
    phase (view s' g') = (0, 0, false, false, false) /\ rdNext s' = stop s' /\ same_library g g'.
Proof.
  intros Hi Hp Hat. pose proof (at_req _ _ _ _ _ _ _ _ _ Hat) as Hq. cbn in Hq.
  destruct (SetReaderType_at _ _ _ _ _ _ FCGI_STDIN _ _ _ Hat) as (s' & Hs & Hat' & Hph & Heq).
  cbn [view strm] in Hs. unfold open_request. rewrite Hi, Hp, Hs. cbn [obind].
  eexists _, s'. split; [reflexivity|]. split_and!; cbn; rewrite ?Hq; try done.
  destruct Hat'. by constructor.
Qed.
(** The request of a connection that has been accepted, up to the point where its
    streams can be used. *)
Lemma Accept_opens fuel g fd sa c evs chunks r prs ps rep1 irs d rep2 last later e rolestr :
  ipcFd (rq g) = -1 -> shutdownPending (fos g) = false -> shutdownNow (fos g) = false ->
  k_accept (kern (fos g)) = AConn false fd sa c :: evs -> 0 <= fd ->
  peer_ok inet_addr (webServerAddressList g) sa c = true ->
  c_rx c = map RData chunks ++ later -> Forall (fun b => b <> []) chunks -> wtakes (c_wr c) ->
  concat chunks = request_bytes r prs irs last ->
  let q := set_isBeginProcessed false (set_ipcFd fd (rq g)) in
  request_sent stack q r prs ps rep1 irs d rep2 last later e rolestr ->
  (length (concat chunks) + 2 < fuel)%nat ->
  exists g' s o1, Accept_loop inet_addr stack addr_in addr_out addr_err mem_in mem_out mem_err fuel fuel g = Ret (0, g') /\
    envp g' = Some ((rolestr ++ [0]) :: map entry ps) /\ rq g' = set_nWriters 2 (begun q r) /\
    out g' = Some (NewWriter addr_out mem_out 8192 FCGI_STDOUT) /\
    err g' = Some (NewWriter addr_err mem_err 512 FCGI_STDERR) /\ in_ g' = Some s /\
    shutdownNow o1 = false /\ k_closed (kern o1) = k_closed (kern (fos g)) /\ k_accept (kern o1) = evs /\
    shutdownPending o1 = false /\ async o1 = async (fos g) /\ same_library g g' /\
    reads_stream o1 c fd later stack (set_nWriters 2 (begun q r)) FCGI_STDIN last (c_tx c ++ rep1) fuel
      ((c_tx c ++ rep1) ++ rep2) d (view s g') /\ rdNext s = stop s.
Proof.
  intros Hfd1 Hsp Hsn Ha Hfd Hpeer Hrx Hch Hw Hflat q Hreq Hf.
  destruct fuel as [|fuel0]; [lia|]. set (fuel := S fuel0) in *. unfold fuel at 1. cbn [Accept_loop].
  rewrite Hfd1. cbn [Z.ltb Z.compare].
  destruct (OS_Accept_ok inet_addr fuel (listen_sock (rq g)) (negb (Z.land (rq_flags (rq g)) 1 =? 0))
    (webServerAddressList g) fd sa c evs (fos g)) as (o1 & Hacc & Hc & Hsn1 & Hk1 & Ha1 & Hp1 & Has1); try done; [lia|].
  rewrite Hacc. cbn [obind]. destruct (Z.ltb_spec fd 0); [lia|]. cbn [Z.ltb Z.compare].
  destruct (read_request_ok fuel o1 c fd q r prs ps rep1 irs d rep2 last later e rolestr chunks
    (set_rq (set_ipcFd fd (rq g)) (set_fos o1 g)))
    as (g1 & s1 & p & Hrr & Hi1 & Hp2 & Hv & Hat & Hl1); try done; [by rewrite Hsn1|].
  cbn in Hrr |- *. rewrite Hrr. cbn [obind].
  destruct (open_request_ok _ _ _ _ _ _ _ _ g1 s1 p Hi1 Hp2 Hat)
    as (g2 & s2 & -> & Hi2 & He2 & Hq2 & Ho2 & Herr2 & Hat2 & Hph2 & Heq2 & Hl2). cbn [obind].
  exists g2, s2, o1. split_and!; try done; [by rewrite He2, Hv|by rewrite Hsn1|destruct Hl1, Hl2; split; cbn in *; congruence|].
  destruct Hreq. rewrite Hflat in Hf. unfold request_bytes in Hf. rewrite !length_app in Hf.
  eapply at_stream; try done. rewrite length_app. lia.
Qed.
End Accepting.

(** C6.  FCGX_Accept_r serves a request.  With no request open, on a connection of an
    admitted peer over which the request arrives, cut into reads in any way, with
    records for other requests, begin and management records in between, it returns 0;
    the environment is the role followed by the parameters that were sent, in their
    order; the request has the id, role and flags of its begin record and two open
    writers on new streams for output and errors; and the input stream delivers
    exactly the bytes sent as input to any sequence of input operations. *)
Theorem Accept_serves_request inet_addr stack addr_in addr_out addr_err mem_in mem_out mem_err
    fuel g fd sa c evs chunks r prs ps rep1 irs d rep2 last later e rolestr :
  fcgx_libInitialized g = true -> in_ g = None -> ipcFd (rq g) = -1 -> keepConnection (rq g) = false ->
  shutdownPending (fos g) = false -> shutdownNow (fos g) = false ->
  k_accept (kern (fos g)) = AConn false fd sa c :: evs -> 0 <= fd ->
  peer_ok inet_addr (webServerAddressList g) sa c = true ->
  c_rx c = map RData chunks ++ later -> Forall (fun b => b <> []) chunks -> wtakes (c_wr c) ->
  concat chunks = request_bytes r prs irs last ->
  request_sent stack (set_isBeginProcessed false (set_ipcFd fd (rq g)))
    r prs ps rep1 irs d rep2 last later e rolestr ->
  length stack = 64%nat -> 0 <= addr_in < 2 ^ 64 - 8 -> Z.of_nat (length mem_in) = 8192 ->
  Forall is_byte d -> (length (concat chunks) + 2 < fuel)%nat ->
  exists g' s, FCGX_Accept_r inet_addr stack addr_in addr_out addr_err mem_in mem_out mem_err fuel g
      = Ret (0, g') /\
    envp g' = Some ((rolestr ++ [0]) :: map entry ps) /\
    rq g' = set_nWriters 2 (begun (set_isBeginProcessed false (set_ipcFd fd (rq g))) r) /\
    out g' = Some (NewWriter addr_out mem_out 8192 FCGI_STDOUT) /\
    err g' = Some (NewWriter addr_err mem_err 512 FCGI_STDERR) /\ in_ g' = Some s /\
    forall ops, exists y', run_rops (FillBuffProc stack fuel) fuel ops (view s g')
      = Ret ((spec_rops ops d).1, y').
Proof.
  intros Hinit Hi Hfd1 Hk Hsp Hsn Ha Hfd Hpeer Hrx Hch Hw Hflat Hreq Hst Haddr Hmem Hb Hf.
  unfold FCGX_Accept_r. rewrite Hinit. cbn [negb]. rewrite Finish_none by done. cbn [obind].
  set (g0 := set_rq _ _).
  destruct (Accept_opens inet_addr stack addr_in addr_out addr_err mem_in mem_out mem_err Hst Haddr Hmem fuel g0
    fd sa c evs chunks r prs ps rep1 irs d rep2 last later e rolestr)
    as (g2 & s2 & o1 & -> & He2 & Hq2 & Ho2 & Herr2 & Hi2 & Hsn1 & _ & _ & _ & _ & _ & Hat2 & Heq2); try done.
  exists g2, s2. split_and!; try done. intros ops. destruct Hreq.
  assert (0 < rec_id r < 65536) as Hid by (destruct rs_ok0 as (_ & ? & _); lia).
  pose proof (wires_data_length _ _ _ _ _ _ _ rs_input0) as Hlen.
  rewrite Hflat in Hf. unfold request_bytes in Hf. rewrite !length_app in Hf.
  destruct (run_rops_source (SO := stream_source o1 c fd later Hsn1 stack
    (set_nWriters 2 (begun (set_isBeginProcessed false (set_ipcFd fd (rq g))) r)) FCGI_STDIN last e (c_tx c ++ rep1)
    ltac:(done) ltac:(done) Hid Hst rs_ending0 fuel ((c_tx c ++ rep1) ++ rep2)) fuel ops d (view s2 g2)) as (y' & Hrun & _);
    [|done|lia|by exists y'].
  left. split; [exact Hat2|]. by left.
Qed.

(** A request in pieces of 11 bytes, with input interrupted by another request. *)
Definition demo_input_records : list record :=
  [mkRecord FCGI_STDIN 9 [1; 2] [0]; mkRecord FCGI_STDIN 7 (b! "hello") [0; 0; 0]].
Definition demo_input_last : list Z := encode_record (mkRecord FCGI_STDIN 7 [] []) ++ [].
Definition demo_chunks : list (list Z) :=
  chop 200 10 (request_bytes (demo_begin 7) demo_params_records demo_input_records demo_input_last).
Definition demo_client : conn := mkConn (map RData demo_chunks ++ []) [] [] true [].
Definition demo_start : fcgx :=
  mkFcgx (mkRequest 0 0 (-1) false false 0 0 0 0) None None None None None (-1) true None
    (mkOs 0 false false true demo_aio (mkKernel ∅ [AConn false 5 SA_unix demo_client] [])).

Lemma demo_request_sent :
  request_sent (replicate 64 0) (set_isBeginProcessed false (set_ipcFd 5 (rq demo_start)))
    (demo_begin 7) demo_params_records demo_params [] demo_input_records (b! "hello") []
    demo_input_last [] 0 (b! "FCGI_ROLE=RESPONDER").
Proof.
  constructor; try reflexivity; try done.
  - repeat constructor; concrete_record.
  - change (encode_pairs demo_params)
      with (take 3 (encode_pairs demo_params) ++ drop 3 (encode_pairs demo_params) ++ []).
    match goal with |- wires ?s ?q ?T ?l ?r ?d _ => change (wires s q T l r d ([] ++ [] ++ [])) end.
    unfold demo_params_records.
    repeat (apply wires_cons; [concrete_record| |done|]); [..|apply wires_nil]; by apply wire_data.
  - change (b! "hello") with ([] ++ b! "hello" ++ []).
    match goal with |- wires ?s ?q ?T ?l ?r ?d _ => change (wires s q T l r d ([] ++ [] ++ [])) end.
    unfold demo_input_records.
    repeat (apply wires_cons; [concrete_record| |done|]); [..|apply wires_nil];
      [by apply wire_foreign|by apply wire_data].
  - apply (end_of_stream (set_nWriters 2 (begun (set_isBeginProcessed false
      (set_ipcFd 5 (rq demo_start))) (demo_begin 7))) FCGI_STDIN [] [] []). cbn. lia.
Qed.

Lemma Accept_serves_request_witness :
  exists g' s, FCGX_Accept_r (fun _ => 0) (replicate 64 0) 8 16 24 (replicate (64 * 128) 0)
      (replicate (64 * 128) 0) (replicate 512 0) 200 demo_start = Ret (0, g') /\
    envp g' = Some ((b! "FCGI_ROLE=RESPONDER" ++ [0]) :: map entry demo_params) /\
    rq g' = mkRequest 7 1 5 true true 0 2 0 0 /\
    out g' = Some (NewWriter 16 (replicate (64 * 128) 0) 8192 FCGI_STDOUT) /\
    err g' = Some (NewWriter 24 (replicate 512 0) 512 FCGI_STDERR) /\ in_ g' = Some s /\
    forall ops, exists y', run_rops (FillBuffProc (replicate 64 0) 200) 200 ops (view s g')
      = Ret ((spec_rops ops (b! "hello")).1, y').
Proof.
  apply (Accept_serves_request (fun _ => 0) (replicate 64 0) 8 16 24 (replicate (64 * 128) 0)
    (replicate (64 * 128) 0) (replicate 512 0) 200 demo_start 5 SA_unix demo_client [] demo_chunks
    (demo_begin 7) demo_params_records demo_params [] demo_input_records (b! "hello") []
    demo_input_last [] 0 (b! "FCGI_ROLE=RESPONDER")).
  - reflexivity.
  - reflexivity.
  - reflexivity.
  - reflexivity.
  - reflexivity.
  - reflexivity.
  - reflexivity.
  - lia.
  - reflexivity.
  - reflexivity.
  - vm_compute. repeat constructor; intros [=].
  - repeat constructor.
  - vm_compute. reflexivity.
  - exact demo_request_sent.
  - reflexivity.
  - lia.
  - rewrite length_replicate. lia.
  - repeat constructor; unfold is_byte; cbn; lia.
  - vm_compute. lia.
Defined.
