(* ===== verification/FcgiFinish.v ===== *)
(** Finishing a request: [FCGX_Finish_r] of cwf/libfcgi/fcgiapp.c flushes and closes
    both output streams, and closes the connection or keeps it. *)
From Stdlib Require Import ZArith Lia Bool String.
From stdpp Require Import base list numbers gmap.
From S2P Require Import Prelude FcgiProto OsUnix FcgiStream FcgiSink FcgiWriter.
From S2P Require Import FcgiParams FcgiReader FcgiInput FcgiRequest.

(** ** Closing a connection *)

(** Nothing but the kernel and errno may differ. *)
Definition same_flags (o o' : os_state) : Prop :=
  shutdownPending o' = shutdownPending o /\ shutdownNow o' = shutdownNow o /\ async o' = async o.

Lemma close_drain_ok fuel fd o c :
  k_conns (kern o) !! fd = Some c -> (length (c_select c) < fuel)%nat ->
  exists o' c', close_drain fuel fd o = Ret o' /\ k_conns (kern o') = <[fd := c']> (k_conns (kern o)) /\
    c_tx c' = c_tx c /\ k_closed (kern o') = k_closed (kern o) /\ k_accept (kern o') = k_accept (kern o) /\
    same_flags o o'.
Proof.
  revert o c. induction fuel as [|fuel IH]; intros o c Hc Hf; [lia|]. cbn [close_drain].
  unfold sys_select_closing. rewrite Hc. destruct (c_select c) as [|r rs] eqn:Hs.
  { cbn. exists o, c. rewrite insert_id by done. by split_and!. }
  set (c1 := mkConn _ _ _ _ rs). set (o1 := put_conn fd c1 o).
  assert (k_conns (kern o1) !! fd = Some c1) as Hc1 by apply put_conn_lookup.
  destruct (r >? 0); [|by exists o1, c1].
  unfold sys_read. rewrite Hc1. cbn [c_rx c1].
  destruct (c_rx c) as [|[bs|e] rx]; cbn [fst snd].
  - cbn. by exists o1, c1.
  - set (c2 := mkConn _ _ _ _ _). destruct (_ >? 0).
    + destruct (IH (put_conn fd c2 o1) c2) as (o' & c' & -> & Hk & Ht & Hcl & Ha & Hs');
        [apply put_conn_lookup|cbn in *; lia|].
      exists o', c'. split_and!; try done. rewrite Hk. cbn. by rewrite !insert_insert_eq.
    + exists (put_conn fd c2 o1), c2. split_and!; try done. cbn. by rewrite insert_insert_eq.
  - cbn. eexists _, _. split; [done|]. cbn. rewrite insert_insert_eq. by split_and!.
Qed.

Lemma OS_Close_ok fd o c :
  asyncIoInUse (async o) = false -> k_conns (kern o) !! fd = Some c -> fd <> -1 ->
  exists o', OS_Close fd o = Ret (0, o') /\ k_conns (kern o') = delete fd (k_conns (kern o)) /\
    k_closed (kern o') = k_closed (kern o) ++ [(fd, c_tx c)] /\ k_accept (kern o') = k_accept (kern o) /\
    same_flags o o'.
Proof.
  intros Ha Hc Hfd. unfold OS_Close. destruct (Z.eqb_spec fd (-1)); [done|].
  rewrite Ha. cbn [obind]. unfold sys_shutdown, close_fuel. rewrite Hc. cbn [Z.eqb].
  destruct (close_drain_ok (S (length (c_select c))) fd o c Hc) as (o' & c' & -> & Hk & Ht & Hcl & Hac & Hs');
    [lia|]. cbn [obind].
  unfold sys_close. rewrite Hk, lookup_insert_eq. eexists. split; [done|]. cbn.
  rewrite delete_insert_eq, Hcl, Ht. by destruct Hs' as (? & ? & ?).
Qed.

(** ** Two writers on one connection *)

(** An output stream of type [T] that is open, with [d] in its buffer; [any] says
    whether it has sent records before. *)
Definition open_writer (T : Z) (any : bool) (d : list Z) (s : FCGX_Stream) : Prop :=
  forall q o, let y := mkSys s q o in
    writer_inv y /\ sd_type (data s) = T /\ rawWrite (data s) = false /\
    (FCGI_HEADER_LEN <= wrNext s)%nat /\ isAnythingWritten (data s) = any /\ d = pending y.

Lemma open_writer_holds T any d s q o c :
  open_writer T any d s -> k_conns (kern o) !! ipcFd q = Some c -> wtakes (c_wr c) ->
  holds_records o c q T any d (mkSys s q o).
Proof.
  intros Hs Hc Hw. destruct (Hs q o) as (Hi & HT & Hr & Hn & Ha & Hd). split_and!; try done.
  exists []. cbn. split_and!; try done; [|by rewrite Ha, orb_false_r].
  exists (c_wr c). split; [|done]. rewrite app_nil_r. cbn. rewrite put_conn_id; [done|].
  rewrite Hc. by destruct c.
Qed.

(** What closing a writer does to the request and the connection. *)
Lemma FClose_ptr_ok T any d s g c :
  open_writer T any d s -> is_byte T -> 0 <= requestId (rq g) < 65536 ->
  shutdownNow (fos g) = false -> k_conns (kern (fos g)) !! ipcFd (rq g) = Some c -> wtakes (c_wr c) ->
  exists g' s' rs wr, FClose_ptr (Some s) g = Ret (0, Some s', g') /\ wtakes wr /\
    Forall (data_record T (requestId (rq g))) rs /\ concat (map rec_content rs) = d /\
    g' = set_fos (put_conn (ipcFd (rq g)) (conn_tx c wr (c_tx c ++ encode_records (rs ++
           closing_records (rq g) T ((T =? FCGI_STDERR) && negb any && bool_decide (d = []))
             (nWriters (rq g) =? 1)))) (fos g))
         (set_rq (set_nWriters (nWriters (rq g) - 1) (rq g)) g).
Proof.
  intros Hs HT Hid Hsh Hc Hw.
  pose proof (open_writer_holds _ _ _ _ _ _ _ Hs Hc Hw) as Hy.
  destruct (FClose_ok (fos g) c (rq g) T any Hsh HT Hid _ _ Hy)
    as (y1 & rs & Hf & Hrs & Hd & (wr & Ho & Hwr) & _ & _ & _ & Hq).
  unfold FClose_ptr, view. rewrite Hf. cbn [obind].
  eexists _, (strm y1), rs, wr. split; [reflexivity|]. split_and!; try done.
  unfold unview. by rewrite Ho, Hq.
Qed.

(** The bytes a request sends when it is finished: what was left in the buffers of
    its error and output streams, as records, with the records that close them. *)
Definition finish_bytes (q : FCGX_Request) (quiet : bool) (ers ors : list record) : list Z :=
  encode_records (ers ++ closing_records q FCGI_STDERR quiet false
                  ++ ors ++ closing_records q FCGI_STDOUT false true).

(** What the call does, and what it leaves alone. *)
Lemma Finish_sends g s se so c anye anyo de do :
  in_ g = Some s -> FCGI_errno s = 0 -> err g = Some se -> out g = Some so ->
  open_writer FCGI_STDERR anye de se -> open_writer FCGI_STDOUT anyo do so ->
  nWriters (rq g) = 2 -> 0 <= requestId (rq g) < 65536 -> ipcFd (rq g) <> -1 ->
  k_conns (kern (fos g)) !! ipcFd (rq g) = Some c -> wtakes (c_wr c) ->
  shutdownNow (fos g) = false -> asyncIoInUse (async (fos g)) = false ->
  exists g' ers ors,
    FCGX_Finish_r g = Ret g' /\
    Forall (data_record FCGI_STDERR (requestId (rq g))) ers /\ concat (map rec_content ers) = de /\
    Forall (data_record FCGI_STDOUT (requestId (rq g))) ors /\ concat (map rec_content ors) = do /\
    in_ g' = None /\ out g' = None /\ err g' = None /\ paramsPtr g' = None /\
    same_library g g' /\ same_flags (fos g) (fos g') /\ k_accept (kern (fos g')) = k_accept (kern (fos g)) /\
    rq g' = set_nWriters 0 (if keepConnection (rq g) then rq g else set_ipcFd (-1) (rq g)) /\
    let tx := c_tx c ++ finish_bytes (rq g) (negb anye && bool_decide (de = [])) ers ors in
    if keepConnection (rq g) then
      ipcFd (rq g') = ipcFd (rq g) /\
      exists c', k_conns (kern (fos g')) !! ipcFd (rq g) = Some c' /\ c_tx c' = tx
    else
      ipcFd (rq g') = -1 /\ k_conns (kern (fos g')) !! ipcFd (rq g) = None /\
      k_closed (kern (fos g')) = k_closed (kern (fos g)) ++ [(ipcFd (rq g), tx)].
Proof.
  intros Hi Herr He Ho Hse Hso Hn Hid Hfd Hc Hw Hsh Has.
  destruct (FClose_ptr_ok FCGI_STDERR anye de se g c Hse) as (g1 & se' & ers & wr1 & H1 & Hw1 & Hers & Hde & Hg1);
    [unfold is_byte, FCGI_STDERR; lia|done..|].
  rewrite Hn in Hg1. cbn [Z.eqb Pos.eqb Z.sub Z.add Z.pos_sub Z.opp Z.succ_double FCGI_STDERR andb] in Hg1.
  set (c1 := conn_tx c wr1 _) in Hg1. set (g1' := set_err (Some se') g1).
  assert (k_conns (kern (fos g1')) !! ipcFd (rq g1') = Some c1) as Hc1
    by (subst g1' g1; cbn; apply lookup_insert_eq).
  destruct (FClose_ptr_ok FCGI_STDOUT anyo do so g1' c1 Hso) as (g2 & so' & ors & wr2 & H2 & Hw2 & Hors & Hdo & Hg2);
    [unfold is_byte, FCGI_STDOUT; lia|by subst g1' g1|by subst g1' g1|done|done|].
  set (c2 := conn_tx c1 wr2 _) in Hg2.
  assert (c_tx c2 = c_tx c ++ finish_bytes (rq g) (negb anye && bool_decide (de = [])) ers ors) as Htx.
  { subst c2 c1 g1' g1. cbn [c_tx conn_tx fos rq set_err set_fos set_rq].
    rewrite <-app_assoc. f_equal. unfold finish_bytes. rewrite (app_assoc ers), (encode_records_app (ers ++ _)).
    cbn. done. }
  assert (Forall (data_record FCGI_STDOUT (requestId (rq g))) ors) as Hors'
    by (subst g1' g1; exact Hors).
  unfold FCGX_Finish_r. rewrite Hi, He, H1. cbn [obind]. fold g1'.
  assert (out g1' = Some so) as -> by (subst g1' g1; done). rewrite H2. cbn [obind].
  unfold FCGX_GetError. cbn [view strm]. rewrite Herr. cbn [Z.eqb negb]. rewrite !orb_false_r.
  assert (ipcFd (rq (set_out (Some so') g2)) = ipcFd (rq g)) as Hfd2 by (subst g2 g1' g1; done).
  destruct (keepConnection (rq g)) eqn:Hk; cbn [negb]; unfold FCGX_Free.
  - eexists _, ers, ors. split; [reflexivity|]. cbn zeta. split_and!; try (by subst g2 g1' g1).
    exists c2. split; [|done]. subst g2 g1' g1. cbn. apply lookup_insert_eq.
  - cbn [rq set_paramsPtr set_err set_out set_in_]. unfold OS_IpcClose.
    cbn [rq set_out] in Hfd2. rewrite Hfd2.
    destruct (OS_Close_ok (ipcFd (rq g)) (fos g2) c2) as (o' & Hcl & Hko & Hlog & Hacc & Hs');
      [by subst g2 g1' g1|subst g2 g1' g1; cbn; apply lookup_insert_eq|done|].
    cbn [fos set_paramsPtr set_err set_out set_in_]. rewrite Hcl. cbn [obind].
    eexists _, ers, ors. split; [reflexivity|]. cbn zeta. split_and!; try (by subst g2 g1' g1).
    + cbn. rewrite Hko. apply lookup_delete_eq.
    + cbn. rewrite Hlog, <-Htx. by subst g2 g1' g1.
Qed.

(** C7.  FCGX_Finish_r completes a request.  With both writers open on a connection
    whose writes do not fail, and no error on the input, the connection receives the
    rest of the error stream and its end, then the rest of the output, its end and
    END_REQUEST with the application status; the streams and parameters are freed,
    and the connection is closed exactly when the server did not ask to keep it. *)
Theorem Finish_completes_request g s se so c anye anyo de do :
  in_ g = Some s -> FCGI_errno s = 0 -> err g = Some se -> out g = Some so ->
  open_writer FCGI_STDERR anye de se -> open_writer FCGI_STDOUT anyo do so ->
  nWriters (rq g) = 2 -> 0 <= requestId (rq g) < 65536 -> ipcFd (rq g) <> -1 ->
  k_conns (kern (fos g)) !! ipcFd (rq g) = Some c -> wtakes (c_wr c) ->
  shutdownNow (fos g) = false -> asyncIoInUse (async (fos g)) = false ->
  exists g' ers ors,
    FCGX_Finish_r g = Ret g' /\
    Forall (data_record FCGI_STDERR (requestId (rq g))) ers /\ concat (map rec_content ers) = de /\
    Forall (data_record FCGI_STDOUT (requestId (rq g))) ors /\ concat (map rec_content ors) = do /\
    in_ g' = None /\ out g' = None /\ err g' = None /\ paramsPtr g' = None /\
    let tx := c_tx c ++ finish_bytes (rq g) (negb anye && bool_decide (de = [])) ers ors in
    if keepConnection (rq g) then
      ipcFd (rq g') = ipcFd (rq g) /\
      exists c', k_conns (kern (fos g')) !! ipcFd (rq g) = Some c' /\ c_tx c' = tx
    else
      ipcFd (rq g') = -1 /\ k_conns (kern (fos g')) !! ipcFd (rq g) = None /\
      k_closed (kern (fos g')) = k_closed (kern (fos g)) ++ [(ipcFd (rq g), tx)].
Proof.
  intros. destruct (Finish_sends g s se so c anye anyo de do) as (g' & ers & ors & H'); try done.
  exists g', ers, ors. split_and!; apply H'.
Qed.

(** An output stream with 32 bytes of buffer that holds [d]. *)
Definition demo_writer (T : Z) (any : bool) (d : list Z) : FCGX_Stream :=
  mkStream 32 (8 + length d) 32 None false false false 0
    (mkData (replicate 8 0 ++ d ++ replicate (24 - length d) 0) 32 8 32 T false false 0 0 any false).

Definition demo_open : fcgx :=
  mkFcgx (set_nWriters 2 demo_request) (Some (demo_reader FCGI_STDIN [])) (Some (demo_writer FCGI_STDOUT true (b! "abc")))
    (Some (demo_writer FCGI_STDERR false [])) None None (-1) true None demo_os.

Lemma demo_writer_open T any d :
  (length d <= 24)%nat -> open_writer T any d (demo_writer T any d).
Proof.
  intros Hd q o y. split_and!; try done.
  - constructor; cbn; try done; try lia.
    rewrite !length_app, !length_replicate. lia.
  - cbn. unfold FCGI_HEADER_LEN. lia.
  - unfold pending, slice; cbn. rewrite drop_0.
    replace (length d - 0)%nat with (length d) by lia. by rewrite take_app_length.
Qed.

Lemma Finish_completes_request_witness :
  exists g' ers ors,
    FCGX_Finish_r demo_open = Ret g' /\
    Forall (data_record FCGI_STDERR 7) ers /\ concat (map rec_content ers) = [] /\
    Forall (data_record FCGI_STDOUT 7) ors /\ concat (map rec_content ors) = b! "abc" /\
    in_ g' = None /\ out g' = None /\ err g' = None /\ paramsPtr g' = None /\
    let tx := c_tx demo_conn ++ finish_bytes (rq demo_open) true ers ors in
    ipcFd (rq g') = -1 /\ k_conns (kern (fos g')) !! 5 = None /\
    k_closed (kern (fos g')) = [] ++ [(5, tx)].
Proof.
  apply (Finish_completes_request demo_open (demo_reader FCGI_STDIN []) (demo_writer FCGI_STDERR false [])
    (demo_writer FCGI_STDOUT true (b! "abc")) demo_conn false true [] (b! "abc")).
  - reflexivity.
  - reflexivity.
  - reflexivity.
  - reflexivity.
  - apply demo_writer_open. cbn. lia.
  - apply demo_writer_open. cbn. lia.
  - reflexivity.
  - cbn. lia.
  - cbn. lia.
  - reflexivity.
  - repeat constructor.
  - reflexivity.
  - reflexivity.
Defined.
