(* ===== verification/FcgiCorners.v ===== *)
(** Corner cases of the FastCGI library: inputs on which the code of
    cwf/libfcgi/fcgiapp.c and os_unix.c does not do what the protocol or its own
    comments promise, each stated of the definitions that model it. *)
From Stdlib Require Import ZArith Lia Bool String.
From stdpp Require Import base list numbers gmap.
From S2P Require Import Prelude FcgiProto OsUnix FcgiStream FcgiSink FcgiWriter.
From S2P Require Import FcgiParams FcgiReader FcgiSource FcgiWire FcgiInput FcgiRequest.

(** ** Name-value pairs that are too long *)

Section Oversized.
Context {fillBuffProc : sys -> outcome sys}.
Context {reads : list Z -> sys -> Prop} {ended : sys -> Prop}.
Context `{SO : !Source fillBuffProc reads ended}.

Lemma Malloc_oversized n :
  2 ^ 31 <= n <= 2 ^ 32 -> Malloc n = Crash \/ (n = 2 ^ 32 /\ Malloc n = Ret 0).
Proof.
  intros Hn. unfold Malloc, s32, u64. destruct (decide (n = 2 ^ 32)) as [->|Hne]; [by right|]. left.
  replace ((n + 2 ^ 31) mod 2 ^ 32) with (n - 2 ^ 31)
    by (apply (Z.mod_unique_pos _ _ 1); lia).
  replace ((n - 2 ^ 31 - 2 ^ 31) mod 2 ^ 64) with (n - 2 ^ 32 + 2 ^ 64)
    by (apply (Z.mod_unique_pos _ _ (-1)); lia).
  by destruct (Z.ltb_spec (n - 2 ^ 32 + 2 ^ 64) (2 ^ 63)); [lia|].
Qed.

Lemma read_pair_oversized fuel n v bn tn rest y :
  0 <= n < 2 ^ 31 -> 0 <= v < 2 ^ 31 -> 2 ^ 31 <= n + v + 2 -> rest <> [] ->
  encode_length n = bn :: tn -> reads (tn ++ encode_length v ++ rest) y ->
  (length (tn ++ encode_length v ++ rest) + 1 < fuel)%nat -> Z.of_nat (length rest) < n ->
  read_pair fillBuffProc fuel bn y = Crash.
Proof.
  intros Hn Hv Hsum Hrest En Hy Hf Hshort. unfold read_pair.
  destruct (read_length_source fuel n bn tn _ y Hn En Hy Hf) as (y1 & -> & Hy1); cbn [obind].
  destruct (encode_length_head v Hv) as (bv & tv & Ev & Hbv). rewrite Ev in Hy1, Hf. cbn [app] in Hy1, Hf.
  destruct (GetChar_source _ y1 Hy1) as (y2 & -> & Hy2); cbn [obind].
  assert ((bv =? EOF) = false) as -> by (apply Z.eqb_neq; unfold is_byte, EOF in *; lia).
  rewrite !length_app in Hf. cbn [length] in Hf. rewrite !length_app in Hf.
  destruct (read_length_source fuel v bv tv rest y2 Hv Ev Hy2) as (y3 & -> & Hy3);
    [rewrite length_app; lia|]; cbn [obind].
  destruct (Malloc_oversized (n + v + 2)) as [->|(Hm & ->)]; [lia|done|]. cbn [obind].
  destruct (GetStr_source fuel (Z.to_nat n) rest y3 Hy3) as (y4 & Hg & _); [lia|].
  rewrite Z2Nat.id in Hg by lia. rewrite Hg. cbn [obind].
  rewrite take_ge by lia. destruct rest as [|x rest]; [done|]. cbn [length].
  by destruct (Z.ltb_spec 0 (Z.of_nat (S (length rest)))); [|lia].
Qed.
End Oversized.

(**  Eight bytes of parameters can stop the process: for a pair whose declared
    lengths sum to more than INT_MAX - 2, the size [nameLen + valueLen + 2] given to
    Malloc overflows; either the allocation fails and its ASSERT aborts, or nothing is
    allocated and the name is written past it. *)
Theorem ReadParams_oversized_pair stack T residual s q o c chunks later rs last rep e p fuel n v rest :
  reader_ready T residual s -> k_conns (kern o) !! ipcFd q = Some c ->
  c_rx c = map RData chunks ++ later -> Forall (fun b => b <> []) chunks -> wtakes (c_wr c) ->
  residual ++ concat chunks = encode_records rs ++ last ->
  wires stack q T last rs (encode_length n ++ encode_length v ++ rest) rep -> ending q T later last e ->
  shutdownNow o = false -> length stack = 64%nat ->
  is_byte T -> T <> FCGI_BEGIN_REQUEST -> 0 < requestId q < 65536 ->
  (length (residual ++ concat chunks) + 2 < fuel)%nat ->
  0 <= n < 2 ^ 31 -> 0 <= v < 2 ^ 31 -> 2 ^ 31 <= n + v + 2 -> rest <> [] ->
  Z.of_nat (length rest) < n ->
  ReadParams (FillBuffProc stack fuel) fuel p (mkSys s q o) = Crash.
Proof.
  intros Hs Hc Hrx Hch Hw Hflat Hws Hend Hsh Hst HT HTb Hid Hf Hn Hv Hsum Hrest Hshort.
  pose proof (ready_stream stack T residual s q o c chunks later fuel rs last _ rep
    Hs Hc Hrx Hch Hw Hflat Hws Hf) as Hy.
  pose proof (wires_data_length _ _ _ _ _ _ _ Hws) as Hlen.
  rewrite Hflat, length_app in Hf.
  pose proof (stream_source o c (ipcFd q) later Hsh stack q T last e (c_tx c)
    HT HTb Hid Hst Hend fuel (c_tx c ++ rep)) as SO.
  change (FillBuffProc stack fuel) with (FillBuff_loop stack fuel []).
  destruct (encode_length_head n Hn) as (bn & tn & En & Hbn).
  rewrite En in Hy, Hlen. cbn [app length] in Hy, Hlen.
  unfold ReadParams. destruct fuel as [|fuel']; [lia|]. cbn [ReadParams_loop].
  destruct (GetChar_source (SO := SO) _ _ Hy) as (y1 & -> & Hy1). cbn [obind].
  assert ((bn =? EOF) = false) as -> by (apply Z.eqb_neq; unfold is_byte, EOF in *; lia).
  rewrite (read_pair_oversized (SO := SO) (S fuel') n v bn tn rest y1); try done. lia.
Qed.

Definition demo_huge : list Z := [255; 255; 255; 255; 255; 255; 255; 255; 65].
Definition demo_huge_conn : conn :=
  mkConn (map RData [encode_record (mkRecord FCGI_PARAMS 7 demo_huge []) ++ demo_params_last] ++ [])
    [] [] true [].

Lemma ReadParams_oversized_pair_witness :
  ReadParams (FillBuffProc (replicate 64 0) 100) 100 (mkParams [] 30)
    (mkSys (demo_reader FCGI_PARAMS []) demo_request (put_conn 5 demo_huge_conn demo_os)) = Crash.
Proof.
  apply (ReadParams_oversized_pair (replicate 64 0) FCGI_PARAMS [] (demo_reader FCGI_PARAMS [])
    demo_request (put_conn 5 demo_huge_conn demo_os) demo_huge_conn
    [encode_record (mkRecord FCGI_PARAMS 7 demo_huge []) ++ demo_params_last] []
    [mkRecord FCGI_PARAMS 7 demo_huge []] demo_params_last ([] ++ []) 0 (mkParams [] 30) 100
    (2 ^ 31 - 1) (2 ^ 31 - 1) [65]).
  - constructor; try reflexivity; vm_compute; first [lia | split_and!; reflexivity].
  - reflexivity.
  - reflexivity.
  - vm_compute. repeat constructor; intros [=].
  - repeat constructor.
  - reflexivity.
  - apply (wires_cons _ _ _ _ (mkRecord FCGI_PARAMS 7 demo_huge []) [] demo_huge [] [] []);
      [concrete_record|by apply wire_data|done|apply wires_nil].
  - rewrite <-(app_nil_r demo_params_last). apply (end_of_stream demo_request FCGI_PARAMS [] [] []).
    cbn. lia.
  - reflexivity.
  - reflexivity.
  - unfold is_byte, FCGI_PARAMS; lia.
  - discriminate.
  - cbn. lia.
  - vm_compute. lia.
  - lia.
  - lia.
  - lia.
  - discriminate.
  - cbn. lia.
Defined.

(** ** Records that derail the reader *)

(** A reader of standard input whose connection delivers [bs] and is then closed. *)
Definition fed (T : Z) (bs : list Z) : sys :=
  mkSys (demo_reader T []) demo_request
    (put_conn 5 (mkConn [RData bs] [] [] true []) demo_os).

(** The results of some input operations, the error, and what was sent. *)
Definition observe (m : outcome (list rres * sys)) : outcome (list rres * Z * option (list Z)) :=
  let! (rs, y) := m in
  Ret (rs, FCGI_errno (strm y), c_tx <$> k_conns (kern (os y)) !! 5).

Definition run (ops : list rop) (y : sys) : outcome (list rres * Z * option (list Z)) :=
  observe (run_rops (FillBuffProc (replicate 64 0) 300) 300 ops y).

Definition rec7 (bs : list Z) : record := mkRecord FCGI_STDIN 7 bs [].

(**  An empty record of another request, such as the end of its input or an abort,
    makes the reader lose the next record of its own stream: [skip] stays set when
    there is no content to skip. *)
Theorem empty_foreign_record_loses_data :
  run [RStr 20] (fed FCGI_STDIN (encode_records
    [mkRecord FCGI_STDIN 9 [] []; rec7 (b! "first"); rec7 (b! "second"); rec7 []]))
    = Ret ([Bytes (b! "second")], 0, Some []) /\
  run [RStr 20] (fed FCGI_STDIN (encode_records
    [rec7 (b! "first"); rec7 (b! "second"); rec7 []]))
    = Ret ([Bytes (b! "firstsecond")], 0, Some []).
Proof. split; vm_compute; reflexivity. Qed.

(**  A FCGI_GET_VALUES record is answered only when bytes follow its content: the
    end of the record is noticed after a [read], so a server that sends the query and
    waits for the answer, then gives up, gets none. *)
Theorem lone_GET_VALUES_is_not_answered :
  run [RChar] (fed FCGI_STDIN (encode_record
    (mkRecord FCGI_GET_VALUES 0 (encode_pairs [(b! "FCGI_MAX_CONNS", [])]) [])))
    = Ret ([Char EOF], FCGX_PROTOCOL_ERROR, Some []) /\
  run [RChar] (fed FCGI_STDIN (encode_record
    (mkRecord FCGI_GET_VALUES 0 (encode_pairs [(b! "FCGI_MAX_CONNS", [])]) [0])))
    = Ret ([Char EOF], FCGX_PROTOCOL_ERROR, Some (encode_record
        (mkRecord FCGI_GET_VALUES_RESULT 0 ([14; 1] ++ b! "FCGI_MAX_CONNS" ++ [49]) (replicate 7 0)))).
Proof. split; vm_compute; reflexivity. Qed.

(**  The content of a management record of an unknown type is delivered to the
    application as if it were data of the stream. *)
Theorem unknown_management_content_is_delivered :
  run [RStr 8] (fed FCGI_STDIN (encode_records
    [mkRecord 99 0 (b! "bad") []; rec7 (b! "input"); rec7 []]))
    = Ret ([Bytes (b! "badinput")], 0, Some (encode_record (unknown_type_record 99))).
Proof. vm_compute. reflexivity. Qed.

(**  Asking for the same variable four times in a FCGI_GET_VALUES record writes
    past the 64 bytes of [response]; a name with a NUL byte writes through the NULL
    pointer [strchr] returns.  Both end the process. *)
Theorem GET_VALUES_overruns :
  run [RChar] (fed FCGI_STDIN (encode_records
    [mkRecord FCGI_GET_VALUES 0 (encode_pairs (replicate 4 (b! "FCGI_MPXS_CONNS", []))) [0]; rec7 []]))
    = Crash /\
  run [RChar] (fed FCGI_STDIN (encode_records
    [mkRecord FCGI_GET_VALUES 0 (encode_pairs [([65; 0; 66], [])]) [0]; rec7 []])) = Crash.
Proof. split; vm_compute; reflexivity. Qed.

(**  SetReaderType forgets the padding of the record that ended the stream: when
    the empty record that ends the parameters is padded, its padding is read as the
    header of the next record and the input is lost. *)
Theorem padding_before_next_stream_is_misread :
  let bs pad := encode_records [mkRecord FCGI_PARAMS 7 [] pad; rec7 (b! "input"); rec7 []] in
  let next pad :=
    let! (_, y) := FCGX_GetChar (FillBuffProc (replicate 64 0) 300) (fed FCGI_PARAMS (bs pad)) in
    let! s := SetReaderType FCGI_STDIN (strm y) in
    run [RStr 5] (set_strm s y) in
  next [] = Ret ([Bytes (b! "input")], 0, Some []) /\
  next (replicate 8 0) = Ret ([Bytes []], FCGX_UNSUPPORTED_VERSION, Some []).
Proof. split; vm_compute; reflexivity. Qed.

(** ** Output after an error *)

(**  After a write error has closed the stream, FCGX_PutStr still reports success
    for as long as the bytes fit in the buffer, and FCGX_FFlush reports success;
    nothing of them is ever sent. *)
Theorem PutStr_succeeds_on_closed_stream :
  let o := put_conn 5 (mkConn [] [WErr 32] [] true []) demo_os in
  let y := mkSys (NewWriter 8 (replicate 64 0) 64 FCGI_STDOUT) demo_request o in
  (let! (r1, y1) := run_wops [WStr (b! "abc"); WFlush] y in
   let! (r2, y2) := run_wops [WStr (b! "defg")] y1 in
   let! (r3, y3) := FCGX_FFlush EmptyBuffProc y2 in
   Ret (r1, isClosed (strm y1), FCGX_GetError y1, r2, r3, c_tx <$> k_conns (kern (os y3)) !! 5))
  = Ret ([3; EOF], true, 32, [4], 0, Some []).
Proof. vm_compute. reflexivity. Qed.

(** ** Accepting while shutting down *)

Lemma accept_inner_spins inet_addr addrs fuel sock intr fd addr o :
  shutdownPending o = true -> ClientAddrOK inet_addr addr addrs = false -> 0 <= fd ->
  accept_inner inet_addr fuel sock intr addrs fd (SA_inet addr) o = NoFuel.
Proof.
  revert o. induction fuel as [|fuel IH]; intros o Ho Hc Hfd; [done|].
  cbn [accept_inner accept_retry]. rewrite Ho. cbn [obind].
  destruct (Z.ltb_spec fd 0); [lia|]. rewrite Hc.
  destruct (sys_close fd o) as [r o1] eqn:E. apply IH; [|done|done].
  unfold sys_close in E. destruct (_ !! fd); by injection E as <- <-.
Qed.

(**  OS_Accept can loop forever on its way out: when SIGUSR1 arrives while a
    client that is not admitted is being accepted, the descriptor of that client is
    closed again and again and the request to shut down is never obeyed. *)
Theorem OS_Accept_never_returns inet_addr addrs fuel sock intr fd addr c evs o :
  k_accept (kern o) = AConn true fd (SA_inet addr) c :: evs -> shutdownPending o = false ->
  ClientAddrOK inet_addr addr addrs = false -> 0 <= fd ->
  OS_Accept inet_addr fuel sock intr addrs o = NoFuel.
Proof.
  intros Ha Ho Hc Hfd. destruct fuel as [|fuel]; [done|].
  unfold OS_Accept. cbn [accept_outer]. change (AcquireLock sock intr =? 0) with true.
  cbn [negb accept_inner accept_retry]. rewrite Ho. unfold sys_accept. rewrite Ha. cbn [obind].
  destruct (Z.ltb_spec fd 0); [lia|]. rewrite Hc.
  destruct (sys_close fd _) as [r o1] eqn:E. rewrite accept_inner_spins; try done.
  unfold sys_close in E. destruct (_ !! fd); injection E as <- <-; cbn; by rewrite Ho.
Qed.

Lemma OS_Accept_never_returns_witness :
  OS_Accept (fun _ => 1) 1000 0 false (Some (b! "10.0.0.1"))
    (mkOs 0 false false true demo_aio (mkKernel ∅ [AConn true 6 (SA_inet 2) demo_conn] [])) = NoFuel.
Proof.
  apply (OS_Accept_never_returns (fun _ => 1) (Some (b! "10.0.0.1")) 1000 0 false 6 2 demo_conn []);
    [reflexivity|reflexivity|reflexivity|lia].
Defined.
