(* ===== verification/FcgiStreambuf.v ===== *)
(** The C++ stream buffer of cwf/libfcgi/fcgio.cpp over the streams of fcgiapp.c, with
    the non-virtual operations of [std::streambuf] that clients call.  Output
    through it is proved against the [Sink] interface and input against the
    [Source] interface, so the results hold for every stream that implements them. *)
From Stdlib Require Import ZArith Lia Bool String.
From stdpp Require Import base list numbers.
From S2P Require Import Prelude FcgiProto OsUnix FcgiStream FcgiReader FcgiSink FcgiWriter FcgiSource.

(** ** State *)

(** [fcgi_streambuf]: the stream it writes to or reads from, the buffer it was given
    and its size, the get area from [eback () = buf] and the put area from
    [pbase () = buf], which are the same memory.  Positions are offsets from
    [buf]; libstdc++ lets [gptr] pass [egptr]. *)
Record fcgi_streambuf := mkStreambuf {
  fcgx : sys;
  buf : list Z;
  bufsize : nat;
  gptr : nat;
  egptr : nat;
  pptr : nat;
  epptr : nat;
}.

Definition set_fcgx (v : sys) (b : fcgi_streambuf) : fcgi_streambuf :=
  mkStreambuf v (buf b) (bufsize b) (gptr b) (egptr b) (pptr b) (epptr b).
Definition set_pptr (v : nat) (b : fcgi_streambuf) : fcgi_streambuf :=
  mkStreambuf (fcgx b) (buf b) (bufsize b) (gptr b) (egptr b) v (epptr b).
Definition set_gptr (v : nat) (b : fcgi_streambuf) : fcgi_streambuf :=
  mkStreambuf (fcgx b) (buf b) (bufsize b) v (egptr b) (pptr b) (epptr b).
Definition setg (g e : nat) (b : fcgi_streambuf) : fcgi_streambuf :=
  mkStreambuf (fcgx b) (buf b) (bufsize b) g e (pptr b) (epptr b).
Definition set_mem (v : list Z) (b : fcgi_streambuf) : fcgi_streambuf :=
  mkStreambuf (fcgx b) v (bufsize b) (gptr b) (egptr b) (pptr b) (epptr b).

(** Writes to the caller's array. *)
Definition buf_write (off : nat) (bs : list Z) (b : fcgi_streambuf) : outcome fcgi_streambuf :=
  if (off + length bs <=? length (buf b))%nat then Ret (set_mem (mem_write (buf b) off bs) b) else Crash.

(** ** Set-up *)

(** [reset]: both areas are empty and share the buffer. *)
Definition reset (b : fcgi_streambuf) : fcgi_streambuf :=
  mkStreambuf (fcgx b) (buf b) (bufsize b) 0 0 0 (bufsize b).

(** [setbuf]; the base class only answers [this]. *)
Definition setbuf (v : list Z) (bs : nat) (b : fcgi_streambuf) : bool * fcgi_streambuf :=
  if negb (bufsize b =? 0)%nat then (false, b)
  else (true, reset (mkStreambuf (fcgx b) v bs (gptr b) (egptr b) (pptr b) (epptr b))).

Definition init (fs : sys) (v : list Z) (bs : nat) : fcgi_streambuf :=
  (setbuf v bs (mkStreambuf fs [] 0 0 0 0 0)).2.

(** [attach]: what the put area held is dropped. *)
Definition attach (fs : sys) (b : fcgi_streambuf) : Z * fcgi_streambuf :=
  let b := set_fcgx fs b in
  (0, if negb (bufsize b =? 0)%nat then reset b else b).

Section Operations.
Variable emptyBuffProc : bool -> sys -> outcome sys.
Variable fillBuffProc : sys -> outcome sys.
Variable fuel : nat.

(** ** Output *)

(** Consumes the put area and [c]; any value but EOF is success. *)
Definition overflow (c : Z) (b : fcgi_streambuf) : outcome (Z * fcgi_streambuf) :=
  let putc b :=
    if negb (c =? EOF) then
      let! (r, y) := FCGX_PutChar emptyBuffProc c (fcgx b) in
      Ret (if r =? c then 0 else EOF, set_fcgx y b)
    else Ret (0, b) in
  if negb (bufsize b =? 0)%nat && negb (pptr b =? 0)%nat then
    let! (r, y) := FCGX_PutStr emptyBuffProc (slice (buf b) 0 (pptr b)) (fcgx b) in
    let b := set_fcgx y b in
    if negb (r =? Z.of_nat (pptr b)) then Ret (EOF, b) else putc (set_pptr 0 b)
  else putc b.

Definition sync (b : fcgi_streambuf) : outcome (Z * fcgi_streambuf) :=
  let! (r, b) := overflow EOF b in
  if negb (r =? 0) then Ret (EOF, b)
  else
    let! (r, y) := FCGX_FFlush emptyBuffProc (fcgx b) in
    Ret (if r =? 0 then 0 else EOF, set_fcgx y b).

(** [~fcgi_streambuf]. *)
Definition destroy (b : fcgi_streambuf) : outcome sys :=
  let! (_, b) := overflow EOF b in Ret (fcgx b).

(** [std::streambuf::sputc]. *)
Definition sputc (c : Z) (b : fcgi_streambuf) : outcome (Z * fcgi_streambuf) :=
  if (pptr b <? epptr b)%nat then
    let! b := buf_write (pptr b) [u8 c] b in
    Ret (u8 c, set_pptr (S (pptr b)) b)
  else overflow (u8 c) b.

(** [std::streambuf::xsputn]: the bytes put so far and those that are left. *)
Fixpoint base_xsputn (k : nat) (ret : Z) (s : list Z) (b : fcgi_streambuf) : outcome (Z * fcgi_streambuf) :=
  match k with
  | O => NoFuel
  | S k =>
      match s with
      | [] => Ret (ret, b)
      | _ =>
          let n := Nat.min (epptr b - pptr b) (length s) in
          let! b := buf_write (pptr b) (take n s) b in
          let b := set_pptr (pptr b + n) b in
          match drop n s with
          | [] => Ret (ret + Z.of_nat n, b)
          | c :: s =>
              let! (r, b) := overflow (u8 c) b in
              if r =? EOF then Ret (ret + Z.of_nat n, b)
              else base_xsputn k (ret + Z.of_nat n + 1) s b
          end
      end
  end.

Definition xsputn (s : list Z) (b : fcgi_streambuf) : outcome (Z * fcgi_streambuf) :=
  if 2 ^ 31 - 1 <? Z.of_nat (length s) then Ret (0, b)
  else if negb (bufsize b =? 0)%nat then base_xsputn (S (length s)) 0 s b
  else
    let! (r, y) := FCGX_PutStr emptyBuffProc s (fcgx b) in
    Ret (r, set_fcgx y b).

(** ** Input *)

(** [in_avail]: what is between the pointers, or [showmanyc ()], which is 0. *)
Definition in_avail (b : fcgi_streambuf) : Z :=
  let n := Z.of_nat (egptr b) - Z.of_nat (gptr b) in if n =? 0 then 0 else n.

(** [*gptr ()], for a pointer into the caller's array. *)
Definition get_byte (b : fcgi_streambuf) : outcome Z :=
  match buf b !! gptr b with Some c => Ret (u8 c) | None => Crash end.

Definition underflow (b : fcgi_streambuf) : outcome (Z * fcgi_streambuf) :=
  if negb (bufsize b =? 0)%nat then
    if in_avail b =? 0 then
      let! (bs, y) := FCGX_GetStr fillBuffProc fuel (Z.of_nat (bufsize b)) (fcgx b) in
      let! b := buf_write 0 bs (set_fcgx y b) in
      match bs with
      | [] => Ret (EOF, b)
      | _ =>
          let b := setg 0 (length bs) b in
          let! c := get_byte b in Ret (c, b)
      end
    else let! c := get_byte b in Ret (c, b)
  else
    let! (c, y) := FCGX_GetChar fillBuffProc (fcgx b) in
    Ret (c, set_fcgx y b).

Definition uflow (b : fcgi_streambuf) : outcome (Z * fcgi_streambuf) :=
  let! (rv, b) := underflow b in
  Ret (rv, if negb (bufsize b =? 0)%nat then set_gptr (S (gptr b)) b else b).

(** [std::streambuf::sgetc] and [sbumpc]. *)
Definition sgetc (b : fcgi_streambuf) : outcome (Z * fcgi_streambuf) :=
  if (gptr b <? egptr b)%nat then let! c := get_byte b in Ret (c, b) else underflow b.
Definition sbumpc (b : fcgi_streambuf) : outcome (Z * fcgi_streambuf) :=
  if (gptr b <? egptr b)%nat then
    let! c := get_byte b in Ret (c, set_gptr (S (gptr b)) b)
  else uflow b.

(** [std::streambuf::xsgetn] for [n] more bytes; a get area of negative size is
    copied by [memcpy]. *)
Fixpoint base_xsgetn (k : nat) (n : nat) (got : list Z) (b : fcgi_streambuf) : outcome (list Z * fcgi_streambuf) :=
  match k with
  | O => NoFuel
  | S k =>
      if (n =? 0)%nat then Ret (got, b)
      else if (egptr b <? gptr b)%nat then Crash
      else
        let m := Nat.min (egptr b - gptr b) n in
        let got := got ++ slice (buf b) (gptr b) (gptr b + m) in
        let b := set_gptr (gptr b + m) b in
        if (n =? m)%nat then Ret (got, b)
        else
          let! (c, b) := uflow b in
          if c =? EOF then Ret (got, b) else base_xsgetn k (n - m - 1) (got ++ [c]) b
  end.

Definition xsgetn (n : nat) (b : fcgi_streambuf) : outcome (list Z * fcgi_streambuf) :=
  if 2 ^ 31 - 1 <? Z.of_nat n then Ret ([], b)
  else if negb (bufsize b =? 0)%nat then base_xsgetn (S n) n [] b
  else
    let! (bs, y) := FCGX_GetStr fillBuffProc fuel (Z.of_nat n) (fcgx b) in
    Ret (bs, set_fcgx y b).
End Operations.

(** ** Output through the buffer *)

Inductive out_op :=
| Sputc (c : Z)
| Sputn (s : list Z)
| Pubsync.

Definition run_out (emptyBuffProc : bool -> sys -> outcome sys) (o : out_op) (b : fcgi_streambuf)
    : outcome (Z * fcgi_streambuf) :=
  match o with
  | Sputc c => sputc emptyBuffProc c b
  | Sputn s => xsputn emptyBuffProc s b
  | Pubsync => sync emptyBuffProc b
  end.
Fixpoint run_outs (emptyBuffProc : bool -> sys -> outcome sys) (os : list out_op) (b : fcgi_streambuf)
    : outcome (list Z * fcgi_streambuf) :=
  match os with
  | [] => Ret ([], b)
  | o :: os =>
      let! (r, b) := run_out emptyBuffProc o b in
      let! (rs, b) := run_outs emptyBuffProc os b in
      Ret (r :: rs, b)
  end.

(** The bytes an operation puts, and whether its result reports success. *)
Definition out_bytes (o : out_op) : list Z :=
  match o with Sputc c => [u8 c] | Sputn s => s | Pubsync => [] end.
Definition out_success (o : out_op) (r : Z) : Prop :=
  match o with
  | Sputc c => r <> EOF
  | Sputn s => r = Z.of_nat (length s)
  | Pubsync => r = 0
  end.
Definition out_ok (o : out_op) : Prop :=
  match o with Sputn s => Forall is_byte s /\ Z.of_nat (length s) < 2 ^ 31 | _ => True end.

Section Output.
Context {emptyBuffProc : bool -> sys -> outcome sys} {holds : list Z -> sys -> Prop}.
Context `{SK : !Sink emptyBuffProc holds}.

(** The stream and the put area together have accepted [d]. *)
Record accepts (d : list Z) (b : fcgi_streambuf) : Prop := {
  accepts_mem : (bufsize b <= length (buf b))%nat;
  accepts_area : epptr b = bufsize b /\ (pptr b <= bufsize b)%nat;
  accepts_bytes : exists d1, holds d1 (fcgx b) /\ d = d1 ++ slice (buf b) 0 (pptr b);
}.

Lemma buf_write_put d b bs : accepts d b -> (pptr b + length bs <= bufsize b)%nat ->
  exists b', buf_write (pptr b) bs b = Ret b' /\
    accepts (d ++ bs) (set_pptr (pptr b + length bs) b') /\ fcgx b' = fcgx b /\ pptr b' = pptr b /\
    bufsize b' = bufsize b.
Proof.
  intros [Hm [He Hp] (d1 & Hh & ->)] Hl. unfold buf_write.
  replace (_ <=? _)%nat with true by (symmetry; apply Nat.leb_le; lia).
  eexists. split; [done|]. split_and!; try done. split; cbn; [rewrite length_mem_write; lia|lia|].
  exists d1. split; [done|]. rewrite <- app_assoc. f_equal.
  rewrite (slice_app (mem_write _ _ _) 0 (pptr b)) by lia. rewrite slice_mem_write_before, slice_mem_write by lia. done.
Qed.

(** The put area is emptied and the character follows it. *)
Lemma overflow_accepts c d b : accepts d b -> c = EOF \/ is_byte c ->
  exists b', overflow emptyBuffProc c b = Ret (0, b') /\ pptr b' = 0%nat /\ bufsize b' = bufsize b /\
    accepts (d ++ (if c =? EOF then [] else [c])) b'.
Proof.
  intros [Hm [He Hp] (d1 & Hh & ->)] Hc. unfold overflow.
  assert (Hput : forall b1 d1, holds d1 (fcgx b1) -> bufsize b1 = bufsize b -> buf b1 = buf b ->
    epptr b1 = epptr b -> pptr b1 = 0%nat ->
    exists b', (if negb (c =? EOF) then
        let! (r, y) := FCGX_PutChar emptyBuffProc c (fcgx b1) in
        Ret (if r =? c then 0 else EOF, set_fcgx y b1)
      else Ret (0, b1)) = Ret (0, b') /\ pptr b' = 0%nat /\ bufsize b' = bufsize b /\
      accepts (d1 ++ (if c =? EOF then [] else [c])) b').
  { clear -SK Hm He Hp Hc. intros b1 d1 Hh E1 E2 E3 E4. destruct (Z.eqb_spec c EOF) as [->|Hn]; cbn [negb].
    - exists b1. split_and!; try done. split; rewrite ?E1, ?E2, ?E3, ?E4; [lia|lia|].
      exists d1. rewrite slice_nil, !app_nil_r. done.
    - destruct Hc as [|Hc]; [done|]. destruct (PutChar_sink c d1 (fcgx b1) Hh) as (y & -> & Hy). cbn [obind].
      rewrite u8_small in Hy |- * by done. rewrite Z.eqb_refl.
      eexists. split; [done|]. split_and!; try done. split; cbn; rewrite ?E1, ?E2, ?E3, ?E4; [lia|lia|].
      exists (d1 ++ [c]). rewrite slice_nil, app_nil_r. done. }
  destruct (Nat.eqb_spec (pptr b) 0) as [H0|H0].
  - rewrite andb_false_r. rewrite H0, slice_nil, app_nil_r. by apply Hput.
  - replace (bufsize b =? 0)%nat with false by (symmetry; apply Nat.eqb_neq; lia). cbn [negb andb].
    destruct (PutStr_sink (slice (buf b) 0 (pptr b)) d1 (fcgx b) Hh) as (y & -> & Hy). cbn [obind].
    rewrite length_slice by lia. rewrite Nat.sub_0_r. cbn [pptr set_fcgx]. rewrite Z.eqb_refl. cbn [negb].
    by apply Hput.
Qed.

Lemma sputc_accepts c d b : accepts d b ->
  exists r b', sputc emptyBuffProc c b = Ret (r, b') /\ r <> EOF /\ accepts (d ++ [u8 c]) b'.
Proof.
  intros Ha. pose proof (u8_bound c) as Hb. unfold sputc. pose proof (accepts_area _ _ Ha) as [He Hp].
  assert (Hne : u8 c <> EOF) by (unfold is_byte, EOF in *; lia).
  destruct (Nat.ltb_spec (pptr b) (epptr b)).
  - destruct (buf_write_put d b [u8 c] Ha) as (b' & -> & Ha' & _ & Ep & _); [cbn; lia|]. cbn [obind].
    exists (u8 c), (set_pptr (S (pptr b)) b'). split_and!; [by rewrite Nat.add_1_r in *; rewrite Ep in *|done|].
    cbn [length] in Ha'. by rewrite Nat.add_1_r in Ha'.
  - destruct (overflow_accepts (u8 c) d b Ha (or_intror Hb)) as (b' & -> & _ & _ & Ha').
    rewrite (proj2 (Z.eqb_neq _ _) Hne) in Ha'. by exists 0, b'.
Qed.

Lemma base_xsputn_accepts k ret s d b : accepts d b -> Forall is_byte s -> (length s < k)%nat ->
  exists b', base_xsputn emptyBuffProc k ret s b = Ret (ret + Z.of_nat (length s), b') /\ accepts (d ++ s) b'.
Proof.
  revert ret s d b. induction k as [|k IH]; intros ret s d b Ha Hs Hk; [lia|]. cbn [base_xsputn].
  destruct s as [|x t]; [exists b; rewrite app_nil_r, Z.add_0_r; done|]. set (s := x :: t) in *.
  pose proof (accepts_area _ _ Ha) as [He Hp]. set (n := Nat.min (epptr b - pptr b) (length s)).
  assert (Ht : length (take n s) = n) by (rewrite length_take; lia).
  destruct (buf_write_put d b (take n s) Ha) as (b1 & -> & Ha1 & _ & Ep & _); [lia|]. cbn [obind].
  rewrite Ht in Ha1. rewrite Ep.
  pose proof (take_drop n s) as Etd. destruct (drop n s) as [|c u] eqn:Ed.
  - rewrite app_nil_r in Etd. rewrite Etd in Ha1, Ht. rewrite <- Ht in Ha1 |- *. eexists. split; [done|done].
  - assert (Hcu : Forall is_byte (c :: u)) by (rewrite <- Ed; by apply Forall_drop).
    apply List.Forall_cons_iff in Hcu as [Hc Hu]. rewrite u8_small by done.
    destruct (overflow_accepts c _ _ Ha1 (or_intror Hc)) as (b2 & -> & _ & _ & Ha2). cbn [obind].
    change (0 =? EOF) with false. cbn iota.
    assert (Hce : (c =? EOF) = false) by (apply Z.eqb_neq; unfold is_byte, EOF in *; lia). rewrite Hce in Ha2.
    assert (Hl : (length u + n + 1 = length s)%nat) by (rewrite <- Etd, length_app, Ht; cbn; lia).
    destruct (IH (ret + Z.of_nat n + 1) u _ _ Ha2 Hu) as (b3 & -> & Ha3); [lia|].
    exists b3. split; [f_equal; f_equal; lia|]. rewrite <- Etd. by rewrite <- !app_assoc in Ha3.
Qed.

Lemma xsputn_accepts s d b : accepts d b -> Forall is_byte s -> Z.of_nat (length s) < 2 ^ 31 ->
  exists b', xsputn emptyBuffProc s b = Ret (Z.of_nat (length s), b') /\ accepts (d ++ s) b'.
Proof.
  intros Ha Hs Hl. unfold xsputn. replace (2 ^ 31 - 1 <? Z.of_nat (length s)) with false by lia.
  destruct (Nat.eqb_spec (bufsize b) 0) as [H0|H0]; cbn [negb].
  - destruct Ha as [Hm [He Hp] (d1 & Hh & ->)]. assert (E0 : pptr b = 0%nat) by lia.
    rewrite E0, slice_nil, app_nil_r.
    destruct (PutStr_sink s d1 (fcgx b) Hh) as (y & -> & Hy). cbn [obind]. eexists. split; [done|].
    split; cbn; [done|lia|]. exists (d1 ++ s). by rewrite E0, slice_nil, app_nil_r.
  - by apply (base_xsputn_accepts (S (length s)) 0); [..|lia].
Qed.

Lemma sync_accepts d b : accepts d b ->
  exists b', sync emptyBuffProc b = Ret (0, b') /\ accepts d b' /\ holds d (fcgx b').
Proof.
  intros Ha. unfold sync. destruct (overflow_accepts EOF d b Ha (or_introl eq_refl)) as (b1 & -> & Hp & Hbs & Ha1).
  cbn [obind]. change (EOF =? EOF) with true in Ha1. cbn iota in Ha1. rewrite app_nil_r in Ha1. cbn [Z.eqb negb].
  destruct Ha1 as [Hm [He Hp'] (d1 & Hh & E)]. rewrite Hp, slice_nil, app_nil_r in E. subst d1.
  destruct (FFlush_sink d (fcgx b1) Hh) as (y & -> & Hy). cbn [obind Z.eqb]. eexists. split; [done|]. split; [|done].
  split; cbn; [done|lia|]. exists d. rewrite Hp, slice_nil, app_nil_r. done.
Qed.

Lemma run_outs_accepts os d b : accepts d b -> Forall out_ok os ->
  exists rs b', run_outs emptyBuffProc os b = Ret (rs, b') /\ Forall2 out_success os rs /\
    accepts (d ++ concat (map out_bytes os)) b'.
Proof.
  intros Ha Hos. revert d b Ha. induction Hos as [|o os Ho Hos IH]; intros d b Ha; cbn [run_outs map concat].
  { exists [], b. rewrite app_nil_r. done. }
  assert (H : exists r b', run_out emptyBuffProc o b = Ret (r, b') /\ out_success o r /\ accepts (d ++ out_bytes o) b').
  { destruct o as [c|s|]; cbn [run_out out_success out_bytes].
    - by apply sputc_accepts.
    - destruct Ho as [Hs Hl]. destruct (xsputn_accepts s d b Ha Hs Hl) as (b' & E & Ha'). eauto.
    - destruct (sync_accepts d b Ha) as (b' & E & Ha' & _). rewrite app_nil_r. eauto. }
  destruct H as (r & b1 & -> & Hr & Ha1). cbn [obind].
  destruct (IH _ _ Ha1) as (rs & b2 & -> & Hrs & Ha2). cbn [obind].
  exists (r :: rs), b2. rewrite app_assoc. split_and!; [done|by constructor|done].
Qed.

Lemma init_accepts d y v bs : holds d y -> (bs <= length v)%nat -> accepts d (init y v bs).
Proof.
  intros Hy Hl. unfold init, setbuf, reset. cbn. split; cbn; [done|lia|].
  exists d. rewrite slice_nil, app_nil_r. done.
Qed.

(** C8. Whatever is put through a stream buffer of any size, in any order of
    [sputc], [sputn] and [pubsync], succeeds, and when the buffer is destroyed the
    stream has accepted exactly those bytes, in order. *)
Theorem streambuf_output_refines y v bs os d :
  holds d y -> (bs <= length v)%nat -> Forall out_ok os ->
  exists rs b y', run_outs emptyBuffProc os (init y v bs) = Ret (rs, b) /\
    Forall2 out_success os rs /\
    destroy emptyBuffProc b = Ret y' /\ holds (d ++ concat (map out_bytes os)) y'.
Proof.
  intros Hy Hl Hos. destruct (run_outs_accepts os d _ (init_accepts d y v bs Hy Hl) Hos) as (rs & b & E & Hrs & Ha).
  exists rs, b. unfold destroy.
  destruct (overflow_accepts EOF _ b Ha (or_introl eq_refl)) as (b1 & -> & Hp & _ & Ha1). cbn [obind].
  change (EOF =? EOF) with true in Ha1. cbn iota in Ha1. rewrite app_nil_r in Ha1.
  destruct Ha1 as [_ _ (d1 & Hh & E')]. rewrite Hp, slice_nil, app_nil_r in E'. subst d1. eauto.
Qed.
End Output.

(** ** Input through the buffer *)

Inductive in_op :=
| Sgetc
| Sbumpc
| Sgetn (n : nat).
Inductive in_res :=
| Got_char (c : Z)
| Got_str (s : list Z).

Definition run_in (fillBuffProc : sys -> outcome sys) (fuel : nat) (o : in_op) (b : fcgi_streambuf)
    : outcome (in_res * fcgi_streambuf) :=
  match o with
  | Sgetc => let! (c, b) := sgetc fillBuffProc fuel b in Ret (Got_char c, b)
  | Sbumpc => let! (c, b) := sbumpc fillBuffProc fuel b in Ret (Got_char c, b)
  | Sgetn n => let! (s, b) := xsgetn fillBuffProc fuel n b in Ret (Got_str s, b)
  end.
Fixpoint run_ins (fillBuffProc : sys -> outcome sys) (fuel : nat) (os : list in_op) (b : fcgi_streambuf)
    : outcome (list in_res * fcgi_streambuf) :=
  match os with
  | [] => Ret ([], b)
  | o :: os =>
      let! (r, b) := run_in fillBuffProc fuel o b in
      let! (rs, b) := run_ins fillBuffProc fuel os b in
      Ret (r :: rs, b)
  end.

(** The same on the bytes [d] that are left; [None] when there are too few. *)
Definition spec_in (o : in_op) (d : list Z) : option (in_res * list Z) :=
  match o, d with
  | Sgetc, c :: _ => Some (Got_char c, d)
  | Sbumpc, c :: d => Some (Got_char c, d)
  | Sgetn n, _ =>
      if (n <=? length d)%nat && (Z.of_nat n <? 2 ^ 31) then Some (Got_str (take n d), drop n d) else None
  | _, [] => None
  end.
Fixpoint spec_ins (os : list in_op) (d : list Z) : option (list in_res * list Z) :=
  match os with
  | [] => Some ([], d)
  | o :: os =>
      match spec_in o d with
      | None => None
      | Some (r, d) =>
          match spec_ins os d with None => None | Some (rs, d) => Some (r :: rs, d) end
      end
  end.

Section Input.
Context {fillBuffProc : sys -> outcome sys}.
Context {reads : list Z -> sys -> Prop} {ended : sys -> Prop}.
Context `{SO : !Source fillBuffProc reads ended}.
Context (fuel : nat).

(** The get area and the stream together will deliver [d]. *)
Record delivers (d : list Z) (b : fcgi_streambuf) : Prop := {
  delivers_mem : (bufsize b <= length (buf b))%nat;
  delivers_area : (gptr b <= egptr b <= bufsize b)%nat;
  delivers_bytes : exists rest, feeds (reads := reads) (ended := ended) rest (fcgx b) /\ d = slice (buf b) (gptr b) (egptr b) ++ rest;
  delivers_fuel : Forall is_byte d /\ (length d + 1 < fuel)%nat;
}.

Lemma delivers_take n d b : delivers d b -> (n <= egptr b - gptr b)%nat ->
  slice (buf b) (gptr b) (gptr b + n) = take n d /\ delivers (drop n d) (set_gptr (gptr b + n) b).
Proof.
  intros [Hm Ha (rest & Hr & ->) [Hb Hf]] Hn.
  assert (Hl : length (slice (buf b) (gptr b) (egptr b)) = (egptr b - gptr b)%nat) by (apply length_slice; lia).
  split.
  - rewrite take_app_le by lia. by rewrite slice_take by lia.
  - split; cbn; [done|lia| |].
    + exists rest. split; [done|]. rewrite drop_app_le by lia. by rewrite slice_drop.
    + split; [by apply Forall_drop|]. rewrite length_drop. lia.
Qed.

Lemma get_byte_head c d b : delivers (c :: d) b -> (gptr b < egptr b)%nat -> get_byte b = Ret c.
Proof.
  intros [Hm Ha (rest & Hr & E) [Hb Hf]] Hlt.
  destruct (slice_cons (buf b) (gptr b) (egptr b) ltac:(lia)) as (x & Hx & Hs).
  rewrite Hs in E. injection E as <- _. unfold get_byte. rewrite Hx.
  apply List.Forall_cons_iff in Hb as [Hb _]. by rewrite u8_small.
Qed.

(** The buffer is filled when it is empty and there is more. *)
Lemma underflow_delivers c d b : delivers (c :: d) b -> gptr b = egptr b ->
  exists b', underflow fillBuffProc fuel b = Ret (c, b') /\
    if (bufsize b =? 0)%nat then bufsize b' = 0%nat /\ delivers d b'
    else (gptr b' < egptr b')%nat /\ bufsize b' = bufsize b /\ delivers (c :: d) b'.
Proof.
  intros Hd Heq. pose proof Hd as [Hm Ha (rest & Hr & E) [Hb Hf]].
  rewrite Heq, slice_nil in E. cbn [app] in E. subst rest. unfold underflow.
  destruct (Nat.eqb_spec (bufsize b) 0) as [H0|H0]; cbn [negb].
  - destruct (feeds_GetChar (c :: d) (fcgx b) Hr) as (y & -> & Hy). cbn [obind].
    eexists. split; [done|]. split; [done|]. apply List.Forall_cons_iff in Hb as [Hc Hb]. cbn [length] in Hf.
    split; cbn; [lia|lia| |split; [done|lia]]. exists d. split; [done|]. rewrite Heq, slice_nil. done.
  - replace (in_avail b =? 0) with true.
    2:{ unfold in_avail. replace (Z.of_nat (egptr b) - Z.of_nat (gptr b)) with 0 by lia. done. }
    destruct (feeds_GetStr fuel (bufsize b) (c :: d) (fcgx b) Hr Hf) as (y & -> & Hy). cbn [obind].
    set (bs := take (bufsize b) (c :: d)) in *.
    assert (Hbs : (0 < length bs <= bufsize b)%nat).
    { subst bs. rewrite length_take. cbn [length]. lia. }
    unfold buf_write. cbn [buf set_fcgx Nat.add].
    replace (length bs <=? length (buf b))%nat with true by (symmetry; apply Nat.leb_le; lia). cbn [obind].
    destruct bs as [|x l] eqn:Ebs; [cbn in Hbs; lia|]. rewrite <- Ebs in *. set (b' := setg _ _ _).
    assert (Hd' : delivers (c :: d) b').
    { split; cbn; [rewrite length_mem_write; cbn; lia|lia| |done].
      exists (drop (bufsize b) (c :: d)). split; [done|].
      pose proof (slice_mem_write (buf b) 0 bs ltac:(cbn; lia)) as Es. cbn [Nat.add] in Es. rewrite Es.
      symmetry. apply take_drop. }
    rewrite (get_byte_head c d b' Hd') by (cbn; lia). cbn [obind].
    exists b'. split; [done|]. split; [cbn; lia|]. by split.
Qed.

Lemma sgetc_delivers c d b : delivers (c :: d) b -> (0 < bufsize b)%nat ->
  exists b', sgetc fillBuffProc fuel b = Ret (c, b') /\ delivers (c :: d) b' /\ bufsize b' = bufsize b.
Proof.
  intros Hd H0. unfold sgetc. pose proof (delivers_area _ _ Hd) as Ha. destruct (Nat.ltb_spec (gptr b) (egptr b)).
  - rewrite (get_byte_head c d b Hd) by done. by exists b.
  - destruct (underflow_delivers c d b Hd ltac:(lia)) as (b' & -> & H').
    replace (bufsize b =? 0)%nat with false in H' by (symmetry; apply Nat.eqb_neq; lia).
    destruct H' as (? & ? & ?). by exists b'.
Qed.

Lemma uflow_delivers c d b : delivers (c :: d) b -> gptr b = egptr b ->
  exists b', uflow fillBuffProc fuel b = Ret (c, b') /\ delivers d b' /\ bufsize b' = bufsize b.
Proof.
  intros Hd Heq. unfold uflow. destruct (underflow_delivers c d b Hd Heq) as (b1 & -> & H). cbn [obind].
  destruct (Nat.eqb_spec (bufsize b) 0) as [H0|H0].
  - destruct H as [E H]. rewrite E. cbn [Nat.eqb negb]. exists b1. split_and!; [done|done|lia].
  - destruct H as (Hlt & Hbs & H). rewrite Hbs. replace (bufsize b =? 0)%nat with false by (symmetry; apply Nat.eqb_neq; lia).
    cbn [negb]. destruct (delivers_take 1 _ _ H ltac:(lia)) as [_ H']. rewrite Nat.add_1_r in H'.
    eexists. split; [done|]. by split.
Qed.

Lemma sbumpc_delivers c d b : delivers (c :: d) b ->
  exists b', sbumpc fillBuffProc fuel b = Ret (c, b') /\ delivers d b' /\ bufsize b' = bufsize b.
Proof.
  intros Hd. unfold sbumpc. pose proof (delivers_area _ _ Hd) as Ha. destruct (Nat.ltb_spec (gptr b) (egptr b)).
  - rewrite (get_byte_head c d b Hd) by done. cbn [obind].
    destruct (delivers_take 1 _ _ Hd ltac:(lia)) as [_ H']. rewrite Nat.add_1_r in H'.
    eexists. split; [done|]. by split.
  - apply uflow_delivers; [done|lia].
Qed.

Lemma base_xsgetn_delivers k n got d b : delivers d b -> (n <= length d)%nat -> (n < k)%nat ->
  exists b', base_xsgetn fillBuffProc fuel k n got b = Ret (got ++ take n d, b') /\ delivers (drop n d) b' /\
    bufsize b' = bufsize b.
Proof.
  revert n got d b. induction k as [|k IH]; intros n got d b Hd Hn Hk; [lia|]. cbn [base_xsgetn].
  destruct (Nat.eqb_spec n 0) as [->|H0]; [exists b; by rewrite app_nil_r|].
  pose proof (delivers_area _ _ Hd) as Ha. replace (egptr b <? gptr b)%nat with false by (symmetry; apply Nat.ltb_ge; lia).
  set (m := Nat.min (egptr b - gptr b) n). destruct (delivers_take m d b Hd ltac:(lia)) as [-> Hd1].
  destruct (Nat.eqb_spec n m) as [Em|Hm]; [rewrite <- Em in Hd1 |- *; eexists; split; [done|]; by split|].
  assert (Hl : (m < length d)%nat) by lia.
  destruct (drop m d) as [|c u] eqn:Ed.
  { apply (f_equal length) in Ed. rewrite length_drop in Ed. cbn in Ed. lia. }
  destruct (uflow_delivers c u _ Hd1) as (b2 & -> & Hd2 & Hbs); [cbn; lia|]. cbn [obind].
  replace (c =? EOF) with false.
  2:{ symmetry. apply Z.eqb_neq. pose proof (proj1 (delivers_fuel _ _ Hd1)) as Hb.
      apply List.Forall_cons_iff in Hb as [Hb _]. unfold is_byte, EOF in *. lia. }
  assert (Hlu : (length u + m + 1 = length d)%nat).
  { apply (f_equal length) in Ed. rewrite length_drop in Ed. cbn in Ed. lia. }
  destruct (IH (n - m - 1)%nat ((got ++ take m d) ++ [c]) u b2 Hd2) as (b3 & -> & Hd3 & Hbs3); [lia|lia|].
  assert (Eu : u = drop (m + 1) d) by (rewrite <- drop_drop, Ed; done).
  exists b3. split_and!; [|by rewrite Eu, drop_drop in Hd3; replace (m + 1 + (n - m - 1))%nat with n in Hd3 by lia|rewrite Hbs3; exact Hbs].
  f_equal. f_equal. rewrite <- !app_assoc. f_equal. cbn [app].
  rewrite <- (take_drop m d) at 2. rewrite Ed. rewrite take_app_ge by (rewrite length_take; lia).
  rewrite length_take. replace (n - Nat.min m (length d))%nat with (S (n - m - 1)) by lia. done.
Qed.

Lemma xsgetn_delivers n d b : delivers d b -> (n <= length d)%nat -> Z.of_nat n < 2 ^ 31 ->
  exists b', xsgetn fillBuffProc fuel n b = Ret (take n d, b') /\ delivers (drop n d) b' /\ bufsize b' = bufsize b.
Proof.
  intros Hd Hn Hl. unfold xsgetn. replace (2 ^ 31 - 1 <? Z.of_nat n) with false by lia.
  destruct (Nat.eqb_spec (bufsize b) 0) as [H0|H0]; cbn [negb].
  - pose proof Hd as [Hm Ha (rest & Hr & E) [Hb Hf]]. assert (Eg : gptr b = egptr b) by lia.
    rewrite Eg, slice_nil in E. cbn [app] in E. subst rest.
    destruct (feeds_GetStr fuel n d (fcgx b) Hr Hf) as (y & -> & Hy). cbn [obind]. eexists. split; [done|].
    split; [|done]. split; cbn; [done|lia| |].
    + exists (drop n d). split; [done|]. by rewrite Eg, slice_nil.
    + split; [by apply Forall_drop|rewrite length_drop; lia].
  - by apply (base_xsgetn_delivers (S n) n []); [..|lia].
Qed.

Lemma run_ins_delivers os d b rs d' : delivers d b -> (0 < bufsize b)%nat -> spec_ins os d = Some (rs, d') ->
  exists b', run_ins fillBuffProc fuel os b = Ret (rs, b') /\ delivers d' b' /\ bufsize b' = bufsize b.
Proof.
  revert d b rs. induction os as [|o os IH]; intros d b rs Hd H0 Hs; cbn [spec_ins run_ins] in *.
  { injection Hs as <- <-. by exists b. }
  destruct (spec_in o d) as [[r d1]|] eqn:Eo; [|done].
  destruct (spec_ins os d1) as [[rs1 d2]|] eqn:Es; [|done]. injection Hs as <- <-.
  assert (H : exists b1, run_in fillBuffProc fuel o b = Ret (r, b1) /\ delivers d1 b1 /\ bufsize b1 = bufsize b).
  { destruct o as [| |n]; cbn [spec_in run_in] in *.
    - destruct d as [|c d]; [done|]. injection Eo as <- <-.
      destruct (sgetc_delivers c d b Hd H0) as (b1 & -> & ?). by exists b1.
    - destruct d as [|c d]; [done|]. injection Eo as <- <-.
      destruct (sbumpc_delivers c d b Hd) as (b1 & -> & ?). by exists b1.
    - destruct (_ && _) eqn:E; [|destruct d; done]. apply andb_true_iff in E as [E1%Nat.leb_le E2%Z.ltb_lt].
      assert (Eo' : Some (Got_str (take n d), drop n d) = Some (r, d1)) by (destruct d; exact Eo).
      injection Eo' as <- <-. destruct (xsgetn_delivers n d b Hd E1 E2) as (b1 & -> & ?). by exists b1. }
  destruct H as (b1 & -> & Hd1 & Hbs). cbn [obind].
  destruct (IH d1 b1 rs1 Hd1 ltac:(lia) Es) as (b2 & -> & Hd2 & Hbs2). cbn [obind]. exists b2. split_and!; [done|done|congruence].
Qed.

Lemma init_delivers d y v bs : reads d y -> (bs <= length v)%nat -> Forall is_byte d -> (length d + 1 < fuel)%nat ->
  delivers d (init y v bs).
Proof.
  intros Hy Hl Hb Hf. unfold init, setbuf, reset. cbn. split; cbn; [done|lia| |done].
  exists d. rewrite slice_nil. split; [by left|done].
Qed.

(** A read pointer past the get area is not noticed. *)
Lemma sbumpc_past b : (egptr b < gptr b)%nat -> bufsize b <> 0%nat ->
  sbumpc fillBuffProc fuel b = let! c := get_byte b in Ret (c, set_gptr (S (gptr b)) b).
Proof.
  intros Hlt H0. unfold sbumpc, uflow, underflow, in_avail. apply Nat.eqb_neq in H0. rewrite H0. cbn [negb].
  rewrite (proj2 (Nat.ltb_ge (gptr b) (egptr b))) by lia.
  assert (Ez : (Z.of_nat (egptr b) - Z.of_nat (gptr b) =? 0) = false) by (apply Z.eqb_neq; lia).
  rewrite Ez, Ez. destruct (get_byte b); cbn [obind]; rewrite ?H0; done.
Qed.

(** C9. Reading through a stream buffer gives what the stream delivers, whatever
    the sizes of the buffer and of the pieces, as long as no more is asked for
    than there is.  At the end of the input the code breaks: [uflow] moves the
    read pointer past the get area although [underflow] has failed, and the read
    after the first EOF returns a stale byte of the buffer instead of EOF. *)
Theorem streambuf_input_refines y v bs os d rs d' :
  reads d y -> (0 < bs <= length v)%nat -> Forall is_byte d -> (length d + 1 < fuel)%nat ->
  spec_ins os d = Some (rs, d') ->
  exists b, run_ins fillBuffProc fuel os (init y v bs) = Ret (rs, b) /\
    (d' = [] -> exists b1, sbumpc fillBuffProc fuel b = Ret (EOF, b1) /\
       match buf b !! S (egptr b) with
       | Some stale => exists b2, sbumpc fillBuffProc fuel b1 = Ret (u8 stale, b2)
       | None => sbumpc fillBuffProc fuel b1 = Crash
       end).
Proof.
  intros Hy Hbs Hb Hf Hs.
  destruct (run_ins_delivers os d _ rs d' (init_delivers d y v bs Hy ltac:(lia) Hb Hf)) as (b & E & Hd & Hbb);
    [cbn; lia|done|].
  exists b. split; [done|]. intros ->. destruct Hd as [Hm Ha (rest & Hr & Ed) _].
  symmetry in Ed. apply app_eq_nil in Ed as [Es ->].
  assert (Eg : gptr b = egptr b).
  { apply (f_equal length) in Es. rewrite length_slice in Es by lia. cbn in Es. lia. }
  cbn in Hbb. assert (H0 : (bufsize b =? 0)%nat = false) by (apply Nat.eqb_neq; lia).
  assert (Hgt : forall a e, (e <= a)%nat -> (a <? e)%nat = false) by (intros; by apply Nat.ltb_ge).
  unfold sbumpc at 1. rewrite Hgt by lia. unfold uflow, underflow. rewrite H0. cbn [negb].
  replace (in_avail b =? 0) with true.
  2:{ unfold in_avail. replace (Z.of_nat (egptr b) - Z.of_nat (gptr b)) with 0 by lia. done. }
  destruct (feeds_GetStr fuel (bufsize b) [] (fcgx b) Hr) as (y' & -> & _); [cbn; lia|]. cbn [obind].
  rewrite take_nil. unfold buf_write. cbn [length Nat.add Nat.leb buf set_fcgx obind].
  rewrite mem_write_nil. cbn [set_mem set_fcgx buf bufsize gptr egptr pptr epptr fcgx obind]. rewrite H0. cbn [negb].
  eexists. split; [done|]. rewrite sbumpc_past by (cbn; lia). unfold get_byte.
  cbn [set_gptr set_mem set_fcgx gptr buf]. rewrite Eg.
  destruct (buf b !! S (egptr b)); cbn [obind]; [eauto|done].
Qed.
End Input.

(** ** Concrete streams *)

Definition demo_writer : sys := mkSys (NewWriter 8 (replicate 32 0) 10 FCGI_STDOUT) demo_request demo_os.

(** "hello, " and a newline through a buffer of 4 of 6 bytes into a record writer. *)
Example streambuf_output_refines_witness :
  exists rs b y', run_outs EmptyBuffProc [Sputn (b! "hello, "); Pubsync; Sputc 10]
      (init demo_writer (replicate 6 0) 4) = Ret (rs, b) /\
    Forall2 out_success [Sputn (b! "hello, "); Pubsync; Sputc 10] rs /\
    destroy EmptyBuffProc b = Ret y' /\
    holds_records demo_os demo_conn demo_request FCGI_STDOUT false (b! "hello, " ++ [10]) y'.
Proof.
  pose proof (records_sink demo_os demo_conn demo_request FCGI_STDOUT false
    eq_refl ltac:(by vm_compute) ltac:(by vm_compute)) as SK.
  apply (streambuf_output_refines (SK := SK WriteCloseRecords) demo_writer (replicate 6 0) 4
    [Sputn (b! "hello, "); Pubsync; Sputc 10] []).
  - apply NewWriter_holds; [lia | done | done |]. repeat constructor.
  - cbn. lia.
  - repeat constructor; cbn; lia.
Defined.

(** "abc" from a stream through 2 of 4 bytes: two characters one at a time and then
    the third; what follows the end of the get area is then the stale 'b'. *)
Definition demo_reader : sys :=
  upd_strm (set_stop 3) (mkSys (NewReader 8 (b! "abc" ++ replicate 29 0) 32 FCGI_STDIN) demo_request demo_os).

Example streambuf_input_refines_witness :
  exists b, run_ins end_fill 10 [Sgetc; Sbumpc; Sgetn 2] (init demo_reader (b! "....") 2)
      = Ret ([Got_char 97; Got_char 97; Got_str (b! "bc")], b) /\
    ([] = @nil Z -> exists b1, sbumpc end_fill 10 b = Ret (EOF, b1) /\
      match buf b !! S (egptr b) with
      | Some stale => exists b2, sbumpc end_fill 10 b1 = Ret (u8 stale, b2)
      | None => sbumpc end_fill 10 b1 = Crash
      end).
Proof.
  apply (streambuf_input_refines (SO := buffer_source) 10 demo_reader (b! "....") 2
    [Sgetc; Sbumpc; Sgetn 2] (b! "abc")).
  - split_and!; first [by vm_compute | apply Nat.leb_le; by vm_compute].
  - cbn. lia.
  - repeat constructor; cbn; lia.
  - cbn. lia.
  - done.
Defined.
