(* ===== verification/FcgiPrintf.v ===== *)
(** Formatted output: FCGX_VFPrintF of cwf/libfcgi/fcgiapp.c.

    [sprintf] of the C library is defined here on one conversion specification, for
    the integer, character and string conversions as the C standard has them; how a
    floating-point number and a pointer are printed comes from the class [Libc].
    A buffer is given by its capacity: [sprintf] into one that is too small is
    [Crash].  The arguments of the call are a list of typed values; reading one of
    another type than the next is [Crash].

    The theorems are in FcgiPrintfOk. *)
From Stdlib Require Import ZArith Lia Bool String.
From stdpp Require Import base list numbers.
From S2P Require Import Prelude.
From S2P Require Import Clib.
From S2P Require Import FcgiProto.
From S2P Require Import OsUnix.
From S2P Require Import FcgiStream.

(** ** The C library *)

(** [frexp] gives the exponent that the function of this name stores, [to_double] is
    the conversion of a [long double] to [double].  [print_double op alt prec d] is
    whether [d] is negative, its digits without sign, and whether it is a number (and
    not an infinity or a NaN).

    Two members are not called by the program, and say of a [long double] what the
    laws of FcgiPrintfOk need: [frexpl] is its own exponent, and [double_range]
    whether it is a number in the range of [double] (between -DBL_MAX and DBL_MAX).
    Beyond that range C gives the conversion no meaning; with IEEE arithmetic it
    gives an infinity, and what [frexp] stores for one is unspecified (the GNU
    library stores 0). *)
Class Libc := {
  double : Type;
  long_double : Type;
  frexp : double -> Z;
  to_double : long_double -> double;
  frexpl : long_double -> Z;
  double_range : long_double -> bool;
  print_double : Z -> bool -> Z -> double -> bool * list Z * bool;
  print_long_double : Z -> bool -> Z -> long_double -> bool * list Z * bool;
  print_pointer : Z -> list Z
}.

Section Printf.
Context {LC : Libc}.

(** An argument of a variadic call: [VInt] is an [int] or [unsigned], [VStr None] a
    null [char *]; the last three are addresses of a counter. *)
Inductive va :=
| VInt (z : Z)
| VLong (z : Z)
| VDouble (d : double)
| VLDouble (d : long_double)
| VStr (s : option (list Z))
| VPtr (p : Z)
| VIntPtr (p : Z)
| VLongPtr (p : Z)
| VShortPtr (p : Z).

(** A conversion specification: flags, minimum width, precision, size modifier (a
    space when there is none) and conversion. *)
Record spec := mkSpec {
  sp_flags : list Z;
  sp_width : Z;
  sp_prec : option Z;
  sp_mod : Z;
  sp_op : Z
}.

Definition is_flag (c : Z) : bool := char_in c (b! "-0+ #").
Definition is_size (c : Z) : bool := char_in c (b! "lLh").

(** ** sprintf of one specification *)

Definition chars (n c : Z) : list Z := replicate (Z.to_nat n) c.

(** The padding to the width: on the right, with zeros after the sign, or on the
    left. *)
Definition pad (sp : spec) (zeros : bool) (sign body : list Z) : list Z :=
  let n := sp_width sp - Z.of_nat (length sign + length body) in
  if char_in 45 (sp_flags sp) then sign ++ body ++ chars n 32
  else if zeros && char_in 48 (sp_flags sp) then sign ++ chars n 48 ++ body
  else chars n 32 ++ sign ++ body.

Definition digit_char (upper : bool) (d : Z) : Z :=
  if d <? 10 then d + 48 else d - 10 + (if upper then 65 else 97).

Fixpoint base_digits (fuel : nat) (upper : bool) (base k : Z) : list Z :=
  match fuel with
  | O => []
  | S fuel =>
      if k <? base then [digit_char upper k]
      else base_digits fuel upper base (k / base) ++ [digit_char upper (k mod base)]
  end.

(** The digits of a number below 2^64, at least as many as the precision. *)
Definition number (prec : option Z) (upper : bool) (base k : Z) : list Z :=
  let ds := match prec with
            | Some 0 => if k =? 0 then [] else base_digits 22 upper base k
            | _ => base_digits 22 upper base k
            end in
  chars (default 0 prec - Z.of_nat (length ds)) 48 ++ ds.

Definition sign_of (sp : spec) (negative : bool) : list Z :=
  if negative then [45]
  else if char_in 43 (sp_flags sp) then [43]
  else if char_in 32 (sp_flags sp) then [32] else [].

Definition no_prec (sp : spec) : bool := match sp_prec sp with None => true | _ => false end.

Definition print_signed (sp : spec) (v : Z) : list Z :=
  pad sp (no_prec sp) (sign_of sp (v <? 0)) (number (sp_prec sp) false 10 (Z.abs v)).

Definition print_unsigned (sp : spec) (v : Z) : list Z :=
  let alt := char_in 35 (sp_flags sp) in
  let upper := sp_op sp =? 88 in
  if sp_op sp =? 117 then pad sp (no_prec sp) [] (number (sp_prec sp) false 10 v)
  else if sp_op sp =? 111 then
    let ds := number (sp_prec sp) false 8 v in
    pad sp (no_prec sp) [] (if alt && negb (char_at ds =? 48) then 48 :: ds else ds)
  else
    pad sp (no_prec sp) (if alt && negb (v =? 0) then [48; sp_op sp] else [])
        (number (sp_prec sp) upper 16 v).

Definition print_float (sp : spec) (r : bool * list Z * bool) : list Z :=
  let '(negative, body, finite) := r in pad sp finite (sign_of sp negative) body.

(** The characters one specification produces for its argument; [None] when the
    type of the argument is not that of the conversion. *)
Definition render (sp : spec) (a : va) : option (list Z) :=
  let op := sp_op sp in
  let alt := char_in 35 (sp_flags sp) in
  let prec := default 6 (sp_prec sp) in
  match a with
  | VInt z =>
      let short := sp_mod sp =? 104 in
      if negb (short || (sp_mod sp =? 32)) then None
      else if char_in op (b! "di") then Some (print_signed sp (if short then s16 z else s32 z))
      else if char_in op (b! "uoxX") then
        Some (print_unsigned sp (if short then u16 z else u32 z))
      else if (op =? 99) && negb short then Some (pad sp false [] [u8 z])
      else None
  | VLong z =>
      if negb (sp_mod sp =? 108) then None
      else if char_in op (b! "di") then Some (print_signed sp (s64 z))
      else if char_in op (b! "uoxX") then Some (print_unsigned sp (u64 z))
      else None
  | VDouble d =>
      if (sp_mod sp =? 32) && char_in op (b! "feEgG")
      then Some (print_float sp (print_double op alt prec d)) else None
  | VLDouble d =>
      if (sp_mod sp =? 76) && char_in op (b! "feEgG")
      then Some (print_float sp (print_long_double op alt prec d)) else None
  | VStr (Some s) =>
      if (sp_mod sp =? 32) && (op =? 115)
      then Some (pad sp false [] match sp_prec sp with
                                 | None => s
                                 | Some p => take (Z.to_nat p) s
                                 end)
      else None
  | VPtr p =>
      if (sp_mod sp =? 32) && (op =? 112) then Some (pad sp false [] (print_pointer p)) else None
  | _ => None
  end.

(** The specification in the format given to [sprintf], without its percent sign. *)
Definition parse_spec (t : list Z) : option spec :=
  let '(flags, t) := span is_flag t in
  let '(width, t) := span isdigit t in
  let '(prec, t) :=
    if char_at t =? 46 then
      let '(ds, t) := span isdigit (tail t) in (Some (dec_value ds), t)
    else (None, t) in
  let '(md, t) := if is_size (char_at t) then (char_at t, tail t) else (32, t) in
  match t with
  | [op] => Some (mkSpec flags (dec_value width) prec md op)
  | _ => None
  end.

Definition sprintf (fmt : list Z) (a : va) : option (list Z) :=
  match fmt with
  | c :: t => if c =? 37 then sp ← parse_spec t; render sp a else None
  | [] => None
  end.

(** [sprintf (buffPtr, fmtBuff, arg)] and [strlen (buffPtr)], for a buffer of [cap]
    bytes: the characters before the first NUL. *)
Definition sprintf_into (cap : Z) (fmt : list Z) (a : va) : outcome (list Z) :=
  match sprintf fmt a with
  | None => Crash
  | Some out => if Z.of_nat (length out) + 1 <=? cap then Ret (cstr out) else Crash
  end.

(** ** FCGX_VFPrintF: one conversion *)

Definition PRINTF_BUFFLEN : Z := 100.
Definition FMT_BUFFLEN : Z := 25.

Definition va_int (args : list va) : outcome (Z * list va) :=
  match args with VInt z :: r => Ret (z, r) | _ => Crash end.

(** How the switch ends: the text in the buffer, whose length is [buffLen], with the
    arguments left and what [%n] stored; or [performedOp] is FALSE; or a jump to
    ErrorReturn. *)
Inductive op_result :=
| OpDone (text : list Z) (buffLen : Z) (args : list va) (stores : list (Z * Z))
| OpNot
| OpError.

(** The types that the cases of the switch read with [va_arg]. *)
Inductive kind := KInt | KShort | KLong | KDouble | KLDouble | KPtr.

Definition integer_kind (md : Z) : option kind :=
  if md =? 32 then Some KInt else if md =? 108 then Some KLong
  else if md =? 104 then Some KShort else None.

Definition float_kind (md : Z) : option kind :=
  if md =? 32 then Some KDouble else if md =? 76 then Some KLDouble else None.

Definition va_arg (signed : bool) (k : kind) (args : list va) : outcome (va * list va) :=
  match k, args with
  | KInt, VInt z :: r => Ret (VInt z, r)
  | KShort, VInt z :: r => Ret (VInt (if signed then s16 z else u16 z), r)
  | KLong, VLong z :: r => Ret (VLong z, r)
  | KDouble, VDouble d :: r => Ret (VDouble d, r)
  | KLDouble, VLDouble d :: r => Ret (VLDouble d, r)
  | KPtr, VPtr p :: r => Ret (VPtr p, r)
  | _, _ => Crash
  end.

(** A case that reads an argument and prints it. *)
Definition print_arg (signed : bool) (k : option kind) (cap : Z) (fmt : list Z)
    (args : list va) : outcome op_result :=
  match k with
  | None => Ret OpError
  | Some k =>
      let! (a, args) := va_arg signed k args in
      let! text := sprintf_into cap fmt a in
      Ret (OpDone text cap args [])
  end.

(** The switch.  [pre] is the argument the slow path has read already. *)
Definition perform_op (fast : bool) (op md : Z) (fmt : list Z) (cap : Z) (pre : option va)
    (args : list va) (streamCount : Z) : outcome op_result :=
  if char_in op (b! "di") then print_arg true (integer_kind md) cap fmt args
  else if char_in op (b! "uoxX") then print_arg false (integer_kind md) cap fmt args
  else if op =? 99 then
    print_arg true (if md =? 32 then Some KInt else None) cap fmt args
  else if op =? 115 then
    if md =? 32 then
      if fast then
        match args with
        | VStr (Some s) :: r => Ret (OpDone s (Z.of_nat (length s) + 1) r [])
        | _ => Crash
        end
      else
        match pre with
        | Some a => let! text := sprintf_into cap fmt a in Ret (OpDone text cap args [])
        | None => Crash
        end
    else Ret OpError
  else if op =? 112 then
    print_arg true (if md =? 32 then Some KPtr else None) cap fmt args
  else if op =? 110 then
    match (if md =? 32 then Some 0 else if md =? 108 then Some 1
           else if md =? 104 then Some 2 else None) with
    | None => Ret OpError
    | Some k =>
        match args with
        | VIntPtr p :: r => if k =? 0 then Ret (OpDone [] cap r [(p, streamCount)]) else Crash
        | VLongPtr p :: r => if k =? 1 then Ret (OpDone [] cap r [(p, streamCount)]) else Crash
        | VShortPtr p :: r =>
            if k =? 2 then Ret (OpDone [] cap r [(p, s16 streamCount)]) else Crash
        | _ => Crash
        end
    end
  else if op =? 102 then
    if fast then Ret OpNot
    else
      match float_kind md with
      | None => Ret OpError
      | Some _ =>
          match pre with
          | Some a => let! text := sprintf_into cap fmt a in Ret (OpDone text cap args [])
          | None => Crash
          end
      end
  else if char_in op (b! "eEgG") then print_arg true (float_kind md) cap fmt args
  else if op =? 37 then
    if md =? 32 then Ret (OpDone [37] cap args []) else Ret OpError
  else if op =? 0 then Ret OpError
  else Ret OpNot.

(** *** The fast path *)

(** [op], [sizeModifier], [fmtBuff] and the length of the specification. *)
Definition fast_scan (p : list Z) : Z * Z * list Z * nat :=
  let c := char_at p in
  if is_size c then
    let op := char_at (tail p) in (op, c, [37; c; op], 3%nat)
  else (c, 32, [37; c], 2%nat).

(** *** The slow path *)

(** The minimum width: its value, its text in [fmtBuff], what follows it. *)
Definition scan_width (p : list Z) (args : list va)
    : outcome (option (Z * list Z * list Z * list va)) :=
  let '(ds, p') := span isdigit p in
  if (length ds =? 0)%nat then
    if char_at p =? 42 then
      let! (minWidth, args) := va_int args in
      ASSERT negb (minWidth =? - 2 ^ 31) in
      if Z.abs minWidth >? 999999 then Ret None
      else Ret (Some (minWidth, format_d minWidth, tail p, args))
    else Ret (Some (0, [], p, args))
  else if (length ds <=? 6)%nat then Ret (Some (dec_value ds, ds, p', args))
  else Ret None.

(** The precision, -1 when there is none. *)
Definition scan_precision (p : list Z) (args : list va)
    : outcome (option (Z * list Z * list Z * list va)) :=
  if char_at p =? 46 then
    let p := tail p in
    let '(ds, p') := span isdigit p in
    if (length ds =? 0)%nat then
      if char_at p =? 42 then
        let! (precision, args) := va_int args in
        let precision := if precision <? 0 then 0 else precision in
        if precision >? 999999 then Ret None
        else Ret (Some (precision, 46 :: format_d precision, tail p, args))
      else Ret (Some (0, [46], p, args))
    else if (length ds <=? 6)%nat then Ret (Some (dec_value ds, 46 :: ds, p', args))
    else Ret None
  else Ret (Some (-1, [], p, args)).

(** What the scan of the slow path finds. *)
Record slow := mkSlow {
  sl_fmt : list Z;
  sl_minWidth : Z;
  sl_precision : Z;
  sl_mod : Z;
  sl_op : Z;
  sl_length : nat;
  sl_args : list va
}.

Definition slow_scan (p0 : list Z) (args : list va) : outcome (option slow) :=
  let '(flags, p) := span is_flag p0 in
  if (5 <? length flags)%nat then Ret None
  else
    let! w := scan_width p args in
    match w with
    | None => Ret None
    | Some (minWidth, wtext, p, args) =>
        let! pr := scan_precision p args in
        match pr with
        | None => Ret None
        | Some (precision, ptext, p, args) =>
            let '(md, mtext, p) :=
              if is_size (char_at p) then (char_at p, [char_at p], tail p) else (32, [], p) in
            let op := char_at p in
            let fmtBuff := 37 :: flags ++ wtext ++ ptext ++ mtext ++ [op] in
            ASSERT Z.of_nat (length fmtBuff) <? FMT_BUFFLEN in
            Ret (Some (mkSlow fmtBuff minWidth precision md op
                         (S (length p0 - length p + 1)) args))
        end
    end.

(** The bound on the characters that [sprintf] will need, and the argument of [s]
    and [f]; [None] is ErrorReturn. *)
Definition bound_buffer (s : slow) : outcome (option (Z * option va * list va)) :=
  let op := sl_op s in
  let precision := sl_precision s in
  let args := sl_args s in
  if char_in op (b! "diuoxXcp") then Ret (Some (Z.max precision 46, None, args))
  else if op =? 115 then
    match args with
    | VStr str :: r =>
        let str := default (b! "(null)") str in
        let buffReqd :=
          if precision =? -1 then Z.of_nat (length str)
          else Z.min precision (Z.of_nat (length str)) in
        Ret (Some (buffReqd, Some (VStr (Some str)), r))
    | _ => Crash
    end
  else if op =? 102 then
    match float_kind (sl_mod s) with
    | None => Ret None
    | Some k =>
        let! (a, r) := va_arg true k args in
        let exp := match a with
                   | VDouble d => frexp d
                   | VLDouble d => frexp (to_double d)
                   | _ => 0
                   end in
        let precision := if precision =? -1 then 6 else precision in
        Ret (Some (precision + 3 + (if exp >? 0 then exp / 3 else 0), Some a, r))
    end
  else if char_in op (b! "eEgG") then
    let precision := if precision =? -1 then 6 else precision in
    Ret (Some (precision + 8, None, args))
  else Ret None.

Section Output.
Variable emptyBuffProc : bool -> FcgiStream.sys -> outcome FcgiStream.sys.
(** Does [malloc] give a block of so many bytes?  [Malloc] stops the process when
    it does not. *)
Variable malloc_ok : Z -> bool.

(** The choice of the buffer: its capacity and the size of the auxiliary buffer. *)
Definition choose_buffer (buffReqd : Z) (aux : option Z) : outcome (Z * option Z) :=
  if buffReqd <=? PRINTF_BUFFLEN then Ret (PRINTF_BUFFLEN, aux)
  else
    match aux with
    | Some auxBuffLen =>
        if buffReqd >? auxBuffLen then
          ASSERT malloc_ok buffReqd in Ret (buffReqd, Some buffReqd)
        else Ret (auxBuffLen, aux)
    | None => ASSERT malloc_ok buffReqd in Ret (buffReqd, Some buffReqd)
    end.

(** The loop that executes once or twice; the result carries the length of the
    specification and the auxiliary buffer. *)
Definition convert (p : list Z) (args : list va) (streamCount : Z) (aux : option Z)
    : outcome (op_result * nat * option Z) :=
  let '(op, md, fmt, len) := fast_scan p in
  let! r := perform_op true op md fmt PRINTF_BUFFLEN None args streamCount in
  match r with
  | OpNot =>
      let! s := slow_scan p args in
      match s with
      | None => Ret (OpError, len, aux)
      | Some s =>
          let! bound := bound_buffer s in
          match bound with
          | None => Ret (OpError, len, aux)
          | Some (buffReqd, pre, args) =>
              let! (cap, aux) :=
                choose_buffer (Z.max (buffReqd + 10) (sl_minWidth s)) aux in
              let! r := perform_op false (sl_op s) (sl_mod s) (sl_fmt s) cap pre args
                          streamCount in
              Ret (match r with OpNot => OpError | _ => r end, sl_length s, aux)
          end
      end
  | _ => Ret (r, len, aux)
  end.

(** The main loop: the result, what [%n] stored and the stream. *)
Fixpoint VFPrintF_loop (fuel : nat) (f : list Z) (args : list va) (streamCount : Z)
    (aux : option Z) (stores : list (Z * Z)) (y : FcgiStream.sys)
    : outcome (Z * list (Z * Z) * FcgiStream.sys) :=
  match fuel with
  | O => NoFuel
  | S fuel =>
      match f with
      | [] => Ret (streamCount, stores, y)
      | _ =>
          let '(lit, f) := span (fun c => negb (c =? 37)) f in
          let! (r, y) :=
            (if (length lit =? 0)%nat then Ret (0, y)
             else FCGX_PutStr emptyBuffProc lit y) in
          if r <? 0 then Ret (-1, stores, y)
          else
            let streamCount := s32 (streamCount + Z.of_nat (length lit)) in
            match f with
            | [] => Ret (streamCount, stores, y)
            | _ :: p =>
                let! (r, specifierLength, aux) := convert p args streamCount aux in
                match r with
                | OpDone text buffLen args st =>
                    ASSERT Z.of_nat (length text) <? buffLen in
                    let! (r, y) :=
                      (if (length text =? 0)%nat then Ret (0, y)
                       else FCGX_PutStr emptyBuffProc text y) in
                    if r <? 0 then Ret (-1, stores ++ st, y)
                    else
                      VFPrintF_loop fuel (drop specifierLength f) args
                        (s32 (streamCount + Z.of_nat (length text))) aux (stores ++ st) y
                | _ => Ret (-1, stores, y)
                end
            end
      end
  end.

(** [format] is a C string. *)
Definition FCGX_VFPrintF (format : list Z) (args : list va) (y : FcgiStream.sys)
    : outcome (Z * list (Z * Z) * FcgiStream.sys) :=
  VFPrintF_loop (S (length format)) format args 0 None [] y.

Definition FCGX_FPrintF (format : list Z) (args : list va) (y : FcgiStream.sys)
    : outcome (Z * list (Z * Z) * FcgiStream.sys) :=
  FCGX_VFPrintF format args y.
End Output.
End Printf.
