(* ===== verification/FcgiPrintfOk.v ===== *)
(** What FCGX_VFPrintF prints.  A format is given as literal texts and conversions
    ([segment]); what each conversion means is [render] of its specification, which is
    the C standard's.  [FCGX_VFPrintF_prints] states that both paths of the function
    produce that text on any output stream.  [VFPrintF_overruns] states when the text
    of a conversion overruns the buffer the function chooses for it; that is the case
    of a wide field ([VFPrintF_wide_field_overruns]) and of a long double beyond the
    range of double ([VFPrintF_long_double_overruns]). *)
From Stdlib Require Import ZArith Lia Bool String.
From stdpp Require Import base list numbers.
From S2P Require Import Prelude.
From S2P Require Import Clib.
From S2P Require Import FcgiProto.
From S2P Require Import OsUnix.
From S2P Require Import FcgiStream.
From S2P Require Import FcgiSink.
From S2P Require Import FcgiWriter.
From S2P Require Import FcgiPrintf.

(** ** The C library *)

(** The length of what the library prints for a number without its sign: the digits
    of [%f] before the point are at most a third of the binary exponent of the
    number printed, and one; an infinity and a NaN are three letters; [%e] and [%g]
    have at most a digit, a point and six characters of exponent beside the precision.
    The conversion of a number in the range of [double] rounds it to a neighbour, which
    does not make a positive exponent smaller. *)
Class LibcLaws (LC : Libc) : Prop := {
  print_f_length : forall alt prec d, 0 <= prec ->
    Z.of_nat (length (print_double 102 alt prec d).1.2)
      <= prec + 3 + (if frexp d >? 0 then frexp d / 3 else 0);
  print_lf_length : forall alt prec d, 0 <= prec ->
    Z.of_nat (length (print_long_double 102 alt prec d).1.2)
      <= prec + 3 + (if frexpl d >? 0 then frexpl d / 3 else 0);
  print_lf_special : forall alt prec d, (print_long_double 102 alt prec d).2 = false ->
    Z.of_nat (length (print_long_double 102 alt prec d).1.2) <= 3;
  to_double_exponent : forall d, double_range d = true -> 0 < frexpl d ->
    frexpl d <= frexp (to_double d);
  print_e_length : forall op alt prec d, char_in op (b! "eEgG") = true -> 0 <= prec ->
    Z.of_nat (length (print_double op alt prec d).1.2) <= prec + 8;
  print_le_length : forall op alt prec d, char_in op (b! "eEgG") = true -> 0 <= prec ->
    Z.of_nat (length (print_long_double op alt prec d).1.2) <= prec + 8;
  print_pointer_length : forall p, Z.of_nat (length (print_pointer p)) <= 46
}.

Section Ok.
Context {LC : Libc} {LL : LibcLaws LC}.

(** ** Conversions as the C standard writes them *)

Inductive width := NoWidth | Width (ds : list Z) | StarWidth (w : Z).
Inductive precision := NoPrec | Prec (ds : list Z) | StarPrec (p : Z).

Record directive := mkDir {
  d_flags : list Z;
  d_width : width;
  d_prec : precision;
  d_mod : Z;
  d_op : Z;
  d_arg : va
}.

Definition width_text (w : width) : list Z :=
  match w with NoWidth => [] | Width ds => ds | StarWidth _ => [42] end.
Definition width_args (w : width) : list va :=
  match w with StarWidth w => [VInt w] | _ => [] end.
Definition prec_text (p : precision) : list Z :=
  match p with NoPrec => [] | Prec ds => 46 :: ds | StarPrec _ => [46; 42] end.
Definition prec_args (p : precision) : list va :=
  match p with StarPrec p => [VInt p] | _ => [] end.
Definition mod_text (md : Z) : list Z := if md =? 32 then [] else [md].

(** The characters after the percent sign. *)
Definition dir_text (d : directive) : list Z :=
  d_flags d ++ width_text (d_width d) ++ prec_text (d_prec d) ++ mod_text (d_mod d) ++ [d_op d].
Definition dir_args (d : directive) : list va :=
  width_args (d_width d) ++ prec_args (d_prec d) ++ [d_arg d].

Definition width_value (w : width) : Z :=
  match w with NoWidth => 0 | Width ds => dec_value ds | StarWidth w => Z.abs w end.
Definition prec_value (p : precision) : option Z :=
  match p with NoPrec => None | Prec ds => Some (dec_value ds) | StarPrec p => Some p end.

(** A negative width argument is a minus flag and its absolute value. *)
Definition dir_spec (d : directive) : spec :=
  mkSpec (d_flags d ++ match d_width d with
                       | StarWidth w => if w <? 0 then [45] else []
                       | _ => []
                       end)
         (width_value (d_width d)) (prec_value (d_prec d)) (d_mod d) (d_op d).

(** The space the function reckons with, beside the width. *)
Definition reckoned (sp : spec) (a : va) : Z :=
  let op := sp_op sp in
  let prec := default (-1) (sp_prec sp) in
  if char_in op (b! "diuoxXcp") then Z.max prec 46
  else if op =? 115 then
    match a with
    | VStr (Some s) =>
        if prec =? -1 then Z.of_nat (length s) else Z.min prec (Z.of_nat (length s))
    | _ => 0
    end
  else if op =? 102 then
    default 6 (sp_prec sp) + 3 +
    match a with
    | VDouble d => if frexp d >? 0 then frexp d / 3 else 0
    | VLDouble d => if frexp (to_double d) >? 0 then frexp (to_double d) / 3 else 0
    | _ => 0
    end
  else default 6 (sp_prec sp) + 8.

Definition digits_ok (ds : list Z) : Prop :=
  Forall (fun c => isdigit c = true) ds /\ (length ds <= 6)%nat.

(** The directives the function accepts: within the limits on the number of flags and
    digits it checks, with an argument of the right type. *)
Record dir_ok (d : directive) (out : list Z) : Prop := {
  ok_flags : Forall (fun c => is_flag c = true) (d_flags d) /\ (length (d_flags d) <= 5)%nat;
  ok_width : match d_width d with
             | NoWidth => True
             | Width ds => digits_ok ds /\ ds <> [] /\ char_at ds <> 48
             | StarWidth w => Z.abs w <= 999999
             end;
  ok_prec : match d_prec d with
            | NoPrec => True
            | Prec ds => digits_ok ds
            | StarPrec p => 0 <= p <= 999999
            end;
  ok_mod : char_in (d_mod d) (b! " lLh") = true;
  ok_op : char_in (d_op d) (b! "diuoxXcspfeEgG") = true;
  ok_render : render (dir_spec d) (d_arg d) = Some out
}.

(** The width is below 100 or below the space reckoned with. *)
Definition width_fits (d : directive) : Prop :=
  width_value (d_width d) < Z.max 100 (reckoned (dir_spec d) (d_arg d) + 10).

(** The argument of [%Lf] is in the range of [double], or an infinity or a NaN.  (The
    function reckons with the exponent of the number converted to [double].) *)
Definition exponent_fits (sp : spec) (a : va) : Prop :=
  match a with
  | VLDouble v =>
      sp_op sp = 102 ->
      double_range v = true \/
      (print_long_double 102 (char_in 35 (sp_flags sp)) (default 6 (sp_prec sp)) v).2 = false
  | _ => True
  end.

(** ** Segments *)

Inductive conversion :=
| Percent
| Count (md : Z) (p : Z)
| Dir (d : directive).

Definition conv_text (c : conversion) : list Z :=
  match c with
  | Percent => [37]
  | Count md _ => mod_text md ++ [110]
  | Dir d => dir_text d
  end.

Definition conv_args (c : conversion) : list va :=
  match c with
  | Percent => []
  | Count md p =>
      [if md =? 32 then VIntPtr p else if md =? 108 then VLongPtr p else VShortPtr p]
  | Dir d => dir_args d
  end.

Definition conv_out (c : conversion) : list Z :=
  match c with
  | Dir d => default [] (render (dir_spec d) (d_arg d))
  | Percent => [37]
  | Count _ _ => []
  end.

(** [%n] stores the number of bytes so far. *)
Definition conv_stores (c : conversion) (n : Z) : list (Z * Z) :=
  match c with
  | Count md p => [(p, if md =? 104 then s16 n else n)]
  | _ => []
  end.

Definition conv_ok (c : conversion) : Prop :=
  match c with
  | Percent => True
  | Count md _ => char_in md (b! " lh") = true
  | Dir d => dir_ok d (conv_out c) /\ cstr (conv_out c) = conv_out c /\ width_fits d /\
             exponent_fits (dir_spec d) (d_arg d)
  end.

(** A literal text without a percent sign, and a conversion. *)
Definition segment : Type := list Z * conversion.

Definition literal (l : list Z) : Prop := Forall (fun c => c <> 37) l.

Fixpoint format_of (segs : list segment) (last : list Z) : list Z :=
  match segs with
  | [] => last
  | (l, c) :: segs => l ++ 37 :: conv_text c ++ format_of segs last
  end.
Fixpoint args_of (segs : list segment) : list va :=
  match segs with
  | [] => []
  | (_, c) :: segs => conv_args c ++ args_of segs
  end.
Fixpoint output_of (segs : list segment) (last : list Z) : list Z :=
  match segs with
  | [] => last
  | (l, c) :: segs => l ++ conv_out c ++ output_of segs last
  end.
Fixpoint stores_of (n : Z) (segs : list segment) : list (Z * Z) :=
  match segs with
  | [] => []
  | (l, c) :: segs =>
      let n := n + Z.of_nat (length l) in
      conv_stores c n ++ stores_of (n + Z.of_nat (length (conv_out c))) segs
  end.

(** ** Scanning *)

(** No character of [r] continues a run of [f]. *)
Definition stops (f : Z -> bool) (r : list Z) : Prop :=
  match r with [] => True | c :: _ => f c = false end.

Lemma span_app f l r :
  Forall (fun c => f c = true) l -> stops f r -> span f (l ++ r) = (l, r).
Proof.
  intros Hl Hr. induction l as [|c l IH]; cbn [app].
  - destruct r as [|c r]; [done|]. cbn. by rewrite Hr.
  - apply List.Forall_cons_iff in Hl as [Hc Hl]. cbn. by rewrite Hc, (IH Hl).
Qed.

(** The last part of a specification, size and conversion, and the one before. *)
Lemma op_chars op :
  char_in op (b! "diuoxXcspfeEgG") = true ->
  is_flag op = false /\ isdigit op = false /\ is_size op = false /\ op <> 42 /\ op <> 46.
Proof.
  unfold char_in. rewrite existsb_exists. intros (c & Hc & ->%Z.eqb_eq).
  cbn in Hc. repeat destruct Hc as [<- | Hc]; try done.
Qed.

Lemma mod_chars md :
  char_in md (b! " lLh") = true ->
  md = 32 \/ (md <> 32 /\ is_size md = true /\ is_flag md = false /\ isdigit md = false /\
              md <> 42 /\ md <> 46).
Proof.
  unfold char_in. rewrite existsb_exists. intros (c & Hc & ->%Z.eqb_eq).
  cbn in Hc. repeat destruct Hc as [<- | Hc]; try done; [by left | by right..].
Qed.

(** [tail_ok t]: [t] starts with neither a flag, a digit nor a star. *)
Definition tail_ok (t : list Z) : Prop :=
  stops is_flag t /\ stops isdigit t /\ char_at t <> 42.

Lemma mod_op_tail md op rest :
  char_in md (b! " lLh") = true -> char_in op (b! "diuoxXcspfeEgG") = true ->
  tail_ok (mod_text md ++ op :: rest) /\ char_at (mod_text md ++ op :: rest) <> 46.
Proof.
  intros Hm Ho. destruct (op_chars op Ho) as (?&?&?&?&?). unfold mod_text, tail_ok.
  destruct (mod_chars md Hm) as [-> | (Hne & ?&?&?&?&?)]; [done|].
  replace (md =? 32) with false by lia. done.
Qed.

Lemma prec_tail p t : tail_ok t -> tail_ok (prec_text p ++ t).
Proof. intros H. by destruct p. Qed.

Lemma scan_size md op rest :
  char_in md (b! " lLh") = true -> char_in op (b! "diuoxXcspfeEgG") = true ->
  (if is_size (char_at (mod_text md ++ op :: rest))
   then (char_at (mod_text md ++ op :: rest), [char_at (mod_text md ++ op :: rest)],
         tail (mod_text md ++ op :: rest))
   else (32, [], mod_text md ++ op :: rest)) = (md, mod_text md, op :: rest).
Proof.
  intros Hm Ho. destruct (op_chars op Ho) as (_ & _ & Hs & _). unfold mod_text.
  destruct (mod_chars md Hm) as [-> | (Hne & Hsz & _)].
  - change (32 =? 32) with true. cbn match. cbn [app char_at tail]. by rewrite Hs.
  - replace (md =? 32) with false by lia. cbn [app char_at tail]. by rewrite Hsz.
Qed.

(** The text of the width and of the precision in [fmtBuff]. *)
Definition width_fmt (w : width) : list Z :=
  match w with NoWidth => [] | Width ds => ds | StarWidth w => format_d w end.
Definition prec_fmt (p : precision) : list Z :=
  match p with NoPrec => [] | Prec ds => 46 :: ds | StarPrec p => 46 :: format_d p end.

Definition width_int (w : width) : Z :=
  match w with StarWidth w => w | _ => width_value w end.

Lemma scan_width_ok d out t args :
  dir_ok d out -> tail_ok t ->
  scan_width (width_text (d_width d) ++ t) (width_args (d_width d) ++ args)
    = Ret (Some (width_int (d_width d), width_fmt (d_width d), t, args)).
Proof.
  intros H (Hf & Hd & Hs). pose proof (ok_width d out H) as Hw. unfold scan_width.
  destruct (d_width d) as [|ds|w]; cbn [width_text width_args app].
  - pose proof (span_app isdigit [] t ltac:(constructor) Hd) as E. cbn [app] in E. rewrite E. cbn.
    replace (char_at t =? 42) with false by lia. done.
  - destruct Hw as ([Hds Hl] & Hne & _). rewrite (span_app isdigit ds t Hds Hd).
    destruct ds as [|c ds]; [done|]. cbn [length] in *. cbn [Nat.eqb].
    replace (S (length ds) <=? 6)%nat with true; [done|]. symmetry. apply Nat.leb_le. lia.
  - cbn. replace (w =? - 2 ^ 31) with false by lia. cbn [negb].
    replace (Z.abs w >? 999999) with false by lia. done.
Qed.

Lemma scan_precision_ok d out t args :
  dir_ok d out -> tail_ok t -> char_at t <> 46 ->
  scan_precision (prec_text (d_prec d) ++ t) (prec_args (d_prec d) ++ args)
    = Ret (Some (default (-1) (prec_value (d_prec d)),
                 prec_fmt (d_prec d), t, args)).
Proof.
  intros H (Hf & Hd & Hs) Ht. pose proof (ok_prec d out H) as Hp. unfold scan_precision.
  destruct (d_prec d) as [|ds|p]; cbn [prec_text prec_args app].
  - replace (char_at t =? 46) with false by lia. done.
  - cbn [char_at tail]. change (46 =? 46) with true. cbn match.
    destruct Hp as [Hds Hl]. rewrite (span_app isdigit ds t Hds Hd).
    destruct ds as [|c ds]; cbn [length Nat.eqb app].
    + replace (char_at t =? 42) with false by lia. done.
    + replace (S (length ds) <=? 6)%nat with true; [done|]. symmetry.
      apply Nat.leb_le. cbn in Hl. lia.
  - cbn. replace (p <? 0) with false by lia. replace (p >? 999999) with false by lia. done.
Qed.

(** ** The format for sprintf *)

Lemma star_text_length w : Z.abs w <= 999999 -> (length (format_d w) <= 7)%nat.
Proof.
  intros H. unfold format_d. destruct (Z.ltb_spec w 0); cbn [length].
  - apply le_n_S. apply (dec_digits_length 5). lia.
  - transitivity 6%nat; [apply (dec_digits_length 5); lia | lia].
Qed.

(** A positive number does not start with a zero. *)
Lemma dec_digits_head fuel k t :
  0 < k < 10 ^ Z.of_nat (S fuel) -> exists c r, dec_digits fuel k ++ t = c :: r /\ 49 <= c <= 57.
Proof.
  revert k t. induction fuel as [|fuel IH]; intros k t Hk; cbn [dec_digits].
  - exists (k mod 10 + 48), t. split; [done|]. rewrite Z.mod_small by (cbn in Hk; lia).
    cbn in Hk. lia.
  - destruct (Z.ltb_spec k 10); [exists (k + 48), t; split; [done | lia]|].
    rewrite <- app_assoc. apply IH. rewrite Nat2Z.inj_succ, Z.pow_succ_r in Hk by lia.
    split; [apply Z.div_str_pos; lia | apply Z.div_lt_upper_bound; lia].
Qed.

Lemma digit_not_flag c : 49 <= c <= 57 -> is_flag c = false.
Proof.
  intros H. apply not_true_iff_false. unfold is_flag, char_in. rewrite existsb_exists.
  intros (x & Hx & ->%Z.eqb_eq). cbn in Hx. repeat destruct Hx as [<- | Hx]; vm_compute in H; intuition congruence.
Qed.

Lemma plain_digits l : Forall (fun c => 48 <= c <= 57) l -> Forall (fun c => isdigit c = true) l.
Proof. intros H. eapply List.Forall_impl; [|exact H]. cbn. unfold isdigit. lia. Qed.

(** What [sprintf] reads of the flags and the width: a minus sign is a flag, and so
    is a width of 0. *)
Lemma scan_width_fmt d out t :
  dir_ok d out -> tail_ok t ->
  exists fl ds, span is_flag (d_flags d ++ width_fmt (d_width d) ++ t) = (fl, ds ++ t) /\
    span isdigit (ds ++ t) = (ds, t) /\ dec_value ds = width_value (d_width d) /\
    (fl = sp_flags (dir_spec d) \/
     (fl = sp_flags (dir_spec d) ++ [48] /\ width_value (d_width d) = 0)).
Proof.
  intros H (Hf & Hd & Hs). destruct (ok_flags d out H) as [Hfl _].
  pose proof (ok_width d out H) as Hw. unfold dir_spec. cbn [sp_flags].
  destruct (d_width d) as [|ds|w]; cbn [width_fmt width_value].
  - exists (d_flags d), []. rewrite app_nil_r. cbn [app].
    rewrite (span_app is_flag _ t Hfl Hf). split_and!; [done | | done | by left].
    exact (span_app isdigit [] t ltac:(constructor) Hd).
  - destruct Hw as ([Hds _] & Hne & H0). exists (d_flags d), ds. rewrite app_nil_r.
    rewrite (span_app is_flag _ (ds ++ t) Hfl); [split_and!; [done | by apply span_app | done | by left]|].
    destruct ds as [|c ds]; [done|]. apply List.Forall_cons_iff in Hds as [Hc _]. cbn.
    apply digit_not_flag. cbn in H0. unfold isdigit in Hc. lia.
  - destruct (Z.eq_dec w 0) as [-> | Hw0].
    + exists (d_flags d ++ [48]), []. rewrite app_nil_r. change (format_d 0) with [48]. cbn [app].
      replace (d_flags d ++ 48 :: t) with ((d_flags d ++ [48]) ++ t) by (by rewrite <- app_assoc).
      rewrite (span_app is_flag _ t); [| by apply Forall_app; split; [|repeat constructor] | done].
      split_and!; [done | exact (span_app isdigit [] t ltac:(constructor) Hd) | done | by right].
    + set (k := Z.abs w). exists (d_flags d ++ (if w <? 0 then [45] else [])), (dec_digits 10 k).
      assert (E : format_d w = (if w <? 0 then [45] else []) ++ dec_digits 10 k).
      { unfold format_d, k. destruct (Z.ltb_spec w 0); cbn [app]; do 2 f_equal; lia. }
      rewrite E, <- app_assoc. replace (d_flags d ++ _) with
        ((d_flags d ++ (if w <? 0 then [45] else [])) ++ dec_digits 10 k ++ t)
        by (by rewrite <- app_assoc).
      destruct (dec_digits_head 10 k t) as (c & r & Er & Hc); [lia|].
      rewrite (span_app is_flag); [| apply Forall_app; split; [done | by destruct (w <? 0); repeat constructor]
                                   | rewrite Er; by apply digit_not_flag].
      split_and!; [done | | apply (dec_value_digits 10); lia | by left].
      apply span_app; [|done]. apply plain_digits, dec_digits_plain. lia.
Qed.

(** No padding without a width. *)
Lemma pad_zero sp zeros sign body : sp_width sp = 0 -> pad sp zeros sign body = sign ++ body.
Proof.
  intros Hw. unfold pad, chars. rewrite Hw.
  replace (Z.to_nat (0 - Z.of_nat (length sign + length body))) with 0%nat by lia.
  cbn [replicate app]. rewrite app_nil_r. by destruct (char_in 45 (sp_flags sp)), (zeros && char_in 48 (sp_flags sp)).
Qed.

(** A flag 0 without a width changes nothing. *)
Lemma render_zero_flag fl pr md op a :
  render (mkSpec (fl ++ [48]) 0 pr md op) a = render (mkSpec fl 0 pr md op) a.
Proof.
  unfold render, print_signed, print_unsigned, print_float, sign_of, no_prec.
  cbn [sp_flags sp_width sp_prec sp_mod sp_op].
  assert (E : forall c, c <> 48 -> char_in c (fl ++ [48]) = char_in c fl).
  { intros c Hc. rewrite char_in_app. cbn. replace (c =? 48) with false by lia.
    by rewrite !orb_false_r. }
  rewrite !E by done.
  assert (P : forall z s b, pad (mkSpec (fl ++ [48]) 0 pr md op) z s b
                            = pad (mkSpec fl 0 pr md op) z s b).
  { intros z s b. by rewrite !pad_zero. }
  destruct a as [z|z|d|d|[s|]|q|q|q|q]; rewrite ?P; try done.
  - destruct (print_double _ _ _ _) as [[neg body] fin]. by rewrite P.
  - destruct (print_long_double _ _ _ _) as [[neg body] fin]. by rewrite P.
Qed.

(** The specification that [sprintf] reads in [fmtBuff] means the same. *)
Lemma parse_fmt d out :
  dir_ok d out ->
  exists sp, parse_spec (d_flags d ++ width_fmt (d_width d) ++ prec_fmt (d_prec d) ++
                         mod_text (d_mod d) ++ [d_op d]) = Some sp /\
    forall a, render sp a = render (dir_spec d) a.
Proof.
  intros H. destruct (mod_op_tail (d_mod d) (d_op d) [] (ok_mod d out H) (ok_op d out H))
    as [Ht H46].
  set (t2 := mod_text (d_mod d) ++ [d_op d]) in *.
  assert (Ht1 : tail_ok (prec_fmt (d_prec d) ++ t2)) by (by destruct (d_prec d)).
  destruct (scan_width_fmt d out _ H Ht1) as (fl & ds & E1 & E2 & Ew & Hfl).
  exists (mkSpec fl (dec_value ds) (prec_value (d_prec d)) (d_mod d) (d_op d)). split.
  - unfold parse_spec. rewrite E1, E2.
    assert (Ep : (if char_at (prec_fmt (d_prec d) ++ t2) =? 46 then
        let '(ds, t) := span isdigit (tail (prec_fmt (d_prec d) ++ t2)) in (Some (dec_value ds), t)
      else (None, prec_fmt (d_prec d) ++ t2)) = (prec_value (d_prec d), t2)).
    { pose proof (ok_prec d out H) as Hp. destruct (d_prec d) as [|ps|p]; cbn [prec_fmt app].
      - replace (char_at t2 =? 46) with false by lia. done.
      - cbn [char_at tail]. change (46 =? 46) with true. cbn match.
        destruct Hp as [Hp _]. by rewrite (span_app isdigit ps t2 Hp (proj1 (proj2 Ht))).
      - cbn [char_at tail]. change (46 =? 46) with true. cbn match.
        rewrite (span_app isdigit (format_d p) t2); [|apply plain_digits, format_d_plain; lia|apply Ht].
        unfold format_d. destruct (Z.ltb_spec p 0); [lia|]. by rewrite (dec_value_digits 10) by lia. }
    rewrite Ep. unfold t2 at 1 2 3.
    pose proof (scan_size (d_mod d) (d_op d) [] (ok_mod d out H) (ok_op d out H)) as Es.
    unfold t2. destruct (is_size _); injection Es as E3 E4 E5; by rewrite ?E3, ?E5.
  - intros a. unfold dir_spec in *. cbn [sp_flags] in Hfl. rewrite Ew.
    destruct Hfl as [-> | [-> ->]]; [done|]. apply render_zero_flag.
Qed.

(** ** The slow path's scan *)

Definition fmt_of (d : directive) : list Z :=
  37 :: d_flags d ++ width_fmt (d_width d) ++ prec_fmt (d_prec d) ++ mod_text (d_mod d) ++ [d_op d].

Lemma fmt_of_length d out : dir_ok d out -> Z.of_nat (length (fmt_of d)) < FMT_BUFFLEN.
Proof.
  intros H. destruct (ok_flags d out H) as [_ Hf].
  assert (Hw : (length (width_fmt (d_width d)) <= 7)%nat).
  { pose proof (ok_width d out H) as Hw. destruct (d_width d) as [|ds|w]; cbn; [lia | |].
    - destruct Hw as ([_ Hl] & _). lia.
    - by apply star_text_length. }
  assert (Hp : (length (prec_fmt (d_prec d)) <= 8)%nat).
  { pose proof (ok_prec d out H) as Hp. destruct (d_prec d) as [|ds|p]; cbn; [lia | |].
    - destruct Hp as [_ Hl]. lia.
    - apply le_n_S, star_text_length. lia. }
  assert (Hm : (length (mod_text (d_mod d)) <= 1)%nat) by (unfold mod_text; case_match; cbn; lia).
  unfold fmt_of, FMT_BUFFLEN. cbn [length]. rewrite !length_app. cbn [length]. lia.
Qed.

Lemma flags_end d out rest :
  dir_ok d out -> stops is_flag (width_text (d_width d) ++ prec_text (d_prec d) ++
                                 mod_text (d_mod d) ++ d_op d :: rest).
Proof.
  intros H. pose proof (ok_width d out H) as Hw.
  destruct (mod_op_tail (d_mod d) (d_op d) rest (ok_mod d out H) (ok_op d out H)) as [Ht _].
  apply (prec_tail (d_prec d)) in Ht.
  destruct (d_width d) as [|[|c ds]|w]; cbn [width_text app]; [apply Ht | apply Ht | | done].
  destruct Hw as ([Hds _] & _ & H0). apply List.Forall_cons_iff in Hds as [Hc _].
  apply digit_not_flag. cbn in H0. unfold isdigit in Hc. lia.
Qed.

Lemma slow_scan_ok d out rest ra :
  dir_ok d out ->
  slow_scan (dir_text d ++ rest) (dir_args d ++ ra)
    = Ret (Some (mkSlow (fmt_of d) (width_int (d_width d)) (default (-1) (prec_value (d_prec d)))
                   (d_mod d) (d_op d) (S (length (dir_text d))) (d_arg d :: ra))).
Proof.
  intros H. unfold slow_scan, dir_text, dir_args.
  destruct (ok_flags d out H) as [Hf Hl].
  destruct (mod_op_tail (d_mod d) (d_op d) rest (ok_mod d out H) (ok_op d out H)) as [Ht H46].
  rewrite <- !app_assoc. cbn [app].
  rewrite (span_app is_flag _ _ Hf (flags_end d out rest H)).
  replace (5 <? length (d_flags d))%nat with false by (symmetry; apply Nat.ltb_ge; lia).
  rewrite (scan_width_ok d out) by (done || by apply prec_tail). cbn [obind].
  rewrite (scan_precision_ok d out) by done. cbn [obind].
  rewrite (scan_size (d_mod d) (d_op d) rest (ok_mod d out H) (ok_op d out H)).
  pose proof (fmt_of_length d out H) as Hlen%Z.ltb_lt. unfold fmt_of in Hlen. cbn [char_at].
  rewrite Hlen. do 3 f_equal. rewrite !length_app. cbn [length]. lia.
Qed.

(** ** The space the function reckons with is enough *)

Lemma pad_length sp zeros sign body :
  Z.of_nat (length (pad sp zeros sign body))
    = Z.max (sp_width sp) (Z.of_nat (length sign + length body)).
Proof.
  unfold pad, chars. repeat case_match; rewrite !length_app, length_replicate; lia.
Qed.

Lemma base_digits_length fuel upper base k : (length (base_digits fuel upper base k) <= fuel)%nat.
Proof.
  revert k. induction fuel as [|fuel IH]; intros k; cbn [base_digits]; [done|].
  destruct (k <? base); [cbn; lia|]. rewrite length_app. cbn. specialize (IH (k / base)). lia.
Qed.

Lemma number_length prec upper base k :
  Z.of_nat (length (number prec upper base k)) <= Z.max (default (-1) prec) 22.
Proof.
  unfold number, chars. set (ds := match prec with Some 0 => _ | _ => _ end).
  assert (length ds <= 22)%nat.
  { unfold ds. destruct prec as [[| |]|]; try apply base_digits_length.
    destruct (k =? 0); [cbn; lia | apply base_digits_length]. }
  rewrite length_app, length_replicate. destruct prec as [p|]; cbn [default]; lia.
Qed.

Lemma sign_of_length sp neg : (length (sign_of sp neg) <= 1)%nat.
Proof. unfold sign_of. repeat case_match; cbn; lia. Qed.

Lemma print_signed_length sp v :
  Z.of_nat (length (print_signed sp v))
    <= Z.max (sp_width sp) (Z.max (default (-1) (sp_prec sp)) 46 + 9).
Proof.
  unfold print_signed. rewrite pad_length. pose proof (sign_of_length sp (v <? 0)).
  pose proof (number_length (sp_prec sp) false 10 (Z.abs v)). lia.
Qed.

Lemma print_unsigned_length sp v :
  Z.of_nat (length (print_unsigned sp v))
    <= Z.max (sp_width sp) (Z.max (default (-1) (sp_prec sp)) 46 + 9).
Proof.
  unfold print_unsigned.
  pose proof (number_length (sp_prec sp) false 10 v).
  pose proof (number_length (sp_prec sp) false 8 v).
  pose proof (number_length (sp_prec sp) (sp_op sp =? 88) 16 v).
  repeat case_match; rewrite pad_length; cbn [length]; lia.
Qed.

Lemma print_float_length sp r n :
  Z.of_nat (length r.1.2) <= n ->
  Z.of_nat (length (print_float sp r)) <= Z.max (sp_width sp) (n + 1).
Proof.
  destruct r as [[neg body] fin]. cbn. intros H. rewrite pad_length.
  pose proof (sign_of_length sp neg). lia.
Qed.

(** The conversions, sizes and types of argument that go together. *)
Inductive typed : Z -> Z -> va -> Prop :=
| typed_int op z : char_in op (b! "diuoxXc") = true -> typed op 32 (VInt z)
| typed_short op z : char_in op (b! "diuoxX") = true -> typed op 104 (VInt z)
| typed_long op z : char_in op (b! "diuoxX") = true -> typed op 108 (VLong z)
| typed_double op d : char_in op (b! "feEgG") = true -> typed op 32 (VDouble d)
| typed_ldouble op d : char_in op (b! "feEgG") = true -> typed op 76 (VLDouble d)
| typed_string s : typed 115 32 (VStr (Some s))
| typed_pointer p : typed 112 32 (VPtr p).

Lemma char_in_mono c s t :
  forallb (fun x => char_in x t) s = true -> char_in c s = true -> char_in c t = true.
Proof.
  unfold char_in at 2. rewrite forallb_forall, existsb_exists.
  intros H (x & Hx & ->%Z.eqb_eq). by apply H.
Qed.

Lemma render_typed sp a out : render sp a = Some out -> typed (sp_op sp) (sp_mod sp) a.
Proof.
  unfold render. destruct a as [z|z|d|d|[s|]|q|q|q|q]; try done.
  - destruct (Z.eqb_spec (sp_mod sp) 104) as [-> |]; cbn [orb negb andb].
    + destruct (char_in (sp_op sp) (b! "di")) eqn:E1.
      { intros _. apply typed_short. by eapply char_in_mono, E1. }
      destruct (char_in (sp_op sp) (b! "uoxX")) eqn:E2.
      { intros _. apply typed_short. by eapply char_in_mono, E2. }
      by rewrite andb_false_r.
    + destruct (Z.eqb_spec (sp_mod sp) 32) as [-> |]; cbn [negb]; [|done].
      destruct (char_in (sp_op sp) (b! "di")) eqn:E1.
      { intros _. apply typed_int. by eapply char_in_mono, E1. }
      destruct (char_in (sp_op sp) (b! "uoxX")) eqn:E2.
      { intros _. apply typed_int. by eapply char_in_mono, E2. }
      destruct (Z.eqb_spec (sp_op sp) 99) as [-> |]; [|done]. intros _. by apply typed_int.
  - destruct (Z.eqb_spec (sp_mod sp) 108) as [-> |]; cbn [negb]; [|done].
    destruct (char_in (sp_op sp) (b! "di")) eqn:E1.
    { intros _. apply typed_long. by eapply char_in_mono, E1. }
    destruct (char_in (sp_op sp) (b! "uoxX")) eqn:E2; [|done].
    intros _. apply typed_long. by eapply char_in_mono, E2.
  - destruct (Z.eqb_spec (sp_mod sp) 32) as [-> |]; [|done].
    destruct (char_in _ _) eqn:E; [|done]. intros _. by apply typed_double.
  - destruct (Z.eqb_spec (sp_mod sp) 76) as [-> |]; [|done].
    destruct (char_in _ _) eqn:E; [|done]. intros _. by apply typed_ldouble.
  - destruct (Z.eqb_spec (sp_mod sp) 32) as [-> |]; [|done].
    destruct (Z.eqb_spec (sp_op sp) 115) as [-> |]; [|done]. intros _. apply typed_string.
  - destruct (Z.eqb_spec (sp_mod sp) 32) as [-> |]; [|done].
    destruct (Z.eqb_spec (sp_op sp) 112) as [-> |]; [|done]. intros _. apply typed_pointer.
Qed.

Lemma float_not_e op :
  char_in op (b! "feEgG") = true -> char_in op (b! "eEgG") = false -> op = 102.
Proof. intros H. char_cases H; done. Qed.

Lemma reckoned_float sp a :
  char_in (sp_op sp) (b! "eEgG") = true -> reckoned sp a = default 6 (sp_prec sp) + 8.
Proof.
  intros H. unfold reckoned. destruct sp as [fl w pr md op]. cbn [sp_op sp_prec] in *.
  char_cases H; done.
Qed.

(** The shapes of an integer conversion. *)
Lemma render_integer sp a out :
  render sp a = Some out -> (exists z, a = VInt z \/ a = VLong z) ->
  char_in (sp_op sp) (b! "diuoxXcp") = true /\
  ((exists v, out = print_signed sp v) \/ (exists v, out = print_unsigned sp v) \/
   exists w, out = pad sp false [] [w]).
Proof.
  intros Hr (z & Hz). split.
  - pose proof (render_typed sp a out Hr) as Ht.
    destruct Hz as [-> | ->]; inversion Ht as [? ? Ho|? ? Ho|? ? Ho| | | |]; subst;
      (eapply char_in_mono, Ho; done).
  - destruct Hz as [-> | ->]; unfold render in Hr; repeat case_match; try done;
      injection Hr as <-; eauto.
Qed.

Lemma exponent_fits_other sp a : sp_op sp <> 102 -> exponent_fits sp a.
Proof. destruct a; try done. by intros H E. Qed.

(** The digits of a long double take no more than is reckoned with for [%Lf]. *)
Lemma reckoned_ldouble sp v :
  sp_op sp = 102 -> 0 <= default 6 (sp_prec sp) -> exponent_fits sp (VLDouble v) ->
  Z.of_nat (length (print_long_double 102 (char_in 35 (sp_flags sp)) (default 6 (sp_prec sp)) v).1.2)
    <= reckoned sp (VLDouble v).
Proof.
  intros Ef Hp6 Hfit. specialize (Hfit Ef). unfold reckoned. rewrite Ef.
  change (char_in 102 (b! "diuoxXcp")) with false. cbn [Z.eqb Pos.eqb].
  assert (Hpos : 0 <= if frexp (to_double v) >? 0 then frexp (to_double v) / 3 else 0).
  { destruct (Z.gtb_spec (frexp (to_double v)) 0); [apply Z.div_pos; lia | done]. }
  destruct Hfit as [Hr | Hs]; [|apply print_lf_special in Hs; lia].
  pose proof (print_lf_length (char_in 35 (sp_flags sp)) (default 6 (sp_prec sp)) v Hp6) as Hl.
  pose proof (to_double_exponent v Hr) as He.
  destruct (Z.gtb_spec (frexpl v) 0) as [H0|]; [|lia]. specialize (He H0).
  replace (frexp (to_double v) >? 0) with true by lia.
  pose proof (Z.div_le_mono _ _ 3 ltac:(lia) He). lia.
Qed.

(** The output fits in the width, or in what is reckoned with and nine more. *)
Lemma render_length sp a out :
  (forall p, sp_prec sp = Some p -> 0 <= p) -> exponent_fits sp a -> render sp a = Some out ->
  Z.of_nat (length out) <= Z.max (sp_width sp) (reckoned sp a + 9).
Proof.
  intros Hp Hexp Hr. pose proof (render_typed sp a out Hr) as Ht.
  assert (Hp6 : 0 <= default 6 (sp_prec sp)).
  { destruct (sp_prec sp) as [p|]; [by apply Hp | done]. }
  assert (Hn : (exists z, a = VInt z \/ a = VLong z) ->
    Z.of_nat (length out) <= Z.max (sp_width sp) (reckoned sp a + 9)).
  { intros Hz. destruct (render_integer sp a out Hr Hz) as [Hop Ho].
    unfold reckoned. rewrite Hop. destruct Ho as [[v ->] | [[v ->] | [w ->]]];
      [apply print_signed_length | apply print_unsigned_length |].
    rewrite pad_length. cbn. lia. }
  assert (Hf : forall r, out = print_float sp r -> Z.of_nat (length r.1.2) <= reckoned sp a + 8 ->
    Z.of_nat (length out) <= Z.max (sp_width sp) (reckoned sp a + 9)).
  { intros r -> Hl. apply (print_float_length sp) in Hl. lia. }
  destruct a as [z|z|d|d|[s|]|q|q|q|q]; try (by inversion Ht); eauto; clear Hn; unfold render in Hr.
  - destruct (_ && _) eqn:E; [|done]. apply andb_true_iff in E as [_ E]. injection Hr as <-.
    eapply Hf; [reflexivity|]. destruct (char_in (sp_op sp) (b! "eEgG")) eqn:Ee.
    + rewrite reckoned_float by done.
      pose proof (print_e_length _ (char_in 35 (sp_flags sp)) (default 6 (sp_prec sp)) d Ee Hp6). lia.
    + assert (Ef : sp_op sp = 102) by (by apply float_not_e).
      unfold reckoned. rewrite Ef.
      pose proof (print_f_length (char_in 35 (sp_flags sp)) (default 6 (sp_prec sp)) d Hp6).
      change (char_in 102 (b! "diuoxXcp")) with false. cbn [Z.eqb Pos.eqb]. lia.
  - destruct (_ && _) eqn:E; [|done]. apply andb_true_iff in E as [_ E]. injection Hr as <-.
    eapply Hf; [reflexivity|]. destruct (char_in (sp_op sp) (b! "eEgG")) eqn:Ee.
    + rewrite reckoned_float by done.
      pose proof (print_le_length _ (char_in 35 (sp_flags sp)) (default 6 (sp_prec sp)) d Ee Hp6). lia.
    + assert (Ef : sp_op sp = 102) by (by apply float_not_e). rewrite Ef.
      pose proof (reckoned_ldouble sp d Ef Hp6 Hexp). lia.
  - destruct (_ && _) eqn:E; [|done]. apply andb_true_iff in E as [_ E%Z.eqb_eq].
    injection Hr as <-. rewrite pad_length. unfold reckoned. rewrite E. cbn [length].
    change (char_in 115 (b! "diuoxXcp")) with false. change (115 =? 115) with true. cbn match.
    destruct (sp_prec sp) as [p|]; cbn [default];
      [|change (-1 =? -1) with true; cbn match; lia].
    pose proof (Hp p eq_refl). rewrite length_take.
    unfold id. destruct (Z.eqb_spec p (-1)); lia.
  - destruct (_ && _) eqn:E; [|done]. apply andb_true_iff in E as [_ E%Z.eqb_eq].
    injection Hr as <-. rewrite pad_length. unfold reckoned. rewrite E. cbn [length].
    change (char_in 112 (b! "diuoxXcp")) with true. cbn match.
    pose proof (print_pointer_length q). lia.
Qed.

(** ** One conversion *)

Lemma sprintf_into_ok cap fmt sp a out :
  (forall a', sprintf fmt a' = render sp a') -> render sp a = Some out -> cstr out = out ->
  Z.of_nat (length out) + 1 <= cap -> sprintf_into cap fmt a = Ret out.
Proof.
  intros Hf Hr Hn Hc. unfold sprintf_into. rewrite Hf, Hr.
  replace (_ <=? cap) with true by lia. by rewrite Hn.
Qed.

(** The conversion of a [short] before the call changes nothing. *)
Lemma render_short sp z :
  sp_mod sp = 104 ->
  (char_in (sp_op sp) (b! "di") = true -> render sp (VInt (s16 z)) = render sp (VInt z)) /\
  (char_in (sp_op sp) (b! "di") = false -> render sp (VInt (u16 z)) = render sp (VInt z)).
Proof.
  intros Hm. unfold render. rewrite Hm.
  assert (E1 : s16 (s16 z) = s16 z).
  { unfold s16. set (k := (z + 2 ^ 15) mod 2 ^ 16).
    replace (k - 2 ^ 15 + 2 ^ 15) with k by lia. unfold k. by rewrite Zmod_mod. }
  assert (E2 : u16 (u16 z) = u16 z) by (unfold u16; apply Zmod_mod).
  change (104 =? 104) with true. change (104 =? 32) with false. cbn [orb negb].
  rewrite E1, E2, andb_false_r. split; intros ->; done.
Qed.

Lemma sprintf_into_eq cap fmt a a' :
  sprintf fmt a = sprintf fmt a' -> sprintf_into cap fmt a = sprintf_into cap fmt a'.
Proof. unfold sprintf_into. by intros ->. Qed.

(** A case that reads the argument of the conversion and prints it. *)
Lemma perform_prints fast sp a out fmt cap pre rest sc :
  (forall a', sprintf fmt a' = render sp a') -> render sp a = Some out ->
  sp_op sp <> 115 -> sp_op sp <> 102 ->
  perform_op fast (sp_op sp) (sp_mod sp) fmt cap pre (a :: rest) sc
    = let! text := sprintf_into cap fmt a in Ret (OpDone text cap rest []).
Proof.
  intros Hf Hr H1 H2. pose proof (render_typed sp a out Hr) as Ht.
  pose proof (fun z Hm => proj1 (render_short sp z Hm)) as Hd.
  pose proof (fun z Hm => proj2 (render_short sp z Hm)) as Hu.
  destruct sp as [fl w pr md op]. cbn [sp_op sp_mod] in *.
  inversion Ht as [o z Ho E1 E2 E3|o z Ho E1 E2 E3|o z Ho E1 E2 E3
    |o d Ho E1 E2 E3|o d Ho E1 E2 E3|s E1 E2 E3|p E1 E2 E3]; subst; try done.
  - char_cases Ho; lazy -[sprintf_into]; by destruct (sprintf_into _ _ _).
  - assert (Hsd : char_in op (b! "di") = true ->
      sprintf_into cap fmt (VInt (s16 z)) = sprintf_into cap fmt (VInt z)).
    { intros Hop. apply sprintf_into_eq. by rewrite !Hf, Hd. }
    assert (Hsu : char_in op (b! "di") = false ->
      sprintf_into cap fmt (VInt (u16 z)) = sprintf_into cap fmt (VInt z)).
    { intros Hop. apply sprintf_into_eq. by rewrite !Hf, Hu. }
    clear Hd Hu. char_cases Ho; lazy -[sprintf_into s16 u16];
      first [rewrite (Hsd eq_refl) | rewrite (Hsu eq_refl)]; by destruct (sprintf_into _ _ _).
  - char_cases Ho; lazy -[sprintf_into]; by destruct (sprintf_into _ _ _).
  - char_cases Ho; try done; lazy -[sprintf_into]; by destruct (sprintf_into _ _ _).
  - char_cases Ho; try done; lazy -[sprintf_into]; by destruct (sprintf_into _ _ _).
Qed.

(** A string and a [%f] on the slow path, which has read the argument. *)
Lemma perform_prints_pre sp a out fmt cap rest sc :
  render sp a = Some out -> sp_op sp = 115 \/ sp_op sp = 102 ->
  perform_op false (sp_op sp) (sp_mod sp) fmt cap (Some a) rest sc
    = let! text := sprintf_into cap fmt a in Ret (OpDone text cap rest []).
Proof.
  intros Hr Hop. pose proof (render_typed sp a out Hr) as Ht.
  destruct sp as [fl w pr md op]. cbn [sp_op sp_mod] in *.
  destruct Hop as [-> | ->]; inversion Ht; subst; try done;
    lazy -[sprintf_into]; by destruct (sprintf_into _ _ _).
Qed.

Lemma fmt_of_ok d out : dir_ok d out -> forall a, sprintf (fmt_of d) a = render (dir_spec d) a.
Proof.
  intros H a. destruct (parse_fmt d out H) as (sp & E & Hsp). unfold fmt_of, sprintf.
  change (37 =? 37) with true. cbn match. rewrite E. apply Hsp.
Qed.

Lemma dec_value_nonneg ds : Forall (fun c => isdigit c = true) ds -> 0 <= dec_value ds.
Proof.
  unfold dec_value. assert (H : forall l n, 0 <= n -> Forall (fun c => isdigit c = true) l ->
    0 <= fold_left (fun n c => n * 10 + (c - 48)) l n).
  { induction l as [|c l IH]; intros n Hn; [done|]. intros [Hc Hl]%List.Forall_cons_iff.
    cbn. apply IH; [|done]. unfold isdigit in Hc. lia. }
  by apply H.
Qed.

(** What the function reckons with is [reckoned], and it reads the argument of a
    string and of [%f]. *)
Lemma bound_buffer_ok d out n rest :
  dir_ok d out ->
  bound_buffer (mkSlow (fmt_of d) (width_int (d_width d)) (default (-1) (prec_value (d_prec d)))
                  (d_mod d) (d_op d) n (d_arg d :: rest))
    = Ret (Some (reckoned (dir_spec d) (d_arg d),
        if (d_op d =? 115) || (d_op d =? 102) then Some (d_arg d) else None,
        if (d_op d =? 115) || (d_op d =? 102) then rest else d_arg d :: rest)).
Proof.
  intros H. pose proof (render_typed _ _ _ (ok_render d out H)) as Ht.
  pose proof (ok_prec d out H) as Hp.
  unfold bound_buffer, reckoned, dir_spec in *. cbn [sp_op sp_prec sp_mod sl_op sl_precision sl_mod sl_args] in *.
  assert (Hneg : forall k, default (-1) (prec_value (d_prec d)) = k ->
    (if k =? -1 then 6 else k) = default 6 (prec_value (d_prec d))).
  { intros k <-. destruct (d_prec d) as [|ds|p]; cbn [prec_value default]; [done | |].
    - unfold id. destruct (Z.eqb_spec (dec_value ds) (-1)); [|done].
      pose proof (dec_value_nonneg ds (proj1 Hp)). lia.
    - unfold id. by replace (p =? -1) with false by lia. }
  destruct d as [fl w pr md op a]. cbn [d_op d_mod d_arg d_prec] in *.
  inversion Ht as [o z Ho E1 E2 E3|o z Ho E1 E2 E3|o z Ho E1 E2 E3
    |o d Ho E1 E2 E3|o d Ho E1 E2 E3|s E1 E2 E3|p E1 E2 E3]; subst.
  - char_cases Ho; done.
  - char_cases Ho; done.
  - char_cases Ho; done.
  - char_cases Ho; cbn -[Z.div default]; try rewrite Hneg by done; done.
  - char_cases Ho; cbn -[Z.div default]; try rewrite Hneg by done; done.
  - done.
  - done.
Qed.

Lemma prec_nonneg d out p : dir_ok d out -> prec_value (d_prec d) = Some p -> 0 <= p.
Proof.
  intros H. pose proof (ok_prec d out H) as Hp. destruct (d_prec d) as [|ds|q]; cbn; [done | |].
  - intros [= <-]. by apply dec_value_nonneg, Hp.
  - intros [= <-]. lia.
Qed.

Section Output.
Context {emptyBuffProc : bool -> FcgiStream.sys -> outcome FcgiStream.sys}.
Context {malloc_ok : Z -> bool}.
Hypothesis memory : forall n, malloc_ok n = true.

Lemma choose_buffer_ok n aux :
  exists cap aux', choose_buffer malloc_ok n aux = Ret (cap, aux') /\ Z.max 100 n <= cap.
Proof.
  unfold choose_buffer, PRINTF_BUFFLEN. destruct (Z.leb_spec n 100).
  { exists 100, aux. split; [done | lia]. }
  rewrite memory. destruct aux as [k|]; [|exists n, (Some n); split; [done | lia]].
  destruct (Z.gtb_spec n k).
  - exists n, (Some n). split; [done | lia].
  - exists k, (Some k). split; [done | lia].
Qed.

(** The characters after a percent sign that send the function to the slow path. *)
Lemma fast_scan_skips d out rest ra sc :
  dir_ok d out -> d_flags d <> [] \/ d_width d <> NoWidth \/ d_prec d <> NoPrec ->
  let '(op, md, fmt, len) := fast_scan (dir_text d ++ rest) in
  perform_op true op md fmt PRINTF_BUFFLEN None ra sc = Ret OpNot.
Proof.
  intros H Hne. pose proof (ok_flags d out H) as [Hf _]. pose proof (ok_width d out H) as Hw.
  pose proof (ok_prec d out H) as Hp.
  assert (Hc : exists c r, dir_text d ++ rest = c :: r /\
    char_in c (b! "-0+ #123456789*.") = true).
  { unfold dir_text. destruct (d_flags d) as [|c fl]; cbn [app].
    - destruct (d_width d) as [|ds|w]; cbn [width_text app].
      + destruct (d_prec d) as [|ds|p]; cbn [prec_text app]; [|by do 2 eexists..].
        destruct Hne as [? | [? | ?]]; done.
      + destruct Hw as ([Hds _] & Hn & H0). destruct ds as [|c ds]; [done|]. cbn [app].
        do 2 eexists. split; [reflexivity|]. apply List.Forall_cons_iff in Hds as [Hc _].
        assert (49 <= c <= 57) by (unfold isdigit in Hc; cbn in H0; lia).
        assert (In c (seqZ 49 9)) as Hin by (apply list_elem_of_In, elem_of_seqZ; lia).
        vm_compute in Hin. repeat destruct Hin as [<- | Hin]; done.
      + by do 2 eexists.
    - do 2 eexists. split; [reflexivity|]. apply List.Forall_cons_iff in Hf as [Hc _].
      by eapply char_in_mono, Hc. }
  destruct Hc as (c & r & E & Hc). rewrite E. char_cases Hc; done.
Qed.

Lemma fast_scan_plain d out rest :
  dir_ok d out -> d_flags d = [] -> d_width d = NoWidth -> d_prec d = NoPrec ->
  fast_scan (dir_text d ++ rest) = (d_op d, d_mod d, fmt_of d, S (length (dir_text d))).
Proof.
  intros H Ef Ew Ep. unfold fast_scan, dir_text, fmt_of. rewrite Ef, Ew, Ep.
  cbn [width_text prec_text width_fmt prec_fmt app]. rewrite <- app_assoc. cbn [app].
  destruct (op_chars _ (ok_op d out H)) as (_ & _ & Hs & _). unfold mod_text.
  destruct (mod_chars _ (ok_mod d out H)) as [-> | (Hne & Hsz & _)].
  - change (32 =? 32) with true. cbn match. cbn [app char_at tail length]. by rewrite Hs.
  - replace (d_mod d =? 32) with false by lia. cbn [app char_at tail length]. by rewrite Hsz.
Qed.

Lemma reckoned_plain sp a :
  sp_prec sp = None -> char_in (sp_op sp) (b! "diuoxXcpeEgG") = true -> reckoned sp a <= 46.
Proof.
  intros Hp Ho. destruct sp as [fl w pr md op]. unfold reckoned. cbn [sp_op sp_prec] in *. subst pr.
  char_cases Ho; lazy; discriminate.
Qed.

(** A directive without flags, width and precision, other than [%f], is printed on
    the fast path. *)
Lemma convert_fast d out rest ra sc aux :
  dir_ok d out -> cstr out = out ->
  d_flags d = [] -> d_width d = NoWidth -> d_prec d = NoPrec -> d_op d <> 102 ->
  exists blen, convert malloc_ok (dir_text d ++ rest) (dir_args d ++ ra) sc aux
    = Ret (OpDone out blen ra [], S (length (dir_text d)), aux) /\ Z.of_nat (length out) < blen.
Proof.
  intros H Hn Ef Ew Ep Hop. unfold convert. rewrite (fast_scan_plain d out) by done.
  assert (Ea : dir_args d ++ ra = d_arg d :: ra).
  { unfold dir_args. by rewrite Ew, Ep. }
  rewrite Ea. pose proof (ok_render d out H) as Hr.
  destruct (Z.eq_dec (d_op d) 115) as [E | Hne].
  - pose proof (render_typed _ _ _ Hr) as Ht. unfold dir_spec in *. cbn [sp_op sp_mod] in *.
    rewrite Ew, Ep, Ef in Hr. cbn [app width_value prec_value] in Hr. rewrite E in *.
    destruct (d_arg d) as [z|z|x|x|[s|]|q|q|q|q]; inversion Ht as
      [? ? Ho|? ? Ho|? ? Ho|? ? Ho|? ? Ho|? E1 E2 E3|]; subst; try done.
    unfold render in Hr. rewrite <- E2 in Hr.
    cbn [sp_op sp_mod sp_prec] in Hr.
    change (32 =? 32) with true in Hr. change (115 =? 115) with true in Hr. cbn [andb] in Hr.
    rewrite pad_zero in Hr by done. cbn [app] in Hr. injection Hr as ->.
    exists (Z.of_nat (length out) + 1). split; [done | lia].
  - assert (Hl : Z.of_nat (length out) + 1 <= 100).
    { assert (Hp : sp_prec (dir_spec d) = None) by (unfold dir_spec; cbn; by rewrite Ep).
      pose proof (render_length (dir_spec d) (d_arg d) out
                    ltac:(intros p; rewrite Hp; done) (exponent_fits_other (dir_spec d) _ Hop) Hr) as Hl.
      assert (Hw0 : sp_width (dir_spec d) = 0) by (unfold dir_spec; cbn; by rewrite Ew).
      rewrite Hw0 in Hl.
      assert (reckoned (dir_spec d) (d_arg d) <= 46); [|lia].
      apply reckoned_plain; [done|]. cbn [sp_op dir_spec]. pose proof (ok_op d out H) as Ho.
      revert Hop Hne. generalize dependent (d_op d). intros op Ho ? ?. char_cases Ho; done. }
    exists 100. split; [|lia].
    pose proof (perform_prints true (dir_spec d) (d_arg d) out (fmt_of d) 100 None ra sc
      (fmt_of_ok d out H) Hr Hne Hop) as E.
    rewrite (sprintf_into_ok 100 (fmt_of d) (dir_spec d) (d_arg d) out (fmt_of_ok d out H) Hr Hn Hl)
      in E.
    unfold dir_spec in E. cbn [sp_op sp_mod] in E. unfold PRINTF_BUFFLEN. by rewrite E.
Qed.

(** The slow path: the buffer that is chosen and the call of [sprintf]. *)
Lemma convert_slow d out rest ra sc aux :
  dir_ok d out -> d_flags d <> [] \/ d_width d <> NoWidth \/ d_prec d <> NoPrec \/ d_op d = 102 ->
  convert malloc_ok (dir_text d ++ rest) (dir_args d ++ ra) sc aux
    = let! (cap, aux) := choose_buffer malloc_ok
        (Z.max (reckoned (dir_spec d) (d_arg d) + 10) (width_int (d_width d))) aux in
      let! text := sprintf_into cap (fmt_of d) (d_arg d) in
      Ret (OpDone text cap ra [], S (length (dir_text d)), aux).
Proof.
  intros H Hs. pose proof (ok_render d out H) as Hr. unfold convert.
  assert (Hskip : let '(op, md, fmt, len) := fast_scan (dir_text d ++ rest) in
    perform_op true op md fmt PRINTF_BUFFLEN None (dir_args d ++ ra) sc = Ret OpNot).
  { destruct (decide (d_flags d = [])) as [Ef|]; [|eapply fast_scan_skips; eauto].
    destruct (d_width d) eqn:Ew; [|eapply fast_scan_skips; [done | rewrite Ew; auto]..].
    destruct (d_prec d) eqn:Ep; [|eapply fast_scan_skips; [done | rewrite Ep; auto]..].
    rewrite (fast_scan_plain d out) by done.
    destruct Hs as [? | [? | [? | ->]]]; done. }
  destruct (fast_scan (dir_text d ++ rest)) as [[[op md] fmt] len]. rewrite Hskip.
  cbn [obind]. rewrite (slow_scan_ok d out) by done. cbn [obind].
  rewrite (bound_buffer_ok d out) by done. cbn [obind sl_minWidth].
  destruct (choose_buffer _ _ _) as [[cap aux']| |]; try done. cbn [obind sl_op sl_mod sl_fmt sl_length].
  pose proof (fmt_of_ok d out H) as Hf.
  destruct (Z.eqb_spec (d_op d) 115) as [E1 | E1]; [|destruct (Z.eqb_spec (d_op d) 102) as [E2 | E2]];
    cbn [orb].
  - pose proof (perform_prints_pre (dir_spec d) (d_arg d) out (fmt_of d) cap ra sc Hr
      (or_introl E1)) as E. cbn [sp_op sp_mod dir_spec] in E. rewrite E.
    by destruct (sprintf_into _ _ _).
  - pose proof (perform_prints_pre (dir_spec d) (d_arg d) out (fmt_of d) cap ra sc Hr
      (or_intror E2)) as E. cbn [sp_op sp_mod dir_spec] in E. rewrite E.
    by destruct (sprintf_into _ _ _).
  - pose proof (perform_prints false (dir_spec d) (d_arg d) out (fmt_of d) cap None ra sc Hf Hr
      E1 E2) as E. cbn [sp_op sp_mod dir_spec] in E. rewrite E. by destruct (sprintf_into _ _ _).
Qed.

Lemma width_int_le w : width_int w <= width_value w.
Proof. destruct w as [|ds|w]; cbn; lia. Qed.

(** A directive whose width fits. *)
Lemma convert_slow_ok d out rest ra sc aux :
  dir_ok d out -> cstr out = out -> width_fits d -> exponent_fits (dir_spec d) (d_arg d) ->
  d_flags d <> [] \/ d_width d <> NoWidth \/ d_prec d <> NoPrec \/ d_op d = 102 ->
  exists blen aux', convert malloc_ok (dir_text d ++ rest) (dir_args d ++ ra) sc aux
    = Ret (OpDone out blen ra [], S (length (dir_text d)), aux') /\ Z.of_nat (length out) < blen.
Proof.
  intros H Hn Hfit Hexp Hs. rewrite (convert_slow d out) by done.
  pose proof (ok_render d out H) as Hr.
  pose proof (render_length (dir_spec d) (d_arg d) out (fun p => prec_nonneg d out p H) Hexp Hr) as Hl.
  unfold width_fits in Hfit. set (reqd := reckoned (dir_spec d) (d_arg d)) in *.
  destruct (choose_buffer_ok (Z.max (reqd + 10) (width_int (d_width d))) aux)
    as (cap & aux' & -> & Hcap). cbn [obind]. cbn [sp_width dir_spec] in Hl.
  exists cap, aux'. split; [|lia].
  rewrite (sprintf_into_ok cap (fmt_of d) (dir_spec d) (d_arg d) out (fmt_of_ok d out H) Hr Hn);
    [done | lia].
Qed.

(** The output is at least as wide as the field. *)
Lemma render_wide sp a out : render sp a = Some out -> sp_width sp <= Z.of_nat (length out).
Proof.
  assert (P : forall z s b, sp_width sp <= Z.of_nat (length (pad sp z s b)))
    by (intros z s b; rewrite pad_length; lia).
  unfold render. destruct a as [z|z|x|x|[s|]|q|q|q|q]; try done;
    unfold print_signed, print_unsigned, print_float; repeat case_match; intros [= <-]; apply P.
Qed.

(** The text of the directive does not fit, with its NUL, in the buffer that the
    function chooses when no larger one is there from a conversion before. *)
Definition overruns (d : directive) (out : list Z) : Prop :=
  Z.max 100 (Z.max (reckoned (dir_spec d) (d_arg d) + 10) (width_int (d_width d)))
    <= Z.of_nat (length out).

(** The fast path has room for everything it prints. *)
Lemma overruns_slow d out :
  dir_ok d out -> overruns d out ->
  d_flags d <> [] \/ d_width d <> NoWidth \/ d_prec d <> NoPrec \/ d_op d = 102.
Proof.
  intros H Hover. unfold overruns in Hover.
  destruct (decide (d_flags d = [])); [|by left].
  destruct (d_width d) eqn:Ew; [|by right; left..].
  destruct (d_prec d) eqn:Ep; [|by right; right; left..].
  destruct (Z.eq_dec (d_op d) 102) as [|Hop]; [by right; right; right|].
  pose proof (render_length (dir_spec d) (d_arg d) out (fun p => prec_nonneg d out p H)
    (exponent_fits_other (dir_spec d) _ Hop) (ok_render d out H)) as Hl.
  unfold dir_spec in Hl at 1. cbn [sp_width] in Hl. rewrite Ew in Hl. cbn in Hl. lia.
Qed.

Lemma convert_overruns d out rest ra sc :
  dir_ok d out -> overruns d out ->
  convert malloc_ok (dir_text d ++ rest) (dir_args d ++ ra) sc None = Crash.
Proof.
  intros H Hover. rewrite (convert_slow d out) by (done || by eapply overruns_slow).
  unfold overruns in Hover. set (n := Z.max (reckoned _ _ + 10) (width_int (d_width d))) in *.
  assert (Hcap : forall cap, cap <= Z.max 100 n -> sprintf_into cap (fmt_of d) (d_arg d) = Crash).
  { intros cap Hcap. unfold sprintf_into.
    rewrite (fmt_of_ok d out H), (ok_render d out H).
    replace (_ <=? cap) with false by lia. done. }
  unfold choose_buffer, PRINTF_BUFFLEN. destruct (Z.leb_spec n 100); cbn [obind].
  - by rewrite Hcap by lia.
  - destruct (malloc_ok n); [|done]. cbn [obind]. by rewrite Hcap by lia.
Qed.

(** A field that is at least 100 wide, and as wide as the space reckoned with. *)
Lemma wide_overruns d out :
  dir_ok d out -> ~ width_fits d -> overruns d out.
Proof.
  intros H Hfit. unfold width_fits in Hfit. unfold overruns.
  pose proof (render_wide _ _ _ (ok_render d out H)) as Hw. cbn [sp_width dir_spec] in Hw.
  pose proof (width_int_le (d_width d)). lia.
Qed.

(** A [%Lf] of a number whose conversion to [double] has no positive exponent, although
    its text takes more than the precision, 13 characters and the width. *)
Lemma long_double_overruns d out v :
  d_arg d = VLDouble v -> d_op d = 102 -> frexp (to_double v) <= 0 ->
  Z.max 100 (Z.max (default 6 (prec_value (d_prec d)) + 13) (width_value (d_width d)))
    <= Z.of_nat (length out) ->
  overruns d out.
Proof.
  intros Ha Ho He Hl. unfold overruns, reckoned. rewrite Ha. unfold dir_spec. cbn [sp_op sp_prec].
  rewrite Ho. change (char_in 102 (b! "diuoxXcp")) with false. cbn [Z.eqb Pos.eqb].
  replace (frexp (to_double v) >? 0) with false by lia.
  pose proof (width_int_le (d_width d)). lia.
Qed.

(** Both paths print what the conversion means. *)
Lemma convert_ok c rest ra sc aux :
  conv_ok c ->
  exists blen aux', convert malloc_ok (conv_text c ++ rest) (conv_args c ++ ra) sc aux
    = Ret (OpDone (conv_out c) blen ra (conv_stores c sc), S (length (conv_text c)), aux') /\
    Z.of_nat (length (conv_out c)) < blen.
Proof.
  intros H. destruct c as [|md p|d].
  - exists 100, aux. done.
  - exists 100, aux. cbn [conv_ok] in H. split; [|done]. char_cases H; done.
  - destruct H as (H & Hn & Hfit & Hexp). cbn [conv_text conv_args conv_stores].
    destruct (decide (d_flags d = [])) as [Ef|]; [|eapply convert_slow_ok; eauto].
    destruct (d_width d) eqn:Ew; [|eapply convert_slow_ok; [done.. | rewrite Ew; auto]..].
    destruct (d_prec d) eqn:Ep; [|eapply convert_slow_ok; [done.. | rewrite Ep; auto]..].
    destruct (Z.eq_dec (d_op d) 102) as [|Hop]; [eapply convert_slow_ok; auto|].
    destruct (convert_fast d _ rest ra sc aux H Hn Ef Ew Ep Hop) as (blen & E & Hl).
    by exists blen, aux.
Qed.

(** ** The whole format *)

Lemma span_literal l r :
  literal l -> span (fun c => negb (c =? 37)) (l ++ 37 :: r) = (l, 37 :: r).
Proof.
  intros H. apply span_app; [|done]. eapply List.Forall_impl; [|exact H]. cbn. lia.
Qed.

Context {holds : list Z -> FcgiStream.sys -> Prop}.
Context `{SK : !Sink emptyBuffProc holds}.

(** Writing a text that may be empty. *)
Lemma put_text text d y :
  holds d y ->
  exists r y', (if (length text =? 0)%nat then Ret (0, y) else FCGX_PutStr emptyBuffProc text y)
    = Ret (r, y') /\ 0 <= r /\ holds (d ++ text) y'.
Proof.
  intros Hy. destruct text as [|c text]; cbn [length Nat.eqb].
  - exists 0, y. rewrite app_nil_r. done.
  - destruct (PutStr_sink (c :: text) d y Hy) as (y' & -> & Hy').
    eexists _, y'. split_and!; [done | lia | done].
Qed.

Lemma VFPrintF_loop_ok segs : forall fuel last n aux st d y,
  Forall (fun s => literal s.1 /\ conv_ok s.2) segs -> literal last ->
  (length (format_of segs last) < fuel)%nat ->
  0 <= n -> n + Z.of_nat (length (output_of segs last)) < 2 ^ 31 -> holds d y ->
  exists y', VFPrintF_loop emptyBuffProc malloc_ok fuel (format_of segs last) (args_of segs) n
               aux st y
    = Ret (n + Z.of_nat (length (output_of segs last)), st ++ stores_of n segs, y') /\
    holds (d ++ output_of segs last) y'.
Proof.
  induction segs as [|[l c] segs IH]; intros fuel last n aux st d y Hs Hlast Hfuel Hn Hmax Hy;
    (destruct fuel as [|fuel]; [lia|]).
  - cbn [format_of args_of output_of stores_of] in *. rewrite app_nil_r.
    destruct last as [|c l]; [exists y; cbn; by rewrite app_nil_r, Z.add_0_r|].
    cbn [VFPrintF_loop].
    pose proof (span_app (fun c => negb (c =? 37)) (c :: l) []) as Esp.
    rewrite app_nil_r in Esp. rewrite Esp;
      [| eapply List.Forall_impl; [|exact Hlast]; cbn; lia | done].
    destruct (put_text (c :: l) d y Hy) as (r & y' & -> & Hr & Hy'). cbn [obind].
    replace (r <? 0) with false by lia. exists y'. by rewrite s32_small by lia.
  - apply List.Forall_cons_iff in Hs as [[Hl Hc] Hs]. cbn [fst snd] in Hl, Hc.
    cbn [format_of args_of output_of stores_of] in *. rewrite !length_app in *. cbn [length] in Hfuel.
    assert (Hne : l ++ 37 :: conv_text c ++ format_of segs last <> []) by (by destruct l).
    cbn [VFPrintF_loop]. rewrite (span_literal l _ Hl).
    destruct (l ++ _) eqn:E0; [done|]. clear E0 Hne.
    destruct (put_text l d y Hy) as (r & y1 & -> & Hr & Hy1). cbn [obind].
    replace (r <? 0) with false by lia. rewrite s32_small by lia.
    destruct (convert_ok c (format_of segs last) (args_of segs) (n + Z.of_nat (length l)) aux Hc)
      as (blen & aux' & -> & Hblen). cbn [obind].
    replace (_ <? blen) with true by lia.
    destruct (put_text (conv_out c) _ y1 Hy1) as (r2 & y2 & -> & Hr2 & Hy2). cbn [obind].
    replace (r2 <? 0) with false by lia. rewrite s32_small by lia.
    assert (Ed : drop (S (length (conv_text c))) (37 :: conv_text c ++ format_of segs last)
                 = format_of segs last) by (cbn [drop]; by rewrite drop_app_length).
    rewrite length_app in Hfuel.
    destruct (IH fuel last (n + Z.of_nat (length l) + Z.of_nat (length (conv_out c))) aux'
      (st ++ conv_stores c (n + Z.of_nat (length l))) ((d ++ l) ++ conv_out c) y2 Hs Hlast) as (y' & E & Hy');
      [lia | lia | lia | exact Hy2 |].
    exists y'. rewrite Ed, E. split.
    + rewrite <- app_assoc. do 3 f_equal. lia.
    + by rewrite <- !app_assoc in Hy'.
Qed.
End Output.
End Ok.

(** C23. On any output stream ([Sink]), a format made of literal texts, [%%], [%n] and
    directives with up to five flags, widths and precisions of up to six digits or
    given as arguments, and any integer, character, string, pointer or floating-point
    conversion with an argument of its type prints what the C standard says: the
    stream receives the literal texts and what each directive means for its argument,
    by the fast path as by the slow one; the result is the number of bytes, and every
    [%n] has stored the number of bytes before it.  The restrictions are those of
    [conv_ok]: a field width is below 100 or below the space that the function
    reckons with for the conversion, the argument of [%Lf] is in the range of
    [double] (or an infinity or a NaN), and no text of a conversion has a NUL.
    The first two are there because the function overruns its buffer otherwise
    ([VFPrintF_wide_field_overruns], [VFPrintF_long_double_overruns]); [malloc] gives
    the memory, and the output is below 2^31 bytes. *)
Theorem FCGX_VFPrintF_prints {LC : Libc} `{LL : !LibcLaws LC} emptyBuffProc malloc_ok holds
    `{SK : !Sink emptyBuffProc holds} segs last d y
    (Hmemory : forall n, malloc_ok n = true)
    (Hsegs : Forall (fun s => literal s.1 /\ conv_ok s.2) segs) (Hlast : literal last)
    (Hlength : Z.of_nat (length (output_of segs last)) < 2 ^ 31) (Hy : holds d y) :
  exists y', FCGX_VFPrintF emptyBuffProc malloc_ok (format_of segs last) (args_of segs) y
    = Ret (Z.of_nat (length (output_of segs last)), stores_of 0 segs, y') /\
    holds (d ++ output_of segs last) y'.
Proof.
  destruct (VFPrintF_loop_ok Hmemory segs (S (length (format_of segs last))) last 0 None [] d y
    Hsegs Hlast) as (y' & E & Hy'); [lia | lia | lia | exact Hy |].
  by exists y'.
Qed.

(** When a format starts with a literal text and a directive whose text does not fit
    in the buffer chosen for it, [sprintf] writes past the end of that buffer, unless
    [malloc] has stopped the process before. *)
Lemma VFPrintF_overruns {LC : Libc} `{LL : !LibcLaws LC} emptyBuffProc malloc_ok holds
    `{SK : !Sink emptyBuffProc holds} lit dir out rest args d y
    (Hlit : literal lit) (Hdir : dir_ok dir out) (Hover : overruns dir out) (Hy : holds d y) :
  FCGX_VFPrintF emptyBuffProc malloc_ok (lit ++ 37 :: dir_text dir ++ rest)
    (dir_args dir ++ args) y = Crash.
Proof.
  unfold FCGX_VFPrintF. cbn [VFPrintF_loop]. rewrite (span_literal lit _ Hlit).
  destruct (lit ++ _) eqn:E; [by destruct lit|]. clear E.
  destruct (put_text lit d y Hy) as (r & y1 & -> & Hr & _). cbn [obind].
  replace (r <? 0) with false by lia.
  by rewrite (convert_overruns dir out).
Qed.

(** The condition on the widths is exact: a directive whose field width is at least 100
    and at least the space reckoned with overruns the buffer (its size is the
    width, without the terminating NUL, or 100 for a negative width argument). *)
Theorem VFPrintF_wide_field_overruns {LC : Libc} `{LL : !LibcLaws LC} emptyBuffProc malloc_ok holds
    `{SK : !Sink emptyBuffProc holds} lit dir out rest args d y
    (Hlit : literal lit) (Hdir : dir_ok dir out)
    (Hwide : Z.max 100 (reckoned (dir_spec dir) (d_arg dir) + 10) <= width_value (d_width dir))
    (Hy : holds d y) :
  FCGX_VFPrintF emptyBuffProc malloc_ok (lit ++ 37 :: dir_text dir ++ rest)
    (dir_args dir ++ args) y = Crash.
Proof.
  eapply VFPrintF_overruns; eauto. apply wide_overruns; [done|]. unfold width_fits. lia.
Qed.

(** So does a [%Lf] of a number beyond the range of [double], when the exponent stored
    for what the conversion to [double] gives is not positive, as the GNU library's
    is for an infinity, and the digits take at least 100 characters, the
    width, and 13 characters beside the precision: the function reckons with the
    exponent of the converted number, not with that of the argument. *)
Theorem VFPrintF_long_double_overruns {LC : Libc} `{LL : !LibcLaws LC} emptyBuffProc malloc_ok holds
    `{SK : !Sink emptyBuffProc holds} lit dir v out rest args d y
    (Hlit : literal lit) (Hdir : dir_ok dir out)
    (Harg : d_arg dir = VLDouble v) (Hop : d_op dir = 102) (Hexp : frexp (to_double v) <= 0)
    (Hlong : Z.max 100 (Z.max (default 6 (prec_value (d_prec dir)) + 13)
               (width_value (d_width dir))) <= Z.of_nat (length out))
    (Hy : holds d y) :
  FCGX_VFPrintF emptyBuffProc malloc_ok (lit ++ 37 :: dir_text dir ++ rest)
    (dir_args dir ++ args) y = Crash.
Proof. eapply VFPrintF_overruns; eauto. by eapply long_double_overruns. Qed.

(** ** Examples *)

(** Whole numbers as floating-point numbers, printed by [%f] only: a [double] is a
    number below 2^1024 or, [None], an infinity, for which [frexp] stores 0; a
    [long double] is any number, and one beyond the range converts to an
    infinity. *)
Definition whole_digits (prec : Z) (d : Z) : list Z :=
  dec_digits (Z.to_nat (Z.log2 (Z.abs d))) (Z.abs d)
    ++ if prec >? 0 then 46 :: chars prec 48 else [].
Definition whole_exponent (d : Z) : Z := if d =? 0 then 0 else Z.log2 (Z.abs d) + 1.
Definition whole_range (d : Z) : bool := Z.abs d <? 2 ^ 1024.

#[local] Instance whole_numbers : Libc := {|
  double := option Z;
  long_double := Z;
  frexp d := match d with Some d => whole_exponent d | None => 0 end;
  to_double d := if whole_range d then Some d else None;
  frexpl := whole_exponent;
  double_range := whole_range;
  print_double op _ prec d :=
    match d with
    | Some d => (d <? 0, if op =? 102 then whole_digits prec d else [], true)
    | None => (false, b! "inf", false)
    end;
  print_long_double op _ prec d := (d <? 0, if op =? 102 then whole_digits prec d else [], true);
  print_pointer p := 48 :: 120 :: base_digits 16 false 16 (u64 p)
|}.

(** Ten is more than eight. *)
Lemma dec_digits_log2 fuel k :
  0 <= k -> Z.of_nat (length (dec_digits fuel k)) <= Z.log2 k / 3 + 1.
Proof.
  revert k. induction fuel as [|fuel IH]; intros k Hk; cbn [dec_digits].
  - cbn. pose proof (Z.log2_nonneg k). pose proof (Z.div_pos (Z.log2 k) 3). lia.
  - pose proof (Z.log2_nonneg k). destruct (Z.ltb_spec k 10).
    { cbn. pose proof (Z.div_pos (Z.log2 k) 3). lia. }
    rewrite length_app. cbn [length].
    assert (Hd : 0 <= k / 10) by (apply Z.div_pos; lia).
    specialize (IH (k / 10) Hd).
    assert (H8 : Z.log2 (k / 10) <= Z.log2 k - 3).
    { transitivity (Z.log2 (k / 8)); [apply Z.log2_le_mono, Z.div_le_compat_l; lia|].
      change 8 with (2 ^ 3). rewrite <- Z.shiftr_div_pow2, Z.log2_shiftr by lia.
      pose proof (Z.log2_le_mono 8 k ltac:(lia)) as H8. change (Z.log2 8) with 3 in H8. lia. }
    pose proof (Z.div_le_mono (Z.log2 (k / 10)) (Z.log2 k - 3) 3 ltac:(lia) H8).
    replace (Z.log2 k - 3) with (Z.log2 k + (-1) * 3) in * by lia.
    rewrite Z.div_add in * by lia. lia.
Qed.

Lemma whole_digits_length prec d :
  0 <= prec -> Z.of_nat (length (whole_digits prec d))
    <= prec + 3 + (if whole_exponent d >? 0 then whole_exponent d / 3 else 0).
Proof.
  intros Hp. unfold whole_digits. rewrite length_app.
  assert (Hl : Z.of_nat (length (if prec >? 0 then 46 :: chars prec 48 else [])) <= prec + 1).
  { destruct (prec >? 0); cbn [length]; [unfold chars; rewrite length_replicate; lia | lia]. }
  pose proof (dec_digits_log2 (Z.to_nat (Z.log2 (Z.abs d))) (Z.abs d) ltac:(lia)) as Hd.
  unfold whole_exponent.
  destruct (Z.eqb_spec d 0) as [-> | Hne].
  { change (Z.log2 (Z.abs 0) / 3 + 1) with 1 in Hd. change (0 >? 0) with false. lia. }
  pose proof (Z.log2_nonneg (Z.abs d)).
  replace (Z.log2 (Z.abs d) + 1 >? 0) with true by lia.
  pose proof (Z.div_le_mono (Z.log2 (Z.abs d)) (Z.log2 (Z.abs d) + 1) 3). lia.
Qed.

#[local] Instance whole_numbers_laws : LibcLaws whole_numbers.
Proof.
  split; cbn [print_double print_long_double print_pointer to_double frexp frexpl double_range
              double long_double whole_numbers fst snd].
  - intros _ prec [d|] Hp; [|cbn; lia]. change (102 =? 102) with true. by apply whole_digits_length.
  - intros _ prec d Hp. change (102 =? 102) with true. by apply whole_digits_length.
  - done.
  - intros d -> _. lia.
  - intros op _ prec [d|] Ho Hp; [|cbn; lia]. replace (op =? 102) with false; [cbn; lia|].
    char_cases Ho; done.
  - intros op _ prec d Ho Hp. replace (op =? 102) with false; [cbn; lia|].
    char_cases Ho; done.
  - intros p. cbn [length]. pose proof (base_digits_length 16 false 16 (u64 p)). lia.
Qed.

(** What [render] gives for a few specifications, as a C compiler's [printf] does. *)
Definition printed (flags : string) (w : Z) (prec : option Z) (md op : Z) (a : va) : option (list Z) :=
  render (mkSpec (bytes_of_string flags) w prec md op) a.

Example printed_integers :
  map (fun f => f) [printed "" 5 None 32 100 (VInt 42); printed "-" 5 None 32 105 (VInt (-42));
    printed "+0" 6 None 32 100 (VInt 42); printed "0" 6 (Some 3) 32 100 (VInt 42);
    printed "#" 0 None 32 120 (VInt 255); printed "#0" 8 None 32 88 (VInt (-1));
    printed "#" 0 None 32 111 (VInt 8); printed "" 0 (Some 0) 32 100 (VInt 0);
    printed " " 0 None 108 117 (VLong (-1)); printed "" 0 None 104 100 (VInt 65535)]
  = [Some (b! "   42"); Some (b! "-42  "); Some (b! "+00042"); Some (b! "   042");
     Some (b! "0xff"); Some (b! "0XFFFFFFFF"); Some (b! "010"); Some [];
     Some (b! "18446744073709551615"); Some (b! "-1")].
Proof. by vm_compute. Qed.

(** "n=%d, %+6.2f %*s%n %Lf|" on the 32 byte stream of FcgiWriter. *)
Definition demo_segs : list segment :=
  [(b! "n=", Dir (mkDir [] NoWidth NoPrec 32 100 (VInt (-5))));
   (b! ", ", Dir (mkDir (b! "+") (Width (b! "6")) (Prec (b! "2")) 32 102 (VDouble (Some 7 : double))));
   (b! " ", Dir (mkDir [] (StarWidth (-4)) NoPrec 32 115 (VStr (Some (b! "ab")))));
   ([], Count 32 64);
   (b! " ", Dir (mkDir [] NoWidth NoPrec 76 102 (VLDouble (-2000 : Z))))].

Ltac check_dir :=
  split; [split; [by repeat constructor | by apply Nat.leb_le]
         | try done; try (split_and!; try split; (by repeat constructor) || done || by apply Nat.leb_le); cbn; try lia
         | try done; try (split; (by repeat constructor) || by apply Nat.leb_le); cbn; try lia
         | done | done | by vm_compute].

Lemma demo_segs_ok : Forall (fun s => literal s.1 /\ conv_ok s.2) demo_segs.
Proof.
  repeat (apply List.Forall_cons; [split; [by repeat constructor|]|]); [| | | done | | constructor];
    (split; [check_dir | split_and!; try by vm_compute]).
  intros _. left. by vm_compute.
Qed.

Definition demo_stream : FcgiStream.sys :=
  mkSys (NewWriter 8 (replicate 32 0) 10 FCGI_STDOUT) demo_request demo_os.

Lemma demo_stream_holds :
  holds_records demo_os demo_conn demo_request FCGI_STDOUT false [] demo_stream.
Proof.
  apply NewWriter_holds; [lia | done | done |]. repeat constructor.
Qed.

Example FCGX_VFPrintF_prints_witness :
  exists y', FCGX_VFPrintF EmptyBuffProc (fun _ => true) (b! "n=%d, %+6.2f %*s%n %Lf|")
      [VInt (-5); VDouble (Some 7 : double); VInt (-4); VStr (Some (b! "ab")); VIntPtr 64;
       VLDouble (-2000 : Z)] demo_stream
    = Ret (31, [(64, 17)], y') /\
    holds_records demo_os demo_conn demo_request FCGI_STDOUT false
      (b! "n=-5,  +7.00 ab   -2000.000000|") y'.
Proof.
  pose proof (records_sink demo_os demo_conn demo_request FCGI_STDOUT false
    eq_refl ltac:(by vm_compute) ltac:(by vm_compute)) as SK.
  destruct (FCGX_VFPrintF_prints EmptyBuffProc (fun _ => true)
    (holds_records demo_os demo_conn demo_request FCGI_STDOUT false) (SK := SK WriteCloseRecords)
    demo_segs (b! "|") [] demo_stream) as (y' & E & Hy').
  - done.
  - apply demo_segs_ok.
  - by repeat constructor.
  - by vm_compute.
  - apply demo_stream_holds.
  - assert (Ef : format_of demo_segs (b! "|") = b! "n=%d, %+6.2f %*s%n %Lf|") by (by vm_compute).
    assert (Eo : output_of demo_segs (b! "|") = b! "n=-5,  +7.00 ab   -2000.000000|") by (by vm_compute).
    assert (Es : stores_of 0 demo_segs = [(64, 17)]) by (by vm_compute).
    rewrite Ef, Eo, Es in E. rewrite Eo in Hy'. exists y'. split; [exact E | exact Hy'].
Defined.

(** "%200d". *)
Example VFPrintF_wide_field_overruns_witness :
  FCGX_VFPrintF EmptyBuffProc (fun _ => true) (b! "%200d") [VInt 1] demo_stream = Crash.
Proof.
  pose proof (records_sink demo_os demo_conn demo_request FCGI_STDOUT false
    eq_refl ltac:(by vm_compute) ltac:(by vm_compute)) as SK.
  apply (VFPrintF_wide_field_overruns EmptyBuffProc (fun _ => true)
    (holds_records demo_os demo_conn demo_request FCGI_STDOUT false) (SK := SK WriteCloseRecords)
    [] (mkDir [] (Width (b! "200")) NoPrec 32 100 (VInt 1))
    (chars 199 32 ++ [49]) [] [] [] demo_stream).
  - constructor.
  - check_dir.
  - by vm_compute.
  - apply demo_stream_holds.
Defined.

(** "%Lf" of ten to the 320th. *)
Definition huge_directive : directive := mkDir [] NoWidth NoPrec 76 102 (VLDouble (10 ^ 320 : Z)).

Example VFPrintF_long_double_overruns_witness :
  FCGX_VFPrintF EmptyBuffProc (fun _ => true) (b! "%Lf") [VLDouble (10 ^ 320 : Z)] demo_stream = Crash.
Proof.
  pose proof (records_sink demo_os demo_conn demo_request FCGI_STDOUT false
    eq_refl ltac:(by vm_compute) ltac:(by vm_compute)) as SK.
  apply (VFPrintF_long_double_overruns EmptyBuffProc (fun _ => true)
    (holds_records demo_os demo_conn demo_request FCGI_STDOUT false) (SK := SK WriteCloseRecords)
    [] huge_directive (10 ^ 320 : Z)
    (49 :: chars 320 48 ++ 46 :: chars 6 48) [] [] [] demo_stream).
  - constructor.
  - check_dir.
  - done.
  - done.
  - by vm_compute.
  - by vm_compute.
  - apply demo_stream_holds.
Defined.
