(* ===== verification/FcgiTotal.v ===== *)
(** The operations on output streams always return: on any stream that fcgiapp.c
    makes, open or closed, whatever the connection does.  FcgiSink says what they
    write when nothing fails; here a write may fail, and the stream is then closed.

    [Flushes] and [Empties] say what the function pointer [emptyBuffProc] promises for
    that, and EmptyBuffProc of FcgiWriter keeps the promise.  The file ends with
    FCGX_VFPrintF, FCGX_Finish_r and the streams of an accepted request. *)
From Stdlib Require Import ZArith Lia Bool.
From stdpp Require Import base list numbers gmap.
From S2P Require Import Prelude FcgiProto OsUnix FcgiStream FcgiSink FcgiWriter FcgiParams FcgiReader.
From S2P Require Import FcgiRequest FcgiFinish FcgiPrintf FcgiPrintfOk.

(** ** The type of a stream *)

(** The room of the buffer is inside it; a reader has no room; a writer that FCGX_FClose
    has not seen has a buffer for a record, and one that it has seen is closed. *)
Record stream_ok (s : FCGX_Stream) : Prop := {
  so_room : (wrNext s <= stop s <= length (buff (data s)))%nat;
  so_reader : isReader s = true -> wrNext s = stop s /\ (rdNext s <= stop s)%nat;
  so_size : isReader s = false -> wasFCloseCalled s = false ->
    stop s = bufflen (data s) /\ Z.of_nat (bufflen (data s)) mod 8 = 0 /\
    24 <= Z.of_nat (bufflen (data s)) <= 65536;
  so_closed : isReader s = false -> wasFCloseCalled s = true -> isClosed s = true;
}.

(** What writing and flushing leave alone. *)
Record kept (y y' : sys) : Prop := {
  kept_reader : isReader (strm y') = isReader (strm y);
  kept_fclose : wasFCloseCalled (strm y') = wasFCloseCalled (strm y);
  kept_async : async (os y') = async (os y);
}.

#[export] Instance kept_preorder : PreOrder kept.
Proof.
  split; [by split|]. intros x y z [A1 A2 A3] [B1 B2 B3]. by split; etransitivity.
Qed.

(** Flushing an open writer returns, and leaves it closed or with room. *)
Class Flushes (emptyBuffProc : bool -> sys -> outcome sys) : Prop :=
  flushes : forall y, stream_ok (strm y) -> isReader (strm y) = false -> isClosed (strm y) = false ->
    exists y', emptyBuffProc false y = Ret y' /\ stream_ok (strm y') /\ kept y y' /\
      (isClosed (strm y') = true \/ (wrNext (strm y') < stop (strm y'))%nat).

Class Empties (emptyBuffProc : bool -> sys -> outcome sys) : Prop := {
  empties_flushes :: Flushes emptyBuffProc;
  empties_closes : forall y, stream_ok (strm y) -> isReader (strm y) = false ->
    wasFCloseCalled (strm y) = false ->
    exists y', emptyBuffProc true y = Ret y' /\ stream_ok (strm y') /\ kept y y'
}.


(** An operation on [y] returns; the stream and what it leaves alone. *)
Definition answers {A} (m : outcome (A * sys)) (y : sys) : Prop :=
  exists a y', m = Ret (a, y') /\ stream_ok (strm y') /\ kept y y'.

Lemma answers_now {A} (a : A) y : stream_ok (strm y) -> answers (Ret (a, y)) y.
Proof. intros H. by exists a, y. Qed.

Lemma answers_trans {A} (m : outcome (A * sys)) y y' : kept y y' -> answers m y' -> answers m y.
Proof. intros K (a & z & E & H & K'). exists a, z. split_and!; [done..|by etransitivity]. Qed.

(** Bytes for which there is room. *)
Lemma put_bytes_stays bs y : stream_ok (strm y) -> (length bs <= stop (strm y) - wrNext (strm y))%nat ->
  exists y', put_bytes bs y = Ret y' /\ stream_ok (strm y') /\ kept y y' /\
    isClosed (strm y') = isClosed (strm y) /\ wrNext (strm y') = (wrNext (strm y) + length bs)%nat /\
    stop (strm y') = stop (strm y).
Proof.
  intros [S1 S2 S3 S4] Hl. unfold put_bytes.
  destruct (Nat.leb_spec (wrNext (strm y) + length bs) (length (buff (sdata y)))); [|lia].
  eexists. split; [done|]. split_and!; try done. split; cbn; rewrite ?length_mem_write by lia; try done; [lia|].
  intros Hr. destruct (S2 Hr). split; lia.
Qed.

Section Flushes.
Context {emptyBuffProc : bool -> sys -> outcome sys} {FL : Flushes emptyBuffProc}.

Lemma PutChar_answers c y : stream_ok (strm y) -> answers (FCGX_PutChar emptyBuffProc c y) y.
Proof.
  intros Hy. unfold FCGX_PutChar.
  assert (Hput : forall y, stream_ok (strm y) -> wrNext (strm y) <> stop (strm y) ->
    answers (let! y := put_bytes [u8 c] y in Ret (u8 c, y)) y).
  { clear y Hy. intros y Hy Hne. pose proof (so_room _ Hy).
    destruct (put_bytes_stays [u8 c] y Hy) as (y' & -> & Hy' & K & _); [cbn; lia|]. by exists (u8 c), y'. }
  destruct (Nat.eqb_spec (wrNext (strm y)) (stop (strm y))) as [He|Hne]; cbn [negb]; [|by apply Hput].
  destruct (isClosed (strm y)) eqn:Hc; [by apply answers_now|].
  destruct (isReader (strm y)) eqn:Hr; [by apply answers_now|]. cbn [orb].
  destruct (flushes y Hy Hr Hc) as (y1 & -> & Hy1 & K & Hroom). cbn [obind]. apply (answers_trans _ _ _ K).
  destruct (Nat.eqb_spec (wrNext (strm y1)) (stop (strm y1))); cbn [negb]; [|by apply Hput].
  destruct Hroom as [-> | ?]; [by apply answers_now|lia].
Qed.

(** One turn is enough on a closed stream. *)
Lemma PutStr_loop_closed fuel n str y : stream_ok (strm y) -> isClosed (strm y) = true ->
  answers (PutStr_loop emptyBuffProc (S fuel) n str y) y.
Proof.
  intros Hy Hc. pose proof (so_room _ Hy). cbn [PutStr_loop].
  destruct (Nat.eqb_spec (wrNext (strm y)) (stop (strm y))) as [He|Hne]; cbn [negb].
  { rewrite Hc. by apply answers_now. }
  set (m := Nat.min _ _).
  destruct (put_bytes_stays (take m str) y Hy) as (y1 & -> & Hy1 & K & Hc1 & _);
    [rewrite length_take; lia|]. cbn [obind]. apply (answers_trans _ _ _ K).
  rewrite Hc1, Hc. by destruct (m =? length str)%nat; apply answers_now.
Qed.

Lemma PutStr_loop_answers fuel n str y : stream_ok (strm y) ->
  (length str + (if decide (wrNext (strm y) < stop (strm y))%nat then 0 else 1) < fuel)%nat ->
  answers (PutStr_loop emptyBuffProc fuel n str y) y.
Proof.
  revert str y. induction fuel as [|fuel IH]; intros str y Hy Hf; [lia|].
  assert (Hflush : forall str y, stream_ok (strm y) -> (length str < fuel)%nat ->
    answers (if isClosed (strm y) || isReader (strm y) then Ret (-1, y)
             else let! y := emptyBuffProc false y in PutStr_loop emptyBuffProc fuel n str y) y).
  { clear y str Hy Hf. intros str y Hy Hl.
    destruct (isClosed (strm y)) eqn:Hc; [by apply answers_now|].
    destruct (isReader (strm y)) eqn:Hr; [by apply answers_now|]. cbn [orb].
    destruct (flushes y Hy Hr Hc) as (y1 & -> & Hy1 & K & Hroom). cbn [obind]. apply (answers_trans _ _ _ K).
    destruct Hroom as [Hc1|Hroom]; [|apply IH; [done|]; rewrite decide_True by done; lia].
    destruct fuel; [lia|]. by apply PutStr_loop_closed. }
  pose proof (so_room _ Hy). cbn [PutStr_loop].
  destruct (Nat.eqb_spec (wrNext (strm y)) (stop (strm y))) as [He|Hne]; cbn [negb].
  { apply Hflush; [done|]. rewrite decide_False in Hf by lia. lia. }
  rewrite decide_True in Hf by lia. set (m := Nat.min _ _).
  destruct (put_bytes_stays (take m str) y Hy) as (y1 & -> & Hy1 & K & _);
    [rewrite length_take; lia|]. cbn [obind]. apply (answers_trans _ _ _ K).
  destruct (Nat.eqb_spec m (length str)); [by apply answers_now|].
  apply Hflush; [done|]. rewrite length_drop. lia.
Qed.

Lemma PutStr_answers str y : stream_ok (strm y) -> answers (FCGX_PutStr emptyBuffProc str y) y.
Proof.
  intros Hy. pose proof (so_room _ Hy). unfold FCGX_PutStr.
  destruct (Z.leb_spec (Z.of_nat (length str)) (Z.of_nat (stop (strm y)) - Z.of_nat (wrNext (strm y)))).
  - destruct (put_bytes_stays str y Hy) as (y1 & -> & Hy1 & K & _); [lia|]. by eexists _, y1.
  - apply PutStr_loop_answers; [done|]. case_decide; lia.
Qed.

Lemma FFlush_answers y : stream_ok (strm y) -> answers (FCGX_FFlush emptyBuffProc y) y.
Proof.
  intros Hy. unfold FCGX_FFlush.
  destruct (isClosed (strm y)) eqn:Hc; [by apply answers_now|].
  destruct (isReader (strm y)) eqn:Hr; [by apply answers_now|]. cbn [orb].
  destruct (flushes y Hy Hr Hc) as (y1 & -> & Hy1 & K & _). by eexists _, y1.
Qed.
End Flushes.

(** FCGX_FClose makes the one change that the others do not. *)
Lemma FClose_answers {emptyBuffProc} `{EM : !Empties emptyBuffProc} y : stream_ok (strm y) ->
  exists r y', FCGX_FClose emptyBuffProc y = Ret (r, y') /\ stream_ok (strm y') /\
    isReader (strm y') = isReader (strm y) /\ async (os y') = async (os y).
Proof.
  intros Hy. unfold FCGX_FClose. destruct (wasFCloseCalled (strm y)) eqn:Hf; cbn [negb obind]; [by eauto 10|].
  destruct (isReader (strm y)) eqn:Hr; cbn [negb obind].
  - rewrite <- Hr. cbn. rewrite Hr. cbn. eexists _, _. split; [done|].
    destruct (so_reader _ Hy Hr), (so_room _ Hy). split_and!; try done.
    split; cbn; try lia; congruence.
  - destruct (empties_closes y Hy Hr Hf) as (y1 & -> & Hy1 & K). cbn [obind]. cbn.
    rewrite (kept_reader _ _ K), Hr. cbn. eexists _, _. split; [done|].
    pose proof (so_room _ Hy1). pose proof (kept_reader _ _ K) as Hr1. rewrite Hr in Hr1.
    split_and!; try done; [|by apply K]. split; cbn; try lia; try congruence.
Qed.

(** ** The writers of fcgiapp.c *)

Lemma write_it_all_answers fd bs o : exists r o', write_it_all fd bs o = Ret (r, o') /\ async o' = async o.
Proof.
  unfold write_it_all, write_fuel. destruct (k_conns (kern o) !! fd) as [c|] eqn:Hc.
  - destruct (shutdownNow o) eqn:Hs.
    + cbn [write_loop]. unfold OS_Write. rewrite Hs. destruct bs; by eexists _, _.
    + assert (E : put_conn fd (conn_tx c (c_wr c) (c_tx c)) o = o) by (apply put_conn_id; rewrite Hc; by destruct c).
      pose proof (write_loop_any (S (S (length (c_wr c)))) fd c (c_tx c) (c_wr c) bs o Hs (le_n _)) as H. rewrite E in H.
      destruct H as (out & rest & wr & _ & _ & [[_ ->]|(_ & e & _ & ->)]); by eexists _, _.
  - cbn [write_loop]. destruct bs as [|b bs]; [by eexists _, _|].
    unfold OS_Write. destruct (shutdownNow o); [by eexists _, _|]. unfold sys_write. rewrite Hc. by eexists _, _.
Qed.

(** A write to the connection: at most it closes the stream. *)
Lemma ipc_write_answers bs y : stream_ok (strm y) ->
  exists ok y', ipc_write bs y = Ret (ok, y') /\ stream_ok (strm y') /\ kept y y' /\
    (if ok : bool then strm y' = strm y else isClosed (strm y') = true).
Proof.
  intros Hy. unfold ipc_write.
  destruct (write_it_all_answers (ipcFd (req y)) bs (os y)) as (r & o & -> & Ho). cbn [obind].
  destruct (r <? 0).
  - exists false, (SetError (os_errno o) (set_os o y)). split; [done|].
    unfold SetError. cbn. destruct Hy as [S1 S2 S3 S4]. destruct (FCGI_errno (strm y) =? 0); by split_and!.
  - exists true, (set_os o y). by split_and!.
Qed.

Lemma encapsulate_answers y : stream_ok (strm y) -> isReader (strm y) = false -> wasFCloseCalled (strm y) = false ->
  exists y', encapsulate y = Ret y' /\ stream_ok (strm y') /\ kept y y'.
Proof.
  intros Hy Hr Hf. destruct (so_size _ Hy Hr Hf) as (Hs & H8 & Hb). pose proof (so_room _ Hy).
  unfold encapsulate. set (n := Z.of_nat (wrNext (strm y)) - 8). rewrite s32_small by lia. fold n.
  destruct (Z.gtb_spec n 0).
  - pose proof (AlignInt8_bounds n ltac:(lia)) as [Ha Hm].
    assert (AlignInt8 n <= Z.of_nat (stop (strm y)) - 8).
    { rewrite Hs. pose proof (Z.div_mod (AlignInt8 n) 8). pose proof (Z.div_mod (Z.of_nat (bufflen (sdata y))) 8). lia. }
    destruct (put_bytes_stays (replicate (Z.to_nat (AlignInt8 n - n)) 0) y Hy) as (y1 & -> & Hy1 & K & _ & Hw & Hst);
      [rewrite length_replicate; lia|]. cbn [obind].
    destruct (MakeHeader_asserts (sd_type (sdata y1)) (requestId (req y1)) n (AlignInt8 n - n)) as [h ->]; [lia..|].
    cbn [obind]. eexists. split; [done|]. pose proof (so_room _ Hy1).
    split; [|destruct K; by split]. destruct Hy1 as [S1 S2 S3 S4].
    split; cbn -[header_bytes]; rewrite ?length_mem_write by (unfold FCGI_HEADER_LEN in *; rewrite length_header_bytes; unfold FCGI_HEADER_LEN; lia); done.
  - eexists. split; [done|]. split; [|by split]. destruct Hy as [S1 S2 S3 S4].
    split; cbn; try done; [lia|]. congruence.
Qed.

(** The rest of EmptyBuffProc: the buffer goes out, and has room again. *)
Lemma drain_answers (raw : bool) y : stream_ok (strm y) -> isReader (strm y) = false -> wasFCloseCalled (strm y) = false ->
  rawWrite (sdata y) = raw ->
  exists y', (let! (ok, y) :=
      (if negb (wrNext (strm y) =? 0)%nat then
         let y := upd_data (set_isAnythingWritten true) y in
         let! (ok, y) := ipc_write (take (wrNext (strm y)) (buff (sdata y))) y in
         Ret (ok, if ok : bool then upd_strm (set_wrNext 0) y else y)
       else Ret (true, y)) in
    if ok : bool then
      Ret (if negb (rawWrite (sdata y))
           then upd_strm (fun s => set_wrNext (wrNext s + FCGI_HEADER_LEN) s) y else y)
    else Ret y) = Ret y' /\ stream_ok (strm y') /\ kept y y' /\
    (isClosed (strm y') = true \/ (wrNext (strm y') < stop (strm y'))%nat).
Proof.
  intros Hy Hr Hf Hraw. destruct (so_size _ Hy Hr Hf) as (Hs & H8 & Hb). pose proof (so_room _ Hy).
  assert (Hend : forall z, stream_ok (strm z) -> kept y z -> stop (strm z) = stop (strm y) ->
    wrNext (strm z) = 0%nat ->
    exists y', Ret (if negb (rawWrite (sdata z))
           then upd_strm (fun s => set_wrNext (wrNext s + FCGI_HEADER_LEN) s) z else z) = Ret y' /\
      stream_ok (strm y') /\ kept y y' /\ (isClosed (strm y') = true \/ (wrNext (strm y') < stop (strm y'))%nat)).
  { intros z Hz K Hst Hw. eexists. split; [done|]. pose proof (so_room _ Hz). pose proof (kept_reader _ _ K).
    destruct (rawWrite (sdata z)); cbn [negb]; [split_and!; try done; right; lia|].
    destruct Hz as [S1 S2 S3 S4], K as [K1 K2 K3]. unfold FCGI_HEADER_LEN.
    split_and!; [split|split|right]; cbn; try done; try lia. congruence. }
  destruct (Nat.eqb_spec (wrNext (strm y)) 0) as [Hw|Hw]; cbn [negb obind]; [by apply Hend|].
  set (y1 := upd_data _ y). assert (Hy1 : stream_ok (strm y1)) by (destruct Hy as [S1 S2 S3 S4]; by split).
  destruct (ipc_write_answers (take (wrNext (strm y1)) (buff (sdata y1))) y1 Hy1) as (ok & y2 & -> & Hy2 & K & Hok).
  cbn [obind]. assert (K2 : kept y y2) by (etransitivity; [|exact K]; by split).
  destruct ok; [|by eauto 10].
  apply Hend; [cbn; rewrite Hok|destruct K2; by split|cbn; by rewrite Hok|done].
  destruct Hy as [S1 S2 S3 S4]. split; cbn; try done; [lia|]. congruence.
Qed.

#[export] Instance EmptyBuffProc_with_Flushes W : Flushes (EmptyBuffProc_with W).
Proof.
  intros y Hy Hr Hc. assert (Hf : wasFCloseCalled (strm y) = false).
  { destruct (wasFCloseCalled (strm y)) eqn:E; [|done]. by rewrite (so_closed _ Hy Hr E) in Hc. }
  unfold EmptyBuffProc_with.
  assert (exists y1, (if negb (rawWrite (sdata y)) then encapsulate y else Ret y) = Ret y1 /\
    stream_ok (strm y1) /\ kept y y1) as (y1 & -> & Hy1 & K).
  { destruct (rawWrite (sdata y)); [by exists y|]. by apply encapsulate_answers. }
  cbn [obind]. destruct (drain_answers (rawWrite (sdata y1)) y1 Hy1) as (y2 & E & Hy2 & K2 & Hroom);
    [by rewrite (kept_reader _ _ K)|by rewrite (kept_fclose _ _ K)|done|].
  exists y2. split; [exact E|]. split_and!; try done. by etransitivity.
Qed.

Lemma WriteCloseRecords_answers y : stream_ok (strm y) ->
  exists y', WriteCloseRecords y = Ret y' /\ stream_ok (strm y') /\ kept y y'.
Proof.
  intros Hy. unfold WriteCloseRecords. set (y0 := upd_data _ y).
  assert (Hy0 : stream_ok (strm y0)) by (destruct Hy as [S1 S2 S3 S4]; by split).
  assert (K0 : kept y y0) by by split.
  assert (Hput : forall t id cl bs z, 0 <= cl <= 65535 -> stream_ok (strm z) -> kept y z ->
    exists z', (let! h := MakeHeader t id cl 0 in
      let! (_, y) := FCGX_PutStr EmptyBuff_flush (header_bytes h ++ bs) z in Ret y) = Ret z' /\
      stream_ok (strm z') /\ kept y z').
  { intros t id cl bs z Hcl Hz K. destruct (MakeHeader_asserts t id cl 0 Hcl) as [h ->]; [lia|]. cbn [obind].
    destruct (PutStr_answers (emptyBuffProc := EmptyBuff_flush) (FL := EmptyBuffProc_with_Flushes _)
      (header_bytes h ++ bs) z Hz) as (a & z' & -> & Hz' & K'). exists z'. split_and!; [done..|by etransitivity]. }
  assert (exists y1, (if negb ((sd_type (sdata y0) =? FCGI_STDERR) && (wrNext (strm y0) =? 0)%nat
              && negb (isAnythingWritten (sdata y0))) then
       let! h := MakeHeader (sd_type (sdata y0)) (requestId (req y0)) 0 0 in
       let! (_, y) := FCGX_PutStr EmptyBuff_flush (header_bytes h) y0 in Ret y
     else Ret y0) = Ret y1 /\ stream_ok (strm y1) /\ kept y y1) as (y1 & -> & Hy1 & K1).
  { destruct (negb _); [|by exists y0].
    destruct (Hput (sd_type (sdata y0)) (requestId (req y0)) 0 [] y0) as (z & E & Hz); [lia|done|done|].
    exists z. split; [|done]. rewrite <- E. destruct (MakeHeader _ _ _ _); [|done|done].
    cbn [obind]. by rewrite app_nil_r. }
  cbn [obind].
  match goal with |- context [obind ?m _] =>
    assert (exists y2, m = Ret y2 /\ stream_ok (strm y2) /\ kept y y2) as (y2 & -> & Hy2 & K2)
  end.
  { destruct (_ =? 1); [|by exists y1]. apply (Hput _ _ 8); [lia|done|done]. }
  cbn [obind]. eexists. split; [done|]. split; [done|]. destruct K2. by split.
Qed.

#[export] Instance EmptyBuffProc_Empties : Empties EmptyBuffProc.
Proof.
  split; [apply EmptyBuffProc_with_Flushes|]. intros y Hy Hr Hf. unfold EmptyBuffProc, EmptyBuffProc_with.
  assert (exists y1, (if negb (rawWrite (sdata y)) then encapsulate y else Ret y) = Ret y1 /\
    stream_ok (strm y1) /\ kept y y1) as (y1 & -> & Hy1 & K).
  { destruct (rawWrite (sdata y)); [by exists y|]. by apply encapsulate_answers. }
  cbn [obind]. destruct (WriteCloseRecords_answers y1 Hy1) as (y2 & -> & Hy2 & K2). cbn [obind].
  assert (K' : kept y y2) by by etransitivity.
  destruct (drain_answers (rawWrite (sdata y2)) y2 Hy2) as (y3 & E & Hy3 & K3 & _);
    [by rewrite (kept_reader _ _ K')|by rewrite (kept_fclose _ _ K')|done|].
  exists y3. split; [exact E|]. split; [done|by etransitivity].
Qed.

(** The writers of an accepted request. *)
Lemma NewWriter_stream_ok addr mem n T :
  0 <= addr < 2 ^ 64 - 8 ->
  Z.of_nat (length mem) = AlignInt8 (Z.min (Z.max n 32) (FCGI_MAX_LENGTH + 1)) ->
  stream_ok (NewWriter addr mem n T) /\ isReader (NewWriter addr mem n T) = false.
Proof.
  intros Ha Hm. destruct (NewWriter_holds addr mem n T demo_request demo_os demo_conn Ha Hm) as (Hi & _);
    [done|repeat constructor|]. destruct Hi. cbn [strm] in *. split; [|done].
  split; [lia|congruence|done|congruence].
Qed.

(** ** Formatted output *)

Section Printf.
Context `{LL : LibcLaws} {emptyBuffProc : bool -> sys -> outcome sys} {FL : Flushes emptyBuffProc}.
Context {malloc_ok : Z -> bool}.
Hypothesis memory : forall n, malloc_ok n = true.

Lemma put_text_answers text y : stream_ok (strm y) ->
  answers (if (length text =? 0)%nat then Ret (0, y) else FCGX_PutStr emptyBuffProc text y) y.
Proof. intros Hy. destruct (_ =? 0)%nat; [by apply answers_now|by apply PutStr_answers]. Qed.

(** When a write fails the function returns -1. *)
Lemma VFPrintF_loop_answers segs : forall fuel last n aux st y,
  Forall (fun s => literal s.1 /\ conv_ok s.2) segs -> literal last ->
  (length (format_of segs last) < fuel)%nat -> stream_ok (strm y) ->
  answers (VFPrintF_loop emptyBuffProc malloc_ok fuel (format_of segs last) (args_of segs) n aux st y) y.
Proof.
  induction segs as [|[l c] segs IH]; intros fuel last n aux st y Hs Hlast Hfuel Hy;
    (destruct fuel as [|fuel]; [lia|]).
  - cbn [format_of args_of] in *. destruct last as [|c l]; [by apply answers_now|]. cbn [VFPrintF_loop].
    pose proof (span_app (fun c => negb (c =? 37)) (c :: l) []) as Esp. rewrite app_nil_r in Esp.
    rewrite Esp; [|eapply List.Forall_impl; [|exact Hlast]; cbn; lia|done].
    destruct (put_text_answers (c :: l) y Hy) as (r & y' & -> & Hy' & K). cbn [obind].
    destruct (r <? 0); by eexists _, y'.
  - apply List.Forall_cons_iff in Hs as [[Hl Hc] Hs]. cbn [fst snd] in Hl, Hc.
    cbn [format_of args_of] in *. rewrite length_app in Hfuel. cbn [length] in Hfuel.
    assert (Hne : l ++ 37 :: conv_text c ++ format_of segs last <> []) by (by destruct l).
    cbn [VFPrintF_loop]. rewrite (span_literal l _ Hl). destruct (l ++ _) eqn:E0; [done|]. clear E0 Hne.
    destruct (put_text_answers l y Hy) as (r & y1 & -> & Hy1 & K1). cbn [obind].
    destruct (r <? 0); [by eexists _, y1|].
    destruct (convert_ok memory c (format_of segs last) (args_of segs) (s32 (n + Z.of_nat (length l))) aux Hc)
      as (blen & aux' & -> & Hblen). cbn [obind]. replace (_ <? blen) with true by lia.
    destruct (put_text_answers (conv_out c) y1 Hy1) as (r2 & y2 & -> & Hy2 & K2). cbn [obind].
    assert (K : kept y y2) by by etransitivity. destruct (r2 <? 0); [by eexists _, y2|].
    assert (Ed : drop (S (length (conv_text c))) (37 :: conv_text c ++ format_of segs last)
                 = format_of segs last) by (cbn [drop]; by rewrite drop_app_length).
    rewrite Ed, length_app in *. apply (answers_trans _ _ _ K), IH; [done|done|lia|done].
Qed.

Lemma VFPrintF_answers segs last y :
  Forall (fun s => literal s.1 /\ conv_ok s.2) segs -> literal last -> stream_ok (strm y) ->
  answers (FCGX_VFPrintF emptyBuffProc malloc_ok (format_of segs last) (args_of segs) y) y.
Proof. intros. apply VFPrintF_loop_answers; [done|done|lia|done]. Qed.
End Printf.

(** ** Finishing a request *)

(** The output and error streams of the request, as far as they are there. *)
Definition writer_in (s : option FCGX_Stream) : Prop :=
  forall w, s = Some w -> stream_ok w /\ isReader w = false.
Definition writers_ok (g : fcgx) : Prop := writer_in (out g) /\ writer_in (err g).

Lemma close_drain_answers fuel fd o : (close_fuel fd o <= fuel)%nat -> exists o', close_drain fuel fd o = Ret o'.
Proof.
  unfold close_fuel. destruct (k_conns (kern o) !! fd) as [c|] eqn:Hc; intros Hf.
  - destruct (close_drain_ok fuel fd o c Hc) as (o' & c' & -> & _); [lia|]. by exists o'.
  - destruct fuel; [lia|]. cbn [close_drain]. unfold sys_select_closing. rewrite Hc. by eexists.
Qed.

Lemma OS_IpcClose_answers fd o : asyncIoInUse (async o) = false -> exists r o', OS_IpcClose fd o = Ret (r, o').
Proof.
  intros Ha. unfold OS_IpcClose, OS_Close. destruct (fd =? -1); [by eexists _, _|]. rewrite Ha. cbn [obind].
  destruct (_ =? 0); cbn [obind]; [|destruct (sys_close fd o); by eexists _, _].
  destruct (close_drain_answers (close_fuel fd o) fd o (le_n _)) as [o' ->]. cbn [obind].
  destruct (sys_close fd o'); by eexists _, _.
Qed.

Lemma FCGX_Free_answers close g : asyncIoInUse (async (fos g)) = false -> exists g', FCGX_Free close g = Ret g'.
Proof.
  intros Ha. unfold FCGX_Free. destruct close; [|by eexists].
  match goal with |- context [OS_IpcClose ?fd ?o] => destruct (OS_IpcClose_answers fd o Ha) as (r & o' & ->) end.
  by eexists.
Qed.

Lemma FClose_ptr_answers s g : writer_in s ->
  exists r s' g', FClose_ptr s g = Ret (r, s', g') /\ out g' = out g /\ err g' = err g /\
    async (fos g') = async (fos g).
Proof.
  intros Hs. destruct s as [s|]; [|by eexists _, _, _]. destruct (Hs s eq_refl) as [Hok _]. unfold FClose_ptr.
  destruct (FClose_answers (view s g) Hok) as (r & y & -> & _ & _ & Ha). cbn [obind].
  eexists _, _, _. split; [done|]. by split_and!.
Qed.

(** FCGX_Finish_r returns, whatever the connection does. *)
Lemma Finish_answers g : writers_ok g -> asyncIoInUse (async (fos g)) = false -> exists g', FCGX_Finish_r g = Ret g'.
Proof.
  intros [Ho He] Ha. unfold FCGX_Finish_r. destruct (in_ g) as [s|]; [|by apply FCGX_Free_answers].
  destruct (FClose_ptr_answers (err g) g He) as (r1 & e & g1 & -> & Ho1 & _ & Ha1). cbn [obind].
  destruct (FClose_ptr_answers (out (set_err e g1)) (set_err e g1)) as (r2 & u & g2 & -> & _ & _ & Ha2);
    [cbn; by rewrite Ho1|]. cbn [obind]. apply FCGX_Free_answers. cbn in *. by rewrite Ha2, Ha1.
Qed.
