(* ===== verification/FcgiStdio.v ===== *)
(** The stdio wrappers of cwf/libfcgi/fcgi_stdio.c: files that are either a [FILE]
    of the C library or a stream of the current FastCGI request.

    The C library's side is the class [Stdio]: what its calls do to a [world] and
    which [FILE]s are open, with the documented laws in [StdioLaws].  The structs
    [FCGI_FILE] live in a heap, so that a freed one is not used again. *)
From Stdlib Require Import ZArith Lia Bool String.
From stdpp Require Import base list numbers gmap sets.
From S2P Require Import Prelude Clib FcgiProto OsUnix OsSocket FcgiStream FcgiSink FcgiWriter.
From S2P Require Import FcgiParams FcgiReader FcgiSource FcgiRequest FcgiPrintf FcgiPrintfOk FcgiTotal.

(** ** The C library *)

(** The calls that make a [FILE]. *)
Inductive opener :=
| Copen (path mode : list Z)
| Ctmpfile
| Cfdopen (fd : Z) (mode : list Z)
| Cpopen (cmd type : list Z).

(** The calls on a [FILE] whose result is an [int] or nothing. *)
Inductive call :=
| Cfflush
| Csetvbuf (buf bufmode size : Z)
| Csetbuf (buf : Z)
| Cfseek (offset whence : Z)
| Cftell
| Crewind
| Cfsetpos (pos : Z)
| Cfgetc
| Cungetc (c : Z)
| Cfputc (c : Z)
| Cfputs (str : list Z)
| Cfeof
| Cferror
| Cclearerr
| Cfileno.

(** [FILE]s are pointers; [opened] are those that were opened and not closed. *)
Class Stdio {LC : Libc} := {
  world : Type;
  opened : world -> gset Z;
  c_stdin : Z;
  c_stdout : Z;
  c_stderr : Z;
  c_open : opener -> world -> option Z * world;
  c_fclose : Z -> world -> Z * world;
  c_pclose : Z -> world -> Z * world;
  c_freopen : list Z -> list Z -> Z -> world -> bool * world;
  c_call : call -> Z -> world -> Z * world;
  c_fflush_all : world -> Z * world;
  c_fgetpos : Z -> world -> (Z * Z) * world;
  c_fgets : Z -> Z -> world -> option (list Z) * world;
  c_fread : Z -> Z -> Z -> world -> (Z * list Z) * world;
  c_fwrite : list Z -> Z -> Z -> Z -> world -> Z * world;
  c_vfprintf : list Z -> list va -> Z -> world -> (Z * list (Z * Z)) * world;
  strerror : Z -> list Z;
}.

(** A new [FILE] is none of the open ones; [freopen] closes the file when it fails. *)
Class StdioLaws `{ST : Stdio} : Prop := {
  stdio_distinct : c_stdin <> c_stdout /\ c_stdin <> c_stderr /\ c_stdout <> c_stderr;
  opened_open : forall o w f w', c_open o w = (Some f, w') -> (f ∉ opened w) /\ opened w' = opened w ∪ {[f]};
  opened_open_fails : forall o w w', c_open o w = (None, w') -> opened w' = opened w;
  opened_fclose : forall f w, opened (c_fclose f w).2 = opened w ∖ {[f]};
  opened_pclose : forall f w, opened (c_pclose f w).2 = opened w ∖ {[f]};
  opened_freopen : forall p m f w,
    opened (c_freopen p m f w).2 = if (c_freopen p m f w).1 then opened w else opened w ∖ {[f]};
  opened_call : forall c f w, opened (c_call c f w).2 = opened w;
  opened_fflush_all : forall w, opened (c_fflush_all w).2 = opened w;
  opened_fgetpos : forall f w, opened (c_fgetpos f w).2 = opened w;
  opened_fgets : forall n f w, opened (c_fgets n f w).2 = opened w;
  opened_fread : forall s n f w, opened (c_fread s n f w).2 = opened w;
  opened_fwrite : forall bs s n f w, opened (c_fwrite bs s n f w).2 = opened w;
  opened_vfprintf : forall fmt a f w, opened (c_vfprintf fmt a f w).2 = opened w;
}.

(** ** State *)

(** A pointer to one of the streams of the request of fcgiapp.c. *)
Inductive stream_ptr := In | Out | Err.
#[export] Instance stream_ptr_eq : EqDecision stream_ptr.
Proof. solve_decision. Defined.

(** [FCGI_FILE]; [None] is NULL. *)
Record FCGI_FILE := mkFILE {
  stdio_stream : option Z;
  fcgx_stream : option stream_ptr;
}.

(** The addresses of [_fcgi_sF[0]], [_fcgi_sF[1]] and [_fcgi_sF[2]]. *)
Definition FCGI_stdin : Z := 16.
Definition FCGI_stdout : Z := 32.
Definition FCGI_stderr : Z := 48.

(** [environ]: the environment of the process, NULL, or the array of the request. *)
Inductive environ_ptr := Process_environ | Null_environ | Request_envp.

Definition ESPIPE : Z := 29.

Lemma union_difference_new (O : gset Z) s : s ∉ O -> (O ∪ {[s]}) ∖ {[s]} = O.
Proof.
  intros Hs. apply set_eq. intros t. rewrite elem_of_difference, elem_of_union, elem_of_singleton.
  split; [by intros [[?|?] ?]|]. intros Ht. split; [by left|]. by intros ->.
Qed.

Section Stdio.
Context `{ST : Stdio}.

(** The globals of the file with the structs, those of fcgiapp.c, the C library and
    the calls of os_unix.c on sockets. *)
Record stdio := mkStdio {
  files : gmap Z FCGI_FILE;
  acceptCalled : bool;
  isCGI : bool;
  environ : environ_ptr;
  fx : fcgx;
  clib : world;
  calls : trace;
}.

Definition set_files (v : gmap Z FCGI_FILE) (x : stdio) : stdio :=
  mkStdio v (acceptCalled x) (isCGI x) (environ x) (fx x) (clib x) (calls x).
Definition set_fx (v : fcgx) (x : stdio) : stdio :=
  mkStdio (files x) (acceptCalled x) (isCGI x) (environ x) v (clib x) (calls x).
Definition set_clib (v : world) (x : stdio) : stdio :=
  mkStdio (files x) (acceptCalled x) (isCGI x) (environ x) (fx x) v (calls x).
Definition set_environ (v : environ_ptr) (x : stdio) : stdio :=
  mkStdio (files x) (acceptCalled x) (isCGI x) v (fx x) (clib x) (calls x).
Definition OS_SetErrno (e : Z) (x : stdio) : stdio := set_fx (set_fos (set_os_errno e (fos (fx x))) (fx x)) x.

Definition slot (p : stream_ptr) (g : fcgx) : option FCGX_Stream :=
  match p with In => in_ g | Out => out g | Err => err g end.
Definition set_slot (p : stream_ptr) (s : FCGX_Stream) (g : fcgx) : fcgx :=
  match p with In => set_in_ (Some s) g | Out => set_out (Some s) g | Err => set_err (Some s) g end.

(** [f (stream)]; the stream must not have been freed. *)
Definition fcgx_call {A} (f : sys -> outcome (A * sys)) (p : stream_ptr) (x : stdio) : outcome (A * stdio) :=
  match slot p (fx x) with
  | None => Crash
  | Some s =>
      let! (a, y) := f (view s (fx x)) in
      Ret (a, set_fx (set_slot p (strm y) (unview y (fx x))) x)
  end.

(** [f (stream)] for a [FILE], which must be open. *)
Definition file_call {A} (f : Z -> world -> A * world) (s : Z) (x : stdio) : outcome (A * stdio) :=
  if bool_decide (s ∈ opened (clib x)) then
    let '(a, w) := f s (clib x) in Ret (a, set_clib w x)
  else Crash.

Definition get_file (fp : Z) (x : stdio) : outcome FCGI_FILE :=
  match files x !! fp with Some f => Ret f | None => Crash end.

(** The shape of most functions: the C library's function on a [FILE], the
    library's on a stream, [closed] otherwise. *)
Definition dispatch {A} (fp : Z) (onfile : Z -> world -> A * world) (onstream : sys -> outcome (A * sys))
    (closed : A) (x : stdio) : outcome (A * stdio) :=
  let! f := get_file fp x in
  match stdio_stream f, fcgx_stream f with
  | Some s, _ => file_call onfile s x
  | None, Some p => fcgx_call onstream p x
  | None, None => Ret (closed, x)
  end.

(** The shape of the functions that have no counterpart on streams. *)
Definition file_only {A} (fp : Z) (onfile : Z -> world -> A * world) (otherwise : stdio -> A * stdio)
    (x : stdio) : outcome (A * stdio) :=
  let! f := get_file fp x in
  match stdio_stream f with
  | Some s => file_call onfile s x
  | None => Ret (otherwise x)
  end.

(** A call of the C library whose result is an [int]. *)
Definition c_int (c : call) : Z -> world -> Z * world := c_call c.

(** ** Requests *)

(** The function pointers of the streams, [malloc] for a size, the bound of the loops,
    the system calls on sockets, [inet_addr], and what [OS_LibInit] and [FCGX_Init]
    find. *)
Variable emptyBuffProc : bool -> sys -> outcome sys.
Variable fillBuffProc : sys -> outcome sys.
Variable malloc_ok : Z -> bool.
Variable fuel : nat.
Variable answer : trace -> sys_call -> Z * Z.
Variable inet_addr : list Z -> Z.
Variable lib_malloc_ok : bool.
Variable server_addrs : option (list Z).

(** [inl] carries the status of [exit]. *)
Definition FCGX_IsCGI (x : stdio) : (Z + bool) * stdio :=
  let g := fx x in
  if negb (isFastCGI g =? -1) then (inr (isFastCGI g =? 0), x)
  else
    let '(rc, g) := if negb (fcgx_libInitialized g) then FCGX_Init lib_malloc_ok server_addrs g else (0, g) in
    if negb (rc =? 0) then (inl (if rc <? 0 then rc else - rc), set_fx g x)
    else
      let '(b, tr) := OS_IsFcgi answer FCGI_LISTENSOCK_FILENO (calls x) in
      let g := set_isFastCGI (Z.b2z b) g in
      (inr (negb b), mkStdio (files x) (acceptCalled x) (isCGI x) (environ x) g (clib x) tr).

Definition set_accept (called cgi : bool) (x : stdio) : stdio :=
  mkStdio (files x) called cgi (environ x) (fx x) (clib x) (calls x).

(** The three assignments to the standard files. *)
Definition bind_std (i o e : FCGI_FILE) (x : stdio) : stdio :=
  set_files (<[FCGI_stderr := e]> (<[FCGI_stdout := o]> (<[FCGI_stdin := i]> (files x)))) x.

Definition accept (e : accept_env) : fcgx -> outcome (Z * fcgx) :=
  FCGX_Accept inet_addr (ae_stack e) (ae_addr_in e) (ae_addr_out e) (ae_addr_err e)
    (ae_mem_in e) (ae_mem_out e) (ae_mem_err e) lib_malloc_ok server_addrs fuel.

(** A positive result of [FCGX_Accept] leaves [in], [out] and [error] unset, and
    they are used. *)
Definition FCGI_Accept (e : accept_env) (x : stdio) : outcome ((Z + Z) * stdio) :=
  let '(early, x) :=
    if negb (acceptCalled x) then
      match FCGX_IsCGI x with
      | (inl status, x) => (Some (inl status), x)
      | (inr b, x) => (None, set_accept true b x)
      end
    else if isCGI x then (Some (inr EOF), x) else (None, x) in
  match early with
  | Some r => Ret (r, x)
  | None =>
      if isCGI x then
        Ret (inr 0, bind_std (mkFILE (Some c_stdin) None) (mkFILE (Some c_stdout) None)
                      (mkFILE (Some c_stderr) None) x)
      else
        let! (acceptResult, g) := accept e (fx x) in
        let x := set_fx g x in
        if acceptResult <? 0 then Ret (inr acceptResult, x)
        else if 0 <? acceptResult then Crash
        else
          Ret (inr 0, set_environ Request_envp
            (bind_std (mkFILE None (Some In)) (mkFILE None (Some Out)) (mkFILE None (Some Err)) x))
  end.

(** [fp->fcgx_stream = NULL]. *)
Definition null_stream (f : FCGI_FILE) : FCGI_FILE := mkFILE (stdio_stream f) None.

Definition FCGI_Finish (x : stdio) : outcome stdio :=
  if negb (acceptCalled x) || isCGI x then Ret x
  else
    let! g := FCGX_Finish_r (fx x) in
    let x := set_fx g x in
    let x := set_files (alter null_stream FCGI_stderr (alter null_stream FCGI_stdout
               (alter null_stream FCGI_stdin (files x)))) x in
    Ret (set_environ Null_environ x).

Definition FCGI_StartFilterData (x : stdio) : outcome (Z * stdio) :=
  let! f := get_file FCGI_stdin x in
  match stdio_stream f, fcgx_stream f with
  | Some _, _ => Ret (-1, x)
  | None, Some p => fcgx_call FCGX_StartFilterData p x
  | None, None => Crash
  end.

Definition FCGI_SetExitStatus (status : Z) (x : stdio) : outcome stdio :=
  let! f := get_file FCGI_stdin x in
  match fcgx_stream f with
  | Some p => let! (_, x) := fcgx_call (fun y => Ret (tt, FCGX_SetExitStatus status y)) p x in Ret x
  | None => Ret x
  end.

(** ** Opening and closing *)

(** [addr] is what [malloc] returns for the struct, [None] for NULL. *)
Definition FCGI_OpenFromFILE (addr : option Z) (stream : option Z) (x : stdio) : option Z * stdio :=
  match stream, addr with
  | Some s, Some a => (Some a, set_files (<[a := mkFILE (Some s) None]> (files x)) x)
  | _, _ => (None, x)
  end.

(** FCGI_fopen, FCGI_tmpfile and FCGI_fdopen, and FCGI_popen, which differ in the
    call that opens and the one that closes a file no struct is there for. *)
Definition open_with (o : opener) (close : Z -> world -> Z * world) (addr : option Z) (x : stdio)
    : outcome (option Z * stdio) :=
  let '(file, w) := c_open o (clib x) in
  let '(fcgi_file, x) := FCGI_OpenFromFILE addr file (set_clib w x) in
  match file, fcgi_file with
  | Some s, None => let! (_, x) := file_call close s x in Ret (None, x)
  | _, _ => Ret (fcgi_file, x)
  end.
Definition FCGI_fopen (path mode : list Z) := open_with (Copen path mode) c_fclose.
Definition FCGI_tmpfile := open_with Ctmpfile c_fclose.
Definition FCGI_fdopen (fd : Z) (mode : list Z) := open_with (Cfdopen fd mode) c_fclose.
Definition FCGI_popen (cmd type : list Z) := open_with (Cpopen cmd type) c_pclose.

Definition is_std (fp : Z) : bool := (fp =? FCGI_stdin) || (fp =? FCGI_stdout) || (fp =? FCGI_stderr).

(** [free (fp)] unless it is a standard file. *)
Definition release (fp : Z) (x : stdio) : stdio :=
  if negb (is_std fp) then set_files (delete fp (files x)) x else x.

Definition FCGI_fclose (fp : Z) (x : stdio) : outcome (Z * stdio) :=
  let! f := get_file fp x in
  match stdio_stream f, fcgx_stream f with
  | Some s, _ =>
      let! (n, x) := file_call c_fclose s x in
      Ret (n, release fp (set_files (<[fp := mkFILE None (fcgx_stream f)]> (files x)) x))
  | None, Some p =>
      let! (n, x) := fcgx_call (FCGX_FClose emptyBuffProc) p x in
      Ret (n, release fp (set_files (<[fp := mkFILE None None]> (files x)) x))
  | None, None => Ret (EOF, release fp x)
  end.

Definition FCGI_pclose (fp : Z) (x : stdio) : outcome (Z * stdio) :=
  let! f := get_file fp x in
  match stdio_stream f, fcgx_stream f with
  | Some s, _ =>
      let! (n, x) := file_call c_pclose s x in
      Ret (n, release fp (set_files (<[fp := mkFILE None (fcgx_stream f)]> (files x)) x))
  | None, Some _ => Ret (EOF, x)
  | None, None => Ret (EOF, release fp x)
  end.

(** [None] is the null pointer. *)
Definition FCGI_fflush (fp : option Z) (x : stdio) : outcome (Z * stdio) :=
  match fp with
  | None => let '(r, w) := c_fflush_all (clib x) in Ret (r, set_clib w x)
  | Some fp => dispatch fp (c_int Cfflush) (FCGX_FFlush emptyBuffProc) EOF x
  end.

Definition FCGI_freopen (path mode : list Z) (fp : Z) (x : stdio) : outcome (option Z * stdio) :=
  let! f := get_file fp x in
  match stdio_stream f, fcgx_stream f with
  | Some s, _ =>
      let! (ok, x) := file_call (c_freopen path mode) s x in
      Ret (if ok : bool then Some fp else None, x)
  | None, Some p =>
      let! (_, x) := fcgx_call (FCGX_FClose emptyBuffProc) p x in
      let '(file, w) := c_open (Copen path mode) (clib x) in
      let x := set_clib w x in
      let x := set_files (<[fp := mkFILE file (Some p)]> (files x)) x in
      match file with
      | None => Ret (None, x)
      | Some _ => Ret (Some fp, set_files (alter null_stream fp (files x)) x)
      end
  | None, None => Ret (None, x)
  end.

(** ** Buffering and positions *)

Definition FCGI_setvbuf (fp buf bufmode size : Z) : stdio -> outcome (Z * stdio) :=
  file_only fp (c_int (Csetvbuf buf bufmode size)) (fun x => (-1, x)).
Definition FCGI_setbuf (fp buf : Z) : stdio -> outcome (Z * stdio) :=
  file_only fp (c_int (Csetbuf buf)) (fun x => (0, x)).

Definition no_seek (r : Z) (x : stdio) : Z * stdio := (r, OS_SetErrno ESPIPE x).
Definition FCGI_fseek (fp offset whence : Z) : stdio -> outcome (Z * stdio) :=
  file_only fp (c_int (Cfseek offset whence)) (no_seek (-1)).
(** The [long] of [ftell] becomes an [int]. *)
Definition FCGI_ftell (fp : Z) (x : stdio) : outcome (Z * stdio) :=
  let! (r, x) := file_only fp (c_int Cftell) (no_seek (-1)) x in Ret (s32 r, x).
Definition FCGI_rewind (fp : Z) : stdio -> outcome (Z * stdio) :=
  file_only fp (c_int Crewind) (no_seek 0).
(** The result and what [*pos] becomes. *)
Definition FCGI_fgetpos (fp pos : Z) : stdio -> outcome ((Z * Z) * stdio) :=
  file_only fp c_fgetpos (fun x => ((-1, pos), OS_SetErrno ESPIPE x)).
Definition FCGI_fsetpos (fp pos : Z) : stdio -> outcome (Z * stdio) :=
  file_only fp (c_int (Cfsetpos pos)) (no_seek (-1)).

(** ** Input *)

Definition FCGI_fgetc (fp : Z) : stdio -> outcome (Z * stdio) :=
  dispatch fp (c_int Cfgetc) (FCGX_GetChar fillBuffProc) EOF.
Definition FCGI_getchar : stdio -> outcome (Z * stdio) := FCGI_fgetc FCGI_stdin.
Definition FCGI_ungetc (c fp : Z) : stdio -> outcome (Z * stdio) :=
  dispatch fp (c_int (Cungetc c)) (FCGX_UnGetChar c) EOF.

(** The characters stored before the NUL, [None] for NULL. *)
Definition FCGI_fgets (size fp : Z) : stdio -> outcome (option (list Z) * stdio) :=
  dispatch fp (c_fgets size) (FCGX_GetLine fillBuffProc size) None.

(** [room] bytes of [str] are left. *)
Fixpoint gets_loop (room : nat) (got : list Z) (x : stdio) : outcome (option (list Z) * stdio) :=
  let! (c, x) := FCGI_getchar x in
  if c =? 10 then ASSERT (0 <? room)%nat in Ret (Some got, x)
  else if c =? EOF then
    match got with
    | [] => Ret (None, x)
    | _ => ASSERT (0 <? room)%nat in Ret (Some got, x)
    end
  else
    match room with
    | O => Crash
    | S room => gets_loop room (got ++ [u8 c]) x
    end.
Definition FCGI_gets (room : nat) : stdio -> outcome (option (list Z) * stdio) := gets_loop room [].

(** [n / size] for an [int] and a [size_t]. *)
Definition items (n size : Z) : Z := u64 n / size.

(** The number of items and the bytes stored. *)
Definition FCGI_fread (size nmemb fp : Z) : stdio -> outcome ((Z * list Z) * stdio) :=
  dispatch fp (c_fread size nmemb)
    (fun y =>
       if u64 (size * nmemb) =? 0 then Ret ((0, []), y)
       else
         let! (bs, y) := FCGX_GetStr fillBuffProc fuel (s32 (size * nmemb)) y in
         Ret ((items (Z.of_nat (length bs)) size, bs), y))
    (u64 EOF, []).

(** ** Output *)

Definition FCGI_fputc (c fp : Z) : stdio -> outcome (Z * stdio) :=
  dispatch fp (c_int (Cfputc c)) (FCGX_PutChar emptyBuffProc c) EOF.
Definition FCGI_putchar (c : Z) : stdio -> outcome (Z * stdio) := FCGI_fputc c FCGI_stdout.
Definition FCGI_fputs (str : list Z) (fp : Z) : stdio -> outcome (Z * stdio) :=
  dispatch fp (c_int (Cfputs str)) (FCGX_PutS emptyBuffProc str) EOF.

Definition FCGI_puts (str : list Z) (x : stdio) : outcome (Z * stdio) :=
  let! f := get_file FCGI_stdout x in
  match stdio_stream f, fcgx_stream f with
  | Some s, _ =>
      let! (n, x) := file_call (c_int (Cfputs str)) s x in
      if n <? 0 then Ret (n, x) else file_call (c_int (Cfputc 10)) s x
  | None, Some p =>
      let! (n, x) := fcgx_call (FCGX_PutS emptyBuffProc str) p x in
      if n <? 0 then Ret (n, x) else fcgx_call (FCGX_PutChar emptyBuffProc 10) p x
  | None, None => Ret (EOF, x)
  end.

Definition FCGI_perror (str : list Z) (x : stdio) : outcome stdio :=
  let! (_, x) := FCGI_fputs str FCGI_stderr x in
  let! (_, x) := FCGI_fputs (b! ": ") FCGI_stderr x in
  let! (_, x) := FCGI_fputs (strerror (os_errno (fos (fx x)))) FCGI_stderr x in
  Ret x.

(** The result and what "%n" stores. *)
Definition vprintf_stream (format : list Z) (args : list va) (y : sys) : outcome ((Z * list (Z * Z)) * sys) :=
  FCGX_VFPrintF emptyBuffProc malloc_ok format args y.
Definition FCGI_fprintf (fp : Z) (format : list Z) (args : list va) : stdio -> outcome ((Z * list (Z * Z)) * stdio) :=
  dispatch fp (c_vfprintf format args) (vprintf_stream format args) (0, []).
Definition FCGI_vfprintf (fp : Z) (format : list Z) (args : list va) : stdio -> outcome ((Z * list (Z * Z)) * stdio) :=
  dispatch fp (c_vfprintf format args) (vprintf_stream format args) (EOF, []).
Definition FCGI_printf (format : list Z) (args : list va) : stdio -> outcome ((Z * list (Z * Z)) * stdio) :=
  FCGI_vfprintf FCGI_stdout format args.
Definition FCGI_vprintf (format : list Z) (args : list va) : stdio -> outcome ((Z * list (Z * Z)) * stdio) :=
  dispatch FCGI_stdout (c_vfprintf format args) (vprintf_stream format args) (EOF, []).

(** [data] is what [ptr] points to; a negative [int] becomes a huge [memcpy]. *)
Definition FCGI_fwrite (data : list Z) (size nmemb fp : Z) : stdio -> outcome (Z * stdio) :=
  dispatch fp (c_fwrite data size nmemb)
    (fun y =>
       if u64 (size * nmemb) =? 0 then Ret (0, y)
       else
         let n := s32 (size * nmemb) in
         ASSERT (0 <=? n) && (n <=? Z.of_nat (length data)) in
         let! (n, y) := FCGX_PutStr emptyBuffProc (take (Z.to_nat n) data) y in
         Ret (items n size, y))
    (u64 EOF).

(** ** Status *)

Definition FCGI_feof (fp : Z) : stdio -> outcome (Z * stdio) :=
  dispatch fp (c_int Cfeof) (fun y => Ret (FCGX_HasSeenEOF y, y)) (-1).
Definition FCGI_ferror (fp : Z) : stdio -> outcome (Z * stdio) :=
  dispatch fp (c_int Cferror) (fun y => Ret (FCGX_GetError y, y)) (-1).
Definition FCGI_clearerr (fp : Z) : stdio -> outcome (Z * stdio) :=
  dispatch fp (c_int Cclearerr) (fun y => Ret (0, FCGX_ClearError y)) 0.
Definition FCGI_fileno (fp : Z) : stdio -> outcome (Z * stdio) :=
  file_only fp (c_int Cfileno) (fun x => (-1, x)).
(** ** Well-formed files *)

(** A call of one of the functions; the addresses are those [malloc] returns. *)
Inductive op :=
| OAccept (e : accept_env)
| OFinish
| OStartFilterData
| OSetExitStatus (status : Z)
| Operror (str : list Z)
| Ofopen (path mode : list Z) (addr : option Z)
| Otmpfile (addr : option Z)
| Ofdopen (fd : Z) (mode : list Z) (addr : option Z)
| Opopen (cmd type : list Z) (addr : option Z)
| Ofclose (fp : Z)
| Opclose (fp : Z)
| Offlush (fp : option Z)
| Ofreopen (path mode : list Z) (fp : Z)
| Osetvbuf (fp buf bufmode size : Z)
| Osetbuf (fp buf : Z)
| Ofseek (fp offset whence : Z)
| Oftell (fp : Z)
| Orewind (fp : Z)
| Ofgetpos (fp pos : Z)
| Ofsetpos (fp pos : Z)
| Ofgetc (fp : Z)
| Oungetc (c fp : Z)
| Ofgets (size fp : Z)
| Ogets (room : nat)
| Ofputc (c fp : Z)
| Ofputs (str : list Z) (fp : Z)
| Oputs (str : list Z)
| Ofprintf (fp : Z) (format : list Z) (args : list va)
| Ovfprintf (fp : Z) (format : list Z) (args : list va)
| Ovprintf (format : list Z) (args : list va)
| Ofread (size nmemb fp : Z)
| Ofwrite (data : list Z) (size nmemb fp : Z)
| Ofeof (fp : Z)
| Oferror (fp : Z)
| Oclearerr (fp : Z)
| Ofileno (fp : Z).

(** The result as a number, 0 for a null pointer and 1 for the buffer of a reading
    function; [inl] when the process has ended. *)
Definition pointer (r : option Z) : Z := match r with Some a => a | None => 0 end.
Definition ran {A} (value : A -> Z) (m : outcome (A * stdio)) : outcome ((Z + Z) * stdio) :=
  let! (a, x) := m in Ret (inr (value a), x).
Definition run_unit (m : outcome stdio) : outcome ((Z + Z) * stdio) := let! x := m in Ret (inr 0, x).
Definition stored {A} (r : option A) : Z := match r with Some _ => 1 | None => 0 end.

Definition run_op (o : op) (x : stdio) : outcome ((Z + Z) * stdio) :=
  match o with
  | OAccept e => FCGI_Accept e x
  | OFinish => run_unit (FCGI_Finish x)
  | OStartFilterData => ran id (FCGI_StartFilterData x)
  | OSetExitStatus status => run_unit (FCGI_SetExitStatus status x)
  | Operror str => run_unit (FCGI_perror str x)
  | Ofopen path mode addr => ran pointer (FCGI_fopen path mode addr x)
  | Otmpfile addr => ran pointer (FCGI_tmpfile addr x)
  | Ofdopen fd mode addr => ran pointer (FCGI_fdopen fd mode addr x)
  | Opopen cmd type addr => ran pointer (FCGI_popen cmd type addr x)
  | Ofclose fp => ran id (FCGI_fclose fp x)
  | Opclose fp => ran id (FCGI_pclose fp x)
  | Offlush fp => ran id (FCGI_fflush fp x)
  | Ofreopen path mode fp => ran pointer (FCGI_freopen path mode fp x)
  | Osetvbuf fp buf bufmode size => ran id (FCGI_setvbuf fp buf bufmode size x)
  | Osetbuf fp buf => ran id (FCGI_setbuf fp buf x)
  | Ofseek fp offset whence => ran id (FCGI_fseek fp offset whence x)
  | Oftell fp => ran id (FCGI_ftell fp x)
  | Orewind fp => ran id (FCGI_rewind fp x)
  | Ofgetpos fp pos => ran fst (FCGI_fgetpos fp pos x)
  | Ofsetpos fp pos => ran id (FCGI_fsetpos fp pos x)
  | Ofgetc fp => ran id (FCGI_fgetc fp x)
  | Oungetc c fp => ran id (FCGI_ungetc c fp x)
  | Ofgets size fp => ran stored (FCGI_fgets size fp x)
  | Ogets room => ran stored (FCGI_gets room x)
  | Ofputc c fp => ran id (FCGI_fputc c fp x)
  | Ofputs str fp => ran id (FCGI_fputs str fp x)
  | Oputs str => ran id (FCGI_puts str x)
  | Ofprintf fp format args => ran fst (FCGI_fprintf fp format args x)
  | Ovfprintf fp format args => ran fst (FCGI_vfprintf fp format args x)
  | Ovprintf format args => ran fst (FCGI_vprintf format args x)
  | Ofread size nmemb fp => ran fst (FCGI_fread size nmemb fp x)
  | Ofwrite data size nmemb fp => ran id (FCGI_fwrite data size nmemb fp x)
  | Ofeof fp => ran id (FCGI_feof fp x)
  | Oferror fp => ran id (FCGI_ferror fp x)
  | Oclearerr fp => ran id (FCGI_clearerr fp x)
  | Ofileno fp => ran id (FCGI_fileno fp x)
  end.

(** The address [malloc] returns in a call. *)
Definition op_addr (o : op) : option Z :=
  match o with
  | Ofopen _ _ a | Otmpfile a | Ofdopen _ _ a | Opopen _ _ a => a
  | _ => None
  end.

Definition home (p : stream_ptr) : Z := match p with In => FCGI_stdin | Out => FCGI_stdout | Err => FCGI_stderr end.

(** The type of the heap: the standard files are there, no file is both a [FILE]
    and a stream, and a stream is held by its own standard file only. *)
Record typed (m : gmap Z FCGI_FILE) : Prop := {
  typed_std : forall p, is_Some (m !! home p);
  typed_one : forall fp f, m !! fp = Some f -> stdio_stream f = None \/ fcgx_stream f = None;
  typed_home : forall fp f p, m !! fp = Some f -> fcgx_stream f = Some p -> fp = home p;
}.

(** The [FILE]s that are held are open ([O]), each held by one struct. *)
Record owned (O : gset Z) (m : gmap Z FCGI_FILE) : Prop := {
  owned_open : forall fp f s, m !! fp = Some f -> stdio_stream f = Some s -> s ∈ O;
  owned_once : forall fp1 fp2 f1 f2 s, m !! fp1 = Some f1 -> m !! fp2 = Some f2 ->
    stdio_stream f1 = Some s -> stdio_stream f2 = Some s -> fp1 = fp2;
}.

(** Before the first [FCGI_Accept] the standard files are empty, and the C library's
    own are open and held by nobody. *)
Definition c_std (s : Z) : Prop := s = c_stdin \/ s = c_stdout \/ s = c_stderr.
Record unaccepted (O : gset Z) (m : gmap Z FCGI_FILE) : Prop := {
  unaccepted_empty : forall p, m !! home p = Some (mkFILE None None);
  unaccepted_free : forall s, c_std s -> s ∈ O /\
    forall fp f, m !! fp = Some f -> stdio_stream f <> Some s;
}.

(** The streams that are held exist. *)
Definition bound (g : fcgx) (m : gmap Z FCGI_FILE) : Prop :=
  forall fp f p, m !! fp = Some f -> fcgx_stream f = Some p -> is_Some (slot p g).

(** Only a failed [freopen] keeps a [FILE] it has closed, and only a failed
    [FCGI_Accept] the streams of the request before. *)
Definition closes_badly (o : op) (r : Z + Z) : bool :=
  match o, r with Ofreopen _ _ _, inr r => r =? 0 | _, _ => false end.
Definition accepts_badly (o : op) (r : Z + Z) : bool :=
  match o, r with OAccept _, inr r => r <? 0 | _, _ => false end.

Definition files_ok (x : stdio) : Prop :=
  typed (files x) /\ owned (opened (clib x)) (files x) /\
  (acceptCalled x = false -> unaccepted (opened (clib x)) (files x)).

(** ** The heap under the changes the functions make *)

Lemma home_inj p q : home p = home q -> p = q.
Proof. by destruct p, q. Qed.
Lemma is_std_home fp : is_std fp = true <-> exists p, fp = home p.
Proof.
  unfold is_std. split.
  - intros [[E%Z.eqb_eq|E%Z.eqb_eq]%orb_true_iff|E%Z.eqb_eq]%orb_true_iff;
      [by exists In|by exists Out|by exists Err].
  - by intros [[] ->].
Qed.

Lemma typed_insert m fp f : typed m ->
  stdio_stream f = None \/ fcgx_stream f = None -> (forall p, fcgx_stream f = Some p -> fp = home p) ->
  typed (<[fp := f]> m).
Proof.
  intros [H1 H2 H3] Ho Hh. split.
  - intros p. destruct (decide (fp = home p)) as [->|Hn]; [by rewrite lookup_insert_eq|by rewrite lookup_insert_ne].
  - intros a f' [[_ <-]|[_ E]]%lookup_insert_Some; [done|by eapply H2].
  - intros a f' p [[<- <-]|[_ E]]%lookup_insert_Some Ep; [by apply Hh|by eapply H3].
Qed.

Lemma typed_delete m fp : typed m -> is_std fp = false -> typed (delete fp m).
Proof.
  intros [H1 H2 H3] Hs. split.
  - intros p. rewrite lookup_delete_ne; [done|]. intros ->. assert (is_std (home p) = true) by (apply is_std_home; eauto). congruence.
  - intros a f [_ E]%lookup_delete_Some. by eapply H2.
  - intros a f p [_ E]%lookup_delete_Some Ep. by eapply H3.
Qed.

Lemma owned_delete O m fp : owned O m -> owned O (delete fp m).
Proof.
  intros [H1 H2]. split.
  - intros a f s [_ E]%lookup_delete_Some. by eapply H1.
  - intros a b f1 f2 s [_ E1]%lookup_delete_Some [_ E2]%lookup_delete_Some. by eapply H2.
Qed.

Lemma owned_insert_none O m fp q : owned O m -> owned O (<[fp := mkFILE None q]> m).
Proof.
  intros [H1 H2]. split.
  - intros a f s [[_ <-]|[_ E]]%lookup_insert_Some; [done|by eapply H1].
  - intros a b f1 f2 s [[_ <-]|[_ E1]]%lookup_insert_Some [[_ <-]|[_ E2]]%lookup_insert_Some; try done. by eapply H2.
Qed.

Lemma owned_insert_new O m fp s q : owned O m -> s ∉ O -> owned (O ∪ {[s]}) (<[fp := mkFILE (Some s) q]> m).
Proof.
  intros [H1 H2] Hs. split.
  - intros a f t [[_ <-]|[_ E]]%lookup_insert_Some Et; [injection Et as <-; set_solver|].
    apply elem_of_union_l. by eapply H1.
  - intros a b f1 f2 t [[Ea <-]|[_ E1]]%lookup_insert_Some [[Eb <-]|[_ E2]]%lookup_insert_Some T1 T2;
      [congruence| | |by eapply H2]; exfalso; apply Hs; cbn in *.
    + injection T1 as <-. by eapply H1.
    + injection T2 as <-. by eapply H1.
Qed.

(** A [FILE] is closed and its holder lets it go. *)
Lemma owned_close O m fp f s q : owned O m -> m !! fp = Some f -> stdio_stream f = Some s ->
  owned (O ∖ {[s]}) (<[fp := mkFILE None q]> m).
Proof.
  intros [H1 H2] Hf Hs. split.
  - intros a f' t [[_ <-]|[Hn E]]%lookup_insert_Some Et; [done|].
    apply elem_of_difference. split; [by eapply H1|]. intros ->%elem_of_singleton. apply Hn. by eapply H2.
  - intros a b f1 f2 t [[_ <-]|[_ E1]]%lookup_insert_Some [[_ <-]|[_ E2]]%lookup_insert_Some; try done. by eapply H2.
Qed.

Lemma owned_more O O' m : owned O m -> O ⊆ O' -> owned O' m.
Proof. intros [H1 H2] Hs. split; [|done]. intros ????? . apply Hs. by eapply H1. Qed.

Lemma bound_insert g m fp f : bound g m -> (forall p, fcgx_stream f = Some p -> is_Some (slot p g)) ->
  bound g (<[fp := f]> m).
Proof. intros Hb Hf a f' p [[_ <-]|[_ E]]%lookup_insert_Some Ep; [by apply Hf|by eapply Hb]. Qed.
Lemma bound_delete g m fp : bound g m -> bound g (delete fp m).
Proof. intros Hb a f p [_ E]%lookup_delete_Some Ep. by eapply Hb. Qed.

Lemma null_lookup (m : gmap Z FCGI_FILE) fp a f : alter null_stream fp m !! a = Some f ->
  exists f0, m !! a = Some f0 /\ stdio_stream f = stdio_stream f0 /\
    (fcgx_stream f = None \/ fp <> a /\ fcgx_stream f = fcgx_stream f0).
Proof.
  intros E. destruct (decide (fp = a)) as [->|Hn].
  - rewrite lookup_alter_eq in E. destruct (m !! a) as [f0|]; [|done]. injection E as <-. exists f0. auto.
  - rewrite lookup_alter_ne in E by done. exists f. auto.
Qed.

Lemma owned_null O m fp : owned O m -> owned O (alter null_stream fp m).
Proof.
  intros [H1 H2]. split.
  - intros a f s (f0 & E & Es & _)%null_lookup T. rewrite Es in T. by eapply H1.
  - intros a b f1 f2 s (g1 & E1 & T1 & _)%null_lookup (g2 & E2 & T2 & _)%null_lookup U1 U2.
    rewrite T1 in U1. rewrite T2 in U2. by eapply H2.
Qed.

Lemma typed_null m fp : typed m -> typed (alter null_stream fp m).
Proof.
  intros [H1 H2 H3]. split.
  - intros p. by rewrite lookup_alter_is_Some.
  - intros a f (f0 & E & -> & [->|[_ ->]])%null_lookup; [by right|by eapply H2].
  - intros a f p (f0 & E & _ & [->|[_ ->]])%null_lookup Ep; [done|by eapply H3].
Qed.

(** Nothing is held of the streams once the three files have let go. *)
Lemma null_unbound (m : gmap Z FCGI_FILE) a f : typed m ->
  alter null_stream FCGI_stderr (alter null_stream FCGI_stdout (alter null_stream FCGI_stdin m)) !! a = Some f ->
  fcgx_stream f = None.
Proof.
  intros Ht (f1 & (f2 & (f3 & E & _ & H3)%null_lookup & _ & H2)%null_lookup & _ & H1)%null_lookup.
  destruct H1 as [->|[N1 ->]]; [done|]. destruct H2 as [->|[N2 ->]]; [done|]. destruct H3 as [->|[N3 ->]]; [done|].
  destruct (fcgx_stream f3) as [p|] eqn:Ep; [|done]. pose proof (typed_home _ Ht _ _ _ E Ep). by destruct p.
Qed.

Lemma unaccepted_delete O m fp : unaccepted O m -> is_std fp = false -> unaccepted O (delete fp m).
Proof.
  intros [H1 H2] Hs. split.
  - intros p. rewrite lookup_delete_ne; [done|]. intros ->. assert (is_std (home p) = true) by (apply is_std_home; eauto). congruence.
  - intros s Hc. destruct (H2 s Hc) as [Ho Hf]. split; [done|]. intros a f [_ E]%lookup_delete_Some. by eapply Hf.
Qed.

Lemma unaccepted_new O m fp s : unaccepted O m -> m !! fp = None -> s ∉ O ->
  unaccepted (O ∪ {[s]}) (<[fp := mkFILE (Some s) None]> m).
Proof.
  intros [H1 Hfree] Hf Hs. split.
  - intros p. rewrite lookup_insert_ne; [done|]. intros ->. by rewrite H1 in Hf.
  - intros t Hc. destruct (Hfree t Hc) as [Ho Hn]. split; [by apply elem_of_union_l|].
    intros a f [[_ <-]|[_ E]]%lookup_insert_Some; [|by eapply Hn]. cbn. intros [= ->]. done.
Qed.

(** A [FILE] of a struct is closed and the struct freed. *)
Lemma unaccepted_close O m fp f s : unaccepted O m -> m !! fp = Some f -> stdio_stream f = Some s ->
  is_std fp = false /\ unaccepted (O ∖ {[s]}) (delete fp m).
Proof.
  intros H Hf Hs. assert (is_std fp = false) as Hfp.
  { destruct (is_std fp) eqn:E; [|done]. apply is_std_home in E as [p ->].
    rewrite (unaccepted_empty _ _ H) in Hf. injection Hf as <-. done. }
  split; [done|]. destruct (unaccepted_delete O m fp H Hfp) as [H1 H2]. split; [done|].
  intros t Hc. destruct (H2 t Hc) as [Ho Hn]. split; [|done]. apply elem_of_difference. split; [done|].
  intros ->%elem_of_singleton. destruct (unaccepted_free _ _ H s Hc) as [_ Hn']. by eapply Hn'.
Qed.

(** ** Calls that leave the files as they are *)

Record same (x x' : stdio) : Prop := {
  same_files : files x' = files x;
  same_called : acceptCalled x' = acceptCalled x;
  same_cgi : isCGI x' = isCGI x;
  same_opened : opened (clib x') = opened (clib x);
  same_slots : forall p, is_Some (slot p (fx x)) -> is_Some (slot p (fx x'));
}.
#[local] Instance same_preorder : PreOrder same.
Proof.
  split; [by split|]. intros x y z [A1 A2 A3 A4 A5] [B1 B2 B3 B4 B5]. split; try congruence. auto.
Qed.

Definition keeps {A} (m : stdio -> outcome (A * stdio)) : Prop :=
  forall x a x', m x = Ret (a, x') -> same x x'.

Lemma fcgx_call_keeps {A} (f : sys -> outcome (A * sys)) p : keeps (fcgx_call f p).
Proof.
  intros x a x'. unfold fcgx_call. destruct (slot p (fx x)) as [s|]; [|done].
  destruct (f _) as [[b y]| |]; [|done|done]. cbn [obind]. intros [= <- <-]. split; try done.
  intros q. by destruct p, q.
Qed.

Lemma file_call_keeps {A} (f : Z -> world -> A * world) s :
  (forall s w, opened (f s w).2 = opened w) -> keeps (file_call f s).
Proof.
  intros Hf x a x'. unfold file_call. case_bool_decide; [|done]. pose proof (Hf s (clib x)) as Hw.
  destruct (f s (clib x)) as [b w]. intros [= <- <-]. by split.
Qed.

Lemma dispatch_keeps {A} fp (f : Z -> world -> A * world) g c :
  (forall s w, opened (f s w).2 = opened w) -> keeps (dispatch fp f g c).
Proof.
  intros Hf x a x'. unfold dispatch, get_file. destruct (files x !! fp) as [[[s|] [p|]]|]; cbn [obind]; try done.
  1-2: by apply file_call_keeps. - apply fcgx_call_keeps. - by intros [= <- <-].
Qed.

Lemma file_only_keeps {A} fp (f : Z -> world -> A * world) (o : stdio -> A * stdio) :
  (forall s w, opened (f s w).2 = opened w) -> (forall x, same x (o x).2) -> keeps (file_only fp f o).
Proof.
  intros Hf Ho x a x'. unfold file_only, get_file. destruct (files x !! fp) as [[[s|] q]|]; cbn [obind]; try done.
  - by apply file_call_keeps.
  - intros [= E]. specialize (Ho x). by rewrite E in Ho.
Qed.

Lemma bind_keeps {A B} (m : stdio -> outcome (A * stdio)) (k : A -> stdio -> outcome (B * stdio)) :
  keeps m -> (forall a, keeps (k a)) -> keeps (fun x => let! (a, x) := m x in k a x).
Proof.
  intros Hm Hk x b x'. destruct (m x) as [[a x1]| |] eqn:E; cbn [obind]; try done.
  intros E'. transitivity x1; [by eapply Hm|by eapply Hk].
Qed.
Lemma ret_keeps {A} (a : A) : keeps (fun x => Ret (a, x)).
Proof. by intros x b x' [= <- <-]. Qed.
Context {SL : StdioLaws}.

Lemma c_int_opened c s w : opened (c_int c s w).2 = opened w.
Proof. apply opened_call. Qed.
Lemma no_seek_same r x : same x (no_seek r x).2.
Proof. by split. Qed.

Create HintDb stdio_keeps.
Hint Resolve c_int_opened no_seek_same opened_fgetpos opened_fgets opened_fread opened_fwrite opened_vfprintf : stdio_keeps.
Hint Extern 1 (keeps (dispatch _ _ _ _)) => apply dispatch_keeps : stdio_keeps.
Hint Extern 1 (keeps (file_call _ _)) => apply file_call_keeps : stdio_keeps.
Hint Extern 1 (keeps (fcgx_call _ _)) => apply fcgx_call_keeps : stdio_keeps.
Hint Extern 1 (same _ _) => (by split) : stdio_keeps.
Hint Extern 1 (keeps (file_only _ _ _)) => apply file_only_keeps : stdio_keeps.

Lemma FCGI_getchar_keeps : keeps FCGI_getchar.
Proof. unfold FCGI_getchar, FCGI_fgetc. auto with stdio_keeps. Qed.

Lemma gets_loop_keeps room got : keeps (gets_loop room got).
Proof.
  revert got. induction room as [|room IH]; intros got x r x'; cbn [gets_loop];
    (destruct (FCGI_getchar x) as [[c x1]| |] eqn:E; cbn [obind]; [|done|done]);
    pose proof (FCGI_getchar_keeps _ _ _ E) as H1; repeat case_match; try done;
    try (by intros [= <- <-]).
  intros H2. transitivity x1; [done|by eapply IH].
Qed.

Lemma FCGI_puts_keeps str : keeps (FCGI_puts str).
Proof.
  intros x r x'. unfold FCGI_puts, get_file. destruct (files x !! FCGI_stdout) as [[[s|] [p|]]|]; cbn [obind]; try done.
  1-2: apply (bind_keeps (file_call (c_int (Cfputs str)) s)
         (fun n x => if n <? 0 then Ret (n, x) else file_call (c_int (Cfputc 10)) s x)); [auto with stdio_keeps|].
  1-2: intros n; destruct (n <? 0); [apply ret_keeps|apply file_call_keeps; auto with stdio_keeps].
  - apply (bind_keeps (fcgx_call (FCGX_PutS emptyBuffProc str) p)
         (fun n x => if n <? 0 then Ret (n, x) else fcgx_call (FCGX_PutChar emptyBuffProc 10) p x)); [auto with stdio_keeps|].
    intros n; destruct (n <? 0); [apply ret_keeps|apply fcgx_call_keeps].
  - by intros [= <- <-].
Qed.

Lemma FCGI_perror_keeps str x x' : FCGI_perror str x = Ret x' -> same x x'.
Proof.
  assert (H : forall str, keeps (FCGI_fputs str FCGI_stderr)) by (intros; unfold FCGI_fputs; auto with stdio_keeps).
  unfold FCGI_perror. intros E.
  destruct (FCGI_fputs str FCGI_stderr x) as [[n1 x1]| |] eqn:E1; cbn [obind] in E; try done.
  destruct (FCGI_fputs (b! ": ") FCGI_stderr x1) as [[n2 x2]| |] eqn:E2; cbn [obind] in E; try done.
  destruct (FCGI_fputs _ FCGI_stderr x2) as [[n3 x3]| |] eqn:E3; cbn [obind] in E; try done.
  injection E as <-. transitivity x1; [by eapply H|]. transitivity x2; by eapply H.
Qed.

(** The functions that change neither the structs nor the flags. *)
Definition plain (o : op) : bool :=
  match o with
  | OAccept _ | OFinish | Ofopen _ _ _ | Otmpfile _ | Ofdopen _ _ _ | Opopen _ _ _
  | Ofclose _ | Opclose _ | Ofreopen _ _ _ => false
  | _ => true
  end.

Lemma ran_keeps {A} (value : A -> Z) m : keeps m -> keeps (fun x => ran value (m x)).
Proof.
  intros Hm x r x' E. unfold ran in E. destruct (m x) as [[a x1]| |] eqn:E1; try done. injection E as <- <-. by eapply Hm.
Qed.

Lemma plain_keeps o : plain o = true -> keeps (run_op o).
Proof.
  intros Hp. destruct o; try discriminate Hp; cbn [run_op]; clear Hp;
    try (apply ran_keeps; unfold FCGI_setvbuf, FCGI_setbuf, FCGI_fseek, FCGI_rewind, FCGI_fgetpos, FCGI_fsetpos,
           FCGI_fgetc, FCGI_ungetc, FCGI_fgets, FCGI_fputc, FCGI_fputs, FCGI_fprintf, FCGI_vfprintf, FCGI_vprintf,
           FCGI_fread, FCGI_fwrite, FCGI_feof, FCGI_ferror, FCGI_clearerr, FCGI_fileno;
         auto using gets_loop_keeps, FCGI_puts_keeps with stdio_keeps; fail).
  - intros x r x'. cbn [run_op]. unfold ran, FCGI_StartFilterData, get_file.
    destruct (files x !! FCGI_stdin) as [[[s|] [p|]]|]; cbn [obind stdio_stream fcgx_stream]; try done; [by intros [= <- <-]..|].
    destruct (fcgx_call (A := Z) _ p x) as [[n x1]| |] eqn:E; [|done|done]. intros [= <- <-]. by eapply fcgx_call_keeps.
  - intros x r x'. cbn [run_op]. unfold run_unit, FCGI_SetExitStatus, get_file.
    destruct (files x !! FCGI_stdin) as [[s [p|]]|]; cbn [obind stdio_stream fcgx_stream]; try done; [|by intros [= <- <-]].
    destruct (fcgx_call (A := unit) _ p x) as [[n x1]| |] eqn:E; [|done|done]. intros [= <- <-]. by eapply fcgx_call_keeps.
  - intros x r x'. cbn [run_op]. unfold run_unit.
    destruct (FCGI_perror str x) as [x1| |] eqn:E; [|done|done]. intros [= <- <-]. by eapply FCGI_perror_keeps.
  - intros x r x'. cbn [run_op]. unfold ran, FCGI_fflush. destruct fp as [fp|].
    + destruct (dispatch (A := Z) fp _ _ EOF x) as [[n x1]| |] eqn:E; [|done|done]. intros [= <- <-].
      by eapply (dispatch_keeps fp); [apply c_int_opened|].
    + pose proof (opened_fflush_all (clib x)) as Ho. destruct (c_fflush_all (clib x)) as [n w].
      intros [= <- <-]. by split.
  - apply ran_keeps. unfold FCGI_ftell. apply (bind_keeps _ (fun r x => Ret (s32 r, x))); [|intros; apply ret_keeps].
    auto with stdio_keeps.
  - apply ran_keeps. apply gets_loop_keeps.
Qed.

(** ** Calls that change the files *)

Lemma same_ok x x' : same x x' -> files_ok x -> files_ok x'.
Proof. intros [E1 E2 _ E4 _] H. unfold files_ok. by rewrite E1, E2, E4. Qed.
Lemma same_bound x x' : same x x' -> bound (fx x) (files x) -> bound (fx x') (files x').
Proof. intros [E1 _ _ _ E5] H a f p Ef Ep. rewrite E1 in Ef. apply E5. by eapply H. Qed.

Lemma open_with_ok o close addr x r x' :
  (forall s w, opened (close s w).2 = opened w ∖ {[s]}) ->
  open_with o close addr x = Ret (r, x') -> (forall a, addr = Some a -> files x !! a = None) ->
  files_ok x -> bound (fx x) (files x) -> files_ok x' /\ bound (fx x') (files x').
Proof.
  intros Hcl E Ha (Ht & Ho & Hu) Hb. unfold open_with in E.
  destruct (c_open o (clib x)) as [[s|] w] eqn:Eo.
  2:{ injection E as <- <-. pose proof (opened_open_fails _ _ _ Eo) as Ew.
      unfold files_ok. cbn. rewrite Ew. done. }
  destruct (opened_open _ _ _ _ Eo) as [Hs Ew]. destruct addr as [a|]; cbn [FCGI_OpenFromFILE] in E.
  - injection E as <- <-. specialize (Ha a eq_refl). unfold files_ok. cbn. rewrite Ew. split_and!.
    + apply typed_insert; [done|by right|done].
    + by apply owned_insert_new.
    + intros Hc. apply unaccepted_new; auto.
    + by apply bound_insert.
  - unfold file_call in E. case_bool_decide; [|done]. pose proof (Hcl s w) as Hcw. cbn [set_clib clib] in E.
    destruct (close s w) as [n w']. injection E as <- <-. unfold files_ok. cbn in *. rewrite Hcw, Ew.
    by rewrite union_difference_new.
Qed.

(** The struct lets go of what it held, a [FILE] has been closed, and is freed. *)
Lemma release_ok x fp f w : files_ok x -> bound (fx x) (files x) -> files x !! fp = Some f ->
  opened w = (match stdio_stream f with Some s => opened (clib x) ∖ {[s]} | None => opened (clib x) end) ->
  forall g q, q = None \/ q = fcgx_stream f -> (forall p, is_Some (slot p (fx x)) -> is_Some (slot p g)) ->
  let x' := release fp (set_files (<[fp := mkFILE None q]> (files x)) (set_fx g (set_clib w x))) in
  files_ok x' /\ bound (fx x') (files x').
Proof.
  intros (Ht & Ho & Hu) Hb Hf Hw g q Hq Hg.
  assert (Ht' : typed (<[fp := mkFILE None q]> (files x))).
  { apply typed_insert; [done|by left|]. intros p Ep. cbn in Ep. destruct Hq as [->| ->]; [done|].
    by eapply (typed_home _ Ht). }
  assert (Ho' : owned (opened w) (<[fp := mkFILE None q]> (files x))).
  { rewrite Hw. destruct (stdio_stream f) as [s|] eqn:Es; [by eapply owned_close|by apply owned_insert_none]. }
  assert (Hb' : bound g (<[fp := mkFILE None q]> (files x))).
  { intros a f' p E Ep. apply Hg. revert a f' p E Ep. apply bound_insert; [done|]. intros p Ep.
    cbn in Ep. destruct Hq as [->| ->]; [done|]. by eapply Hb. }
  unfold release. destruct (is_std fp) eqn:Estd; cbn [negb]; unfold files_ok; cbn.
  - split_and!; try done. intros Hc. specialize (Hu Hc). apply is_std_home in Estd as [p ->].
    pose proof (unaccepted_empty _ _ Hu p) as E. rewrite E in Hf. injection Hf as <-. cbn in Hw, Hq. rewrite Hw.
    assert (q = None) as -> by (by destruct Hq). by rewrite insert_id.
  - split_and!; try done; [by apply typed_delete|by apply owned_delete| |by apply bound_delete].
    intros Hc. specialize (Hu Hc). rewrite delete_insert_eq, Hw. destruct (stdio_stream f) as [s|] eqn:Es.
    + by eapply unaccepted_close.
    + by apply unaccepted_delete.
Qed.

(** [fclose] and [pclose] of a struct that holds a [FILE]. *)
Lemma close_ok (close : Z -> world -> Z * world) x fp f s n x1 :
  (forall s w, opened (close s w).2 = opened w ∖ {[s]}) -> files_ok x -> bound (fx x) (files x) ->
  files x !! fp = Some f -> stdio_stream f = Some s -> file_call close s x = Ret (n, x1) ->
  let x' := release fp (set_files (<[fp := mkFILE None (fcgx_stream f)]> (files x1)) x1) in
  files_ok x' /\ bound (fx x') (files x').
Proof.
  intros Hcl Hok Hb Hf Hs E. unfold file_call in E. case_bool_decide; [|done].
  pose proof (Hcl s (clib x)) as Hw. destruct (close s (clib x)) as [m w]. injection E as <- <-.
  apply (release_ok x fp f w Hok Hb Hf); [by rewrite Hs|by right|done].
Qed.

(** A struct that holds nothing is freed. *)
Lemma release_empty_ok x fp f : files_ok x -> bound (fx x) (files x) -> files x !! fp = Some f ->
  stdio_stream f = None -> fcgx_stream f = None ->
  files_ok (release fp x) /\ bound (fx (release fp x)) (files (release fp x)).
Proof.
  intros Hok Hb Hf Hs Hp. pose proof (release_ok x fp f (clib x) Hok Hb Hf) as H. rewrite Hs in H.
  specialize (H eq_refl (fx x) None (or_introl eq_refl) (fun _ h => h)). cbn in H.
  rewrite insert_id in H by (rewrite Hf; destruct f; cbn in *; by subst). destruct x. exact H.
Qed.

Lemma fclose_ok fp x n x' : FCGI_fclose fp x = Ret (n, x') -> files_ok x -> bound (fx x) (files x) ->
  files_ok x' /\ bound (fx x') (files x').
Proof.
  unfold FCGI_fclose, get_file. intros E Hok Hb. destruct (files x !! fp) as [f|] eqn:Hf; [|done]. cbn [obind] in E.
  destruct (stdio_stream f) as [s|] eqn:Hs; [|destruct (fcgx_stream f) as [p|] eqn:Hp].
  - destruct (file_call c_fclose s x) as [[m x1]| |] eqn:E1; [|done|done]. injection E as <- <-.
    eapply (close_ok c_fclose); try done. intros; apply opened_fclose.
  - destruct (fcgx_call _ p x) as [[m x1]| |] eqn:E1; [|done|done]. injection E as <- <-.
    pose proof (fcgx_call_keeps _ p _ _ _ E1) as Hsame.
    destruct (release_ok x1 fp f (clib x1) (same_ok _ _ Hsame Hok) (same_bound _ _ Hsame Hb)) with (g := fx x1) (q := @None stream_ptr)
      as [H1 H2]; [by rewrite (same_files _ _ Hsame)|by rewrite Hs|by left|done|].
    destruct x1. by split.
  - injection E as <- <-. by eapply release_empty_ok.
Qed.

Lemma pclose_ok fp x n x' : FCGI_pclose fp x = Ret (n, x') -> files_ok x -> bound (fx x) (files x) ->
  files_ok x' /\ bound (fx x') (files x').
Proof.
  unfold FCGI_pclose, get_file. intros E Hok Hb. destruct (files x !! fp) as [f|] eqn:Hf; [|done]. cbn [obind] in E.
  destruct (stdio_stream f) as [s|] eqn:Hs; [|destruct (fcgx_stream f) as [p|] eqn:Hp].
  - destruct (file_call c_pclose s x) as [[m x1]| |] eqn:E1; [|done|done]. injection E as <- <-.
    eapply (close_ok c_pclose); try done. intros; apply opened_pclose.
  - by injection E as <- <-.
  - injection E as <- <-. by eapply release_empty_ok.
Qed.

Lemma freopen_ok path mode fp x r x' : FCGI_freopen path mode fp x = Ret (r, x') -> files_ok x -> bound (fx x) (files x) ->
  typed (files x') /\ bound (fx x') (files x') /\ (r <> None -> files_ok x').
Proof.
  unfold FCGI_freopen, get_file. intros E Hok Hb. destruct (files x !! fp) as [f|] eqn:Hf; [|done]. cbn [obind] in E.
  destruct (stdio_stream f) as [s|] eqn:Hs; [|destruct (fcgx_stream f) as [p|] eqn:Hp].
  - unfold file_call in E. case_bool_decide; [|done]. pose proof (opened_freopen path mode s (clib x)) as Hw.
    destruct (c_freopen path mode s (clib x)) as [ok w]. cbn [obind] in E. injection E as <- <-. cbn in *.
    split_and!; [apply Hok|done|]. intros Hr. destruct ok; [|done]. unfold files_ok. cbn. by rewrite Hw.
  - destruct (fcgx_call _ p x) as [[m x1]| |] eqn:E1; [|done|done]. cbn [obind] in E.
    pose proof (fcgx_call_keeps _ p _ _ _ E1) as Hsame.
    pose proof (same_bound _ _ Hsame Hb) as Hb1. destruct (same_ok _ _ Hsame Hok) as (Ht & Ho & Hu).
    assert (Hf1 : files x1 !! fp = Some f) by (by rewrite (same_files _ _ Hsame)).
    pose proof (typed_home _ Ht _ _ _ Hf1 Hp) as Hfp.
    destruct (c_open (Copen path mode) (clib x1)) as [[t|] w] eqn:Eo; injection E as <- <-; cbn [files set_files set_clib fx].
    + destruct (opened_open _ _ _ _ Eo) as [Hn Hw]. rewrite !alter_insert_eq. cbn [null_stream stdio_stream].
      assert (Ht' : typed (<[fp := mkFILE (Some t) None]> (files x1))) by (apply typed_insert; [done|by right|done]).
      split_and!; [done|by apply bound_insert|]. intros _. unfold files_ok. cbn [files set_files set_clib clib acceptCalled]. rewrite Hw.
      split_and!; [done|by apply owned_insert_new|]. intros Hc. specialize (Hu Hc).
      rewrite Hfp, (unaccepted_empty _ _ Hu p) in Hf1. injection Hf1 as <-. done.
    + split_and!; [apply typed_insert; [done|by left|by intros ? [= ->]]| |done].
      apply bound_insert; [done|]. intros ? [= <-]. by eapply Hb1.
  - injection E as <- <-. split_and!; [apply Hok|done|done].
Qed.

(** ** Requests *)

Lemma FCGX_Free_slots close g g' : FCGX_Free close g = Ret g' -> forall p, slot p g' = None.
Proof.
  unfold FCGX_Free. destruct close; [|intros [= <-]; by intros []].
  destruct (OS_IpcClose _ _) as [[r o]| |]; [|done|done]. intros [= <-]. by intros [].
Qed.

Lemma Finish_slots g g' : FCGX_Finish_r g = Ret g' -> forall p, slot p g' = None.
Proof.
  unfold FCGX_Finish_r. destruct (in_ g); [|apply FCGX_Free_slots].
  destruct (FClose_ptr (err g) g) as [[[r1 e] g1]| |]; [|done|done]. cbn [obind].
  destruct (FClose_ptr (out (set_err e g1)) (set_err e g1)) as [[[r2 u] g2]| |]; [|done|done].
  apply FCGX_Free_slots.
Qed.

(** A request is there exactly when it was accepted, with two new writers. *)
Definition opened_request (e : accept_env) (g : fcgx) : Prop :=
  (forall p, is_Some (slot p g)) /\
  out g = Some (NewWriter (ae_addr_out e) (ae_mem_out e) 8192 FCGI_STDOUT) /\
  err g = Some (NewWriter (ae_addr_err e) (ae_mem_err e) 512 FCGI_STDERR).
Definition accepted (e : accept_env) (r : Z) (g : fcgx) : Prop :=
  (r = 0 -> opened_request e g) /\ (r < 0 -> forall p, slot p g = None) /\ r <= 0.

Lemma open_request_slots e g g' :
  open_request (ae_addr_out e) (ae_addr_err e) (ae_mem_out e) (ae_mem_err e) g = Ret g' -> opened_request e g'.
Proof.
  unfold open_request. destruct (in_ g), (paramsPtr g); try done.
  destruct (SetReaderType _ _) as [s| |]; [|done|done]. intros [= <-].
  split_and!; [intros []; by eexists|done|done].
Qed.

Lemma Accept_loop_slots e k g r g' : (forall p, slot p g = None) ->
  Accept_loop inet_addr (ae_stack e) (ae_addr_in e) (ae_addr_out e) (ae_addr_err e)
    (ae_mem_in e) (ae_mem_out e) (ae_mem_err e) k fuel g = Ret (r, g') -> accepted e r g'.
Proof.
  revert g. induction k as [|k IH]; intros g Hg; [done|]. cbn [Accept_loop].
  assert (Hs : forall fd o, forall p, slot p (set_rq (set_ipcFd fd (rq g)) (set_fos o g)) = None).
  { intros fd o p. specialize (Hg p). by destruct p. }
  destruct (if ipcFd (rq g) <? 0 then _ else Ret (0, g)) as [[r1 g1]| |] eqn:E1; [|done|done]. cbn [obind].
  assert (H1 : (forall p, slot p g1 = None) /\ r1 <= 0).
  { destruct (ipcFd (rq g) <? 0); [|by injection E1 as <- <-].
    destruct (OS_Accept _ _ _ _ _ _) as [[fd o]| |]; [|done|done]. injection E1 as <- <-.
    split; [apply Hs|]. destruct (fd <? 0); [|lia]. destruct (Z.gtb_spec (os_errno o) 0); lia. }
  destruct H1 as [H1 Hr1]. destruct (Z.ltb_spec r1 0) as [Hn|Hn].
  { intros [= <- <-]. split; [lia|]. split; [done|lia]. }
  destruct (read_request _ _ _ fuel g1) as [[ok g2]| |]; [|done|done]. cbn [obind]. destruct ok.
  - destruct (open_request _ _ _ _ g2) as [g3| |] eqn:E3; [|done|done]. intros [= <- <-].
    split; [intros _; by apply open_request_slots in E3|]. split; lia.
  - destruct (FCGX_Free true g2) as [g3| |] eqn:E3; [|done|done]. apply IH. by eapply FCGX_Free_slots.
Qed.

Lemma Init_cases ok addrs g rc g1 : fcgx_libInitialized g = false -> FCGX_Init ok addrs g = (rc, g1) ->
  rc = 0 /\ fcgx_libInitialized g1 = true \/ rc <> 0 /\ forall p, slot p g1 = None.
Proof.
  intros Hi. unfold FCGX_Init. rewrite Hi. cbn [FCGX_InitRequest].
  destruct (OS_LibInit ok _) as [r1 o]. destruct (r1 =? -1); intros [= <- <-]; [right|by left].
  split; [|by intros []]. destruct (Z.eqb_spec (os_errno o) 0); [discriminate|done].
Qed.

Lemma accept_slots e g r g' : accept e g = Ret (r, g') -> r <= 0 -> accepted e r g'.
Proof.
  unfold accept, FCGX_Accept. intros E Hr.
  assert (Hacc : forall g, fcgx_libInitialized g = true ->
    FCGX_Accept_r inet_addr (ae_stack e) (ae_addr_in e) (ae_addr_out e) (ae_addr_err e)
      (ae_mem_in e) (ae_mem_out e) (ae_mem_err e) fuel g = Ret (r, g') -> accepted e r g').
  { clear g E. intros g Hi. unfold FCGX_Accept_r. rewrite Hi. cbn [negb].
    destruct (FCGX_Finish_r g) as [g1| |] eqn:E1; [|done|done]. apply Accept_loop_slots. by eapply Finish_slots. }
  destruct (fcgx_libInitialized g) eqn:Hi; cbn [negb] in E.
  { exact (Hacc g Hi E). }
  destruct (FCGX_Init lib_malloc_ok server_addrs g) as [rc g1] eqn:Ei.
  destruct (Init_cases _ _ _ _ _ Hi Ei) as [[-> H1]|[Hrc H1]].
  - exact (Hacc g1 H1 E).
  - rewrite (proj2 (Z.eqb_neq _ _) Hrc) in E. injection E as <- <-. split; [done|]. split; [by intros _|done].
Qed.

Lemma FCGX_IsCGI_ok x r x1 : FCGX_IsCGI x = (r, x1) -> files x1 = files x /\ acceptCalled x1 = acceptCalled x /\
  clib x1 = clib x.
Proof.
  unfold FCGX_IsCGI. destruct (negb _); [by intros [= <- <-]|]. destruct (if negb _ then _ else _) as [rc g].
  destruct (negb _); [by intros [= <- <-]|]. destruct (OS_IsFcgi _ _ _). by intros [= <- <-].
Qed.

(** The standard files are bound to the streams of a request. *)
Lemma bind_streams_typed x : typed (files x) ->
  typed (files (bind_std (mkFILE None (Some In)) (mkFILE None (Some Out)) (mkFILE None (Some Err)) x)).
Proof.
  intros H. unfold bind_std. cbn [files set_files].
  repeat apply typed_insert; try done; try (by left); by intros p [= <-].
Qed.

Lemma bind_files_typed x : typed (files x) ->
  typed (files (bind_std (mkFILE (Some c_stdin) None) (mkFILE (Some c_stdout) None) (mkFILE (Some c_stderr) None) x)).
Proof.
  intros H. unfold bind_std. cbn [files set_files]. repeat apply typed_insert; try done; by right.
Qed.

Lemma bind_files_owned O x : owned O (files x) -> unaccepted O (files x) ->
  owned O (files (bind_std (mkFILE (Some c_stdin) None) (mkFILE (Some c_stdout) None) (mkFILE (Some c_stderr) None) x)).
Proof.
  intros [H1 H2] [_ Hf]. unfold bind_std. cbn [files set_files]. destruct stdio_distinct as (D1 & D2 & D3).
  assert (Hc : forall fp f s, <[FCGI_stderr:=mkFILE (Some c_stderr) None]>
      (<[FCGI_stdout:=mkFILE (Some c_stdout) None]> (<[FCGI_stdin:=mkFILE (Some c_stdin) None]> (files x))) !! fp = Some f ->
    stdio_stream f = Some s ->
    (fp = FCGI_stderr /\ s = c_stderr) \/ (fp = FCGI_stdout /\ s = c_stdout) \/ (fp = FCGI_stdin /\ s = c_stdin) \/
    files x !! fp = Some f).
  { intros fp f s [[<- <-]|[_ [[<- <-]|[_ [[<- <-]|[_ E]]%lookup_insert_Some]]%lookup_insert_Some]]%lookup_insert_Some Es;
      [injection Es as <-; auto..|auto]. }
  split.
  - intros fp f s E Es. destruct (Hc fp f s E Es) as [[_ ->]|[[_ ->]|[[_ ->]|E']]];
      [eapply Hf; unfold c_std; auto..|by eapply H1].
  - intros a b f1 f2 s E1 E2 S1 S2.
    assert (Hno : forall fp f s, c_std s -> files x !! fp = Some f -> stdio_stream f = Some s -> False).
    { intros fp f t Ht Et Es. by apply (proj2 (Hf t Ht) fp f Et). }
    destruct (Hc a f1 s E1 S1) as [[A1 A2]|[[A1 A2]|[[A1 A2]|A]]], (Hc b f2 s E2 S2) as [[B1 B2]|[[B1 B2]|[[B1 B2]|B]]];
      try congruence; try (by eapply H2); exfalso; (eapply Hno; [|done|done]); unfold c_std; auto.
Qed.

Lemma FCGI_Accept_ok e x r x' : FCGI_Accept e x = Ret (r, x') -> files_ok x -> bound (fx x) (files x) ->
  files_ok x' /\ (accepts_badly (OAccept e) r = false -> bound (fx x') (files x')).
Proof.
  intros E (Ht & Ho & Hu) Hb. unfold FCGI_Accept in E.
  assert (Hcont : forall y, files y = files x -> clib y = clib x -> acceptCalled y = true ->
    isCGI y = false \/ isCGI y = true /\ acceptCalled x = false ->
    (if isCGI y then
       Ret (inr 0, bind_std (mkFILE (Some c_stdin) None) (mkFILE (Some c_stdout) None) (mkFILE (Some c_stderr) None) y)
     else
       let! (acceptResult, g) := accept e (fx y) in
       let x := set_fx g y in
       if acceptResult <? 0 then Ret (inr acceptResult, x)
       else if 0 <? acceptResult then Crash
       else Ret (inr 0, set_environ Request_envp
              (bind_std (mkFILE None (Some In)) (mkFILE None (Some Out)) (mkFILE None (Some Err)) x)))
      = Ret (r, x') -> files_ok x' /\ (accepts_badly (OAccept e) r = false -> bound (fx x') (files x'))).
  { clear E. intros y Ef Ec Ea Hc E. rewrite <- Ef in Ht, Hb. rewrite <- Ef, <- Ec in Ho, Hu. destruct Hc as [Hc|[Hc Hn]]; rewrite Hc in E.
    - destruct (accept e (fx y)) as [[ar g]| |] eqn:Ea1; [|done|done]. cbn [obind] in E.
      destruct (Z.ltb_spec ar 0) as [Hl|Hl].
      { injection E as <- <-. unfold files_ok. cbn. rewrite Ea. split; [done|]. apply Z.ltb_lt in Hl. by rewrite Hl. }
      destruct (Z.ltb_spec 0 ar) as [Hl'|Hl']; [done|]. injection E as <- <-.
      destruct (accept_slots e _ _ _ Ea1 Hl') as (Hs & _ & _). assert (ar = 0) as -> by lia. destruct (Hs eq_refl) as [Hs' _]. clear Hs. rename Hs' into Hs.
      split; [|intros _ fp f p _ _; apply Hs]. unfold files_ok. split_and!; [by apply bind_streams_typed| |cbn; congruence].
      cbn [clib set_environ bind_std set_files files set_fx]. by repeat apply owned_insert_none.
    - injection E as <- <-. specialize (Hu Hn). split.
      + unfold files_ok. split_and!; [by apply bind_files_typed|by apply bind_files_owned|cbn; congruence].
      + intros _. unfold bind_std. cbn [files set_files fx]. repeat apply bound_insert; [|done..].
        intros fp f p Ef' Ep. exfalso. pose proof (typed_home _ Ht _ _ _ Ef' Ep) as ->.
        rewrite (unaccepted_empty _ _ Hu p) in Ef'. injection Ef' as <-. done. }
  destruct (acceptCalled x) eqn:Ea; cbn [negb] in E.
  - destruct (isCGI x) eqn:Ec.
    + injection E as <- <-. split; [|done]. unfold files_ok. by rewrite Ea.
    + apply (Hcont x); try done. by left.
  - destruct (FCGX_IsCGI x) as [[status|b] x1] eqn:Ei; destruct (FCGX_IsCGI_ok _ _ _ Ei) as (Ef & Ea' & Ec).
    + injection E as <- <-. split.
      * unfold files_ok. by rewrite Ef, Ea', Ec, Ea.
      * intros _ fp f p Ef' Ep. exfalso. rewrite Ef in Ef'. pose proof (typed_home _ Ht _ _ _ Ef' Ep) as ->.
        rewrite (unaccepted_empty _ _ (Hu eq_refl) p) in Ef'. injection Ef' as <-. done.
    + apply (Hcont (set_accept true b x1)); try done. destruct b; [by right|by left].
Qed.

Lemma FCGI_Finish_ok x x' : FCGI_Finish x = Ret x' -> files_ok x -> bound (fx x) (files x) ->
  files_ok x' /\ bound (fx x') (files x').
Proof.
  unfold FCGI_Finish. intros E (Ht & Ho & Hu) Hb. destruct (negb (acceptCalled x) || isCGI x) eqn:Ec.
  { injection E as <-. by split. }
  apply orb_false_iff in Ec as [Ea%negb_false_iff _].
  destruct (FCGX_Finish_r (fx x)) as [g| |]; [|done|done]. injection E as <-. split.
  - unfold files_ok. cbn [files set_environ set_files set_fx clib acceptCalled]. split_and!; [by repeat apply typed_null| |congruence].
    by repeat apply owned_null.
  - intros fp f p Ef Ep. cbn [files set_environ set_files set_fx] in Ef. by rewrite (null_unbound _ _ _ Ht Ef) in Ep.
Qed.

(** What a call that returns leaves. *)
Lemma run_op_typed o x r x' :
  run_op o x = Ret (r, x') -> (forall a, op_addr o = Some a -> files x !! a = None) ->
  files_ok x -> bound (fx x) (files x) ->
  typed (files x') /\
  (closes_badly o r = false -> files_ok x') /\
  (accepts_badly o r = false -> bound (fx x') (files x')).
Proof.
  intros E Ha Hok Hb. destruct (plain o) eqn:Hp.
  { pose proof (plain_keeps o Hp _ _ _ E) as Hs. pose proof (same_ok _ _ Hs Hok) as H. split; [apply H|].
    split; [done|]. intros _. by eapply same_bound. }
  assert (Hsplit : files_ok x' /\ bound (fx x') (files x') -> typed (files x') /\
    (closes_badly o r = false -> files_ok x') /\ (accepts_badly o r = false -> bound (fx x') (files x'))).
  { intros [H1 H2]. split; [apply H1|by split]. }
  assert (Hran : forall A (v : A -> Z) m, ran v m = Ret (r, x') -> exists a, m = Ret (a, x') /\ r = inr (v a)).
  { intros A v m Em. unfold ran in Em. destruct m as [[a y]| |]; [|done|done]. injection Em as <- <-. eauto. }
  destruct o; try discriminate Hp; cbn [run_op op_addr] in *.
  - destruct (FCGI_Accept_ok _ _ _ _ E Hok Hb) as [H1 H2]. split; [apply H1|by split].
  - unfold run_unit in E. destruct (FCGI_Finish x) as [y| |] eqn:Ef; [|done|done]. injection E as <- <-.
    apply Hsplit. by eapply FCGI_Finish_ok.
  - destruct (Hran _ _ _ E) as (a & Em & _). apply Hsplit. eapply open_with_ok; [apply opened_fclose|done..].
  - destruct (Hran _ _ _ E) as (a & Em & _). apply Hsplit. eapply open_with_ok; [apply opened_fclose|done..].
  - destruct (Hran _ _ _ E) as (a & Em & _). apply Hsplit. eapply open_with_ok; [apply opened_fclose|done..].
  - destruct (Hran _ _ _ E) as (a & Em & _). apply Hsplit. eapply open_with_ok; [apply opened_pclose|done..].
  - destruct (Hran _ _ _ E) as (a & Em & _). apply Hsplit. by eapply fclose_ok.
  - destruct (Hran _ _ _ E) as (a & Em & _). apply Hsplit. by eapply pclose_ok.
  - destruct (Hran _ _ _ E) as (a & Em & ->). destruct (freopen_ok _ _ _ _ _ _ Em Hok Hb) as (H1 & H2 & H3).
    split; [done|]. split; [|done]. cbn [closes_badly]. intros Hc. apply H3. by intros ->.
Qed.

(** ** A failed accept *)

(** The functions that certainly look into the stream of a file. *)
Definition uses (o : op) (fp : Z) : Prop :=
  match o with
  | Ofclose f | Offlush (Some f) | Ofreopen _ _ f | Ofgetc f | Ofputc _ f | Ofputs _ f
  | Ofeof f | Oferror f | Oclearerr f => f = fp
  | Ogets _ | OStartFilterData | OSetExitStatus _ => fp = FCGI_stdin
  | Oputs _ => fp = FCGI_stdout
  | Operror _ => fp = FCGI_stderr
  | _ => False
  end.

Lemma fcgx_call_freed {A} (f : sys -> outcome (A * sys)) p x : slot p (fx x) = None -> fcgx_call f p x = Crash.
Proof. intros E. unfold fcgx_call. by rewrite E. Qed.

Lemma dispatch_freed {A} fp f (g : sys -> outcome (A * sys)) c p x :
  files x !! fp = Some (mkFILE None (Some p)) -> slot p (fx x) = None -> dispatch fp f g c x = Crash.
Proof. intros E Hs. unfold dispatch, get_file. rewrite E. by apply fcgx_call_freed. Qed.

Lemma uses_freed o fp p x : uses o fp -> files x !! fp = Some (mkFILE None (Some p)) -> slot p (fx x) = None ->
  run_op o x = Crash.
Proof.
  intros Hu E Hs. destruct o; try done; try destruct fp0 as [fp0|]; cbn [uses] in Hu; try done; subst;
    cbn [run_op]; unfold ran, run_unit, FCGI_fgetc, FCGI_fputc, FCGI_fputs, FCGI_feof, FCGI_ferror, FCGI_clearerr, FCGI_fflush;
    try (by rewrite (dispatch_freed _ _ _ _ p)).
  - unfold FCGI_StartFilterData, get_file. rewrite E. cbn. by rewrite fcgx_call_freed.
  - unfold FCGI_SetExitStatus, get_file. rewrite E. cbn. by rewrite fcgx_call_freed.
  - unfold FCGI_perror, FCGI_fputs. by rewrite (dispatch_freed _ _ _ _ p).
  - unfold FCGI_fclose, get_file. rewrite E. cbn. by rewrite fcgx_call_freed.
  - unfold FCGI_freopen, get_file. rewrite E. cbn. by rewrite fcgx_call_freed.
  - unfold FCGI_gets. destruct room; cbn [gets_loop]; unfold FCGI_getchar, FCGI_fgetc; by rewrite (dispatch_freed _ _ _ _ p).
  - unfold FCGI_puts, get_file. rewrite E. cbn. by rewrite fcgx_call_freed.
Qed.

(** [FCGI_Accept] frees the streams of the request before it waits for the next
    one, and when it fails it does not reset the standard files: the application,
    which gets the error with the files as they were, uses freed memory with the
    next call on any of them. *)
Theorem failed_accept_dangles e x r x' :
  acceptCalled x = true -> isCGI x = false -> FCGI_Accept e x = Ret (inr r, x') -> r < 0 ->
  files x' = files x /\ environ x' = environ x /\
  forall p o, files x !! home p = Some (mkFILE None (Some p)) -> uses o (home p) -> run_op o x' = Crash.
Proof.
  intros Ha Hc E Hr. unfold FCGI_Accept in E. rewrite Ha in E. cbn [negb] in E. rewrite Hc, Hc in E.
  destruct (accept e (fx x)) as [[ar g]| |] eqn:E1; [|done|done]. cbn [obind] in E.
  destruct (Z.ltb_spec ar 0) as [Hl|Hl]; [|destruct (0 <? ar); [done|injection E as <- <-; lia]].
  injection E as <- <-. split_and!; [done|done|]. intros p o Ef Hu.
  destruct (accept_slots _ _ _ _ E1 ltac:(lia)) as (_ & Hs & _).
  apply (uses_freed o (home p) p); [done|done|]. by apply Hs.
Qed.

(** ** Output and input of a request *)

(** [f] on the stream of a file, when the predicate [P] of a stream and its system
    becomes [Q]. *)
Definition on_stream (p : stream_ptr) (P : sys -> Prop) (x : stdio) : Prop :=
  files x !! home p = Some (mkFILE None (Some p)) /\ exists s, slot p (fx x) = Some s /\ P (view s (fx x)).

Lemma fcgx_call_on {A} (f : sys -> outcome (A * sys)) p (P Q : sys -> Prop) a x :
  (forall y, P y -> exists y', f y = Ret (a, y') /\ Q y') -> on_stream p P x ->
  exists x', fcgx_call f p x = Ret (a, x') /\ on_stream p Q x'.
Proof.
  intros Hf (E & s & Es & Hs). destruct (Hf _ Hs) as (y & Ey & Hy). unfold fcgx_call. rewrite Es, Ey. cbn [obind].
  eexists. split; [done|]. split; [done|]. exists (strm y). split; [by destruct p|]. destruct y, p; exact Hy.
Qed.

Lemma dispatch_on {A} (f : sys -> outcome (A * sys)) p (P Q : sys -> Prop) (a : A) g c x :
  (forall y, P y -> exists y', f y = Ret (a, y') /\ Q y') -> on_stream p P x ->
  exists x', dispatch (home p) g f c x = Ret (a, x') /\ on_stream p Q x'.
Proof. intros Hf Hx. unfold dispatch, get_file. rewrite (proj1 Hx). cbn. by eapply fcgx_call_on. Qed.

Section Output.
Context {holds : list Z -> sys -> Prop} {SK : Sink emptyBuffProc holds} {LL : LibcLaws LC}.

(** What an output function on stdout returns and puts. *)
Inductive prints : op -> Z -> list Z -> Prop :=
| prints_fputc c : prints (Ofputc c FCGI_stdout) (u8 c) [u8 c]
| prints_fputs str : Z.of_nat (length (cstr str)) < 2 ^ 31 ->
    prints (Ofputs str FCGI_stdout) (Z.of_nat (length (cstr str))) (cstr str)
| prints_puts str : Z.of_nat (length (cstr str)) < 2 ^ 31 -> prints (Oputs str) 10 (cstr str ++ [10])
| prints_fwrite data size nmemb : Z.of_nat (length data) = size * nmemb -> 0 < size -> size * nmemb < 2 ^ 31 ->
    prints (Ofwrite data size nmemb FCGI_stdout) nmemb data
| prints_fprintf segs last : Forall (fun s => literal s.1 /\ conv_ok s.2) segs -> literal last ->
    Z.of_nat (length (output_of segs last)) < 2 ^ 31 ->
    prints (Ofprintf FCGI_stdout (format_of segs last) (args_of segs))
      (Z.of_nat (length (output_of segs last))) (output_of segs last)
| prints_fflush : prints (Offlush (Some FCGI_stdout)) 0 [].

Inductive prints_all : list op -> list Z -> list Z -> Prop :=
| prints_nil : prints_all [] [] []
| prints_cons o r bs os rs out : prints o r bs -> prints_all os rs out ->
    prints_all (o :: os) (r :: rs) (bs ++ out).

Fixpoint run_ops (os : list op) (x : stdio) : outcome (list (Z + Z) * stdio) :=
  match os with
  | [] => Ret ([], x)
  | o :: os =>
      let! (r, x) := run_op o x in
      let! (rs, x) := run_ops os x in Ret (r :: rs, x)
  end.

Hypothesis printf_memory : forall n, malloc_ok n = true.

Lemma items_exact n size : 0 < size -> 0 <= n * size < 2 ^ 31 -> items (size * n) size = n.
Proof.
  intros Hs Hn. unfold items, u64. rewrite Z.mod_small by lia. rewrite Z.mul_comm. by apply Z.div_mul; lia.
Qed.

Lemma fwrite_stream data size nmemb d y : Z.of_nat (length data) = size * nmemb -> 0 < size -> size * nmemb < 2 ^ 31 ->
  holds d y ->
  exists y', (if u64 (size * nmemb) =? 0 then Ret (0, y)
    else
      let n := s32 (size * nmemb) in
      ASSERT (0 <=? n) && (n <=? Z.of_nat (length data)) in
      let! (n, y) := FCGX_PutStr emptyBuffProc (take (Z.to_nat n) data) y in
      Ret (items n size, y)) = Ret (nmemb, y') /\ holds (d ++ data) y'.
Proof.
  intros Hl Hs Hmax Hy. assert (Hu : u64 (size * nmemb) = size * nmemb) by (apply Z.mod_small; lia). rewrite Hu.
  destruct (Z.eqb_spec (size * nmemb) 0) as [E|E].
  - assert (nmemb = 0) as -> by nia. destruct data; [|cbn in Hl; lia]. exists y. by rewrite app_nil_r.
  - cbn zeta. rewrite s32_small by lia. rewrite <- Hl, Nat2Z.id, take_ge by done.
    rewrite (proj2 (Z.leb_le _ _)), Z.leb_refl by lia. cbn [andb].
    destruct (PutStr_sink data d y Hy) as (y' & -> & Hy'). cbn [obind]. exists y'. split; [|done].
    f_equal. f_equal. rewrite Hl. apply items_exact; nia.
Qed.

Lemma prints_ok o r bs d x : prints o r bs -> on_stream Out (holds d) x ->
  exists x', run_op o x = Ret (inr r, x') /\ on_stream Out (holds (d ++ bs)) x'.
Proof.
  intros Hp Hx. assert (Hran : forall A (v : A -> Z) m a, v a = r ->
    (exists x', m x = Ret (a, x') /\ on_stream Out (holds (d ++ bs)) x') ->
    exists x', ran v (m x) = Ret (inr r, x') /\ on_stream Out (holds (d ++ bs)) x').
  { intros A v m a <- (x' & E & H). unfold ran. rewrite E. by exists x'. }
  destruct Hp as [c|str Hs|str Hs|data size nmemb H1 H2 H3|segs final Hs Hf Hl|]; cbn [run_op].
  - eapply Hran; [|eapply (dispatch_on _ Out); [|done]; intros; by apply PutChar_sink]. done.
  - eapply Hran; [|eapply (dispatch_on _ Out); [|done]; intros; by apply PutStr_sink]. done.
  - eapply Hran; [done|]. unfold FCGI_puts, get_file. rewrite (proj1 Hx : files x !! FCGI_stdout = _).
    cbn [obind stdio_stream fcgx_stream].
    destruct (fcgx_call_on (FCGX_PutS emptyBuffProc str) Out (holds d) (holds (d ++ cstr str))
      (Z.of_nat (length (cstr str))) x) as (x1 & -> & Hx1); [intros; by apply PutStr_sink|done|].
    cbn [obind]. replace (_ <? 0) with false by lia. rewrite app_assoc.
    eapply fcgx_call_on; [|done]. intros y Hy. by apply (PutChar_sink 10).
  - eapply Hran; [|eapply (dispatch_on _ Out); [|done]; intros; by apply fwrite_stream]. done.
  - eapply (Hran _ fst); [|eapply (dispatch_on _ Out (holds d)); [|done]].
    2:{ intros y Hy. unfold vprintf_stream, FCGX_VFPrintF.
        destruct (VFPrintF_loop_ok printf_memory segs (S (length (format_of segs final))) final 0 None [] d y)
          as (y' & E & Hy'); [done|done|lia|lia|lia|done|]. rewrite E. by exists y'. }
    done.
  - eapply Hran; [|eapply (dispatch_on _ Out); [|done]; intros; rewrite app_nil_r; by apply FFlush_sink]. done.
Qed.

(** C11. On a request, the output functions of stdio do on stdout what ISO C says:
    any sequence of [fputc], [fputs], [puts], [fwrite], [fprintf] and [fflush]
    succeeds with the results of the C library, and the stream accepts the bytes, in
    order. *)
Theorem stdio_output_refines os rs out d x :
  prints_all os rs out -> on_stream Out (holds d) x ->
  exists x', run_ops os x = Ret (map inr rs, x') /\ on_stream Out (holds (d ++ out)) x'.
Proof.
  intros Hp. revert d x. induction Hp as [|o r bs os rs out Ho Hos IH]; intros d x Hx; cbn [run_ops map].
  - exists x. by rewrite app_nil_r.
  - destruct (prints_ok o r bs d x Ho Hx) as (x1 & -> & Hx1). cbn [obind].
    destruct (IH _ _ Hx1) as (x2 & -> & Hx2). cbn [obind]. exists x2. by rewrite app_assoc.
Qed.
End Output.

Section Input.
Context {reads : list Z -> sys -> Prop} {ended : sys -> Prop} {SO : Source fillBuffProc reads ended}.
Abbreviation feeds := (feeds (reads := reads) (ended := ended)).

(** The characters before the newline. *)
Fixpoint line (d : list Z) : list Z :=
  match d with
  | [] => []
  | c :: d => if c =? 10 then [] else c :: line d
  end.

Lemma getchar_on d x : on_stream In (feeds d) x ->
  exists x', FCGI_getchar x = Ret (hd EOF d, x') /\ on_stream In (feeds (tl d)) x'.
Proof. intros Hx. eapply (dispatch_on _ In); [|done]. intros y Hy. by apply feeds_GetChar. Qed.

Lemma gets_loop_line room got d x : on_stream In (feeds d) x -> Forall is_byte d -> got ++ d <> [] ->
  if (length (line d) <? room)%nat then
    exists x', gets_loop room got x = Ret (Some (got ++ line d), x') /\
      on_stream In (feeds (drop (S (length (line d))) d)) x'
  else gets_loop room got x = Crash.
Proof.
  revert got d x. induction room as [|room IH]; intros got d x Hx Hb Hne;
    destruct (getchar_on d x Hx) as (x1 & E & Hx1); cbn [gets_loop]; rewrite E; cbn [obind];
    (destruct d as [|c d]; cbn [hd tl line] in *;
     [destruct got; [done|]; cbn [Z.eqb EOF]; rewrite ?app_nil_r; try done; by exists x1|]);
    apply List.Forall_cons_iff in Hb as [Hc Hb]; (destruct (Z.eqb_spec c 10) as [->|Hn]; [try done; rewrite app_nil_r; by exists x1|]);
    assert (Hce : (c =? EOF) = false) by (apply Z.eqb_neq; unfold is_byte, EOF in *; lia); rewrite Hce; [done|].
  specialize (IH (got ++ [u8 c]) d x1 Hx1 Hb). rewrite u8_small in * by done. cbn [length].
  destruct (Nat.ltb_spec (S (length (line d))) (S room)), (Nat.ltb_spec (length (line d)) room); try lia.
  - destruct IH as (x2 & -> & Hx2); [by destruct got|]. exists x2. by rewrite <- app_assoc.
  - apply IH. by destruct got.
Qed.

(** [FCGI_gets] on a request gives the next line without its newline, or NULL at
    the end of the input, and the bytes after the line are next; like [gets] it does
    not know the size of the buffer, and a line that does not fit with its NUL
    overruns it. *)
Theorem FCGI_gets_reads_line room d x :
  on_stream In (feeds d) x -> Forall is_byte d ->
  if decide (d = []) then exists x', FCGI_gets room x = Ret (None, x') /\ on_stream In (feeds []) x'
  else if (length (line d) <? room)%nat then
    exists x', FCGI_gets room x = Ret (Some (line d), x') /\ on_stream In (feeds (drop (S (length (line d))) d)) x'
  else FCGI_gets room x = Crash.
Proof.
  intros Hx Hb. case_decide as Hd.
  - subst d. destruct (getchar_on [] x Hx) as (x1 & E & Hx1). exists x1. split; [|done].
    unfold FCGI_gets. destruct room; cbn [gets_loop]; by rewrite E.
  - by apply (gets_loop_line room []).
Qed.
End Input.

(** ** Every call returns *)

Section Calls.
Context {reads : list Z -> sys -> Prop} {ended : sys -> Prop} {SO : Source fillBuffProc reads ended}.
Context {EM : Empties emptyBuffProc} {LL : LibcLaws LC}.
Hypothesis malloc_gives : forall n, malloc_ok n = true.
Abbreviation feeds := (feeds (reads := reads) (ended := ended)).

(** The file is there, and the stream it holds satisfies [Q]. *)
Definition at_file (Q : stream_ptr -> sys -> Prop) (fp : Z) (x : stdio) : Prop :=
  exists f, files x !! fp = Some f /\
    (stdio_stream f = None -> forall p s, fcgx_stream f = Some p -> slot p (fx x) = Some s -> Q p (view s (fx x))).

(** What an operation needs of the input stream of the request when it is used on it:
    nothing, a reader without room for output, bytes that end, or a place for the character. *)
Definition no_need (p : stream_ptr) (y : sys) : Prop := True.
Definition to_write (p : stream_ptr) (y : sys) : Prop := p = In -> stream_ok (strm y).
Definition to_read (p : stream_ptr) (y : sys) : Prop :=
  p = In -> exists d, feeds d y /\ (length d + 1 < fuel)%nat.
Definition to_unread (p : stream_ptr) (y : sys) : Prop := p = In -> rdNext (strm y) <> 0%nat.

(** A format and arguments that FCGX_VFPrintF prints. *)
Definition printable (format : list Z) (args : list va) : Prop :=
  exists segs last, format = format_of segs last /\ args = args_of segs /\
    Forall (fun s => literal s.1 /\ conv_ok s.2) segs /\ literal last /\
    Z.of_nat (length (output_of segs last)) < 2 ^ 31.

(** The state in which [FCGI_Accept] calls [FCGX_Accept], if it does. *)
Definition accepting (x : stdio) : option fcgx :=
  if acceptCalled x then (if isCGI x then None else Some (fx x))
  else match FCGX_IsCGI x with
       | (inr false, x) => Some (fx x)
       | _ => None
       end.

(** The block that [malloc] gives for the buffer of a writer. *)
Definition block_ok (addr : Z) (mem : list Z) (n : Z) : Prop :=
  0 <= addr < 2 ^ 64 - 8 /\ Z.of_nat (length mem) = AlignInt8 (Z.min (Z.max n 32) (FCGI_MAX_LENGTH + 1)).

(** What the caller owes: a file that is there; for output to the input stream, that it
    is in order; for input from a request, that it ends; for [gets], that stdin is not a
    [FILE] (whose bytes are the C library's) and that the line fits, since the
    function overruns the buffer otherwise; for [fwrite], the bytes; a format that can be printed; for [FCGI_Finish],
    that no asynchronous input is in use; for [FCGI_Accept], that [FCGX_Accept] gives a
    request or an error (it may wait for ever, and [FCGI_Accept] uses unset variables
    when its result is positive). *)
Definition callable (o : op) (x : stdio) : Prop :=
  match o with
  | OAccept e =>
      block_ok (ae_addr_out e) (ae_mem_out e) 8192 /\ block_ok (ae_addr_err e) (ae_mem_err e) 512 /\
      forall g, accepting x = Some g -> exists r g', accept e g = Ret (r, g') /\ r <= 0
  | OFinish => asyncIoInUse (async (fos (fx x))) = false
  | OStartFilterData => files x !! FCGI_stdin <> Some (mkFILE None None)
  | OSetExitStatus _ | Operror _ | Oputs _ | Offlush None
  | Ofopen _ _ _ | Otmpfile _ | Ofdopen _ _ _ | Opopen _ _ _ => True
  | Ofclose fp | Offlush (Some fp) | Ofreopen _ _ fp | Ofputc _ fp | Ofputs _ fp => at_file to_write fp x
  | Ofgetc fp | Ofgets _ fp | Ofread _ _ fp => at_file to_read fp x
  | Oungetc _ fp => at_file to_unread fp x
  | Ogets room =>
      exists f, files x !! FCGI_stdin = Some f /\ stdio_stream f = None /\
        forall p s, fcgx_stream f = Some p -> slot p (fx x) = Some s ->
          exists d, feeds d (view s (fx x)) /\ Forall is_byte d /\ (d = [] \/ (length (line d) < room)%nat)
  | Ofprintf fp format args | Ovfprintf fp format args => at_file to_write fp x /\ printable format args
  | Ovprintf format args => printable format args
  | Ofwrite data size nmemb fp =>
      at_file to_write fp x /\
      (u64 (size * nmemb) = 0 \/ 0 <= s32 (size * nmemb) <= Z.of_nat (length data))
  | Opclose fp | Osetvbuf fp _ _ _ | Osetbuf fp _ | Ofseek fp _ _ | Oftell fp | Orewind fp
  | Ofgetpos fp _ | Ofsetpos fp _ | Ofeof fp | Oferror fp | Oclearerr fp | Ofileno fp => at_file no_need fp x
  end.

(** What is carried from call to call. *)
Record well (x : stdio) : Prop := {
  well_files : files_ok x;
  well_bound : bound (fx x) (files x);
  well_writers : writers_ok (fx x);
}.

Definition slot_ok (p : stream_ptr) (s : FCGX_Stream) : Prop := p <> In -> stream_ok s /\ isReader s = false.

Lemma writers_slots g : writers_ok g <-> forall p s, slot p g = Some s -> slot_ok p s.
Proof.
  split.
  - intros [Ho He] [] s Es Hp; [done|by apply Ho|by apply He].
  - intros H. split; intros w Ew; [by apply (H Out)|by apply (H Err)].
Qed.

(** A call returns, with the writers in order. *)
Definition comes_back {A} (m : outcome (A * stdio)) : Prop := exists a x', m = Ret (a, x') /\ writers_ok (fx x').

Lemma comes_back_now {A} (a : A) x : writers_ok (fx x) -> comes_back (Ret (a, x)).
Proof. intros H. by exists a, x. Qed.

Lemma comes_back_bind {A B} (m : outcome (A * stdio)) (k : A -> stdio -> outcome (B * stdio)) :
  comes_back m -> (forall a x', m = Ret (a, x') -> writers_ok (fx x') -> comes_back (k a x')) ->
  comes_back (let! (a, x) := m in k a x).
Proof. intros (a & x' & -> & Hw) Hk. cbn [obind]. by apply Hk. Qed.

Lemma comes_back_ran {A} (v : A -> Z) m : comes_back m -> comes_back (ran v m).
Proof. intros (a & x' & -> & Hw). by eexists _, x'. Qed.

(** An operation of fcgiapp.c on a stream of the request. *)
Definition handles {A} (Q : stream_ptr -> sys -> Prop) (f : sys -> outcome (A * sys)) : Prop :=
  forall p y, slot_ok p (strm y) -> Q p y -> exists a y', f y = Ret (a, y') /\ slot_ok p (strm y').

Lemma fcgx_call_back {A} Q (f : sys -> outcome (A * sys)) p s x :
  handles Q f -> writers_ok (fx x) -> slot p (fx x) = Some s -> Q p (view s (fx x)) -> comes_back (fcgx_call f p x).
Proof.
  intros Hf Hw Hs HQ. pose proof (proj1 (writers_slots _) Hw) as Hsl.
  destruct (Hf p (view s (fx x)) (Hsl p s Hs) HQ) as (a & y & E & Hy). unfold fcgx_call. rewrite Hs, E. cbn [obind].
  apply comes_back_now, writers_slots. intros q t Et. cbn in Et.
  destruct (decide (q = p)) as [->|Hne].
  - assert (t = strm y) as -> by (destruct p; by injection Et as <-). done.
  - apply Hsl. by destruct p, q.
Qed.

Lemma file_call_back {A} (f : Z -> world -> A * world) s x :
  writers_ok (fx x) -> s ∈ opened (clib x) -> comes_back (file_call f s x).
Proof.
  intros Hw Hs. unfold file_call. rewrite bool_decide_true by done. destruct (f s (clib x)) as [a w].
  by apply comes_back_now.
Qed.

Lemma dispatch_back {A} Q fp f (g : sys -> outcome (A * sys)) c x :
  handles Q g -> well x -> at_file Q fp x -> comes_back (dispatch fp f g c x).
Proof.
  intros Hg [(Ht & Ho & _) Hb Hw] (h & Eh & HQ). unfold dispatch, get_file. rewrite Eh. cbn [obind].
  destruct (stdio_stream h) as [s|] eqn:Es; [apply file_call_back; [done|by eapply owned_open]|].
  destruct (fcgx_stream h) as [p|] eqn:Ep; [|by apply comes_back_now].
  destruct (Hb _ _ _ Eh Ep) as [s Hs]. eapply fcgx_call_back; eauto.
Qed.

Lemma file_only_back {A} fp f (o : stdio -> A * stdio) x :
  (forall x, writers_ok (fx x) -> writers_ok (fx (o x).2)) -> well x -> at_file no_need fp x ->
  comes_back (file_only fp f o x).
Proof.
  intros Ho [(Ht & Hown & _) Hb Hw] (h & Eh & _). unfold file_only, get_file. rewrite Eh. cbn [obind].
  destruct (stdio_stream h) as [s|] eqn:Es; [apply file_call_back; [done|by eapply owned_open]|].
  specialize (Ho x Hw). destruct (o x) as [a x']. by apply comes_back_now.
Qed.

(** *** The operations *)

Lemma slot_ok_to_write p y : slot_ok p (strm y) -> to_write p y -> stream_ok (strm y).
Proof. intros Hs Hq. destruct p; [by apply Hq|by apply Hs..]. Qed.

Lemma answers_handles {A} (f : sys -> outcome (A * sys)) :
  (forall y, stream_ok (strm y) -> answers (f y) y) -> handles to_write f.
Proof.
  intros Hf p y Hs Hq. destruct (Hf y) as (a & y' & E & H & K); [by eapply slot_ok_to_write|].
  exists a, y'. split; [done|]. intros Hp. split; [done|]. rewrite (kept_reader _ _ K). by apply Hs.
Qed.

Lemma FClose_handles : handles to_write (FCGX_FClose emptyBuffProc).
Proof.
  intros p y Hs Hq. destruct (FClose_answers (emptyBuffProc := emptyBuffProc) y) as (a & y' & E & H & Hr & _); [by eapply slot_ok_to_write|].
  exists a, y'. split; [done|]. intros Hp. split; [done|]. rewrite Hr. by apply Hs.
Qed.

Lemma fwrite_handles data size nmemb :
  u64 (size * nmemb) = 0 \/ 0 <= s32 (size * nmemb) <= Z.of_nat (length data) ->
  handles to_write (fun y =>
    if u64 (size * nmemb) =? 0 then Ret (0, y)
    else
      let n := s32 (size * nmemb) in
      ASSERT (0 <=? n) && (n <=? Z.of_nat (length data)) in
      let! (n, y) := FCGX_PutStr emptyBuffProc (take (Z.to_nat n) data) y in
      Ret (items n size, y)).
Proof.
  intros Hn. apply answers_handles. intros y Hy. destruct (Z.eqb_spec (u64 (size * nmemb)) 0); [by apply answers_now|].
  cbn zeta. rewrite !(proj2 (Z.leb_le _ _)) by lia. cbn [andb].
  destruct (PutStr_answers (emptyBuffProc := emptyBuffProc) (take (Z.to_nat (s32 (size * nmemb))) data) y Hy) as (a & y' & -> & H). cbn [obind].
  by eexists _, y'.
Qed.

(** Input operations find no reader on the output streams, and return at once. *)
Lemma reader_handles {A} (f : sys -> outcome (A * sys)) Q :
  (forall y, isReader (strm y) = false -> exists a, f y = Ret (a, y)) ->
  (forall y, Q In y -> exists a y', f y = Ret (a, y')) -> handles Q f.
Proof.
  intros Hn Hi p y Hs Hq. destruct (decide (p = In)) as [->|Hp].
  - destruct (Hi y Hq) as (b & y' & E). by exists b, y'.
  - destruct (Hs Hp) as [Hok Hr]. destruct (Hn y Hr) as [a E]. by exists a, y.
Qed.

Lemma GetChar_no_reader y : isReader (strm y) = false -> FCGX_GetChar fillBuffProc y = Ret (EOF, y).
Proof. intros Hr. unfold FCGX_GetChar. by rewrite Hr, orb_true_r. Qed.

Lemma GetChar_handles : handles to_read (FCGX_GetChar fillBuffProc).
Proof.
  apply reader_handles.
  - intros y Hr. exists EOF. by apply GetChar_no_reader.
  - intros y Hq. destruct (Hq eq_refl) as (d & Hd & _). destruct (feeds_GetChar d y Hd) as (y' & E & _). by eexists _, y'.
Qed.

Lemma GetLine_loop_feeds k got d y : feeds d y -> exists r y', GetLine_loop fillBuffProc k got y = Ret (r, y').
Proof.
  revert got d y. induction k as [|k IH]; intros got d y Hy; cbn [GetLine_loop]; [by eexists _, y|].
  destruct (feeds_GetChar d y Hy) as (y1 & -> & Hy1). cbn [obind].
  destruct (_ =? EOF); [by eexists _, y1|]. destruct (_ =? 10); [by eexists _, y1|]. by eapply IH.
Qed.

Lemma GetLine_handles size : handles to_read (FCGX_GetLine fillBuffProc size).
Proof.
  unfold FCGX_GetLine. apply reader_handles.
  - intros y Hr. destruct (Z.to_nat (size - 1)); cbn [GetLine_loop]; [by eexists|].
    rewrite GetChar_no_reader by done. cbn. by eexists.
  - intros y Hq. destruct (Hq eq_refl) as (d & Hd & _). by eapply GetLine_loop_feeds.
Qed.

Lemma fread_handles size nmemb :
  handles to_read (fun y =>
    if u64 (size * nmemb) =? 0 then Ret ((0, []), y)
    else
      let! (bs, y) := FCGX_GetStr fillBuffProc fuel (s32 (size * nmemb)) y in
      Ret ((items (Z.of_nat (length bs)) size, bs), y)).
Proof.
  apply reader_handles.
  - intros y Hr. destruct (_ =? 0); [by eexists|]. unfold FCGX_GetStr. rewrite Hr, orb_true_r. by eexists.
  - intros y Hq. destruct (Hq eq_refl) as (d & Hd & Hf). destruct (_ =? 0); [by eexists _, _|].
    destruct (Z.leb_spec (s32 (size * nmemb)) 0) as [Hle|Hgt].
    + unfold FCGX_GetStr. rewrite (proj2 (Z.leb_le _ _) Hle), orb_true_r. by eexists _, _.
    + destruct (feeds_GetStr fuel (Z.to_nat (s32 (size * nmemb))) d y Hd Hf) as (y' & E & _).
      rewrite Z2Nat.id in E by lia. rewrite E. by eexists _, _.
Qed.

Lemma UnGetChar_handles c : handles to_unread (FCGX_UnGetChar c).
Proof.
  unfold FCGX_UnGetChar. apply reader_handles.
  - intros y ->. rewrite orb_true_r. by eexists.
  - intros y Hq. destruct (_ || _); [by eexists _, _|].
    destruct (rdNext (strm y)) eqn:Er; [by destruct (Hq eq_refl)|]. by eexists _, _.
Qed.

(** Reading the status, and clearing the error. *)
Lemma status_handles : handles no_need (fun y => Ret (FCGX_HasSeenEOF y, y)) /\
  handles no_need (fun y => Ret (FCGX_GetError y, y)) /\ handles no_need (fun y => Ret (0, FCGX_ClearError y)).
Proof.
  split_and!; intros p y Hs _; eexists _, _; (split; [done|]); [done..|].
  intros Hp. destruct (Hs Hp) as [[S1 S2 S3 S4] Hr]. split; [by split|done].
Qed.

Lemma StartFilterData_handles : handles no_need FCGX_StartFilterData.
Proof.
  intros p y Hs _. unfold FCGX_StartFilterData, SetReaderType.
  destruct (isReader (strm y)) eqn:Hr; cbn [negb].
  - destruct (_ || _); cbn [obind].
    + eexists _, _. split; [done|]. intros Hp. destruct (Hs Hp). congruence.
    + eexists _, _. split; [done|]. intros Hp. destruct (Hs Hp). congruence.
  - rewrite orb_true_r. cbn [orb]. eexists _, _. split; [done|]. intros Hp. destruct (Hs Hp) as [[S1 S2 S3 S4] _].
    unfold SetError. destruct (_ =? 0); cbn; (split; [by split|done]).
Qed.

(** *** The functions that are not a single operation *)

Lemma comes_back_no_seek r x : writers_ok (fx x) -> writers_ok (fx (no_seek r x).2).
Proof. done. Qed.

(** Only the input stream can be held by stdin, and only an output stream by the
    other two. *)
Lemma at_std p x : well x -> p <> In -> at_file to_write (home p) x.
Proof.
  intros [(Ht & _ & _) _ _] Hp. destruct (typed_std _ Ht p) as [f Ef]. exists f. split; [done|].
  intros _ q s Eq _ ->. exfalso. apply Hp, home_inj. by eapply (typed_home _ Ht).
Qed.

Lemma puts_back str x : well x -> comes_back (FCGI_puts str x).
Proof.
  intros Hx. pose proof (at_std Out x Hx ltac:(done)) as (f & Ef & HQ). destruct Hx as [(Ht & Ho & Hu) Hb Hw].
  cbn [home] in Ef. unfold FCGI_puts, get_file. rewrite Ef. cbn [obind].
  destruct (stdio_stream f) as [s|] eqn:Es.
  - assert (Hs : s ∈ opened (clib x)) by by eapply owned_open.
    apply comes_back_bind; [by apply file_call_back|]. intros n x1 E Hw1. destruct (n <? 0); [by apply comes_back_now|].
    apply file_call_back; [done|]. apply file_call_keeps in E; [|intros; apply c_int_opened].
    by rewrite (same_opened _ _ E).
  - destruct (fcgx_stream f) as [p|] eqn:Ep; [|by apply comes_back_now].
    destruct (Hb _ _ _ Ef Ep) as [s Hs]. specialize (HQ eq_refl p s eq_refl Hs).
    assert (Hp : p = Out) by (apply home_inj; symmetry; by eapply (typed_home _ Ht)). subst p.
    assert (Hany : forall y, to_write Out y) by done.
    apply comes_back_bind.
    + eapply fcgx_call_back; [apply answers_handles; intros; by apply PutStr_answers|done..].
    + intros n x1 E Hw1. destruct (n <? 0); [by apply comes_back_now|].
      apply fcgx_call_keeps in E. destruct (same_slots _ _ E Out) as [t Et]; [by rewrite Hs|].
      eapply fcgx_call_back; [apply answers_handles; intros; by apply PutChar_answers|done..].
Qed.

Lemma well_same x x' : same x x' -> well x -> writers_ok (fx x') -> well x'.
Proof. intros Hs [H1 H2 _] Hw. split; [by eapply same_ok|by eapply same_bound|done]. Qed.

Lemma PutS_handles str : handles to_write (FCGX_PutS emptyBuffProc str).
Proof. apply answers_handles. intros. by apply PutStr_answers. Qed.

Lemma perror_back str x : well x -> exists x', FCGI_perror str x = Ret x' /\ writers_ok (fx x').
Proof.
  assert (H : forall str x, well x -> exists n x', FCGI_fputs str FCGI_stderr x = Ret (n, x') /\ well x').
  { clear str x. intros str x Hx.
    destruct (dispatch_back to_write FCGI_stderr (c_int (Cfputs str)) _ EOF x (PutS_handles str) Hx
      (at_std Err x Hx ltac:(done))) as (n & x' & E & Hw). exists n, x'. split; [exact E|].
    eapply well_same; [|done..]. eapply (dispatch_keeps FCGI_stderr); [apply c_int_opened|exact E]. }
  intros Hx. unfold FCGI_perror. destruct (H str x Hx) as (n1 & x1 & -> & H1). cbn [obind].
  destruct (H (b! ": ") x1 H1) as (n2 & x2 & -> & H2). cbn [obind].
  destruct (H (strerror (os_errno (fos (fx x2)))) x2 H2) as (n3 & x3 & -> & [_ _ H3]). by exists x3.
Qed.

(** [gets] reads the stream of stdin, and touches no other. *)
Lemma getchar_slots x c x' : typed (files x) -> FCGI_getchar x = Ret (c, x') ->
  forall p, p <> In -> slot p (fx x') = slot p (fx x).
Proof.
  unfold FCGI_getchar, FCGI_fgetc, dispatch, get_file. intros Ht E p Hp.
  destruct (files x !! FCGI_stdin) as [f|] eqn:Ef; [|done]. cbn [obind] in E.
  destruct (stdio_stream f) as [s|].
  { unfold file_call in E. case_bool_decide; [|done]. destruct (c_int _ _ _). by injection E as <- <-. }
  destruct (fcgx_stream f) as [q|] eqn:Eq; [|by injection E as <- <-].
  assert (q = In) as -> by (apply home_inj; symmetry; by eapply (typed_home _ Ht)).
  unfold fcgx_call in E. destruct (slot In (fx x)) as [s|]; [|done].
  destruct (FCGX_GetChar _ _) as [[a y]| |]; [|done|done]. injection E as <- <-. by destruct p.
Qed.

Lemma gets_loop_slots room got x r x' : typed (files x) -> gets_loop room got x = Ret (r, x') ->
  forall p, p <> In -> slot p (fx x') = slot p (fx x).
Proof.
  revert got x. induction room as [|room IH]; intros got x Ht E p Hp; cbn [gets_loop] in E;
    (destruct (FCGI_getchar x) as [[c x1]| |] eqn:E1; [|done|done]); cbn [obind] in E;
    rewrite <- (getchar_slots x c x1 Ht E1 p Hp);
    repeat case_match; try done; try (by injection E as <- <-).
  apply (IH _ _) with (p := p) in E; [done| |done].
  by rewrite (same_files _ _ (FCGI_getchar_keeps _ _ _ E1)).
Qed.

Lemma gets_back room x : well x -> callable (Ogets room) x -> comes_back (FCGI_gets room x).
Proof.
  intros [(Ht & _) Hb Hw] (f & Ef & Es & Hf).
  assert (Hr : exists r x', FCGI_gets room x = Ret (r, x')).
  { destruct (fcgx_stream f) as [p|] eqn:Ep.
    - assert (p = In) as -> by (apply home_inj; symmetry; by eapply (typed_home _ Ht)).
      destruct (Hb _ _ _ Ef Ep) as [s Hs]. destruct (Hf In s eq_refl Hs) as (d & Hd & Hbytes & Hfit).
      assert (Hon : on_stream In (feeds d) x) by (split; [cbn [home]; rewrite Ef; destruct f; cbn in *; by subst|by exists s]).
      destruct d as [|c d'] eqn:Ed.
      + destruct (getchar_on [] x Hon) as (x1 & E & _). exists None, x1. unfold FCGI_gets.
        destruct room; cbn [gets_loop]; by rewrite E.
      + destruct Hfit as [|Hfit]; [done|]. pose proof (gets_loop_line room [] _ x Hon Hbytes ltac:(done)) as Hl.
        rewrite (proj2 (Nat.ltb_lt _ _) Hfit) in Hl. destruct Hl as (x' & E & _). by eexists _, x'.
    - assert (E : FCGI_getchar x = Ret (EOF, x)).
      { unfold FCGI_getchar, FCGI_fgetc, dispatch, get_file. rewrite Ef. cbn [obind]. by rewrite Es, Ep. }
      exists None, x. unfold FCGI_gets. destruct room; cbn [gets_loop]; by rewrite E. }
  destruct Hr as (r & x' & E). exists r, x'. split; [done|].
  pose proof (gets_loop_slots _ _ _ _ _ Ht E) as Hs. destruct Hw as [Ho He].
  split; intros w Ew; [apply Ho|apply He]; rewrite <- Ew; symmetry; [by apply (Hs Out)|by apply (Hs Err)].
Qed.

(** *** Opening and closing *)

Lemma open_with_back o close addr x : writers_ok (fx x) -> comes_back (open_with o close addr x).
Proof.
  intros Hw. unfold open_with. destruct (c_open o (clib x)) as [[s|] w] eqn:Eo.
  - destruct addr as [a|]; cbn [FCGI_OpenFromFILE]; [by apply comes_back_now|].
    apply comes_back_bind; [|by intros; apply comes_back_now]. apply file_call_back; [done|].
    destruct (opened_open _ _ _ _ Eo) as [_ Hop]. cbn. rewrite Hop. by apply elem_of_union_r, elem_of_singleton.
  - by apply comes_back_now.
Qed.

Lemma release_fx fp x : fx (release fp x) = fx x.
Proof. unfold release. by destruct (negb _). Qed.

Lemma fclose_back fp x : well x -> at_file to_write fp x -> comes_back (FCGI_fclose fp x).
Proof.
  intros [(Ht & Ho & _) Hb Hw] (f & Ef & HQ). unfold FCGI_fclose, get_file. rewrite Ef. cbn [obind].
  destruct (stdio_stream f) as [s|] eqn:Es; [|destruct (fcgx_stream f) as [p|] eqn:Ep].
  - apply comes_back_bind; [apply file_call_back; [done|by eapply owned_open]|].
    intros n x1 _ Hw1. apply comes_back_now. by rewrite release_fx.
  - destruct (Hb _ _ _ Ef Ep) as [s Hs]. apply comes_back_bind; [eapply fcgx_call_back; [apply FClose_handles|done..|by apply HQ]|].
    intros n x1 _ Hw1. apply comes_back_now. by rewrite release_fx.
  - apply comes_back_now. by rewrite release_fx.
Qed.

Lemma pclose_back fp x : well x -> at_file no_need fp x -> comes_back (FCGI_pclose fp x).
Proof.
  intros [(Ht & Ho & _) Hb Hw] (f & Ef & _). unfold FCGI_pclose, get_file. rewrite Ef. cbn [obind].
  destruct (stdio_stream f) as [s|] eqn:Es; [|destruct (fcgx_stream f) as [p|]].
  - apply comes_back_bind; [apply file_call_back; [done|by eapply owned_open]|].
    intros n x1 _ Hw1. apply comes_back_now. by rewrite release_fx.
  - by apply comes_back_now.
  - apply comes_back_now. by rewrite release_fx.
Qed.

Lemma freopen_back path mode fp x : well x -> at_file to_write fp x -> comes_back (FCGI_freopen path mode fp x).
Proof.
  intros [(Ht & Ho & _) Hb Hw] (f & Ef & HQ). unfold FCGI_freopen, get_file. rewrite Ef. cbn [obind].
  destruct (stdio_stream f) as [s|] eqn:Es; [|destruct (fcgx_stream f) as [p|] eqn:Ep].
  - apply comes_back_bind; [apply file_call_back; [done|by eapply owned_open]|]. by intros; apply comes_back_now.
  - destruct (Hb _ _ _ Ef Ep) as [s Hs]. apply comes_back_bind; [eapply fcgx_call_back; [apply FClose_handles|done..|by apply HQ]|].
    intros n x1 _ Hw1. destruct (c_open _ _) as [[t|] w]; by apply comes_back_now.
  - by apply comes_back_now.
Qed.

(** *** Requests *)

Lemma FCGX_IsCGI_writers x r x1 : FCGX_IsCGI x = (r, x1) -> writers_ok (fx x) -> writers_ok (fx x1).
Proof.
  assert (Hi : forall g rc g1, FCGX_Init lib_malloc_ok server_addrs g = (rc, g1) -> writers_ok g -> writers_ok g1).
  { intros g rc g1. unfold FCGX_Init. destruct (fcgx_libInitialized g); [by intros [= _ <-]|].
    cbn [FCGX_InitRequest]. destruct (OS_LibInit _ _) as [r1 o]. destruct (r1 =? -1); intros [= _ <-] _; by split. }
  unfold FCGX_IsCGI. intros E Hw. destruct (negb (isFastCGI _ =? -1)); [by injection E as _ <-|].
  destruct (if negb _ then _ else _) as [rc g] eqn:Eg.
  assert (writers_ok g) by (destruct (negb _); [by eapply Hi|by injection Eg as _ <-]).
  destruct (negb (rc =? 0)); [by injection E as _ <-|]. destruct (OS_IsFcgi _ _ _). by injection E as _ <-.
Qed.

Lemma Accept_back e x : well x -> callable (OAccept e) x -> comes_back (FCGI_Accept e x).
Proof.
  intros [_ _ Hw] (Hmo & Hme & Hacc).
  assert (Hcall : forall y, accepting x = Some (fx y) -> isCGI y = false ->
    comes_back (let! (acceptResult, g) := accept e (fx y) in
       let x := set_fx g y in
       if acceptResult <? 0 then Ret (inr acceptResult, x)
       else if 0 <? acceptResult then Crash
       else Ret (inr 0 : Z + Z, set_environ Request_envp
              (bind_std (mkFILE None (Some In)) (mkFILE None (Some Out)) (mkFILE None (Some Err)) x)))).
  { intros y Hy _. destruct (Hacc _ Hy) as (r & g & E & Hr). rewrite E. cbn [obind].
    destruct (accept_slots e _ _ _ E Hr) as (H0 & Hneg & _).
    destruct (Z.ltb_spec r 0) as [Hl|Hl].
    - apply comes_back_now. split; intros w Ew; [pose proof (Hneg Hl Out) as Es|pose proof (Hneg Hl Err) as Es];
        cbn in *; congruence.
    - replace (0 <? r) with false by lia. apply comes_back_now. destruct (H0 ltac:(lia)) as (_ & Ho & He).
      split; intros w Ew; cbn in Ew; [rewrite Ho in Ew|rewrite He in Ew]; injection Ew as <-;
        [apply (NewWriter_stream_ok _ _ _ _ (proj1 Hmo) (proj2 Hmo))|apply (NewWriter_stream_ok _ _ _ _ (proj1 Hme) (proj2 Hme))]. }
  unfold FCGI_Accept. unfold accepting in Hcall. destruct (acceptCalled x) eqn:Ea; cbn [negb].
  - destruct (isCGI x) eqn:Ec; [by apply comes_back_now|]. rewrite Ec. by apply Hcall.
  - destruct (FCGX_IsCGI x) as [[status|b] x1] eqn:Ei.
    + apply comes_back_now. exact (FCGX_IsCGI_writers x _ _ Ei Hw).
    + destruct b; cbn [isCGI set_accept]; [|by apply (Hcall (set_accept true false x1))].
      apply comes_back_now. exact (FCGX_IsCGI_writers x _ _ Ei Hw).
Qed.

Lemma Finish_back x : well x -> callable OFinish x -> exists x', FCGI_Finish x = Ret x' /\ writers_ok (fx x').
Proof.
  intros [_ _ Hw] Ha. unfold FCGI_Finish. destruct (_ || _); [by exists x|].
  destruct (Finish_answers (fx x) Hw Ha) as [g Eg]. rewrite Eg. cbn [obind]. eexists. split; [done|].
  pose proof (Finish_slots _ _ Eg) as Hs. split; intros w Ew; [pose proof (Hs Out)|pose proof (Hs Err)]; cbn in *; congruence.
Qed.

Lemma SetExitStatus_back status x : well x -> exists x', FCGI_SetExitStatus status x = Ret x' /\ writers_ok (fx x').
Proof.
  intros [(Ht & _) Hb Hw]. destruct (typed_std _ Ht In) as [f Ef]. cbn [home] in Ef.
  unfold FCGI_SetExitStatus, get_file. rewrite Ef. cbn [obind]. destruct (fcgx_stream f) as [p|] eqn:Ep; [|by exists x].
  destruct (Hb _ _ _ Ef Ep) as [s Hs].
  assert (Hh : handles no_need (fun y => Ret (tt, FCGX_SetExitStatus status y))) by (intros q y Hq _; by eexists _, _).
  destruct (fcgx_call_back no_need _ p s x Hh Hw Hs I) as (a & x' & -> & Hw'). by exists x'.
Qed.

Lemma StartFilterData_back x : well x -> callable OStartFilterData x -> comes_back (FCGI_StartFilterData x).
Proof.
  intros [(Ht & _) Hb Hw] Hne. destruct (typed_std _ Ht In) as [f Ef]. cbn [home callable] in *.
  unfold FCGI_StartFilterData, get_file. rewrite Ef in *. cbn [obind].
  destruct f as [[s|] [p|]]; cbn [stdio_stream fcgx_stream]; [by apply comes_back_now..| |done].
  destruct (Hb _ _ _ Ef eq_refl) as [s Hs]. by apply (fcgx_call_back no_need _ p s x StartFilterData_handles).
Qed.

Lemma fflush_back fp x : well x -> callable (Offlush fp) x -> comes_back (FCGI_fflush fp x).
Proof.
  intros Hx Hc. unfold FCGI_fflush. destruct fp as [fp|].
  - eapply (dispatch_back to_write); [|done..]. apply answers_handles. intros. by apply FFlush_answers.
  - destruct (c_fflush_all (clib x)). by apply comes_back_now, Hx.
Qed.

Lemma ftell_back fp x : well x -> at_file no_need fp x -> comes_back (FCGI_ftell fp x).
Proof.
  intros Hx Hc. unfold FCGI_ftell. apply comes_back_bind; [by apply file_only_back|]. intros. by apply comes_back_now.
Qed.

Lemma vprintf_handles format args : printable format args -> handles to_write (vprintf_stream format args).
Proof.
  intros (segs & last & -> & -> & Hs & Hl & _). apply answers_handles. intros y Hy.
  unfold vprintf_stream. by apply (VFPrintF_answers malloc_gives).
Qed.

Lemma at_no_need Q fp x : at_file Q fp x -> at_file no_need fp x.
Proof. intros (f & Ef & _). by exists f. Qed.

(** Every function returns, and leaves the writers in order. *)
Lemma run_op_back o x : well x -> callable o x -> comes_back (run_op o x).
Proof.
  intros Hx Hc. destruct status_handles as (Hs1 & Hs2 & Hs3).
  destruct o; cbn [run_op callable] in *;
    try (apply comes_back_ran; first
      [ by apply StartFilterData_back | by apply open_with_back, Hx | by apply fclose_back | by apply pclose_back
      | by apply fflush_back | by apply freopen_back | by apply ftell_back | by apply gets_back | by apply puts_back
      | by apply file_only_back ]).
  - by apply Accept_back.
  - destruct (Finish_back x Hx Hc) as (x' & E & Hw). unfold run_unit. rewrite E. by eexists _, x'.
  - destruct (SetExitStatus_back status x Hx) as (x' & E & Hw). unfold run_unit. rewrite E. by eexists _, x'.
  - destruct (perror_back str x Hx) as (x' & E & Hw). unfold run_unit. rewrite E. by eexists _, x'.
  - apply comes_back_ran. by eapply dispatch_back; [apply GetChar_handles|..].
  - apply comes_back_ran. by eapply dispatch_back; [apply UnGetChar_handles|..].
  - apply comes_back_ran. by eapply dispatch_back; [apply GetLine_handles|..].
  - apply comes_back_ran. eapply dispatch_back; [apply answers_handles; intros; by apply PutChar_answers|done..].
  - apply comes_back_ran. by eapply dispatch_back; [apply PutS_handles|..].
  - apply comes_back_ran. by eapply dispatch_back; [apply vprintf_handles, Hc|..|apply Hc].
  - apply comes_back_ran. by eapply dispatch_back; [apply vprintf_handles, Hc|..|apply Hc].
  - apply comes_back_ran. by eapply dispatch_back; [apply vprintf_handles, Hc|..|apply (at_std Out)].
  - apply comes_back_ran. by eapply dispatch_back; [apply fread_handles|..].
  - apply comes_back_ran. by eapply dispatch_back; [apply fwrite_handles, Hc|..|apply Hc].
  - apply comes_back_ran. by eapply dispatch_back; [apply Hs1|..].
  - apply comes_back_ran. by eapply dispatch_back; [apply Hs2|..].
  - apply comes_back_ran. by eapply dispatch_back; [apply Hs3|..].
Qed.

(** C10.  While there is memory, every call of the file that keeps its contract
    ([callable]: the file is there, what is read from a request ends, a format can be
    printed and so on) returns, whatever the connection does to what is written, and
    keeps the structs well formed: the three standard files are there, no file is both a [FILE]
    and a stream, only a standard file holds a stream, and its own; every [FILE] that is
    held is open and held once; every stream that is held exists; the output streams
    have a buffer in order.  There are two exceptions, in which the code keeps a
    pointer to what was closed or freed: [FCGI_freopen] that fails, and [FCGI_Accept] that
    fails. *)
Theorem stdio_calls_return o x :
  well x -> callable o x -> (forall a, op_addr o = Some a -> files x !! a = None) ->
  exists r x', run_op o x = Ret (r, x') /\
    typed (files x') /\ writers_ok (fx x') /\
    (closes_badly o r = false -> files_ok x') /\
    (accepts_badly o r = false -> bound (fx x') (files x')).
Proof.
  intros Hx Hc Ha. destruct (run_op_back o x Hx Hc) as (r & x' & E & Hw). exists r, x'. split; [done|].
  destruct (run_op_typed o x r x' E Ha (well_files _ Hx) (well_bound _ Hx)) as (H1 & H2 & H3). by split_and!.
Qed.
End Calls.
End Stdio.

(** ** A concrete C library and process *)

(** The C library as a list of open [FILE]s; an empty path cannot be opened. *)
Definition new_file (w : list Z) : Z := 1 + foldr Z.max 0 w.
Definition close_file (f : Z) (w : list Z) : list Z := base.filter (fun g => g <> f) w.
Definition table_stdio : Stdio (LC := whole_numbers) := {|
  world := list Z;
  opened := list_to_set;
  c_stdin := 1;
  c_stdout := 2;
  c_stderr := 3;
  c_open o w :=
    match o with
    | Copen [] _ => (None, w)
    | _ => (Some (new_file w), new_file w :: w)
    end;
  c_fclose f w := (0, close_file f w);
  c_pclose f w := (0, close_file f w);
  c_freopen path _ f w := match path with [] => (false, close_file f w) | _ => (true, w) end;
  c_call _ _ w := (0, w);
  c_fflush_all w := (0, w);
  c_fgetpos _ w := ((0, 0), w);
  c_fgets _ _ w := (None, w);
  c_fread _ _ _ w := ((0, []), w);
  c_fwrite _ _ n _ w := (n, w);
  c_vfprintf _ _ _ w := ((0, []), w);
  strerror _ := [];
|}.

Lemma new_file_above w f : f ∈ w -> f < new_file w.
Proof.
  unfold new_file. induction w as [|g w IH]; cbn [foldr]; [by intros ?%not_elem_of_nil|].
  intros [->|H]%elem_of_cons; [lia|]. specialize (IH H). lia.
Qed.

Lemma close_file_opened f w : list_to_set (C := gset Z) (close_file f w) = list_to_set w ∖ {[f]}.
Proof.
  apply set_eq. intros g. rewrite elem_of_difference, !elem_of_list_to_set, elem_of_singleton. unfold close_file.
  rewrite list_elem_of_filter. tauto.
Qed.

Lemma table_stdio_laws : StdioLaws (ST := table_stdio).
Proof.
  split; try done; try (intros f w; apply close_file_opened).
  - intros o w f w' E. assert (E' : f = new_file w /\ w' = new_file w :: w).
    { destruct o as [[|? ?] ?| | |]; cbn in E; [done|injection E as <- <-; done..]. }
    destruct E' as [-> ->]. split; [|cbn; by rewrite union_comm_L].
    cbn. rewrite elem_of_list_to_set. intros H%new_file_above. lia.
  - intros o w w' E. destruct o as [[|? ?] ?| | |]; cbn in E; [by injection E as <-|done..].
  - intros [|? ?] m f w; [apply close_file_opened|done].
Qed.

(** A FastCGI process whose request has output at address [d] of the stream, and the
    same before its first [FCGI_Accept]. *)
Definition demo_files : gmap Z FCGI_FILE :=
  {[FCGI_stdin := mkFILE None (Some In); FCGI_stdout := mkFILE None (Some Out);
    FCGI_stderr := mkFILE None (Some Err)]}.
Definition demo_process : stdio (ST := table_stdio) :=
  mkStdio (ST := table_stdio) demo_files true false Request_envp
    (mkFcgx demo_request
       (Some (set_wrNext 3 (set_stop 3 (NewReader 8 (b! "ab" ++ 10 :: replicate 29 0) 32 FCGI_STDIN))))
       (Some (NewWriter 8 (replicate 32 0) 10 FCGI_STDOUT))
       (Some (NewWriter 8 (replicate 32 0) 10 FCGI_STDERR)) None None 1 true None demo_os)
    [1; 2; 3] [].

Definition demo_env : accept_env :=
  mkAccept (replicate 64 0) 8 16 24 (replicate (64 * 128) 0) (replicate (64 * 128) 0) (replicate 512 0).

Lemma demo_files_ok : files_ok (ST := table_stdio) demo_process.
Proof.
  assert (H : forall fp f, demo_files !! fp = Some f -> exists p, fp = home p /\ f = mkFILE None (Some p)).
  { unfold demo_files. intros fp f.
    intros [[<- <-]|[_ [[<- <-]|[_ [<- <-]%lookup_singleton_Some]]%lookup_insert_Some]]%lookup_insert_Some;
      [by exists In|by exists Out|by exists Err]. }
  split_and!; [split|split|done].
  - intros p. exists (mkFILE None (Some p)). by destruct p.
  - intros fp f (p & _ & ->)%H. by left.
  - intros fp f q (p & -> & ->)%H [= <-]. done.
  - intros fp f s (p & _ & ->)%H. done.
  - intros fp1 fp2 f1 f2 s (p & _ & ->)%H. done.
Qed.

Definition demo_run : op (LC := whole_numbers) -> stdio (ST := table_stdio) ->
    outcome ((Z + Z) * stdio (ST := table_stdio)) :=
  run_op EmptyBuffProc end_fill (fun _ => true) 200 (fun _ _ => (0, 0)) (fun _ => 0) true None.

(** The result of a call that is known by computation. *)
Definition result_of {A} (m : outcome ((Z + Z) * A)) : option (Z + Z) :=
  match m with Ret (r, _) => Some r | _ => None end.
Lemma result_of_Ret {A} (m : outcome ((Z + Z) * A)) r : result_of m = Some r -> exists x, m = Ret (r, x).
Proof. destruct m as [[r' x]| |]; cbn; [intros [= ->]; by exists x|done|done]. Qed.

Lemma demo_well : well (ST := table_stdio) demo_process.
Proof.
  split; [apply demo_files_ok|intros fp f [] _ _; by eexists|].
  split; intros w [= <-]; apply NewWriter_stream_ok; try done; lia.
Qed.

(** stdout is sent to a file. *)
Definition demo_reopen : op (LC := whole_numbers) := Ofreopen (b! "log") (b! "w") FCGI_stdout.
Example stdio_calls_return_witness :
  (exists r x', demo_run demo_reopen demo_process = Ret (r, x') /\ typed (files x')) /\
  (exists r x', demo_run (Ofgets 10 FCGI_stdin) demo_process = Ret (r, x') /\ typed (files x')) /\
  (exists r x', demo_run (Ofprintf FCGI_stderr (format_of demo_segs []) (args_of demo_segs)) demo_process
     = Ret (r, x') /\ typed (files x')).
Proof.
  assert (H : forall o, callable (ST := table_stdio) 200 (fun _ _ => (0, 0)) (fun _ => 0) true None
      (reads := buffered) (ended := fun y => isClosed (strm y) = true) o demo_process ->
    op_addr o = None -> exists r x', demo_run o demo_process = Ret (r, x') /\ typed (files x')).
  { intros o Hc Ha.
    destruct (stdio_calls_return EmptyBuffProc end_fill (fun _ => true) 200 (fun _ _ => (0, 0)) (fun _ => 0) true None
      (SL := table_stdio_laws) (SO := buffer_source) (EM := EmptyBuffProc_Empties) (LL := whole_numbers_laws)
      (fun _ => eq_refl) o demo_process demo_well Hc) as (r & x' & E & Ht & _); [intros a Ea; congruence|].
    exists r, x'. split; [exact E | exact Ht]. }
  split_and!; apply H; try done.
  - eexists. split; [done|]. intros _ p s [= <-] _ [=].
  - eexists. split; [done|]. intros _ p s [= <-] [= <-] _. exists (b! "ab" ++ [10]). split; [|apply Nat.ltb_lt; by vm_compute].
    left. split_and!; first [by vm_compute | apply Nat.leb_le; by vm_compute].
  - split; [eexists; split; [done|]; intros _ p s [= <-] _ [=]|].
    exists demo_segs, []. split_and!; [done|done|apply demo_segs_ok|constructor|by vm_compute].
Defined.

(** The connection has no other request, and [accept] fails. *)
Definition demo_accepting : stdio (ST := table_stdio) :=
  set_fx (ST := table_stdio)
    (set_fos (mkOs 0 false false false demo_aio (mkKernel {[5 := demo_conn]} [AErr false 9] []))
       (fx demo_process)) demo_process.

Example failed_accept_dangles_witness :
  exists x', FCGI_Accept 200 (fun _ _ => (0, 0)) (fun _ => 0) true None demo_env demo_accepting = Ret (inr (-9), x') /\
    demo_run (Ofputc 65 FCGI_stdout) x' = Crash.
Proof.
  destruct (result_of_Ret (FCGI_Accept 200 (fun _ _ => (0, 0)) (fun _ => 0) true None demo_env demo_accepting)
    (inr (-9))) as [x' E]; [by vm_compute|].
  exists x'. split; [exact E|].
  refine (proj2 (proj2 (failed_accept_dangles EmptyBuffProc end_fill (fun _ => true) 200 (fun _ _ => (0, 0))
    (fun _ => 0) true None demo_env demo_accepting (-9) x' _ _ E _)) Out (Ofputc 65 FCGI_stdout) _ _); done.
Defined.

Example stdio_output_refines_witness :
  exists x', run_ops EmptyBuffProc end_fill (fun _ => true) 200 (fun _ _ => (0, 0)) (fun _ => 0) true None
      [Oputs (b! "hello"); Ofprintf FCGI_stdout (b! "n=%d, %+6.2f %*s%n %Lf|")
         [VInt (-5); VDouble (LC := whole_numbers) (Some 7); VInt (-4); VStr (Some (b! "ab")); VIntPtr 64;
          VLDouble (LC := whole_numbers) (-2000)];
       Ofwrite (b! "abcdef") 2 3 FCGI_stdout; Offlush (Some FCGI_stdout)] demo_process
      = Ret (map inr [10; 31; 3; 0], x') /\
    on_stream Out (holds_records demo_os demo_conn demo_request FCGI_STDOUT false
      (b! "hello" ++ [10] ++ b! "n=-5,  +7.00 ab   -2000.000000|" ++ b! "abcdef")) x'.
Proof.
  pose proof (records_sink demo_os demo_conn demo_request FCGI_STDOUT false
    eq_refl ltac:(by vm_compute) ltac:(by vm_compute)) as SK.
  assert (Ef : format_of demo_segs (b! "|") = b! "n=%d, %+6.2f %*s%n %Lf|") by (by vm_compute).
  assert (Eo : output_of demo_segs (b! "|") = b! "n=-5,  +7.00 ab   -2000.000000|") by (by vm_compute).
  apply (stdio_output_refines EmptyBuffProc end_fill (fun _ => true) 200 (fun _ _ => (0, 0)) (fun _ => 0) true None
    (SK := SK WriteCloseRecords) (LL := whole_numbers_laws)
    (fun _ => eq_refl)
    [Oputs (b! "hello"); Ofprintf FCGI_stdout (b! "n=%d, %+6.2f %*s%n %Lf|")
       [VInt (-5); VDouble (LC := whole_numbers) (Some 7); VInt (-4); VStr (Some (b! "ab")); VIntPtr 64;
          VLDouble (LC := whole_numbers) (-2000)];
     Ofwrite (b! "abcdef") 2 3 FCGI_stdout; Offlush (Some FCGI_stdout)] [10; 31; 3; 0]
    (b! "hello" ++ [10] ++ b! "n=-5,  +7.00 ab   -2000.000000|" ++ b! "abcdef") []).
  - change (b! "hello" ++ [10] ++ b! "n=-5,  +7.00 ab   -2000.000000|" ++ b! "abcdef")
      with ((cstr (b! "hello") ++ [10]) ++ b! "n=-5,  +7.00 ab   -2000.000000|" ++ b! "abcdef" ++ [] ++ []).
    rewrite <- Ef, <- Eo. change 31 with (Z.of_nat 31).
    replace 31%nat with (length (output_of demo_segs (b! "|"))) by (by vm_compute).
    apply prints_cons; [by constructor|]. apply prints_cons.
    { apply (prints_fprintf demo_segs (b! "|")); [apply demo_segs_ok|by repeat constructor|by vm_compute]. }
    repeat apply prints_cons; try apply prints_nil; by constructor.
  - split; [done|]. eexists. split; [done|]. apply NewWriter_holds; [lia|done|done|]. repeat constructor.
Defined.

Example FCGI_gets_reads_line_witness :
  exists x', FCGI_gets (ST := table_stdio) end_fill 3 demo_process = Ret (Some (b! "ab"), x') /\
    on_stream In (feeds (reads := buffered) (ended := fun y => isClosed (strm y) = true) []) x'.
Proof.
  apply (FCGI_gets_reads_line end_fill (SO := buffer_source) 3 (b! "ab" ++ [10]) demo_process).
  - split; [done|]. eexists. split; [done|]. left. split_and!; first [by vm_compute | apply Nat.leb_le; by vm_compute].
  - repeat constructor; cbn; lia.
Defined.

(** A write that fails reports [(size_t) -1 / size] items, not 0. *)
Example failed_fwrite_reports_items :
  result_of (demo_run (Ofwrite (b! "x") 1 1 FCGI_stdin) demo_process) = Some (inr (2 ^ 64 - 1)).
Proof. by vm_compute. Qed.
