(* ===== verification/BaseEscape.v ===== *)
(** Escaping of text: the functors of src/base/escape.h and the bit mask of
    src/base/charmask.h.  Strings are lists of bytes; a [char] and its conversion to
    [unsigned char] are the same byte. *)
From Stdlib Require Import ZArith Lia Bool String.
From stdpp Require Import base list numbers.
From S2P Require Import Prelude.

(** ** Character by character *)

(** The loop all functors but XmlEscape and UrlQueryEscape share: [esc] is their
    [switch]. *)
Definition escape_with (esc : Z -> list Z) (s : list Z) : list Z := concat (map esc s).

Definition html_char (c : Z) : list Z :=
  if c =? 38 then b! "&amp;"
  else if c =? 34 then b! "&quot;"
  else if c =? 39 then b! "&#39;"
  else if c =? 60 then b! "&lt;"
  else if c =? 62 then b! "&gt;"
  else if (c =? 13) || (c =? 10) || (c =? 11) || (c =? 12) || (c =? 9) then [32]
  else [c].
Definition HtmlEscape : list Z -> list Z := escape_with html_char.

Definition pre_char (c : Z) : list Z :=
  if c =? 38 then b! "&amp;"
  else if c =? 34 then b! "&quot;"
  else if c =? 39 then b! "&#39;"
  else if c =? 60 then b! "&lt;"
  else if c =? 62 then b! "&gt;"
  else [c].
Definition PreEscape : list Z -> list Z := escape_with pre_char.

Definition js_char (c : Z) : list Z :=
  if c =? 34 then [92; 34]
  else if c =? 39 then [92; 39]
  else if c =? 92 then [92; 92]
  else if c =? 13 then b! "\r"
  else if c =? 10 then b! "\n"
  else if c =? 8 then b! "\b"
  else if c =? 38 then b! "\x26"
  else if c =? 60 then b! "\x3c"
  else if c =? 62 then b! "\x3e"
  else if c =? 61 then b! "\x3d"
  else [c].
Definition JavascriptEscape : list Z -> list Z := escape_with js_char.

Definition json_char (c : Z) : list Z :=
  if c =? 34 then [92; 34]
  else if c =? 92 then [92; 92]
  else if c =? 47 then b! "\/"
  else if c =? 8 then b! "\b"
  else if c =? 12 then b! "\f"
  else if c =? 10 then b! "\n"
  else if c =? 13 then b! "\r"
  else if c =? 9 then b! "\t"
  else [c].
Definition JsonEscape : list Z -> list Z := escape_with json_char.

(** ** XmlEscape *)

(** Does [s] begin with [pat]? *)
Fixpoint starts_with (pat s : list Z) : bool :=
  match pat, s with
  | [], _ => true
  | p :: pat, c :: s => (p =? c) && starts_with pat s
  | _, [] => false
  end.

(** [s.find (pat)]: the first position of [pat]. *)
Fixpoint find_str (pat s : list Z) : option nat :=
  if starts_with pat s then Some 0%nat
  else match s with
       | [] => None
       | _ :: s => S <$> find_str pat s
       end.

(** The loop: [find] from [pos] on, [replace], and on after the replacement. [done]
    is the string before [pos], [rest] the string from it on. *)
Fixpoint xml_loop (fuel : nat) (before rest : list Z) : outcome (list Z) :=
  match fuel with
  | O => NoFuel
  | S fuel =>
      match find_str (b! "&nbsp;") rest with
      | None => Ret (before ++ rest)
      | Some n => xml_loop fuel (before ++ take n rest ++ b! "&#160;") (drop (n + 6) rest)
      end
  end.
Definition XmlEscape (s : list Z) : outcome (list Z) := xml_loop (S (length s)) [] s.

(** ** UrlQueryEscape *)

Definition _safe_characters : list Z :=
  [0x00000000; 0x03fff702; 0x87fffffe; 0x47fffffe; 0; 0; 0; 0].

(** [_safe_characters[c >> 5] & (1 << (c & 31))]: the shift is of an [int], converted
    to [unsigned long] with its sign. *)
Definition url_safe (c : Z) : bool :=
  negb (Z.land (nth (Z.to_nat (Z.shiftr c 5)) _safe_characters 0)
          (u64 (s32 (Z.shiftl 1 (Z.land c 31)))) =? 0).

Definition hex_digit (d : Z) : Z := if d <? 10 then d + 48 else d - 10 + 65.

Definition url_char (c : Z) : list Z :=
  if c =? 32 then [43]
  else if url_safe c then [c]
  else [37; hex_digit (Z.shiftr c 4); hex_digit (Z.land c 15)].

(** The characters written to [out], which has room for [3 * size + 1], with the NUL;
    the result is the C string there. *)
Definition UrlQueryEscape (s : list Z) : outcome (list Z) :=
  let out := escape_with url_char s ++ [0] in
  if (length out <=? length s * 3 + 1)%nat then Ret (cstr out) else Crash.

(** ** CharMask *)

Definition CharMask := list Z.

Definition contains (c : Z) (m : CharMask) : bool :=
  negb (Z.land (nth (Z.to_nat (Z.shiftr c 5)) m 0) (u32 (s32 (Z.shiftl 1 (Z.land c 31)))) =? 0).

Definition mask_set (c : Z) (flag : bool) (m : CharMask) : CharMask :=
  let i := Z.to_nat (Z.shiftr c 5) in
  let bit := s32 (Z.shiftl 1 (Z.land c 31)) in
  if flag then <[i := Z.lor (nth i m 0) (u32 bit)]> m
  else <[i := Z.land (nth i m 0) (u32 (Z.lnot bit))]> m.

(** ** Readers of the escaped forms *)

Definition hex_digit_value (d : Z) : option Z :=
  if (48 <=? d) && (d <=? 57) then Some (d - 48)
  else if (97 <=? d) && (d <=? 102) then Some (d - 97 + 10)
  else if (65 <=? d) && (d <=? 70) then Some (d - 65 + 10)
  else None.

(** A character read, put before what the rest of a literal reads as. *)
Definition and_then (v : Z) (r : option (list Z * list Z)) : option (list Z * list Z) :=
  prod_map (cons v) id <$> r.

(** The escape sequences of a JSON string but for [\u] (RFC 8259, section 7). *)
Definition json_escapes : list (Z * Z) :=
  [(34, 34); (92, 92); (47, 47); (98, 8); (102, 12); (110, 10); (114, 13); (116, 9)].

(** The single escape characters of ECMAScript. *)
Definition js_escapes : list (Z * Z) :=
  [(34, 34); (39, 39); (92, 92); (98, 8); (102, 12); (110, 10); (114, 13); (116, 9); (118, 11)].

Definition escape_value (table : list (Z * Z)) (e : Z) : option Z :=
  snd <$> List.find (fun p => fst p =? e) table.

(** A JSON string from behind its opening quotation mark: what it stands for, and
    the text behind its closing one.  As in RFC 8259, a quotation mark ends the
    string, a control character is not allowed in it, and a backslash is
    only before one of the characters listed.  ([\u] is not read.) *)
Fixpoint json_read (s : list Z) : option (list Z * list Z) :=
  match s with
  | [] => None
  | c :: s =>
      if c =? 34 then Some ([], s)
      else if c <? 32 then None
      else if c =? 92 then
        match s with
        | [] => None
        | e :: s => v ← escape_value json_escapes e; and_then v (json_read s)
        end
      else and_then c (json_read s)
  end.

(** A JavaScript string literal from behind its opening quote [q], which is a
    double or a single one.  As in ECMAScript, [q] ends the literal, a line
    terminator is not allowed in it, [\x] is before two hexadecimal digits, and any
    other character behind a backslash is either a single escape character or stands
    for itself.  (A backslash before a digit, a [u] or a line terminator is not
    read.) *)
Fixpoint js_read (q : Z) (s : list Z) : option (list Z * list Z) :=
  match s with
  | [] => None
  | c :: s =>
      if c =? q then Some ([], s)
      else if (c =? 10) || (c =? 13) then None
      else if c =? 92 then
        match s with
        | [] => None
        | e :: s =>
            if e =? 120 then
              match s with
              | h :: l :: s =>
                  h ← hex_digit_value h; l ← hex_digit_value l; and_then (16 * h + l) (js_read q s)
              | _ => None
              end
            else if ((48 <=? e) && (e <=? 57)) || (e =? 117) || (e =? 10) || (e =? 13) then None
            else and_then (default e (escape_value js_escapes e)) (js_read q s)
        end
      else and_then c (js_read q s)
  end.

(** The control characters JsonEscape has no escape for. *)
Definition json_has_escape (c : Z) : bool :=
  (32 <=? c) || (c =? 8) || (c =? 9) || (c =? 10) || (c =? 12) || (c =? 13).

(** The characters that are not to appear in a script that is part of a page, and
    the controls the comment of JavascriptEscape names. *)
Definition script_safe (c : Z) : bool :=
  forallb (fun d => negb (c =? d)) [38; 60; 62; 61; 8; 10; 13].

(** In [s], which follows the character [before], every slash is behind a backslash. *)
Fixpoint slashes_escaped (before : Z) (s : list Z) : bool :=
  match s with
  | [] => true
  | c :: s => (negb (c =? 47) || (before =? 92)) && slashes_escaped c s
  end.

Definition hex_value (d : Z) : Z := if d <? 58 then d - 48 else d - 65 + 10.

(** Decoding of a query string: '+' is a space, %XX a byte. *)
Fixpoint url_decode (s : list Z) : list Z :=
  match s with
  | [] => []
  | c :: s =>
      if c =? 43 then 32 :: url_decode s
      else if c =? 37 then
        match s with
        | h :: l :: s => hex_value h * 16 + hex_value l :: url_decode s
        | _ => c :: url_decode s
        end
      else c :: url_decode s
  end.

(** ** Lemmas *)

Lemma escape_with_app esc s t : escape_with esc (s ++ t) = escape_with esc s ++ escape_with esc t.
Proof. unfold escape_with. by rewrite map_app, concat_app. Qed.

(** A property that the escape of every byte has, the escape of a string has. *)
Lemma escape_with_forall (P : Z -> bool) esc s :
  forallb (fun c => forallb P (esc c)) (seqZ 0 256) = true -> Forall is_byte s ->
  Forall (fun c => P c = true) (escape_with esc s).
Proof.
  intros H. induction 1 as [|c s Hc _ IH]; [constructor|]. unfold escape_with; cbn.
  apply Forall_app. split; [|exact IH].
  pose proof (is_byte_forall (fun c => forallb P (esc c)) H c Hc) as He. cbn in He.
  apply List.Forall_forall. by apply forallb_forall.
Qed.

(** Case analysis on the character a functor switches on. *)
Ltac switch_char :=
  repeat match goal with
  | |- context [if ?a =? ?b then _ else _] => destruct (Z.eqb_spec a b); [subst; cbn|]
  end.

(** Reading back what a character is escaped to gives the character. *)
Lemma json_read_char c s : is_byte c ->
  json_read (json_char c ++ s) = if json_has_escape c then and_then c (json_read s) else None.
Proof.
  intros Hc. unfold json_char. switch_char; try done. cbn.
  destruct (Z.eqb_spec c 34); [lia|]. unfold json_has_escape.
  destruct (Z.ltb_spec c 32), (Z.leb_spec 32 c); try lia; cbn;
    repeat match goal with |- context [c =? ?b] => destruct (Z.eqb_spec c b); [lia|] end; done.
Qed.

Lemma js_read_char q c s : q = 34 \/ q = 39 -> is_byte c ->
  js_read q (js_char c ++ s) = and_then c (js_read q s).
Proof.
  intros [-> | ->] Hc; unfold js_char; switch_char; try done; cbn [app js_read];
    by repeat match goal with |- context [c =? ?b] => destruct (Z.eqb_spec c b); [done|] end.
Qed.

Lemma slashes_escaped_char c b s :
  (slashes_escaped (List.last (json_char c) b) s = true) ->
  slashes_escaped b (json_char c ++ s) = true.
Proof.
  unfold json_char. switch_char; try done. cbn. by destruct (Z.eqb_spec c 47).
Qed.

Lemma slashes_escaped_weaken b s : b <> 92 -> slashes_escaped b s = true ->
  forall b', slashes_escaped b' s = true.
Proof.
  destruct s as [|c s]; [done|]. cbn. intros Hb H b'. apply andb_true_iff in H as [H ->].
  destruct (Z.eqb_spec b 92); [done|]. by destruct (c =? 47).
Qed.

(** C36.  The text the functors make can be put between quotes, before any text, and
    stands for the string it was made from.  A JSON parser that reads the text JsonEscape
    makes, a quotation mark and any rest gets the string, byte for byte, with that rest left over,
    unless the string has a control character other than the five that the functor
    escapes, which such a parser refuses.  A JavaScript parser that reads
    the text JavascriptEscape makes between quotes of either kind gets the string and
    stops at the closing quote, for every string.  Also, JsonEscape leaves no slash without a
    backslash, so that its text cannot close a script element, and the text of
    JavascriptEscape has none of the characters & < > = of the markup around a script, and no
    line feed, carriage return or backspace. *)
Theorem js_escapes_roundtrip s rest :
  Forall is_byte s ->
  json_read (JsonEscape s ++ 34 :: rest)
    = (if forallb json_has_escape s then Some (s, rest) else None) /\
  slashes_escaped 0 (JsonEscape s) = true /\
  (forall q, q = 34 \/ q = 39 -> js_read q (JavascriptEscape s ++ q :: rest) = Some (s, rest)) /\
  Forall (fun c => script_safe c = true) (JavascriptEscape s).
Proof.
  intros Hs. unfold JsonEscape, JavascriptEscape. split_and!.
  - induction Hs as [|c s Hc _ IH]; [done|]. unfold escape_with in *. cbn [map concat forallb].
    rewrite <- app_assoc, json_read_char, IH by done. by destruct (json_has_escape c), (forallb _ s).
  - induction Hs as [|c s _ _ IH]; [done|]. unfold escape_with in *. cbn [map concat].
    apply slashes_escaped_char. by apply (slashes_escaped_weaken 0).
  - intros q Hq. induction Hs as [|c s Hc _ IH]; [cbn; by rewrite Z.eqb_refl|].
    unfold escape_with in *. cbn [map concat]. by rewrite <- app_assoc, js_read_char, IH.
  - by apply escape_with_forall.
Qed.

Lemma js_escapes_roundtrip_witness :
  json_read (JsonEscape (b! "</a>\'" ++ [10; 34; 8; 12; 200]) ++ 34 :: b! ", 1]")
    = Some (b! "</a>\'" ++ [10; 34; 8; 12; 200], b! ", 1]") /\
  js_read 39 (JavascriptEscape (b! "</a>\'" ++ [10; 34; 8; 12; 200]) ++ 39 :: b! ", 1]")
    = Some (b! "</a>\'" ++ [10; 34; 8; 12; 200], b! ", 1]").
Proof.
  destruct (js_escapes_roundtrip (b! "</a>\'" ++ [10; 34; 8; 12; 200]) (b! ", 1]")) as (H & _ & H' & _).
  { repeat constructor; unfold is_byte; cbn; lia. }
  split; [exact H|]. apply H'. by right.
Defined.

(** A string with another control character does not make a JSON string. *)
Example JsonEscape_leaves_controls :
  JsonEscape [97; 1] = [97; 1] /\ json_read (JsonEscape [97; 1] ++ [34]) = None.
Proof. done. Qed.

(** ** HTML *)

(** Decoding of the character references the functors produce. *)
Definition entities : list (list Z * Z) :=
  [(b! "&amp;", 38); (b! "&quot;", 34); (b! "&#39;", 39); (b! "&lt;", 60); (b! "&gt;", 62)].

Fixpoint match_entity (es : list (list Z * Z)) (s : list Z) : option (Z * nat) :=
  match es with
  | [] => None
  | (e, v) :: es => if starts_with e s then Some (v, length e) else match_entity es s
  end.

Fixpoint html_unescape (fuel : nat) (s : list Z) : list Z :=
  match fuel, s with
  | S fuel, c :: t =>
      match match_entity entities s with
      | Some (v, n) => v :: html_unescape fuel (drop n s)
      | None => c :: html_unescape fuel t
      end
  | _, _ => []
  end.

(** What HtmlEscape makes of white space. *)
Definition html_space (c : Z) : Z :=
  if (c =? 13) || (c =? 10) || (c =? 11) || (c =? 12) || (c =? 9) then 32 else c.

Definition html_special (c : Z) : bool := (c =? 34) || (c =? 39) || (c =? 60) || (c =? 62).

Lemma starts_with_amp e v s c :
  In (e, v) entities -> starts_with e (c :: s) = true -> c = 38.
Proof.
  intros He. repeat (destruct He as [[= <- <-]|He];
    [intros [H _]%andb_true_iff; apply Z.eqb_eq in H; by symmetry|]). destruct He.
Qed.

Lemma match_entity_plain c s : c <> 38 -> match_entity entities (c :: s) = None.
Proof.
  intros Hc. assert (forall es, incl es entities -> match_entity es (c :: s) = None) as H;
    [|apply H, incl_refl].
  induction es as [|[e v] es IH]; intros Hi; [done|]. cbn [match_entity].
  destruct (starts_with e (c :: s)) eqn:E.
  - exfalso. apply Hc. eapply starts_with_amp; [|exact E]. apply Hi. by left.
  - apply IH. intros x Hx. apply Hi. by right.
Qed.

Lemma html_unescape_char (esc : Z -> list Z) (f : Z -> Z) c s fuel :
  (esc = html_char /\ f = html_space \/ esc = pre_char /\ f = (fun c => c)) ->
  html_unescape (S fuel) (esc c ++ s) = f c :: html_unescape fuel s.
Proof.
  intros He.
  assert (forall x, x <> 38 -> html_unescape (S fuel) ([x] ++ s) = x :: html_unescape fuel s) as Hplain.
  { intros x Hx. cbn [app html_unescape]. by rewrite match_entity_plain. }
  assert (forall e v, In (e, v) entities ->
    html_unescape (S fuel) (e ++ s) = v :: html_unescape fuel s) as Hent.
  { intros e v Hin. repeat (destruct Hin as [[= <- <-]|Hin]; [reflexivity|]). destruct Hin. }
  destruct He as [[-> ->]|[-> ->]]; unfold html_char, pre_char, html_space.
  all: destruct (Z.eqb_spec c 38); [subst; apply Hent; cbn; tauto|].
  all: destruct (Z.eqb_spec c 34); [subst; apply Hent; cbn; tauto|].
  all: destruct (Z.eqb_spec c 39); [subst; apply Hent; cbn; tauto|].
  all: destruct (Z.eqb_spec c 60); [subst; apply Hent; cbn; tauto|].
  all: destruct (Z.eqb_spec c 62); [subst; apply Hent; cbn; tauto|].
  - destruct (_ || _); by apply Hplain.
  - by apply Hplain.
Qed.

(** C37.  HtmlEscape and PreEscape neutralise markup and keep the text: no quote and no
    angle bracket is left, and a reader of the character references gets back the
    text, exactly for PreEscape and with line breaks and tabs as spaces for
    HtmlEscape. *)
Theorem html_escapes_safe_and_faithful s :
  Forall is_byte s ->
  Forall (fun c => html_special c = false) (HtmlEscape s) /\
  Forall (fun c => html_special c = false) (PreEscape s) /\
  html_unescape (length s) (HtmlEscape s) = map html_space s /\
  html_unescape (length s) (PreEscape s) = s.
Proof.
  intros Hs. unfold HtmlEscape, PreEscape.
  assert (forall esc, forallb (fun c => forallb (fun x => negb (html_special x)) (esc c)) (seqZ 0 256) = true ->
    Forall (fun c => html_special c = false) (escape_with esc s)) as Hsafe.
  { intros esc H. pose proof (escape_with_forall _ _ s H Hs) as HF.
    eapply List.Forall_impl; [|exact HF]. cbn. intros x. apply negb_true_iff. }
  split_and!; [apply Hsafe; by vm_compute..| |]; clear Hs Hsafe; unfold escape_with.
  - induction s as [|c s IH]; [done|]. cbn [map concat length].
    rewrite (html_unescape_char _ html_space) by (by left). by rewrite IH.
  - induction s as [|c s IH]; [done|]. cbn [map concat length].
    rewrite (html_unescape_char _ (fun c => c)) by (by right). by rewrite IH.
Qed.

Lemma html_escapes_safe_and_faithful_witness :
  Forall (fun c => html_special c = false) (HtmlEscape (b! "<a href='x'>" ++ [10; 38])) /\
  Forall (fun c => html_special c = false) (PreEscape (b! "<a href='x'>" ++ [10; 38])) /\
  html_unescape 14 (HtmlEscape (b! "<a href='x'>" ++ [10; 38])) = b! "<a href='x'>" ++ [32; 38] /\
  html_unescape 14 (PreEscape (b! "<a href='x'>" ++ [10; 38])) = b! "<a href='x'>" ++ [10; 38].
Proof.
  apply (html_escapes_safe_and_faithful (b! "<a href='x'>" ++ [10; 38])).
  repeat constructor; unfold is_byte; cbn; lia.
Defined.

(** ** URLs *)

(** The characters of an escaped query: the unreserved ones of the comment, '+' and
    the percent sign. *)
Definition url_plain (c : Z) : bool :=
  existsb (Z.eqb c) (b! "0123456789ABCDEFGHIJKLMNOPQRSTUVWXYZabcdefghijklmnopqrstuvwxyz.,_*/~!()-").
Definition url_out (c : Z) : bool := url_plain c || (c =? 43) || (c =? 37).

Lemma url_decode_char c s : is_byte c -> url_decode (url_char c ++ s) = c :: url_decode s.
Proof.
  intros Hc.
  assert ((let e := url_char c in
    match e with
    | [x] => ((x =? 43) && (c =? 32)) || (negb (x =? 43) && negb (x =? 37) && (x =? c))
    | [p; h; l] => (p =? 37) && (hex_value h * 16 + hex_value l =? c)
    | _ => false
    end) = true) as H.
  { apply (is_byte_forall (fun c => let e := url_char c in
      match e with
      | [x] => ((x =? 43) && (c =? 32)) || (negb (x =? 43) && negb (x =? 37) && (x =? c))
      | [p; h; l] => (p =? 37) && (hex_value h * 16 + hex_value l =? c)
      | _ => false
      end)); [by vm_compute|done]. }
  cbn zeta in H. destruct (url_char c) as [|x [|h [|l [|? ?]]]]; try done; cbn [app url_decode].
  - destruct (Z.eqb_spec x 43); [subst; cbn in H; f_equal; lia|].
    destruct (Z.eqb_spec x 37); cbn in H; [lia|]. f_equal. lia.
  - apply andb_true_iff in H as [->%Z.eqb_eq H]. cbn. f_equal. lia.
Qed.

Lemma length_url_char c : (length (url_char c) <= 3)%nat.
Proof. unfold url_char. destruct (c =? 32); [cbn; lia|]. destruct (url_safe c); cbn; lia. Qed.

Lemma UrlQueryEscape_text s :
  Forall is_byte s ->
  UrlQueryEscape s = Ret (escape_with url_char s) /\
  Forall (fun c => url_out c = true) (escape_with url_char s).
Proof.
  intros Hs. unfold UrlQueryEscape.
  assert (Forall (fun c => url_out c = true) (escape_with url_char s)) as Hout
    by (apply escape_with_forall; [by vm_compute|done]).
  assert (length (escape_with url_char s) <= length s * 3)%nat as Hlen.
  { clear. unfold escape_with. induction s as [|c s IH]; [done|]. cbn [map concat length].
    rewrite length_app. pose proof (length_url_char c). lia. }
  rewrite length_app. cbn [length].
  destruct (Nat.leb_spec (length (escape_with url_char s) + 1) (length s * 3 + 1)); [|lia].
  split; [|done]. rewrite cstr_nonzero_app; [done|].
  eapply List.Forall_impl; [|exact Hout]. cbn. intros c Hc ->. done.
Qed.

(**  UrlQueryEscape stays within the array it allocates, leaves only the
    characters its comment calls safe besides '+' and '%', and loses nothing: decoding
    the query gives back the string, also when it contains NUL bytes. *)
Theorem UrlQueryEscape_roundtrip s :
  Forall is_byte s ->
  exists r, UrlQueryEscape s = Ret r /\ Forall (fun c => url_out c = true) r /\ url_decode r = s.
Proof.
  intros Hs. destruct (UrlQueryEscape_text s Hs) as [-> Hout].
  exists (escape_with url_char s). split_and!; try done.
  clear -Hs. unfold escape_with. induction Hs as [|c s Hc _ IH]; [done|]. cbn [map concat].
  rewrite url_decode_char by done. by rewrite IH.
Qed.

Lemma UrlQueryEscape_roundtrip_witness :
  exists r, UrlQueryEscape (b! "a b&c:=%" ++ [0; 255]) = Ret r /\
    Forall (fun c => url_out c = true) r /\ url_decode r = b! "a b&c:=%" ++ [0; 255].
Proof.
  apply (UrlQueryEscape_roundtrip (b! "a b&c:=%" ++ [0; 255])).
  repeat constructor; unfold is_byte; cbn; lia.
Defined.

(** ** XML *)

(** Every "&nbsp;" replaced, from left to right. *)
Fixpoint xml_spec (fuel : nat) (s : list Z) : list Z :=
  match fuel, s with
  | S fuel, c :: t =>
      if starts_with (b! "&nbsp;") s then b! "&#160;" ++ xml_spec fuel (drop 6 s)
      else c :: xml_spec fuel t
  | _, _ => []
  end.

Lemma starts_with_length pat s : starts_with pat s = true -> (length pat <= length s)%nat.
Proof.
  revert s. induction pat as [|p pat IH]; intros [|c s]; cbn; try lia; try done.
  intros [_ H]%andb_true_iff. apply IH in H. lia.
Qed.

Lemma find_str_xml s fuel :
  (length s <= fuel)%nat ->
  match find_str (b! "&nbsp;") s with
  | None => xml_spec fuel s = s
  | Some n => (n + 6 <= length s)%nat /\ exists f, (length (drop (n + 6) s) <= f)%nat /\
      xml_spec fuel s = take n s ++ b! "&#160;" ++ xml_spec f (drop (n + 6) s)
  end.
Proof.
  set (pat := b! "&nbsp;"). assert (length pat = 6%nat) as Hpat by done.
  assert (forall f c t, xml_spec (S f) (c :: t) =
    if starts_with pat (c :: t) then b! "&#160;" ++ xml_spec f (drop 6 (c :: t)) else c :: xml_spec f t)
    as Heq by done. clearbody pat.
  revert fuel. induction s as [|c s IH]; intros fuel Hf.
  { cbn [find_str]. destruct (starts_with pat []) eqn:E.
    - apply starts_with_length in E. rewrite Hpat in E. cbn in E. lia.
    - by destruct fuel. }
  destruct fuel as [|fuel]; cbn [length] in Hf; [lia|]. cbn [find_str]. rewrite Heq.
  destruct (starts_with pat (c :: s)) eqn:E.
  - apply starts_with_length in E. rewrite Hpat in E. split; [cbn [length] in *; lia|].
    exists fuel. split; [|done]. rewrite length_drop. cbn [length] in *. lia.
  - specialize (IH fuel ltac:(lia)). destruct (find_str pat s) as [n|]; cbn [fmap option_fmap option_map].
    + destruct IH as (Hn & f & Hl & ->). split; [cbn [length]; lia|]. by exists f.
    + by rewrite IH.
Qed.

Lemma xml_loop_spec fuel before rest :
  (length rest < fuel)%nat -> xml_loop fuel before rest = Ret (before ++ xml_spec (length rest) rest).
Proof.
  revert before rest. induction fuel as [|fuel IH]; intros before rest Hf; [lia|]. cbn [xml_loop].
  pose proof (find_str_xml rest) as H. destruct (find_str (b! "&nbsp;") rest) as [n|].
  - destruct (H (length rest) ltac:(lia)) as (Hn & f & Hl & ->).
    assert (forall f1 f2 s, (length s <= f1)%nat -> (length s <= f2)%nat -> xml_spec f1 s = xml_spec f2 s) as Hfuel.
    { clear. induction f1 as [|f1 IHf]; intros f2 s H1 H2.
      - destruct s; cbn in H1; [|lia]. by destruct f2.
      - destruct s as [|c s]; [by destruct f2|]. destruct f2 as [|f2]; cbn [length] in *; [lia|].
        cbn [xml_spec]. destruct (starts_with _ _).
        + f_equal. apply IHf; rewrite length_drop; cbn [length]; lia.
        + f_equal. apply IHf; lia. }
    rewrite IH by (rewrite length_drop; lia).
    rewrite (Hfuel f (length (drop (n + 6) rest))) by lia.
    by rewrite <-!app_assoc.
  - by rewrite (H (length rest)) by lia.
Qed.

(**  XmlEscape terminates on every string and replaces exactly the occurrences of
    "&nbsp;", found from left to right, by "&#160;". *)
Theorem XmlEscape_replaces s : XmlEscape s = Ret (xml_spec (length s) s).
Proof. unfold XmlEscape. by rewrite xml_loop_spec by lia. Qed.

(** ** Bit masks *)

Definition mask_ok (m : CharMask) : Prop := length m = 8%nat /\ Forall (fun w => 0 <= w < 2 ^ 32) m.

Lemma mask_bit k : 0 <= k < 32 -> u32 (s32 (Z.shiftl 1 k)) = 2 ^ k.
Proof.
  intros Hk. rewrite Z.shiftl_1_l. unfold u32, s32.
  assert (2 ^ k < 2 ^ 32) by (apply Z.pow_lt_mono_r; lia).
  assert (0 < 2 ^ k) by (apply Z.pow_pos_nonneg; lia).
  rewrite Zminus_mod_idemp_l, Z.add_simpl_r. apply Z.mod_small. lia.
Qed.

Lemma land_pow2_testbit w k : 0 <= k -> negb (Z.land w (2 ^ k) =? 0) = Z.testbit w k.
Proof.
  intros Hk. destruct (Z.testbit w k) eqn:E.
  - apply negb_true_iff, Z.eqb_neq. intros H.
    apply (f_equal (fun z => Z.testbit z k)) in H.
    rewrite Z.land_spec, E, Z.pow2_bits_true, Z.bits_0 in H by done. done.
  - apply negb_false_iff, Z.eqb_eq. apply Z.bits_inj_0. intros n. rewrite Z.land_spec.
    destruct (decide (n = k)) as [->|Hn]; [by rewrite E|].
    rewrite Z.pow2_bits_false by done. by rewrite andb_false_r.
Qed.

(** The word and the bit of a character. *)
Lemma char_index c :
  is_byte c -> 0 <= Z.shiftr c 5 < 8 /\ 0 <= Z.land c 31 < 32 /\ c = Z.shiftr c 5 * 32 + Z.land c 31.
Proof.
  intros Hc. unfold is_byte in Hc. rewrite Z.shiftr_div_pow2 by lia.
  change 31 with (Z.ones 5). rewrite Z.land_ones by lia. change (2 ^ 5) with 32.
  pose proof (Z.div_mod c 32). pose proof (Z.mod_pos_bound c 32). lia.
Qed.

Lemma contains_testbit c m :
  is_byte c -> contains c m = Z.testbit (nth (Z.to_nat (Z.shiftr c 5)) m 0) (Z.land c 31).
Proof.
  intros Hc. destruct (char_index c Hc) as (_ & Hb & _). unfold contains.
  rewrite mask_bit by done. apply land_pow2_testbit. lia.
Qed.

Lemma mask_set_word c f m :
  is_byte c -> mask_ok m ->
  exists w, mask_set c f m = <[Z.to_nat (Z.shiftr c 5) := w]> m /\ 0 <= w < 2 ^ 32 /\
    forall k, 0 <= k < 32 -> Z.testbit w k =
      if decide (k = Z.land c 31) then f else Z.testbit (nth (Z.to_nat (Z.shiftr c 5)) m 0) k.
Proof.
  intros Hc [Hl Hw]. destruct (char_index c Hc) as (Hi & Hb & _). unfold mask_set.
  set (i := Z.to_nat _). set (b := Z.land c 31) in *. set (w0 := nth i m 0).
  assert (0 <= w0 < 2 ^ 32) as Hw0.
  { unfold w0. rewrite List.Forall_forall in Hw. apply Hw, nth_In. unfold i. lia. }
  assert (Z.testbit w0 = fun k => Z.testbit (w0 mod 2 ^ 32) k) as Hmod
    by (by rewrite Z.mod_small).
  destruct f.
  - exists (Z.lor w0 (2 ^ b)). rewrite mask_bit by done. split; [done|]. split.
    + split; [apply Z.lor_nonneg; split; [lia|apply Z.pow_nonneg; lia]|].
      assert (Z.lor w0 (2 ^ b) = Z.lor w0 (2 ^ b) mod 2 ^ 32) as ->; [|apply Z.mod_pos_bound; lia].
      apply Z.bits_inj'. intros n Hn. destruct (decide (n < 32)).
      * by rewrite Z.mod_pow2_bits_low by lia.
      * rewrite Z.mod_pow2_bits_high by lia. rewrite Z.lor_spec, Hmod, Z.mod_pow2_bits_high by lia.
        rewrite Z.pow2_bits_false by lia. done.
    + intros k Hk. rewrite Z.lor_spec. case_decide as E.
      * subst k. rewrite Z.pow2_bits_true by lia. by rewrite orb_true_r.
      * rewrite Z.pow2_bits_false by done. by rewrite orb_false_r.
  - exists (Z.land w0 (u32 (Z.lnot (s32 (Z.shiftl 1 b))))). split; [done|].
    assert (forall k, 0 <= k < 32 ->
      Z.testbit (u32 (Z.lnot (s32 (Z.shiftl 1 b)))) k = negb (bool_decide (k = b))) as Hbits.
    { intros k Hk. unfold u32. rewrite Z.mod_pow2_bits_low, Z.lnot_spec by lia. f_equal.
      rewrite <-(Z.mod_pow2_bits_low (s32 _) 32) by lia.
      change (s32 (Z.shiftl 1 b) mod 2 ^ 32) with (u32 (s32 (Z.shiftl 1 b))).
      rewrite mask_bit by done. rewrite Z.pow2_bits_eqb by lia.
      destruct (Z.eqb_spec b k); [by rewrite bool_decide_true|by rewrite bool_decide_false]. }
    split.
    + assert (Z.land w0 (u32 (Z.lnot (s32 (Z.shiftl 1 b))))
        = Z.land w0 (u32 (Z.lnot (s32 (Z.shiftl 1 b)))) mod 2 ^ 32) as ->; [|apply Z.mod_pos_bound; lia].
      apply Z.bits_inj'. intros n Hn. destruct (decide (n < 32)).
      * by rewrite Z.mod_pow2_bits_low by lia.
      * rewrite Z.mod_pow2_bits_high by lia. rewrite Z.land_spec, Hmod, Z.mod_pow2_bits_high by lia. done.
    + intros k Hk. rewrite Z.land_spec, Hbits by done. case_decide as E.
      * rewrite bool_decide_true by done. by rewrite andb_false_r.
      * rewrite bool_decide_false by done. by rewrite andb_true_r.
Qed.

(** A CharMask is a set of characters: after [set (c, flag)] it contains [c] iff
    [flag], and every other character as before. *)
Theorem CharMask_set_contains c c' f m :
  is_byte c -> is_byte c' -> mask_ok m ->
  mask_ok (mask_set c f m) /\
  contains c' (mask_set c f m) = if decide (c' = c) then f else contains c' m.
Proof.
  intros Hc Hc' Hm. unfold CharMask in *. destruct (mask_set_word c f m Hc Hm) as (w & -> & Hw & Hbits).
  unfold CharMask in *. destruct Hm as [Hl HF]. destruct (char_index c Hc) as (Hi & Hb & Hce).
  destruct (char_index c' Hc') as (Hi' & Hb' & Hce'). split.
  - split; [by rewrite length_insert|]. by apply Forall_insert.
  - rewrite !contains_testbit by done. set (i := Z.to_nat (Z.shiftr c 5)) in *.
    set (i' := Z.to_nat (Z.shiftr c' 5)) in *.
    rewrite !nth_lookup. destruct (decide (i' = i)) as [E|E].
    + rewrite E, list_lookup_insert_eq by (unfold i; lia). cbn [default]. rewrite Hbits by done.
      rewrite nth_lookup. case_decide; case_decide; try done; [|subst c'; done].
      assert (Z.shiftr c' 5 = Z.shiftr c 5) by (unfold i, i' in E; lia). lia.
    + rewrite list_lookup_insert_ne by done.
      rewrite decide_False; [done|]. intros Heq; apply E; unfold i, i'; by rewrite Heq.
Qed.

Lemma CharMask_set_contains_witness :
  mask_ok (mask_set 200 true (replicate 8 5)) /\
  contains 31 (mask_set 200 true (replicate 8 5)) = if decide (31 = 200) then true else contains 31 (replicate 8 5).
Proof.
  apply (CharMask_set_contains 200 31 true (replicate 8 5)).
  - unfold is_byte; lia.
  - unfold is_byte; lia.
  - split; [reflexivity|]. repeat constructor; lia.
Defined.
