(* ===== verification/BaseUrl.v ===== *)
(** URLs: src/base/url.h and url.cc, with strlwr, strnicmp and itoa of base/port.h.

    A C string is the list of its bytes without the NUL; a buffer that is read by index is
    the list of all its bytes.  [Parse] returns its result and the object it leaves.
    The branch for Windows of FingerPrint and the one for GSG_LOW_PRIVACY are not
    compiled. *)
From Stdlib Require Import ZArith Lia Bool String.
From stdpp Require Import base list numbers.
From S2P Require Import Prelude.
From S2P Require Import Clib.
From S2P Require Import BaseEscape.

(** ** Strings *)

(** [s.find (c, pos)] and [s.substr (pos, n)], where [None] is [npos]. *)
Fixpoint index_of (c : Z) (s : list Z) : option nat :=
  match s with
  | [] => None
  | x :: s => if x =? c then Some 0%nat else S <$> index_of c s
  end.
Definition find (c : Z) (s : list Z) (pos : nat) : option nat :=
  Nat.add pos <$> index_of c (drop pos s).
Definition substr (s : list Z) (pos : nat) (n : option nat) : list Z :=
  match n with Some n => take n (drop pos s) | None => drop pos s end.

Definition strlwr (s : list Z) : list Z := map tolower s.
Definition strnicmp_is (s lit : list Z) : bool := starts_with lit (strlwr s).
Definition is_empty (s : list Z) : bool := match s with [] => true | _ => false end.

(** [atoi] of glibc: [strtol], which saturates, converted to [int]. *)
Definition atoi (s : list Z) : Z := s32 (Z.max (- 2 ^ 63) (Z.min (2 ^ 63 - 1) (atoll s))).

(** ** The class Url *)

Record Url := mkUrl {
  http_ : bool;
  user_ : list Z;
  password_ : list Z;
  host_ : list Z;
  port_ : Z;
  path_ : list Z;
  parameter_ : list Z;
  url_ : list Z;
  host_url_ : list Z;
  path_url_ : list Z
}.

Definition Clear : Url := mkUrl true [] [] [] (-1) [] [] [] [] [].

Definition set_http v u := mkUrl v (user_ u) (password_ u) (host_ u) (port_ u) (path_ u) (parameter_ u) (url_ u) (host_url_ u) (path_url_ u).
Definition set_user v u := mkUrl (http_ u) v (password_ u) (host_ u) (port_ u) (path_ u) (parameter_ u) (url_ u) (host_url_ u) (path_url_ u).
Definition set_password v u := mkUrl (http_ u) (user_ u) v (host_ u) (port_ u) (path_ u) (parameter_ u) (url_ u) (host_url_ u) (path_url_ u).
Definition set_host v u := mkUrl (http_ u) (user_ u) (password_ u) v (port_ u) (path_ u) (parameter_ u) (url_ u) (host_url_ u) (path_url_ u).
Definition set_port v u := mkUrl (http_ u) (user_ u) (password_ u) (host_ u) v (path_ u) (parameter_ u) (url_ u) (host_url_ u) (path_url_ u).
Definition set_path v u := mkUrl (http_ u) (user_ u) (password_ u) (host_ u) (port_ u) v (parameter_ u) (url_ u) (host_url_ u) (path_url_ u).
Definition set_parameter v u := mkUrl (http_ u) (user_ u) (password_ u) (host_ u) (port_ u) (path_ u) v (url_ u) (host_url_ u) (path_url_ u).
Definition set_url v u := mkUrl (http_ u) (user_ u) (password_ u) (host_ u) (port_ u) (path_ u) (parameter_ u) v (host_url_ u) (path_url_ u).

Definition Validate (u : Url) : bool :=
  (if is_empty (host_ u) then
     negb (negb (is_empty (user_ u)) || negb (is_empty (password_ u))) &&
     negb (is_empty (path_ u) && ((port_ u <? 0) || (65536 <=? port_ u)))
   else negb ((port_ u <=? 0) || (65536 <=? port_ u))) &&
  negb (is_empty (path_ u) && negb (is_empty (parameter_ u))).

Definition itoa (v : Z) : list Z := format_d v.

Definition UpdateUrl (u : Url) : Url :=
  let host := negb (is_empty (host_ u)) in
  let scheme := if http_ u then b! "http://" else b! "https://" in
  let url := if host then scheme else [] in
  let host_url := if host then url else host_url_ u in
  let url :=
    if host && (negb (is_empty (user_ u)) || negb (is_empty (password_ u)))
    then url ++ user_ u ++ [64] ++ password_ u ++ [58] else url in
  let url := if host then url ++ host_ u else url in
  let host_url := if host then host_url ++ host_ u else host_url in
  let shown :=
    (0 <? port_ u) && (port_ u <? 65536) &&
    (is_empty (host_ u) || (http_ u && negb (port_ u =? 80)) || (negb (http_ u) && negb (port_ u =? 443))) in
  let url := if shown then url ++ [58] ++ itoa (port_ u) else url in
  let host_url := if shown then host_url ++ [58] ++ itoa (port_ u) else host_url in
  let url := url ++ path_ u in
  let path_url := path_url_ u ++ path_ u in
  let query := if negb (is_empty (parameter_ u)) then [63] ++ parameter_ u else [] in
  mkUrl (http_ u) (user_ u) (password_ u) (host_ u) (port_ u) (path_ u) (parameter_ u)
    (url ++ query) host_url (path_url ++ query).

(** The protocol: whether it is http, and the length of its text. *)
Definition parse_scheme (url : list Z) : option (bool * nat) :=
  if strnicmp_is url (b! "http://") then Some (true, 7%nat)
  else if strnicmp_is url (b! "https://") then Some (false, 8%nat)
  else match find_str (b! "://") url with Some _ => None | None => Some (true, 0%nat) end.

(** [user@password:], and where the host begins. *)
Definition parse_user (parta : list Z) (u : Url) : Url * option nat :=
  match find 64 parta 0 with
  | Some pos1 =>
      let u := set_user (substr parta 0 (Some pos1)) u in
      match find 58 parta pos1 with
      | None => (u, None)
      | Some pos2 => (set_password (substr parta (pos1 + 1) (Some (pos2 - pos1 - 1)%nat)) u, Some (pos2 + 1)%nat)
      end
  | None => (u, Some 0%nat)
  end.

Definition parse_host_port (parta : list Z) (pos : nat) (u : Url) : Url :=
  let pos1 := find 58 parta pos in
  let u := set_host (substr parta pos ((fun n => n - pos)%nat <$> pos1)) u in
  match pos1 with
  | Some pos1 => set_port (atoi (substr parta (pos1 + 1) None)) u
  | None =>
      if negb (is_empty (host_ u)) then set_port (if http_ u then 80 else 443) u else u
  end.

Definition parse_path (partb : list Z) (u : Url) : Url :=
  if negb (is_empty partb) then
    match find 63 partb 0 with
    | None => set_path partb u
    | Some pos1 => set_parameter (substr partb (pos1 + 1) None) (set_path (substr partb 0 (Some pos1)) u)
    end
  else u.

Definition Parse (url : list Z) : bool * Url :=
  let u := set_url url Clear in
  match parse_scheme url with
  | None => (false, u)
  | Some (http, pos) =>
      let u := set_http http u in
      let '(parta, partb) :=
        match find 47 url pos with
        | Some pos1 => (substr url pos (Some (pos1 - pos)%nat), substr url pos1 None)
        | None => (substr url pos None, [])
        end in
      match parse_user parta u with
      | (u, None) => (false, u)
      | (u, Some pos) =>
          let u := parse_path partb (parse_host_port parta pos u) in
          let u := set_host (strlwr (host_ u)) u in
          if Validate u then (true, UpdateUrl u) else (false, u)
      end
  end.

(** The static [Validate]. *)
Definition Validate_url (url : list Z) : bool := Validate (Parse url).2.

Definition HostUrlEqual (host : list Z) (port : Z) (u : Url) : bool :=
  list_Z_eqb (host_ u) host && (port_ u =? port).
Definition Equal (u v : Url) : bool := list_Z_eqb (url_ u) (url_ v).

(** ** Fingerprints *)

(** One turn of the loop; [*s] is a signed [char]. *)
Definition finger_step (hl : Z * Z) (c : Z) : Z * Z :=
  let '(high, low) := hl in
  (u32 (u32 (u32 (Z.shiftl high 5) + high) + s8 c), u32 (u32 (u32 (Z.shiftl low 5) - low) + s8 c)).
Definition FingerPrint (s : list Z) : Z :=
  let '(high, low) := fold_left finger_step s (0, 0) in
  u64 (u64 (Z.shiftl high 32) + low).

(** ** Escapes *)

Definition hex_digit_to_int (c : Z) : Z :=
  if (97 <=? c) && (c <=? 102) then c - 97 + 10
  else if (65 <=? c) && (c <=? 70) then c - 65 + 10
  else if (48 <=? c) && (c <=? 57) then c - 48
  else -1.
Definition int_to_hex_digit_low (i : Z) : Z :=
  let i := Z.land i 15 in if i <? 10 then i + 48 else i - 10 + 97.
Definition int_to_hex_digit_high (i : Z) : Z :=
  let i := Z.land i 15 in if i <? 10 then i + 48 else i - 10 + 65.

Definition kRFC2396ReservedCharMask : CharMask :=
  [0xffffffff; 0xfc00987d; 0x78000001; 0xb8000001; 0xffffffff; 0xffffffff; 0xffffffff; 0xffffffff].
Definition kValidUrlCharMask : CharMask :=
  [0; 0xaffffffa; 0x87ffffff; 0x07fffffe; 0; 0; 0; 0].
Definition kSafePathCharMask : CharMask :=
  [0; 0x83ffffba; 0x87fffffe; 0x07fffffe; 0; 0; 0; 0].

(** What is appended for [comp[i]]; [>>] is of a signed [char]. *)
Definition escape_char (c : Z) : list Z :=
  if contains c kRFC2396ReservedCharMask
  then [37; int_to_hex_digit_high (Z.shiftr (s8 c) 4); int_to_hex_digit_high (Z.land (s8 c) 15)]
  else [c].
Definition EscapeUrlComponent (comp : list Z) (dest : list Z) : list Z :=
  dest ++ escape_with escape_char comp.

(** The loop from [i] on; the two digits are read without a test of [len]. *)
Fixpoint unescape_loop (fuel : nat) (comp : list Z) (len i : nat) (dest : list Z)
    : outcome (bool * list Z) :=
  match fuel with
  | O => NoFuel
  | S fuel =>
      if (i <? len)%nat then
        let! c := ld comp i in
        if c =? 37 then
          let! h := ld comp (i + 1) in
          if hex_digit_to_int h =? -1 then Ret (false, dest)
          else
            let! l := ld comp (i + 2) in
            if hex_digit_to_int l =? -1 then Ret (false, dest)
            else unescape_loop fuel comp len (i + 3)
                   (dest ++ [u8 (Z.lor (Z.shiftl (hex_digit_to_int h) 4) (hex_digit_to_int l))])
        else unescape_loop fuel comp len (i + 1) (dest ++ [c])
      else Ret (true, dest)
  end.

(** A pointer that may be NULL is an [option]. *)
Definition UnescapeUrlComponent (comp : option (list Z)) (len : nat) (dest : option (list Z))
    : outcome (bool * option (list Z)) :=
  match comp, dest with
  | Some comp, Some d =>
      let! (r, d) := unescape_loop (S len) comp len 0 d in Ret (r, Some d)
  | _, _ => Ret (false, dest)
  end.

Fixpoint validate_chars (path : bool) (src : list Z) : bool :=
  match src with
  | [] => true
  | c :: src =>
      let path := if c =? 63 then false else path in
      contains c (if path then kSafePathCharMask else kValidUrlCharMask) && validate_chars path src
  end.
Definition ValidateUrlChars (src : list Z) : bool := validate_chars true src.

(** ** The grammar of the URLs that are accepted *)

(** The parts of a URL as they are written; [None] is a part that is missing with its
    delimiter. *)
Record parts := mkParts {
  p_scheme : list Z;
  p_user : option (list Z * list Z);
  p_host : list Z;
  p_port : option (list Z);
  p_path : list Z;
  p_query : option (list Z)
}.

Definition user_text (o : option (list Z * list Z)) : list Z :=
  match o with Some (u, w) => u ++ [64] ++ w ++ [58] | None => [] end.
Definition opt_text (c : Z) (o : option (list Z)) : list Z :=
  match o with Some t => c :: t | None => [] end.
Definition host_text (p : parts) : list Z := p_host p ++ opt_text 58 (p_port p).
Definition authority (p : parts) : list Z := user_text (p_user p) ++ host_text p.
Definition path_text (p : parts) : list Z := p_path p ++ opt_text 63 (p_query p).
Definition spell (p : parts) : list Z := p_scheme p ++ authority p ++ path_text p.

(** [s] is the protocol at the beginning of [url]. *)
Definition scheme_is (s : list Z) (http : bool) (url : list Z) : Prop :=
  strlwr s = b! "http://" /\ http = true \/
  strlwr s = b! "https://" /\ http = false \/
  s = [] /\ http = true /\ find_str (b! "://") url = None.

Record wf_parts (http : bool) (p : parts) : Prop := {
  wf_scheme : scheme_is (p_scheme p) http (spell p);
  wf_authority : 47 ∉ authority p;
  wf_user : match p_user p with Some (u, w) => (64 ∉ u) /\ (58 ∉ w) | None => 64 ∉ authority p end;
  wf_host : 58 ∉ p_host p;
  wf_path : p_path p = [] /\ p_query p = None \/ (exists r, p_path p = 47 :: r) /\ 63 ∉ p_path p
}.

Definition port_of (http : bool) (p : parts) : Z :=
  match p_port p with
  | Some t => atoi t
  | None => if is_empty (p_host p) then -1 else if http then 80 else 443
  end.

(** What [Parse] stores before it builds the texts. *)
Definition components (http : bool) (p : parts) : Url :=
  mkUrl http (default ([], []) (p_user p)).1 (default ([], []) (p_user p)).2
    (strlwr (p_host p)) (port_of http p) (p_path p) (default [] (p_query p)) (spell p) [] [].

(** ** Searching *)

Lemma index_of_app c a b : c ∉ a -> index_of c (a ++ c :: b) = Some (length a).
Proof.
  induction a as [|x a IH]; cbn [index_of app length]; [by rewrite Z.eqb_refl|].
  intros [Hx Ha]%not_elem_of_cons. destruct (Z.eqb_spec x c); [congruence|]. by rewrite IH.
Qed.

Lemma index_of_none c s : c ∉ s -> index_of c s = None.
Proof.
  induction s as [|x s IH]; cbn [index_of]; [done|].
  intros [Hx Hs]%not_elem_of_cons. destruct (Z.eqb_spec x c); [congruence|]. by rewrite IH.
Qed.

(** A string up to the first [c], and from there on. *)
Lemma split_at (c : Z) (s : list Z) : exists a b, s = a ++ b /\ (c ∉ a) /\ (b = [] \/ exists r, b = c :: r).
Proof.
  induction s as [|x s (a & b & -> & Ha & Hb)].
  { exists [], []. split; [done|]. split; [apply not_elem_of_nil|by left]. }
  destruct (Z.eq_dec x c) as [->|Hx].
  - exists [], (c :: a ++ b). split; [done|]. split; [apply not_elem_of_nil|right; by eexists].
  - exists (x :: a), b. split; [done|]. split; [|done]. by apply not_elem_of_cons.
Qed.

(** [find] in a string whose first [pos] bytes are [a]. *)
Lemma find_after c a b d pos :
  length a = pos -> c ∉ b -> find c (a ++ b ++ c :: d) pos = Some (pos + length b)%nat.
Proof. intros <- Hb. unfold find. rewrite drop_app_length, index_of_app by done. done. Qed.

Lemma find_after_none c a b pos : length a = pos -> c ∉ b -> find c (a ++ b) pos = None.
Proof. intros <- Hb. unfold find. by rewrite drop_app_length, index_of_none. Qed.

Lemma find_first c b d : c ∉ b -> find c (b ++ c :: d) 0 = Some (length b).
Proof. exact (find_after c [] b d 0 eq_refl). Qed.

Lemma find_first_none c b : c ∉ b -> find c b 0 = None.
Proof. exact (find_after_none c [] b 0 eq_refl). Qed.

Lemma substr_middle a b d n pos :
  length a = pos -> n = length b -> substr (a ++ b ++ d) pos (Some n) = b.
Proof. intros <- ->. unfold substr. by rewrite drop_app_length, take_app_length. Qed.

Lemma substr_first b d n : n = length b -> substr (b ++ d) 0 (Some n) = b.
Proof. exact (substr_middle [] b d n 0 eq_refl). Qed.

Lemma substr_rest a b pos : length a = pos -> substr (a ++ b) pos None = b.
Proof. intros <-. unfold substr. apply drop_app_length. Qed.

Lemma substr_after a c b pos : (length a + 1)%nat = pos -> substr (a ++ c :: b) pos None = b.
Proof.
  intros <-. unfold substr. rewrite drop_app_ge by lia. by replace (length a + 1 - length a)%nat with 1%nat by lia.
Qed.

(** ** The stages of Parse on a spelled URL *)

Lemma starts_with_prefix p s : starts_with p (p ++ s) = true.
Proof. induction p as [|c p IH]; cbn; [done|]. by rewrite Z.eqb_refl. Qed.

Lemma starts_with_spec p s : starts_with p s = true -> exists r, s = p ++ r.
Proof.
  revert s. induction p as [|c p IH]; intros s; cbn; [by exists s|].
  destruct s as [|x s]; [done|]. intros [E H]%andb_true_iff. destruct (IH s H) as [r ->].
  exists r. apply Z.eqb_eq in E. by subst.
Qed.

Lemma strlwr_app s t : strlwr (s ++ t) = strlwr s ++ strlwr t.
Proof. apply map_app. Qed.

Lemma strlwr_length s : length (strlwr s) = length s.
Proof. apply length_map. Qed.

Lemma find_str_present pat a b : find_str pat (a ++ pat ++ b) <> None.
Proof.
  induction a as [|x a IH]; cbn [app].
  - destruct (pat ++ b) eqn:E; cbn [find_str]; rewrite <- ?E, ?starts_with_prefix; [|done].
    by destruct pat.
  - cbn [find_str]. destruct (starts_with _ _); [done|]. by destruct (find_str _ (a ++ _)).
Qed.

Lemma tolower_punct c d : tolower c = d -> d = 58 \/ d = 47 -> c = d.
Proof. unfold tolower. destruct (_ && _) eqn:E; lia. Qed.

(** A text without "://" begins with neither protocol. *)
Lemma no_scheme t lit :
  find_str (b! "://") t = None -> lit = b! "http" \/ lit = b! "https" ->
  strnicmp_is t (lit ++ b! "://") = false.
Proof.
  intros Hf Hlit. unfold strnicmp_is. destruct (starts_with _ _) eqn:Es; [|done]. exfalso.
  apply starts_with_spec in Es as [r Hr]. rewrite <- app_assoc in Hr.
  apply map_eq_app in Hr as (a & y & -> & _ & Hy). clear Hlit.
  apply (find_str_present (b! "://") a (drop 3 y)). rewrite <- Hf. f_equal. f_equal.
  destruct y as [|c1 [|c2 [|c3 y]]]; try discriminate Hy. cbn in Hy. injection Hy as H1 H2 H3 _.
  apply tolower_punct in H1, H2, H3; auto. subst. done.
Qed.

Lemma parse_scheme_is s http t :
  scheme_is s http (s ++ t) -> parse_scheme (s ++ t) = Some (http, length s).
Proof.
  unfold parse_scheme. intros [[E ->]|[[E ->]|(-> & -> & E)]].
  - unfold strnicmp_is. rewrite strlwr_app, E, starts_with_prefix. by rewrite <- (strlwr_length s), E.
  - unfold strnicmp_is. rewrite strlwr_app, E, starts_with_prefix.
    replace (starts_with (b! "http://") (b! "https://" ++ strlwr t)) with false by done.
    by rewrite <- (strlwr_length s), E.
  - cbn [app] in *. pose proof (no_scheme t (b! "http") E (or_introl eq_refl)) as H1.
    pose proof (no_scheme t (b! "https") E (or_intror eq_refl)) as H2.
    cbn [app bytes_of_string] in H1, H2. cbn [bytes_of_string] in E |- *. by rewrite H1, H2, E.
Qed.

(** ... and every URL whose protocol is accepted begins with one. *)
Lemma scheme_exists url http pos :
  parse_scheme url = Some (http, pos) ->
  exists s t, url = s ++ t /\ length s = pos /\ scheme_is s http url.
Proof.
  unfold parse_scheme, strnicmp_is. destruct (starts_with (b! "http://") _) eqn:E1.
  { intros [= <- <-]. apply starts_with_spec in E1 as [r Hr]. apply map_eq_app in Hr as (s & t & -> & Hs & _).
    exists s, t. split; [done|]. rewrite <- (strlwr_length s). unfold strlwr. rewrite Hs. split; [done|]. by left. }
  destruct (starts_with (b! "https://") _) eqn:E2.
  { intros [= <- <-]. apply starts_with_spec in E2 as [r Hr]. apply map_eq_app in Hr as (s & t & -> & Hs & _).
    exists s, t. split; [done|]. rewrite <- (strlwr_length s). unfold strlwr. rewrite Hs. split; [done|]. right; by left. }
  destruct (find_str _ _) eqn:E3; [done|]. intros [= <- <-]. exists [], url. split; [done|].
  split; [done|]. right; right. done.
Qed.

Lemma parse_user_some u w r v :
  64 ∉ u -> 58 ∉ w ->
  parse_user (u ++ 64 :: w ++ 58 :: r) v =
    (set_password w (set_user u v), Some (length (u ++ 64 :: w ++ [58]))).
Proof.
  intros Hu Hw. unfold parse_user. rewrite find_first by done.
  assert (Hw' : 58 ∉ 64 :: w) by (apply not_elem_of_cons; split; [lia|done]).
  pose proof (find_after 58 u (64 :: w) r (length u) eq_refl Hw') as E. cbn [app] in E. rewrite E.
  rewrite substr_first by done. cbn [length].
  pose proof (substr_middle (u ++ [64]) w (58 :: r) (length w) (length u + 1)) as E2.
  rewrite <- app_assoc, length_app in E2. cbn [app length] in E2.
  replace (length u + S (length w) - length u - 1)%nat with (length w) by lia. rewrite E2 by lia.
  f_equal. f_equal. rewrite !length_app. cbn [length]. rewrite length_app. cbn [length]. lia.
Qed.

Lemma parse_user_none a v : 64 ∉ a -> parse_user a v = (v, Some 0%nat).
Proof. intros Ha. unfold parse_user. by rewrite find_first_none. Qed.

Lemma parse_host_port_text a h o pos v :
  length a = pos -> 58 ∉ h ->
  parse_host_port (a ++ h ++ opt_text 58 o) pos v =
    let v := set_host h v in
    match o with
    | Some t => set_port (atoi t) v
    | None => if negb (is_empty h) then set_port (if http_ v then 80 else 443) v else v
    end.
Proof.
  intros Ha Hh. unfold parse_host_port. destruct o as [t|]; cbn [opt_text].
  - rewrite find_after by done. cbn [fmap option_fmap option_map].
    rewrite substr_middle by (done || lia). f_equal. f_equal.
    rewrite app_assoc. apply substr_after. rewrite length_app. lia.
  - rewrite app_nil_r, find_after_none by done. cbn [fmap option_fmap option_map].
    by rewrite substr_rest.
Qed.

Lemma parse_path_text pa q v :
  pa = [] /\ q = None \/ (exists r, pa = 47 :: r) /\ 63 ∉ pa ->
  parse_path (pa ++ opt_text 63 q) v =
    match pa with [] => v | _ => match q with None => set_path pa v | Some q => set_parameter q (set_path pa v) end end.
Proof.
  unfold parse_path. intros [[-> ->]|[[r ->] Hp]]; [done|]. cbn [app is_empty negb].
  change (47 :: r ++ opt_text 63 q) with ((47 :: r) ++ opt_text 63 q). destruct q as [q|]; cbn [opt_text].
  - rewrite find_first, substr_first, substr_after by done. done.
  - rewrite app_nil_r, find_first_none by done. done.
Qed.

(** The two halves of what follows the protocol. *)
Lemma parts_split s a b :
  47 ∉ a -> b = [] \/ (exists r, b = 47 :: r) ->
  match find 47 (s ++ a ++ b) (length s) with
  | Some pos1 => (substr (s ++ a ++ b) (length s) (Some (pos1 - length s)%nat), substr (s ++ a ++ b) pos1 None)
  | None => (substr (s ++ a ++ b) (length s) None, [])
  end = (a, b).
Proof.
  intros Ha [->|[r ->]].
  - by rewrite app_nil_r, find_after_none, substr_rest by done.
  - rewrite find_after, substr_middle by (done || lia). f_equal.
    rewrite app_assoc. apply substr_rest. by rewrite length_app.
Qed.

(** [Parse] after the protocol. *)
Definition parse_rest (http : bool) (url parta partb : list Z) : bool * Url :=
  match parse_user parta (set_http http (set_url url Clear)) with
  | (u, None) => (false, u)
  | (u, Some pos) =>
      let u := parse_path partb (parse_host_port parta pos u) in
      let u := set_host (strlwr (host_ u)) u in
      if Validate u then (true, UpdateUrl u) else (false, u)
  end.

Lemma Parse_rest http s a b :
  scheme_is s http (s ++ a ++ b) -> 47 ∉ a -> b = [] \/ (exists r, b = 47 :: r) ->
  Parse (s ++ a ++ b) = parse_rest http (s ++ a ++ b) a b.
Proof.
  intros Hs Ha Hb. unfold Parse. rewrite (parse_scheme_is s http (a ++ b) Hs).
  by rewrite (parts_split s a b Ha Hb).
Qed.

Lemma path_text_form http p :
  wf_parts http p -> path_text p = [] \/ exists r, path_text p = 47 :: r.
Proof.
  intros Hp. unfold path_text. destruct (wf_path http p Hp) as [[-> ->]|[[r ->] _]]; [by left|].
  right. by eexists.
Qed.

(** [Parse] on the spelling of well-formed parts. *)
Lemma Parse_spell http p :
  wf_parts http p ->
  Parse (spell p) =
    if Validate (components http p) then (true, UpdateUrl (components http p)) else (false, components http p).
Proof.
  intros Hp. unfold spell at 1. rewrite (Parse_rest http); [|apply Hp|apply Hp|by eapply path_text_form].
  fold (spell p). unfold parse_rest.
  set (u0 := set_http http (set_url (spell p) Clear)).
  assert (E : exists pos pre, authority p = pre ++ host_text p /\ length pre = pos /\
    parse_user (authority p) u0 =
      (mkUrl http (default ([], []) (p_user p)).1 (default ([], []) (p_user p)).2 [] (-1) [] [] (spell p) [] [],
       Some pos)).
  { pose proof (wf_user http p Hp) as Hu. unfold authority in *.
    destruct (p_user p) as [[u w]|] eqn:Eu; cbn [user_text default] in *.
    - eexists _, (u ++ 64 :: w ++ [58]). split; [done|]. split; [done|].
      destruct Hu as [Hu Hw]. replace ((u ++ [64] ++ w ++ [58]) ++ host_text p) with
        (u ++ 64 :: w ++ 58 :: host_text p) by (by rewrite <- !app_assoc).
      by apply parse_user_some.
    - exists 0%nat, []. split; [done|]. split; [done|]. by apply parse_user_none. }
  destruct E as (pos & pre & E1 & E2 & E3). rewrite E3, E1. unfold host_text.
  rewrite parse_host_port_text by (done || apply Hp).
  unfold path_text. rewrite parse_path_text by apply Hp.
  match goal with |- context [Validate ?x] => assert (Ec : x = components http p) end.
  { unfold components, port_of. destruct (wf_path http p Hp) as [[-> ->]|[[r ->] _]];
      destruct (p_port p), (p_query p), (p_host p); done. }
  by rewrite Ec.
Qed.

(** Every accepted text is such a spelling. *)
Lemma Parse_true_parts text :
  (Parse text).1 = true -> exists http p, wf_parts http p /\ spell p = text.
Proof.
  intros H. destruct (parse_scheme text) as [[http pos]|] eqn:Es;
    [|unfold Parse in H; by rewrite Es in H].
  destruct (scheme_exists _ _ _ Es) as (s & t & -> & _ & Hs).
  destruct (split_at 47 t) as (a & b & -> & Ha & Hb).
  rewrite (Parse_rest http s a b Hs Ha Hb) in H. unfold parse_rest in H.
  assert (Hpath : exists pa q, b = pa ++ opt_text 63 q /\
            (pa = [] /\ q = None \/ (exists r, pa = 47 :: r) /\ 63 ∉ pa)).
  { destruct Hb as [->|[r ->]]; [exists [], None; split; [done|by left]|].
    destruct (split_at 63 r) as (x & y & -> & Hx & Hy). exists (47 :: x).
    destruct Hy as [->|[q ->]]; [exists None|exists (Some q)]; (split; [done|]); right;
      (split; [by exists x|apply not_elem_of_cons; split; [lia|done]]). }
  destruct Hpath as (pa & q & -> & Hpa).
  assert (Hauth : exists ou h o, a = user_text ou ++ h ++ opt_text 58 o /\ (58 ∉ h) /\
    match ou with Some (u, w) => (64 ∉ u) /\ (58 ∉ w) | None => 64 ∉ a end).
  { assert (Hhost : forall x, exists h o, x = h ++ opt_text 58 o /\ 58 ∉ h).
    { intros x. destruct (split_at 58 x) as (h & y & -> & Hh & Hy). exists h.
      destruct Hy as [->|[t ->]]; [exists None|exists (Some t)]; by split. }
    destruct (split_at 64 a) as (u & y & -> & Hu & Hy). destruct Hy as [->|[x ->]].
    - rewrite app_nil_r. destruct (Hhost u) as (h & o & E & Hh). exists None, h, o. done.
    - destruct (split_at 58 x) as (w & z & -> & Hw & Hz). destruct Hz as [->|[x ->]].
      + exfalso. unfold parse_user in H. rewrite find_first in H by done.
        rewrite app_nil_r, (find_after_none 58 u (64 :: w)) in H; [done|done|].
        apply not_elem_of_cons. split; [lia|done].
      + destruct (Hhost x) as (h & o & -> & Hh). exists (Some (u, w)), h, o.
        split; [|done]. cbn [user_text app]. rewrite <- !app_assoc. cbn [app]. rewrite <- ?app_assoc. done. }
  destruct Hauth as (ou & h & o & E & Hh & Hu).
  exists http, (mkParts s ou h o pa q). unfold spell, authority, host_text, path_text.
  cbn [p_scheme p_user p_host p_port p_path p_query]. rewrite <- E. split; [|done].
  split; unfold spell, authority, host_text, path_text;
    cbn [p_scheme p_user p_host p_port p_path p_query]; rewrite <- ?E; done.
Qed.

(** ** The normal form *)

(** The parts that [UpdateUrl] writes. *)
Definition port_shown (u : Url) : bool :=
  (0 <? port_ u) && (port_ u <? 65536) &&
  (is_empty (host_ u) || (http_ u && negb (port_ u =? 80)) || (negb (http_ u) && negb (port_ u =? 443))).
Definition canon (u : Url) : parts :=
  mkParts
    (if is_empty (host_ u) then [] else if http_ u then b! "http://" else b! "https://")
    (if is_empty (user_ u) && is_empty (password_ u) then None else Some (user_ u, password_ u))
    (host_ u)
    (if port_shown u then Some (format_d (port_ u)) else None)
    (path_ u)
    (if is_empty (parameter_ u) then None else Some (parameter_ u)).

(** What [Parse] needs of an object to read its text again: a host without user and
    password must not look as if it had some; without a host, the text has no protocol,
    shows only a port that can be, and holds no "://". *)
Definition readable (u : Url) : Prop :=
  if is_empty (host_ u) then
    http_ u = true /\ (port_ u = -1 \/ 0 < port_ u < 65536) /\ find_str (b! "://") (url_ u) = None
  else is_empty (user_ u) && is_empty (password_ u) = true -> 64 ∉ host_ u.

Lemma is_empty_true s : is_empty s = true <-> s = [].
Proof. by destruct s. Qed.

Lemma UpdateUrl_spells u :
  Validate u = true -> url_ (UpdateUrl u) = spell (canon u).
Proof.
  intros Hv. unfold UpdateUrl, spell, authority, host_text, path_text, canon. cbn [url_ p_scheme p_user p_host p_port p_path p_query].
  fold (port_shown u). unfold itoa, Validate in *.
  assert (Hnone : is_empty (host_ u) = true -> is_empty (user_ u) && is_empty (password_ u) = true).
  { intros E. rewrite E in Hv. by destruct (is_empty (user_ u)), (is_empty (password_ u)). }
  destruct (is_empty (parameter_ u)) eqn:Eq; cbn [negb opt_text]; rewrite ?app_nil_r;
    (destruct (is_empty (host_ u)) eqn:Eh; cbn [negb andb];
     [rewrite (Hnone eq_refl); apply is_empty_true in Eh; rewrite Eh|
      rewrite <- negb_andb; destruct (is_empty (user_ u) && is_empty (password_ u))]);
    destruct (port_shown u); cbn [negb user_text opt_text app];
    rewrite <- ?app_assoc; cbn [app]; rewrite <- ?app_assoc; cbn [app]; rewrite ?app_nil_r; done.
Qed.

Lemma UpdateUrl_of_components u :
  host_url_ u = [] -> path_url_ u = [] -> UpdateUrl u = UpdateUrl (set_url (url_ (UpdateUrl u)) u).
Proof. done. Qed.

Lemma strlwr_idem s : strlwr (strlwr s) = strlwr s.
Proof.
  unfold strlwr. rewrite map_map. apply map_ext. intros c. unfold tolower.
  destruct ((65 <=? c) && (c <=? 90)) eqn:E; [|by rewrite E].
  by replace ((65 <=? c + 32) && (c + 32 <=? 90)) with false by lia.
Qed.

Lemma strlwr_punct d s : d ∈ strlwr s -> d = 58 \/ d = 47 -> d ∈ s.
Proof.
  intros (c & E & Hc)%list_elem_of_In%in_map_iff Hd. symmetry in E.
  rewrite (tolower_punct c d) in Hc by done. by apply list_elem_of_In.
Qed.

Lemma digits_have d k : 0 <= k -> d ∈ format_d k -> 48 <= d <= 57.
Proof.
  intros Hk Hd%list_elem_of_In. pose proof (format_d_plain k Hk) as H. rewrite List.Forall_forall in H. auto.
Qed.

Lemma atoi_itoa k : 0 <= k < 65536 -> atoi (format_d k) = k.
Proof.
  intros Hk. unfold atoi. rewrite atoll_format_d by lia.
  rewrite Z.min_r, Z.max_r by lia. apply s32_small. lia.
Qed.

(** The fields of a parsed URL. *)
Record fields_ok (u : Url) : Prop := {
  fo_user : (47 ∉ user_ u) /\ (64 ∉ user_ u);
  fo_password : (47 ∉ password_ u) /\ (58 ∉ password_ u);
  fo_host : (47 ∉ host_ u) /\ (58 ∉ host_ u) /\ strlwr (host_ u) = host_ u;
  fo_path : path_ u = [] /\ parameter_ u = [] \/ (exists r, path_ u = 47 :: r) /\ 63 ∉ path_ u
}.

Lemma components_ok http p : wf_parts http p -> fields_ok (components http p).
Proof.
  intros Hp. pose proof (wf_authority http p Hp) as Ha. unfold authority, host_text in Ha.
  rewrite !elem_of_app in Ha. pose proof (wf_user http p Hp) as Hu. pose proof (wf_host http p Hp) as Hh.
  split; cbn [components user_ password_ host_ path_ parameter_].
  - destruct (p_user p) as [[u w]|]; cbn [default fst user_text] in *; [|split; apply not_elem_of_nil].
    rewrite elem_of_app in Ha. tauto.
  - destruct (p_user p) as [[u w]|]; cbn [default snd user_text] in *; [|split; apply not_elem_of_nil].
    rewrite !elem_of_app in Ha. tauto.
  - split; [intros H%strlwr_punct; tauto|]. split; [intros H%strlwr_punct; tauto|]. apply strlwr_idem.
  - destruct (wf_path http p Hp) as [[-> ->]|H]; [by left|by right].
Qed.

Lemma user_text_has d u w : d ∈ user_text (Some (u, w)) <-> d ∈ u \/ d = 64 \/ d ∈ w \/ d = 58.
Proof. cbn [user_text]. rewrite !elem_of_app, !list_elem_of_singleton. tauto. Qed.

Lemma opt_text_has d c t : d ∈ opt_text c (Some t) <-> d = c \/ d ∈ t.
Proof. cbn [opt_text]. apply elem_of_cons. Qed.

Lemma canon_wf u :
  fields_ok u -> Validate u = true -> readable (UpdateUrl u) -> wf_parts (http_ u) (canon u).
Proof.
  intros [[Hu1 Hu2] [Hw1 Hw2] (Hh1 & Hh2 & Hh3) Hp] Hv Hr.
  assert (Hport : forall d, d ∈ opt_text 58 (p_port (canon u)) -> d = 58 \/ 48 <= d <= 57).
  { intros d. cbn [canon p_port]. destruct (port_shown u) eqn:E; [|by intros ?%not_elem_of_nil].
    intros [->|Hd]%opt_text_has; [by left|right]. eapply digits_have; [|done]. unfold port_shown in E. lia. }
  split.
  - pose proof (UpdateUrl_spells u Hv) as Hs. unfold readable in Hr. rewrite Hs in Hr.
    cbn [UpdateUrl host_ user_ password_ http_ port_] in Hr. unfold scheme_is. cbn [canon p_scheme].
    destruct (is_empty (host_ u)); [right; right; tauto|].
    destruct (http_ u); [by left|by right; left].
  - unfold authority, host_text. rewrite !elem_of_app. intros [H|[H|H]].
    + cbn [canon p_user] in H. destruct (_ && _); [by apply not_elem_of_nil in H|].
      apply user_text_has in H. destruct H as [?|[?|[?|?]]]; [done|lia|done|lia].
    + done.
    + apply Hport in H. lia.
  - cbn [canon p_user]. destruct (is_empty (user_ u) && is_empty (password_ u)) eqn:E; [|done].
    unfold authority, host_text. cbn [canon p_user p_host]. rewrite E. cbn [user_text app].
    rewrite elem_of_app. intros [H|H]; [|apply Hport in H; lia].
    unfold readable in Hr. cbn [UpdateUrl host_ user_ password_] in Hr.
    destruct (is_empty (host_ u)) eqn:Eh; [|by apply Hr].
    apply is_empty_true in Eh. rewrite Eh in H. by apply not_elem_of_nil in H.
  - done.
  - cbn [canon p_path p_query]. destruct Hp as [[-> ->]|H]; [by left|by right].
Qed.

Lemma canon_components u :
  fields_ok u -> Validate u = true -> readable (UpdateUrl u) ->
  UpdateUrl (components (http_ u) (canon u)) = UpdateUrl (mkUrl (http_ u) (user_ u) (password_ u) (host_ u)
    (port_ u) (path_ u) (parameter_ u) [] [] []) /\ Validate (components (http_ u) (canon u)) = true.
Proof.
  intros Hf Hv Hr.
  assert (E1 : default ([], []) (p_user (canon u)) = (user_ u, password_ u)).
  { cbn [canon p_user]. destruct (user_ u), (password_ u); done. }
  assert (E2 : port_of (http_ u) (canon u) = port_ u).
  { unfold port_of. cbn [canon p_port p_host]. destruct (port_shown u) eqn:E; unfold port_shown in E.
    - apply atoi_itoa. lia.
    - unfold readable in Hr. cbn [UpdateUrl host_ port_ http_] in Hr. unfold Validate in Hv.
      destruct (is_empty (host_ u)); [lia|]. destruct (http_ u); lia. }
  assert (E3 : default [] (p_query (canon u)) = parameter_ u).
  { cbn [canon p_query]. by destruct (parameter_ u). }
  unfold components. rewrite E1, E2, E3. cbn [fst snd canon p_host p_path].
  destruct (fo_host u Hf) as (_ & _ & ->). by split.
Qed.

(** ** Escapes *)

Definition is_hex (c : Z) : bool := negb (hex_digit_to_int c =? -1).

(** What [UnescapeUrlComponent] makes of a C string. *)
Fixpoint unescaped (s : list Z) : bool * list Z :=
  match s with
  | [] => (true, [])
  | c :: r =>
      if c =? 37 then
        match r with
        | h :: l :: r =>
            if is_hex h && is_hex l then
              let '(b, t) := unescaped r in
              (b, u8 (Z.lor (Z.shiftl (hex_digit_to_int h) 4) (hex_digit_to_int l)) :: t)
            else (false, [])
        | _ => (false, [])
        end
      else let '(b, t) := unescaped r in (b, c :: t)
  end.

Lemma ld_app a c b i : i = length a -> ld (a ++ c :: b) i = Ret c.
Proof. intros ->. unfold ld. by rewrite list_lookup_middle. Qed.

(** Past its end a C string reads as the NUL. *)
Definition byte_at (s : list Z) (k : nat) : Z := default 0 (s !! k).

Lemma ld_string pre s junk i k :
  i = (length pre + k)%nat -> (k <= length s)%nat -> ld (pre ++ s ++ 0 :: junk) i = Ret (byte_at s k).
Proof.
  intros -> Hk. unfold ld, byte_at. rewrite lookup_app_r by lia.
  replace (length pre + k - length pre)%nat with k by lia. destruct (decide (k < length s)%nat) as [Hlt|Hge].
  - rewrite lookup_app_l by done. apply lookup_lt_is_Some in Hlt as [c ->]. done.
  - assert (k = length s) as -> by lia. by rewrite list_lookup_middle, (lookup_ge_None_2 s) by done.
Qed.

Lemma unescape_loop_spec fuel pre s junk d :
  (length s < fuel)%nat ->
  unescape_loop fuel (pre ++ s ++ 0 :: junk) (length pre + length s) (length pre) d =
    Ret ((unescaped s).1, d ++ (unescaped s).2).
Proof.
  revert pre s d. induction fuel as [|fuel IH]; intros pre s d Hf; [lia|]. cbn [unescape_loop].
  destruct s as [|c s].
  { rewrite (proj2 (Nat.ltb_ge _ _)) by (cbn; lia). cbn. by rewrite app_nil_r. }
  rewrite (proj2 (Nat.ltb_lt _ _)) by (cbn; lia).
  rewrite (ld_string pre (c :: s) junk (length pre) 0) by (cbn; lia). cbn [obind byte_at lookup].
  change (byte_at (c :: s) 0) with c. cbn [unescaped]. cbn [length] in Hf |- *.
  assert (Hnext : forall x y, c :: s = x ++ y -> (0 < length x)%nat -> forall d', 
    unescape_loop fuel (pre ++ (c :: s) ++ 0 :: junk) (length pre + S (length s)) (length pre + length x) d' =
      Ret ((unescaped y).1, d' ++ (unescaped y).2)).
  { intros x y E Hx d'. assert (El : (S (length s) = length x + length y)%nat) by (rewrite <- length_app, <- E; done).
    pose proof (IH (pre ++ x) y d' ltac:(lia)) as H. rewrite length_app, <- app_assoc in H.
    rewrite E, <- app_assoc. rewrite El, Nat.add_assoc. exact H. }
  destruct (Z.eqb_spec c 37) as [->|Hc].
  - rewrite (ld_string pre (37 :: s) junk _ 1) by (cbn; lia). cbn [obind].
    destruct s as [|h s]; [cbn; by rewrite app_nil_r|]. change (byte_at (37 :: h :: s) 1) with h.
    unfold is_hex. destruct (hex_digit_to_int h =? -1) eqn:Eh; cbn [negb andb].
    { destruct s; cbn; by rewrite app_nil_r. }
    rewrite (ld_string pre (37 :: h :: s) junk _ 2) by (cbn; lia). cbn [obind].
    destruct s as [|l s]; [cbn; by rewrite app_nil_r|]. change (byte_at (37 :: h :: l :: s) 2) with l.
    destruct (hex_digit_to_int l =? -1) eqn:El; cbn [negb]; [by rewrite app_nil_r|].
    rewrite (Hnext [37; h; l] s eq_refl ltac:(cbn; lia)). destruct (unescaped s). cbn.
    by rewrite <- app_assoc.
  - rewrite (Hnext [c] s eq_refl ltac:(cbn; lia)). destruct (unescaped s). cbn. by rewrite <- app_assoc.
Qed.

(** One byte, escaped and read back. *)
Definition escape_ok (c : Z) : bool :=
  match escape_char c with
  | [x] => (x =? c) && negb (c =? 37) &&
           (if c =? 126 then negb (contains c kSafePathCharMask || contains c kValidUrlCharMask)
            else contains c kSafePathCharMask && negb (c =? 63))
  | [p; h; l] =>
      (p =? 37) && is_hex h && is_hex l && negb (c =? 126) &&
      (u8 (Z.lor (Z.shiftl (hex_digit_to_int h) 4) (hex_digit_to_int l)) =? c) &&
      forallb (fun x => contains x kSafePathCharMask && negb (x =? 63)) [p; h; l]
  | _ => false
  end.

Lemma escape_char_ok c : is_byte c -> escape_ok c = true.
Proof. apply (is_byte_forall escape_ok). vm_compute. reflexivity. Qed.

Lemma unescaped_escape s : Forall is_byte s -> unescaped (escape_with escape_char s) = (true, s).
Proof.
  induction 1 as [|c s Hc _ IH]; [done|]. unfold escape_with in *. cbn [map concat].
  pose proof (escape_char_ok c Hc) as H. unfold escape_ok in H.
  destruct (escape_char c) as [|x [|h [|l [|]]]]; try done; cbn [app].
  - apply andb_true_iff in H as [H _]. cbn [unescaped]. replace (x =? 37) with false by lia.
    rewrite IH. f_equal. f_equal. lia.
  - rewrite !andb_true_iff in H. destruct H as [[[[[Hx Hh] Hl] _] Hv] _]. apply Z.eqb_eq in Hx, Hv. subst x.
    cbn [unescaped Z.eqb Pos.eqb]. by rewrite Hh, Hl, IH, Hv.
Qed.

Lemma validate_chars_app p t :
  forallb (fun x => contains x kSafePathCharMask && negb (x =? 63)) p = true ->
  validate_chars true (p ++ t) = validate_chars true t.
Proof.
  induction p as [|x p IH]; cbn [forallb app validate_chars]; [done|].
  intros [[Hx Hq]%andb_true_iff Hp]%andb_true_iff. replace (x =? 63) with false by lia.
  by rewrite Hx, IH.
Qed.

(** Escaped text is valid unless there is a tilde in it. *)
Lemma escaped_is_valid s :
  Forall is_byte s -> validate_chars true (escape_with escape_char s) = negb (char_in 126 s).
Proof.
  induction 1 as [|c s Hc _ IH]; [done|]. unfold escape_with in *. cbn [map concat].
  pose proof (escape_char_ok c Hc) as H. unfold escape_ok in H. unfold char_in in *. cbn [existsb].
  destruct (escape_char c) as [|x [|h [|l [|]]]]; try done.
  - destruct (Z.eqb_spec c 126) as [->|Hn].
    + apply andb_true_iff in H as [H _]. assert (x = 126) as -> by lia. done.
    + replace (126 =? c) with false by lia. cbn [orb]. rewrite <- IH. apply validate_chars_app. cbn [forallb].
      apply andb_true_iff in H as [H1 H2]. assert (x = c) as -> by lia. by rewrite H2.
  - apply andb_true_iff in H as [Hn H]. replace (126 =? c) with false by lia. cbn [orb].
    rewrite <- IH. by apply validate_chars_app.
Qed.

(** ** Theorems *)

(** C32. [Parse] accepts exactly the URLs of this grammar, and stores their parts: an
    optional protocol in any case, then optional [user@password:], the host and an
    optional port, none of which holds a slash, then optionally a path that begins with
    one, and a query; and what is accepted satisfies [Validate].  The texts of the object
    are those that [UpdateUrl] builds from the parts, with the host in lower case. *)
Theorem Url_Parse_accepts text r :
  Parse text = (true, r) <->
  exists http p, wf_parts http p /\ spell p = text /\
    Validate (components http p) = true /\ r = UpdateUrl (components http p).
Proof.
  split.
  - intros H. destruct (Parse_true_parts text) as (http & p & Hp & <-); [by rewrite H|].
    rewrite (Parse_spell http p Hp) in H. exists http, p. split; [done|]. split; [done|].
    destruct (Validate _); [|done]. by injection H as <-.
  - intros (http & p & Hp & <- & Hv & ->). by rewrite (Parse_spell http p Hp), Hv.
Qed.

(** C33. The text that a parsed URL builds is a normal form: parsing it gives the same
    object with the same texts, when the object is [readable]. *)
Theorem Url_normal_form text r :
  Parse text = (true, r) -> readable r -> Parse (url_ r) = (true, r).
Proof.
  intros (http & p & Hp & _ & Hv & ->)%Url_Parse_accepts Hr.
  set (u := components http p) in *. pose proof (components_ok http p Hp) as Hf. fold u in Hf.
  rewrite (UpdateUrl_spells u Hv), (Parse_spell (http_ u)) by (by apply canon_wf).
  destruct (canon_components u Hf Hv Hr) as [-> ->]. done.
Qed.

(** C1. A component that was escaped is read back, whatever bytes it holds; on any C
    string the reader stays within its bytes and the NUL, and stops at the first "%" that
    is not followed by two hexadecimal digits, with what it has read so far; and escaped
    text passes ValidateUrlChars exactly when the component holds no tilde. *)
Theorem UrlComponent_roundtrip s junk dest :
  Forall is_byte s ->
  (let e := EscapeUrlComponent s [] in
   UnescapeUrlComponent (Some (e ++ 0 :: junk)) (length e) (Some dest) = Ret (true, Some (dest ++ s)) /\
   ValidateUrlChars e = negb (char_in 126 s)) /\
  UnescapeUrlComponent (Some (s ++ 0 :: junk)) (length s) (Some dest) =
    Ret ((unescaped s).1, Some (dest ++ (unescaped s).2)).
Proof.
  intros Hs.
  assert (H : forall t, UnescapeUrlComponent (Some (t ++ 0 :: junk)) (length t) (Some dest) =
                Ret ((unescaped t).1, Some (dest ++ (unescaped t).2))).
  { intros t. unfold UnescapeUrlComponent.
    pose proof (unescape_loop_spec (S (length t)) [] t junk dest ltac:(lia)) as E.
    cbn [app length Nat.add] in E. by rewrite E. }
  split; [|apply H]. cbn zeta. unfold EscapeUrlComponent. cbn [app]. split.
  - by rewrite H, unescaped_escape.
  - by apply escaped_is_valid.
Qed.

(** ** Concrete URLs *)

Definition demo_url : list Z := b! "HTTP://me@pw:WWW.Example.com:8080/a?b=c".
Definition demo_parts : parts :=
  mkParts (b! "HTTP://") (Some (b! "me", b! "pw")) (b! "WWW.Example.com") (Some (b! "8080")) (b! "/a") (Some (b! "b=c")).

Lemma Url_Parse_accepts_witness :
  exists http p, wf_parts http p /\ spell p = demo_url /\ Validate (components http p) = true.
Proof.
  destruct (Url_Parse_accepts demo_url (Parse demo_url).2) as [H _].
  destruct (H ltac:(vm_compute; reflexivity)) as (http & p & H1 & H2 & H3 & _). exists http, p. auto.
Defined.

Lemma Url_normal_form_witness :
  url_ (Parse demo_url).2 = b! "http://me@pw:www.example.com:8080/a?b=c" /\
  Parse (url_ (Parse demo_url).2) = (true, (Parse demo_url).2).
Proof.
  split; [vm_compute; reflexivity|]. apply (Url_normal_form demo_url).
  - vm_compute. reflexivity.
  - vm_compute. intros H. discriminate H.
Defined.

Lemma UrlComponent_roundtrip_witness :
  UnescapeUrlComponent (Some (b! "a%26b" ++ [0])) 5 (Some []) = Ret (true, Some (b! "a&b")).
Proof.
  destruct (UrlComponent_roundtrip (b! "a&b") [] []) as [[H _] _]; [|exact H].
  repeat constructor; vm_compute; congruence.
Defined.

(** What is accepted and is not a normal form: a port 0 without a host leaves an empty
    text, an empty user leaves a host that is read as a user, and a "://" in the query is
    accepted only behind a protocol. *)
Lemma port_zero_is_accepted : (Parse (b! ":0")).1 = true /\ url_ (Parse (b! ":0")).2 = [].
Proof. by split; vm_compute. Qed.

Lemma empty_user_is_lost :
  url_ (Parse (b! "@:h@x")).2 = b! "http://h@x" /\ (Parse (b! "http://h@x")).1 = false.
Proof. by split; vm_compute. Qed.

Lemma query_with_url_needs_protocol :
  (Parse (b! "http://a/x?u=http://b")).1 = true /\ (Parse (b! "a/x?u=http://b")).1 = false.
Proof. by split; vm_compute. Qed.

Lemma https_without_host_is_http :
  http_ (Parse (b! "https:///x")).2 = false /\ url_ (Parse (b! "https:///x")).2 = b! "/x" /\
  http_ (Parse (b! "/x")).2 = true.
Proof. by repeat split; vm_compute. Qed.

(** The port is what [atoi] makes of the text: trailing text is dropped, and a number that
    does not fit an [int] wraps. *)
Lemma port_is_atoi :
  port_ (Parse (b! "h:80x")).2 = 80 /\ (Parse (b! "h:4294967376")).1 = true /\
  port_ (Parse (b! "h:4294967376")).2 = 80.
Proof. by repeat split; vm_compute. Qed.

(** With a length that ends within an escape, the digits behind it are read. *)
Lemma unescape_reads_past_len :
  UnescapeUrlComponent (Some (b! "%41" ++ [0])) 1 (Some []) = Ret (true, Some (b! "A")) /\
  UnescapeUrlComponent (Some (b! "%")) 1 (Some []) = Crash.
Proof. by split; vm_compute. Qed.

(** The static [Validate] tells whether [Parse] succeeds. *)
Lemma Validate_url_is_Parse text : (Parse text).1 = true -> Validate_url text = true.
Proof.
  intros H. destruct (Parse text) as [b r] eqn:E. cbn in H. subst b. unfold Validate_url. rewrite E.
  apply Url_Parse_accepts in E as (http & p & _ & _ & Hv & ->). exact Hv.
Qed.
