(* ===== verification/BaseEncode.v ===== *)
(** The string encoders of src/base/stringencode.cc: escaping, character
    encoding, URL encoding and hexadecimal.  A function works on one memory, with
    [buffer] and [source] as addresses in it, so that a caller may let the two
    overlap as the header allows; [ASSERT] of base/common.h only writes to the
    log.  Every loop of the file has the same shape, [transform_loop], and one
    theorem, [transform_loop_spec], reduces it to a function on byte strings. *)
From Stdlib Require Import ZArith Lia Bool String.
From stdpp Require Import base list numbers.
From S2P Require Import Prelude Clib.

(** ** Characters *)

Definition hex_encode (val : Z) : Z :=
  if val <? 16 then nth (Z.to_nat val) (b! "0123456789abcdef") 0 else 33.

(** [tolower] and the comparison see a [char], which is signed. *)
Definition hex_decode (ch : Z) : Z :=
  let lower := tolower (s8 ch) in
  u8 (if s8 ch <=? 57 then s8 ch - 48 else lower - 97 + 10).

Definition hex_decode2 (h l : Z) : Z := u8 (Z.lor (Z.shiftl (hex_decode h) 4) (hex_decode l)).

Definition URL_UNSAFE : Z := 1.
Definition XML_UNSAFE : Z := 2.
Definition HTML_UNSAFE : Z := 2.

Definition ASCII_CLASS : list Z := [
  1;1;1;1;1;1;1;1;1;1;1;1;1;1;1;1;1;1;1;1;1;1;1;1;1;1;1;1;1;1;1;1;
  1;0;3;1;1;1;3;2;0;0;0;1;1;0;0;1;0;0;0;0;0;0;0;0;0;0;1;1;3;1;3;1;
  1;0;0;0;0;0;0;0;0;0;0;0;0;0;0;0;0;0;0;0;0;0;0;0;0;0;0;1;1;1;1;0;
  1;0;0;0;0;0;0;0;0;0;0;0;0;0;0;0;0;0;0;0;0;0;0;0;0;0;0;1;1;1;0;1].

(** [(ch < 128) && (ASCII_CLASS[ch] & mask)]. *)
Definition is_unsafe (mask ch : Z) : bool :=
  (ch <? 128) && negb (Z.land (nth (Z.to_nat ch) ASCII_CLASS 0) mask =? 0).

(** [strchr (illegal, ch)], which also finds the NUL that ends [illegal]. *)
Definition is_illegal (illegal : list Z) (ch : Z) : bool := char_in ch illegal || (ch =? 0).

Definition unsafe_filename_characters : list Z := b! "\/:*?" ++ [34] ++ b! "<>|".

(** ** The loops *)

(** The memory, [srcpos] and [bufpos]; a turn gives [None] for [break]. *)
Definition turn : Type := option (list Z * nat * nat).

Fixpoint transform_loop (fuel : nat) (body : list Z -> nat -> nat -> outcome turn)
    (buflen srclen : nat) (m : list Z) (srcpos bufpos : nat) : outcome (list Z * nat) :=
  match fuel with
  | O => NoFuel
  | S fuel =>
      if (srcpos <? srclen)%nat && (bufpos + 1 <? buflen)%nat then
        let! t := body m srcpos bufpos in
        match t with
        | None => Ret (m, bufpos)
        | Some (m, srcpos, bufpos) => transform_loop fuel body buflen srclen m srcpos bufpos
        end
      else Ret (m, bufpos)
  end.

(** The frame the functions share: nothing for an empty buffer, else the loop from
    the start and the NUL at its end. *)
Definition transform_frame (body : list Z -> nat -> nat -> outcome turn)
    (m : list Z) (buffer buflen srclen : nat) : outcome (list Z * nat) :=
  if (buflen =? 0)%nat then Ret (m, 0%nat)
  else
    let! (m, bufpos) := transform_loop (S srclen) body buflen srclen m 0 0 in
    let! m := st m (buffer + bufpos) 0 in
    Ret (m, bufpos).

Section Functions.
Variables (buffer buflen source srclen : nat).

Definition escape_body (illegal : list Z) (escape : Z) (m : list Z) (srcpos bufpos : nat) : outcome turn :=
  let! ch := ld m (source + srcpos) in
  if (ch =? escape) || is_illegal illegal ch then
    if (buflen <=? bufpos + 2)%nat then Ret None
    else
      let! m := st m (buffer + bufpos) escape in
      let! m := st m (buffer + (bufpos + 1)) ch in
      Ret (Some (m, srcpos + 1, bufpos + 2))%nat
  else
    let! m := st m (buffer + bufpos) ch in
    Ret (Some (m, srcpos + 1, bufpos + 1))%nat.

Definition unescape_body (escape : Z) (m : list Z) (srcpos bufpos : nat) : outcome turn :=
  let! ch := ld m (source + srcpos) in
  if (ch =? escape) && (srcpos + 1 <? srclen)%nat then
    let! ch := ld m (source + (srcpos + 1)) in
    let! m := st m (buffer + bufpos) ch in
    Ret (Some (m, srcpos + 2, bufpos + 1))%nat
  else
    let! m := st m (buffer + bufpos) ch in
    Ret (Some (m, srcpos + 1, bufpos + 1))%nat.

(** The escape character and two digits, or [break]. *)
Definition encode_hex (escape ch : Z) (m : list Z) (srcpos bufpos : nat) : outcome turn :=
  if (buflen <=? bufpos + 3)%nat then Ret None
  else
    let! m := st m (buffer + bufpos) escape in
    let! m := st m (buffer + (bufpos + 1)) (hex_encode (Z.land (Z.shiftr ch 4) 15)) in
    let! m := st m (buffer + (bufpos + 2)) (hex_encode (Z.land ch 15)) in
    Ret (Some (m, srcpos + 1, bufpos + 3))%nat.

Definition encode_body (illegal : list Z) (escape : Z) (m : list Z) (srcpos bufpos : nat) : outcome turn :=
  let! ch := ld m (source + srcpos) in
  if negb (ch =? escape) && negb (is_illegal illegal ch) then
    let! m := st m (buffer + bufpos) ch in
    Ret (Some (m, srcpos + 1, bufpos + 1))%nat
  else encode_hex escape ch m srcpos bufpos.

Definition decode_body (escape : Z) (m : list Z) (srcpos bufpos : nat) : outcome turn :=
  let! ch := ld m (source + srcpos) in
  if (ch =? escape) && (srcpos + 1 + 1 <? srclen)%nat then
    let! h := ld m (source + (srcpos + 1)) in
    let! l := ld m (source + (srcpos + 2)) in
    let! m := st m (buffer + bufpos) (hex_decode2 h l) in
    Ret (Some (m, srcpos + 3, bufpos + 1))%nat
  else
    let! m := st m (buffer + bufpos) ch in
    Ret (Some (m, srcpos + 1, bufpos + 1))%nat.

Definition url_encode_body (m : list Z) (srcpos bufpos : nat) : outcome turn :=
  let! ch := ld m (source + srcpos) in
  if is_unsafe URL_UNSAFE ch then encode_hex 37 ch m srcpos bufpos
  else
    let! m := st m (buffer + bufpos) ch in
    Ret (Some (m, srcpos + 1, bufpos + 1))%nat.

Definition url_decode_body (m : list Z) (srcpos bufpos : nat) : outcome turn :=
  let! ch := ld m (source + srcpos) in
  if ch =? 43 then
    let! m := st m (buffer + bufpos) 32 in
    Ret (Some (m, srcpos + 1, bufpos + 1))%nat
  else if (ch =? 37) && (srcpos + 1 + 1 <? srclen)%nat then
    let! h := ld m (source + (srcpos + 1)) in
    let! l := ld m (source + (srcpos + 2)) in
    let! m := st m (buffer + bufpos) (hex_decode2 h l) in
    Ret (Some (m, srcpos + 3, bufpos + 1))%nat
  else
    let! m := st m (buffer + bufpos) ch in
    Ret (Some (m, srcpos + 1, bufpos + 1))%nat.

(** The loop of [hex_encode (buffer, ...)]: all of [srclen] digits fit. *)
Fixpoint hex_encode_loop (n : nat) (m : list Z) (srcpos bufpos : nat) : outcome (list Z * nat) :=
  match n with
  | O => Ret (m, bufpos)
  | S n =>
      let! ch := ld m (source + srcpos) in
      let! m := st m (buffer + bufpos) (hex_encode (Z.land (Z.shiftr ch 4) 15)) in
      let! m := st m (buffer + (bufpos + 1)) (hex_encode (Z.land ch 15)) in
      hex_encode_loop n m (srcpos + 1) (bufpos + 2)
  end.

Fixpoint hex_decode_loop (fuel : nat) (m : list Z) (srcpos bufpos : nat) : outcome (list Z * nat) :=
  match fuel with
  | O => NoFuel
  | S fuel =>
      if (srcpos + 1 <? srclen)%nat && (bufpos + 1 <? buflen)%nat then
        let! h := ld m (source + srcpos) in
        let! l := ld m (source + (srcpos + 1)) in
        let v1 := u8 (Z.shiftl (hex_decode h) 4) in
        let v2 := hex_decode l in
        let! m := st m (buffer + bufpos) (Z.lor v1 v2) in
        hex_decode_loop fuel m (srcpos + 2) (bufpos + 1)
      else Ret (m, bufpos)
  end.
End Functions.

Definition escape (m : list Z) (buffer buflen source srclen : nat) (illegal : list Z) (escape : Z) :=
  transform_frame (escape_body buffer buflen source illegal escape) m buffer buflen srclen.
Definition unescape (m : list Z) (buffer buflen source srclen : nat) (escape : Z) :=
  transform_frame (unescape_body buffer source srclen escape) m buffer buflen srclen.
Definition encode (m : list Z) (buffer buflen source srclen : nat) (illegal : list Z) (escape : Z) :=
  transform_frame (encode_body buffer buflen source illegal escape) m buffer buflen srclen.
Definition decode (m : list Z) (buffer buflen source srclen : nat) (escape : Z) :=
  transform_frame (decode_body buffer source srclen escape) m buffer buflen srclen.

(** [url_encode] and [url_decode] answer the space they may need for a NULL buffer. *)
Definition url_encode (m : list Z) (buffer : option nat) (buflen source srclen : nat) :=
  match buffer with
  | None => Ret (m, (srclen * 3 + 1)%nat)
  | Some buffer => transform_frame (url_encode_body buffer buflen source) m buffer buflen srclen
  end.
Definition url_decode (m : list Z) (buffer : option nat) (buflen source srclen : nat) :=
  match buffer with
  | None => Ret (m, (srclen + 1)%nat)
  | Some buffer => transform_frame (url_decode_body buffer source srclen) m buffer buflen srclen
  end.

Definition hex_encode_buf (m : list Z) (buffer buflen source srclen : nat) : outcome (list Z * nat) :=
  if (buflen =? 0)%nat then Ret (m, 0%nat)
  else
    let srclen := Nat.min srclen ((buflen - 1) / 2) in
    let! (m, bufpos) := hex_encode_loop buffer source srclen m 0 0 in
    let! m := st m (buffer + bufpos) 0 in
    Ret (m, bufpos).

Definition hex_decode_buf (m : list Z) (buffer buflen source srclen : nat) : outcome (list Z * nat) :=
  if (buflen =? 0)%nat then Ret (m, 0%nat)
  else
    let! (m, bufpos) := hex_decode_loop buffer buflen source srclen (S srclen) m 0 0 in
    let! m := st m (buffer + bufpos) 0 in
    Ret (m, bufpos).

(** [s_transform]: [alloca] gives [maxlen] bytes of any content behind the data of
    [source]. *)
Definition Transform : Type := list Z -> option nat -> nat -> nat -> nat -> outcome (list Z * nat).
Definition s_transform (junk : nat -> list Z) (src : list Z) (t : Transform) : outcome (list Z) :=
  let n := length src in
  let! (_, maxlen) := t src None 0%nat 0%nat n in
  let m := src ++ [0] ++ resize maxlen 0 (junk maxlen) in
  let! (m, len) := t m (Some (S n)) maxlen 0%nat n in
  if (S n + len <=? length m)%nat then Ret (slice m (S n) (S n + len)) else Crash.

Definition s_url_encode (junk : nat -> list Z) (src : list Z) := s_transform junk src url_encode.
Definition s_url_decode (junk : nat -> list Z) (src : list Z) := s_transform junk src url_decode.

Definition make_char_safe_for_filename (c : Z) : Z :=
  if s8 c <? 32 then 95
  else if char_in c (b! "<>:" ++ [34] ++ b! "/\|*?") then 95
  else c.

(** ** What the loops compute *)

(** A turn as a function on strings: given the room that is left besides the NUL and
    the rest of the source, the bytes written and the bytes read; [None] ends the
    loop. *)
Definition step : Type := nat -> list Z -> option (list Z * nat).

Fixpoint emit (fuel : nat) (f : step) (room : nat) (s : list Z) : list Z :=
  match fuel with
  | O => []
  | S fuel =>
      match s with
      | [] => []
      | _ :: _ =>
          if (room =? 0)%nat then []
          else match f room s with
               | None => []
               | Some (c, k) => c ++ emit fuel f (room - length c) (drop k s)
               end
      end
  end.

(** The string a function leaves in a buffer of [buflen] bytes. *)
Definition transformed (f : step) (buflen : nat) (s : list Z) : list Z :=
  emit (length s) f (buflen - 1) s.

(** A step that writes what [enc] makes of one character, if it fits. *)
Definition char_step (enc : Z -> list Z) : step := fun room s =>
  match s with
  | [] => None
  | ch :: _ => if (room <? length (enc ch))%nat then None else Some (enc ch, 1%nat)
  end.
(** A step of a decoder: one character from the bytes that [dec] reads. *)
Definition dec_step (dec : list Z -> Z * nat) : step := fun _ s =>
  match s with [] => None | _ :: _ => Some ([(dec s).1], (dec s).2) end.

Definition hex2 (ch : Z) : list Z := [hex_encode (Z.land (Z.shiftr ch 4) 15); hex_encode (Z.land ch 15)].

Definition escape_char (illegal : list Z) (escape ch : Z) : list Z :=
  if (ch =? escape) || is_illegal illegal ch then [escape; ch] else [ch].
Definition encode_char (illegal : list Z) (escape ch : Z) : list Z :=
  if negb (ch =? escape) && negb (is_illegal illegal ch) then [ch] else escape :: hex2 ch.
Definition url_encode_char (ch : Z) : list Z :=
  if is_unsafe URL_UNSAFE ch then 37 :: hex2 ch else [ch].
Definition unescape_next (escape : Z) (s : list Z) : Z * nat :=
  match s with
  | c :: d :: _ => if c =? escape then (d, 2%nat) else (c, 1%nat)
  | c :: _ => (c, 1%nat)
  | [] => (0, 1%nat)
  end.
Definition decode_next (escape : Z) (s : list Z) : Z * nat :=
  match s with
  | c :: h :: l :: _ => if c =? escape then (hex_decode2 h l, 3%nat) else (c, 1%nat)
  | c :: _ => (c, 1%nat)
  | [] => (0, 1%nat)
  end.
Definition url_decode_next (s : list Z) : Z * nat :=
  match s with
  | 43 :: _ => (32, 1%nat)
  | _ => decode_next 37 s
  end.

Lemma st_mem_write (m : list Z) a v : (a < length m)%nat -> st m a v = Ret (mem_write m a [v]).
Proof.
  intros. unfold st. replace (a <? length m)%nat with true by (symmetry; apply Nat.ltb_lt; lia).
  f_equal. unfold mem_write. cbn [length app]. rewrite insert_take_drop by lia. by rewrite Nat.add_1_r.
Qed.

Lemma st_append (m : list Z) a c v :
  (a + length c < length m)%nat -> st (mem_write m a c) (a + length c) v = Ret (mem_write m a (c ++ [v])).
Proof.
  intros. rewrite st_mem_write by (rewrite length_mem_write; lia).
  by rewrite mem_write_app by (cbn; lia).
Qed.

(** A function on strings that the turns of a loop follow. *)
Class Step (f : step) (slack : nat) : Prop := {
  step_reads room s c k : f room s = Some (c, k) -> (1 <= k <= length s)%nat;
  step_fits room s c k : (0 < room)%nat -> f room s = Some (c, k) -> (length c <= room + slack)%nat;
}.
Definition shrinks (f : step) : Prop :=
  forall room s c k, f room s = Some (c, k) -> (length c <= k)%nat.

#[export] Instance char_step_Step enc : Step (char_step enc) 0.
Proof.
  split; unfold char_step; intros room [|x s] c k; try done.
  - destruct (_ <? _)%nat; [done|]. intros [= <- <-]. cbn. lia.
  - intros _. destruct (Nat.ltb_spec room (length (enc x))); [done|]. intros [= <- <-]. lia.
Qed.

(** A decoder reads at most what there is. *)
Definition reads_within (dec : list Z -> Z * nat) : Prop :=
  forall s, s <> [] -> (1 <= (dec s).2 <= length s)%nat.
Lemma dec_step_Step dec : reads_within dec -> Step (dec_step dec) 0.
Proof.
  intros H. split; unfold dec_step; intros room [|x s] c k; try done.
  - intros [= <- <-]. by apply H.
  - intros ? [= <- <-]. cbn. lia.
Qed.
Lemma dec_step_shrinks dec : reads_within dec -> shrinks (dec_step dec).
Proof. intros H room [|x s] c k; [done|]. intros [= <- <-]. cbn [length]. by apply H. Qed.

Lemma unescape_reads e : reads_within (unescape_next e).
Proof. intros [|? [|? ?]] ?; cbn; [done|lia|]. destruct (_ =? _); cbn; lia. Qed.
Lemma decode_reads e : reads_within (decode_next e).
Proof. intros [|? [|? [|? ?]]] ?; cbn; [done|lia|lia|]. destruct (_ =? _); cbn; lia. Qed.
Lemma url_decode_next_cases a s :
  url_decode_next (a :: s) = if a =? 43 then (32, 1%nat) else decode_next 37 (a :: s).
Proof.
  destruct (Z.eqb_spec a 43) as [->|]; [done|]. unfold url_decode_next.
  destruct a as [|p|p]; try done. by repeat (destruct p; try done).
Qed.
Lemma url_decode_reads : reads_within url_decode_next.
Proof.
  intros [|a s] ?; [done|]. rewrite url_decode_next_cases.
  destruct (_ =? _); [cbn; lia|]. by apply decode_reads.
Qed.

Section Loop.
Context (f : step) (slack : nat) `{Hf : !Step f slack}.
Context (body : list Z -> nat -> nat -> outcome turn).
Context (buffer buflen source srclen : nat) (tail : list Z).

(** [s] is what the source holds from [srcpos] on, before [tail]. *)
Definition view (m : list Z) (srcpos : nat) (s : list Z) : Prop :=
  (srcpos + length s = srclen)%nat /\
  slice m (source + srcpos) (source + srclen + length tail) = s ++ tail.

Definition body_follows : Prop := forall m srcpos bufpos s,
  view m srcpos s -> s <> [] -> (bufpos + 1 < buflen)%nat -> (buffer + buflen <= length m)%nat ->
  body m srcpos bufpos =
  Ret (match f (buflen - 1 - bufpos)%nat s with
       | None => None
       | Some (c, k) => Some (mem_write m (buffer + bufpos) c, srcpos + k, bufpos + length c)%nat
       end).

(** The writes never reach what is still to be read: the two are apart, or the buffer
    starts at or before the source and the output is never ahead of the input. *)
Definition no_clobber : Prop :=
  (buffer + buflen <= source)%nat \/ (source + srclen + length tail <= buffer)%nat \/
  ((buffer <= source)%nat /\ shrinks f).

Lemma emit_fuel n room s : (length s <= n)%nat -> emit n f room s = emit (length s) f room s.
Proof.
  revert room s. induction (lt_wf n) as [n _ IH]. intros room [|x s] Hn; [by destruct n|].
  destruct n as [|n]; cbn [length] in Hn; [lia|]. cbn [length emit].
  destruct (room =? 0)%nat; [done|]. destruct (f room (x :: s)) as [[c k]|] eqn:E; [|done].
  apply step_reads in E. cbn [length] in E. f_equal.
  assert (length (drop k (x :: s)) <= length s)%nat by (rewrite length_drop; cbn [length]; lia).
  destruct (decide (n = length s)) as [->|]; [done|].
  rewrite (IH n), <- (IH (length s)) by lia. done.
Qed.

Lemma emit_length n room s : (length (emit n f room s) <= room + slack)%nat.
Proof.
  revert room s. induction n as [|n IH]; intros room s; cbn [emit]; [cbn; lia|].
  destruct s as [|x s]; [cbn; lia|]. destruct (Nat.eqb_spec room 0); [cbn; lia|].
  destruct (f room (x :: s)) as [[c k]|] eqn:E; [|cbn; lia].
  apply step_fits in E; [|lia]. rewrite length_app.
  destruct (decide (room <= length c)%nat).
  - replace (room - length c)%nat with 0%nat by lia.
    replace (emit n f 0 (drop k (x :: s))) with (@nil Z); [cbn; lia|].
    destruct n; [done|]. cbn [emit]. by destruct (drop k (x :: s)).
  - specialize (IH (room - length c)%nat (drop k (x :: s))). lia.
Qed.

Lemma view_step m srcpos bufpos s c k :
  view m srcpos s -> (1 <= k <= length s)%nat -> no_clobber ->
  (buffer + bufpos + length c <= buffer + buflen)%nat -> (buffer + buflen <= length m)%nat ->
  (shrinks f -> bufpos <= srcpos /\ length c <= k)%nat ->
  view (mem_write m (buffer + bufpos) c) (srcpos + k) (drop k s).
Proof.
  intros [Hl Hv] Hk Hc Hw Hm Hs. split; [rewrite length_drop; lia|].
  assert (E : slice m (source + (srcpos + k)) (source + srclen + length tail) = drop k s ++ tail).
  { rewrite Nat.add_assoc, <- slice_drop, Hv. apply drop_app_le. lia. }
  destruct Hc as [Hc|[Hc|[Hc Hsh]]].
  - by rewrite slice_mem_write_after by lia.
  - by rewrite slice_mem_write_before by lia.
  - specialize (Hs Hsh). by rewrite slice_mem_write_after by lia.
Qed.

Lemma transform_loop_emits fuel m srcpos bufpos s :
  body_follows -> no_clobber -> (slack <= 1)%nat ->
  view m srcpos s -> (length s < fuel)%nat -> (buffer + buflen <= length m)%nat ->
  (bufpos <= buflen)%nat -> (shrinks f -> bufpos <= srcpos)%nat ->
  let o := emit (length s) f (buflen - 1 - bufpos)%nat s in
  transform_loop fuel body buflen srclen m srcpos bufpos =
  Ret (mem_write m (buffer + bufpos) o, bufpos + length o)%nat.
Proof.
  intros Hbody Hc Hsl. revert m srcpos bufpos s.
  induction fuel as [|fuel IH]; intros m srcpos bufpos s Hv Hf' Hm Hb Hs; [lia|].
  pose proof Hv as [Hl _]. cbn [transform_loop].
  assert (Hend : forall o : list Z, o = [] ->
    Ret (m, bufpos) = Ret (mem_write m (buffer + bufpos) o, (bufpos + length o)%nat)).
  { intros o ->. by rewrite mem_write_nil, Nat.add_0_r. }
  destruct s as [|x s].
  { replace (srcpos <? srclen)%nat with false; [by apply Hend|].
    symmetry. apply Nat.ltb_ge. cbn in Hl. lia. }
  replace (srcpos <? srclen)%nat with true
    by (symmetry; apply Nat.ltb_lt; cbn [length] in Hl; lia).
  cbn [andb length emit]. destruct (Nat.ltb_spec (bufpos + 1) buflen) as [Hr|Hr].
  2:{ apply Hend. by replace (buflen - 1 - bufpos)%nat with 0%nat by lia. }
  replace (buflen - 1 - bufpos =? 0)%nat with false by (symmetry; apply Nat.eqb_neq; lia).
  rewrite (Hbody m srcpos bufpos (x :: s)) by done.
  destruct (f _ (x :: s)) as [[c k]|] eqn:E; cbn [obind]; [|by apply Hend].
  pose proof (step_reads _ _ _ _ E) as Hk. pose proof (step_fits (buflen - 1 - bufpos)%nat _ _ _ ltac:(lia) E) as Hlc.
  assert (Hsh : (shrinks f -> bufpos <= srcpos /\ length c <= k)%nat).
  { intros Hsh. split; [by apply Hs|]. by eapply Hsh. }
  assert (Hv' : view (mem_write m (buffer + bufpos) c) (srcpos + k) (drop k (x :: s))).
  { apply view_step; try done; lia. }
  assert (Hm' : length (mem_write m (buffer + bufpos) c) = length m).
  { apply length_mem_write. lia. }
  assert (Hd : (length (drop k (x :: s)) <= length s)%nat) by (rewrite length_drop; cbn [length]; lia).
  rewrite (IH _ _ _ _ Hv'); [|cbn [length] in *; lia|lia|lia|intros H; specialize (Hsh H); lia].
  rewrite (emit_fuel (length s)) by done.
  replace (buflen - 1 - (bufpos + length c))%nat with (buflen - 1 - bufpos - length c)%nat by lia.
  set (o := emit _ f _ (drop k (x :: s))).
  pose proof (emit_length (length (drop k (x :: s))) (buflen - 1 - bufpos - length c) (drop k (x :: s))) as Ho.
  fold o in Ho. rewrite length_app, Nat.add_assoc. f_equal. f_equal; [|lia].
  apply mem_write_app.
  destruct (decide (buflen - 1 - bufpos <= length c)%nat) as [Hle|]; [|lia].
  replace o with (@nil Z); [cbn; lia|]. subst o.
  replace (buflen - 1 - bufpos - length c)%nat with 0%nat by lia.
  destruct (drop k (x :: s)); [done|]. by cbn [length emit].
Qed.

(** The functions of the file, as functions of the string they read. *)
Theorem transform_frame_spec m s :
  body_follows -> no_clobber -> (slack <= 1)%nat -> view m 0 s ->
  (0 < buflen)%nat -> (buffer + buflen <= length m)%nat ->
  let o := transformed f buflen s in
  transform_frame body m buffer buflen srclen =
  (if (buffer + length o <? length m)%nat then Ret (mem_write m buffer (o ++ [0]), length o) else Crash).
Proof.
  intros Hb Hc Hsl Hv H0 Hm. unfold transform_frame.
  replace (buflen =? 0)%nat with false by (symmetry; apply Nat.eqb_neq; lia).
  pose proof Hv as [Hl _]. rewrite (transform_loop_emits _ m 0 0 s) by (try done; lia).
  cbn [obind]. rewrite !Nat.add_0_r, Nat.add_0_l, Nat.sub_0_r. fold (transformed f buflen s).
  set (o := transformed f buflen s).
  assert (Ho : (length o <= buflen)%nat).
  { pose proof (emit_length (length s) (buflen - 1) s). unfold o, transformed. lia. }
  destruct (Nat.ltb_spec (buffer + length o) (length m)) as [H|H].
  - rewrite st_mem_write by (rewrite length_mem_write; lia). cbn [obind].
    rewrite mem_write_app by (cbn; lia). done.
  - unfold st. rewrite length_mem_write by lia.
    by replace (_ <? _)%nat with false by (symmetry; apply Nat.ltb_ge; lia).
Qed.
End Loop.

(** ** The bodies follow their steps *)

Lemma slice_lookup_inv (m : list Z) lo hi i x : slice m lo hi !! i = Some x -> m !! (lo + i)%nat = Some x.
Proof.
  unfold slice. intros H. rewrite lookup_take_Some in H. destruct H as [H _].
  by rewrite lookup_drop in H.
Qed.

Lemma view_ld source srclen tail m srcpos s i x :
  view source srclen tail m srcpos s -> s !! i = Some x -> ld m (source + (srcpos + i)) = Ret x.
Proof.
  intros [Hl Hv] Hx. unfold ld. rewrite Nat.add_assoc.
  by rewrite (slice_lookup_inv m _ (source + srclen + length tail) i x) by (rewrite Hv; by apply lookup_app_l_Some).
Qed.

(** Reads the characters at the front of a view, writes one byte, and decides the
    tests on the positions. *)
Ltac view_head Hv H0 :=
  pose proof (view_ld _ _ _ _ _ _ 0 _ Hv eq_refl) as H0; rewrite Nat.add_0_r in H0; rewrite H0;
  cbn [obind].
Ltac view_next Hv :=
  rewrite (view_ld _ _ _ _ _ _ 1 _ Hv eq_refl), ?(view_ld _ _ _ _ _ _ 2 _ Hv eq_refl); cbn [obind].
Ltac put_byte := rewrite st_mem_write by lia; cbn [obind].

Section Bodies.
Context (buffer buflen source srclen : nat) (tail : list Z).

Lemma escape_follows illegal esc :
  body_follows (char_step (escape_char illegal esc)) (escape_body buffer buflen source illegal esc)
    buffer buflen source srclen tail.
Proof.
  intros m sp bp [|ch s] Hv Hs Hb Hm; [done|]. unfold escape_body. view_head Hv H0.
  unfold char_step, escape_char. destruct (_ || _); cbn [length].
  - destruct (Nat.leb_spec buflen (bp + 2)), (Nat.ltb_spec (buflen - 1 - bp) 2); try lia; [done|].
    rewrite !Nat.add_assoc. put_byte. by rewrite (st_append m _ [esc]) by (cbn; lia).
  - destruct (Nat.ltb_spec (buflen - 1 - bp) 1); [lia|]. by put_byte.
Qed.

Lemma encode_hex_follows e ch m sp bp s :
  (bp + 1 < buflen)%nat -> (buffer + buflen <= length m)%nat -> 
  encode_hex buffer buflen e ch m sp bp =
  Ret (match char_step (fun ch => e :: hex2 ch) (buflen - 1 - bp)%nat (ch :: s) with
       | None => None
       | Some (c, k) => Some (mem_write m (buffer + bp) c, sp + k, bp + length c)%nat
       end).
Proof.
  intros Hb Hm. unfold encode_hex, char_step. cbn [length hex2].
  destruct (Nat.leb_spec buflen (bp + 3)), (Nat.ltb_spec (buflen - 1 - bp) 3); try lia; [done|].
  rewrite !Nat.add_assoc. put_byte.
  rewrite (st_append m _ [e]) by (cbn; lia). cbn [obind app].
  by rewrite (st_append m _ [e; _]) by (cbn; lia).
Qed.

Lemma encode_follows illegal e :
  body_follows (char_step (encode_char illegal e)) (encode_body buffer buflen source illegal e)
    buffer buflen source srclen tail.
Proof.
  intros m sp bp [|ch s] Hv Hs Hb Hm; [done|]. unfold encode_body. view_head Hv H0.
  unfold char_step, encode_char. destruct (_ && _).
  - cbn [length]. destruct (Nat.ltb_spec (buflen - 1 - bp) 1); [lia|]. by put_byte.
  - by rewrite (encode_hex_follows _ _ _ _ _ s).
Qed.

Lemma url_encode_follows :
  body_follows (char_step url_encode_char) (url_encode_body buffer buflen source)
    buffer buflen source srclen tail.
Proof.
  intros m sp bp [|ch s] Hv Hs Hb Hm; [done|]. unfold url_encode_body. view_head Hv H0.
  unfold char_step, url_encode_char. destruct (is_unsafe _ _).
  - by rewrite (encode_hex_follows _ _ _ _ _ s).
  - cbn [length]. destruct (Nat.ltb_spec (buflen - 1 - bp) 1); [lia|]. by put_byte.
Qed.

Lemma unescape_follows e :
  body_follows (dec_step (unescape_next e)) (unescape_body buffer source srclen e)
    buffer buflen source srclen tail.
Proof.
  intros m sp bp s Hv Hs Hb Hm. pose proof Hv as [Hl _]. destruct s as [|ch [|d s]]; [done| |].
  all: cbn [length] in Hl; unfold unescape_body, dec_step; view_head Hv H0; cbn [unescape_next].
  - replace (sp + 1 <? srclen)%nat with false by (symmetry; apply Nat.ltb_ge; lia).
    rewrite andb_false_r. by put_byte.
  - replace (sp + 1 <? srclen)%nat with true by (symmetry; apply Nat.ltb_lt; lia).
    rewrite andb_true_r. destruct (ch =? e); cbn [fst snd]; [view_next Hv|]; by put_byte.
Qed.

(** The turn [decode] and [url_decode] share. *)
Lemma decode_next_follows e m sp bp ch s :
  view source srclen tail m sp (ch :: s) -> (bp + 1 < buflen)%nat -> (buffer + buflen <= length m)%nat ->
  decode_body buffer source srclen e m sp bp =
  Ret (Some (mem_write m (buffer + bp) [(decode_next e (ch :: s)).1],
             sp + (decode_next e (ch :: s)).2, bp + 1))%nat.
Proof.
  intros Hv Hb Hm. pose proof Hv as [Hl _]. unfold decode_body. view_head Hv H0.
  destruct s as [|h [|l s]]; cbn [length] in Hl; cbn [decode_next].
  1,2: replace (sp + 1 + 1 <? srclen)%nat with false by (symmetry; apply Nat.ltb_ge; lia);
    rewrite andb_false_r; by put_byte.
  replace (sp + 1 + 1 <? srclen)%nat with true by (symmetry; apply Nat.ltb_lt; lia).
  rewrite andb_true_r. destruct (ch =? e); cbn [fst snd]; [view_next Hv|]; by put_byte.
Qed.

Lemma decode_follows e :
  body_follows (dec_step (decode_next e)) (decode_body buffer source srclen e)
    buffer buflen source srclen tail.
Proof. intros m sp bp [|ch s] Hv Hs Hb Hm; [done|]. by rewrite (decode_next_follows e m sp bp ch s). Qed.

Lemma url_decode_follows :
  body_follows (dec_step url_decode_next) (url_decode_body buffer source srclen)
    buffer buflen source srclen tail.
Proof.
  intros m sp bp [|ch s] Hv Hs Hb Hm; [done|]. unfold dec_step. rewrite url_decode_next_cases.
  unfold url_decode_body. view_head Hv H0. destruct (ch =? 43); [by put_byte|].
  pose proof (decode_next_follows 37 m sp bp ch s Hv Hb Hm) as E.
  unfold decode_body in E. rewrite H0 in E. cbn [obind] in E. exact E.
Qed.
End Bodies.

(** ** Encoders and decoders *)

(** How many characters of [s] fit in [room] bytes once encoded. *)
Fixpoint fitting (enc : Z -> list Z) (room : nat) (s : list Z) : nat :=
  match s with
  | [] => 0
  | ch :: s =>
      if (room <? length (enc ch))%nat then 0 else S (fitting enc (room - length (enc ch)) s)
  end.

Definition encoded (enc : Z -> list Z) (s : list Z) : list Z := concat (map enc s).

Lemma fitting_le enc room s : (fitting enc room s <= length s)%nat.
Proof.
  revert room. induction s as [|c s IH]; intros room; cbn [fitting length]; [done|].
  destruct (_ <? _)%nat; [lia|]. specialize (IH (room - length (enc c))%nat). lia.
Qed.

(** Everything fits, or the next character does not. *)
Lemma fitting_spec enc room s :
  let k := fitting enc room s in
  (length (encoded enc (take k s)) <= room)%nat /\
  (k = length s \/ exists ch, s !! k = Some ch /\
     (room < length (encoded enc (take k s)) + length (enc ch))%nat).
Proof.
  revert room. induction s as [|c s IH]; intros room; cbn zeta; cbn [fitting].
  { split; [cbn; lia|by left]. }
  destruct (Nat.ltb_spec room (length (enc c))).
  { cbn. split; [lia|right]. exists c. split; [done|lia]. }
  destruct (IH (room - length (enc c))%nat) as [H1 H2]. unfold encoded in *. cbn [take map concat].
  rewrite length_app. split; [lia|]. destruct H2 as [->|(ch & Hl & H2)]; [by left|].
  right. exists ch. split; [done|lia].
Qed.

Lemma fitting_all enc room s : (length (encoded enc s) <= room)%nat -> fitting enc room s = length s.
Proof.
  revert room. induction s as [|c s IH]; intros room; [done|]. cbn [encoded map concat fitting length].
  unfold encoded. cbn [map concat]. rewrite length_app. intros.
  destruct (Nat.ltb_spec room (length (enc c))); [lia|]. f_equal. apply IH. unfold encoded. lia.
Qed.

Class Codec (enc : Z -> list Z) (dec : list Z -> Z * nat) : Prop := {
  enc_some ch : enc ch <> [];
  dec_within : reads_within dec;
  dec_enc ch rest : is_byte ch -> dec (enc ch ++ rest) = (ch, length (enc ch));
}.

Lemma char_step_emits enc n room s :
  (forall ch, enc ch <> []) -> (length s <= n)%nat ->
  emit n (char_step enc) room s = encoded enc (take (fitting enc room s) s).
Proof.
  intros He. revert n room. induction s as [|c s IH]; intros n room Hn; [by destruct n|].
  destruct n as [|n]; cbn [length] in Hn; [lia|]. cbn [emit fitting].
  specialize (He c) as Hc. destruct (Nat.eqb_spec room 0) as [->|].
  { destruct (enc c); [done|]. done. }
  unfold char_step. destruct (_ <? _)%nat; [done|]. cbn [take]. unfold encoded. cbn [map concat].
  f_equal. cbn [drop]. apply IH. lia.
Qed.

Lemma encoded_length_ge enc dec `{!Codec enc dec} s : (length s <= length (encoded enc s))%nat.
Proof.
  unfold encoded. induction s as [|c s IH]; [done|]. cbn [map concat length]. rewrite length_app.
  pose proof (enc_some c). destruct (enc c); [done|]. cbn [length]. lia.
Qed.

Lemma dec_step_emits enc dec `{Hc : !Codec enc dec} n room t :
  Forall is_byte t -> (length (encoded enc t) <= n)%nat ->
  emit n (dec_step dec) room (encoded enc t) = take room t.
Proof.
  intros Ht. revert n room. induction Ht as [|c t Hc' Ht IH]; intros n room Hn.
  { rewrite take_nil. by destruct n. }
  unfold encoded in *. cbn [map concat] in *. pose proof (enc_some c) as Hs.
  pose proof (dec_enc c (concat (map enc t)) Hc') as Hd.
  destruct (enc c) as [|x e] eqn:E; [done|]. rewrite length_app in Hn. cbn [length] in Hn.
  destruct n as [|n]; [lia|]. cbn [app emit]. destruct room as [|room]; [done|]. cbn [Nat.eqb].
  unfold dec_step at 1. cbn [app] in Hd. rewrite Hd. cbn [fst snd length app take].
  rewrite Nat.sub_succ, Nat.sub_0_r. cbn [drop]. rewrite drop_app_length. f_equal. apply IH. lia.
Qed.

Lemma view_disjoint m source srclen :
  (source + srclen <= length m)%nat -> view source srclen [] m 0 (slice m source (source + srclen)).
Proof.
  intros. split; [rewrite length_slice by lia; lia|].
  by rewrite app_nil_r, !Nat.add_0_r.
Qed.

(** What an encoder and a decoder of the file do to a memory. *)
Lemma encoder_spec enc body m buffer buflen source srclen :
  (forall ch, enc ch <> []) ->
  body_follows (char_step enc) body buffer buflen source srclen [] ->
  (buffer + buflen <= source \/ source + srclen <= buffer)%nat -> (0 < buflen)%nat ->
  (buffer + buflen <= length m)%nat -> (source + srclen <= length m)%nat ->
  let s := slice m source (source + srclen) in
  let o := encoded enc (take (fitting enc (buflen - 1) s) s) in
  transform_frame body m buffer buflen srclen = Ret (mem_write m buffer (o ++ [0]), length o).
Proof.
  intros He Hb Hd H0 Hm Hs s o.
  rewrite (transform_frame_spec (char_step enc) 0 body buffer buflen source srclen [] m s);
    try done; [|unfold no_clobber; cbn [length]; lia|lia|by apply view_disjoint].
  unfold transformed. rewrite char_step_emits by done. fold o.
  destruct (fitting_spec enc (buflen - 1) s) as [Hl _]. fold o in Hl.
  by replace (buffer + length o <? length m)%nat with true by (symmetry; apply Nat.ltb_lt; lia).
Qed.

Lemma decoder_spec dec body m buffer buflen source srclen :
  reads_within dec ->
  body_follows (dec_step dec) body buffer buflen source srclen [] ->
  (buffer <= source \/ source + srclen <= buffer)%nat -> (0 < buflen)%nat ->
  (buffer + buflen <= length m)%nat -> (source + srclen <= length m)%nat ->
  let o := transformed (dec_step dec) buflen (slice m source (source + srclen)) in
  transform_frame body m buffer buflen srclen = Ret (mem_write m buffer (o ++ [0]), length o) /\
  (length o < buflen)%nat.
Proof.
  intros Hr Hb Hd H0 Hm Hs o. pose proof (dec_step_Step dec Hr) as Hst.
  assert (Hl : (length o <= buflen - 1 + 0)%nat) by apply emit_length, _.
  split; [|lia].
  rewrite (transform_frame_spec (dec_step dec) 0 body buffer buflen source srclen [] m
    (slice m source (source + srclen))); try done; [|unfold no_clobber; cbn [length]|lia|by apply view_disjoint].
  - fold o. by replace (buffer + length o <? length m)%nat with true by (symmetry; apply Nat.ltb_lt; lia).
  - pose proof (dec_step_shrinks dec Hr). destruct Hd; auto. right. left. lia.
Qed.

(** The digits of a byte are read back. *)
Lemma hex_decode2_hex2 ch : is_byte ch ->
  hex_decode2 (hex_encode (Z.land (Z.shiftr ch 4) 15)) (hex_encode (Z.land ch 15)) = ch.
Proof.
  intros H. apply Z.eqb_eq. revert ch H.
  apply (is_byte_forall (fun ch => hex_decode2 (hex_encode (Z.land (Z.shiftr ch 4) 15))
    (hex_encode (Z.land ch 15)) =? ch)). by vm_compute.
Qed.

#[export] Instance escape_Codec illegal e : Codec (escape_char illegal e) (unescape_next e).
Proof.
  split; [|apply unescape_reads|].
  - intros ch. unfold escape_char. by destruct (_ || _).
  - intros ch rest _. unfold escape_char. destruct (Z.eqb_spec ch e) as [->|Hn]; cbn [orb].
    { cbn [unescape_next app]. by rewrite Z.eqb_refl. }
    destruct (is_illegal _ _); cbn [unescape_next app]; [by rewrite Z.eqb_refl|].
    destruct rest; [done|]. by rewrite (proj2 (Z.eqb_neq ch e) Hn).
Qed.

Lemma decode_next_plain e ch rest : ch <> e -> decode_next e (ch :: rest) = (ch, 1%nat).
Proof. intros Hn. destruct rest as [|? [|? ?]]; cbn; try done. by rewrite (proj2 (Z.eqb_neq ch e) Hn). Qed.
Lemma decode_next_hex e ch rest : is_byte ch -> decode_next e (e :: hex2 ch ++ rest) = (ch, 3%nat).
Proof. intros Hb. unfold hex2. cbn [decode_next app]. rewrite Z.eqb_refl. by rewrite hex_decode2_hex2. Qed.

#[export] Instance encode_Codec illegal e : Codec (encode_char illegal e) (decode_next e).
Proof.
  split; [|apply decode_reads|].
  - intros ch. unfold encode_char. by destruct (_ && _).
  - intros ch rest Hb. unfold encode_char. destruct (Z.eqb_spec ch e); cbn [negb andb].
    + by apply decode_next_hex.
    + destruct (is_illegal _ _); cbn [negb]; [by apply decode_next_hex|by apply decode_next_plain].
Qed.

#[export] Instance url_Codec : Codec url_encode_char url_decode_next.
Proof.
  split; [|apply url_decode_reads|].
  - intros ch. unfold url_encode_char. by destruct (is_unsafe _ _).
  - intros ch rest Hb. unfold url_encode_char. destruct (is_unsafe _ ch) eqn:E.
    + cbn [app]. rewrite url_decode_next_cases. by apply (decode_next_hex 37).
    + cbn [app]. rewrite url_decode_next_cases. destruct (Z.eqb_spec ch 43) as [->|]; [done|].
      apply decode_next_plain. by intros ->.
Qed.

(** ** The functions *)

Section Placed.
Context (m : list Z) (buffer buflen source srclen : nat).
Context (Hlen : (0 < buflen)%nat) (Hbuf : (buffer + buflen <= length m)%nat).
Context (Hsrc : (source + srclen <= length m)%nat).
Let s := slice m source (source + srclen).

Lemma encode_spec illegal e :
  (buffer + buflen <= source \/ source + srclen <= buffer)%nat ->
  let o := encoded (encode_char illegal e) (take (fitting (encode_char illegal e) (buflen - 1) s) s) in
  encode m buffer buflen source srclen illegal e = Ret (mem_write m buffer (o ++ [0]), length o).
Proof. intros. apply encoder_spec; try done; [apply enc_some|apply encode_follows]. Qed.

Lemma url_encode_spec :
  (buffer + buflen <= source \/ source + srclen <= buffer)%nat ->
  let o := encoded url_encode_char (take (fitting url_encode_char (buflen - 1) s) s) in
  url_encode m (Some buffer) buflen source srclen = Ret (mem_write m buffer (o ++ [0]), length o).
Proof. intros. apply encoder_spec; try done; [apply enc_some|apply url_encode_follows]. Qed.

Lemma escape_spec illegal e :
  (buffer + buflen <= source \/ source + srclen <= buffer)%nat ->
  let o := encoded (escape_char illegal e) (take (fitting (escape_char illegal e) (buflen - 1) s) s) in
  escape m buffer buflen source srclen illegal e = Ret (mem_write m buffer (o ++ [0]), length o).
Proof. intros. apply encoder_spec; try done; [apply enc_some|apply escape_follows]. Qed.

Lemma decode_spec e :
  (buffer <= source \/ source + srclen <= buffer)%nat ->
  let o := transformed (dec_step (decode_next e)) buflen s in
  decode m buffer buflen source srclen e = Ret (mem_write m buffer (o ++ [0]), length o) /\
  (length o < buflen)%nat.
Proof. intros. apply decoder_spec; try done; [apply decode_reads|apply decode_follows]. Qed.

Lemma unescape_spec e :
  (buffer <= source \/ source + srclen <= buffer)%nat ->
  let o := transformed (dec_step (unescape_next e)) buflen s in
  unescape m buffer buflen source srclen e = Ret (mem_write m buffer (o ++ [0]), length o) /\
  (length o < buflen)%nat.
Proof. intros. apply decoder_spec; try done; [apply unescape_reads|apply unescape_follows]. Qed.

Lemma url_decode_spec :
  (buffer <= source \/ source + srclen <= buffer)%nat ->
  let o := transformed (dec_step url_decode_next) buflen s in
  url_decode m (Some buffer) buflen source srclen = Ret (mem_write m buffer (o ++ [0]), length o) /\
  (length o < buflen)%nat.
Proof. intros. apply decoder_spec; try done; [apply url_decode_reads|apply url_decode_follows]. Qed.
End Placed.

Lemma slice_mem_write_app (m : list Z) a (o t : list Z) :
  (a + length (o ++ t) <= length m)%nat -> slice (mem_write m a (o ++ t)) a (a + length o) = o.
Proof.
  intros H. rewrite length_app in H.
  rewrite <- (slice_take _ a (a + length (o ++ t))) by (rewrite length_app; lia).
  rewrite slice_mem_write by (rewrite length_app; lia). by apply take_app_length.
Qed.

(** Where an encoder has left its output, the decoder restores, in place, the
    characters that fitted. *)
Lemma decoded_in_place enc dec `{!Codec enc dec} body m buffer buflen s :
  body_follows (dec_step dec) body buffer (S (length (encoded enc s))) buffer (length (encoded enc s)) [] ->
  Forall is_byte s -> (length (encoded enc s) < buflen)%nat -> (buffer + buflen <= length m)%nat ->
  transform_frame body (mem_write m buffer (encoded enc s ++ [0])) buffer
    (S (length (encoded enc s))) (length (encoded enc s)) =
  Ret (mem_write (mem_write m buffer (encoded enc s ++ [0])) buffer (s ++ [0]), length s).
Proof.
  intros Hb Hs Hl Hm. set (o := encoded enc s) in *.
  assert (Hw : (buffer + length (o ++ [0%Z]) <= length m)%nat) by (rewrite length_app; cbn; lia).
  destruct (decoder_spec dec body (mem_write m buffer (o ++ [0])) buffer (S (length o)) buffer (length o)) as [E _];
    rewrite ?length_mem_write by done; try done; try lia; [apply dec_within|].
  rewrite E. rewrite (slice_mem_write_app m buffer o [0]) by done. unfold transformed. rewrite Nat.sub_succ, Nat.sub_0_r.
  rewrite (dec_step_emits enc dec _ _ s Hs (le_n _) : emit (length o) _ (length o) o = _), take_ge; [done|].
  by apply (encoded_length_ge enc dec).
Qed.

(** Characters whose code must not occur in the output do not, but for the escape
    character; hexadecimal digits must not be among them, as the header says. *)
Lemma encoded_legal illegal e s :
  Forall is_byte s -> Forall (fun d => is_illegal illegal d = false) (b! "0123456789abcdef") ->
  Forall (fun c => c = e \/ is_illegal illegal c = false) (encoded (encode_char illegal e) s).
Proof.
  intros Hs Hd.
  assert (H : forall v, 0 <= v < 16 -> is_illegal illegal (hex_encode v) = false).
  { intros v Hv. rewrite Forall_forall in Hd. apply Hd. unfold hex_encode.
    replace (v <? 16) with true by lia. apply nth_In. cbn [bytes_of_string length]. lia. }
  assert (Hm : forall v, 0 <= Z.land v 15 < 16).
  { intros v. change 15 with (Z.ones 4). rewrite Z.land_ones by lia. apply Z.mod_pos_bound. lia. }
  induction Hs as [|c s Hb Hs IH]; [constructor|]. unfold encoded. cbn [map concat].
  apply Forall_app. split; [|exact IH]. unfold encode_char.
  destruct (Z.eqb_spec c e) as [Hce|Hce], (is_illegal illegal c) eqn:E; cbn [negb andb];
    try (constructor; [by right|constructor]).
  all: constructor; [by left|]; unfold hex2; repeat (constructor; [right; apply H, Hm|]); constructor.
Qed.

(** C39. [encode] never writes outside its buffer: it leaves the encoding of the
    longest prefix of the source that fits, ended by a NUL, without an illegal
    character, and [decode] in place on that buffer gives the prefix back. *)
Theorem encode_decode_in_place m buffer buflen source srclen illegal e :
  (0 < buflen)%nat -> (buffer + buflen <= length m)%nat -> (source + srclen <= length m)%nat ->
  (buffer + buflen <= source \/ source + srclen <= buffer)%nat ->
  let s := slice m source (source + srclen) in
  Forall is_byte s -> Forall (fun d => is_illegal illegal d = false) (b! "0123456789abcdef") ->
  exists k o,
    encode m buffer buflen source srclen illegal e = Ret (mem_write m buffer (o ++ [0]), length o) /\
    (length o < buflen)%nat /\
    (k = srclen \/ exists ch, s !! k = Some ch /\ (buflen <= length o + length (encode_char illegal e ch))%nat) /\
    Forall (fun c => c = e \/ is_illegal illegal c = false) o /\
    decode (mem_write m buffer (o ++ [0])) buffer (S (length o)) buffer (length o) e =
    Ret (mem_write (mem_write m buffer (o ++ [0])) buffer (take k s ++ [0]), k).
Proof.
  intros H0 Hm Hs Hd s Hb Hx.
  pose proof (encode_spec m buffer buflen source srclen H0 Hm Hs illegal e Hd) as E. cbn zeta in E. fold s in E.
  set (k := fitting (encode_char illegal e) (buflen - 1) s) in *.
  destruct (fitting_spec (encode_char illegal e) (buflen - 1) s) as [Hl Hk]. fold k in Hl, Hk.
  assert (Hbk : Forall is_byte (take k s)) by by apply Forall_take.
  exists k, (encoded (encode_char illegal e) (take k s)). split_and!; [exact E|lia| |by apply encoded_legal|].
  - unfold s in Hk at 1. rewrite length_slice in Hk by lia. destruct Hk as [->|(ch & Hc & Hk)]; [left; lia|].
    right. exists ch. split; [done|lia].
  - unfold decode. rewrite (decoded_in_place (encode_char illegal e) (decode_next e) _ m buffer buflen (take k s)) by
      (done || lia || apply decode_follows).
    do 2 f_equal. rewrite length_take. pose proof (fitting_le (encode_char illegal e) (buflen - 1) s). lia.
Qed.

Definition demo_memory : list Z := b! "a b%/" ++ repeat 0 20.

Lemma encode_decode_in_place_witness : exists k o,
    encode demo_memory 5 10 0 5 (b! " /") 37 = Ret (mem_write demo_memory 5 (o ++ [0]), length o) /\
    (length o < 10)%nat /\
    (k = 5%nat \/ exists ch, slice demo_memory 0 5 !! k = Some ch /\
       (10 <= length o + length (encode_char (b! " /") 37 ch))%nat) /\
    Forall (fun c => c = 37 \/ is_illegal (b! " /") c = false) o /\
    decode (mem_write demo_memory 5 (o ++ [0])) 5 (S (length o)) 5 (length o) 37 =
    Ret (mem_write (mem_write demo_memory 5 (o ++ [0])) 5 (take k (slice demo_memory 0 5) ++ [0]), k).
Proof.
  apply (encode_decode_in_place demo_memory 5 10 0 5 (b! " /") 37).
  - lia.
  - apply Nat.leb_le. reflexivity.
  - apply Nat.leb_le. reflexivity.
  - right. lia.
  - vm_compute. repeat constructor; discriminate.
  - vm_compute. repeat constructor.
Defined.

(** The header allows the decoders to run in place: whatever overlaps, as long
    as the buffer does not start inside the source, they give the string that a
    decoding of the source bytes gives, within the buffer. *)
Theorem decoders_work_in_place m buffer buflen source srclen e :
  (0 < buflen)%nat -> (buffer + buflen <= length m)%nat -> (source + srclen <= length m)%nat ->
  (buffer <= source \/ source + srclen <= buffer)%nat ->
  let s := slice m source (source + srclen) in
  let leaves o := fun r : outcome (list Z * nat) =>
    r = Ret (mem_write m buffer (o ++ [0]), length o) /\ (length o < buflen)%nat in
  leaves (transformed (dec_step (decode_next e)) buflen s) (decode m buffer buflen source srclen e) /\
  leaves (transformed (dec_step (unescape_next e)) buflen s) (unescape m buffer buflen source srclen e) /\
  leaves (transformed (dec_step url_decode_next) buflen s) (url_decode m (Some buffer) buflen source srclen).
Proof.
  intros H0 Hm Hs Hd s leaves. split_and!; unfold leaves, s;
    [by apply decode_spec|by apply unescape_spec|by apply url_decode_spec].
Qed.

Lemma decoders_work_in_place_witness :
  let m := b! "x%41+y" ++ [0] in
  (decode m 0 7 0 6 37 = Ret (b! "xA+y" ++ [0; 121; 0], 4%nat) /\ (4 < 7)%nat) /\
  (unescape m 0 7 0 6 37 = Ret (b! "x41+y" ++ [0; 0], 5%nat) /\ (5 < 7)%nat) /\
  (url_decode m (Some 0%nat) 7 0 6 = Ret (b! "xA y" ++ [0; 121; 0], 4%nat) /\ (4 < 7)%nat).
Proof.
  apply (decoders_work_in_place (b! "x%41+y" ++ [0]) 0 7 0 6 37).
  - lia.
  - apply Nat.leb_le. reflexivity.
  - apply Nat.leb_le. reflexivity.
  - left. lia.
Defined.

Lemma url_encoded_length s : (length (encoded url_encode_char s) <= 3 * length s)%nat.
Proof.
  unfold encoded. induction s as [|c s IH]; cbn [map concat length]; [lia|]. rewrite length_app.
  unfold url_encode_char at 1. destruct (is_unsafe _ _); cbn [length hex2]; lia.
Qed.

Lemma url_encoded_safe s : Forall is_byte s ->
  Forall (fun c => c = 37 \/ is_unsafe URL_UNSAFE c = false) (encoded url_encode_char s).
Proof.
  assert (Hh : forall c, is_byte c ->
    forallb (fun d => (d =? 37) || negb (is_unsafe URL_UNSAFE d)) (url_encode_char c) = true).
  { apply is_byte_forall. by vm_compute. }
  intros Hs. unfold encoded. induction Hs as [|c s Hc Hs IH]; [constructor|]. cbn [map concat].
  apply Forall_app. split; [|exact IH]. specialize (Hh c Hc). rewrite forallb_forall in Hh.
  apply List.Forall_forall. intros d Hd. specialize (Hh d Hd). rewrite orb_true_iff in Hh.
  destruct Hh as [?%Z.eqb_eq|?%negb_true_iff]; auto.
Qed.

Lemma transform_memory src room junk (n := length src) (m := src ++ [0] ++ resize room 0 junk) :
  length m = (S n + room)%nat /\ slice m 0 n = src.
Proof.
  subst m n. split; [rewrite !length_app, length_resize; cbn; lia|].
  unfold slice. rewrite drop_0, Nat.sub_0_r. by apply take_app_length.
Qed.

(** [s_transform] returns what [t] leaves in the space it asked for. *)
Lemma s_transform_spec junk src (t : Transform) room o :
  (forall m, t m None 0%nat 0%nat (length src) = Ret (m, room)) -> (length o < room)%nat ->
  (forall m, length m = (S (length src) + room)%nat -> slice m 0 (length src) = src ->
     t m (Some (S (length src))) room 0%nat (length src) =
     Ret (mem_write m (S (length src)) (o ++ [0]), length o)) ->
  s_transform junk src t = Ret o.
Proof.
  intros Hq Ho Ht. unfold s_transform. rewrite Hq. cbn [obind].
  destruct (transform_memory src room (junk room)) as [Hl Hs].
  rewrite Ht by done. cbn [obind].
  rewrite length_mem_write by (rewrite Hl, length_app; cbn [length]; lia). rewrite Hl.
  replace (_ <=? _)%nat with true by (symmetry; apply Nat.leb_le; lia).
  rewrite slice_mem_write_app; [done|]. rewrite Hl, length_app. cbn [length]. lia.
Qed.

Lemma s_url_encode_spec junk src : s_url_encode junk src = Ret (encoded url_encode_char src).
Proof.
  pose proof (url_encoded_length src) as Hl.
  apply (s_transform_spec _ _ _ (length src * 3 + 1)); [done|lia|].
  intros m Hm Hs. rewrite url_encode_spec by lia. cbn [Nat.add]. rewrite Hs.
  rewrite fitting_all by lia. by rewrite take_ge by lia.
Qed.

Lemma s_url_decode_spec junk src :
  s_url_decode junk src = Ret (transformed (dec_step url_decode_next) (length src + 1) src).
Proof.
  apply (s_transform_spec _ _ _ (length src + 1)); [done| |].
  - unfold transformed. pose proof (dec_step_Step _ url_decode_reads).
    pose proof (emit_length (dec_step url_decode_next) 0 (length src) (length src + 1 - 1) src). lia.
  - intros m Hm Hs. destruct (url_decode_spec m (S (length src)) (length src + 1) 0 (length src)) as [E _]; try lia.
    cbn [Nat.add] in E. rewrite Hs in E. exact E.
Qed.

(** [s_url_decode] undoes [s_url_encode] on every string, whatever the stack
    space holds, and the encoded string has no unsafe character but the percent
    signs. *)
Theorem s_url_roundtrip junk junk' src : Forall is_byte src ->
  exists t, s_url_encode junk src = Ret t /\ s_url_decode junk' t = Ret src /\
    Forall (fun c => c = 37 \/ is_unsafe URL_UNSAFE c = false) t.
Proof.
  intros Hs. exists (encoded url_encode_char src).
  rewrite s_url_encode_spec, s_url_decode_spec. split_and!; [done| |by apply url_encoded_safe].
  unfold transformed. rewrite (dec_step_emits url_encode_char url_decode_next _ _ src Hs (le_n _)).
  rewrite take_ge; [done|]. pose proof (encoded_length_ge url_encode_char url_decode_next src). lia.
Qed.

Lemma s_url_roundtrip_witness :
  exists t, s_url_encode (fun _ => []) (b! "a b&c=d%") = Ret t /\
    s_url_decode (fun _ => []) t = Ret (b! "a b&c=d%") /\
    Forall (fun c => c = 37 \/ is_unsafe URL_UNSAFE c = false) t.
Proof. apply s_url_roundtrip. vm_compute. repeat constructor; discriminate. Defined.

(** ** Hexadecimal *)

Lemma hex_encode_loop_spec buffer source srclen s m sp bp :
  view source srclen [] m sp s ->
  (buffer + bp + 2 * length s <= length m)%nat ->
  (buffer + bp + 2 * length s <= source \/ source + srclen <= buffer)%nat ->
  hex_encode_loop buffer source (length s) m sp bp =
  Ret (mem_write m (buffer + bp) (encoded hex2 s), bp + 2 * length s)%nat.
Proof.
  revert m sp bp. induction s as [|c s IH]; intros m sp bp Hv Hm Hd.
  { cbn. by rewrite mem_write_nil, Nat.add_0_r. }
  cbn [length] in Hm, Hd |- *. cbn [hex_encode_loop]. view_head Hv H0.
  rewrite Nat.add_assoc. put_byte. rewrite (st_append m _ [_]) by (cbn; lia). cbn [obind app].
  fold (hex2 c). rewrite IH.
  - unfold encoded. cbn [map concat]. rewrite Nat.add_assoc.
    rewrite (mem_write_app m _ (hex2 c)); [f_equal; f_equal; lia|].
    replace (length (concat (map hex2 s))) with (2 * length s)%nat; [cbn; lia|].
    clear. induction s as [|c s IH]; [done|]. cbn [map concat length]. rewrite length_app, <- IH. cbn. lia.
  - destruct Hv as [Hl Hv]. cbn [length] in Hl, Hv. split; [lia|].
    assert (E : slice m (source + (sp + 1)) (source + srclen + 0) = s ++ []).
    { rewrite Nat.add_assoc, <- slice_drop, Hv. done. }
    destruct Hd; [rewrite slice_mem_write_after|rewrite slice_mem_write_before]; try done; cbn [hex2 length]; lia.
  - rewrite length_mem_write by (cbn [hex2 length]; lia). lia.
  - lia.
Qed.

(** The bytes that the pairs of digits of [s] stand for. *)
Fixpoint hex_decoded (room : nat) (s : list Z) : list Z :=
  match room, s with
  | S room, h :: l :: s => Z.lor (u8 (Z.shiftl (hex_decode h) 4)) (hex_decode l) :: hex_decoded room s
  | _, _ => []
  end.

Lemma hex_decode_loop_spec buffer buflen source srclen fuel s m sp bp :
  view source srclen [] m sp s -> (length s < fuel)%nat ->
  (bp < buflen)%nat -> (buffer + buflen <= length m)%nat ->
  (buffer + bp <= source + sp \/ source + srclen <= buffer)%nat ->
  let o := hex_decoded (buflen - 1 - bp) s in
  hex_decode_loop buffer buflen source srclen fuel m sp bp =
  Ret (mem_write m (buffer + bp) o, bp + length o)%nat /\ (bp + length o < buflen)%nat.
Proof.
  revert s m sp bp. induction fuel as [|fuel IH]; intros s m sp bp Hv Hf Hb Hm Hd; [lia|].
  pose proof Hv as [Hl Hs]. cbn [length] in Hs. cbn [hex_decode_loop].
  assert (Hend : forall o : list Z, o = [] ->
    Ret (m, bp) = Ret (mem_write m (buffer + bp) o, (bp + length o)%nat) /\ (bp + length o < buflen)%nat).
  { intros o ->. rewrite mem_write_nil, Nat.add_0_r. done. }
  destruct s as [|h [|l s]]; cbn [length] in Hl, Hf.
  1,2: replace (sp + 1 <? srclen)%nat with false by (symmetry; apply Nat.ltb_ge; lia);
    apply Hend; by destruct (buflen - 1 - bp)%nat.
  replace (sp + 1 <? srclen)%nat with true by (symmetry; apply Nat.ltb_lt; lia). cbn [andb].
  destruct (Nat.ltb_spec (bp + 1) buflen) as [Hr|Hr].
  2:{ apply Hend. by replace (buflen - 1 - bp)%nat with 0%nat by lia. }
  view_head Hv H0. view_next Hv. put_byte.
  set (v := Z.lor _ _).
  assert (E : slice m (source + (sp + 2)) (source + srclen + 0) = s ++ []).
  { rewrite Nat.add_assoc, <- slice_drop, Hs. done. }
  assert (Hv' : view source srclen [] (mem_write m (buffer + bp) [v]) (sp + 2) s).
  { split; [lia|]. destruct Hd; [rewrite slice_mem_write_after|rewrite slice_mem_write_before];
      try done; cbn [length]; lia. }
  pose proof (length_mem_write m (buffer + bp) [v] ltac:(cbn [length]; lia)) as Hlm.
  destruct (IH s _ (sp + 2)%nat (bp + 1)%nat Hv') as [E' Hlt]; try lia.
  replace (buflen - 1 - bp)%nat with (S (buflen - 1 - (bp + 1))) by lia. cbn [hex_decoded]. fold v.
  rewrite E'. set (o := hex_decoded _ s) in *. cbn [length]. split; [|lia].
  rewrite Nat.add_assoc. rewrite (mem_write_app m _ [v] o) by (cbn [length]; lia). cbn [app].
  by replace (bp + 1 + length o)%nat with (bp + S (length o))%nat by lia.
Qed.

Lemma hex_decoded_encoded room s : Forall is_byte s ->
  hex_decoded room (encoded hex2 s) = take room s.
Proof.
  assert (Hh : forall c, is_byte c -> (Z.lor (u8 (Z.shiftl (hex_decode
    (hex_encode (Z.land (Z.shiftr c 4) 15))) 4)) (hex_decode (hex_encode (Z.land c 15))) =? c) = true).
  { apply is_byte_forall. by vm_compute. }
  intros Hs. revert room. induction Hs as [|c s Hc Hs IH]; intros room; [by destruct room|].
  destruct room as [|room]; [done|]. unfold encoded. cbn [map concat hex2 app hex_decoded take].
  specialize (Hh c Hc). apply Z.eqb_eq in Hh. rewrite Hh. f_equal. apply IH.
Qed.

Lemma hex2_length s : length (encoded hex2 s) = (2 * length s)%nat.
Proof. unfold encoded. induction s as [|c s IH]; [done|]. cbn [map concat length]. rewrite length_app, IH. cbn. lia. Qed.

(** [hex_encode] writes the digits of as many bytes as fit, and [hex_decode] reads
    them back, also in place. *)
Theorem hex_roundtrip m buffer buflen source srclen :
  (0 < buflen)%nat -> (buffer + buflen <= length m)%nat -> (source + srclen <= length m)%nat ->
  (buffer + buflen <= source \/ source + srclen <= buffer)%nat ->
  let s := take ((buflen - 1) / 2) (slice m source (source + srclen)) in
  let o := encoded hex2 s in Forall is_byte s ->
  hex_encode_buf m buffer buflen source srclen = Ret (mem_write m buffer (o ++ [0]), length o) /\
  hex_decode_buf (mem_write m buffer (o ++ [0])) buffer (S (length o)) buffer (length o) =
  Ret (mem_write (mem_write m buffer (o ++ [0])) buffer (s ++ [0]), length s).
Proof.
  intros H0 Hm Hs Hd s o Hb.
  pose proof (Nat.div_mod (buflen - 1) 2 ltac:(lia)) as Hdm.
  assert (Hl : length s = Nat.min srclen ((buflen - 1) / 2)).
  { subst s. rewrite length_take, length_slice by lia. lia. }
  assert (Ho : length o = (2 * length s)%nat) by apply hex2_length. split.
  - unfold hex_encode_buf. replace (buflen =? 0)%nat with false by (symmetry; apply Nat.eqb_neq; lia).
    rewrite <- Hl, (hex_encode_loop_spec buffer source (length s) s m 0 0);
      [|split; [done|]|lia|lia].
    + cbn [obind]. rewrite Nat.add_0_r. fold o. rewrite Nat.add_0_l, <- Ho.
      by rewrite st_append by lia.
    + cbn [length]. rewrite !Nat.add_0_r, app_nil_r, Hl. subst s. unfold slice. rewrite take_take. f_equal. lia.
  - unfold hex_decode_buf. cbn [Nat.eqb].
    assert (Hw : (buffer + length (o ++ [0%Z]) <= length m)%nat) by (rewrite length_app; cbn [length]; lia).
    destruct (hex_decode_loop_spec buffer (S (length o)) buffer (length o) (S (length o)) o
      (mem_write m buffer (o ++ [0])) 0 0) as [E _]; rewrite ?length_mem_write by done; try lia.
    { split; [done|]. cbn [length]. rewrite !Nat.add_0_r, app_nil_r. by apply slice_mem_write_app. }
    rewrite E. cbn [obind]. rewrite Nat.sub_succ, !Nat.sub_0_r, !Nat.add_0_r, Nat.add_0_l.
    rewrite (hex_decoded_encoded _ s Hb : hex_decoded (length o) o = _), take_ge by lia.
    rewrite st_append by (rewrite length_mem_write by done; lia). done.
Qed.
