(* ===== verification/BaseEncodeXml.v ===== *)
(** The markup encoders of src/base/stringencode.cc: UTF-8, [html_encode],
    [xml_encode] and [xml_decode], which [html_decode] is another name of.  They
    have the loop of BaseEncode. *)
From Stdlib Require Import ZArith Lia Bool String.
From stdpp Require Import base list numbers.
From S2P Require Import Prelude Clib BaseEncode.

(** ** UTF-8 *)

(** [s[i]] of an [unsigned char] pointer. *)
Definition ldu (m : list Z) (i : nat) : outcome Z := let! c := ld m i in Ret (u8 c).

(** The bytes used and the value; no bytes for an invalid encoding. *)
Definition utf8_decode (m : list Z) (source srclen : nat) : outcome (nat * Z) :=
  let! s0 := ldu m source in
  if Z.land s0 128 =? 0 then Ret (1%nat, s0)
  else if (srclen <? 2)%nat then Ret (0%nat, 0)
  else
    let! s1 := ldu m (source + 1) in
    if negb (Z.land s1 192 =? 128) then Ret (0%nat, 0)
    else
      let value16 := Z.land s1 63 in
      if Z.land s0 224 =? 192 then Ret (2%nat, Z.lor (Z.shiftl (Z.land s0 31) 6) value16)
      else if (srclen <? 3)%nat then Ret (0%nat, 0)
      else
        let! s2 := ldu m (source + 2) in
        if negb (Z.land s2 192 =? 128) then Ret (0%nat, 0)
        else
          let value16 := Z.lor (Z.shiftl value16 6) (Z.land s2 63) in
          if Z.land s0 240 =? 224 then Ret (3%nat, Z.lor (Z.shiftl (Z.land s0 15) 12) value16)
          else if (srclen <? 4)%nat then Ret (0%nat, 0)
          else
            let! s3 := ldu m (source + 3) in
            if negb (Z.land s3 192 =? 128) then Ret (0%nat, 0)
            else
              let value16 := Z.lor (Z.shiftl value16 6) (Z.land s3 63) in
              if Z.land s0 248 =? 240 then Ret (4%nat, Z.lor (Z.shiftl (Z.land s0 7) 18) value16)
              else Ret (0%nat, 0).

Definition utf8_encode (m : list Z) (buffer buflen : nat) (value : Z) : outcome (list Z * nat) :=
  if (value <=? 127) && (1 <=? buflen)%nat then
    let! m := st m buffer (u8 value) in
    Ret (m, 1%nat)
  else if (value <=? 2047) && (2 <=? buflen)%nat then
    let! m := st m buffer (Z.lor 192 (u8 (Z.shiftr value 6))) in
    let! m := st m (buffer + 1) (Z.lor 128 (u8 (Z.land value 63))) in
    Ret (m, 2%nat)
  else if (value <=? 65535) && (3 <=? buflen)%nat then
    let! m := st m buffer (Z.lor 224 (u8 (Z.shiftr value 12))) in
    let! m := st m (buffer + 1) (Z.lor 128 (u8 (Z.land (Z.shiftr value 6) 63))) in
    let! m := st m (buffer + 2) (Z.lor 128 (u8 (Z.land value 63))) in
    Ret (m, 3%nat)
  else if (value <=? 2097151) && (4 <=? buflen)%nat then
    let! m := st m buffer (Z.lor 240 (u8 (Z.shiftr value 18))) in
    let! m := st m (buffer + 1) (Z.lor 128 (u8 (Z.land (Z.shiftr value 12) 63))) in
    let! m := st m (buffer + 2) (Z.lor 128 (u8 (Z.land (Z.shiftr value 6) 63))) in
    let! m := st m (buffer + 3) (Z.lor 128 (u8 (Z.land value 63))) in
    Ret (m, 4%nat)
  else Ret (m, 0%nat).

(** ** The loops *)

Definition html_escseq (ch : Z) : list Z :=
  if ch =? 60 then b! "&lt;"
  else if ch =? 62 then b! "&gt;"
  else if ch =? 39 then b! "&#39;"
  else if ch =? 34 then b! "&quot;"
  else if ch =? 38 then b! "&amp;"
  else [].
Definition xml_escseq (ch : Z) : list Z :=
  if ch =? 60 then b! "&lt;"
  else if ch =? 62 then b! "&gt;"
  else if ch =? 39 then b! "&apos;"
  else if ch =? 34 then b! "&quot;"
  else if ch =? 38 then b! "&amp;"
  else [].

(** [memcpy (dst, bs, length bs)]. *)
Definition memcpy (m : list Z) (dst : nat) (bs : list Z) : outcome (list Z) :=
  if (dst + length bs <=? length m)%nat then Ret (mem_write m dst bs) else Crash.

(** [memcmp (source + at, lit, length lit) == 0] behind the test that [srclen]
    reaches its last byte. *)
Definition entity_at (m : list Z) (source srclen : nat) (i : nat) (lit : list Z) : outcome bool :=
  if (i + (length lit - 1) <? srclen)%nat then
    if (source + i + length lit <=? length m)%nat
    then Ret (list_Z_eqb (slice m (source + i) (source + i + length lit)) lit) else Crash
  else Ret false.

Section Functions.
Variables (buffer buflen source srclen : nat).

(** The escape sequence, or [break]. *)
Definition put_seq (m : list Z) (srcpos bufpos : nat) (escseq : list Z) : outcome turn :=
  if (buflen <=? bufpos + length escseq)%nat then Ret None
  else
    let! m := memcpy m (buffer + bufpos) escseq in
    Ret (Some (m, srcpos, bufpos + length escseq))%nat.

Definition html_encode_body (m : list Z) (srcpos bufpos : nat) : outcome turn :=
  let! ch := ld m (source + srcpos) in
  if ch <? 128 then
    if is_unsafe HTML_UNSAFE ch then put_seq m (srcpos + 1) bufpos (html_escseq ch)
    else
      let! m := st m (buffer + bufpos) ch in
      Ret (Some (m, srcpos + 1, bufpos + 1))%nat
  else
    let! (vallen, val) := utf8_decode m (source + srcpos) (srclen - srcpos) in
    let '(vallen, val) := if (vallen =? 0)%nat then (1%nat, u8 ch) else (vallen, val) in
    let escseq := b! "&#" ++ format_d val ++ [59] in
    ASSERT (length escseq <=? 10)%nat in
    put_seq m (srcpos + vallen) bufpos escseq.

Definition xml_encode_body (m : list Z) (srcpos bufpos : nat) : outcome turn :=
  let! ch := ld m (source + srcpos) in
  if is_unsafe XML_UNSAFE ch then put_seq m (srcpos + 1) bufpos (xml_escseq ch)
  else
    let! m := st m (buffer + bufpos) ch in
    Ret (Some (m, srcpos + 1, bufpos + 1))%nat.

(** The branch for [&#], where [srcpos] is at the number sign.  [strtoul] needs the
    string that starts there to end somewhere. *)
Definition xml_decode_number (m : list Z) (srcpos bufpos : nat) : outcome turn :=
  let! x := if (srcpos + 1 <? srclen)%nat then ld m (source + (srcpos + 1)) else Ret 0 in
  let '(int_base, srcpos) := if x =? 120 then (16, (srcpos + 1)%nat) else (10, srcpos) in
  let nptr := drop (source + srcpos + 1) m in
  if negb (char_in 0 nptr) then Crash
  else
    let '(val, n) := strtoul int_base (cstr nptr) in
    let ptr := (srcpos + 1 + n)%nat in
    let! semi := if (ptr <? srclen)%nat then ld m (source + ptr) else Ret 0 in
    if semi =? 59 then
      let! (m, esclen) := utf8_encode m (buffer + bufpos) (buflen - bufpos) val in
      if (esclen =? 0)%nat then Ret None else Ret (Some (m, ptr + 1, bufpos + esclen))%nat
    else Ret None.

Definition xml_decode_body (m : list Z) (srcpos bufpos : nat) : outcome turn :=
  let! ch := ld m (source + srcpos) in
  let put v n :=
    let! m := st m (buffer + bufpos) v in
    Ret (Some (m, srcpos + 1 + n, bufpos + 1))%nat in
  let srcpos1 := (srcpos + 1)%nat in
  if negb (ch =? 38) then put ch 0%nat
  else
    let! lt := entity_at m source srclen srcpos1 (b! "lt;") in
    if lt then put 60 3%nat
    else
      let! gt := entity_at m source srclen srcpos1 (b! "gt;") in
      if gt then put 62 3%nat
      else
        let! apos := entity_at m source srclen srcpos1 (b! "apos;") in
        if apos then put 39 5%nat
        else
          let! quot := entity_at m source srclen srcpos1 (b! "quot;") in
          if quot then put 34 5%nat
          else
            let! amp := entity_at m source srclen srcpos1 (b! "amp;") in
            if amp then put 38 4%nat
            else
              let! c := if (srcpos1 <? srclen)%nat then ld m (source + srcpos1) else Ret 0 in
              if c =? 35 then xml_decode_number m srcpos1 bufpos else Ret None.
End Functions.

Definition html_encode (m : list Z) (buffer buflen source srclen : nat) :=
  transform_frame (html_encode_body buffer buflen source srclen) m buffer buflen srclen.
Definition xml_encode (m : list Z) (buffer buflen source srclen : nat) :=
  transform_frame (xml_encode_body buffer buflen source) m buffer buflen srclen.
Definition xml_decode (m : list Z) (buffer buflen source srclen : nat) :=
  transform_frame (xml_decode_body buffer buflen source srclen) m buffer buflen srclen.
Definition html_decode := xml_decode.

(** ** The steps *)

Definition utf8_bytes (v : Z) : list Z :=
  if v <=? 127 then [v]
  else if v <=? 2047 then [192 + v / 64; 128 + v mod 64]
  else if v <=? 65535 then [224 + v / 4096; 128 + v / 64 mod 64; 128 + v mod 64]
  else [240 + v / 262144; 128 + v / 4096 mod 64; 128 + v / 64 mod 64; 128 + v mod 64].
Definition code_point (v : Z) : Prop := 0 <= v <= 2097151.

Definition html_char1 (ch : Z) : list Z := if is_unsafe HTML_UNSAFE ch then html_escseq ch else [ch].
Definition xml_char1 (ch : Z) : list Z := if is_unsafe XML_UNSAFE ch then xml_escseq ch else [ch].
Definition number_ref (v : Z) : list Z := b! "&#" ++ format_d v ++ [59].

Definition seq_step (c : list Z) (k room : nat) : option (list Z * nat) :=
  if (room <? length c)%nat then None else Some (c, k).

Definition html_step : step := fun room s =>
  match s with
  | [] => None
  | ch :: _ =>
      if ch <? 128 then char_step html_char1 room s
      else match utf8_decode s 0 (length s) with
           | Ret (0%nat, _) => seq_step (number_ref (u8 ch)) 1 room
           | Ret (n, v) => seq_step (number_ref v) n room
           | _ => None
           end
  end.

Definition starts (lit s : list Z) : bool := list_Z_eqb (take (length lit) s) lit.

(** [r] comes after [&#]. *)
Definition number_at (r : list Z) : option (Z * nat) :=
  let '(base, t, k) := match r with
                       | x :: t => if x =? 120 then (16, t, 1%nat) else (10, r, 0%nat)
                       | [] => (10, [], 0%nat)
                       end in
  let '(v, n) := strtoul base (cstr t) in
  match t !! n with
  | Some c => if c =? 59 then Some (v, k + n + 1)%nat else None
  | None => None
  end.

Definition xml_step : step := fun room s =>
  match s with
  | [] => None
  | ch :: r =>
      if negb (ch =? 38) then Some ([ch], 1%nat)
      else if starts (b! "lt;") r then Some ([60], 4%nat)
      else if starts (b! "gt;") r then Some ([62], 4%nat)
      else if starts (b! "apos;") r then Some ([39], 6%nat)
      else if starts (b! "quot;") r then Some ([34], 6%nat)
      else if starts (b! "amp;") r then Some ([38], 5%nat)
      else match r with
           | c :: r =>
               if c =? 35 then
                 match number_at r with
                 | Some (v, n) =>
                     if (v <=? 2097151) && (length (utf8_bytes v) <=? room + 1)%nat
                     then Some (utf8_bytes v, 2 + n)%nat else None
                 | None => None
                 end
               else None
           | [] => None
           end
  end.

(** ** UTF-8, both ways *)

Lemma utf8_bytes_size v : (1 <= length (utf8_bytes v) <= 4)%nat.
Proof. unfold utf8_bytes. repeat destruct (_ <=? _); cbn; lia. Qed.

Lemma lor_lead lead n x : In (lead, n) [(192, 32); (224, 16); (240, 8); (128, 64)] ->
  0 <= x < n -> Z.lor lead (u8 x) = lead + x.
Proof.
  intros Hl Hx. apply Z.eqb_eq.
  assert (H : forallb (fun '(l, n) => forallb (fun x => Z.lor l (u8 x) =? l + x) (seqZ 0 n))
    [(192, 32); (224, 16); (240, 8); (128, 64)] = true) by by vm_compute.
  rewrite forallb_forall in H. specialize (H _ Hl). cbn beta iota in H. rewrite forallb_forall in H.
  apply H, list_elem_of_In, elem_of_seqZ. lia.
Qed.

Lemma land_63 x : Z.land x 63 = x mod 64.
Proof. change 63 with (Z.ones 6). by rewrite Z.land_ones by lia. Qed.

Lemma utf8_encode_spec m buffer buflen v :
  0 <= v -> (buffer + buflen <= length m)%nat ->
  utf8_encode m buffer buflen v =
  Ret (if (v <=? 2097151) && (length (utf8_bytes v) <=? buflen)%nat
       then (mem_write m buffer (utf8_bytes v), length (utf8_bytes v)) else (m, 0%nat)).
Proof.
  intros Hv Hm. unfold utf8_encode, utf8_bytes.
  assert (H6 : forall x, 0 <= x mod 64 < 64) by (intros; apply Z.mod_pos_bound; lia).
  assert (Hlt : forall k, (buflen < k)%nat -> (k <=? buflen)%nat = false) by (intros; apply Nat.leb_gt; lia).
  rewrite !land_63, !Z.shiftr_div_pow2 by lia.
  change (2 ^ 6) with 64. change (2 ^ 12) with 4096. change (2 ^ 18) with 262144.
  destruct (Z.leb_spec v 127); [|destruct (Z.leb_spec v 2047); [|destruct (Z.leb_spec v 65535);
    [|destruct (Z.leb_spec v 2097151); [|done]]]]; cbn [andb length];
    replace (v <=? 2097151) with true by lia; cbn [andb].
  - replace (v <=? 2047) with true by lia. replace (v <=? 65535) with true by lia.
    destruct (Nat.leb_spec 1 buflen); cbn [andb].
    + rewrite u8_small by (unfold is_byte; lia). by rewrite st_mem_write by lia.
    + by rewrite ?(Hlt 2%nat), ?(Hlt 3%nat), ?(Hlt 4%nat) by lia.
  - replace (v <=? 65535) with true by lia. destruct (Nat.leb_spec 2 buflen); cbn [andb].
    + rewrite (lor_lead 192 32) by (cbn; tauto || (split; [apply Z.div_pos; lia|apply Z.div_lt_upper_bound; lia])).
      rewrite (lor_lead 128 64) by (cbn; tauto || apply H6).
      rewrite st_mem_write by lia. cbn [obind]. by rewrite (st_append m buffer [_]) by (cbn; lia).
    + by rewrite ?(Hlt 2%nat), ?(Hlt 3%nat), ?(Hlt 4%nat) by lia.
  - destruct (Nat.leb_spec 3 buflen); cbn [andb].
    + rewrite (lor_lead 224 16) by (cbn; tauto || (split; [apply Z.div_pos; lia|apply Z.div_lt_upper_bound; lia])).
      rewrite !(lor_lead 128 64) by (cbn; tauto || apply H6).
      rewrite st_mem_write by lia. cbn [obind]. rewrite (st_append m buffer [_]) by (cbn; lia). cbn [obind app].
      by rewrite (st_append m buffer [_; _]) by (cbn; lia).
    + by rewrite ?(Hlt 2%nat), ?(Hlt 3%nat), ?(Hlt 4%nat) by lia.
  - destruct (Nat.leb_spec 4 buflen); cbn [andb].
    + rewrite (lor_lead 240 8) by (cbn; tauto || (split; [apply Z.div_pos; lia|apply Z.div_lt_upper_bound; lia])).
      rewrite !(lor_lead 128 64) by (cbn; tauto || apply H6).
      rewrite st_mem_write by lia. cbn [obind]. rewrite (st_append m buffer [_]) by (cbn; lia). cbn [obind app].
      rewrite (st_append m buffer [_; _]) by (cbn; lia). cbn [obind app].
      by rewrite (st_append m buffer [_; _; _]) by (cbn; lia).
    + done.
Qed.

(** [utf8_decode] sees the [srclen] bytes from its address on and nothing else. *)
Lemma utf8_decode_local m a s :
  s <> [] -> (forall i x, s !! i = Some x -> m !! (a + i)%nat = Some x) ->
  utf8_decode m a (length s) = utf8_decode s 0 (length s).
Proof.
  intros Hs Hm. assert (H : forall i, (i < length s)%nat -> ldu m (a + i) = ldu s (0 + i)).
  { intros i Hi. destruct (lookup_lt_is_Some_2 s i Hi) as [x Hx]. unfold ldu, ld. cbn [Nat.add].
    by rewrite Hx, (Hm _ _ Hx). }
  unfold utf8_decode. pose proof (H 0%nat) as H0. rewrite !Nat.add_0_r in H0.
  destruct s as [|s0 s]; [done|]. cbn [length] in *. rewrite H0 by lia.
  destruct (ldu (s0 :: s) 0); try done. cbn [obind]. destruct (_ =? 0); [done|].
  destruct (Nat.ltb_spec (S (length s)) 2); [done|]. rewrite H by lia.
  destruct (ldu (s0 :: s) (0 + 1)); try done. cbn [obind]. destruct (negb _); [done|].
  destruct (_ =? 192); [done|]. destruct (Nat.ltb_spec (S (length s)) 3); [done|]. rewrite H by lia.
  destruct (ldu (s0 :: s) (0 + 2)); try done. cbn [obind]. destruct (negb _); [done|].
  destruct (_ =? 224); [done|]. destruct (Nat.ltb_spec (S (length s)) 4); [done|]. by rewrite H by lia.
Qed.

Lemma ldu_lt (s : list Z) i : (i < length s)%nat -> exists c, ldu s i = Ret c /\ is_byte c.
Proof.
  intros Hi. destruct (lookup_lt_is_Some_2 s i Hi) as [x Hx]. unfold ldu, ld. rewrite Hx. cbn [obind].
  eexists. split; [done|]. apply u8_bound.
Qed.

(** It returns, has read what it reports, and its value is a code point. *)
Lemma utf8_decode_returns s : s <> [] ->
  exists n v, utf8_decode s 0 (length s) = Ret (n, v) /\ (n <= length s)%nat /\ ((0 < n)%nat -> code_point v).
Proof.
  intros Hs. unfold utf8_decode, code_point.
  assert (Hmask : forall x k, 0 <= k -> 0 <= Z.land x (Z.ones k) < 2 ^ k).
  { intros. rewrite Z.land_ones by done. apply Z.mod_pos_bound. lia. }
  assert (H0 : exists (n : nat) (v : Z), Ret (0%nat, 0) = Ret (n, v) /\ (n <= length s)%nat /\
    ((0 < n)%nat -> 0 <= v <= 2097151)) by (exists 0%nat, 0; split_and!; [done|lia|lia]).
  destruct s as [|x s]; [done|]. set (l := length (x :: s)) in *.
  destruct (ldu_lt (x :: s) 0) as (s0 & -> & B0); [cbn; lia|]. cbn [obind]. unfold is_byte in B0.
  destruct (_ =? 0). { exists 1%nat, s0. split_and!; [done|cbn in l; lia|lia]. }
  destruct (Nat.ltb_spec l 2); [done|].
  destruct (ldu_lt (x :: s) (0 + 1)) as (s1 & -> & B1); [lia|]. cbn [obind]. destruct (negb _); [done|].
  pose proof (Hmask s1 6 ltac:(lia)) as M1. change (Z.ones 6) with 63 in M1.
  destruct (_ =? 192).
  { eexists 2%nat, _. split_and!; [done|lia|]. intros _. rewrite lor_shiftl by lia.
    pose proof (Hmask s0 5 ltac:(lia)) as M. change (Z.ones 5) with 31 in M. lia. }
  destruct (Nat.ltb_spec l 3); [done|].
  destruct (ldu_lt (x :: s) (0 + 2)) as (s2 & -> & B2); [lia|]. cbn [obind]. destruct (negb _); [done|].
  pose proof (Hmask s2 6 ltac:(lia)) as M2. change (Z.ones 6) with 63 in M2.
  rewrite (lor_shiftl _ 6 (Z.land s2 63)) by lia.
  destruct (_ =? 224).
  { eexists 3%nat, _. split_and!; [done|lia|]. intros _. rewrite lor_shiftl by lia.
    pose proof (Hmask s0 4 ltac:(lia)) as M. change (Z.ones 4) with 15 in M. lia. }
  destruct (Nat.ltb_spec l 4); [done|].
  destruct (ldu_lt (x :: s) (0 + 3)) as (s3 & -> & B3); [lia|]. cbn [obind]. destruct (negb _); [done|].
  pose proof (Hmask s3 6 ltac:(lia)) as M3. change (Z.ones 6) with 63 in M3.
  rewrite (lor_shiftl _ 6 (Z.land s3 63)) by lia.
  destruct (_ =? 240); [|done].
  eexists 4%nat, _. split_and!; [done|lia|]. intros _. rewrite lor_shiftl by lia.
  pose proof (Hmask s0 3 ltac:(lia)) as M. change (Z.ones 3) with 7 in M. lia.
Qed.

(** The bytes of a code point are decoded to it, whatever follows. *)
Lemma lead_masks lead n mask x : In (lead, n, mask) [(192, 32, 31); (224, 16, 15); (240, 8, 7); (128, 64, 63)] ->
  0 <= x < n -> u8 (lead + x) = lead + x /\ Z.land (lead + x) mask = x /\ Z.land (lead + x) 128 = 128 /\
  (lead = 128 -> Z.land (lead + x) 192 = 128) /\
  (Z.land (lead + x) 224 =? 192) = (lead =? 192) /\ (lead <> 192 -> (Z.land (lead + x) 240 =? 224) = (lead =? 224)) /\
  (lead = 240 -> Z.land (lead + x) 248 = 240).
Proof.
  intros Hl Hx.
  assert (H : forallb (fun '(l, n, mask) => forallb (fun x => (u8 (l + x) =? l + x) &&
    (Z.land (l + x) mask =? x) && (Z.land (l + x) 128 =? 128) &&
    (negb (l =? 128) || (Z.land (l + x) 192 =? 128)) &&
    Bool.eqb (Z.land (l + x) 224 =? 192) (l =? 192) &&
    ((l =? 192) || Bool.eqb (Z.land (l + x) 240 =? 224) (l =? 224)) &&
    (negb (l =? 240) || (Z.land (l + x) 248 =? 240))) (seqZ 0 n))
    [(192, 32, 31); (224, 16, 15); (240, 8, 7); (128, 64, 63)] = true) by by vm_compute.
  rewrite forallb_forall in H. specialize (H _ Hl). cbn beta iota in H. rewrite forallb_forall in H.
  specialize (H x ltac:(apply list_elem_of_In, elem_of_seqZ; lia)). rewrite !andb_true_iff in H.
  destruct H as ((((((H1 & H2) & H3) & H4) & H5) & H6) & H7).
  apply Z.eqb_eq in H1, H2, H3. apply Bool.eqb_prop in H5. split_and!; try done.
  - intros ->. by apply Z.eqb_eq.
  - intros Hn. rewrite (proj2 (Z.eqb_neq _ _) Hn) in H6. by apply Bool.eqb_prop.
  - intros ->. by apply Z.eqb_eq.
Qed.

Lemma utf8_decode_bytes v rest : code_point v ->
  utf8_decode (utf8_bytes v ++ rest) 0 (length (utf8_bytes v ++ rest)) = Ret (length (utf8_bytes v), v).
Proof.
  intros [H0 H1]. assert (H6 : forall x, 0 <= x mod 64 < 64) by (intros; apply Z.mod_pos_bound; lia).
  assert (T : forall x, let b := 128 + x mod 64 in u8 b = b /\ Z.land b 63 = x mod 64 /\ Z.land b 192 = 128).
  { intros x. destruct (lead_masks 128 64 63 (x mod 64)) as (A & B & _ & D & _); [cbn; tauto|apply H6|].
    split_and!; auto. }
  unfold utf8_decode, utf8_bytes.
  destruct (Z.leb_spec v 127); [|destruct (Z.leb_spec v 2047); [|destruct (Z.leb_spec v 65535)]];
    cbn [app length]; unfold ldu, ld; cbn [lookup list_lookup Nat.add obind].
  - rewrite u8_small by (unfold is_byte; lia). rewrite land_128 by (unfold is_byte; lia).
    by replace (v <? 128) with true by lia.
  - destruct (T v) as (-> & -> & ->).
    destruct (lead_masks 192 32 31 (v / 64)) as (-> & -> & -> & _ & -> & _); [cbn; tauto| |].
    { split; [apply Z.div_pos; lia|apply Z.div_lt_upper_bound; lia]. }
    cbn. rewrite lor_shiftl by (try apply H6; lia). do 2 f_equal. pose proof (Z.div_mod v 64). lia.
  - destruct (T v) as (-> & -> & ->). destruct (T (v / 64)) as (-> & -> & ->).
    destruct (lead_masks 224 16 15 (v / 4096)) as (-> & -> & -> & _ & -> & E & _); [cbn; tauto| |].
    { split; [apply Z.div_pos; lia|apply Z.div_lt_upper_bound; lia]. }
    rewrite E by done. clear E.
    cbn. assert (D : v / 4096 = v / 64 / 64) by (rewrite Z.div_div by lia; done).
    pose proof (H6 v) as A. pose proof (H6 (v / 64)) as B.
    rewrite (lor_shiftl _ 6), (lor_shiftl _ 12) by lia. do 2 f_equal.
    pose proof (Z.div_mod v 64). pose proof (Z.div_mod (v / 64) 64). lia.
  - destruct (T v) as (-> & -> & ->). destruct (T (v / 64)) as (-> & -> & ->). destruct (T (v / 4096)) as (-> & -> & ->).
    destruct (lead_masks 240 8 7 (v / 262144)) as (-> & -> & -> & _ & -> & E & E'); [cbn; tauto| |].
    { split; [apply Z.div_pos; lia|apply Z.div_lt_upper_bound; lia]. }
    rewrite E, E' by done. clear E E'.
    cbn. assert (D : v / 4096 = v / 64 / 64) by (rewrite Z.div_div by lia; done).
    assert (D' : v / 262144 = v / 4096 / 64) by (rewrite Z.div_div by lia; done).
    pose proof (H6 v) as A. pose proof (H6 (v / 64)) as B. pose proof (H6 (v / 4096)) as C.
    rewrite !(lor_shiftl _ 6), (lor_shiftl _ 18) by lia. do 2 f_equal.
    pose proof (Z.div_mod v 64). pose proof (Z.div_mod (v / 64) 64).
    pose proof (Z.div_mod (v / 4096) 64). lia.
Qed.

(** ** The bodies follow their steps *)

(** The five characters that have an escape sequence. *)
Lemma is_unsafe_2 ch : is_unsafe 2 ch = char_in ch [34; 38; 39; 60; 62].
Proof.
  unfold is_unsafe. destruct (Z.ltb_spec ch 128); cbn [andb].
  2:{ symmetry. apply not_true_iff_false. intros H'. char_cases H'; lia. }
  destruct (Z.leb_spec 0 ch).
  - assert (E : forallb (fun ch => Bool.eqb (negb (Z.land (nth (Z.to_nat ch) ASCII_CLASS 0) 2 =? 0))
      (char_in ch [34; 38; 39; 60; 62])) (seqZ 0 128) = true) by by vm_compute.
    rewrite forallb_forall in E. apply Bool.eqb_prop, E, list_elem_of_In, elem_of_seqZ. lia.
  - replace (Z.to_nat ch) with 0%nat by lia. symmetry. apply not_true_iff_false. intros H'. char_cases H'; lia.
Qed.

Lemma html_char1_some ch : html_char1 ch <> [].
Proof.
  unfold html_char1. rewrite is_unsafe_2. destruct (char_in ch _) eqn:E; [|done]. by char_cases E.
Qed.
Lemma xml_char1_some ch : xml_char1 ch <> [].
Proof.
  unfold xml_char1. rewrite is_unsafe_2. destruct (char_in ch _) eqn:E; [|done]. by char_cases E.
Qed.

Lemma format_d_some v : 0 <= v -> format_d v <> [].
Proof.
  intros Hv E. unfold format_d in E. destruct (_ <? _); [done|]. cbn [dec_digits] in E.
  destruct (_ <? _); [done|]. by apply app_eq_nil in E as [_ E].
Qed.

Lemma number_ref_length v : code_point v -> (4 <= length (number_ref v) <= 10)%nat.
Proof.
  intros Hv. unfold code_point in Hv. unfold number_ref. rewrite !length_app. cbn [bytes_of_string length].
  pose proof (format_d_length 6 v) as H. change (10 ^ Z.of_nat 7) with 10000000 in H. specialize (H ltac:(lia) ltac:(lia)).
  pose proof (format_d_some v ltac:(lia)). destruct (format_d v); [done|]. cbn [length] in *. lia.
Qed.

Lemma view_drop (source srclen : nat) tail m sp s k :
  view source srclen tail m sp s -> (k <= length s)%nat -> view source srclen tail m (sp + k) (drop k s).
Proof.
  intros [Hl Hv] Hk. split; [rewrite length_drop; lia|].
  rewrite Nat.add_assoc, <- slice_drop, Hv. by apply drop_app_le.
Qed.

Section Bodies.
Context (buffer buflen source srclen : nat).

Lemma put_seq_follows m sp bp c k :
  (buffer + buflen <= length m)%nat ->
  put_seq buffer buflen m (sp + k) bp c =
  Ret (match seq_step c k (buflen - 1 - bp)%nat with
       | None => None
       | Some (c, k) => Some (mem_write m (buffer + bp) c, sp + k, bp + length c)%nat
       end) \/ (buflen <= bp + 1)%nat.
Proof.
  intros Hm. destruct (decide (buflen <= bp + 1)%nat); [by right|left].
  unfold put_seq, seq_step, memcpy.
  destruct (Nat.leb_spec buflen (bp + length c)), (Nat.ltb_spec (buflen - 1 - bp) (length c)); try lia; [done|].
  by replace (_ <=? length m)%nat with true by (symmetry; apply Nat.leb_le; lia).
Qed.

Lemma xml_encode_follows tail :
  body_follows (char_step xml_char1) (xml_encode_body buffer buflen source) buffer buflen source srclen tail.
Proof.
  intros m sp bp [|ch s] Hv Hs Hb Hm; [done|]. unfold xml_encode_body. view_head Hv H0.
  unfold char_step, xml_char1. destruct (is_unsafe _ _).
  - destruct (put_seq_follows m sp bp (xml_escseq ch) 1 Hm) as [E|]; [exact E|lia].
  - cbn [length]. destruct (Nat.ltb_spec (buflen - 1 - bp) 1); [lia|]. by put_byte.
Qed.

Lemma html_encode_follows tail :
  body_follows html_step (html_encode_body buffer buflen source srclen) buffer buflen source srclen tail.
Proof.
  intros m sp bp [|ch s] Hv Hs Hb Hm; [done|]. unfold html_encode_body. view_head Hv H0.
  unfold html_step. destruct (ch <? 128).
  { unfold char_step, html_char1. destruct (is_unsafe _ _).
    - destruct (put_seq_follows m sp bp (html_escseq ch) 1 Hm) as [E|]; [exact E|lia].
    - cbn [length]. destruct (Nat.ltb_spec (buflen - 1 - bp) 1); [lia|]. by put_byte. }
  replace (srclen - sp)%nat with (length (ch :: s)) by (destruct Hv; lia).
  rewrite utf8_decode_local.
  2:{ done. }
  2:{ intros i x Hx. rewrite <- Nat.add_assoc. pose proof (view_ld _ _ _ _ _ _ _ _ Hv Hx) as E.
      unfold ld in E. destruct (m !! _); [congruence|done]. }
  destruct (utf8_decode_returns (ch :: s)) as (n & v & E & Hn & Hc); [done|]. rewrite E. cbn [obind].
  assert (Hcp : code_point (u8 ch)) by (pose proof (u8_bound ch); unfold is_byte, code_point in *; lia).
  destruct n as [|n]; cbn [Nat.eqb].
  - fold (number_ref (u8 ch)). pose proof (number_ref_length _ Hcp).
    replace (_ <=? 10)%nat with true by (symmetry; apply Nat.leb_le; lia).
    destruct (put_seq_follows m sp bp (number_ref (u8 ch)) 1 Hm) as [E'|]; [exact E'|lia].
  - fold (number_ref v). pose proof (number_ref_length v ltac:(apply Hc; lia)).
    replace (_ <=? 10)%nat with true by (symmetry; apply Nat.leb_le; lia).
    destruct (put_seq_follows m sp bp (number_ref v) (S n) Hm) as [E'|]; [exact E'|lia].
Qed.

Lemma entity_at_view m sp s lit :
  view source srclen [0] m sp s -> (0 < length lit)%nat ->
  entity_at m source srclen sp lit = Ret (starts lit s).
Proof.
  intros [Hl Hv] H0. unfold entity_at, starts.
  assert (Hm : (source + srclen < length m)%nat).
  { apply (f_equal length) in Hv. rewrite length_app in Hv. cbn [length] in Hv.
    unfold slice in Hv. rewrite length_take, length_drop in Hv. lia. }
  destruct (Nat.ltb_spec (sp + (length lit - 1)) srclen).
  - replace (_ <=? length m)%nat with true by (symmetry; apply Nat.leb_le; lia).
    rewrite <- (slice_take m _ (source + srclen + length [0]) (length lit)) by (cbn; lia).
    rewrite Hv, take_app_le by lia. done.
  - destruct (list_Z_eqb _ lit) eqn:E; [|done]. apply list_Z_eqb_spec in E.
    apply (f_equal length) in E. rewrite length_take in E. lia.
Qed.

Lemma strtoul_nonneg base s : 2 <= base -> 0 <= (strtoul base s).1.
Proof.
  intros Hb. unfold strtoul. destruct (strtoul_sign _) as [neg n].
  set (t := drop _ _). destruct (span _ t).1 as [|c ds] eqn:E; [done|]. cbn [fst].
  assert (Hf : forall l v, 0 <= v -> 0 <= fold_left (fun v c => v * base + digit_of c) l v).
  { induction l as [|x l IH]; intros v Hv; [done|]. cbn [fold_left]. apply IH.
    assert (0 <= digit_of x); [|nia]. unfold digit_of, isdigit.
    repeat match goal with |- context [if ?b then _ else _] => destruct b eqn:? end; lia. }
  destruct (_ <=? _); [done|]. destruct neg; [|by apply Hf].
  unfold u64. apply Z.mod_pos_bound. lia.
Qed.

Lemma cstr_app_0 s t : cstr (s ++ 0 :: t) = cstr s.
Proof. induction s as [|c s IH]; [done|]. cbn. by rewrite IH. Qed.

Lemma view_suffix m sp s : view source srclen [0] m sp s ->
  exists t, drop (source + sp) m = s ++ 0 :: t.
Proof.
  intros [Hl Hv]. exists (drop (source + srclen + 1) m). unfold slice in Hv. cbn [length] in Hv.
  rewrite <- (take_drop (source + srclen + 1 - (source + sp)) (drop (source + sp) m)), Hv, <- app_assoc.
  cbn [app]. do 2 f_equal. rewrite drop_drop. f_equal. lia.
Qed.

Lemma xml_decode_number_follows m sp bp r :
  view source srclen [0] m sp (35 :: r) -> (bp < buflen)%nat -> (buffer + buflen <= length m)%nat ->
  xml_decode_number buffer buflen source srclen m sp bp =
  Ret (match number_at r with
       | Some (v, n) =>
           if (v <=? 2097151) && (length (utf8_bytes v) <=? buflen - bp)%nat
           then Some (mem_write m (buffer + bp) (utf8_bytes v), sp + 1 + n, bp + length (utf8_bytes v))%nat
           else None
       | None => None
       end).
Proof.
  intros Hv Hb Hm. pose proof Hv as [Hl _]. cbn [length] in Hl.
  assert (T : forall base t sp, 2 <= base -> view source srclen [0] m sp t ->
    (let nptr := drop (source + sp) m in
     if negb (char_in 0 nptr) then Crash
     else
       let '(val, n) := strtoul base (cstr nptr) in
       let ptr := (sp + n)%nat in
       let! semi := if (ptr <? srclen)%nat then ld m (source + ptr) else Ret 0 in
       if semi =? 59 then
         let! (m, esclen) := utf8_encode m (buffer + bp) (buflen - bp) val in
         if (esclen =? 0)%nat then Ret None else Ret (Some (m, ptr + 1, bp + esclen))%nat
       else Ret None) =
    Ret (let '(v, n) := strtoul base (cstr t) in
         match t !! n with
         | Some c => if c =? 59 then
             if (v <=? 2097151) && (length (utf8_bytes v) <=? buflen - bp)%nat
             then Some (mem_write m (buffer + bp) (utf8_bytes v), sp + n + 1, bp + length (utf8_bytes v))%nat
             else None else None
         | None => None
         end)).
  { clear -Hm Hb. intros base t sp Hbase Hv. cbv zeta. pose proof Hv as [Hl _].
    destruct (view_suffix _ _ _ Hv) as [u Hu]. rewrite Hu, char_in_app. cbn [char_in existsb Z.eqb orb].
    rewrite orb_true_r. cbn [negb]. rewrite cstr_app_0.
    pose proof (strtoul_nonneg base (cstr t) Hbase) as Hn. destruct (strtoul base (cstr t)) as [v n]. cbn [fst] in Hn.
    destruct (Nat.ltb_spec (sp + n) srclen) as [Hlt|Hge].
    - destruct (lookup_lt_is_Some_2 t n ltac:(lia)) as [c Hc]. rewrite Hc.
      rewrite (view_ld _ _ _ _ _ _ _ _ Hv Hc). cbn [obind]. destruct (c =? 59); [|done].
      rewrite utf8_encode_spec by lia. cbn [obind]. pose proof (utf8_bytes_size v).
      destruct (_ && _); [|done]. by replace (length (utf8_bytes v) =? 0)%nat with false by (symmetry; apply Nat.eqb_neq; lia).
    - cbn [obind]. rewrite lookup_ge_None_2 by lia. done. }
  unfold xml_decode_number, number_at. pose proof (view_drop _ _ _ _ _ _ 1 Hv ltac:(cbn; lia)) as Hv1. cbn [drop] in Hv1.
  destruct r as [|x r].
  { replace (sp + 1 <? srclen)%nat with false by (symmetry; apply Nat.ltb_ge; cbn in Hl; lia).
    cbn [obind Z.eqb]. pose proof (T 10 [] _ ltac:(lia) Hv1) as E. cbv zeta in E.
    rewrite <- (Nat.add_assoc source sp 1). exact E. }
  cbn [length] in Hl. replace (sp + 1 <? srclen)%nat with true by (symmetry; apply Nat.ltb_lt; lia).
  rewrite (view_ld _ _ _ _ _ _ 1 x Hv eq_refl). cbn [obind]. destruct (x =? 120).
  - pose proof (view_drop _ _ _ _ _ _ 2 Hv ltac:(cbn; lia)) as Hv2. cbn [drop] in Hv2.
    pose proof (T 16 r _ ltac:(lia) Hv2) as E. cbv zeta in E.
    replace (source + (sp + 1) + 1)%nat with (source + (sp + 2))%nat by lia. 
    replace (sp + 1 + 1)%nat with (sp + 2)%nat by lia. rewrite E.
    destruct (strtoul 16 (cstr r)) as [v n]. destruct (r !! n) as [c|]; [|done].
    destruct (c =? 59); [|done]. by replace (sp + 1 + (1 + n + 1))%nat with (sp + 2 + n + 1)%nat by lia.
  - pose proof (T 10 (x :: r) _ ltac:(lia) Hv1) as E. cbv zeta in E.
    rewrite <- (Nat.add_assoc source sp 1), E. destruct (strtoul 10 (cstr (x :: r))) as [v n]. destruct ((x :: r) !! n) as [c|]; [|done].
    destruct (c =? 59); [|done]. by rewrite <- !Nat.add_assoc.
Qed.
End Bodies.

Lemma starts_length lit s : starts lit s = true -> (length lit <= length s)%nat.
Proof.
  unfold starts. intros E%list_Z_eqb_spec. apply (f_equal length) in E. rewrite length_take in E. lia.
Qed.

Lemma length_span f s : (length (span f s).1 + length (span f s).2 = length s)%nat.
Proof. induction s as [|c s IH]; [done|]. cbn. destruct (f c); cbn; lia. Qed.

Lemma skip_space_length s : (length (skip_space s) <= length s)%nat.
Proof. induction s as [|c s IH]; [done|]. cbn. destruct (isspace c); cbn; lia. Qed.

(** A number is zero or has been read from at least one character. *)
Lemma strtoul_reads base s : (strtoul base s).2 = 0%nat -> (strtoul base s).1 = 0.
Proof.
  unfold strtoul. destruct (strtoul_sign _) as [neg n]. pose proof (skip_space_length s).
  set (t := drop _ _). pose proof (length_span (is_digit_of base) t).
  assert (length t <= length s)%nat by (subst t; rewrite !length_drop; lia).
  destruct (span _ t).1; [done|]. cbn [fst snd length] in *. lia.
Qed.

Lemma number_at_reads r v n : number_at r = Some (v, n) ->
  (1 <= n <= length r)%nat /\ (n = 1%nat -> v = 0) /\ 0 <= v.
Proof.
  unfold number_at.
  assert (T : forall base t k, 2 <= base -> (let '(w, n) := strtoul base (cstr t) in
     match t !! n with Some c => if c =? 59 then Some (w, k + n + 1)%nat else None | None => None end) = Some (v, n) ->
     (k < n <= k + length t)%nat /\ (n = 1%nat -> v = 0) /\ 0 <= v).
  { intros base t k Hb. pose proof (strtoul_reads base (cstr t)). pose proof (strtoul_nonneg base (cstr t) Hb).
    destruct (strtoul base (cstr t)) as [w i]. cbn [fst snd] in *. destruct (t !! i) eqn:E; [|done].
    apply lookup_lt_Some in E. destruct (_ =? _); [|done]. intros [= <- <-].
    split_and!; [lia|lia| |done]. intros Hi. apply H. lia. }
  destruct r as [|x r]; [|destruct (x =? 120)]; intros E; apply T in E; try lia; cbn [length] in *; split_and!; lia || tauto.
Qed.

#[export] Instance xml_step_Step : Step xml_step 1.
Proof.
  assert (H : forall room s c k, xml_step room s = Some (c, k) ->
    (1 <= k <= length s)%nat /\ (length c <= 1 \/ length c <= room + 1)%nat).
  { intros room [|ch r] c k; [done|]. unfold xml_step. cbn [length].
    destruct (negb _); [intros [= <- <-]; cbn; lia|].
    repeat match goal with
    | |- context [starts ?l r] => destruct (starts l r) eqn:E; [apply starts_length in E; cbn in E; intros [= <- <-]; cbn; lia|clear E]
    end.
    destruct r as [|d r]; [done|]. destruct (d =? 35); [|done]. destruct (number_at r) as [[v n]|] eqn:E; [|done].
    apply number_at_reads in E. destruct (_ && _) eqn:E'; [|done]. intros [= <- <-].
    apply andb_true_iff in E' as [_ E'%Nat.leb_le]. cbn [length]. lia. }
  split; intros; apply H in H0 || apply H in H1; lia.
Qed.

Lemma xml_step_shrinks : shrinks xml_step.
Proof.
  intros room [|ch r] c k; [done|]. unfold xml_step.
  destruct (negb _); [intros [= <- <-]; cbn; lia|].
  repeat match goal with
  | |- context [starts ?l r] => destruct (starts l r); [intros [= <- <-]; cbn; lia|]
  end.
  destruct r as [|d r]; [done|]. destruct (d =? 35); [|done]. destruct (number_at r) as [[v n]|] eqn:E; [|done].
  apply number_at_reads in E as (Hn & H1 & H0). destruct (_ && _); [|done]. intros [= <- <-].
  pose proof (utf8_bytes_size v). destruct (decide (n = 1%nat)) as [E|]; [|lia].
  rewrite H1 by done. cbn. lia.
Qed.

#[export] Instance html_step_Step : Step html_step 0.
Proof.
  assert (H : forall room s c k, html_step room s = Some (c, k) ->
    (1 <= k <= length s)%nat /\ (length c <= room)%nat).
  { intros room [|ch r] c k; [done|]. unfold html_step. destruct (ch <? 128).
    { unfold char_step. destruct (Nat.ltb_spec room (length (html_char1 ch))); [done|].
      intros [= <- <-]. cbn [length]. lia. }
    destruct (utf8_decode_returns (ch :: r)) as (n & v & -> & Hn & _); [done|]. unfold seq_step.
    destruct n as [|n];
      match goal with |- context [(room <? length ?c)%nat] => destruct (Nat.ltb_spec room (length c)); [done|] end;
      intros [= <- <-]; cbn [length] in *; lia. }
  split; intros; apply H in H0 || apply H in H1; lia.
Qed.

Lemma xml_decode_follows buffer buflen source srclen :
  body_follows xml_step (xml_decode_body buffer buflen source srclen) buffer buflen source srclen [0].
Proof.
  intros m sp bp [|ch r] Hv Hs Hb Hm; [done|]. unfold xml_decode_body. view_head Hv H0.
  unfold xml_step. destruct (negb _); [rewrite Nat.add_0_r; by put_byte|].
  pose proof (view_drop _ _ _ _ _ _ 1 Hv ltac:(cbn; lia)) as Hv1. cbn [drop] in Hv1.
  pose proof (fun lit => entity_at_view source srclen m (sp + 1) r lit Hv1) as He.
  repeat match goal with
  | |- context [starts ?l r] => rewrite (He l) by (cbn; lia); cbn [obind];
      destruct (starts l r); [put_byte; rewrite <- Nat.add_assoc; done|]
  end.
  destruct r as [|c r].
  { replace (sp + 1 <? srclen)%nat with false; [done|]. symmetry. apply Nat.ltb_ge. destruct Hv1. cbn in *. lia. }
  replace (sp + 1 <? srclen)%nat with true by (symmetry; apply Nat.ltb_lt; destruct Hv1; cbn in *; lia).
  rewrite (view_ld _ _ _ _ _ _ 1 c Hv eq_refl). cbn [obind]. destruct (Z.eqb_spec c 35) as [->|]; [|done].
  rewrite (xml_decode_number_follows buffer buflen source srclen m (sp + 1) bp r Hv1) by lia.
  destruct (number_at r) as [[v n]|]; [|done]. replace (buflen - bp)%nat with (buflen - 1 - bp + 1)%nat by lia.
  destruct (_ && _); [|done]. do 4 f_equal. lia.
Qed.

(** ** Encoding and decoding *)

(** A loop over units: [src v] is read as one turn that writes [out v] when it fits. *)
Lemma unit_emits (f : step) (src out : Z -> list Z) (P : Z -> Prop) n room vs :
  (forall v rest room, P v -> f room (src v ++ rest) = seq_step (out v) (length (src v)) room) ->
  (forall v, src v <> []) -> (forall v, out v <> []) -> Forall P vs ->
  (length (encoded src vs) <= n)%nat ->
  emit n f room (encoded src vs) = encoded out (take (fitting out room vs) vs).
Proof.
  intros Hf Hs Ho Hvs. revert n room. induction Hvs as [|v vs Hv Hvs IH]; intros n room Hn; [by destruct n|].
  unfold encoded in *. cbn [map concat fitting] in *. rewrite length_app in Hn.
  pose proof (Hf v (concat (map src vs)) room Hv) as E. specialize (Hs v). specialize (Ho v) as Hov.
  destruct (src v) as [|x u]; [done|]. cbn [app length] in *. destruct n as [|n]; [lia|]. cbn [emit].
  destruct (Nat.eqb_spec room 0) as [->|]; [by destruct (out v)|]. rewrite E. unfold seq_step.
  destruct (_ <? _)%nat; [done|]. cbn [take map concat]. f_equal. cbn [drop]. rewrite drop_app_length.
  apply IH. lia.
Qed.

(** The same for a step that needs less than [seq_step], with room for everything. *)
Lemma unit_emits_all (f : step) (src out : Z -> list Z) (P : Z -> Prop) n room vs :
  (forall v rest room, P v -> (length (out v) <= room)%nat -> f room (src v ++ rest) = Some (out v, length (src v))) ->
  (forall v, src v <> []) -> (forall v, out v <> []) -> Forall P vs ->
  (length (encoded src vs) <= n)%nat -> (length (encoded out vs) <= room)%nat ->
  emit n f room (encoded src vs) = encoded out vs.
Proof.
  intros Hf Hs Ho Hvs. revert n room. induction Hvs as [|v vs Hv Hvs IH]; intros n room Hn Hr; [by destruct n|].
  unfold encoded in *. cbn [map concat] in *. rewrite length_app in Hn, Hr.
  pose proof (Hf v (concat (map src vs)) room Hv ltac:(lia)) as E. specialize (Hs v). specialize (Ho v) as Hov.
  destruct (src v) as [|x u]; [done|]. cbn [app length] in *. destruct n as [|n]; [lia|]. cbn [emit].
  destruct (Nat.eqb_spec room 0) as [->|]; [destruct (out v); [done|cbn in Hr; lia]|]. rewrite E.
  f_equal. cbn [drop]. rewrite drop_app_length. apply IH; lia.
Qed.

Lemma encoded_length_le (f g : Z -> list Z) (P : Z -> Prop) vs :
  (forall v, P v -> length (f v) <= length (g v))%nat -> Forall P vs ->
  (length (encoded f vs) <= length (encoded g vs))%nat.
Proof.
  intros H Hvs. unfold encoded. induction Hvs as [|v vs Hv Hvs IH]; [done|]. cbn [map concat].
  rewrite !length_app. specialize (H v Hv). lia.
Qed.

(** What [html_encode] makes of a code point. *)
Definition html_cp (v : Z) : list Z := if v <? 128 then html_char1 v else number_ref v.

Lemma utf8_bytes_some v : utf8_bytes v <> [].
Proof. pose proof (utf8_bytes_size v). by destruct (utf8_bytes v); [cbn in *; lia|]. Qed.
Lemma html_cp_some v : html_cp v <> [].
Proof. unfold html_cp. destruct (_ <? _); [apply html_char1_some|done]. Qed.

Lemma html_step_cp v rest room : code_point v ->
  html_step room (utf8_bytes v ++ rest) = seq_step (html_cp v) (length (utf8_bytes v)) room.
Proof.
  intros Hv. pose proof (utf8_decode_bytes v rest Hv) as Hd. unfold html_cp. destruct (Z.ltb_spec v 128).
  - unfold utf8_bytes. replace (v <=? 127) with true by lia. cbn [app html_step length].
    by replace (v <? 128) with true by lia.
  - unfold html_step. assert (Hh : exists x u, utf8_bytes v = x :: u /\ 128 <= x /\ u <> []).
    { unfold utf8_bytes, code_point in *. replace (v <=? 127) with false by lia.
      repeat destruct (_ <=? _); eexists _, _; split_and!; try done;
        match goal with |- context [?l + v / ?d] => pose proof (Z.div_pos v d ltac:(lia) ltac:(lia)); lia end. }
    destruct Hh as (x & u & E & Hx & Hu). rewrite E in *. cbn [app length] in Hd |- *.
    replace (x <? 128) with false by lia. rewrite Hd. by destruct u.
Qed.

Lemma span_digits ds t : Forall (fun c => 48 <= c <= 57) ds ->
  span (is_digit_of 10) (ds ++ 59 :: t) = (ds, 59 :: t).
Proof.
  intros H. induction H as [|c ds Hc H IH]; [done|]. cbn [app span]. rewrite IH.
  replace (is_digit_of 10 c) with true; [done|].
  unfold is_digit_of, digit_of, isdigit. replace ((48 <=? c) && (c <=? 57)) with true by lia. lia.
Qed.

Lemma digits_value ds v : Forall (fun c => 48 <= c <= 57) ds ->
  fold_left (fun v c => v * 10 + digit_of c) ds v = fold_left (fun v c => v * 10 + (c - 48)) ds v.
Proof.
  intros H. revert v. induction H as [|c ds Hc H IH]; intros v; [done|]. cbn [fold_left]. rewrite IH.
  f_equal. unfold digit_of, isdigit. replace ((48 <=? c) && (c <=? 57)) with true by lia. lia.
Qed.

(** [strtoul] reads what [%lu] prints. *)
Lemma strtoul_format_d v t : 0 <= v < 10 ^ 11 ->
  strtoul 10 (format_d v ++ 59 :: t) = (v, length (format_d v)).
Proof.
  intros Hv. pose proof (format_d_plain v ltac:(lia)) as Hp.
  assert (Hd : fold_left (fun v c => v * 10 + digit_of c) (format_d v) 0 = v).
  { rewrite digits_value by done. unfold format_d. destruct (Z.ltb_spec v 0); [lia|].
    by apply (dec_value_digits 10). }
  pose proof (span_digits (format_d v) t Hp) as Hs.
  pose proof (format_d_some v ltac:(lia)). destruct (format_d v) as [|c ds]; [done|].
  apply List.Forall_cons_iff in Hp as [Hc Hp]. unfold strtoul. cbn [app skip_space].
  replace (isspace c) with false by (unfold isspace; lia). unfold strtoul_sign.
  replace (c =? 45) with false by lia. replace (c =? 43) with false by lia. cbn [drop].
  assert (Hx : strtoul_prefix 10 (c :: ds ++ 59 :: t) = 0%nat).
  { unfold strtoul_prefix. destruct (ds ++ 59 :: t) as [|? [|? ?]]; done. }
  rewrite Hx. cbn [drop]. cbn [app] in Hs. rewrite Hs. cbn [fst snd]. rewrite Hd.
  replace (2 ^ 64 <=? v) with false by lia. f_equal. cbn [length]. rewrite length_app. cbn [length]. lia.
Qed.

Lemma cstr_digits ds t : Forall (fun c => 48 <= c <= 57) ds -> cstr (ds ++ 59 :: t) = ds ++ 59 :: cstr t.
Proof.
  intros H. induction H as [|c ds Hc H IH]; [done|]. cbn [app cstr].
  replace (c =? 0) with false by lia. by rewrite IH.
Qed.

Lemma xml_step_number v rest room : code_point v -> (length (utf8_bytes v) <= room + 1)%nat ->
  xml_step room (number_ref v ++ rest) = Some (utf8_bytes v, length (number_ref v)).
Proof.
  intros Hv Hr. unfold code_point in Hv. unfold number_ref. rewrite <- !app_assoc. cbn [bytes_of_string app xml_step].
  replace (Z.of_nat (Ascii.nat_of_ascii _) =? 38) with true by done. cbn [negb].
  pose proof (format_d_plain v ltac:(lia)) as Hp. pose proof (strtoul_format_d v (cstr rest) ltac:(lia)) as Hs.
  rewrite <- cstr_digits in Hs by done.
  assert (Hn : number_at (format_d v ++ 59 :: rest) = Some (v, length (format_d v) + 1)%nat).
  { unfold number_at. pose proof (format_d_some v ltac:(lia)). destruct (format_d v) as [|c ds]; [done|].
    apply List.Forall_cons_iff in Hp as [Hc Hp]. cbn [app]. replace (c =? 120) with false by lia.
    cbn [app] in Hs. rewrite Hs. cbn [length].
    change (c :: ds ++ 59 :: rest) with ((c :: ds) ++ 59 :: rest). change (S (length ds)) with (length (c :: ds)).
    by rewrite list_lookup_middle. }
  cbn [starts]. unfold starts. cbn. rewrite Hn.
  replace (v <=? 2097151) with true by lia. replace (_ <=? room + 1)%nat with true by (symmetry; by apply Nat.leb_le).
  cbn [andb]. do 3 f_equal. rewrite length_app. cbn. lia.
Qed.

(** [xml_decode] reads one escape sequence, whatever follows. *)
Lemma xml_step_char1 (esc : Z -> list Z) ch rest room :
  (forall c, is_unsafe 2 c = true -> esc c = html_escseq c \/ esc c = xml_escseq c) ->
  (0 < room)%nat ->
  xml_step room ((if is_unsafe 2 ch then esc ch else [ch]) ++ rest) =
  Some ([ch], length (if is_unsafe 2 ch then esc ch else [ch])).
Proof.
  intros He Hr. destruct (is_unsafe 2 ch) eqn:E.
  - specialize (He ch E). rewrite is_unsafe_2 in E.
    assert (Hn : xml_step room (number_ref 39 ++ rest) = Some (utf8_bytes 39, length (number_ref 39))).
    { apply xml_step_number; [unfold code_point; lia|cbn; lia]. }
    destruct He as [-> | ->]; char_cases E; try reflexivity; exact Hn.
  - cbn [app length xml_step]. rewrite is_unsafe_2 in E. destruct (Z.eqb_spec ch 38) as [->|]; [done|]. done.
Qed.

Lemma xml_step_html_cp v rest room : code_point v -> (length (utf8_bytes v) <= room)%nat ->
  xml_step room (html_cp v ++ rest) = Some (utf8_bytes v, length (html_cp v)).
Proof.
  intros Hv Hr. unfold html_cp. destruct (Z.ltb_spec v 128).
  - unfold html_char1, HTML_UNSAFE, utf8_bytes in *. replace (v <=? 127) with true in * by lia. cbn [length] in Hr.
    apply (xml_step_char1 html_escseq); [by left|lia].
  - apply xml_step_number; [done|lia].
Qed.

Lemma xml_step_xml_char1 ch rest room : (0 < room)%nat ->
  xml_step room (xml_char1 ch ++ rest) = Some ([ch], length (xml_char1 ch)).
Proof. intros. apply (xml_step_char1 xml_escseq); [by right|done]. Qed.

Section Placed.
Context (m : list Z) (buffer buflen source srclen : nat).
Context (Hlen : (0 < buflen)%nat) (Hbuf : (buffer + buflen <= length m)%nat).
Context (Hsrc : (source + srclen <= length m)%nat).
Let s := slice m source (source + srclen).

Lemma html_encode_spec vs :
  (buffer + buflen <= source \/ source + srclen <= buffer)%nat ->
  Forall code_point vs -> s = encoded utf8_bytes vs ->
  let o := encoded html_cp (take (fitting html_cp (buflen - 1) vs) vs) in
  html_encode m buffer buflen source srclen = Ret (mem_write m buffer (o ++ [0]), length o).
Proof.
  intros Hd Hvs Hs o. unfold html_encode.
  rewrite (transform_frame_spec html_step 0 _ buffer buflen source srclen [] m s);
    try done; [|apply html_encode_follows|unfold no_clobber; cbn [length]; lia|lia|by apply view_disjoint].
  unfold transformed. rewrite Hs.
  rewrite (unit_emits html_step utf8_bytes html_cp code_point) by
    (done || apply html_step_cp || apply utf8_bytes_some || apply html_cp_some).
  fold o. destruct (fitting_spec html_cp (buflen - 1) vs) as [Hl _]. fold o in Hl.
  by replace (buffer + length o <? length m)%nat with true by (symmetry; apply Nat.ltb_lt; lia).
Qed.

Lemma xml_encode_spec :
  (buffer + buflen <= source \/ source + srclen <= buffer)%nat ->
  let o := encoded xml_char1 (take (fitting xml_char1 (buflen - 1) s) s) in
  xml_encode m buffer buflen source srclen = Ret (mem_write m buffer (o ++ [0]), length o).
Proof. intros. apply encoder_spec; try done; [apply xml_char1_some|apply xml_encode_follows]. Qed.

(** [xml_decode] of a NUL-terminated source; it may run in place. *)
Lemma xml_decode_spec u :
  (buffer <= source \/ source + srclen < buffer)%nat ->
  slice m source (source + srclen + 1) = u ++ [0] -> length u = srclen ->
  let o := transformed xml_step buflen u in
  xml_decode m buffer buflen source srclen =
  if (buffer + length o <? length m)%nat then Ret (mem_write m buffer (o ++ [0]), length o) else Crash.
Proof.
  intros Hd Hu Hlu. unfold xml_decode.
  rewrite (transform_frame_spec xml_step 1 _ buffer buflen source srclen [0] m u);
    try done; [apply xml_decode_follows| |].
  - pose proof xml_step_shrinks. unfold no_clobber. cbn [length]. destruct Hd; [right; right; auto|lia].
  - split; [lia|]. by rewrite Nat.add_0_r.
Qed.
End Placed.

(** Decoding in place what an encoder has left. *)
Lemma xml_decoded_in_place (src out : Z -> list Z) (P : Z -> Prop) m buffer buflen vs :
  (forall v rest room, P v -> (length (out v) <= room)%nat ->
     xml_step room (src v ++ rest) = Some (out v, length (src v))) ->
  (forall v, src v <> []) -> (forall v, out v <> []) ->
  (forall v, P v -> (length (out v) <= length (src v))%nat) -> Forall P vs ->
  let e := encoded src vs in let d := encoded out vs in
  (length e < buflen)%nat -> (buffer + buflen <= length m)%nat ->
  xml_decode (mem_write m buffer (e ++ [0])) buffer (S (length e)) buffer (length e) =
  Ret (mem_write (mem_write m buffer (e ++ [0])) buffer (d ++ [0]), length d).
Proof.
  intros Hf Hs Ho Hl Hvs e d He Hm.
  assert (Hle : (length d <= length e)%nat) by by apply (encoded_length_le _ _ P).
  assert (Hw : (buffer + length (e ++ [0%Z]) <= length m)%nat) by (rewrite length_app; cbn; lia).
  assert (Hl' : length (mem_write m buffer (e ++ [0])) = length m) by by apply length_mem_write.
  rewrite xml_decode_spec with (u := e); rewrite ?Hl'; try lia.
  2:{ replace (buffer + length e + 1)%nat with (buffer + length (e ++ [0%Z]))%nat by (rewrite length_app; cbn; lia).
      by rewrite slice_mem_write. }
  unfold transformed. rewrite Nat.sub_succ, Nat.sub_0_r.
  rewrite (unit_emits_all xml_step src out P _ _ vs Hf Hs Ho Hvs (le_n _) Hle : emit (length e) _ (length e) e = d).
  by replace (buffer + length d <? length m)%nat with true by (symmetry; apply Nat.ltb_lt; lia).
Qed.

(** The characters that open markup. *)
Definition markup (c : Z) : bool := char_in c [34; 39; 60; 62].

Lemma number_ref_plain v : code_point v -> Forall (fun c => markup c = false /\ c < 128) (number_ref v).
Proof.
  intros Hv. unfold code_point in Hv. unfold number_ref. apply Forall_app. split; [vm_compute; by repeat constructor|].
  apply Forall_app. split; [|vm_compute; by repeat constructor].
  eapply Forall_impl; [|apply (format_d_plain v); lia]. cbn beta. intros c Hc. split; [|lia].
  apply not_true_iff_false. intros H. unfold markup in H. char_cases H; lia.
Qed.

Lemma html_cp_plain v : code_point v -> Forall (fun c => markup c = false /\ c < 128) (html_cp v).
Proof.
  intros Hv. unfold html_cp. destruct (Z.ltb_spec v 128); [|by apply number_ref_plain].
  unfold html_char1, HTML_UNSAFE. rewrite is_unsafe_2. destruct (char_in v _) eqn:E.
  - char_cases E; vm_compute; by repeat constructor.
  - constructor; [|constructor]. split; [|done]. apply not_true_iff_false. intros H'.
    apply not_true_iff_false in E. apply E. unfold markup in H'. by char_cases H'.
Qed.

(** C38. [html_encode] of a text in UTF-8 gives ASCII without markup and
    [html_decode] in place gives the text back; a buffer that is too small gets the
    characters that fit and a NUL. *)
Theorem html_roundtrip m buffer buflen source srclen vs :
  (0 < buflen)%nat -> (buffer + buflen <= length m)%nat -> (source + srclen <= length m)%nat ->
  (buffer + buflen <= source \/ source + srclen <= buffer)%nat ->
  Forall code_point vs -> slice m source (source + srclen) = encoded utf8_bytes vs ->
  exists k o, let t := encoded utf8_bytes (take k vs) in
    html_encode m buffer buflen source srclen = Ret (mem_write m buffer (o ++ [0]), length o) /\
    (length o < buflen)%nat /\
    (k = length vs \/ exists v, vs !! k = Some v /\ (buflen <= length o + length (html_cp v))%nat) /\
    Forall (fun c => markup c = false /\ c < 128) o /\
    html_decode (mem_write m buffer (o ++ [0])) buffer (S (length o)) buffer (length o) =
    Ret (mem_write (mem_write m buffer (o ++ [0])) buffer (t ++ [0]), length t).
Proof.
  intros H0 Hm Hs Hd Hvs E.
  pose proof (html_encode_spec m buffer buflen source srclen H0 Hm Hs vs Hd Hvs E) as He. cbn zeta in He.
  set (k := fitting html_cp (buflen - 1) vs) in *. exists k, (encoded html_cp (take k vs)). cbn zeta.
  destruct (fitting_spec html_cp (buflen - 1) vs) as [Hl Hk]. fold k in Hl, Hk.
  assert (Hvk : Forall code_point (take k vs)) by by apply Forall_take.
  split_and!; [exact He|lia| | |].
  - destruct Hk as [Hk|(v & Hv & Hk)]; [by left|right]. exists v. split; [done|lia].
  - unfold encoded. clear -Hvk. induction Hvk as [|v l Hv Hl IH]; [constructor|]. cbn [map concat].
    apply Forall_app. split; [by apply html_cp_plain|done].
  - unfold html_decode. apply (xml_decoded_in_place html_cp utf8_bytes code_point _ _ buflen); try done; try lia.
    + intros. by apply xml_step_html_cp.
    + apply html_cp_some.
    + apply utf8_bytes_some.
    + intros v Hv. pose proof (number_ref_length v Hv). pose proof (utf8_bytes_size v). unfold html_cp.
      destruct (Z.ltb_spec v 128); [|lia]. unfold utf8_bytes. replace (v <=? 127) with true by lia.
      pose proof (html_char1_some v). destruct (html_char1 v); cbn in *; [done|lia].
Qed.

(** "<e'>" with an accent: four code points of five bytes. *)
Definition demo_text : list Z := [60; 233; 62; 97].
Definition demo_html_memory : list Z := encoded utf8_bytes demo_text ++ repeat 0 16.

Lemma html_roundtrip_witness : exists k o, let t := encoded utf8_bytes (take k demo_text) in
    html_encode demo_html_memory 5 16 0 5 = Ret (mem_write demo_html_memory 5 (o ++ [0]), length o) /\
    (length o < 16)%nat /\
    (k = length demo_text \/ exists v, demo_text !! k = Some v /\ (16 <= length o + length (html_cp v))%nat) /\
    Forall (fun c => markup c = false /\ c < 128) o /\
    html_decode (mem_write demo_html_memory 5 (o ++ [0])) 5 (S (length o)) 5 (length o) =
    Ret (mem_write (mem_write demo_html_memory 5 (o ++ [0])) 5 (t ++ [0]), length t).
Proof.
  apply (html_roundtrip demo_html_memory 5 16 0 5 demo_text).
  - lia.
  - apply Nat.leb_le. reflexivity.
  - apply Nat.leb_le. reflexivity.
  - right. lia.
  - repeat constructor; discriminate.
  - reflexivity.
Defined.

(** [xml_encode] and [xml_decode], for every byte string. *)
Theorem xml_roundtrip m buffer buflen source srclen :
  (0 < buflen)%nat -> (buffer + buflen <= length m)%nat -> (source + srclen <= length m)%nat ->
  (buffer + buflen <= source \/ source + srclen <= buffer)%nat ->
  let s := slice m source (source + srclen) in
  exists k o,
    xml_encode m buffer buflen source srclen = Ret (mem_write m buffer (o ++ [0]), length o) /\
    (length o < buflen)%nat /\
    (k = srclen \/ exists c, s !! k = Some c /\ (buflen <= length o + length (xml_char1 c))%nat) /\
    xml_decode (mem_write m buffer (o ++ [0])) buffer (S (length o)) buffer (length o) =
    Ret (mem_write (mem_write m buffer (o ++ [0])) buffer (take k s ++ [0]), length (take k s)).
Proof.
  intros H0 Hm Hs Hd s.
  pose proof (xml_encode_spec m buffer buflen source srclen H0 Hm Hs Hd) as He. cbn zeta in He. fold s in He.
  set (k := fitting xml_char1 (buflen - 1) s) in *. exists k, (encoded xml_char1 (take k s)).
  destruct (fitting_spec xml_char1 (buflen - 1) s) as [Hl Hk]. fold k in Hl, Hk.
  split_and!; [exact He|lia| |].
  - unfold s in Hk at 1. rewrite length_slice in Hk by lia. destruct Hk as [Hk|(c & Hc & Hk)]; [left; lia|right].
    exists c. split; [done|lia].
  - rewrite (xml_decoded_in_place xml_char1 (fun c => [c]) (fun _ => True) _ _ buflen) by
      first [done|lia|apply xml_char1_some|intros; by apply xml_step_xml_char1
            |intros v _; pose proof (xml_char1_some v); destruct (xml_char1 v); [done|cbn; lia]
            |by apply List.Forall_forall].
    assert (E : forall l, encoded (fun c : Z => [c]) l = l).
    { unfold encoded. induction l as [|x l IH]; [done|]. cbn. by rewrite IH. }
    by rewrite E.
Qed.

(** [xml_decode] lets a numeric reference fill its buffer to the last byte and
    then writes the NUL behind it: any plain text that leaves two bytes, followed by
    a reference to a character of two bytes, overruns the buffer by one. *)
Theorem xml_decode_overruns m buffer source p :
  Forall (fun c => c <> 38 /\ c <> 0) p ->
  let u := p ++ b! "&#233;" in
  slice m source (source + length u + 1) = u ++ [0] ->
  (source + length u < buffer)%nat -> (buffer + length p + 2 <= length m)%nat ->
  let buflen := (length p + 2)%nat in
  xml_decode m buffer buflen source (length u) =
  if (buffer + buflen <? length m)%nat
  then Ret (mem_write m buffer (p ++ [195; 169] ++ [0]), buflen) else Crash.
Proof.
  intros Hp u Hu Hd Hm buflen.
  assert (Hlu : (source + length u <= length m)%nat) by lia.
  rewrite xml_decode_spec with (u := u); try done; try (unfold buflen; lia).
  assert (E : transformed xml_step buflen u = p ++ [195; 169]).
  { unfold transformed, buflen, u. replace (length p + 2 - 1)%nat with (length p + 1)%nat by lia.
    clear -Hp. induction Hp as [|c p [Hc _] Hp IH]; [by vm_compute|]. cbn [app length emit Nat.add Nat.eqb].
    unfold xml_step at 1. rewrite (proj2 (Z.eqb_neq c 38) Hc). cbn [negb length app drop].
    rewrite Nat.sub_succ, Nat.sub_0_r. f_equal. exact IH. }
  rewrite E, <- app_assoc, length_app. cbn [length]. done.
Qed.

Lemma xml_decode_overruns_witness :
  let m := b! "a&#233;" ++ [0] ++ [0; 0; 0; 77] in
  xml_decode m 8 3 0 7 = Ret (mem_write m 8 ([97] ++ [195; 169] ++ [0]), 3%nat).
Proof.
  apply (xml_decode_overruns (b! "a&#233;" ++ [0] ++ [0; 0; 0; 77]) 8 0 [97]).
  - repeat constructor; discriminate.
  - reflexivity.
  - apply Nat.ltb_lt. reflexivity.
  - apply Nat.leb_le. reflexivity.
Defined.
