(* ===== verification/BaseMd5.v ===== *)
(** The MD5 digest of src/base/md5.cc and its callers in stringdigest.cc, against
    the description of RFC 1321: whatever pieces a message is given in, the digest is
    the one of the whole message.  The machine is little-endian, where [byteReverse]
    does nothing. *)
From Stdlib Require Import ZArith Lia Bool String.
From stdpp Require Import base list numbers.
From S2P Require Import Prelude BaseEncode.

(** ** The transformation *)

Definition at_ (ws : list Z) (i : nat) : Z := nth i ws 0.
(** The complement of a [u32]. *)
Definition not32 (z : Z) : Z := u32 (Z.lnot z).

Definition F1 (x y z : Z) : Z := Z.lxor z (Z.land x (Z.lxor y z)).
Definition F2 (x y z : Z) : Z := F1 z x y.
Definition F3 (x y z : Z) : Z := Z.lxor (Z.lxor x y) z.
Definition F4 (x y z : Z) : Z := Z.lxor y (Z.lor x (not32 z)).

(** The new value of [w]. *)
Definition MD5STEP (f : Z -> Z -> Z -> Z) (w x y z data s : Z) : Z :=
  let w := u32 (w + u32 (f x y z + u32 data)) in
  let w := Z.lor (u32 (Z.shiftl w s)) (Z.shiftr w (32 - s)) in
  u32 (w + x).

(** [u32 buf[4]]. *)
Record quad := Quad { q0 : Z; q1 : Z; q2 : Z; q3 : Z }.

(** The registers of the function and the values they hold. *)
Inductive reg := ra | rb | rc | rd.
Definition get (q : quad) (r : reg) : Z :=
  match r with ra => q0 q | rb => q1 q | rc => q2 q | rd => q3 q end.
Definition set (q : quad) (r : reg) (v : Z) : quad :=
  match r with
  | ra => Quad v (q1 q) (q2 q) (q3 q)
  | rb => Quad (q0 q) v (q2 q) (q3 q)
  | rc => Quad (q0 q) (q1 q) v (q3 q)
  | rd => Quad (q0 q) (q1 q) (q2 q) v
  end.

(** A line [MD5STEP (f, w, x, y, z, in[k] + t, s)]. *)
Inductive md5_step := Step (f : Z -> Z -> Z -> Z) (w x y z : reg) (k : nat) (t s : Z).
Definition run_step (in_ : list Z) (q : quad) (st : md5_step) : quad :=
  let 'Step f w x y z k t s := st in
  set q w (MD5STEP f (get q w) (get q x) (get q y) (get q z) (at_ in_ k + t) s).

Definition transform_steps : list md5_step := [
  Step F1 ra rb rc rd 0 0xd76aa478 7;
  Step F1 rd ra rb rc 1 0xe8c7b756 12;
  Step F1 rc rd ra rb 2 0x242070db 17;
  Step F1 rb rc rd ra 3 0xc1bdceee 22;
  Step F1 ra rb rc rd 4 0xf57c0faf 7;
  Step F1 rd ra rb rc 5 0x4787c62a 12;
  Step F1 rc rd ra rb 6 0xa8304613 17;
  Step F1 rb rc rd ra 7 0xfd469501 22;
  Step F1 ra rb rc rd 8 0x698098d8 7;
  Step F1 rd ra rb rc 9 0x8b44f7af 12;
  Step F1 rc rd ra rb 10 0xffff5bb1 17;
  Step F1 rb rc rd ra 11 0x895cd7be 22;
  Step F1 ra rb rc rd 12 0x6b901122 7;
  Step F1 rd ra rb rc 13 0xfd987193 12;
  Step F1 rc rd ra rb 14 0xa679438e 17;
  Step F1 rb rc rd ra 15 0x49b40821 22;

  Step F2 ra rb rc rd 1 0xf61e2562 5;
  Step F2 rd ra rb rc 6 0xc040b340 9;
  Step F2 rc rd ra rb 11 0x265e5a51 14;
  Step F2 rb rc rd ra 0 0xe9b6c7aa 20;
  Step F2 ra rb rc rd 5 0xd62f105d 5;
  Step F2 rd ra rb rc 10 0x02441453 9;
  Step F2 rc rd ra rb 15 0xd8a1e681 14;
  Step F2 rb rc rd ra 4 0xe7d3fbc8 20;
  Step F2 ra rb rc rd 9 0x21e1cde6 5;
  Step F2 rd ra rb rc 14 0xc33707d6 9;
  Step F2 rc rd ra rb 3 0xf4d50d87 14;
  Step F2 rb rc rd ra 8 0x455a14ed 20;
  Step F2 ra rb rc rd 13 0xa9e3e905 5;
  Step F2 rd ra rb rc 2 0xfcefa3f8 9;
  Step F2 rc rd ra rb 7 0x676f02d9 14;
  Step F2 rb rc rd ra 12 0x8d2a4c8a 20;

  Step F3 ra rb rc rd 5 0xfffa3942 4;
  Step F3 rd ra rb rc 8 0x8771f681 11;
  Step F3 rc rd ra rb 11 0x6d9d6122 16;
  Step F3 rb rc rd ra 14 0xfde5380c 23;
  Step F3 ra rb rc rd 1 0xa4beea44 4;
  Step F3 rd ra rb rc 4 0x4bdecfa9 11;
  Step F3 rc rd ra rb 7 0xf6bb4b60 16;
  Step F3 rb rc rd ra 10 0xbebfbc70 23;
  Step F3 ra rb rc rd 13 0x289b7ec6 4;
  Step F3 rd ra rb rc 0 0xeaa127fa 11;
  Step F3 rc rd ra rb 3 0xd4ef3085 16;
  Step F3 rb rc rd ra 6 0x04881d05 23;
  Step F3 ra rb rc rd 9 0xd9d4d039 4;
  Step F3 rd ra rb rc 12 0xe6db99e5 11;
  Step F3 rc rd ra rb 15 0x1fa27cf8 16;
  Step F3 rb rc rd ra 2 0xc4ac5665 23;

  Step F4 ra rb rc rd 0 0xf4292244 6;
  Step F4 rd ra rb rc 7 0x432aff97 10;
  Step F4 rc rd ra rb 14 0xab9423a7 15;
  Step F4 rb rc rd ra 5 0xfc93a039 21;
  Step F4 ra rb rc rd 12 0x655b59c3 6;
  Step F4 rd ra rb rc 3 0x8f0ccc92 10;
  Step F4 rc rd ra rb 10 0xffeff47d 15;
  Step F4 rb rc rd ra 1 0x85845dd1 21;
  Step F4 ra rb rc rd 8 0x6fa87e4f 6;
  Step F4 rd ra rb rc 15 0xfe2ce6e0 10;
  Step F4 rc rd ra rb 6 0xa3014314 15;
  Step F4 rb rc rd ra 13 0x4e0811a1 21;
  Step F4 ra rb rc rd 4 0xf7537e82 6;
  Step F4 rd ra rb rc 11 0xbd3af235 10;
  Step F4 rc rd ra rb 2 0x2ad7d2bb 15;
  Step F4 rb rc rd ra 9 0xeb86d391 21].

Definition MD5Transform (buf : quad) (in_ : list Z) : quad :=
  let r := fold_left (run_step in_) transform_steps buf in
  Quad (u32 (q0 buf + get r ra)) (u32 (q1 buf + get r rb)) (u32 (q2 buf + get r rc)) (u32 (q3 buf + get r rd)).

(** ** The context *)

Record MD5Context := {
  buf : quad;
  bits0 : Z;
  bits1 : Z;
  in_ : list Z;
}.

(** [(u32 * ) ctx->in]. *)
Fixpoint words (bs : list Z) : list Z :=
  match bs with
  | b0 :: b1 :: b2 :: b3 :: bs => le32 b0 b1 b2 b3 :: words bs
  | _ => []
  end.
(** The bytes of a [u32]. *)
Definition bytes32 (w : Z) : list Z := [w mod 256; w / 2 ^ 8 mod 256; w / 2 ^ 16 mod 256; w / 2 ^ 24 mod 256].

(** The context is not initialised before; [junk] is what [in_] holds. *)
Definition MD5Init (junk : list Z) : MD5Context := {|
  buf := Quad 0x67452301 0xefcdab89 0x98badcfe 0x10325476;
  bits0 := 0; bits1 := 0; in_ := resize 64 0 junk |}.

Definition transform_in (ctx : MD5Context) : MD5Context := {|
  buf := MD5Transform (buf ctx) (words (in_ ctx));
  bits0 := bits0 ctx; bits1 := bits1 ctx; in_ := in_ ctx |}.
Definition set_in (ctx : MD5Context) (i : list Z) : MD5Context := {|
  buf := buf ctx; bits0 := bits0 ctx; bits1 := bits1 ctx; in_ := i |}.

(** The loop over 64-byte chunks, and the rest. *)
Fixpoint update_chunks (fuel : nat) (ctx : MD5Context) (p : list Z) : MD5Context * list Z :=
  match fuel with
  | O => (ctx, p)
  | S fuel =>
      if (64 <=? length p)%nat
      then update_chunks fuel (transform_in (set_in ctx (mem_write (in_ ctx) 0 (take 64 p)))) (drop 64 p)
      else (ctx, p)
  end.

(** [MD5Update (ctx, p, len)], where [p] is the [len] bytes it is given. *)
Definition MD5Update (ctx : MD5Context) (p : list Z) : MD5Context :=
  let len := Z.of_nat (length p) in
  let t := bits0 ctx in
  let bits0' := u32 (t + u32 (Z.shiftl (u32 len) 3)) in
  let bits1' := if bits0' <? t then u32 (bits1 ctx + 1) else bits1 ctx in
  let bits1' := u32 (bits1' + Z.shiftr len 29) in
  let ctx := {| buf := buf ctx; bits0 := bits0'; bits1 := bits1'; in_ := in_ ctx |} in
  let t := Z.to_nat (Z.land (Z.shiftr t 3) 63) in
  let rest ctx p :=
    let '(ctx, p) := update_chunks (length p) ctx p in
    set_in ctx (mem_write (in_ ctx) 0 p) in
  if (t =? 0)%nat then rest ctx p
  else if (length p <? 64 - t)%nat then set_in ctx (mem_write (in_ ctx) t p)
  else
    let ctx := transform_in (set_in ctx (mem_write (in_ ctx) t (take (64 - t) p))) in
    rest ctx (drop (64 - t) p).

(** The digest and the context that is left: [memset] clears the [sizeof (ctx)] bytes
    of a pointer, which are two words of [buf]. *)
Definition MD5Final (ctx : MD5Context) : list Z * MD5Context :=
  let count := Z.to_nat (Z.land (Z.shiftr (bits0 ctx) 3) 63) in
  let ctx := set_in ctx (mem_write (in_ ctx) count [0x80]) in
  let p := S count in
  let count := (64 - 1 - count)%nat in
  let ctx :=
    if (count <? 8)%nat then
      let ctx := transform_in (set_in ctx (mem_write (in_ ctx) p (repeat 0 count))) in
      set_in ctx (mem_write (in_ ctx) 0 (repeat 0 56))
    else set_in ctx (mem_write (in_ ctx) p (repeat 0 (count - 8))) in
  let ctx := set_in ctx (mem_write (in_ ctx) 56 (bytes32 (bits0 ctx) ++ bytes32 (bits1 ctx))) in
  let ctx := transform_in ctx in
  let 'Quad a b c d := buf ctx in
  (bytes32 a ++ bytes32 b ++ bytes32 c ++ bytes32 d,
   {| buf := Quad 0 0 c d; bits0 := bits0 ctx; bits1 := bits1 ctx; in_ := in_ ctx |}).

(** [std::string MD5 (data)] and [MD5 (digest, data, length)]; the length of a
    string is cast to [unsigned]. *)
Definition MD5_digest (junk data : list Z) : list Z :=
  (MD5Final (MD5Update (MD5Init junk) (take (Z.to_nat (u32 (Z.of_nat (length data)))) data))).1.
Definition MD5 (junk data : list Z) : list Z :=
  concat (map (fun d => [hex_encode (Z.shiftr d 4); hex_encode (Z.land d 15)]) (MD5_digest junk data)).

(** ** RFC 1321 *)

Module RFC.
(** Section 3.4: the auxiliary functions of the four rounds. *)
Definition F (x y z : Z) : Z := Z.lor (Z.land x y) (Z.land (Z.lnot x) z).
Definition G (x y z : Z) : Z := Z.lor (Z.land x z) (Z.land y (Z.lnot z)).
Definition H (x y z : Z) : Z := Z.lxor (Z.lxor x y) z.
Definition I (x y z : Z) : Z := Z.lxor y (Z.lor x (u32 (Z.lnot z))).

(** The table of sines. *)
Definition T : list Z := [
  0xd76aa478; 0xe8c7b756; 0x242070db; 0xc1bdceee;
  0xf57c0faf; 0x4787c62a; 0xa8304613; 0xfd469501;
  0x698098d8; 0x8b44f7af; 0xffff5bb1; 0x895cd7be;
  0x6b901122; 0xfd987193; 0xa679438e; 0x49b40821;
  0xf61e2562; 0xc040b340; 0x265e5a51; 0xe9b6c7aa;
  0xd62f105d; 0x02441453; 0xd8a1e681; 0xe7d3fbc8;
  0x21e1cde6; 0xc33707d6; 0xf4d50d87; 0x455a14ed;
  0xa9e3e905; 0xfcefa3f8; 0x676f02d9; 0x8d2a4c8a;
  0xfffa3942; 0x8771f681; 0x6d9d6122; 0xfde5380c;
  0xa4beea44; 0x4bdecfa9; 0xf6bb4b60; 0xbebfbc70;
  0x289b7ec6; 0xeaa127fa; 0xd4ef3085; 0x04881d05;
  0xd9d4d039; 0xe6db99e5; 0x1fa27cf8; 0xc4ac5665;
  0xf4292244; 0x432aff97; 0xab9423a7; 0xfc93a039;
  0x655b59c3; 0x8f0ccc92; 0xffeff47d; 0x85845dd1;
  0x6fa87e4f; 0xfe2ce6e0; 0xa3014314; 0x4e0811a1;
  0xf7537e82; 0xbd3af235; 0x2ad7d2bb; 0xeb86d391].

Definition aux (i : nat) : Z -> Z -> Z -> Z := nth (i / 16) [F; G; H; I] F.
(** The word of the block and the rotation that operation [i] uses. *)
Definition index (i : nat) : nat :=
  nth (i / 16) [i; 5 * i + 1; 3 * i + 5; 7 * i]%nat 0%nat mod 16.
Definition rotation (i : nat) : Z :=
  nth (i mod 4) (nth (i / 16) [[7; 12; 17; 22]; [5; 9; 14; 20]; [4; 11; 16; 23]; [6; 10; 15; 21]] []) 0.

Definition rotl (x s : Z) : Z := x * 2 ^ s mod 2 ^ 32 + x / 2 ^ (32 - s).

(** [a = b + ((a + f(b,c,d) + X[k] + T[i]) <<< s)], after which the registers change
    places. *)
Definition operation (X : list Z) (q : quad) (i : nat) : quad :=
  let 'Quad a b c d := q in
  Quad d (u32 (b + rotl (u32 (a + aux i b c d + at_ X (index i) + at_ T i)) (rotation i))) b c.

Definition add (q r : quad) : quad :=
  Quad (u32 (q0 q + q0 r)) (u32 (q1 q + q1 r)) (u32 (q2 q + q2 r)) (u32 (q3 q + q3 r)).
Definition block (q : quad) (X : list Z) : quad := add q (fold_left (operation X) (seq 0 64) q).

(** Sections 3.1 and 3.2: padding to 56 modulo 64 and the low 64 bits of the length. *)
Definition le64 (n : Z) : list Z := bytes32 (n mod 2 ^ 32) ++ bytes32 (n / 2 ^ 32 mod 2 ^ 32).
Definition padding (M : list Z) : list Z :=
  0x80 :: repeat 0 ((119 - length M mod 64) mod 64) ++ le64 (8 * Z.of_nat (length M)).

Fixpoint blocks (n : nat) (q : quad) (bs : list Z) : quad :=
  match n with
  | O => q
  | S n => blocks n (block q (words (take 64 bs))) (drop 64 bs)
  end.
Definition init : quad := Quad 0x67452301 0xefcdab89 0x98badcfe 0x10325476.

Definition md5 (M : list Z) : list Z :=
  let bs := M ++ padding M in
  let 'Quad a b c d := blocks (length bs / 64) init bs in
  bytes32 a ++ bytes32 b ++ bytes32 c ++ bytes32 d.
End RFC.

(** The test suite of the RFC. *)
Example md5_abc : MD5 [] (b! "abc") = b! "900150983cd24fb0d6963f7d28e17f72".
Proof. by vm_compute. Qed.
Example md5_empty : MD5 [] [] = b! "d41d8cd98f00b204e9800998ecf8427e".
Proof. by vm_compute. Qed.
Example rfc_alphabet : RFC.md5 (b! "abcdefghijklmnopqrstuvwxyz") = MD5_digest [] (b! "abcdefghijklmnopqrstuvwxyz").
Proof. by vm_compute. Qed.

(** ** The transformation is the RFC's *)

Ltac bitwise := apply Z.bits_inj'; intros n Hn;
  rewrite ?Z.lxor_spec, ?Z.lor_spec, ?Z.land_spec, ?Z.lxor_spec, ?Z.lnot_spec by done;
  repeat match goal with |- context [Z.testbit ?v n] => destruct (Z.testbit v n) end; reflexivity.

Lemma F1_F x y z : F1 x y z = RFC.F x y z.
Proof. unfold F1, RFC.F. bitwise. Qed.
Lemma F2_G x y z : F2 x y z = RFC.G x y z.
Proof. unfold F2, F1, RFC.G. bitwise. Qed.

Lemma u32_idemp z : u32 (u32 z) = u32 z.
Proof. unfold u32. apply Zmod_mod. Qed.
Lemma u32_add_l a b : u32 (u32 a + b) = u32 (a + b).
Proof. unfold u32. apply Zplus_mod_idemp_l. Qed.
Lemma u32_add_r a b : u32 (a + u32 b) = u32 (a + b).
Proof. unfold u32. apply Zplus_mod_idemp_r. Qed.
Lemma u32_range z : 0 <= u32 z < 2 ^ 32.
Proof. unfold u32. apply Z.mod_pos_bound. lia. Qed.

Lemma rotl_shifts w s : 0 < s < 32 ->
  Z.lor (u32 (Z.shiftl (u32 w) s)) (Z.shiftr (u32 w) (32 - s)) = RFC.rotl (u32 w) s.
Proof.
  intros Hs. unfold RFC.rotl. rewrite Z.shiftl_mul_pow2, Z.shiftr_div_pow2 by lia.
  pose proof (u32_range w) as Hw. set (x := u32 w) in *. unfold u32.
  assert (E : x * 2 ^ s mod 2 ^ 32 = Z.shiftl (x mod 2 ^ (32 - s)) s).
  { rewrite Z.shiftl_mul_pow2 by lia. replace (2 ^ 32) with (2 ^ (32 - s) * 2 ^ s) by (rewrite <- Z.pow_add_r by lia; f_equal; lia).
    rewrite Z.mul_mod_distr_r; [done| |]; apply Z.pow_nonzero; lia. }
  rewrite E, lor_shiftl; [by rewrite Z.shiftl_mul_pow2 by lia|lia|].
  split; [apply Z.div_pos; [lia|apply Z.pow_pos_nonneg; lia]|].
  apply Z.div_lt_upper_bound; [apply Z.pow_pos_nonneg; lia|].
  rewrite <- Z.pow_add_r by lia. replace (32 - s + s) with 32 by lia. lia.
Qed.

Lemma MD5STEP_spec f w x y z a c s : 0 < s < 32 ->
  MD5STEP f w x y z (a + c) s = u32 (x + RFC.rotl (u32 (w + f x y z + a + c)) s).
Proof.
  intros Hs. unfold MD5STEP. rewrite rotl_shifts by done. rewrite Z.add_comm. do 3 f_equal.
  rewrite (u32_add_r (f x y z)), u32_add_r. f_equal. lia.
Qed.

(** One step of the code against one operation of the RFC. *)
Lemma step_operation X p q r s i f k t n :
  (forall x y z, f x y z = RFC.aux i x y z) ->
  RFC.index i = k -> at_ RFC.T i = t -> RFC.rotation i = n -> 0 < n < 32 ->
  RFC.operation X (Quad p q r s) i = Quad s (MD5STEP f p q r s (at_ X k + t) n) q r.
Proof.
  intros Hf <- <- <- Hs. cbn [RFC.operation]. rewrite MD5STEP_spec by done. by rewrite Hf.
Qed.

Lemma fold_left_step {A B} (f : A -> B -> A) x l q : fold_left f (x :: l) q = fold_left f l (f q x).
Proof. done. Qed.

(** Four lines of the code are four operations of the RFC, after which the registers
    are back in place.  The proof names each new value. *)
Ltac follow_step :=
  match goal with
  | |- _ = fold_left (RFC.operation ?X) (?i :: _) (Quad ?w ?x ?y ?z) =>
      rewrite (fold_left_step (RFC.operation X)), (fold_left_step (run_step X));
      match goal with
      | |- context [run_step X ?Q (Step ?f ?w' ?x' ?y' ?z' ?k ?t ?s)] =>
          rewrite (step_operation X w x y z i f k t s)
            by (solve [lia | reflexivity | intros; first [apply F1_F | apply F2_G | reflexivity]]);
          cbn [run_step get set q0 q1 q2 q3];
          generalize (MD5STEP f w x y z (at_ X k + t) s); intros ?
      end
  end.

Theorem MD5Transform_block q X : MD5Transform q X = RFC.block q X.
Proof.
  unfold MD5Transform, RFC.block.
  assert (E : fold_left (run_step X) transform_steps q = fold_left (RFC.operation X) (seq 0 64) q).
  { let l := eval vm_compute in (seq 0 64) in change (seq 0 64) with l.
    unfold transform_steps. destruct q. do 64 follow_step. reflexivity. }
  by rewrite E.
Qed.

(** ** What a context stands for *)

Lemma blocks_app n q M p : (64 * n <= length M)%nat -> RFC.blocks n q (M ++ p) = RFC.blocks n q M.
Proof.
  revert q M. induction n as [|n IH]; intros q M Hn; [done|]. cbn [RFC.blocks].
  rewrite take_app_le, drop_app_le by lia. apply IH. rewrite length_drop. lia.
Qed.

Lemma blocks_last n q M : (64 * S n <= length M)%nat ->
  RFC.blocks (S n) q M = RFC.block (RFC.blocks n q M) (words (take 64 (drop (64 * n) M))).
Proof.
  revert q M. induction n as [|n IH]; intros q M Hn; [done|].
  change (RFC.blocks (S (S n)) q M) with (RFC.blocks (S n) (RFC.block q (words (take 64 M))) (drop 64 M)).
  rewrite IH by (rewrite length_drop; lia). cbn [RFC.blocks]. do 3 f_equal. rewrite drop_drop. f_equal. lia.
Qed.

(** The context has absorbed the whole blocks of [M] and holds the rest of it in
    [in_]; the bytes of [in_] behind the rest are left from before. *)
Record absorbed (ctx : MD5Context) (M : list Z) : Prop := {
  absorbed_in : length (in_ ctx) = 64%nat;
  absorbed_buf : buf ctx = RFC.blocks (length M / 64) RFC.init M;
  absorbed_rest : take (length M mod 64) (in_ ctx) = drop (64 * (length M / 64)) M;
}.
(** The bit count, modulo 2^64. *)
Record counted (ctx : MD5Context) (M : list Z) : Prop := {
  counted_low : bits0 ctx = 8 * Z.of_nat (length M) mod 2 ^ 32;
  counted_high : bits1 ctx = 8 * Z.of_nat (length M) / 2 ^ 32 mod 2 ^ 32;
}.

Lemma mod_64 n : (n = 64 * (n / 64) + n mod 64 /\ n mod 64 < 64)%nat.
Proof. pose proof (Nat.div_mod n 64). pose proof (Nat.mod_upper_bound n 64). lia. Qed.
Lemma div_64 n k r : (r < 64)%nat -> (n = 64 * k + r)%nat -> (n / 64 = k /\ n mod 64 = r)%nat.
Proof. intros H ->. pose proof (mod_64 (64 * k + r)). lia. Qed.

Lemma absorb_part ctx M p : absorbed ctx M -> (length M mod 64 + length p < 64)%nat ->
  absorbed (set_in ctx (mem_write (in_ ctx) (length M mod 64) p)) (M ++ p).
Proof.
  intros [Hi Hb Hr] Hp. pose proof (mod_64 (length M)) as [E _].
  destruct (div_64 (length (M ++ p)) (length M / 64) (length M mod 64 + length p)) as [E1 E2];
    [done|rewrite length_app; lia|].
  split; cbn [set_in buf in_]; rewrite ?E1, ?E2.
  - rewrite length_mem_write by lia. done.
  - rewrite blocks_app by lia. done.
  - rewrite take_mem_write by lia. rewrite drop_app_le by lia. by rewrite Hr.
Qed.

Lemma absorb_full ctx M p : absorbed ctx M -> (length M mod 64 + length p = 64)%nat ->
  absorbed (transform_in (set_in ctx (mem_write (in_ ctx) (length M mod 64) p))) (M ++ p).
Proof.
  intros [Hi Hb Hr] Hp. pose proof (mod_64 (length M)) as [E _].
  destruct (div_64 (length (M ++ p)) (S (length M / 64)) 0) as [E1 E2]; [lia|rewrite length_app; lia|].
  assert (Hw : mem_write (in_ ctx) (length M mod 64) p = drop (64 * (length M / 64)) M ++ p).
  { rewrite <- Hr. unfold mem_write. rewrite (drop_ge (in_ ctx)) by lia. by rewrite app_nil_r. }
  split; cbn [transform_in set_in buf in_]; rewrite ?Hw, ?E1, ?E2.
  - rewrite length_app, length_drop. lia.
  - rewrite blocks_last by (rewrite length_app; lia). rewrite blocks_app by lia.
    rewrite drop_app_le by lia. rewrite take_ge by (rewrite length_app, length_drop; lia).
    by rewrite MD5Transform_block, Hb.
  - rewrite (drop_ge (M ++ p)); [done|]. rewrite length_app. lia.
Qed.

Lemma absorb_chunks fuel ctx M p : absorbed ctx M -> (length M mod 64 = 0)%nat -> (length p <= fuel)%nat ->
  let '(ctx', p') := update_chunks fuel ctx p in
  absorbed (set_in ctx' (mem_write (in_ ctx') 0 p')) (M ++ p) /\
  bits0 ctx' = bits0 ctx /\ bits1 ctx' = bits1 ctx.
Proof.
  revert ctx M p. induction fuel as [|fuel IH]; intros ctx M p Ha H0 Hf; cbn [update_chunks].
  { pose proof (absorb_part ctx M p Ha) as H. rewrite H0 in H. split; [apply H; lia|done]. }
  destruct (Nat.leb_spec 64 (length p)).
  - assert (Ht : length (take 64 p) = 64%nat) by (rewrite length_take; lia).
    pose proof (absorb_full ctx M (take 64 p) Ha ltac:(lia)) as H'. rewrite H0 in H'.
    specialize (IH _ _ (drop 64 p) H'). 
    assert (H0' : (length (M ++ take 64 p) mod 64 = 0)%nat).
    { pose proof (mod_64 (length M)). apply (div_64 _ (S (length M / 64))); [lia|]. rewrite length_app. lia. }
    specialize (IH H0' ltac:(rewrite length_drop; lia)).
    destruct (update_chunks fuel _ _) as [ctx' p']. rewrite <- app_assoc, take_drop in IH. exact IH.
  - pose proof (absorb_part ctx M p Ha) as H'. rewrite H0 in H'. split; [apply H'; lia|done].
Qed.

Lemma low_bits_mod n : Z.to_nat (Z.land (Z.shiftr (8 * Z.of_nat n mod 2 ^ 32) 3) 63) = (n mod 64)%nat.
Proof.
  change 63 with (Z.ones 6). rewrite Z.land_ones, Z.shiftr_div_pow2 by lia.
  change (2 ^ 3) with 8. change (2 ^ 6) with 64.
  assert (E : 8 * Z.of_nat n mod 2 ^ 32 / 8 mod 64 = Z.of_nat n mod 64).
  { pose proof (Z.div_mod (8 * Z.of_nat n) (2 ^ 32)) as D. pose proof (Z.mod_pos_bound (8 * Z.of_nat n) (2 ^ 32)).
    set (q := 8 * Z.of_nat n / 2 ^ 32) in *. set (r := 8 * Z.of_nat n mod 2 ^ 32) in *.
    assert (Hr : r / 8 = Z.of_nat n - 2 ^ 29 * q).
    { symmetry. apply (Z.div_unique _ _ _ 0); [left; lia|]. lia. }
    rewrite Hr. replace (Z.of_nat n - 2 ^ 29 * q) with (Z.of_nat n + (- (2 ^ 23 * q)) * 64) by lia.
    apply Z.mod_add. lia. }
  rewrite E. change (Z.of_nat n mod 64) with (Z.of_nat n mod Z.of_nat 64).
  rewrite <- Nat2Z.inj_mod. apply Nat2Z.id.
Qed.

(** The sum of the counts, with its carry. *)
Lemma count_update L n : 0 <= L -> 0 <= n < 2 ^ 32 ->
  let t := L mod 2 ^ 32 in let t' := u32 (t + u32 (Z.shiftl (u32 n) 3)) in
  t' = (L + 8 * n) mod 2 ^ 32 /\
  u32 ((if t' <? t then u32 (L / 2 ^ 32 mod 2 ^ 32 + 1) else L / 2 ^ 32 mod 2 ^ 32) + Z.shiftr n 29) =
  (L + 8 * n) / 2 ^ 32 mod 2 ^ 32.
Proof.
  intros HL Hn t t'. rewrite Z.shiftr_div_pow2 by lia.
  assert (Et' : t' = (t + 8 * n mod 2 ^ 32) mod 2 ^ 32).
  { unfold t', u32. rewrite Z.shiftl_mul_pow2, (Z.mod_small n) by lia. do 2 f_equal. f_equal. lia. }
  pose proof (Z.div_mod L (2 ^ 32)) as D1. fold t in D1. pose proof (Z.mod_pos_bound L (2 ^ 32)) as B1. fold t in B1.
  pose proof (Z.div_mod (8 * n) (2 ^ 32)) as D2. pose proof (Z.mod_pos_bound (8 * n) (2 ^ 32)) as B2.
  assert (E29 : n / 2 ^ 29 = 8 * n / 2 ^ 32).
  { replace (2 ^ 32) with (8 * 2 ^ 29) by lia. rewrite Z.div_mul_cancel_l by lia. done. }
  rewrite E29. set (q1 := L / 2 ^ 32) in *. set (q2 := 8 * n / 2 ^ 32) in *. set (r2 := 8 * n mod 2 ^ 32) in *.
  assert (Es : forall c s, t + r2 = 2 ^ 32 * c + s -> 0 <= s < 2 ^ 32 ->
    t' = s /\ (L + 8 * n) mod 2 ^ 32 = s /\ (L + 8 * n) / 2 ^ 32 = q1 + q2 + c).
  { intros c s Hc Hs. split_and!.
    - rewrite Et', Hc, Z.add_comm, Z.mul_comm, Z.mod_add by lia. by apply Z.mod_small.
    - symmetry. apply (Z.mod_unique _ _ (q1 + q2 + c)); [by left|lia].
    - symmetry. apply (Z.div_unique _ _ _ s); [by left|lia]. }
  destruct (Z_lt_ge_dec (t + r2) (2 ^ 32)).
  - destruct (Es 0 (t + r2)) as (-> & -> & ->); [lia|lia|]. split; [done|].
    replace (t + r2 <? t) with false by lia. rewrite Z.add_0_r. unfold u32. by rewrite Zplus_mod_idemp_l.
  - destruct (Es 1 (t + r2 - 2 ^ 32)) as (-> & -> & ->); [lia|lia|]. split; [done|].
    replace (t + r2 - 2 ^ 32 <? t) with true by lia. rewrite u32_add_l.
    unfold u32. rewrite <- Z.add_assoc, Zplus_mod_idemp_l. f_equal. lia.
Qed.

(** [MD5Update] absorbs its argument, however the message has been cut before. *)
Lemma MD5Update_absorbs ctx M p :
  absorbed ctx M -> counted ctx M -> Z.of_nat (length p) < 2 ^ 32 ->
  absorbed (MD5Update ctx p) (M ++ p) /\ counted (MD5Update ctx p) (M ++ p).
Proof.
  intros Ha [Hl Hh] Hp.
  pose proof (count_update (8 * Z.of_nat (length M)) (Z.of_nat (length p)) ltac:(lia) ltac:(lia)) as [E0 E1].
  unfold MD5Update. rewrite Hl, Hh, low_bits_mod, E0.
  rewrite E0 in E1. rewrite E1.
  set (c1 := {| buf := buf ctx; bits0 := _; bits1 := _; in_ := in_ ctx |}).
  assert (Ha1 : absorbed c1 M) by by destruct Ha.
  assert (Hk : forall c', bits0 c' = bits0 c1 -> bits1 c' = bits1 c1 -> counted c' (M ++ p)).
  { intros c' Eb0 Eb1. split; rewrite ?Eb0, ?Eb1; cbn [c1 bits0 bits1]; by rewrite length_app, Nat2Z.inj_add, Z.mul_add_distr_l. }
  pose proof (mod_64 (length M)) as [_ Hm].
  destruct (Nat.eqb_spec (length M mod 64) 0) as [H0|H0].
  { pose proof (absorb_chunks (length p) c1 M p Ha1 H0 (le_n _)) as H.
    destruct (update_chunks _ _ _) as [c' p']. destruct H as (H & B0 & B1). split; [done|by apply Hk]. }
  destruct (Nat.ltb_spec (length p) (64 - length M mod 64)).
  { split; [apply (absorb_part c1); [done|lia]|by apply Hk]. }
  assert (Ht : length (take (64 - length M mod 64) p) = (64 - length M mod 64)%nat) by (rewrite length_take; lia).
  pose proof (absorb_full c1 M (take (64 - length M mod 64) p) Ha1 ltac:(lia)) as Hf.
  set (c2 := transform_in _) in *.
  assert (H0' : (length (M ++ take (64 - length M mod 64) p) mod 64 = 0)%nat).
  { pose proof (mod_64 (length M)). apply (div_64 _ (S (length M / 64))); [lia|]. rewrite length_app. lia. }
  pose proof (absorb_chunks (length (drop (64 - length M mod 64) p)) c2 _ (drop (64 - length M mod 64) p) Hf H0' (le_n _)) as H'.
  destruct (update_chunks _ c2 _) as [c' p']. rewrite <- app_assoc, take_drop in H'.
  destruct H' as (H' & B0 & B1). split; [done|by apply Hk].
Qed.

(** ** The digest *)

Lemma length_le64 n : length (RFC.le64 n) = 8%nat.
Proof. done. Qed.

(** Consecutive writes are one write. *)
Lemma set_in_twice ctx i j : set_in (set_in ctx i) j = set_in ctx j.
Proof. done. Qed.

Lemma absorb_writes ctx r p q : length (in_ ctx) = 64%nat -> (r + length p + length q <= 64)%nat ->
  set_in (set_in ctx (mem_write (in_ ctx) r p))
    (mem_write (in_ (set_in ctx (mem_write (in_ ctx) r p))) (r + length p) q) =
  set_in ctx (mem_write (in_ ctx) r (p ++ q)).
Proof. intros Hi Hr. cbn [set_in in_]. rewrite set_in_twice, mem_write_app by lia. done. Qed.

(** The padding is absorbed like data and completes the last block. *)
Lemma MD5Final_absorbs ctx M : absorbed ctx M -> counted ctx M ->
  (MD5Final ctx).1 =
  let 'Quad p q r s := RFC.blocks (length (M ++ RFC.padding M) / 64) RFC.init (M ++ RFC.padding M) in
  bytes32 p ++ bytes32 q ++ bytes32 r ++ bytes32 s.
Proof.
  intros Ha Hc. pose proof Ha as [Hi _ _]. destruct Hc as [Hl Hh].
  unfold MD5Final. rewrite Hl, low_bits_mod. pose proof (mod_64 (length M)) as [_ Hm].
  set (r := (length M mod 64)%nat) in *. set (L := 8 * Z.of_nat (length M)) in *.
  match goal with |- context [transform_in (set_in ?c (mem_write (in_ ?c) 56 ?b))] =>
    set (final := transform_in (set_in c (mem_write (in_ c) 56 b))) end.
  assert (E : absorbed final (M ++ RFC.padding M)).
  { subst final. unfold RFC.padding. fold r L.
    assert (Hs : (S r = r + length [0x80%Z])%nat) by (cbn [length]; lia). rewrite !Hs.
    destruct (Nat.ltb_spec (64 - 1 - r) 8) as [Hlt|Hge].
    - replace ((119 - r) mod 64)%nat with (64 - 1 - r + 56)%nat.
      2:{ rewrite Nat.mod_small; lia. }
      rewrite repeat_app, <- app_assoc.
      change (0x80 :: repeat 0 (64 - 1 - r) ++ repeat 0 56 ++ RFC.le64 L)
        with ((0x80 :: repeat 0 (64 - 1 - r)) ++ repeat 0 56 ++ RFC.le64 L).
      rewrite app_assoc. rewrite (absorb_writes ctx r [0x80] (repeat 0 (64 - 1 - r))) by (rewrite ?repeat_length; cbn [length]; lia).
      cbn [app]. set (p1 := 0x80 :: repeat 0 (64 - 1 - r)).
      assert (Hp1 : length p1 = (64 - r)%nat) by (subst p1; cbn [length]; rewrite repeat_length; lia).
      pose proof (absorb_full ctx M p1 Ha ltac:(fold r; lia)) as H1. fold r in H1.
      set (c1 := transform_in _) in *. pose proof H1 as [Hi1 _ _].
      assert (H0 : (length (M ++ p1) mod 64 = 0)%nat).
      { pose proof (mod_64 (length M)) as [Em _]. fold r in Em.
        apply (div_64 _ (S (length M / 64))); [lia|]. rewrite length_app, Hp1. lia. }
      rewrite (absorb_writes c1 0 (repeat 0 56)) by (done || (rewrite repeat_length; cbn; lia)).
      pose proof (absorb_full c1 (M ++ p1) (repeat 0 56 ++ RFC.le64 L) H1) as H2. rewrite H0 in H2.
      specialize (H2 ltac:(rewrite length_app, repeat_length; cbn; lia)).
      unfold RFC.le64 in H2 |- *. subst c1. cbn [transform_in set_in bits0 bits1] in *. rewrite Hl, Hh. fold L. exact H2.
    - replace ((119 - r) mod 64)%nat with (64 - 1 - r - 8)%nat.
      2:{ replace (119 - r)%nat with ((64 - 1 - r - 8) + 1 * 64)%nat by lia.
          rewrite Nat.Div0.mod_add, Nat.mod_small; lia. }
      rewrite (absorb_writes ctx r [0x80] (repeat 0 (64 - 1 - r - 8))) by (rewrite ?repeat_length; cbn [length]; lia).
      set (p1 := [0x80] ++ repeat 0 (64 - 1 - r - 8)).
      assert (Hp1 : (r + length p1 = 56)%nat) by (subst p1; cbn [length app]; rewrite repeat_length; lia).
      rewrite <- Hp1 at 1. rewrite (absorb_writes ctx r p1) by (done || (rewrite Hp1; cbn [bytes32 app length]; lia)).
      pose proof (absorb_full ctx M (p1 ++ RFC.le64 L) Ha) as H2. fold r in H2.
      specialize (H2 ltac:(rewrite length_app, length_le64; lia)).
      unfold RFC.le64 in H2 |- *. cbn [set_in bits0 bits1]. rewrite Hl, Hh. fold L. exact H2. }
  destruct E as [_ E _]. rewrite E. by destruct (RFC.blocks _ _ _).
Qed.

Lemma MD5Init_absorbs junk : absorbed (MD5Init junk) [] /\ counted (MD5Init junk) [].
Proof. split; split; try done. cbn [MD5Init in_]. by rewrite length_resize. Qed.

Lemma MD5Update_all junk chunks : Forall (fun p => Z.of_nat (length p) < 2 ^ 32) chunks ->
  absorbed (fold_left MD5Update chunks (MD5Init junk)) (concat chunks) /\
  counted (fold_left MD5Update chunks (MD5Init junk)) (concat chunks).
Proof.
  intros H. destruct (MD5Init_absorbs junk) as [Ha Hc]. revert Ha Hc.
  generalize (MD5Init junk). change (concat chunks) with ([] ++ concat chunks). generalize (@nil Z).
  induction H as [|p chunks Hp H IH]; intros M ctx Ha Hc; cbn [fold_left concat].
  { by rewrite app_nil_r. }
  rewrite app_assoc. destruct (MD5Update_absorbs ctx M p Ha Hc Hp). by apply IH.
Qed.

(** C40. However a message is cut into calls of [MD5Update], of less than 2^32 bytes
    each, and whatever the uninitialised context holds, [MD5Final] gives the digest
    of RFC 1321 of the whole message. *)
Theorem md5_streaming junk chunks :
  Forall (fun p => Z.of_nat (length p) < 2 ^ 32) chunks ->
  (MD5Final (fold_left MD5Update chunks (MD5Init junk))).1 = RFC.md5 (concat chunks).
Proof. intros H. destruct (MD5Update_all junk chunks H). by apply MD5Final_absorbs. Qed.

Lemma md5_streaming_witness :
  (MD5Final (fold_left MD5Update [b! "a"; []; b! "bc"; repeat 7 70] (MD5Init []))).1 =
  RFC.md5 (b! "abc" ++ repeat 7 70).
Proof. apply (md5_streaming [] [b! "a"; []; b! "bc"; repeat 7 70]). repeat constructor. Defined.

(** The callers: a string of less than 2^32 bytes gives the digits of its digest. *)
Theorem MD5_spec junk data : Z.of_nat (length data) < 2 ^ 32 ->
  MD5_digest junk data = RFC.md5 data /\
  MD5 junk data = concat (map (fun d => [hex_encode (Z.shiftr d 4); hex_encode (Z.land d 15)]) (RFC.md5 data)).
Proof.
  intros H. assert (E : MD5_digest junk data = RFC.md5 data).
  { unfold MD5_digest. rewrite u32_small by lia. rewrite Nat2Z.id, firstn_all.
    destruct (MD5Update_all junk [data]) as [Ha Hc]; [by constructor|].
    cbn [fold_left concat] in Ha, Hc. rewrite app_nil_r in Ha, Hc. by apply MD5Final_absorbs. }
  split; [done|]. unfold MD5. by rewrite E.
Qed.

(** [memset (ctx, 0, sizeof (ctx))] clears the size of a pointer: the second half of
    the digest and the last block of the message stay in the context. *)
Theorem MD5Final_leaves_context ctx :
  let '(digest, ctx') := MD5Final ctx in
  drop 8 digest = bytes32 (q2 (buf ctx')) ++ bytes32 (q3 (buf ctx')).
Proof. unfold MD5Final. by destruct (buf (transform_in _)). Qed.
