(* ===== verification/BaseHash.v ===== *)
(** Hash functions and selection: MurmurHash of src/base/hash.h and the round-robin
    counter of src/base/circular_count.h.  Words are little-endian, as on the
    machines the code runs on. *)
From Stdlib Require Import ZArith Lia Bool String.
From stdpp Require Import base list numbers.
From S2P Require Import Prelude.

(** ** Code *)

Definition murmur_m : Z := 0x5bd1e995.
Definition murmur_r : Z := 24.

(** [k *= m; k ^= k >> r; k *= m]. *)
Definition murmur_mix (k : Z) : Z :=
  let k := u32 (k * murmur_m) in
  let k := Z.lxor k (Z.shiftr k murmur_r) in
  u32 (k * murmur_m).

(** One step of the loop: [h *= m; h ^= k]. *)
Definition murmur_step (h k : Z) : Z := Z.lxor (u32 (h * murmur_m)) (murmur_mix k).

(** The loop over four bytes at a time; the bytes left over are returned. *)
Fixpoint murmur_loop (h : Z) (data : list Z) : Z * list Z :=
  match data with
  | a :: b :: c :: d :: data => murmur_loop (murmur_step h (le32 a b c d)) data
  | _ => (h, data)
  end.

(** The [switch] on the bytes left over, whose cases fall through. *)
Definition murmur_tail (h : Z) (data : list Z) : Z :=
  match data with
  | [a; b; c] => u32 (Z.lxor (Z.lxor (Z.lxor h (Z.shiftl c 16)) (Z.shiftl b 8)) a * murmur_m)
  | [a; b] => u32 (Z.lxor (Z.lxor h (Z.shiftl b 8)) a * murmur_m)
  | [a] => u32 (Z.lxor h a * murmur_m)
  | _ => h
  end.

Definition murmur_final (h : Z) : Z :=
  let h := Z.lxor h (Z.shiftr h 13) in
  let h := u32 (h * murmur_m) in
  Z.lxor h (Z.shiftr h 15).

(** [key] is the memory that may be read, [len] the length passed. *)
Definition MurmurHash2 (key : list Z) (len seed : Z) : outcome Z :=
  if Z.of_nat (length key) <? len then Crash
  else
    let h := u32 (Z.lxor seed len) in
    let '(h, rest) := murmur_loop h (take (Z.to_nat len) key) in
    Ret (murmur_final (murmur_tail h rest)).

(** The loop of MurmurHash64B, which feeds alternate words to two hashes. *)
Fixpoint murmur64_loop (h1 h2 : Z) (data : list Z) : Z * Z * list Z :=
  match data with
  | a :: b :: c :: d :: a' :: b' :: c' :: d' :: data =>
      murmur64_loop (murmur_step h1 (le32 a b c d)) (murmur_step h2 (le32 a' b' c' d')) data
  | _ => (h1, h2, data)
  end.

Definition MurmurHash64B (key : list Z) (len seed : Z) : outcome Z :=
  if Z.of_nat (length key) <? len then Crash
  else
    let '(h1, h2, data) := murmur64_loop (u32 (Z.lxor seed len)) 0 (take (Z.to_nat len) key) in
    let '(h1, data) :=
      match data with
      | a :: b :: c :: d :: data => (murmur_step h1 (le32 a b c d), data)
      | _ => (h1, data)
      end in
    let h2 := murmur_tail h2 data in
    let h1 := u32 (Z.lxor h1 (Z.shiftr h2 18) * murmur_m) in
    let h2 := u32 (Z.lxor h2 (Z.shiftr h1 22) * murmur_m) in
    let h1 := u32 (Z.lxor h1 (Z.shiftr h2 17) * murmur_m) in
    let h2 := u32 (Z.lxor h2 (Z.shiftr h1 19) * murmur_m) in
    Ret (Z.lor (u64 (Z.shiftl h1 32)) h2).

(** [circular_count]: the counter and its call operator. *)
Record circular_count := mkCount { cc_i : Z; cc_count : Z }.

Definition circular_new (count : Z) : circular_count := mkCount 0 count.

Definition circular_next (c : circular_count) : Z * circular_count :=
  let r := cc_i c in
  let i := u64 (cc_i c + 1) in
  (r, mkCount (if cc_count c <=? i then 0 else i) (cc_count c)).

(** The values of the first [n] calls. *)
Fixpoint circular_calls (n : nat) (c : circular_count) : list Z :=
  match n with
  | O => []
  | S n => let '(r, c) := circular_next c in r :: circular_calls n c
  end.

(** ** Words *)


Lemma u32_is_u32 z : is_u32 (u32 z).
Proof. unfold is_u32, u32. apply Z.mod_pos_bound. lia. Qed.

Lemma lxor_u32 a b : is_u32 a -> is_u32 b -> is_u32 (Z.lxor a b).
Proof.
  intros Ha Hb. unfold is_u32 in *.
  assert (0 <= Z.lxor a b) by (apply Z.lxor_nonneg; lia). split; [done|].
  assert (Z.lxor a b = Z.lxor a b mod 2 ^ 32) as ->; [|apply Z.mod_pos_bound; lia].
  rewrite <-(Z.mod_small a (2 ^ 32)), <-(Z.mod_small b (2 ^ 32)) by lia.
  apply Z.bits_inj'. intros n Hn. destruct (decide (n < 32)).
  - by rewrite !Z.mod_pow2_bits_low by lia.
  - rewrite !Z.mod_pow2_bits_high by lia. rewrite Z.lxor_spec, !Z.mod_pow2_bits_high by lia. done.
Qed.

Lemma shiftr_u32 a k : is_u32 a -> 0 <= k -> is_u32 (Z.shiftr a k).
Proof.
  unfold is_u32. intros Ha Hk. rewrite Z.shiftr_div_pow2 by done.
  pose proof (Z.pow_pos_nonneg 2 k ltac:(lia) Hk).
  split; [apply Z.div_pos; lia|]. apply Z.div_lt_upper_bound; nia.
Qed.

(** The multiplier is odd, so multiplication by it can be undone. *)
Lemma mul_m_inj a b : is_u32 a -> is_u32 b -> u32 (a * murmur_m) = u32 (b * murmur_m) -> a = b.
Proof.
  unfold is_u32, u32. intros Ha Hb H.
  assert (forall x, 0 <= x < 2 ^ 32 -> (x * murmur_m mod 2 ^ 32 * 3852147133) mod 2 ^ 32 = x) as Hinv.
  { intros x Hx. rewrite Z.mul_mod_idemp_l by lia. rewrite <-Z.mul_assoc.
    rewrite <-Z.mul_mod_idemp_r by lia.
    change ((murmur_m * 3852147133) mod 2 ^ 32) with 1. rewrite Z.mul_1_r. by apply Z.mod_small. }
  rewrite <-(Hinv a Ha), <-(Hinv b Hb). by rewrite H.
Qed.

(** So can [x ^= x >> s]. *)
Lemma xorshift_inj s a b :
  0 < s -> is_u32 a -> is_u32 b ->
  Z.lxor a (Z.shiftr a s) = Z.lxor b (Z.shiftr b s) -> a = b.
Proof.
  intros Hs Ha Hb H. unfold is_u32 in *.
  assert (forall x n, 0 <= x < 2 ^ 32 -> 32 <= n -> Z.testbit x n = false) as Hhigh.
  { intros x n Hx Hn. rewrite <-(Z.mod_small x (2 ^ 32)) by done. apply Z.mod_pow2_bits_high. lia. }
  assert (forall k n, (Z.to_nat (32 - n) <= k)%nat -> 0 <= n -> Z.testbit a n = Z.testbit b n) as Hbits.
  { induction k as [|k IH]; intros n Hk Hn.
    - rewrite !Hhigh by lia. done.
    - apply (f_equal (fun z => Z.testbit z n)) in H.
      rewrite !Z.lxor_spec, !Z.shiftr_spec in H by lia.
      destruct (decide (32 <= n)); [by rewrite !Hhigh by lia|].
      rewrite (IH (n + s)) in H by lia.
      destruct (Z.testbit a n), (Z.testbit b n), (Z.testbit b (n + s)); done. }
  apply Z.bits_inj'. intros n Hn. by apply (Hbits (Z.to_nat (32 - n))).
Qed.

Lemma lxor_inj_r a b x : Z.lxor x a = Z.lxor x b -> a = b.
Proof.
  intros H. apply (f_equal (Z.lxor x)) in H. rewrite <-!Z.lxor_assoc, Z.lxor_nilpotent, !Z.lxor_0_l in H. done.
Qed.

Lemma lxor_inj_l a b x : Z.lxor a x = Z.lxor b x -> a = b.
Proof. rewrite !(Z.lxor_comm _ x). apply lxor_inj_r. Qed.

(** ** MurmurHash2 *)

Lemma le32_u32 a b c d : is_byte a -> is_byte b -> is_byte c -> is_byte d -> is_u32 (le32 a b c d).
Proof. unfold is_byte, is_u32, le32. lia. Qed.

Lemma le32_inj a b c d a' b' c' d' :
  Forall is_byte [a; b; c; d] -> Forall is_byte [a'; b'; c'; d'] ->
  le32 a b c d = le32 a' b' c' d' -> [a; b; c; d] = [a'; b'; c'; d'].
Proof.
  rewrite !List.Forall_cons_iff. unfold is_byte, le32. intros (?&?&?&?&_) (?&?&?&?&_) Heq.
  assert (a = a') as -> by lia. assert (b = b') as -> by lia.
  assert (c = c') as -> by lia. assert (d = d') as -> by lia. done.
Qed.

Lemma murmur_mix_inj k k' : is_u32 k -> is_u32 k' -> murmur_mix k = murmur_mix k' -> k = k'.
Proof.
  intros Hk Hk' H. unfold murmur_mix, murmur_r in H.
  assert (forall x, is_u32 x -> is_u32 (Z.lxor x (Z.shiftr x 24))) as Hs
    by (intros; apply lxor_u32; [done|by apply shiftr_u32]).
  apply mul_m_inj in H; [|apply Hs, u32_is_u32..].
  apply xorshift_inj in H; [|lia|apply u32_is_u32..]. by apply mul_m_inj.
Qed.

Lemma murmur_mix_u32 k : is_u32 (murmur_mix k).
Proof. apply u32_is_u32. Qed.

Lemma murmur_step_u32 h k : is_u32 (murmur_step h k).
Proof. apply lxor_u32; apply u32_is_u32. Qed.

Lemma murmur_step_inj_h h h' k : is_u32 h -> is_u32 h' -> murmur_step h k = murmur_step h' k -> h = h'.
Proof. intros Hh Hh' H. apply lxor_inj_l in H. by apply mul_m_inj. Qed.

Lemma murmur_step_inj_k h k k' : is_u32 k -> is_u32 k' -> murmur_step h k = murmur_step h k' -> k = k'.
Proof. intros Hk Hk' H. apply lxor_inj_r in H. by apply murmur_mix_inj. Qed.

Lemma murmur_final_inj h h' : is_u32 h -> is_u32 h' -> murmur_final h = murmur_final h' -> h = h'.
Proof.
  intros Hh Hh' H. unfold murmur_final in H. apply xorshift_inj in H; [|lia|apply u32_is_u32..].
  assert (forall x, is_u32 x -> is_u32 (Z.lxor x (Z.shiftr x 13))) as Hs
    by (intros; apply lxor_u32; [done|by apply shiftr_u32]).
  apply mul_m_inj in H; [|by apply Hs..]. by apply xorshift_inj in H.
Qed.

Lemma shiftl_byte_u32 c k : is_byte c -> 0 <= k <= 16 -> is_u32 (Z.shiftl c k).
Proof.
  unfold is_byte, is_u32. intros Hc Hk. rewrite Z.shiftl_mul_pow2 by lia.
  assert (2 ^ k <= 2 ^ 16) by (apply Z.pow_le_mono_r; lia).
  pose proof (Z.pow_pos_nonneg 2 k). nia.
Qed.

Lemma murmur_tail_inj h h' rest :
  is_u32 h -> is_u32 h' -> Forall is_byte rest -> murmur_tail h rest = murmur_tail h' rest -> h = h'.
Proof.
  intros Hh Hh' Hr H.
  assert (forall a, is_byte a -> is_u32 a) as Hb by (unfold is_byte, is_u32; lia).
  destruct rest as [|a [|b [|c [|? ?]]]]; cbn [murmur_tail] in H; try done;
    rewrite !List.Forall_cons_iff in Hr; destruct_and?.
  - apply mul_m_inj in H; [|apply lxor_u32; auto..]. by apply lxor_inj_l in H.
  - apply mul_m_inj in H; [|repeat apply lxor_u32; auto; apply shiftl_byte_u32; auto; lia..].
    by apply lxor_inj_l, lxor_inj_l in H.
  - apply mul_m_inj in H; [|repeat apply lxor_u32; auto; apply shiftl_byte_u32; auto; lia..].
    by apply lxor_inj_l, lxor_inj_l, lxor_inj_l in H.
Qed.

(** The loop over the data after a change is injective in the hash so far. *)
Lemma murmur_loop_inj n data h h' :
  (length data <= n)%nat -> is_u32 h -> is_u32 h' ->
  (murmur_loop h data).2 = (murmur_loop h' data).2 /\
  is_u32 (murmur_loop h data).1 /\
  ((murmur_loop h data).1 = (murmur_loop h' data).1 -> h = h') /\
  (Forall is_byte data -> Forall is_byte (murmur_loop h data).2).
Proof.
  revert data h h'. induction n as [|n IH]; intros data h h' Hn Hh Hh'.
  { destruct data; cbn in *; [by split_and!|lia]. }
  destruct data as [|a [|b [|c [|d data]]]]; cbn [murmur_loop fst snd]; try by split_and!.
  destruct (IH data (murmur_step h (le32 a b c d)) (murmur_step h' (le32 a b c d)))
    as (H1 & H2 & H3 & H4); [cbn in Hn; lia|apply murmur_step_u32..|].
  split_and!; try done.
  - intros H. apply H3 in H. by apply murmur_step_inj_h in H.
  - intros Hb. rewrite !List.Forall_cons_iff in Hb. by apply H4, Hb.
Qed.

Lemma murmur_loop_app pre data h :
  (length pre mod 4 = 0)%nat -> murmur_loop h (pre ++ data) = murmur_loop (murmur_loop h pre).1 data.
Proof.
  assert (forall n pre h, (length pre <= n)%nat -> (length pre mod 4 = 0)%nat ->
    murmur_loop h (pre ++ data) = murmur_loop (murmur_loop h pre).1 data) as H;
    [|by apply (H (length pre))].
  induction n as [|n IH]; intros [|a [|b [|c [|d p]]]] h' Hn Hm; cbn [length] in *; try done; try lia.
  cbn [app murmur_loop]. apply IH; [lia|].
  replace (S (S (S (S (length p))))) with (length p + 1 * 4)%nat in Hm by lia.
  by rewrite Nat.Div0.mod_add in Hm.
Qed.

Lemma MurmurHash2_returns key len seed :
  len = Z.of_nat (length key) -> exists h, MurmurHash2 key len seed = Ret h.
Proof.
  intros ->. unfold MurmurHash2. rewrite Z.ltb_irrefl. destruct (murmur_loop _ _). by eexists.
Qed.

Lemma MurmurHash2_word_inj pre w w' post seed len h :
  (length pre mod 4 = 0)%nat -> length w = 4%nat -> length w' = 4%nat ->
  Forall is_byte pre -> Forall is_byte w -> Forall is_byte w' -> Forall is_byte post ->
  len = Z.of_nat (length (pre ++ w ++ post)) ->
  MurmurHash2 (pre ++ w ++ post) len seed = Ret h ->
  MurmurHash2 (pre ++ w' ++ post) len seed = Ret h -> w = w'.
Proof.
  intros Hm Hw Hw' Bpre Bw Bw' Bpost Hlen H H'.
  assert (Z.of_nat (length (pre ++ w' ++ post)) = len) as Hlen'
    by (rewrite Hlen, !length_app, Hw, Hw'; done).
  unfold MurmurHash2 in H, H'. rewrite <-Hlen, Z.ltb_irrefl in H. rewrite Hlen', Z.ltb_irrefl in H'.
  rewrite take_ge in H by (rewrite Hlen; lia). rewrite take_ge in H' by (rewrite <-Hlen'; lia).
  rewrite murmur_loop_app in H, H' by done.
  destruct (murmur_loop_inj (length pre) pre (u32 (Z.lxor seed len)) (u32 (Z.lxor seed len)))
    as (_ & Hu & _); [done|apply u32_is_u32..|].
  set (h0 := (murmur_loop (u32 (Z.lxor seed len)) pre).1) in *.
  destruct w as [|a [|b [|c [|d [|? ?]]]]]; try done.
  destruct w' as [|a' [|b' [|c' [|d' [|? ?]]]]]; try done.
  cbn [app murmur_loop] in H, H'.
  assert (is_u32 (le32 a b c d) /\ is_u32 (le32 a' b' c' d')) as [Hk Hk'].
  { rewrite !List.Forall_cons_iff in Bw, Bw'. destruct_and?. split; by apply le32_u32. }
  destruct (murmur_loop_inj (length post) post (murmur_step h0 (le32 a b c d))
    (murmur_step h0 (le32 a' b' c' d'))) as (H1 & H2 & H3 & H4); [done|apply murmur_step_u32..|].
  destruct (murmur_loop_inj (length post) post (murmur_step h0 (le32 a' b' c' d'))
    (murmur_step h0 (le32 a' b' c' d'))) as (_ & H2' & _ & _); [done|apply murmur_step_u32..|].
  destruct (murmur_loop (murmur_step h0 (le32 a b c d)) post) as [g rest].
  destruct (murmur_loop (murmur_step h0 (le32 a' b' c' d')) post) as [g' rest'].
  cbn [fst snd] in *. subst rest'.
  injection H as H. injection H' as H'. rewrite <-H' in H.
  assert (forall x, is_u32 x -> is_u32 (murmur_tail x rest)) as Ht.
  { intros x Hx. destruct rest as [|? [|? [|? [|? ?]]]]; try done; apply u32_is_u32. }
  apply murmur_final_inj in H; [|by apply Ht..].
  apply murmur_tail_inj in H; [|done|done|by apply H4].
  apply H3, murmur_step_inj_k in H; [|done..]. by apply le32_inj.
Qed.

Lemma murmur_final_u32 h : is_u32 (murmur_final h).
Proof.
  unfold murmur_final. set (x := u32 _). assert (is_u32 x) as Hx.
  { unfold is_u32, x, u32. apply Z.mod_pos_bound. lia. }
  clearbody x. unfold is_u32 in *.
  assert (0 <= Z.shiftr x 15 < 2 ^ 32) as Hy.
  { rewrite Z.shiftr_div_pow2 by lia. split; [apply Z.div_pos; lia|].
    apply Z.le_lt_trans with x; [|lia]. apply Z.div_le_upper_bound; lia. }
  split; [apply Z.lxor_nonneg; lia|].
  destruct (Z.eq_dec (Z.lxor x (Z.shiftr x 15)) 0) as [->|Hne]; [lia|].
  apply Z.log2_lt_pow2; [pose proof (proj2 (Z.lxor_nonneg x (Z.shiftr x 15))); lia|].
  eapply Z.le_lt_trans; [apply Z.log2_lxor; lia|].
  assert (forall z, 0 <= z < 2 ^ 32 -> Z.log2 z < 32) as Hl.
  { intros z Hz. destruct (Z.eq_dec z 0) as [->|]; [done|]. apply Z.log2_lt_pow2; lia. }
  apply Z.max_lub_lt; by apply Hl.
Qed.

(**  MurmurHash2 does not confuse keys that differ in one aligned word: changing
    the four bytes at a multiple of four of a key, whatever the bytes around them,
    the length and the seed, changes its hash.  In particular it is one-to-one on
    keys of four bytes. *)
Theorem MurmurHash2_word_sensitive pre w w' post seed :
  (length pre mod 4 = 0)%nat -> length w = 4%nat -> length w' = 4%nat -> w <> w' ->
  Forall is_byte pre -> Forall is_byte w -> Forall is_byte w' -> Forall is_byte post ->
  let len := Z.of_nat (length (pre ++ w ++ post)) in
  exists h h', MurmurHash2 (pre ++ w ++ post) len seed = Ret h /\
    MurmurHash2 (pre ++ w' ++ post) len seed = Ret h' /\ h <> h'.
Proof.
  intros Hm Hw Hw' Hne Bpre Bw Bw' Bpost len.
  destruct (MurmurHash2_returns (pre ++ w ++ post) len seed eq_refl) as [h Hh].
  destruct (MurmurHash2_returns (pre ++ w' ++ post) len seed) as [h' Hh'];
    [unfold len; rewrite !length_app, Hw, Hw'; done|].
  exists h, h'. split_and!; try done. intros <-. apply Hne.
  by apply (MurmurHash2_word_inj pre w w' post seed len h).
Qed.

Lemma MurmurHash2_word_sensitive_witness :
  exists h h', MurmurHash2 (b! "user" ++ b! "1234" ++ b! "x") 9 0 = Ret h /\
    MurmurHash2 (b! "user" ++ b! "1235" ++ b! "x") 9 0 = Ret h' /\ h <> h'.
Proof.
  apply (MurmurHash2_word_sensitive (b! "user") (b! "1234") (b! "1235") (b! "x") 0).
  - reflexivity.
  - reflexivity.
  - reflexivity.
  - discriminate.
  - repeat constructor; unfold is_byte; cbn; lia.
  - repeat constructor; unfold is_byte; cbn; lia.
  - repeat constructor; unfold is_byte; cbn; lia.
  - repeat constructor; unfold is_byte; cbn; lia.
Defined.

(** ** Round robin *)

Lemma circular_calls_seq count i n :
  0 <= i < count -> count < 2 ^ 64 ->
  circular_calls n (mkCount i count) = map (fun k => (i + Z.of_nat k) mod count) (seq 0 n).
Proof.
  revert i. induction n as [|n IH]; intros i Hi Hc; [done|]. cbn [circular_calls circular_next cc_i cc_count].
  cbn [seq map]. rewrite Z.add_0_r, Z.mod_small by done. f_equal.
  assert (u64 (i + 1) = i + 1) as -> by (unfold u64; apply Z.mod_small; lia).
  rewrite <-seq_shift, map_map.
  assert (0 <= (if count <=? i + 1 then 0 else i + 1) < count) as Hb
    by (destruct (Z.leb_spec count (i + 1)); lia).
  unfold circular_next in *. cbn [cc_i cc_count]. rewrite IH by done.
  apply map_ext. intros k. destruct (Z.leb_spec count (i + 1)).
  - assert (i = count - 1) as -> by lia.
    replace (count - 1 + Z.of_nat (S k)) with (0 + Z.of_nat k + 1 * count) by lia.
    by rewrite Z.mod_add by lia.
  - f_equal. lia.
Qed.

(**  circular_count serves the numbers 0 to count - 1 in turn: call [k] returns
    [k mod count], so that any [count] calls in a row return each of them once. *)
Theorem circular_count_round_robin count n :
  0 < count < 2 ^ 64 ->
  circular_calls n (circular_new count) = map (fun k => Z.of_nat k mod count) (seq 0 n).
Proof. intros Hc. unfold circular_new. apply circular_calls_seq; lia. Qed.

Lemma circular_count_round_robin_witness :
  circular_calls 7 (circular_new 3) = [0; 1; 2; 0; 1; 2; 0].
Proof. apply (circular_count_round_robin 3 7). lia. Defined.
