(* ===== verification/BaseContinuum.v ===== *)
(** Consistent hashing: the class [Continuum] of src/base/consistenthash.h.  The
    locks order the operations and are not modelled; each operation is one step on
    the state. *)
From Stdlib Require Import ZArith Lia Bool String Sorting.Sorted.
From stdpp Require Import base list numbers sorting.
From S2P Require Import Prelude BaseHash.

(** ** Code *)

(** [Point]: a position of the ring and the server it belongs to. *)
Record Point := mkPoint { point_ : Z; desc_ : list Z }.

#[export] Instance Point_eq_dec : EqDecision Point.
Proof. solve_decision. Defined.

(** [points_], and [desc_map_], a [std::map]: an association list in the order of its
    keys. *)
Record Continuum := mkContinuum {
  points_ : list Point;
  desc_map_ : list (list Z * Z);
  name_ : list Z
}.

Definition new_continuum (n : list Z) : Continuum := mkContinuum [] [] n.

(** [std::string]'s order. *)
Fixpoint str_lt (a b : list Z) : bool :=
  match a, b with
  | _, [] => false
  | [], _ :: _ => true
  | x :: a, y :: b => (x <? y) || ((x =? y) && str_lt a b)
  end.

(** [desc_map_[desc] = capacity]. *)
Fixpoint map_assign (desc : list Z) (capacity : Z) (m : list (list Z * Z)) : list (list Z * Z) :=
  match m with
  | [] => [(desc, capacity)]
  | (d, c) :: m =>
      if list_Z_eqb d desc then (d, capacity) :: m
      else if str_lt desc d then (desc, capacity) :: (d, c) :: m
      else (d, c) :: map_assign desc capacity m
  end.

Definition Add (desc : list Z) (capacity : Z) (c : Continuum) : Continuum :=
  mkContinuum (points_ c) (map_assign desc capacity (desc_map_ c)) (name_ c).

Definition Remove (desc : list Z) (c : Continuum) : bool * Continuum :=
  (true, mkContinuum (points_ c) (List.filter (fun i => negb (list_Z_eqb i.1 desc)) (desc_map_ c)) (name_ c)).

Definition Clear (c : Continuum) : Continuum := mkContinuum (points_ c) [] (name_ c).

(** [snprintf ("%x")]: the digits of [k], most significant first. *)
Fixpoint hex_digits (fuel : nat) (k : Z) : list Z :=
  let d := k mod 16 in
  let digit := if d <? 10 then d + 48 else d - 10 + 97 in
  match fuel with
  | O => [digit]
  | S fuel => if k <? 16 then [digit] else hex_digits fuel (k / 16) ++ [digit]
  end.
Definition format_x (k : Z) : list Z := hex_digits 8 k.

Definition big_enough : nat := 21.

(** The key of point [k] of a server. [snprintf] stores at most 20 characters and a
    NUL in [buf] and returns the length [len] of the whole text; the function then
    reads [len] bytes of [buf], which has 21. *)
Definition point_key (desc : list Z) (k : Z) : outcome (list Z) :=
  let text := cstr desc ++ [45] ++ format_x k in
  if (length text <? big_enough)%nat then Ret text
  else if (length text =? big_enough)%nat then Ret (take (big_enough - 1) text ++ [0])
  else Crash.

Fixpoint omap_list {A B : Type} (f : A -> outcome B) (l : list A) : outcome (list B) :=
  match l with
  | [] => Ret []
  | x :: l => let! y := f x in let! ys := omap_list f l in Ret (y :: ys)
  end.

Section Rebuild.
(** The function passed to [Rebuild], and [std::sort] with [CompareByPoint]. *)
Variable func : list Z -> outcome Z.
Variable sort : list Point -> list Point.

(** The points of one server. *)
Definition server_points (i : list Z * Z) : outcome (list Point) :=
  omap_list (fun k =>
    let! key := point_key i.1 (Z.of_nat k) in
    let! p := func key in
    Ret (mkPoint p i.1)) (seq 0 (Z.to_nat i.2)).

Definition total_point (m : list (list Z * Z)) : Z :=
  fold_left (fun t i => u32 (t + i.2)) m 0.

Definition Rebuild (c : Continuum) : outcome (bool * Continuum) :=
  if total_point (desc_map_ c) =? 0 then Ret (false, c)
  else
    let! target := omap_list server_points (desc_map_ c) in
    Ret (true, mkContinuum (sort (concat target)) (desc_map_ c) (name_ c)).
End Rebuild.

(** [Hash]: MurmurHash2 with seed 0, of the characters of a string. *)
Definition Hash (text : list Z) : outcome Z := MurmurHash2 text (Z.of_nat (length text)) 0.

(** [std::lower_bound] on the sorted points. *)
Fixpoint lower_bound (hash : Z) (ps : list Point) : option Point :=
  match ps with
  | [] => None
  | p :: ps => if point_ p <? hash then lower_bound hash ps else Some p
  end.

Definition Locate (hash : Z) (c : Continuum) : list Z :=
  match lower_bound hash (points_ c) with
  | Some p => desc_ p
  | None => match points_ c with p :: _ => desc_ p | [] => [] end
  end.

Definition size (c : Continuum) : nat := length (points_ c).

(** ** The ring *)

Definition by_point (a b : Point) : Prop := point_ a <= point_ b.

(** What [std::sort] promises: the same points, in order of their positions. *)
Definition sorts (sort : list Point -> list Point) : Prop :=
  forall l, Permutation l (sort l) /\ StronglySorted by_point (sort l).

(** The distance from [h] clockwise to [p] on the ring of 2^32 positions. *)
Definition clockwise (h p : Z) : Z := (p - h) mod 2 ^ 32.

Definition ring_ok (ps : list Point) : Prop :=
  StronglySorted by_point ps /\ Forall (fun p => is_u32 (point_ p)) ps.

(** [p] is a point of the ring that is reached first from [h]. *)
Definition first_clockwise (h : Z) (p : Point) (ps : list Point) : Prop :=
  In p ps /\ forall q, In q ps -> clockwise h (point_ p) <= clockwise h (point_ q).

Lemma clockwise_value h p :
  is_u32 h -> is_u32 p -> clockwise h p = if h <=? p then p - h else p - h + 2 ^ 32.
Proof.
  unfold is_u32, clockwise. intros Hh Hp. destruct (Z.leb_spec h p).
  - apply Z.mod_small. lia.
  - symmetry. apply (Z.mod_unique_pos _ _ (-1)); lia.
Qed.

Lemma lower_bound_spec h ps :
  StronglySorted by_point ps ->
  match lower_bound h ps with
  | Some p => In p ps /\ h <= point_ p /\ forall q, In q ps -> h <= point_ q -> point_ p <= point_ q
  | None => forall q, In q ps -> point_ q < h
  end.
Proof.
  induction 1 as [|p ps Hs IH Hp]; [by intros ? []|]. cbn [lower_bound].
  destruct (Z.ltb_spec (point_ p) h).
  - destruct (lower_bound h ps) as [r|].
    + destruct IH as (Hin & Hle & Hmin). split; [by right|]. split; [done|].
      intros q [<-|Hq] Hhq; [lia|by apply Hmin].
    + intros q [<-|Hq]; [done|by apply IH].
  - split; [by left|]. split; [lia|]. intros q [<-|Hq] _; [lia|].
    rewrite List.Forall_forall in Hp. by apply Hp.
Qed.

Lemma Locate_first h c :
  ring_ok (points_ c) -> points_ c <> [] -> is_u32 h ->
  exists p, Locate h c = desc_ p /\ first_clockwise h p (points_ c).
Proof.
  intros [Hs Hu] Hne Hh. unfold Locate, first_clockwise.
  pose proof (lower_bound_spec h (points_ c) Hs) as H. rewrite List.Forall_forall in Hu.
  destruct (lower_bound h (points_ c)) as [p|].
  - destruct H as (Hin & Hle & Hmin). exists p. split_and!; try done.
    intros q Hq. pose proof (Hu p Hin). pose proof (Hu q Hq). rewrite !clockwise_value by done.
    destruct (Z.leb_spec h (point_ p)), (Z.leb_spec h (point_ q)); try lia.
    + specialize (Hmin q Hq). lia.
    + unfold is_u32 in *. lia.
  - destruct (points_ c) as [|p ps]; [done|]. exists p. split_and!; [done|by left|].
    intros q Hq. pose proof (Hu p (or_introl eq_refl)). pose proof (Hu q Hq).
    pose proof (H p (or_introl eq_refl)). pose proof (H q Hq).
    rewrite !clockwise_value by done.
    destruct (Z.leb_spec h (point_ p)), (Z.leb_spec h (point_ q)); try lia.
    inversion Hs as [|? ? _ Hall]; subst. rewrite List.Forall_forall in Hall.
    destruct Hq as [<-|Hq]; [lia|]. specialize (Hall q Hq). unfold by_point in Hall. lia.
Qed.

Lemma clockwise_inj h p q : is_u32 h -> is_u32 p -> is_u32 q -> clockwise h p = clockwise h q -> p = q.
Proof.
  intros Hh Hp Hq H. rewrite !clockwise_value in H by done. unfold is_u32 in *.
  destruct (Z.leb_spec h p), (Z.leb_spec h q); lia.
Qed.

(** ** Rebuilding *)

Lemma omap_list_ret {A B} (f : A -> outcome B) (g : A -> B) (l : list A) :
  (forall x, In x l -> f x = Ret (g x)) -> omap_list f l = Ret (map g l).
Proof.
  induction l as [|x l IH]; intros H; [done|]. cbn [omap_list map].
  rewrite H by (by left). cbn [obind]. rewrite IH; [done|]. intros y Hy. apply H. by right.
Qed.

(** The texts [<desc>-<k>] of a server fit in [buf]. *)
Definition keys_fit (i : list Z * Z) : Prop :=
  forall k, (k < Z.to_nat i.2)%nat ->
    (length (cstr i.1 ++ [45%Z] ++ format_x (Z.of_nat k)) < big_enough)%nat.

(** What a hash function promises: a 32-bit number for every text. *)
Definition hashes (func : list Z -> outcome Z) : Prop :=
  forall t, exists p, func t = Ret p /\ is_u32 p.

(** The position of point [k] of server [desc]. *)
Definition position (func : list Z -> outcome Z) (desc : list Z) (k : nat) : Z :=
  match func (cstr desc ++ [45] ++ format_x (Z.of_nat k)) with Ret p => p | _ => 0 end.

(** The points a map of servers stands for. *)
Definition ring_points (func : list Z -> outcome Z) (m : list (list Z * Z)) : list Point :=
  concat (map (fun i => map (fun k => mkPoint (position func i.1 k) i.1) (seq 0 (Z.to_nat i.2))) m).

Lemma server_points_value func i :
  hashes func -> keys_fit i ->
  server_points func i = Ret (map (fun k => mkPoint (position func i.1 k) i.1) (seq 0 (Z.to_nat i.2))).
Proof.
  intros Hf Hfit. apply omap_list_ret. intros k Hk%List.in_seq. unfold position, point_key.
  specialize (Hfit k ltac:(lia)). apply Nat.ltb_lt in Hfit. rewrite Hfit. cbn [obind].
  by destruct (Hf (cstr i.1 ++ [45] ++ format_x (Z.of_nat k))) as (p & -> & _).
Qed.

Lemma Rebuild_value func sort c :
  hashes func -> (forall i, In i (desc_map_ c) -> keys_fit i) -> total_point (desc_map_ c) <> 0 ->
  Rebuild func sort c =
    Ret (true, mkContinuum (sort (ring_points func (desc_map_ c))) (desc_map_ c) (name_ c)).
Proof.
  intros Hf Hfit Ht. unfold Rebuild. apply Z.eqb_neq in Ht. rewrite Ht.
  rewrite (omap_list_ret _ (fun i => map (fun k => mkPoint (position func i.1 k) i.1) (seq 0 (Z.to_nat i.2)))).
  - done.
  - intros i Hi. apply server_points_value; auto.
Qed.

Lemma in_ring_points func m p :
  In p (ring_points func m) <->
  exists i k, In i m /\ (k < Z.to_nat i.2)%nat /\ p = mkPoint (position func i.1 k) i.1.
Proof.
  unfold ring_points. rewrite List.in_concat. split.
  - intros (l & (i & <- & Hi)%List.in_map_iff & Hp). apply List.in_map_iff in Hp as (k & <- & Hk%List.in_seq).
    exists i, k. split_and!; [done|lia|done].
  - intros (i & k & Hi & Hk & ->).
    exists (map (fun k => mkPoint (position func i.1 k) i.1) (seq 0 (Z.to_nat i.2))). split.
    + apply List.in_map_iff. by exists i.
    + apply List.in_map_iff. exists k. split; [done|]. apply List.in_seq. lia.
Qed.

Lemma ring_points_u32 func m : hashes func -> Forall (fun p => is_u32 (point_ p)) (ring_points func m).
Proof.
  intros Hf. apply List.Forall_forall. intros p (i & k & _ & _ & ->)%in_ring_points.
  unfold position. cbn [point_]. by destruct (Hf (cstr i.1 ++ [45] ++ format_x (Z.of_nat k))) as (? & -> & ?).
Qed.

Lemma sort_ring_ok func sort m : hashes func -> sorts sort -> ring_ok (sort (ring_points func m)).
Proof.
  intros Hf Hs. destruct (Hs (ring_points func m)) as [Hperm Hsort]. split; [done|].
  apply List.Forall_forall. intros p Hp.
  apply Permutation_sym in Hperm. apply (Permutation_in _ Hperm) in Hp.
  by apply (proj1 (List.Forall_forall _ _) (ring_points_u32 func m Hf)).
Qed.

Lemma total_point_zero m : Forall (fun i => i.2 = 0) m -> total_point m = 0.
Proof.
  unfold total_point. induction 1 as [|i m Hi _ IH]; [done|]. cbn [fold_left]. by rewrite Hi.
Qed.

Lemma total_point_nonzero_points func m :
  Forall (fun i => is_u32 i.2) m -> total_point m <> 0 -> ring_points func m <> [].
Proof.
  intros Hu Ht Hnil. apply Ht, total_point_zero. rewrite List.Forall_forall in Hu |- *.
  intros i Hi. specialize (Hu i Hi). unfold is_u32 in Hu.
  destruct (Z.eqb_spec i.2 0) as [|Hpos]; [done|]. exfalso.
  assert (Hin : In (mkPoint (position func i.1 0) i.1) (ring_points func m)).
  { apply in_ring_points. exists i, 0%nat. split_and!; [done|lia|done]. }
  by rewrite Hnil in Hin.
Qed.

(** ** The map of servers *)

Lemma str_lt_irrefl a : str_lt a a = false.
Proof. induction a as [|x a IH]; [done|]. cbn. rewrite Z.ltb_irrefl, Z.eqb_refl, IH. done. Qed.

Lemma in_map_assign desc capacity m i :
  In i (map_assign desc capacity m) -> i = (desc, capacity) \/ (In i m).
Proof.
  induction m as [|[d c] m IH]; cbn; [intuition congruence|].
  destruct (list_Z_eqb d desc) eqn:Hd.
  - apply list_Z_eqb_spec in Hd as ->. cbn. intuition congruence.
  - destruct (str_lt desc d); cbn; intuition congruence.
Qed.

Lemma in_Remove desc c i :
  In i (desc_map_ (Remove desc c).2) <-> In i (desc_map_ c) /\ i.1 <> desc.
Proof.
  unfold Remove. cbn. rewrite filter_In. split; intros [Hi Hd]; split; try done.
  - intros <-. rewrite (proj2 (list_Z_eqb_spec i.1 i.1) eq_refl) in Hd. done.
  - destruct (list_Z_eqb i.1 desc) eqn:E; [|done]. by apply list_Z_eqb_spec in E.
Qed.

(** What the calls of [Add] keep: capacities are 32-bit numbers and every key fits. *)
Definition servers_ok (m : list (list Z * Z)) : Prop :=
  Forall (fun i => is_u32 i.2 /\ keys_fit i) m.

Lemma Add_servers_ok desc capacity c :
  servers_ok (desc_map_ c) -> is_u32 capacity -> keys_fit (desc, capacity) ->
  servers_ok (desc_map_ (Add desc capacity c)).
Proof.
  unfold servers_ok. rewrite !List.Forall_forall. intros H Hc Hf i Hi.
  apply in_map_assign in Hi as [->|Hi]; auto.
Qed.

Lemma Remove_servers_ok desc c :
  servers_ok (desc_map_ c) -> servers_ok (desc_map_ (Remove desc c).2).
Proof.
  unfold servers_ok. rewrite !List.Forall_forall. intros H i [Hi _]%in_Remove. auto.
Qed.

Lemma hex_digits_length fuel k : (length (hex_digits fuel k) <= S fuel)%nat.
Proof.
  revert k. induction fuel as [|fuel IH]; intros k; cbn [hex_digits]; [cbn; lia|].
  destruct (k <? 16); [cbn; lia|]. rewrite length_app. cbn. specialize (IH (k / 16)). lia.
Qed.

Lemma cstr_length_le t : (length (cstr t) <= length t)%nat.
Proof. induction t as [|x t IH]; [done|]. cbn. destruct (x =? 0); cbn; lia. Qed.

(** A server named by at most ten characters fits with any capacity. *)
Lemma short_keys_fit desc capacity : (length desc <= 10)%nat -> keys_fit (desc, capacity).
Proof.
  intros H k _. rewrite !length_app. cbn [fst length].
  pose proof (cstr_length_le desc). pose proof (hex_digits_length 8 (Z.of_nat k)).
  unfold format_x, big_enough. lia.
Qed.

(** ** Moving keys *)

(** A point stays the first one when other points leave or join behind it. *)
Lemma first_clockwise_mono h p ps ps' :
  first_clockwise h p ps -> In p ps' -> (forall q, In q ps' -> In q ps) -> first_clockwise h p ps'.
Proof. intros [_ H] Hp Hsub. split; [done|]. auto. Qed.

Lemma same_position p q ps :
  NoDup (map point_ ps) -> In p ps -> In q ps -> point_ p = point_ q -> p = q.
Proof.
  intros Hnd Hp Hq Heq. induction ps as [|r ps IH]; [done|]. cbn in Hnd.
  apply NoDup_cons in Hnd as [Hr Hnd].
  destruct Hp as [->|Hp], Hq as [->|Hq]; [done| | |auto]; exfalso; apply Hr.
  - rewrite Heq. by apply list_elem_of_In, in_map.
  - rewrite <-Heq. by apply list_elem_of_In, in_map.
Qed.

(** On a ring of distinct positions the first point is the only one. *)
Lemma first_clockwise_unique h p q ps ps' :
  is_u32 h -> Forall (fun p => is_u32 (point_ p)) ps -> NoDup (map point_ ps) ->
  (forall r, In r ps' -> In r ps) ->
  first_clockwise h p ps' -> first_clockwise h q ps' -> p = q.
Proof.
  intros Hh Hu Hnd Hsub [Hp Hpm] [Hq Hqm]. rewrite List.Forall_forall in Hu.
  apply (same_position p q ps); auto. apply (clockwise_inj h); auto.
  specialize (Hpm q Hq). specialize (Hqm p Hp). lia.
Qed.

Lemma first_clockwise_perm h p ps ps' :
  Permutation ps ps' -> first_clockwise h p ps -> first_clockwise h p ps'.
Proof.
  intros Hperm [Hp H]. split; [by apply (Permutation_in _ Hperm)|].
  intros q Hq. apply H. by apply (Permutation_in _ (Permutation_sym Hperm)).
Qed.

(** [Locate] on the ring that [Rebuild] installs. *)
Lemma rebuilt_Locate func sort m n h :
  hashes func -> sorts sort -> servers_ok m -> total_point m <> 0 -> is_u32 h ->
  exists p, Locate h (mkContinuum (sort (ring_points func m)) m n) = desc_ p /\
    first_clockwise h p (ring_points func m).
Proof.
  intros Hf Hs Hok Ht Hh. destruct (Hs (ring_points func m)) as [Hperm _].
  destruct (Locate_first h (mkContinuum (sort (ring_points func m)) m n)) as (p & Hp & Hfirst).
  - by apply sort_ring_ok.
  - cbn [points_]. intros Hnil. rewrite Hnil in Hperm. apply Permutation_sym, Permutation_nil in Hperm.
    revert Hperm. apply total_point_nonzero_points; [|done].
    eapply List.Forall_impl; [|exact Hok]. by intros i [? _].
  - done.
  - exists p. split; [done|]. eapply first_clockwise_perm; [|exact Hfirst]. by symmetry.
Qed.

Lemma servers_ok_fit m : servers_ok m -> forall i, In i m -> keys_fit i.
Proof. intros Hok i Hi. by apply (proj1 (List.Forall_forall _ _) Hok). Qed.

(** The points of the ring after [Remove]. *)
Lemma in_ring_points_Remove func desc c p :
  In p (ring_points func (desc_map_ (Remove desc c).2)) <->
  In p (ring_points func (desc_map_ c)) /\ desc_ p <> desc.
Proof.
  rewrite !in_ring_points. split.
  - intros (i & k & [Hi Hd]%in_Remove & Hk & ->). split; [|done]. by exists i, k.
  - intros [(i & k & Hi & Hk & ->) Hd]. exists i, k. split_and!; [|done|done]. by apply in_Remove.
Qed.

(** C34.  [Rebuild] and [Locate] implement consistent hashing: with servers whose keys
    fit in [buf] and at least one point, [Rebuild] succeeds, leaves the servers as they
    are and installs [capacity] points per server, the hashes of [<desc>-<k>], in order
    around the ring; [Locate] then gives, for every hash, the server of a point that is
    reached first from it in the direction of growing positions, with wrap-around. *)
Theorem Rebuild_then_Locate func sort c :
  hashes func -> sorts sort -> servers_ok (desc_map_ c) -> total_point (desc_map_ c) <> 0 ->
  exists c', Rebuild func sort c = Ret (true, c') /\ desc_map_ c' = desc_map_ c /\
    Permutation (points_ c') (ring_points func (desc_map_ c)) /\
    StronglySorted by_point (points_ c') /\
    forall h, is_u32 h ->
      exists p, Locate h c' = desc_ p /\ first_clockwise h p (ring_points func (desc_map_ c)).
Proof.
  intros Hf Hs Hok Ht.
  exists (mkContinuum (sort (ring_points func (desc_map_ c))) (desc_map_ c) (name_ c)).
  destruct (Hs (ring_points func (desc_map_ c))) as [Hperm Hsort].
  split_and!; [|done|by symmetry|done|].
  - apply Rebuild_value; [done| |done]. by apply servers_ok_fit.
  - intros h Hh. by apply rebuilt_Locate.
Qed.

(** C35.  Removing a server moves only the keys of that server: where the points of the
    ring have distinct positions, a key that was located on another server is located
    on the same server after [Remove] and [Rebuild]; no key is left on the removed
    server. *)
Theorem Remove_moves_only_its_keys func sort c desc :
  hashes func -> sorts sort -> servers_ok (desc_map_ c) ->
  total_point (desc_map_ c) <> 0 -> total_point (desc_map_ (Remove desc c).2) <> 0 ->
  NoDup (map point_ (ring_points func (desc_map_ c))) ->
  exists c1 c2, Rebuild func sort c = Ret (true, c1) /\
    Rebuild func sort (Remove desc c1).2 = Ret (true, c2) /\
    forall h, is_u32 h -> Locate h c2 <> desc /\
      (Locate h c1 <> desc -> Locate h c2 = Locate h c1).
Proof.
  intros Hf Hs Hok Ht Ht' Hnd. pose proof (Remove_servers_ok desc c Hok) as Hok'.
  eexists _, _. split_and!.
  - apply Rebuild_value; [done| |done]. by apply servers_ok_fit.
  - apply Rebuild_value; [done| |exact Ht']. by apply servers_ok_fit.
  - intros h Hh. cbn [desc_map_ name_].
    destruct (rebuilt_Locate func sort (desc_map_ c) (name_ c) h) as (p & -> & Hp); try done.
    destruct (rebuilt_Locate func sort _ (name_ c) h Hf Hs Hok' Ht' Hh) as (q & Hq & Hqf).
    unfold Remove in *. cbn [desc_map_ name_ snd] in *. rewrite Hq.
    pose proof (proj1 (in_ring_points_Remove func desc c q) (proj1 Hqf)) as [Hqin Hqd].
    split; [done|]. intros Hpd. f_equal.
    apply (first_clockwise_unique h q p (ring_points func (desc_map_ c))
             (ring_points func (desc_map_ (Remove desc c).2))); try done.
    + by apply ring_points_u32.
    + intros r Hr. by apply (in_ring_points_Remove func desc c).
    + eapply first_clockwise_mono; [exact Hp| |].
      * apply in_ring_points_Remove. split; [apply Hp|done].
      * intros r Hr. by apply (in_ring_points_Remove func desc c).
Qed.

(** ** A ring of three servers *)

Fixpoint insert_point (p : Point) (l : list Point) : list Point :=
  match l with
  | [] => [p]
  | q :: l => if point_ p <=? point_ q then p :: q :: l else q :: insert_point p l
  end.
Definition insertion_sort : list Point -> list Point := foldr insert_point [].

Lemma insert_point_perm p l : Permutation (p :: l) (insert_point p l).
Proof.
  induction l as [|q l IH]; [done|]. cbn. destruct (point_ p <=? point_ q); [done|].
  rewrite perm_swap. by apply perm_skip.
Qed.

Lemma insert_point_sorted p l :
  StronglySorted by_point l -> StronglySorted by_point (insert_point p l).
Proof.
  unfold by_point. induction 1 as [|q l Hl IH Hq]; cbn; [by repeat constructor|].
  rewrite List.Forall_forall in Hq.
  destruct (Z.leb_spec (point_ p) (point_ q)); constructor.
  - constructor; [done|]. by apply List.Forall_forall.
  - apply List.Forall_forall. intros r [<-|Hr]; [done|]. specialize (Hq r Hr). lia.
  - done.
  - apply List.Forall_forall. intros r Hr.
    apply (Permutation_in _ (Permutation_sym (insert_point_perm p l))) in Hr as [<-|Hr]; [lia|auto].
Qed.

Lemma insertion_sort_sorts : sorts insertion_sort.
Proof.
  intros l. induction l as [|p l [Hperm Hs]]; cbn; [split; constructor|]. split.
  - rewrite <-insert_point_perm. by apply perm_skip.
  - by apply insert_point_sorted.
Qed.

Lemma Hash_hashes : hashes Hash.
Proof.
  intros t. unfold Hash, MurmurHash2. rewrite Z.ltb_irrefl. destruct (murmur_loop _ _) as [h rest].
  eexists. split; [done|]. apply murmur_final_u32.
Qed.

Definition demo_ring : Continuum :=
  Add (b! "c:3") 1 (Add (b! "a:1") 2 (Add (b! "b:2") 2 (new_continuum (b! "demo")))).

Lemma demo_ring_ok : servers_ok (desc_map_ demo_ring).
Proof.
  repeat apply Add_servers_ok; try (apply short_keys_fit; vm_compute; lia);
    try (unfold is_u32; lia). constructor.
Qed.

Lemma Rebuild_then_Locate_witness :
  exists c', Rebuild Hash insertion_sort demo_ring = Ret (true, c') /\
    desc_map_ c' = desc_map_ demo_ring /\
    Permutation (points_ c') (ring_points Hash (desc_map_ demo_ring)) /\
    StronglySorted by_point (points_ c') /\
    forall h, is_u32 h ->
      exists p, Locate h c' = desc_ p /\
        first_clockwise h p (ring_points Hash (desc_map_ demo_ring)).
Proof.
  apply (Rebuild_then_Locate Hash insertion_sort demo_ring).
  - exact Hash_hashes.
  - exact insertion_sort_sorts.
  - exact demo_ring_ok.
  - vm_compute. discriminate.
Defined.

Lemma Remove_moves_only_its_keys_witness :
  exists c1 c2, Rebuild Hash insertion_sort demo_ring = Ret (true, c1) /\
    Rebuild Hash insertion_sort (Remove (b! "b:2") c1).2 = Ret (true, c2) /\
    forall h, is_u32 h -> Locate h c2 <> b! "b:2" /\
      (Locate h c1 <> b! "b:2" -> Locate h c2 = Locate h c1).
Proof.
  apply (Remove_moves_only_its_keys Hash insertion_sort demo_ring (b! "b:2")).
  - exact Hash_hashes.
  - exact insertion_sort_sorts.
  - exact demo_ring_ok.
  - vm_compute. discriminate.
  - vm_compute. discriminate.
  - apply (bool_decide_unpack _). vm_compute. exact I.
Defined.

Lemma cstr_nonzero t : Forall (fun x => x <> 0) t -> cstr t = t.
Proof.
  induction 1 as [|x t Hx _ IH]; [done|]. cbn. apply Z.eqb_neq in Hx. by rewrite Hx, IH.
Qed.

Lemma format_x_digit k : 0 <= k < 16 -> exists d, format_x k = [d].
Proof.
  intros Hk. unfold format_x. cbn [hex_digits]. assert ((k <? 16) = true) as -> by (apply Z.ltb_lt; lia).
  by eexists.
Qed.

Lemma point_key_long desc :
  Forall (fun x => x <> 0) desc -> (20 <= length desc)%nat -> point_key desc 0 = Crash.
Proof.
  intros Hd Hlen. unfold point_key. rewrite cstr_nonzero by done.
  set (text := desc ++ _). assert (length text = length desc + 2)%nat as Htext.
  { unfold text. by rewrite length_app. }
  unfold big_enough. destruct (Nat.ltb_spec (length text) 21); [lia|].
  destruct (Nat.eqb_spec (length text) 21); [lia|done].
Qed.

(**  The buffer for the text [<desc>-<k>] has 21 bytes.  A server named by 20
    characters or more (an address such as 192.168.100.100:11211 has 21) makes
    [Rebuild] hash bytes beyond it; one named by 19 characters has the digit cut off,
    so that its first sixteen points fall on one position. *)
Theorem Rebuild_overruns_buf func sort desc capacity :
  Forall (fun x => x <> 0) desc -> 0 < capacity < 2 ^ 32 ->
  ((20 <= length desc)%nat ->
    Rebuild func sort (Add desc capacity (new_continuum [])) = Crash) /\
  (length desc = 19%nat ->
    forall k, 0 <= k < 16 -> point_key desc k = Ret (desc ++ [45; 0])).
Proof.
  intros Hd Hcap. split.
  - intros Hlen. unfold Rebuild, Add, new_continuum. cbn [desc_map_ map_assign].
    assert ((total_point [(desc, capacity)] =? 0) = false) as ->.
    { apply Z.eqb_neq. cbn. unfold u32. rewrite Z.mod_small; lia. }
    cbn [omap_list]. unfold server_points. cbn [fst snd].
    destruct (Z.to_nat capacity) as [|n] eqn:Hn; [lia|]. cbn [seq omap_list].
    by rewrite point_key_long.
  - intros Hlen k Hk. destruct (format_x_digit k Hk) as [d Hdig].
    unfold point_key. rewrite cstr_nonzero, Hdig by done.
    assert (length (desc ++ [45%Z] ++ [d]) = 21%nat) as ->.
    { rewrite length_app, Hlen. done. }
    change (Ret (take 20 (desc ++ [45; d]) ++ [0]) = Ret (desc ++ [45; 0])).
    rewrite (take_app_ge _ _ 20) by lia. rewrite Hlen. cbn [Nat.sub take]. by rewrite <-app_assoc.
Qed.

Lemma Rebuild_overruns_buf_witness :
  (let desc := b! "192.168.100.100:11211" in
    Rebuild Hash insertion_sort (Add desc 3 (new_continuum [])) = Crash) /\
  point_key (b! "192.168.10.10:11211") 7 = Ret (b! "192.168.10.10:11211" ++ [45; 0]).
Proof.
  split.
  - apply (Rebuild_overruns_buf Hash insertion_sort (b! "192.168.100.100:11211") 3).
    + by apply (bool_decide_unpack _).
    + lia.
    + vm_compute. lia.
  - apply (Rebuild_overruns_buf Hash insertion_sort (b! "192.168.10.10:11211") 3).
    + by apply (bool_decide_unpack _).
    + lia.
    + done.
    + lia.
Defined.

