(* ===== verification/BaseCache.v ===== *)
(** The least-recently-used cache: the template [HashCache] of src/base/cache.h.  Each
    operation holds [mutex_] for its whole body, except [Locate], which takes it twice
    and calls [Creator] in between; what threads do is therefore a sequence of the
    steps [touch], [Insert], [Erase] and [Replace]. *)
From Stdlib Require Import ZArith Lia Bool.
From stdpp Require Import base list numbers gmap fin_maps relations.
From S2P Require Import Prelude.

Section HashCache.
Context {K : Type} `{Countable K} {V : Type}.
Variable Creator : K -> option V.
(** [Value ()]. *)
Variable default_value : V.

(** ** Code *)

(** [list_] holds the nodes, oldest first, each with its identity, the key and the
    value; [map_] holds the iterators.  [posted_] counts the calls of [Replace] handed
    to [Post] that have not run. *)
Record HashCache := mkCache {
  list_ : list (nat * (K * V));
  map_ : gmap K nat;
  max_size_ : Z;
  replacing_ : bool;
  fresh_ : nat;
  posted_ : nat
}.

Definition new_cache (max_size : Z) : HashCache := mkCache [] ∅ max_size false 0 0.

(** Taking the node an iterator points to out of the list. *)
Fixpoint unlink (n : nat) (l : list (nat * (K * V))) : option (K * V * list (nat * (K * V))) :=
  match l with
  | [] => None
  | (m, x) :: l =>
      if (m =? n)%nat then Some (x, l)
      else match unlink n l with Some (y, l') => Some (y, (m, x) :: l') | None => None end
  end.

Definition set_list (l : list (nat * (K * V))) (c : HashCache) : HashCache :=
  mkCache l (map_ c) (max_size_ c) (replacing_ c) (fresh_ c) (posted_ c).

(** The locked lookup that [Locate] and [Find] begin with: a node that is found moves to
    the end of the list. *)
Definition touch (key : K) (c : HashCache) : outcome (option V * HashCache) :=
  match map_ c !! key with
  | None => Ret (None, c)
  | Some n =>
      match unlink n (list_ c) with
      | Some (x, l) => Ret (Some x.2, set_list (l ++ [(n, x)]) c)
      | None => Crash
      end
  end.

Definition cache_size (c : HashCache) : Z := Z.of_nat (base.size (map_ c)).

Definition exceed (c : HashCache) : bool :=
  (max_size_ c <? cache_size c) && (max_size_ c / 10 <? cache_size c - max_size_ c).

Definition Insert (key : K) (v : V) (c : HashCache) : HashCache :=
  let c := mkCache (list_ c ++ [(fresh_ c, (key, v))]) (<[key := fresh_ c]> (map_ c))
             (max_size_ c) (replacing_ c) (S (fresh_ c)) (posted_ c) in
  if negb (replacing_ c) && exceed c then
    mkCache (list_ c) (map_ c) (max_size_ c) true (fresh_ c) (S (posted_ c))
  else c.

Definition Find (key : K) (c : HashCache) : outcome (V * HashCache) :=
  let! (found, c) := touch key c in
  Ret (match found with Some v => v | None => default_value end, c).

Definition Locate (key : K) (c : HashCache) : outcome (V * HashCache) :=
  let! (found, c) := touch key c in
  match found with
  | Some v => Ret (v, c)
  | None =>
      match Creator key with
      | Some v => Ret (v, Insert key v c)
      | None => Ret (default_value, c)
      end
  end.

Definition Erase (key : K) (c : HashCache) : outcome HashCache :=
  match map_ c !! key with
  | None => Ret c
  | Some n =>
      match unlink n (list_ c) with
      | Some (_, l) =>
          Ret (mkCache l (delete key (map_ c)) (max_size_ c) (replacing_ c) (fresh_ c) (posted_ c))
      | None => Crash
      end
  end.

(** [map_.erase (i->first)] for each node that is dropped. *)
Definition erase_keys (l : list (nat * (K * V))) (m : gmap K nat) : gmap K nat :=
  fold_left (fun m x => delete x.2.1 m) l m.

(** [count] is a [size_t]; [std::advance] may not leave the list. *)
Definition Replace (c : HashCache) : outcome (Z * HashCache) :=
  let count := u64 (cache_size c - max_size_ c) in
  if Z.of_nat (length (list_ c)) <? count then Crash
  else
    let n := Z.to_nat count in
    Ret (count, mkCache (drop n (list_ c)) (erase_keys (take n (list_ c)) (map_ c))
                  (max_size_ c) false (fresh_ c) (posted_ c)).

(** ** Threads *)

(** One step of some thread, or of the queue that runs the posted calls. *)
Inductive cstep : HashCache -> HashCache -> Prop :=
| step_touch k v c c' : touch k c = Ret (v, c') -> cstep c c'
| step_insert k v c : cstep c (Insert k v c)
| step_erase k c c' : Erase k c = Ret c' -> cstep c c'
| step_replace n c c' p :
    posted_ c = S p -> Replace c = Ret (n, c') ->
    cstep c (mkCache (list_ c') (map_ c') (max_size_ c') (replacing_ c') (fresh_ c') p).

Definition reachable (max_size : Z) (c : HashCache) : Prop := rtc cstep (new_cache max_size) c.

(** ** Invariant *)

(** Whatever the order of the steps: node identities are distinct, every iterator in
    the map points to a live node of its key, and at most one [Replace] is posted. *)
Record cache_wf (c : HashCache) : Prop := {
  wf_ids : NoDup (map fst (list_ c));
  wf_fresh : forall n x, In (n, x) (list_ c) -> (n < fresh_ c)%nat;
  wf_live : forall k n, map_ c !! k = Some n -> exists v, In (n, (k, v)) (list_ c);
  wf_posted : posted_ c = if replacing_ c then 1%nat else 0%nat
}.

Lemma unlink_in n x l :
  NoDup (map fst l) -> In (n, x) l ->
  exists l1 l2, l = l1 ++ (n, x) :: l2 /\ unlink n l = Some (x, l1 ++ l2).
Proof.
  induction l as [|[m y] l IH]; intros Hnd Hin; [done|]. cbn [map fst] in Hnd.
  apply NoDup_cons in Hnd as [Hm Hnd]. cbn [unlink].
  destruct (Nat.eqb_spec m n) as [->|Hne].
  - destruct Hin as [[= ->]|Hin]; [by exists [], l|]. exfalso. apply Hm.
    apply list_elem_of_In. by apply (in_map fst) in Hin.
  - destruct Hin as [[= -> ->]|Hin]; [done|]. destruct (IH Hnd Hin) as (l1 & l2 & -> & Hu).
    rewrite Hu. by exists ((m, y) :: l1), l2.
Qed.

Lemma unlink_some n x l l' :
  unlink n l = Some (x, l') -> exists l1 l2, l = l1 ++ (n, x) :: l2 /\ l' = l1 ++ l2.
Proof.
  revert l'. induction l as [|[m y] l IH]; intros l'; [done|]. cbn [unlink].
  destruct (Nat.eqb_spec m n) as [->|Hne].
  - intros [= -> ->]. by exists [], l'.
  - destruct (unlink n l) as [[z l0]|]; [|done]. intros [= -> <-].
    destruct (IH _ eq_refl) as (l1 & l2 & -> & ->). by exists ((m, y) :: l1), l2.
Qed.

Lemma wf_unlink c k n :
  cache_wf c -> map_ c !! k = Some n ->
  exists v l1 l2, list_ c = l1 ++ (n, (k, v)) :: l2 /\ unlink n (list_ c) = Some ((k, v), l1 ++ l2).
Proof.
  intros Hwf Hk. destruct (wf_live c Hwf k n Hk) as [v Hin].
  destruct (unlink_in n (k, v) (list_ c) (wf_ids c Hwf) Hin) as (l1 & l2 & H1 & H2).
  by exists v, l1, l2.
Qed.

Lemma in_erase_keys l m k n :
  erase_keys l m !! k = Some n <-> m !! k = Some n /\ forall x, In x l -> x.2.1 <> k.
Proof.
  unfold erase_keys. revert m. induction l as [|x l IH]; intros m; cbn [fold_left].
  - split; [by intros ?|by intros [? _]].
  - rewrite IH, lookup_delete_Some. split.
    + intros ((Hx & Hm) & Hl). split; [done|]. intros y [<-|Hy]; auto.
    + intros (Hm & Hl). split_and!; [apply Hl; by left|done|]. intros y Hy. apply Hl. by right.
Qed.

(** *** Each step keeps it *)

Lemma wf_new max_size : cache_wf (new_cache max_size).
Proof. by constructor; [constructor|..]. Qed.

Lemma touch_wf k v c c' : cache_wf c -> touch k c = Ret (v, c') -> cache_wf c'.
Proof.
  intros Hwf. unfold touch. destruct (map_ c !! k) as [n|] eqn:Hk; [|by intros [= _ <-]].
  destruct (wf_unlink c k n Hwf Hk) as (w & l1 & l2 & Hl & ->). intros [= _ <-].
  assert (Hperm : Permutation ((l1 ++ l2) ++ [(n, (k, w))]) (list_ c)).
  { rewrite Hl, <-app_assoc. apply Permutation_app_head. by rewrite Permutation_app_comm. }
  destruct Hwf as [Hids Hfresh Hlive Hposted]. constructor; cbn [set_list list_ map_ fresh_ posted_ replacing_].
  - by rewrite (Permutation_map fst Hperm).
  - intros m x Hin. apply (Hfresh m x). by apply (Permutation_in _ Hperm).
  - intros k' n' Hk'. destruct (Hlive k' n' Hk') as [v' Hin]. exists v'.
    by apply (Permutation_in _ (Permutation_sym Hperm)).
  - done.
Qed.

Lemma Insert_wf k v c : cache_wf c -> cache_wf (Insert k v c).
Proof.
  intros [Hids Hfresh Hlive Hposted]. unfold Insert.
  assert (Hwf : cache_wf (mkCache (list_ c ++ [(fresh_ c, (k, v))]) (<[k := fresh_ c]> (map_ c))
             (max_size_ c) (replacing_ c) (S (fresh_ c)) (posted_ c))).
  { constructor; cbn [list_ map_ fresh_ posted_ replacing_].
    - rewrite map_app. cbn. apply NoDup_app. split_and!; [done| |by apply NoDup_singleton].
      intros m Hm Hm'. apply list_elem_of_singleton in Hm'.
      apply list_elem_of_In, in_map_iff in Hm as ([m0 x] & Hm & Hin).
      specialize (Hfresh m0 x Hin). cbn in Hm. lia.
    - intros m x Hin. apply in_app_or in Hin as [Hin|[Heq|[]]]; [|injection Heq as Hm _; lia].
      specialize (Hfresh m x Hin). lia.
    - intros k' n' Hk'. destruct (decide (k = k')) as [<-|Hne].
      + rewrite lookup_insert_eq in Hk'. injection Hk' as Hn'. rewrite <-Hn'. exists v. apply in_or_app. right. by left.
      + rewrite lookup_insert_ne in Hk' by done. destruct (Hlive k' n' Hk') as [v' Hin].
        exists v'. apply in_or_app. by left.
    - done. }
  destruct (negb _ && _) eqn:Hpost; [|done]. apply andb_prop in Hpost as [Hr _].
  destruct Hwf as [H1 H2 H3 H4]. cbn [replacing_] in Hr. constructor; try done.
  cbn [posted_ replacing_] in *. by destruct (replacing_ c); rewrite H4.
Qed.

Lemma Erase_wf k c c' : cache_wf c -> Erase k c = Ret c' -> cache_wf c'.
Proof.
  intros Hwf. unfold Erase. destruct (map_ c !! k) as [n|] eqn:Hk; [|by intros [= <-]].
  destruct (wf_unlink c k n Hwf Hk) as (w & l1 & l2 & Hl & ->). intros [= <-].
  destruct Hwf as [Hids Hfresh Hlive Hposted]. rewrite Hl in *.
  assert (Hsub : forall x, In x (l1 ++ l2) -> In x (l1 ++ (n, (k, w)) :: l2)).
  { intros x [Hx|Hx]%in_app_or; apply in_or_app; [by left|]. right. by right. }
  constructor; cbn [list_ map_ fresh_ posted_ replacing_].
  - rewrite map_app in Hids |- *. cbn in Hids. apply NoDup_app in Hids as (H1 & H2 & H3).
    apply NoDup_cons in H3 as [H3 H4]. apply NoDup_app. split_and!; [done| |done].
    intros x Hx Hx'. apply (H2 x Hx). by right.
  - intros m x Hin. by apply (Hfresh m x), Hsub.
  - intros k' n' [Hne Hk']%lookup_delete_Some. destruct (Hlive k' n' Hk') as [v' Hin].
    exists v'. apply in_app_or in Hin as [Hin|[[= -> -> ->]|Hin]]; [|done|]; apply in_or_app; auto.
  - done.
Qed.

Lemma Replace_wf n c c' p :
  cache_wf c -> posted_ c = S p -> Replace c = Ret (n, c') ->
  cache_wf (mkCache (list_ c') (map_ c') (max_size_ c') (replacing_ c') (fresh_ c') p).
Proof.
  intros [Hids Hfresh Hlive Hposted] Hp. unfold Replace. set (count := u64 _).
  destruct (Z.ltb_spec (Z.of_nat (length (list_ c))) count); [done|]. intros [= _ <-].
  set (m := Z.to_nat count).
  constructor; cbn [list_ map_ fresh_ posted_ replacing_].
  - rewrite <-(take_drop m (list_ c)) in Hids. rewrite map_app in Hids. by apply NoDup_app in Hids as (_ & _ & ?).
  - intros j x Hin. apply (Hfresh j x). rewrite <-(take_drop m (list_ c)). apply in_or_app. by right.
  - intros k j [Hk Hno]%in_erase_keys. destruct (Hlive k j Hk) as [v Hin]. exists v.
    rewrite <-(take_drop m (list_ c)) in Hin. apply in_app_or in Hin as [Hin|Hin]; [|done].
    by apply Hno in Hin.
  - destruct (replacing_ c); lia.
Qed.

Lemma cstep_wf c c' : cstep c c' -> cache_wf c -> cache_wf c'.
Proof.
  intros [k v c0 c1 Ht|k v c0|k c0 c1 He|n c0 c1 p Hp Hr] Hwf.
  - by eapply touch_wf.
  - by apply Insert_wf.
  - by eapply Erase_wf.
  - by eapply Replace_wf.
Qed.

Lemma cstep_max_size c c' : cstep c c' -> max_size_ c' = max_size_ c.
Proof.
  intros [k v c0 c1 Ht|k v c0|k c0 c1 He|n c0 c1 p Hp Hr]; cbn.
  - unfold touch in Ht. destruct (map_ c0 !! k); [|by injection Ht as _ <-].
    destruct (unlink _ _) as [[x l]|]; [|done]. by injection Ht as _ <-.
  - unfold Insert. by destruct (_ && _).
  - unfold Erase in He. destruct (map_ c0 !! k); [|by injection He as <-].
    destruct (unlink _ _) as [[x l]|]; [|done]. by injection He as <-.
  - unfold Replace in Hr. destruct (_ <? _); [done|]. by injection Hr as _ <-.
Qed.

Lemma steps_wf a c : rtc cstep a c -> cache_wf a -> cache_wf c /\ max_size_ c = max_size_ a.
Proof.
  induction 1 as [a|a b c Hab _ IH]; [done|]. intros Hwf.
  rewrite <-(cstep_max_size a b Hab). apply IH. by eapply cstep_wf.
Qed.

Lemma reachable_wf max_size c : reachable max_size c -> cache_wf c /\ max_size_ c = max_size.
Proof. intros Hr. apply (steps_wf _ _ Hr), wf_new. Qed.

(** ** The map a cache implements *)

Definition node_value (n : nat) (l : list (nat * (K * V))) : option V :=
  match unlink n l with Some (x, _) => Some x.2 | None => None end.

Definition view (c : HashCache) : gmap K V := omap (fun n => node_value n (list_ c)) (map_ c).

Lemma view_spec c k v :
  cache_wf c -> view c !! k = Some v <-> exists n, map_ c !! k = Some n /\ In (n, (k, v)) (list_ c).
Proof.
  intros Hwf. unfold view. rewrite lookup_omap_Some. split.
  - intros (n & Hv & Hk). exists n. split; [done|].
    destruct (wf_unlink c k n Hwf Hk) as (w & l1 & l2 & Hl & Hu).
    unfold node_value in Hv. rewrite Hu in Hv. injection Hv as <-.
    rewrite Hl. apply in_or_app. right. by left.
  - intros (n & Hk & Hin). exists n. split; [|done].
    destruct (unlink_in n (k, v) (list_ c) (wf_ids c Hwf) Hin) as (l1 & l2 & _ & Hu).
    unfold node_value. by rewrite Hu.
Qed.

(** Two well-formed caches hold the same when their nodes and iterators agree. *)
Lemma view_ext c (m : gmap K V) :
  cache_wf c ->
  (forall k v, m !! k = Some v <-> exists n, map_ c !! k = Some n /\ In (n, (k, v)) (list_ c)) ->
  view c = m.
Proof.
  intros Hwf Hm. apply map_eq. intros k. apply option_eq. intros v. by rewrite view_spec, Hm.
Qed.

Lemma wf_in_inj c n x y : cache_wf c -> In (n, x) (list_ c) -> In (n, y) (list_ c) -> x = y.
Proof.
  intros Hwf Hx Hy. destruct (unlink_in n x _ (wf_ids c Hwf) Hx) as (? & ? & _ & H1).
  destruct (unlink_in n y _ (wf_ids c Hwf) Hy) as (? & ? & _ & H2). congruence.
Qed.

Lemma touch_spec k c :
  cache_wf c -> exists c', touch k c = Ret (view c !! k, c') /\ view c' = view c.
Proof.
  intros Hwf. destruct (touch k c) as [[v c']| |] eqn:Ht.
  - exists c'. pose proof (touch_wf k v c c' Hwf Ht) as Hwf'. unfold touch in Ht.
    destruct (map_ c !! k) as [n|] eqn:Hk.
    + destruct (wf_unlink c k n Hwf Hk) as (w & l1 & l2 & Hl & Hu). rewrite Hu in Ht.
      injection Ht as <- <-. split.
      * do 2 f_equal. symmetry. apply view_spec; [done|]. exists n. split; [done|].
        rewrite Hl. apply in_or_app. right. by left.
      * apply view_ext; [done|]. intros k' v'. rewrite view_spec by done. cbn [set_list map_ list_].
        split; intros (n' & Hk' & Hin); exists n'; (split; [done|]); rewrite Hl in *.
        -- apply in_app_or in Hin as [Hin|[Hin|Hin]]; rewrite !in_app_iff; cbn; auto.
        -- rewrite !in_app_iff in Hin. rewrite in_app_iff. cbn in Hin |- *.
           destruct Hin as [[Hin|Hin]|[Hin|[]]]; auto.
    + injection Ht as <- <-. split; [|done]. do 2 f_equal. unfold view. by rewrite lookup_omap, Hk.
  - unfold touch in Ht. destruct (map_ c !! k) as [n|] eqn:Hk; [|done].
    destruct (wf_unlink c k n Hwf Hk) as (w & l1 & l2 & Hl & Hu). by rewrite Hu in Ht.
  - unfold touch in Ht. destruct (map_ c !! k) as [n|]; [|done]. by destruct (unlink _ _) as [[x l]|].
Qed.

Lemma Insert_view k v c : cache_wf c -> view (Insert k v c) = <[k := v]> (view c).
Proof.
  intros Hwf. pose proof (Insert_wf k v c Hwf) as Hwf'. apply view_ext; [done|].
  intros k' v'. rewrite lookup_insert_Some, view_spec by done.
  assert (map_ (Insert k v c) = <[k := fresh_ c]> (map_ c)) as ->.
  { unfold Insert. by destruct (_ && _). }
  assert (list_ (Insert k v c) = list_ c ++ [(fresh_ c, (k, v))]) as ->.
  { unfold Insert. by destruct (_ && _). }
  split.
  - intros [[<- <-]|(Hne & n & Hk & Hin)].
    + exists (fresh_ c). rewrite lookup_insert_eq, in_app_iff. split; [done|]. right. by left.
    + exists n. rewrite lookup_insert_ne, in_app_iff by done. by split; [|left].
  - intros (n & Hk & Hin). apply in_app_or in Hin as [Hin|[Heq|[]]].
    + right. apply lookup_insert_Some in Hk as [[<- <-]|[Hne Hk]].
      * exfalso. pose proof (wf_fresh c Hwf _ _ Hin). lia.
      * split; [done|]. by exists n.
    + injection Heq as _ <- <-. by left.
Qed.

Lemma Erase_spec k c :
  cache_wf c -> exists c', Erase k c = Ret c' /\ view c' = delete k (view c).
Proof.
  intros Hwf. destruct (map_ c !! k) as [n|] eqn:Hk.
  - destruct (wf_unlink c k n Hwf Hk) as (w & l1 & l2 & Hl & Hu).
    eexists. assert (He : Erase k c = Ret _) by (unfold Erase; rewrite Hk, Hu; reflexivity).
    split; [exact He|]. apply view_ext; [by eapply Erase_wf|]. cbn [map_ list_].
    intros k' v'. rewrite lookup_delete_Some, view_spec, Hl by done. split.
    + intros (Hne & n' & Hk' & Hin). exists n'. rewrite lookup_delete_ne by done. split; [done|].
      rewrite in_app_iff in Hin |- *. destruct Hin as [Hin|[[= _ Heq _]|Hin]]; auto; done.
    + intros (n' & [Hne Hk']%lookup_delete_Some & Hin). split; [done|]. exists n'. split; [done|].
      rewrite in_app_iff in Hin |- *. cbn. destruct Hin; auto.
  - exists c. unfold Erase. rewrite Hk. split; [done|]. rewrite delete_id; [done|].
    unfold view. by rewrite lookup_omap, Hk.
Qed.

Lemma size_list_to_set_le (l : list K) : (base.size (list_to_set l : gset K) <= length l)%nat.
Proof.
  induction l as [|x l IH]; cbn [list_to_set length].
  - by rewrite size_empty.
  - pose proof (size_union_alt ({[x]} : gset K) (list_to_set l)) as Hs.
    rewrite size_singleton in Hs.
    assert (base.size (list_to_set l ∖ {[x]} : gset K) <= base.size (list_to_set l : gset K))%nat.
    { apply subseteq_size. by apply subseteq_difference_l. }
    unfold base.union in *. lia.
Qed.

Lemma map_size_le c : cache_wf c -> (base.size (map_ c) <= length (list_ c))%nat.
Proof.
  intros Hwf. rewrite <-size_dom, <-(length_map (fun x => x.2.1) (list_ c)).
  etrans; [|apply size_list_to_set_le]. apply subseteq_size. intros k [n Hk]%elem_of_dom.
  apply elem_of_list_to_set, list_elem_of_In. destruct (wf_live c Hwf k n Hk) as [v Hin].
  by apply (in_map (fun x => x.2.1)) in Hin.
Qed.

Definition size_t_ok (max_size : Z) (c : HashCache) : Prop :=
  0 <= max_size /\ Z.of_nat (length (list_ c)) + max_size < 2 ^ 64.

(** [Replace] below the bound: the difference of sizes wraps around. *)
Lemma Replace_underflow c :
  cache_wf c -> size_t_ok (max_size_ c) c -> cache_size c < max_size_ c -> Replace c = Crash.
Proof.
  intros Hwf [Hm Hlen] Hlt. unfold Replace, u64. pose proof (map_size_le c Hwf). unfold cache_size in *.
  rewrite <-(Z_mod_plus_full _ 1), Z.mod_small by lia.
  destruct (Z.ltb_spec (Z.of_nat (length (list_ c)))
    (Z.of_nat (base.size (map_ c)) - max_size_ c + 1 * 2 ^ 64)); [done|lia].
Qed.

Lemma Replace_value c :
  cache_wf c -> size_t_ok (max_size_ c) c -> max_size_ c <= cache_size c ->
  let n := Z.to_nat (cache_size c - max_size_ c) in
  Replace c = Ret (cache_size c - max_size_ c,
    mkCache (drop n (list_ c)) (erase_keys (take n (list_ c)) (map_ c))
      (max_size_ c) false (fresh_ c) (posted_ c)).
Proof.
  intros Hwf [Hm Hlen] Hle. unfold Replace, u64. pose proof (map_size_le c Hwf). unfold cache_size in *.
  rewrite Z.mod_small by lia.
  destruct (Z.ltb_spec (Z.of_nat (length (list_ c)))
    (Z.of_nat (base.size (map_ c)) - max_size_ c)); [lia|done].
Qed.

Lemma erase_keys_size l (m : gmap K nat) : (base.size m <= base.size (erase_keys l m) + length l)%nat.
Proof.
  unfold erase_keys. revert m. induction l as [|x l IH]; intros m; cbn [fold_left length]; [lia|].
  specialize (IH (delete x.2.1 m)). enough (base.size m <= S (base.size (delete x.2.1 m)))%nat by lia.
  rewrite map_size_delete. destruct (m !! x.2.1); unfold id; lia.
Qed.

Lemma Replace_spec c :
  cache_wf c -> size_t_ok (max_size_ c) c -> max_size_ c <= cache_size c ->
  exists c', Replace c = Ret (cache_size c - max_size_ c, c') /\
    view c' ⊆ view c /\ max_size_ c <= cache_size c'.
Proof.
  intros Hwf Hs Hle. pose proof (map_size_le c Hwf) as Hsize.
  eexists. split; [by apply Replace_value|]. split.
  - apply map_subseteq_spec. intros k v. unfold view at 1. rewrite lookup_omap_Some.
    cbn [map_ list_]. intros (n & Hv & Hk). apply in_erase_keys in Hk as [Hk _].
    apply view_spec; [done|]. exists n. split; [done|]. unfold node_value in Hv.
    destruct (unlink _ _) as [[x l]|] eqn:Hu; [|done]. injection Hv as <-.
    apply unlink_some in Hu as (l1 & l2 & Hd & _).
    destruct (wf_live c Hwf k n Hk) as [w Hin].
    assert (Hx : In (n, x) (list_ c)).
    { rewrite <-(take_drop (Z.to_nat (cache_size c - max_size_ c)) (list_ c)), Hd, !in_app_iff.
      right. right. by left. }
    by rewrite (wf_in_inj c n _ _ Hwf Hx Hin) in Hx |- *.
  - unfold cache_size in *. cbn [map_].
    set (n := Z.to_nat _). pose proof (erase_keys_size (take n (list_ c)) (map_ c)) as Hz.
    rewrite length_take in Hz. lia.
Qed.

Lemma Locate_spec k c :
  cache_wf c ->
  exists c', Locate k c =
      Ret (match view c !! k with Some v => v | None => default default_value (Creator k) end, c') /\
    view c' = match view c !! k, Creator k with
              | None, Some v => <[k := v]> (view c)
              | _, _ => view c
              end.
Proof.
  intros Hwf. unfold Locate. destruct (touch_spec k c Hwf) as (c' & Ht & Hv). rewrite Ht. cbn [obind].
  destruct (view c !! k) as [v|]; [by exists c'|].
  destruct (Creator k) as [v|]; cbn; [|by exists c'].
  exists (Insert k v c'). split; [done|]. rewrite Insert_view, Hv; [done|]. by eapply touch_wf.
Qed.

(** C30.  Under every interleaving of its locked sections the cache is a partial map:
    looking a key up returns the value inserted last, unless it was erased or replaced,
    and never follows a dead iterator; [Locate] fills a missing key from [Creator];
    [Erase] removes the key; [Replace] only drops keys, and leaves at least [max_size_].
    A [Replace] that runs when the cache is smaller than [max_size_] walks off the
    list. *)
Theorem cache_implements_map max_size c :
  reachable max_size c -> size_t_ok max_size c ->
  (forall k, exists c', Find k c = Ret (default default_value (view c !! k), c') /\ view c' = view c) /\
  (forall k, exists c', Locate k c =
      Ret (match view c !! k with Some v => v | None => default default_value (Creator k) end, c') /\
    view c' = match view c !! k, Creator k with
              | None, Some v => <[k := v]> (view c)
              | _, _ => view c
              end) /\
  (forall k v, view (Insert k v c) = <[k := v]> (view c)) /\
  (forall k, exists c', Erase k c = Ret c' /\ view c' = delete k (view c)) /\
  (max_size <= cache_size c ->
    exists c', Replace c = Ret (cache_size c - max_size, c') /\
      view c' ⊆ view c /\ max_size <= cache_size c') /\
  (cache_size c < max_size -> Replace c = Crash).
Proof.
  intros Hr Hs. destruct (reachable_wf max_size c Hr) as [Hwf Hmax]. subst max_size. split_and!.
  - intros k. destruct (touch_spec k c Hwf) as (c' & Ht & Hv). exists c'.
    unfold Find. rewrite Ht. cbn [obind]. split; [|done]. by destruct (view c !! k).
  - intros k. by apply Locate_spec.
  - intros k v. by apply Insert_view.
  - intros k. by apply Erase_spec.
  - by apply Replace_spec.
  - by apply Replace_underflow.
Qed.

(** ** The order of use *)

(** The keys and values of the list, the oldest first. *)
Definition entries (c : HashCache) : list (K * V) := map snd (list_ c).

(** No thread inserts a key that is present. *)
Inductive dstep : HashCache -> HashCache -> Prop :=
| dstep_touch k v c c' : touch k c = Ret (v, c') -> dstep c c'
| dstep_insert k v c : map_ c !! k = None -> dstep c (Insert k v c)
| dstep_erase k c c' : Erase k c = Ret c' -> dstep c c'
| dstep_replace n c c' p :
    posted_ c = S p -> Replace c = Ret (n, c') ->
    dstep c (mkCache (list_ c') (map_ c') (max_size_ c') (replacing_ c') (fresh_ c') p).

(** Then every node of the list is the one its key is mapped to. *)
Definition tidy (c : HashCache) : Prop :=
  cache_wf c /\ forall n k v, In (n, (k, v)) (list_ c) -> map_ c !! k = Some n.

Lemma dstep_cstep c c' : dstep c c' -> cstep c c'.
Proof.
  intros [k v c0 c1 Ht|k v c0 _|k c0 c1 He|n c0 c1 p Hp Hr];
    [by eapply step_touch|by apply step_insert|by eapply step_erase|by eapply step_replace].
Qed.

Lemma dstep_tidy c c' : dstep c c' -> tidy c -> tidy c'.
Proof.
  intros Hd [Hwf Ht]. split; [by apply (cstep_wf c); [apply dstep_cstep|]|].
  destruct Hd as [k v c c' Htouch|k v c Hk|k c c' He|n c c' p Hp Hr].
  - unfold touch in Htouch. destruct (map_ c !! k) as [n|] eqn:Hk; [|by injection Htouch as _ <-].
    destruct (wf_unlink c k n Hwf Hk) as (w & l1 & l2 & Hl & Hu). rewrite Hu in Htouch.
    injection Htouch as _ <-. intros n' k' v' Hin. cbn [set_list list_ map_] in *. apply (Ht n' k' v').
    rewrite Hl, in_app_iff. rewrite !in_app_iff in Hin. cbn in Hin |- *.
    destruct Hin as [[Hin|Hin]|[Hin|[]]]; auto.
  - assert (map_ (Insert k v c) = <[k := fresh_ c]> (map_ c)) as ->.
    { unfold Insert. by destruct (_ && _). }
    assert (list_ (Insert k v c) = list_ c ++ [(fresh_ c, (k, v))]) as ->.
    { unfold Insert. by destruct (_ && _). }
    intros n' k' v' [Hin|[[= <- <- _]|[]]]%in_app_or; [|by apply lookup_insert_eq].
    rewrite lookup_insert_ne; [by eapply Ht|]. intros <-. by rewrite (Ht _ _ _ Hin) in Hk.
  - unfold Erase in He. destruct (map_ c !! k) as [n|] eqn:Hk; [|by injection He as <-].
    destruct (wf_unlink c k n Hwf Hk) as (w & l1 & l2 & Hl & Hu). rewrite Hu in He.
    injection He as <-. intros n' k' v' Hin. cbn [list_ map_] in *.
    assert (Hin' : In (n', (k', v')) (list_ c)).
    { rewrite Hl, in_app_iff. rewrite in_app_iff in Hin. cbn. destruct Hin; auto. }
    apply lookup_delete_Some. split; [|by eapply Ht]. intros <-.
    rewrite (Ht _ _ _ Hin') in Hk. injection Hk as ->.
    pose proof (wf_ids c Hwf) as Hids. rewrite Hl, map_app in Hids. cbn in Hids.
    rewrite <-Permutation_middle in Hids. apply NoDup_cons in Hids as [Hni _]. apply Hni.
    rewrite <-map_app. apply list_elem_of_In. by apply (in_map fst) in Hin.
  - unfold Replace in Hr. set (m := u64 _) in Hr. destruct (_ <? m); [done|]. injection Hr as _ <-.
    cbn [list_ map_]. intros n' k' v' Hin.
    pose proof (wf_ids c Hwf) as Hids. pose proof (take_drop (Z.to_nat m) (list_ c)) as Hsplit.
    assert (Hall : In (n', (k', v')) (list_ c)) by (rewrite <-Hsplit, in_app_iff; by right).
    apply in_erase_keys. split; [by eapply Ht|]. intros [j [k2 v2]] Hx Heq. cbn in Heq. subst k2.
    assert (Hj : In (j, (k', v2)) (list_ c)) by (rewrite <-Hsplit, in_app_iff; by left).
    assert (j = n') as -> by (apply Ht in Hj, Hall; congruence).
    rewrite <-Hsplit, map_app in Hids. apply NoDup_app in Hids as (_ & Hdis & _).
    apply (Hdis n').
    + apply list_elem_of_In. by apply (in_map fst) in Hx.
    + apply list_elem_of_In. by apply (in_map fst) in Hin.
Qed.

Lemma dsteps_tidy max_size c :
  rtc dstep (new_cache max_size) c -> tidy c /\ max_size_ c = max_size.
Proof.
  assert (forall a, rtc dstep a c -> tidy a -> tidy c /\ max_size_ c = max_size_ a) as Hall.
  { induction 1 as [a|a b c Hab _ IH]; [done|]. intros Ht.
    rewrite <-(cstep_max_size a b (dstep_cstep a b Hab)). apply IH. by eapply dstep_tidy. }
  intros Hr. apply (Hall _ Hr). split; [apply wf_new|done].
Qed.

Lemma tidy_keys c : tidy c -> NoDup (map fst (entries c)).
Proof.
  intros [Hwf Ht]. unfold entries. pose proof (wf_ids c Hwf) as Hids.
  assert (forall n k v n' v', In (n, (k, v)) (list_ c) -> In (n', (k, v')) (list_ c) -> n = n') as Huniq.
  { intros n k v n' v' H1%Ht H2%Ht. congruence. }
  clear Ht Hwf. induction (list_ c) as [|[n [k v]] l IH]; [constructor|]. cbn in *.
  apply NoDup_cons in Hids as [Hn Hids]. apply NoDup_cons. split.
  - intros Hk. apply list_elem_of_In, in_map_iff in Hk as ([k' v'] & Hk' & Hin). cbn in Hk'. subst k'.
    apply in_map_iff in Hin as ([n' x] & Hx & Hin). cbn in Hx. subst x.
    assert (n = n') as <- by (eapply Huniq; [by left|by right; exact Hin]).
    apply Hn, list_elem_of_In. by apply (in_map fst) in Hin.
  - apply IH; [done|]. intros n1 k1 v1 n2 v2 H1 H2. eapply Huniq; right; eassumption.
Qed.

(** The entries other than the one of a key. *)
Definition others (k : K) (l : list (K * V)) : list (K * V) :=
  List.filter (fun x => negb (bool_decide (x.1 = k))) l.

Lemma others_id k l : k ∉ map fst l -> others k l = l.
Proof.
  unfold others. induction l as [|[k' v] l IH]; intros Hk; [done|]. cbn in *.
  rewrite not_elem_of_cons in Hk. destruct Hk as [Hne Hk].
  rewrite bool_decide_eq_false_2 by congruence. cbn. by rewrite IH.
Qed.

Lemma others_middle c n k w l1 l2 :
  tidy c -> list_ c = l1 ++ (n, (k, w)) :: l2 -> others k (entries c) = map snd (l1 ++ l2).
Proof.
  intros Ht Hl. pose proof (tidy_keys c Ht) as Hnd. unfold entries in *. rewrite Hl in *.
  rewrite !map_app in *. cbn in Hnd |- *. apply NoDup_app in Hnd as (_ & Hdis & Hnd).
  apply NoDup_cons in Hnd as [Hk _]. unfold others. rewrite List.filter_app. cbn.
  rewrite bool_decide_eq_true_2 by done. cbn. f_equal.
  - apply others_id. intros Hin. apply (Hdis k Hin). by left.
  - by apply others_id.
Qed.

Lemma tidy_size c : tidy c -> cache_size c = Z.of_nat (length (entries c)).
Proof.
  intros Htidy. pose proof (tidy_keys c Htidy) as Hnd. destruct Htidy as [Hwf Ht].
  unfold cache_size, entries in *. rewrite length_map.
  enough (length (list_ c) <= base.size (map_ c))%nat by (pose proof (map_size_le c Hwf); lia).
  rewrite <-size_dom, <-(length_map snd (list_ c)), <-(length_map fst), <-(size_list_to_set (C := gset K)) by done.
  apply subseteq_size. intros k Hk.
  apply elem_of_list_to_set, list_elem_of_In, in_map_iff in Hk as ([k' v] & <- & Hin).
  apply in_map_iff in Hin as ([n x] & <- & Hin). cbn.
  apply elem_of_dom. destruct x as [k v0]. exists n. by eapply Ht.
Qed.

Lemma tidy_lookup c k v :
  tidy c -> view c !! k = Some v <-> In (k, v) (entries c).
Proof.
  intros [Hwf Ht]. rewrite view_spec by done. unfold entries. rewrite in_map_iff. split.
  - intros (n & _ & Hin). by exists (n, (k, v)).
  - intros ([n x] & Hx & Hin). cbn in Hx. subst x. exists n. split; [by eapply Ht|done].
Qed.

(** C31.  When no thread inserts a key that is present, the cache is
    least-recently-used: its list holds every key once, oldest first; using a key moves
    it to the end, [Insert] appends, [Erase] takes the key out, and [Replace] drops
    exactly the oldest entries above [max_size_]. *)
Theorem cache_is_LRU max_size c :
  rtc dstep (new_cache max_size) c -> size_t_ok max_size c ->
  NoDup (map fst (entries c)) /\ cache_size c = Z.of_nat (length (entries c)) /\
  (forall k v, view c !! k = Some v <-> In (k, v) (entries c)) /\
  (forall k v, In (k, v) (entries c) ->
    exists c', Find k c = Ret (v, c') /\ entries c' = others k (entries c) ++ [(k, v)]) /\
  (forall k v, entries (Insert k v c) = entries c ++ [(k, v)]) /\
  (forall k, exists c', Erase k c = Ret c' /\ entries c' = others k (entries c)) /\
  (max_size <= cache_size c ->
    exists c', Replace c = Ret (cache_size c - max_size, c') /\
      entries c' = drop (Z.to_nat (cache_size c - max_size)) (entries c) /\
      length (entries c') = Z.to_nat max_size).
Proof.
  intros Hr Hs. destruct (dsteps_tidy max_size c Hr) as [Ht <-]. pose proof Ht as [Hwf Hmap].
  split_and!.
  - by apply tidy_keys.
  - by apply tidy_size.
  - intros k v. by apply tidy_lookup.
  - intros k v Hin. apply in_map_iff in Hin as ([n x] & Hx & Hin). cbn in Hx. subst x.
    pose proof (Hmap _ _ _ Hin) as Hk. destruct (wf_unlink c k n Hwf Hk) as (w & l1 & l2 & Hl & Hu).
    assert ((k, v) = (k, w)) as [= <-].
    { apply (wf_in_inj c n); [done|done|]. rewrite Hl. apply in_or_app. right. by left. }
    eexists. unfold Find, touch. rewrite Hk, Hu. cbn [obind]. split; [done|].
    unfold entries at 1. cbn [set_list list_]. rewrite map_app. f_equal.
    symmetry. by eapply others_middle.
  - intros k v. unfold entries, Insert. destruct (_ && _); cbn [list_]; by rewrite map_app.
  - intros k. destruct (map_ c !! k) as [n|] eqn:Hk.
    + destruct (wf_unlink c k n Hwf Hk) as (w & l1 & l2 & Hl & Hu).
      eexists. unfold Erase. rewrite Hk, Hu. split; [done|]. unfold entries at 1. cbn [list_].
      symmetry. by eapply others_middle.
    + exists c. unfold Erase. rewrite Hk. split; [done|]. symmetry. apply others_id.
      intros Hin. apply list_elem_of_In, in_map_iff in Hin as ([k' v] & Hk' & Hin).
      apply in_map_iff in Hin as ([n x] & Hx & Hin). cbn in Hk', Hx. subst.
      by rewrite (Hmap _ _ _ Hin) in Hk.
  - intros Hle. eexists. split; [by apply Replace_value|].
    unfold entries at 1 3. cbn [list_]. rewrite <-skipn_map. split; [done|].
    pose proof (tidy_size c Ht) as Hsz. unfold entries in Hsz. rewrite length_map in Hsz.
    rewrite length_skipn, length_map. destruct Hs. lia.
Qed.

(** ** Races *)

Lemma reachable_Insert max_size k v c : reachable max_size c -> reachable max_size (Insert k v c).
Proof. intros Hr. eapply rtc_r; [exact Hr|]. apply step_insert. Qed.

Definition erased (k : K) (c : HashCache) : HashCache :=
  match Erase k c with Ret c' => c' | _ => c end.

Lemma reachable_erased max_size k c : reachable max_size c -> reachable max_size (erased k c).
Proof.
  intros Hr. unfold erased. destruct (Erase k c) as [c'| |] eqn:He; [|done|done].
  eapply rtc_r; [exact Hr|]. by eapply step_erase.
Qed.

Lemma insert_same_key k v max_size n :
  1 <= max_size ->
  let c := Nat.iter n (Insert k v) (new_cache max_size) in
  max_size_ c = max_size /\ replacing_ c = false /\ posted_ c = 0%nat /\
  length (list_ c) = n /\ base.size (map_ c) = (if decide (n = 0) then 0 else 1)%nat /\
  (n <> 0%nat -> exists m, map_ c = {[k := m]}).
Proof.
  intros Hmax. induction n as [|n IH].
  - cbn. by split_and!.
  - destruct IH as (H1 & H2 & H3 & H4 & H5 & H6). cbn [Nat.iter Nat.iter_rect nat_rect]. cbn.
    change (nat_rect _ _ _ n) with (Nat.iter n (Insert k v) (new_cache max_size)).
    set (c := Nat.iter n (Insert k v) (new_cache max_size)) in *.
    assert (Hmap : <[k := fresh_ c]> (map_ c) = {[k := fresh_ c]}).
    { destruct (decide (n = 0%nat)) as [->|Hn]; [done|]. destruct (H6 Hn) as [m ->].
      by rewrite insert_singleton_eq. }
    unfold Insert. cbn [list_ map_ replacing_ max_size_ posted_ fresh_].
    assert (He : exceed (mkCache (list_ c ++ [(fresh_ c, (k, v))]) (<[k := fresh_ c]> (map_ c))
                           (max_size_ c) (replacing_ c) (S (fresh_ c)) (posted_ c)) = false).
    { unfold exceed, cache_size. cbn [map_ max_size_]. rewrite Hmap, map_size_singleton, H1.
      apply andb_false_intro1, Z.ltb_ge. lia. }
    rewrite He, andb_false_r. cbn [list_ map_ replacing_ max_size_ posted_ fresh_].
    rewrite Hmap, map_size_singleton, length_app, H4. cbn. split_and!; try done; [lia|].
    intros _. by eexists.
Qed.

(**  Threads that look a key up at the same time all miss it, and each then inserts
    it: the node of an earlier insertion stays in the list without an iterator.  The
    list grows with every such insertion while the map, whose size alone decides about
    [Replace], holds one key, so that nothing is ever posted to shrink it. *)
Theorem insertions_of_one_key_pile_up k v max_size n :
  1 <= max_size ->
  let c := Nat.iter n (Insert k v) (new_cache max_size) in
  reachable max_size c /\ length (list_ c) = n /\ cache_size c <= 1 /\ posted_ c = 0%nat.
Proof.
  intros Hmax c. destruct (insert_same_key k v max_size n Hmax) as (_ & _ & H3 & H4 & H5 & _).
  fold c in H3, H4, H5. split_and!; [|done| |done].
  - unfold c. clear. induction n as [|n IH]; [apply rtc_refl|]. cbn. by apply reachable_Insert.
  - unfold cache_size. rewrite H5. destruct (decide _); lia.
Qed.
End HashCache.
Arguments HashCache K {_ _} V.

(** ** A cache of ten numbers *)

Definition demo_cache : HashCache Z Z :=
  fold_left (fun c k => Insert k (k * k) c) [1; 2; 3; 4; 5; 6; 7; 8; 9; 10; 11; 12] (new_cache 10).

Definition demo_creator (k : Z) : option Z := if k <? 100 then Some (k * k) else None.

Lemma demo_cache_reachable : reachable 10 demo_cache.
Proof. unfold demo_cache. cbn [fold_left]. repeat apply reachable_Insert. apply rtc_refl. Qed.

Lemma demo_cache_disciplined : rtc dstep (new_cache 10) demo_cache.
Proof.
  unfold demo_cache. cbn [fold_left].
  repeat (eapply rtc_r; [|apply dstep_insert; vm_compute; reflexivity]). apply rtc_refl.
Qed.

Lemma cache_implements_map_witness :
  (exists c', Locate demo_creator 0 20 demo_cache = Ret (400, c')) /\
  (exists c', Replace demo_cache = Ret (2, c')).
Proof.
  pose proof (cache_implements_map demo_creator 0 10 demo_cache demo_cache_reachable
    ltac:(unfold size_t_ok; vm_compute; split; [discriminate|reflexivity]))
    as (_ & HL & _ & _ & HR & _).
  split.
  - destruct (HL 20) as (c' & H & _). exists c'. rewrite H. vm_compute. reflexivity.
  - destruct HR as (c' & H & _); [vm_compute; discriminate|]. exists c'. rewrite H. reflexivity.
Defined.

Lemma cache_is_LRU_witness :
  exists c', Replace demo_cache = Ret (2, c') /\
    map fst (entries c') = [3; 4; 5; 6; 7; 8; 9; 10; 11; 12].
Proof.
  pose proof (cache_is_LRU 0 10 demo_cache demo_cache_disciplined
    ltac:(unfold size_t_ok; vm_compute; split; [discriminate|reflexivity]))
    as (_ & _ & _ & _ & _ & _ & HR).
  destruct HR as (c' & H & He & _); [vm_compute; discriminate|].
  exists c'. rewrite H, He. split; reflexivity.
Defined.

Lemma insertions_of_one_key_pile_up_witness :
  length (list_ (Nat.iter 5 (Insert 7 49) (new_cache 10))) = 5%nat.
Proof.
  destruct (insertions_of_one_key_pile_up (V := Z) 7 49 10 5) as (_ & H & _); [lia|exact H].
Defined.

(**  [Replace] runs some time after [Insert] posted it.  Keys erased meanwhile make
    [map_.size() - max_size_] wrap around, and the posted call walks past the end of
    the list. *)
Theorem Replace_after_Erase_walks_off :
  exists c : HashCache Z Z, reachable 10 c /\ posted_ c = 1%nat /\ replacing_ c = true /\
    Replace c = Crash.
Proof.
  exists (erased 1 (erased 2 (erased 3 demo_cache))). split_and!; try (vm_compute; reflexivity).
  apply reachable_erased, reachable_erased, reachable_erased. exact demo_cache_reachable.
Qed.
