(* ===== verification/BaseRwlock.v ===== *)
(** The read-write lock of src/base/rwlock.h, which prefers writers.

    Every field is read and written with [lock_] held, so that what a thread does
    between getting [lock_] and giving it back, by the end of the operation or by
    [wait], is one section, and an execution is an interleaving of sections.  Each
    section is a definition on the fields; [run] is the section of one thread in a
    process of many. *)
From Stdlib Require Import ZArith Lia Bool.
From stdpp Require Import base list list_numbers numbers relations.
From S2P Require Import Prelude.

(** ** The lock *)

Record ReadWriteLock := mkReadWriteLock {
  readers_ : Z;
  writers_ : Z;
  read_waiters_ : Z;
  write_waiters_ : Z
}.

Definition new_ReadWriteLock : ReadWriteLock := mkReadWriteLock 0 0 0 0.

Definition set_readers v l := mkReadWriteLock v (writers_ l) (read_waiters_ l) (write_waiters_ l).
Definition set_writers v l := mkReadWriteLock (readers_ l) v (read_waiters_ l) (write_waiters_ l).
Definition set_read_waiters v l := mkReadWriteLock (readers_ l) (writers_ l) v (write_waiters_ l).
Definition set_write_waiters v l := mkReadWriteLock (readers_ l) (writers_ l) (read_waiters_ l) v.

(** The two condition variables, and what a section does to them. *)
Inductive cond := cond_read_ | cond_write_.
#[export] Instance cond_eq_dec : EqDecision cond.
Proof. solve_decision. Defined.
Definition cond_eqb (c d : cond) : bool :=
  match c, d with cond_read_, cond_read_ | cond_write_, cond_write_ => true | _, _ => false end.

Inductive notification :=
| Nothing
| notify_one (c : cond)
| notify_all (c : cond).

(** How a section of [ReadLock] or [WriteLock] ends: in [wait], or with the lock. *)
Inductive ending := Waits | Gets.

(** [ReadLock] up to its end or its first [wait]. *)
Definition ReadLock (l : ReadWriteLock) : ReadWriteLock * ending :=
  if negb (writers_ l =? 0) || negb (write_waiters_ l =? 0)
  then (set_read_waiters (u32 (read_waiters_ l + 1)) l, Waits)
  else (set_readers (u32 (readers_ l + 1)) l, Gets).

(** ... and from the return of a [wait] on: the condition of the loop is tested again. *)
Definition ReadLock_woken (l : ReadWriteLock) : ReadWriteLock * ending :=
  if negb (writers_ l =? 0) || negb (write_waiters_ l =? 0)
  then (l, Waits)
  else
    let l := set_read_waiters (u32 (read_waiters_ l - 1)) l in
    (set_readers (u32 (readers_ l + 1)) l, Gets).

Definition ReadUnlock (l : ReadWriteLock) : outcome (ReadWriteLock * notification) :=
  let l := set_readers (u32 (readers_ l - 1)) l in
  ASSERT (0 <=? readers_ l) in
  Ret (l, if negb (write_waiters_ l =? 0) then notify_one cond_write_ else Nothing).

(** What follows the loop of [WriteLock]. *)
Definition take_write (l : ReadWriteLock) : outcome (ReadWriteLock * ending) :=
  ASSERT (writers_ l =? 0) in Ret (set_writers 1 l, Gets).

Definition WriteLock (l : ReadWriteLock) : outcome (ReadWriteLock * ending) :=
  if negb (readers_ l =? 0) || negb (writers_ l =? 0)
  then Ret (set_write_waiters (u32 (write_waiters_ l + 1)) l, Waits)
  else take_write l.

Definition WriteLock_woken (l : ReadWriteLock) : outcome (ReadWriteLock * ending) :=
  if negb (readers_ l =? 0) || negb (writers_ l =? 0)
  then Ret (l, Waits)
  else take_write (set_write_waiters (u32 (write_waiters_ l - 1)) l).

Definition WriteUnlock (l : ReadWriteLock) : outcome (ReadWriteLock * notification) :=
  ASSERT (writers_ l =? 1) in
  let l := set_writers 0 l in
  Ret (l, if negb (write_waiters_ l =? 0) then notify_one cond_write_
          else if negb (read_waiters_ l =? 0) then notify_all cond_read_
          else Nothing).

(** ** The threads *)

(** A thread is outside the operations, sleeps in [wait], or has been woken and has not
    got [lock_] back yet; it holds [r_held] read locks and perhaps the write lock. *)
Inductive mode := Outside | Asleep (c : cond) | Awake (c : cond).

Record thread := mkThread { r_held : nat; w_held : bool; th_mode : mode }.

Definition set_mode (m : mode) (t : thread) : thread := mkThread (r_held t) (w_held t) m.
Definition sleeps_on (c : cond) (t : thread) : bool :=
  match th_mode t with Asleep d => cond_eqb c d | _ => false end.
Definition wake (c : cond) (t : thread) : thread :=
  if sleeps_on c t then set_mode (Awake c) t else t.

Record process := mkProcess { the_lock : ReadWriteLock; threads : list thread }.

Definition new_process (n : nat) : process :=
  mkProcess new_ReadWriteLock (replicate n (mkThread 0 false Outside)).

(** [notify_one] wakes some sleeper, [chosen], if there is one. *)
Definition notify (m : notification) (chosen : option nat) (ts : list thread) : option (list thread) :=
  match m with
  | Nothing => Some ts
  | notify_one c =>
      match chosen with
      | Some j =>
          match ts !! j with
          | Some t => if sleeps_on c t then Some (<[j := wake c t]> ts) else None
          | None => None
          end
      | None => if forallb (fun t => negb (sleeps_on c t)) ts then Some ts else None
      end
  | notify_all c => Some (map (wake c) ts)
  end.

(** What thread [i] may do next.  [Spurious]: a [wait] may return without a
    notification.  Only a thread that holds a lock gives it back. *)
Inductive act :=
| CallReadLock (i : nat)
| CallReadUnlock (i : nat) (chosen : option nat)
| CallWriteLock (i : nat)
| CallWriteUnlock (i : nat) (chosen : option nat)
| Resume (i : nat)
| Spurious (i : nat).

Definition act_thread (a : act) : nat :=
  match a with
  | CallReadLock i | CallReadUnlock i _ | CallWriteLock i | CallWriteUnlock i _
  | Resume i | Spurious i => i
  end.

(** Thread [i], which was [t], has finished a section of a [Lock]. *)
Definition after_lock (i : nat) (c : cond) (t : thread) (ts : list thread)
    (r : ReadWriteLock * ending) : process :=
  let t' :=
    match r.2 with
    | Waits => set_mode (Asleep c) t
    | Gets =>
        match c with
        | cond_read_ => mkThread (S (r_held t)) (w_held t) Outside
        | cond_write_ => mkThread (r_held t) true Outside
        end
    end in
  mkProcess r.1 (<[i := t']> ts).

Definition after_unlock (i : nat) (t' : thread) (chosen : option nat) (ts : list thread)
    (r : outcome (ReadWriteLock * notification)) : option (outcome process) :=
  match r with
  | Ret (l, m) =>
      (fun ts => Ret (mkProcess l ts)) <$> notify m chosen (<[i := t']> ts)
  | Crash => Some Crash
  | NoFuel => Some NoFuel
  end.

(** [None]: the thread cannot do that now; [Crash]: an ASSERT fails. *)
Definition run (a : act) (p : process) : option (outcome process) :=
  let '(mkProcess l ts) := p in
  match ts !! act_thread a with
  | None => None
  | Some t =>
      match a, th_mode t with
      | CallReadLock i, Outside => Some (Ret (after_lock i cond_read_ t ts (ReadLock l)))
      | CallWriteLock i, Outside =>
          Some (let! r := WriteLock l in Ret (after_lock i cond_write_ t ts r))
      | CallReadUnlock i chosen, Outside =>
          if (r_held t =? 0)%nat then None
          else after_unlock i (mkThread (r_held t - 1) (w_held t) Outside) chosen ts (ReadUnlock l)
      | CallWriteUnlock i chosen, Outside =>
          if w_held t
          then after_unlock i (mkThread (r_held t) false Outside) chosen ts (WriteUnlock l)
          else None
      | Resume i, Awake cond_read_ => Some (Ret (after_lock i cond_read_ t ts (ReadLock_woken l)))
      | Resume i, Awake cond_write_ =>
          Some (let! r := WriteLock_woken l in Ret (after_lock i cond_write_ t ts r))
      | Spurious i, Asleep c => Some (Ret (mkProcess l (<[i := set_mode (Awake c) t]> ts)))
      | _, _ => None
      end
  end.

(** The read locks that are held at a time. *)
Definition r_total (p : process) : nat := sum_list_with r_held (threads p).

(** A thread that already holds a lock asks for another one. *)
Definition nests (a : act) (p : process) : bool :=
  match a with
  | CallReadLock i | CallWriteLock i =>
      match threads p !! i with
      | Some t => negb (r_held t =? 0)%nat || w_held t
      | None => false
      end
  | _ => false
  end.

(** An execution: fewer than 2^32 read locks are held at a time; [nested] tells whether
    threads may ask for a lock while they hold one. *)
Definition step (nested : bool) (p p' : process) : Prop :=
  exists a, run a p = Some (Ret p') /\ (nests a p = true -> nested = true) /\
            Z.of_nat (r_total p') < 2 ^ 32.

Definition reachable (nested : bool) (n : nat) (p : process) : Prop :=
  Z.of_nat n < 2 ^ 32 /\ rtc (step nested) (new_process n) p.

(** Threads that only finish what they have begun: they give back what they hold and go
    on when they have been woken. *)
Definition finishing (a : act) : bool :=
  match a with CallReadUnlock _ _ | CallWriteUnlock _ _ | Resume _ => true | _ => false end.
Definition finish_step (p p' : process) : Prop :=
  exists a, finishing a = true /\ run a p = Some (Ret p').

(** Nobody holds or waits for anything. *)
Definition at_rest (p : process) : Prop :=
  the_lock p = new_ReadWriteLock /\
  Forall (fun t => t = mkThread 0 false Outside) (threads p).

(** ** Counting threads *)

Definition w_num (t : thread) : nat := if w_held t then 1 else 0.
Definition asleep_num (c : cond) (t : thread) : nat := if sleeps_on c t then 1 else 0.
Definition awake_num (c : cond) (t : thread) : nat :=
  match th_mode t with Awake d => if cond_eqb c d then 1 else 0 | _ => 0 end.

#[global] Arguments set_mode m t /.
#[global] Arguments w_num t /.
#[global] Arguments asleep_num c t /.
#[global] Arguments awake_num c t /.
#[global] Arguments sleeps_on c t /.

Abbreviation R ts := (sum_list_with r_held ts).
Abbreviation W ts := (sum_list_with w_num ts).
Abbreviation S_ c ts := (sum_list_with (asleep_num c) ts).
Abbreviation A_ c ts := (sum_list_with (awake_num c) ts).

Lemma sum_insert {A} (f : A -> nat) l i x y :
  l !! i = Some x -> (sum_list_with f (<[i := y]> l) + f x = sum_list_with f l + f y)%nat.
Proof.
  revert i. induction l as [|z l IH]; intros [|i] H; simplify_eq/=; [lia|].
  specialize (IH i H). lia.
Qed.

Lemma sum_at {A} (f : A -> nat) l i x : l !! i = Some x -> (f x <= sum_list_with f l)%nat.
Proof. intros H. apply sum_list_with_in. by eapply list_elem_of_lookup_2. Qed.

Lemma sum_two {A} (f : A -> nat) l i j x y :
  i <> j -> l !! i = Some x -> l !! j = Some y -> (f x + f y <= sum_list_with f l)%nat.
Proof.
  intros Hne Hi Hj. revert i j Hne Hi Hj.
  induction l as [|z l IH]; intros [|i] [|j] Hne Hi Hj; simplify_eq/=; try lia.
  - pose proof (sum_at f l j y Hj). lia.
  - pose proof (sum_at f l i x Hi). lia.
  - assert (i <> j) as Hij by congruence. specialize (IH i j Hij Hi Hj). lia.
Qed.

Lemma sum_pos {A} (f : A -> nat) l :
  (0 < sum_list_with f l)%nat -> exists i x, l !! i = Some x /\ (0 < f x)%nat.
Proof.
  induction l as [|z l IH]; cbn; intros H; [lia|].
  destruct (f z) eqn:E.
  - destruct IH as (i & x & Hi & Hx); [lia|]. by exists (S i), x.
  - exists 0%nat, z. split; [done|lia].
Qed.

Lemma sum_map_same {A} (f : A -> nat) (g : A -> A) l :
  (forall x, f (g x) = f x) -> sum_list_with f (map g l) = sum_list_with f l.
Proof. intros H. induction l as [|x l IH]; cbn; [done|]. by rewrite H, IH. Qed.

Lemma sum_bound {A} (f : A -> nat) l : (forall x, f x <= 1)%nat -> (sum_list_with f l <= length l)%nat.
Proof. intros H. induction l as [|x l IH]; cbn; [done|]. specialize (H x). lia. Qed.

(** Cases on the mode of a thread and on the variables it may be about. *)
Ltac thread_cases t :=
  destruct t as [? [] [|[]|[]]]; unfold asleep_num, awake_num, w_num, wake, sleeps_on, set_mode;
  cbn [r_held w_held th_mode cond_eqb].

Lemma waiting_bound c ts : (S_ c ts + A_ c ts <= length ts)%nat.
Proof.
  induction ts as [|t ts IH]; cbn [sum_list_with length map]; [done|].
  assert (asleep_num c t + awake_num c t <= 1)%nat; [|lia]. destruct c; thread_cases t; lia.
Qed.

Lemma awake_bound ts : (A_ cond_read_ ts + A_ cond_write_ ts <= length ts)%nat.
Proof.
  induction ts as [|t ts IH]; cbn [sum_list_with length map]; [done|].
  assert (awake_num cond_read_ t + awake_num cond_write_ t <= 1)%nat; [|lia]. thread_cases t; lia.
Qed.

(** ** Notifications *)

Lemma wake_held c t : r_held (wake c t) = r_held t /\ w_num (wake c t) = w_num t.
Proof. destruct c; by thread_cases t. Qed.

Lemma wake_counts c d t :
  (asleep_num d (wake c t) + awake_num d (wake c t) = asleep_num d t + awake_num d t /\
   asleep_num d (wake c t) = if cond_eqb c d then 0 else asleep_num d t)%nat.
Proof. destruct c, d; by thread_cases t. Qed.

Lemma cond_eqb_refl c : cond_eqb c c = true.
Proof. by destruct c. Qed.
Lemma cond_eqb_ne c d : d <> c -> cond_eqb c d = false.
Proof. by destruct c, d. Qed.

(** What all notifications have in common: they move sleepers of their variable, and
    only those, to the woken ones. *)
Record woken (c : cond) (ts ts' : list thread) : Prop := {
  wk_length : length ts' = length ts;
  wk_held : R ts' = R ts /\ W ts' = W ts;
  wk_sum : forall d, (S_ d ts' + A_ d ts' = S_ d ts + A_ d ts)%nat;
  wk_other : forall d, d <> c -> S_ d ts' = S_ d ts;
  wk_less : (S_ c ts' <= S_ c ts)%nat
}.

Lemma wake_at c j t ts :
  ts !! j = Some t -> sleeps_on c t = true ->
  woken c ts (<[j := wake c t]> ts) /\ (0 < A_ c (<[j := wake c t]> ts))%nat.
Proof.
  intros Hj Hm.
  pose proof (sum_insert r_held ts j t (wake c t) Hj).
  pose proof (sum_insert w_num ts j t (wake c t) Hj).
  pose proof (fun d => sum_insert (asleep_num d) ts j t (wake c t) Hj) as HS.
  pose proof (fun d => sum_insert (awake_num d) ts j t (wake c t) Hj) as HA.
  pose proof (wake_held c t). pose proof (fun d => wake_counts c d t) as Hc.
  split; [split|].
  - apply length_insert.
  - lia.
  - intros d. specialize (HS d). specialize (HA d). specialize (Hc d). lia.
  - intros d Hd. specialize (HS d). specialize (Hc d). rewrite cond_eqb_ne in Hc by done. lia.
  - specialize (HS c). specialize (Hc c). rewrite cond_eqb_refl in Hc. lia.
  - specialize (HA c). specialize (Hc c). rewrite cond_eqb_refl in Hc.
    pose proof (sum_at (awake_num c) ts j t Hj).
    assert (asleep_num c t = 1%nat) by (unfold asleep_num; by rewrite Hm). lia.
Qed.

Lemma wake_every c ts : woken c ts (map (wake c) ts) /\ S_ c (map (wake c) ts) = 0%nat.
Proof.
  assert (S_ c (map (wake c) ts) = 0%nat) as H0.
  { induction ts as [|t ts IH]; cbn [sum_list_with length map]; [done|]. rewrite IH, (proj2 (wake_counts c c t)).
    by rewrite cond_eqb_refl. }
  split; [split|done].
  - apply length_map.
  - split; apply sum_map_same; intros t; apply wake_held.
  - intros d. clear H0. induction ts as [|t ts IH]; cbn [sum_list_with length map]; [done|].
    pose proof (wake_counts c d t). lia.
  - intros d Hd. apply sum_map_same. intros t. rewrite (proj2 (wake_counts c d t)).
    by rewrite cond_eqb_ne.
  - lia.
Qed.

Lemma nobody_asleep c ts :
  forallb (fun t => negb (sleeps_on c t)) ts = true -> S_ c ts = 0%nat.
Proof.
  induction ts as [|t ts IH]; cbn [sum_list_with length map]; [done|]. intros [Ht Hts]%andb_true_iff. rewrite (IH Hts).
  unfold asleep_num. by destruct (sleeps_on c t).
Qed.

Lemma notify_woken m chosen ts ts' :
  notify m chosen ts = Some ts' ->
  match m with
  | Nothing => ts' = ts
  | notify_one c => woken c ts ts' /\ (S_ c ts' = 0%nat \/ (0 < A_ c ts')%nat)
  | notify_all c => woken c ts ts' /\ S_ c ts' = 0%nat
  end.
Proof.
  destruct m as [|c|c]; cbn [notify]; intros H; [by simplify_eq| |].
  2: { simplify_eq. apply wake_every. }
  destruct chosen as [j|].
  - destruct (ts !! j) as [t|] eqn:Hj; [|done]. destruct (sleeps_on c t) eqn:Hm; [|done].
    simplify_eq. destruct (wake_at c j t ts Hj Hm). auto.
  - destruct (forallb _ ts) eqn:E; [|done]. simplify_eq. split; [by split; auto|].
    left. by apply nobody_asleep.
Qed.

(** ** The invariant *)

Record rw_inv (p : process) : Prop := {
  inv_readers : readers_ (the_lock p) = Z.of_nat (R (threads p));
  inv_writers : writers_ (the_lock p) = Z.of_nat (W (threads p));
  inv_rwait : read_waiters_ (the_lock p) =
    Z.of_nat (S_ cond_read_ (threads p) + A_ cond_read_ (threads p));
  inv_wwait : write_waiters_ (the_lock p) =
    Z.of_nat (S_ cond_write_ (threads p) + A_ cond_write_ (threads p));
  inv_size : Z.of_nat (length (threads p)) < 2 ^ 32;
  inv_held : Z.of_nat (R (threads p)) < 2 ^ 32;
  inv_excl : (W (threads p) = 0 \/ W (threads p) = 1 /\ R (threads p) = 0)%nat;
  (* no wake-up is lost *)
  inv_sleep_r : (0 < S_ cond_read_ (threads p) ->
    0 < W (threads p) \/ 0 < S_ cond_write_ (threads p) + A_ cond_write_ (threads p))%nat;
  inv_sleep_w : (0 < S_ cond_write_ (threads p) ->
    0 < R (threads p) \/ 0 < W (threads p) \/ 0 < A_ cond_write_ (threads p))%nat
}.

(** The counts after the mode or the locks of thread [i] have changed. *)
Lemma counts_insert ts i t t' :
  ts !! i = Some t ->
  (R (<[i := t']> ts) + r_held t = R ts + r_held t' /\
   W (<[i := t']> ts) + w_num t = W ts + w_num t' /\
   S_ cond_read_ (<[i := t']> ts) + asleep_num cond_read_ t = S_ cond_read_ ts + asleep_num cond_read_ t' /\
   S_ cond_write_ (<[i := t']> ts) + asleep_num cond_write_ t = S_ cond_write_ ts + asleep_num cond_write_ t' /\
   A_ cond_read_ (<[i := t']> ts) + awake_num cond_read_ t = A_ cond_read_ ts + awake_num cond_read_ t' /\
   A_ cond_write_ (<[i := t']> ts) + awake_num cond_write_ t = A_ cond_write_ ts + awake_num cond_write_ t')%nat.
Proof. intros H. repeat split; by apply sum_insert. Qed.

(** Brings the counts of a changed thread and the bounds on the waiters into the context. *)
Ltac count_threads ts i Hi t' :=
  pose proof (counts_insert ts i _ t' Hi) as (? & ? & ? & ? & ? & ?);
  pose proof (waiting_bound cond_read_ (<[i := t']> ts));
  pose proof (waiting_bound cond_write_ (<[i := t']> ts));
  pose proof (length_insert ts i t');
  pose proof (sum_at w_num ts i _ Hi);
  cbn [r_held w_held th_mode cond_eqb asleep_num awake_num w_num sleeps_on set_mode] in *.

Ltac solve_counts :=
  constructor;
  cbn [the_lock threads readers_ writers_ read_waiters_ write_waiters_
       set_readers set_writers set_read_waiters set_write_waiters fst snd set_mode] in *;
  rewrite ?u32_small by lia; lia.

(** ** The sections keep the invariant *)

Section Sections.
Context (l : ReadWriteLock) (ts : list thread) (Hp : rw_inv (mkProcess l ts)).
Context (i r : nat) (w : bool).

Lemma ReadLock_inv (Hi : ts !! i = Some (mkThread r w Outside)) :
  let p' := after_lock i cond_read_ (mkThread r w Outside) ts (ReadLock l) in
  Z.of_nat (r_total p') < 2 ^ 32 -> rw_inv p'.
Proof using Hp.
  destruct Hp. unfold ReadLock, r_total.
  destruct (negb _ || negb _) eqn:E; unfold after_lock; cbn [fst snd]; intros Hb.
  - count_threads ts i Hi (mkThread r w (Asleep cond_read_)). solve_counts.
  - count_threads ts i Hi (mkThread (S r) w Outside). solve_counts.
Qed.

Lemma ReadLock_woken_inv (Hi : ts !! i = Some (mkThread r w (Awake cond_read_))) :
  let p' := after_lock i cond_read_ (mkThread r w (Awake cond_read_)) ts (ReadLock_woken l) in
  Z.of_nat (r_total p') < 2 ^ 32 -> rw_inv p'.
Proof using Hp.
  destruct Hp. unfold ReadLock_woken, r_total.
  destruct (negb _ || negb _) eqn:E; unfold after_lock; cbn [fst snd]; intros Hb.
  - count_threads ts i Hi (mkThread r w (Asleep cond_read_)). solve_counts.
  - count_threads ts i Hi (mkThread (S r) w Outside). solve_counts.
Qed.

Lemma WriteLock_inv (Hi : ts !! i = Some (mkThread r w Outside)) :
  exists x, WriteLock l = Ret x /\
    rw_inv (after_lock i cond_write_ (mkThread r w Outside) ts x).
Proof using Hp.
  destruct Hp. unfold WriteLock, take_write.
  destruct (negb _ || negb _) eqn:E.
  - eexists. split; [done|]. unfold after_lock; cbn [fst snd].
    count_threads ts i Hi (mkThread r w (Asleep cond_write_)). solve_counts.
  - replace (writers_ l =? 0) with true by lia.
    eexists. split; [done|]. unfold after_lock; cbn [fst snd].
    count_threads ts i Hi (mkThread r true Outside). destruct w; solve_counts.
Qed.

Lemma WriteLock_woken_inv (Hi : ts !! i = Some (mkThread r w (Awake cond_write_))) :
  exists x, WriteLock_woken l = Ret x /\
    rw_inv (after_lock i cond_write_ (mkThread r w (Awake cond_write_)) ts x).
Proof using Hp.
  destruct Hp. unfold WriteLock_woken, take_write.
  destruct (negb _ || negb _) eqn:E.
  - eexists. split; [done|]. unfold after_lock; cbn [fst snd].
    count_threads ts i Hi (mkThread r w (Asleep cond_write_)). solve_counts.
  - cbn [writers_ set_write_waiters]. replace (writers_ l =? 0) with true by lia.
    eexists. split; [done|]. unfold after_lock; cbn [fst snd].
    count_threads ts i Hi (mkThread r true Outside). destruct w; solve_counts.
Qed.

Lemma Spurious_inv c (Hi : ts !! i = Some (mkThread r w (Asleep c))) :
  rw_inv (mkProcess l (<[i := mkThread r w (Awake c)]> ts)).
Proof using Hp.
  destruct Hp. count_threads ts i Hi (mkThread r w (Awake c)). destruct c; solve_counts.
Qed.

Lemma ReadUnlock_inv (Hi : ts !! i = Some (mkThread r w Outside)) (Hr : r <> 0%nat) :
  exists x, ReadUnlock l = Ret x /\
    forall chosen ts', notify x.2 chosen (<[i := mkThread (r - 1) w Outside]> ts) = Some ts' ->
      rw_inv (mkProcess x.1 ts').
Proof using Hp.
  destruct Hp. unfold ReadUnlock. pose proof (sum_at r_held ts i _ Hi) as Hle.
  cbn [readers_ set_readers the_lock threads r_held] in *. rewrite u32_small by lia.
  replace (0 <=? readers_ l - 1) with true by lia.
  eexists. split; [done|]. intros chosen ts' Hn%notify_woken. cbn [fst snd] in *.
  count_threads ts i Hi (mkThread (r - 1) w Outside).
  cbn [write_waiters_ set_readers] in Hn. destruct (negb _) eqn:E; [|subst ts'; solve_counts].
  destruct Hn as [[Hl [HR HW] Hs Ho Hless] Hone].
  pose proof (Hs cond_read_). pose proof (Hs cond_write_). pose proof (Ho cond_read_ ltac:(done)).
  solve_counts.
Qed.

Lemma WriteUnlock_inv (Hi : ts !! i = Some (mkThread r true Outside)) :
  exists x, WriteUnlock l = Ret x /\
    forall chosen ts', notify x.2 chosen (<[i := mkThread r false Outside]> ts) = Some ts' ->
      rw_inv (mkProcess x.1 ts').
Proof using Hp.
  destruct Hp. unfold WriteUnlock. pose proof (sum_at w_num ts i _ Hi) as Hle.
  cbn [the_lock threads w_num w_held] in *. replace (writers_ l =? 1) with true by lia.
  eexists. split; [done|]. intros chosen ts' Hn%notify_woken. cbn [fst snd] in *.
  count_threads ts i Hi (mkThread r false Outside).
  cbn [write_waiters_ read_waiters_ set_writers] in Hn.
  destruct (negb (write_waiters_ l =? 0)) eqn:E; [|destruct (negb (read_waiters_ l =? 0)) eqn:E2].
  - destruct Hn as [[Hl [HR HW] Hs Ho Hless] Hone].
    pose proof (Hs cond_read_). pose proof (Hs cond_write_). pose proof (Ho cond_read_ ltac:(done)).
    solve_counts.
  - destruct Hn as [[Hl [HR HW] Hs Ho Hless] Hone].
    pose proof (Hs cond_read_). pose proof (Hs cond_write_). pose proof (Ho cond_write_ ltac:(done)).
    solve_counts.
  - subst ts'. solve_counts.
Qed.
End Sections.

(** No ASSERT fails, and what results satisfies the invariant. *)
Lemma run_inv a p o :
  rw_inv p -> run a p = Some o ->
  exists p', o = Ret p' /\ (Z.of_nat (r_total p') < 2 ^ 32 -> rw_inv p').
Proof.
  destruct p as [l ts]. intros Hp. unfold run.
  destruct (ts !! act_thread a) as [[r w m]|] eqn:Hi; [|done].
  destruct a as [i|i ch|i|i ch|i|i], m as [|c|c]; cbn [th_mode r_held w_held act_thread] in *; try done.
  - intros [= <-]. eexists. split; [done|]. by apply ReadLock_inv.
  - destruct (Nat.eqb_spec r 0) as [|Hr]; [done|].
    destruct (ReadUnlock_inv l ts Hp i r w Hi Hr) as ([l' m] & -> & Hn). cbn [after_unlock].
    destruct (notify m ch _) as [ts'|] eqn:E; [|done]. intros [= <-]. eauto.
  - intros [= <-]. destruct (WriteLock_inv l ts Hp i r w Hi) as (x & -> & Hx). cbn. eauto.
  - destruct w; [|done].
    destruct (WriteUnlock_inv l ts Hp i r Hi) as ([l' m] & -> & Hn). cbn [after_unlock].
    destruct (notify m ch _) as [ts'|] eqn:E; [|done]. intros [= <-]. eauto.
  - destruct c; intros [= <-].
    + eexists. split; [done|]. by apply ReadLock_woken_inv.
    + destruct (WriteLock_woken_inv l ts Hp i r w Hi) as (x & -> & Hx). cbn. eauto.
  - intros [= <-]. eexists. split; [done|]. intros _. by apply (Spurious_inv l ts Hp i r w c).
Qed.

Lemma sum_replicate_0 {A} (f : A -> nat) n x : f x = 0%nat -> sum_list_with f (replicate n x) = 0%nat.
Proof. intros H. induction n as [|n IH]; cbn; [done|]. by rewrite H, IH. Qed.

Lemma new_process_inv n : Z.of_nat n < 2 ^ 32 -> rw_inv (new_process n).
Proof.
  intros Hn. unfold new_process.
  constructor; cbn [the_lock threads new_ReadWriteLock readers_ writers_ read_waiters_ write_waiters_];
    rewrite ?length_replicate, ?sum_replicate_0 by done; lia.
Qed.

Lemma reachable_inv nested n p : reachable nested n p -> rw_inv p.
Proof.
  intros [Hn H]. revert H. apply rtc_ind_r; [by apply new_process_inv|].
  intros p1 p2 _ (a & Ha & _ & Hb) IH. destruct (run_inv a p1 _ IH Ha) as (p' & [= <-] & Hp). auto.
Qed.

(** What the invariant says of the threads. *)
Lemma inv_exclusive p i j t u :
  rw_inv p -> threads p !! i = Some t -> threads p !! j = Some u ->
  w_held t = true -> r_held t = 0%nat /\ r_held u = 0%nat /\ (i <> j -> w_held u = false).
Proof.
  intros [] Hi Hj Ht.
  pose proof (sum_at w_num _ i t Hi) as HW. cbn in HW. rewrite Ht in HW.
  pose proof (sum_at r_held _ i t Hi). pose proof (sum_at r_held _ j u Hj).
  repeat split; [lia..|]. intros Hne.
  pose proof (sum_two w_num _ i j t u Hne Hi Hj) as H2. cbn in H2. rewrite Ht in H2.
  destruct (w_held u); [lia|done].
Qed.

(** Nobody begins to read while a writer waits. *)
Lemma readers_give_way i p p' a :
  write_waiters_ (the_lock p) <> 0 -> run a p = Some (Ret p') ->
  a = CallReadLock i \/
    a = Resume i /\ (exists r w, threads p !! i = Some (mkThread r w (Awake cond_read_))) ->
  exists r w, threads p' !! i = Some (mkThread r w (Asleep cond_read_)).
Proof.
  destruct p as [l ts]. cbn [the_lock threads]. intros Hw Ha Hc. unfold run in Ha.
  assert (Hz : (write_waiters_ l =? 0) = false) by lia.
  assert (Hi : act_thread a = i) by (by destruct Hc as [-> | [-> _]]). rewrite Hi in Ha.
  destruct (ts !! i) as [[r w m]|] eqn:Hl; [|done]. exists r, w.
  assert (Hlt : (i < length ts)%nat) by (by eapply lookup_lt_Some).
  destruct Hc as [-> | [-> (r0 & w0 & E)]].
  - destruct m; cbn [th_mode] in Ha; try done.
    unfold ReadLock in Ha. rewrite Hz, orb_true_r in Ha. simplify_eq. by apply list_lookup_insert_eq.
  - injection E as <- <- ->. cbn [th_mode] in Ha.
    unfold ReadLock_woken in Ha. rewrite Hz, orb_true_r in Ha. simplify_eq. by apply list_lookup_insert_eq.
Qed.

(** ** Threads that hold one lock at a time *)

Definition plain (t : thread) : Prop :=
  (r_held t <= 1)%nat /\ (th_mode t <> Outside -> r_held t = 0%nat /\ w_held t = false).

Lemma plain_wake c t : plain t -> plain (wake c t).
Proof.
  unfold plain. intros [Hr Hm]. destruct (wake_held c t) as [-> _].
  unfold wake. destruct (sleeps_on c t) eqn:E; [|by split]. cbn in *. split; [done|]. intros _. apply Hm.
  by destruct (th_mode t).
Qed.

Lemma notify_plain m chosen ts ts' :
  notify m chosen ts = Some ts' -> Forall plain ts -> Forall plain ts'.
Proof.
  destruct m as [|c|c]; cbn [notify]; intros H Hts; [by simplify_eq| |].
  2: { simplify_eq. apply List.Forall_map. eapply Forall_impl; [done|]. apply plain_wake. }
  destruct chosen as [j|].
  - destruct (ts !! j) as [t|] eqn:Hj; [|done]. destruct (sleeps_on c t); [|done]. simplify_eq.
    apply Forall_insert; [done|]. apply plain_wake. by eapply Forall_lookup_1.
  - destruct (forallb _ ts); by simplify_eq.
Qed.

Lemma after_lock_plain i c r w m ts x :
  Forall plain ts -> r = 0%nat /\ w = false ->
  Forall plain (threads (after_lock i c (mkThread r w m) ts x)).
Proof.
  intros Hts [-> ->]. unfold after_lock. cbn [threads]. apply Forall_insert; [done|].
  destruct x as [l []], c; split; cbn; try lia; done.
Qed.

Lemma run_plain a p p' :
  Forall plain (threads p) -> nests a p = false -> run a p = Some (Ret p') ->
  Forall plain (threads p').
Proof.
  destruct p as [l ts]. cbn [threads]. unfold nests, run. intros Hp Hn.
  destruct (ts !! act_thread a) as [[r w m]|] eqn:Hi; [|done].
  pose proof (Forall_lookup_1 _ _ _ _ Hp Hi) as [Hr Hm]. cbn [r_held w_held th_mode] in Hr, Hm.
  destruct a as [i|i ch|i|i ch|i|i], m as [|c|c]; cbn [th_mode r_held w_held act_thread threads] in *;
    try done; rewrite ?Hi in Hn; cbn [r_held w_held] in Hn.
  - intros [= <-]. apply after_lock_plain; [done|]. destruct r, w; try done.
  - destruct (Nat.eqb_spec r 0) as [|Hr0]; [done|]. unfold after_unlock.
    destruct (ReadUnlock l) as [[l' m]| |]; [|done..]. destruct (notify m ch _) as [ts'|] eqn:E; [|done].
    intros [= <-]. eapply notify_plain; [done|]. apply Forall_insert; [done|]. split; cbn; [lia|done].
  - destruct (WriteLock l); [|done..]. intros [= <-]. apply after_lock_plain; [done|]. destruct r, w; try done.
  - destruct w; [|done]. unfold after_unlock.
    destruct (WriteUnlock l) as [[l' m]| |]; [|done..]. destruct (notify m ch _) as [ts'|] eqn:E; [|done].
    intros [= <-]. eapply notify_plain; [done|]. apply Forall_insert; [done|]. split; cbn; [lia|done].
  - destruct c; [intros [= <-]; apply after_lock_plain; auto|].
    destruct (WriteLock_woken l); [|done..]. intros [= <-]. apply after_lock_plain; auto.
  - intros [= <-]. apply Forall_insert; [done|]. split; cbn; [lia|auto].
Qed.

Lemma plain_total p : Forall plain (threads p) -> (r_total p <= length (threads p))%nat.
Proof.
  unfold r_total. induction 1 as [|t ts [Ht _] _ IH]; cbn [sum_list_with length]; lia.
Qed.

Lemma reachable_plain n p : reachable false n p -> Forall plain (threads p).
Proof.
  intros [_ H]. revert H. apply (rtc_ind_r (fun p => Forall plain (threads p))).
  - apply Forall_replicate. split; cbn; [lia|done].
  - intros p1 p2 _ (a & Ha & Hn & _) IH. eapply run_plain; [done| |done].
    destruct (nests a p1); [|done]. by discriminate Hn.
Qed.

(** ** Threads that finish what they have begun *)

(** The sections a thread still has to execute at least, and the woken threads. *)
Definition to_do (t : thread) : nat :=
  r_held t + w_num t + match th_mode t with Outside => 0 | _ => 2 end.
Definition is_awake (t : thread) : nat := match th_mode t with Awake _ => 1 | _ => 0 end.
Definition work (p : process) : nat :=
  sum_list_with to_do (threads p) * S (length (threads p)) + sum_list_with is_awake (threads p).

Lemma is_awake_bound ts : (sum_list_with is_awake ts <= length ts)%nat.
Proof. apply sum_bound. intros t. unfold is_awake. destruct (th_mode t); lia. Qed.

Lemma to_do_wake c t : to_do (wake c t) = to_do t.
Proof. unfold to_do. destruct c; by thread_cases t. Qed.

Lemma notify_to_do m chosen ts ts' :
  notify m chosen ts = Some ts' ->
  sum_list_with to_do ts' = sum_list_with to_do ts /\ length ts' = length ts.
Proof.
  destruct m as [|c|c]; cbn [notify]; intros H; [by simplify_eq| |].
  2: { simplify_eq. split; [apply sum_map_same, to_do_wake|apply length_map]. }
  destruct chosen as [j|].
  - destruct (ts !! j) as [t|] eqn:Hj; [|done]. destruct (sleeps_on c t); [|done]. simplify_eq.
    pose proof (sum_insert to_do ts j t (wake c t) Hj). rewrite to_do_wake in *.
    rewrite length_insert. split; lia.
  - destruct (forallb _ ts); by simplify_eq.
Qed.

(** Every step does some of the work, or a woken thread falls asleep again. *)
Definition less (ts' ts : list thread) : Prop :=
  length ts' = length ts /\
  (sum_list_with to_do ts' < sum_list_with to_do ts \/
   sum_list_with to_do ts' = sum_list_with to_do ts /\
   sum_list_with is_awake ts' < sum_list_with is_awake ts)%nat.

Lemma less_work p p' : less (threads p') (threads p) -> (work p' < work p)%nat.
Proof.
  intros [Hl H]. unfold work. rewrite Hl.
  pose proof (is_awake_bound (threads p')) as Hb. rewrite Hl in Hb. nia.
Qed.

Lemma after_lock_less i c r w ts x p' :
  ts !! i = Some (mkThread r w (Awake c)) ->
  Some (Ret (after_lock i c (mkThread r w (Awake c)) ts x)) = Some (Ret p') ->
  less (threads p') ts.
Proof.
  intros Hi [= <-]. unfold after_lock, less. cbn [threads]. rewrite length_insert. split; [done|].
  match goal with |- context [<[i := ?t']> ts] =>
    pose proof (sum_insert to_do ts i _ t' Hi); pose proof (sum_insert is_awake ts i _ t' Hi)
  end.
  unfold to_do, is_awake in *. destruct x as [l' []], c, w;
    cbn [r_held w_held w_num th_mode set_mode snd] in *; lia.
Qed.

Lemma after_unlock_less i t t' chosen ts x l :
  ts !! i = Some t -> (to_do t' < to_do t)%nat ->
  after_unlock i t' chosen ts x = Some (Ret l) -> less (threads l) ts.
Proof.
  intros Hi Ht. unfold after_unlock. destruct x as [[l' m]| |]; [|done..].
  destruct (notify m chosen _) as [ts'|] eqn:E; [|done]. intros [= <-].
  apply notify_to_do in E as [E1 E2]. rewrite length_insert in E2.
  split; [done|]. left. cbn [threads]. rewrite E1. pose proof (sum_insert to_do ts i t t' Hi). lia.
Qed.

Lemma finish_step_less p p' : finish_step p p' -> less (threads p') (threads p).
Proof.
  destruct p as [l ts], p' as [l' ts']. intros (a & Hf & Ha). unfold run in Ha.
  destruct (ts !! act_thread a) as [[r w m]|] eqn:Hi; [|done].
  destruct a as [i|i ch|i|i ch|i|i], m as [|c|c]; try done; cbn [th_mode r_held w_held act_thread] in *.
  - destruct (Nat.eqb_spec r 0) as [|Hr0]; [done|].
    eapply (after_unlock_less i _ _ ch ts _ (mkProcess l' ts')); [done| |done].
    unfold to_do. cbn. lia.
  - destruct w; [|done].
    eapply (after_unlock_less i _ _ ch ts _ (mkProcess l' ts')); [done| |done].
    unfold to_do. cbn. lia.
  - destruct c; [by eapply (after_lock_less i _ _ _ ts _ (mkProcess l' ts'))|].
    destruct (WriteLock_woken l); [|done..].
    by eapply (after_lock_less i _ _ _ ts _ (mkProcess l' ts')).
Qed.

(** A process in which somebody holds or waits for a lock can go on. *)
Lemma notify_possible m ts : exists chosen ts', notify m chosen ts = Some ts'.
Proof.
  destruct m as [|c|c]; [by exists None, ts| |by eexists None, _].
  destruct (forallb (fun t => negb (sleeps_on c t)) ts) eqn:E.
  - exists None, ts. cbn [notify]. by rewrite E.
  - assert (H : (0 < S_ c ts)%nat).
    { induction ts as [|t ts IH]; [done|]. cbn [forallb] in E. cbn [sum_list_with].
      unfold asleep_num at 1. destruct (sleeps_on c t); [lia|]. cbn [negb andb] in E.
      specialize (IH E). lia. }
    apply sum_pos in H as (j & t & Hj & Ht). exists (Some j). cbn [notify]. rewrite Hj.
    unfold asleep_num in Ht. destruct (sleeps_on c t); [by eexists|lia].
Qed.

Lemma after_unlock_possible i t' ts x :
  exists chosen p', after_unlock i t' chosen ts (Ret x) = Some (Ret p').
Proof.
  destruct x as [l m]. destruct (notify_possible m (<[i := t']> ts)) as (ch & ts' & E).
  exists ch. cbn [after_unlock]. rewrite E. by eexists.
Qed.

Lemma holder_goes_on p i t :
  rw_inv p -> Forall plain (threads p) -> threads p !! i = Some t ->
  (0 < r_held t + w_num t)%nat -> exists p', finish_step p p'.
Proof.
  destruct p as [l ts], t as [r w m]. cbn [threads]. intros Hp Hpl Hi H.
  destruct (Forall_lookup_1 _ _ _ _ Hpl Hi) as [_ Hm]. cbn in Hm, H.
  assert (m = Outside) as ->.
  { destruct m; [done|..]; destruct Hm as [-> ->]; done || lia. }
  destruct (decide (r = 0%nat)) as [->|Hr].
  - destruct w; [|lia]. destruct (WriteUnlock_inv l ts Hp i 0 Hi) as (x & E & _).
    destruct (after_unlock_possible i (mkThread 0 false Outside) ts x) as (ch & p' & H').
    exists p', (CallWriteUnlock i ch). cbn. by rewrite Hi, E.
  - destruct (ReadUnlock_inv l ts Hp i r w Hi Hr) as (x & E & _).
    destruct (after_unlock_possible i (mkThread (r - 1) w Outside) ts x) as (ch & p' & H').
    exists p', (CallReadUnlock i ch). cbn. rewrite Hi, E. cbn. by destruct (Nat.eqb_spec r 0).
Qed.

Lemma woken_goes_on p i r w c :
  rw_inv p -> threads p !! i = Some (mkThread r w (Awake c)) -> exists p', finish_step p p'.
Proof.
  destruct p as [l ts]. cbn [threads]. intros Hp Hi. destruct c.
  - eexists _, (Resume i). split; [done|]. cbn. by rewrite Hi.
  - destruct (WriteLock_woken_inv l ts Hp i r w Hi) as (x & E & _).
    eexists _, (Resume i). split; [done|]. cbn. by rewrite Hi, E.
Qed.

Lemma sum_0_forall {A} (f : A -> nat) l : sum_list_with f l = 0%nat -> Forall (fun x => f x = 0%nat) l.
Proof. induction l as [|x l IH]; cbn; intros H; constructor; [lia|apply IH; lia]. Qed.

Lemma to_do_counts ts :
  (sum_list_with to_do ts = R ts + W ts +
     2 * (S_ cond_read_ ts + A_ cond_read_ ts + S_ cond_write_ ts + A_ cond_write_ ts))%nat.
Proof.
  induction ts as [|t ts IH]; cbn [sum_list_with]; [done|]. rewrite IH. clear IH.
  unfold to_do. thread_cases t; cbn [r_held w_held th_mode]; lia.
Qed.

Lemma nothing_to_do p : rw_inv p -> sum_list_with to_do (threads p) = 0%nat -> at_rest p.
Proof.
  intros Hp H0. split.
  - destruct Hp as [H1 H2 H3 H4 _ _ _ _ _]. rewrite to_do_counts in H0.
    destruct (the_lock p); cbn in *. unfold new_ReadWriteLock. f_equal; lia.
  - eapply Forall_impl; [by apply sum_0_forall|]. intros [r w m]. unfold to_do. cbn.
    destruct r, w, m; try done; lia.
Qed.

Lemma goes_on p :
  rw_inv p -> Forall plain (threads p) -> at_rest p \/ exists p', finish_step p p'.
Proof.
  intros Hp Hpl. destruct (decide (sum_list_with to_do (threads p) = 0%nat)) as [H0|Hpos];
    [left; by apply nothing_to_do|right]. rewrite to_do_counts in Hpos.
  assert (H : (0 < R (threads p) \/ 0 < W (threads p) \/ 0 < A_ cond_read_ (threads p) \/
               0 < A_ cond_write_ (threads p))%nat).
  { pose proof (inv_sleep_r p Hp). pose proof (inv_sleep_w p Hp). lia. }
  destruct H as [H|[H|[H|H]]]; apply sum_pos in H as (i & t & Hi & Ht).
  - eapply holder_goes_on; [done..|]. lia.
  - eapply holder_goes_on; [done..|]. lia.
  - destruct t as [r w [|c|[]]]; cbn in Ht; try lia. by eapply woken_goes_on.
  - destruct t as [r w [|c|[]]]; cbn in Ht; try lia. by eapply woken_goes_on.
Qed.

(** The invariant along an execution that only finishes. *)
Lemma finish_step_inv p p' :
  rw_inv p -> Forall plain (threads p) -> finish_step p p' ->
  rw_inv p' /\ Forall plain (threads p').
Proof.
  intros Hp Hpl (a & Hf & Ha).
  assert (Hn : nests a p = false) by (by destruct a).
  pose proof (run_plain a p p' Hpl Hn Ha) as Hpl'. split; [|done].
  destruct (run_inv a p _ Hp Ha) as (p1 & [= <-] & Hp'). apply Hp'.
  pose proof (plain_total p' Hpl'). destruct Hp as [_ _ _ _ Hs _ _ _ _].
  destruct (finish_step_less p p') as [Hl _]; [by exists a|]. lia.
Qed.

Lemma nsteps_finish n p p' :
  rw_inv p -> Forall plain (threads p) -> nsteps finish_step n p p' ->
  (n + work p' <= work p)%nat /\ rw_inv p' /\ Forall plain (threads p').
Proof.
  intros Hp Hpl H. revert Hp Hpl. induction H as [p|n p q p' Hs H IH]; intros Hp Hpl; [done|].
  destruct (finish_step_inv p q Hp Hpl Hs) as [Hq Hql].
  destruct (IH Hq Hql) as (? & ? & ?).
  pose proof (less_work p q (finish_step_less p q Hs)). split; [lia|done].
Qed.

(** ** Theorems *)

(** C18. The lock excludes: whatever threads do, also threads that ask for a lock while
    they hold one, and however [wait] wakes them, no ASSERT of rwlock.h fails; the
    counters are the numbers of threads they stand for; the thread that writes is alone,
    no other holds the lock to read or to write; and while a writer waits, a thread that
    asks to read, or is woken in [ReadLock], goes to sleep. *)
Theorem rwlock_excludes nested n p :
  reachable nested n p ->
  (forall a o, run a p = Some o -> exists p', o = Ret p') /\
  readers_ (the_lock p) = Z.of_nat (r_total p) /\
  (writers_ (the_lock p) = 1 <-> exists i t, threads p !! i = Some t /\ w_held t = true) /\
  (forall i j t u, threads p !! i = Some t -> threads p !! j = Some u -> w_held t = true ->
     r_held t = 0%nat /\ r_held u = 0%nat /\ (i <> j -> w_held u = false)) /\
  (forall i a p', write_waiters_ (the_lock p) <> 0 -> run a p = Some (Ret p') ->
     a = CallReadLock i \/
       a = Resume i /\ (exists r w, threads p !! i = Some (mkThread r w (Awake cond_read_))) ->
     exists r w, threads p' !! i = Some (mkThread r w (Asleep cond_read_))).
Proof.
  intros Hp%reachable_inv. split; [|split; [|split; [|split]]].
  - intros a o Ha. destruct (run_inv a p o Hp Ha) as (p' & -> & _). by exists p'.
  - apply (inv_readers p Hp).
  - destruct Hp as [_ Hw _ _ _ _ Hx _ _]. rewrite Hw. split.
    + intros H. destruct (sum_pos w_num (threads p)) as (i & t & Hi & Ht); [lia|].
      exists i, t. split; [done|]. cbn in Ht. by destruct (w_held t); [|lia].
    + intros (i & t & Hi & Ht). pose proof (sum_at w_num _ i t Hi) as H. cbn in H.
      rewrite Ht in H. lia.
  - intros i j t u. by apply inv_exclusive.
  - intros i a p'. apply readers_give_way.
Qed.

(** C19. Everybody is served: if threads ask for a lock only while they hold none, then
    from every state that can be reached, threads that merely give back what they hold
    and go on when they have been woken reach the state in which nobody holds or waits
    for anything and the lock is as it was made; every such execution ends after at most
    [work] steps, and it can only end there.  No wake-up is lost, although [wait] may
    return for no reason and [notify_one] may wake any of the sleepers. *)
Theorem rwlock_serves_everyone n p :
  reachable false n p ->
  (exists p', rtc finish_step p p' /\ at_rest p') /\
  (forall k p', nsteps finish_step k p p' ->
     (k <= work p)%nat /\ (at_rest p' \/ exists p'', finish_step p' p'')).
Proof.
  intros Hr. pose proof (reachable_inv _ _ _ Hr) as Hp. pose proof (reachable_plain _ _ Hr) as Hpl.
  split.
  - clear Hr. remember (work p) as m eqn:Hm. revert p Hm Hp Hpl.
    induction (lt_wf m) as [m _ IH]. intros p -> Hp Hpl.
    destruct (goes_on p Hp Hpl) as [Hrest|[q Hq]]; [by exists p|].
    destruct (finish_step_inv p q Hp Hpl Hq) as [Hq1 Hq2].
    destruct (IH (work q) (less_work p q (finish_step_less p q Hq)) q eq_refl Hq1 Hq2) as (p' & H1 & H2).
    exists p'. split; [by eapply rtc_l|done].
  - intros k p' Hk. destruct (nsteps_finish k p p' Hp Hpl Hk) as (? & Hp' & Hpl').
    split; [lia|by apply goes_on].
Qed.

(** ** Concrete executions *)

Fixpoint run_all (acts : list act) (p : process) : option process :=
  match acts with
  | [] => Some p
  | a :: acts => match run a p with Some (Ret p) => run_all acts p | _ => None end
  end.

(** Is this an execution of threads of the given kind? *)
Fixpoint allowed (nested : bool) (acts : list act) (p : process) : bool :=
  match acts with
  | [] => true
  | a :: acts =>
      implb (nests a p) nested &&
      match run a p with
      | Some (Ret p) => (Z.of_nat (r_total p) <? 2 ^ 32) && allowed nested acts p
      | _ => false
      end
  end.

Lemma run_all_reachable nested n acts p :
  Z.of_nat n < 2 ^ 32 -> allowed nested acts (new_process n) = true ->
  run_all acts (new_process n) = Some p -> reachable nested n p.
Proof.
  intros Hn. unfold reachable. generalize (new_process n) as p0. intros p0 Ha Hr. split; [done|].
  revert p0 Ha Hr. induction acts as [|a acts IH]; cbn [run_all allowed]; intros p0 Ha Hr.
  { by simplify_eq. }
  apply andb_true_iff in Ha as [Hne Ha]. destruct (run a p0) as [[p1| |]|] eqn:E; [|done..].
  apply andb_true_iff in Ha as [Hb Ha]. eapply rtc_l; [|by apply IH]. exists a.
  split; [done|]. split; [|lia]. intros H. rewrite H in Hne. by destruct nested.
Qed.

(** Thread 0 reads, 1 wants to write, 2 wants to read and has to wait behind 1. *)
Definition demo_acts : list act :=
  [CallReadLock 0; CallWriteLock 1; CallReadLock 2; Spurious 1; Resume 1].
Definition demo : process :=
  mkProcess (mkReadWriteLock 1 0 1 1)
    [mkThread 1 false Outside; mkThread 0 false (Asleep cond_write_);
     mkThread 0 false (Asleep cond_read_)].

Lemma demo_reachable : reachable false 3 demo.
Proof. apply (run_all_reachable false 3 demo_acts); [lia|done|done]. Qed.

Lemma rwlock_excludes_witness :
  reachable false 3 demo /\ readers_ (the_lock demo) = Z.of_nat (r_total demo).
Proof.
  split; [apply demo_reachable|]. destruct (rwlock_excludes false 3 demo demo_reachable) as (_ & H & _).
  exact H.
Defined.

Lemma rwlock_serves_everyone_witness :
  reachable false 3 demo /\ work demo = 20%nat /\ exists p', rtc finish_step demo p' /\ at_rest p'.
Proof.
  split; [apply demo_reachable|]. split; [vm_compute; reflexivity|].
  destruct (rwlock_serves_everyone 3 demo demo_reachable) as [H _]. exact H.
Defined.

(** A reader that asks for the lock again while a writer waits waits for ever: the
    writer waits for it and it for the writer. *)
Definition deadlock : process :=
  mkProcess (mkReadWriteLock 1 0 1 1)
    [mkThread 1 false (Asleep cond_read_); mkThread 0 false (Asleep cond_write_)].

Lemma nested_read_deadlocks :
  reachable true 2 deadlock /\ (forall p', ~ finish_step deadlock p').
Proof.
  split; [apply (run_all_reachable true 2 [CallReadLock 0; CallWriteLock 1; CallReadLock 0]); [lia|done|done]|].
  intros p' (a & Hf & Ha). unfold run, deadlock in Ha. destruct a as [i|i ch|i|i ch|i|i]; try done;
    cbn [act_thread] in Ha; (destruct i as [|[|i]]; [..|cbn in Ha]; done).
Qed.

(** [ASSERT(readers_ >= 0)] tests an unsigned number: it never fails, and an unlock that
    has no lock leaves 2^32 - 1 readers. *)
Lemma ReadUnlock_assert_is_vacuous :
  ReadUnlock new_ReadWriteLock = Ret (set_readers (2 ^ 32 - 1) new_ReadWriteLock, Nothing) /\
  forall l, ReadUnlock l <> Crash.
Proof.
  split; [reflexivity|]. intros l. unfold ReadUnlock. cbn [readers_ set_readers].
  pose proof (Z.mod_pos_bound (readers_ l - 1) (2 ^ 32)). unfold u32.
  by replace (0 <=? (readers_ l - 1) mod 2 ^ 32) with true by lia.
Qed.
