(* ===== verification/BaseMessageQueue.v ===== *)
(** The message queue of src/base/messagequeue.h: any number of threads post messages,
    one worker thread runs them ([Process]).

    What a thread does while it holds [mutex_] is one section.  [quit_], [processed_] and
    the calls of [notify_all] are outside the sections, so that they are steps of their
    own: between the section of [Post] and its [notify_all], or between the test of
    [quit_] and the section that follows it, anything may happen. *)
From Stdlib Require Import ZArith Lia Bool.
From stdpp Require Import base list numbers relations.
From S2P Require Import Prelude.

Section MessageQueue.
Context {Message : Type}.

(** ** The queue *)

Record MessageQueue := mkMessageQueue {
  message_queue_ : list Message;
  queue_size_ : Z;
  busy_ : Z;
  quit_ : bool;
  processed_ : Z
}.

Definition new_MessageQueue : MessageQueue := mkMessageQueue [] 0 0 false 0.

(** [message_queue_.push_back (m); ++ queue_size_], the section of [Post (m)]. *)
Definition push (m : Message) (q : MessageQueue) : MessageQueue :=
  mkMessageQueue (message_queue_ q ++ [m]) (u64 (queue_size_ q + 1)) (busy_ q) (quit_ q) (processed_ q).

(** The section of [Post (beg, end)], and the number it returns. *)
Definition push_range (ms : list Message) (q : MessageQueue) : MessageQueue :=
  fold_left (fun q m => push m q) ms q.
Definition push_range_count (ms : list Message) : Z := s32 (Z.of_nat (length ms)).

Definition set_quit (q : MessageQueue) : MessageQueue :=
  mkMessageQueue (message_queue_ q) (queue_size_ q) (busy_ q) true (processed_ q).
Definition set_busy (v : Z) (q : MessageQueue) : MessageQueue :=
  mkMessageQueue (message_queue_ q) (queue_size_ q) v (quit_ q) (processed_ q).
Definition count_processed (q : MessageQueue) : MessageQueue :=
  mkMessageQueue (message_queue_ q) (queue_size_ q) (busy_ q) (quit_ q) (u64 (processed_ q + 1)).

(** The loop of [ProcessAll] from its test to [alock.unlock ()], or to its end. *)
Definition take_message (q : MessageQueue) : MessageQueue * option Message :=
  match message_queue_ q with
  | [] => (set_busy (queue_size_ q) q, None)
  | p :: ms => (mkMessageQueue ms (u64 (queue_size_ q - 1)) (busy_ q) (quit_ q) (processed_ q), Some p)
  end.

(** ** The worker and the other threads *)

(** Where the worker is: at the test of [quit_] in [Process]; about to lock [mutex_] and
    look at the queue; in [wait]; returned from [wait] by a wake-up; about to lock
    [mutex_] in [ProcessAll]; in [p->Run ()]; behind it; about to lock [mutex_] again; or
    [Process] has returned. *)
Inductive worker :=
| AtTest
| AtLook
| Waiting
| Woken
| AtProcessAll
| Running (p : Message)
| AfterRun
| AtRelock
| Finished.

(** [notifies]: the threads that have given [mutex_] back (or set [quit_]) and not yet
    called [notify_all].  [posted] and [ran] record the messages that were posted and
    those whose [Run] has returned, in order. *)
Record system := mkSystem {
  mq : MessageQueue;
  pc : worker;
  notifies : nat;
  posted : list Message;
  ran : list Message
}.

Definition new_system : system := mkSystem new_MessageQueue AtTest 0 [] [].

(** [Post (beg, end)]; [Post (m)] is the case of one message. *)
Definition post (ms : list Message) (s : system) : system :=
  mkSystem (push_range ms (mq s)) (pc s) (S (notifies s)) (posted s ++ ms) (ran s).

Definition close (s : system) : system :=
  mkSystem (set_quit (mq s)) (pc s) (S (notifies s)) (posted s) (ran s).

(** [queue_not_empty_.notify_all ()]: the worker is the only thread that waits. *)
Definition notify_all (s : system) : option system :=
  match notifies s with
  | O => None
  | S k =>
      Some (mkSystem (mq s) (match pc s with Waiting => Woken | c => c end) k (posted s) (ran s))
  end.

(** A [wait] may return without a notification. *)
Definition spurious (s : system) : option system :=
  match pc s with
  | Waiting => Some (mkSystem (mq s) Woken (notifies s) (posted s) (ran s))
  | _ => None
  end.

(** The worker's next step. *)
Definition goto (c : worker) (s : system) : system :=
  mkSystem (mq s) c (notifies s) (posted s) (ran s).
Definition set_mq (q : MessageQueue) (s : system) : system :=
  mkSystem q (pc s) (notifies s) (posted s) (ran s).

Definition take_next (s : system) : system :=
  let '(q, m) := take_message (mq s) in
  goto (match m with Some p => Running p | None => AtTest end) (set_mq q s).

Definition Process_step (s : system) : option system :=
  match pc s with
  | AtTest => Some (goto (if quit_ (mq s) then Finished else AtLook) s)
  | AtLook => Some (goto (match message_queue_ (mq s) with [] => Waiting | _ => AtProcessAll end) s)
  | Waiting => None
  | Woken => Some (goto AtProcessAll s)
  | AtProcessAll => Some (take_next (set_mq (set_busy (queue_size_ (mq s)) (mq s)) s))
  | Running p => Some (mkSystem (mq s) AfterRun (notifies s) (posted s) (ran s ++ [p]))
  | AfterRun => Some (goto AtRelock (set_mq (count_processed (mq s)) s))
  | AtRelock => Some (take_next s)
  | Finished => None
  end.

(** An execution, with fewer than 2^64 messages in the queue at a time. *)
Inductive mq_step (s s' : system) : Prop :=
| step_post ms : s' = post ms s -> Z.of_nat (length (message_queue_ (mq s'))) < 2 ^ 64 -> mq_step s s'
| step_close : s' = close s -> mq_step s s'
| step_notify : notify_all s = Some s' -> mq_step s s'
| step_spurious : spurious s = Some s' -> mq_step s s'
| step_process : Process_step s = Some s' -> mq_step s s'.

Definition mq_reachable (s : system) : Prop := rtc mq_step new_system s.

(** The steps that are under way: those of the worker and the outstanding [notify_all]s. *)
Definition mq_internal (s s' : system) : Prop :=
  notify_all s = Some s' \/ Process_step s = Some s'.

(** The message the worker has taken and not yet run. *)
Definition in_hand (s : system) : list Message :=
  match pc s with Running p => [p] | _ => [] end.

(** ** The invariant *)

Record mq_inv (s : system) : Prop := {
  inv_fifo : posted s = ran s ++ in_hand s ++ message_queue_ (mq s);
  inv_size : queue_size_ (mq s) = Z.of_nat (length (message_queue_ (mq s)));
  inv_bound : Z.of_nat (length (message_queue_ (mq s))) < 2 ^ 64;
  inv_processed : processed_ (mq s) =
    u64 (Z.of_nat (length (ran s)) - match pc s with AfterRun => 1 | _ => 0 end);
  inv_wait : pc s = Waiting -> message_queue_ (mq s) <> [] -> (0 < notifies s)%nat;
  inv_quit : pc s = Finished -> quit_ (mq s) = true
}.

Lemma new_system_inv : mq_inv new_system.
Proof. split; cbn; try done; lia. Qed.

Lemma push_range_fields ms q :
  message_queue_ (push_range ms q) = message_queue_ q ++ ms /\
  busy_ (push_range ms q) = busy_ q /\ quit_ (push_range ms q) = quit_ q /\
  processed_ (push_range ms q) = processed_ q /\
  (queue_size_ q = Z.of_nat (length (message_queue_ q)) ->
   Z.of_nat (length (message_queue_ q ++ ms)) < 2 ^ 64 ->
   queue_size_ (push_range ms q) = Z.of_nat (length (message_queue_ q ++ ms))).
Proof.
  revert q. induction ms as [|m ms IH]; intros q; cbn [push_range fold_left].
  { by rewrite app_nil_r. }
  destruct (IH (push m q)) as (E1 & E2 & E3 & E4 & E5). fold (push_range ms (push m q)).
  cbn [push message_queue_ queue_size_ busy_ quit_ processed_] in *.
  rewrite <- app_assoc in *. cbn [app] in *. repeat split; try done.
  intros Hq Hb. apply E5; [|done]. rewrite length_app in *. cbn [length] in *.
  unfold u64. rewrite Z.mod_small; lia.
Qed.

Lemma post_inv ms s :
  mq_inv s -> Z.of_nat (length (message_queue_ (mq (post ms s)))) < 2 ^ 64 -> mq_inv (post ms s).
Proof.
  intros [Hf Hs Hb Hp Hw Hq]. cbn [post mq].
  destruct (push_range_fields ms (mq s)) as (E1 & E2 & E3 & E4 & E5). intros Hl. rewrite E1 in Hl.
  split; cbn [post mq pc notifies posted ran in_hand]; rewrite ?E1, ?E3, ?E4; auto; [|lia].
  unfold in_hand in *. cbn [pc]. rewrite Hf. by rewrite <- !app_assoc.
Qed.

Lemma take_next_inv s :
  mq_inv s -> pc s = AtProcessAll \/ pc s = AtRelock -> mq_inv (take_next s).
Proof.
  intros [Hf Hs Hb Hp Hw Hq] Hc. unfold take_next, take_message.
  assert (Hh : in_hand s = []) by (unfold in_hand; by destruct Hc as [-> | ->]).
  rewrite Hh in Hf. assert (Hp' : processed_ (mq s) = u64 (Z.of_nat (length (ran s)))).
  { rewrite Hp. f_equal. destruct Hc as [-> | ->]; lia. }
  destruct (message_queue_ (mq s)) as [|p ms] eqn:E; unfold goto, set_mq;
    split; cbn [mq pc notifies posted ran in_hand set_busy message_queue_ queue_size_ processed_ quit_];
    rewrite ?E; cbn [app length] in *; auto; try done; try lia.
  - rewrite Hp'. f_equal. lia.
  - unfold u64. rewrite Z.mod_small; lia.
  - rewrite Hp'. f_equal. lia.
Qed.

Lemma set_busy_inv v s : mq_inv s -> mq_inv (set_mq (set_busy v (mq s)) s).
Proof. intros []. by split. Qed.

(** A worker that has no message in hand, and is not behind [Run]. *)
Definition free (c : worker) : bool := match c with Running _ | AfterRun => false | _ => true end.

Lemma goto_inv c s :
  mq_inv s -> free (pc s) = true -> free c = true ->
  (c = Waiting -> message_queue_ (mq s) = []) -> (c = Finished -> quit_ (mq s) = true) ->
  mq_inv (goto c s).
Proof.
  intros [Hf Hs Hb Hp Hw Hq] Hpc Hc Hcw Hcq.
  split; cbn [goto mq pc notifies posted ran]; auto.
  - rewrite Hf. unfold in_hand. cbn [goto pc]. destruct (pc s); try done; by destruct c.
  - rewrite Hp. destruct (pc s); try done; by destruct c.
  - intros E. by rewrite (Hcw E).
Qed.

Lemma Process_step_inv s s' : mq_inv s -> Process_step s = Some s' -> mq_inv s'.
Proof.
  intros Hi. unfold Process_step. destruct (pc s) as [| | | | |p| | |] eqn:Hc; intros H; try done;
    injection H as H; subst s'.
  - apply goto_inv; [done|by rewrite Hc|by destruct (quit_ _)|by destruct (quit_ _)..].
  - apply goto_inv; [done|by rewrite Hc|by destruct (message_queue_ _)|by destruct (message_queue_ _)..].
  - apply goto_inv; [done|by rewrite Hc|done..].
  - apply take_next_inv; [by apply set_busy_inv|by left].
  - destruct Hi as [Hf Hs Hb Hp Hw Hq]. unfold in_hand in Hf. rewrite Hc in Hf, Hp.
    split; cbn [mq pc notifies posted ran]; auto; try done; unfold in_hand; cbn [pc app].
    + rewrite Hf. by rewrite <- app_assoc.
    + rewrite Hp, length_app. cbn [length]. f_equal. lia.
  - destruct Hi as [Hf Hs Hb Hp Hw Hq]. unfold in_hand in Hf. rewrite Hc in Hf, Hp.
    split; cbn [goto set_mq mq pc notifies posted ran count_processed message_queue_ queue_size_
                processed_ quit_]; auto; try done.
    rewrite Hp. unfold u64. rewrite Zplus_mod_idemp_l. f_equal. lia.
  - apply take_next_inv; [done|by right].
Qed.

Lemma wake_inv s k :
  mq_inv s -> mq_inv (mkSystem (mq s) (match pc s with Waiting => Woken | c => c end) k (posted s) (ran s)).
Proof.
  intros [Hf Hs Hb Hp Hw Hq]. unfold in_hand in *.
  split; cbn [mq pc notifies posted ran]; auto; unfold in_hand; cbn [pc]; destruct (pc s); auto; done.
Qed.

Lemma mq_step_inv s s' : mq_inv s -> mq_step s s' -> mq_inv s'.
Proof.
  intros Hi [ms -> Hl| -> |H|H|H].
  - by apply post_inv.
  - destruct Hi as [Hf Hs Hb Hp Hw Hq].
    split; cbn [close mq pc notifies posted ran set_quit message_queue_ queue_size_ processed_ quit_];
      auto; try done. lia.
  - unfold notify_all in H. destruct (notifies s) as [|k]; simplify_eq. by apply wake_inv.
  - unfold spurious in H. destruct (pc s) eqn:Hc; simplify_eq.
    pose proof (wake_inv s (notifies s) Hi) as Hw. by rewrite Hc in Hw.
  - by eapply Process_step_inv.
Qed.

Lemma reachable_mq_inv s : mq_reachable s -> mq_inv s.
Proof.
  apply (rtc_ind_r (fun s => mq_inv s)); [apply new_system_inv|].
  intros s1 s2 _ H IH. by eapply mq_step_inv.
Qed.

(** ** Progress *)

Definition pc_weight (c : worker) (q : list Message) : nat :=
  match c with
  | AtTest => match q with [] => 2 | _ => 5 end
  | AtLook => match q with [] => 1 | _ => 4 end
  | Waiting | Finished => 0
  | Woken => 4
  | AtProcessAll | AtRelock => 3
  | Running _ => 5
  | AfterRun => 4
  end.

(** What is left to do: the messages, the wake-ups, and the way of the worker to [wait]. *)
Definition mq_work (s : system) : nat :=
  10 * length (message_queue_ (mq s)) + 10 * notifies s + pc_weight (pc s) (message_queue_ (mq s)).

Lemma internal_less s s' : mq_internal s s' -> (mq_work s' < mq_work s)%nat.
Proof.
  unfold mq_work. intros [H|H].
  - unfold notify_all in H. destruct (notifies s) as [|k] eqn:E; simplify_eq. cbn [mq pc notifies].
    destruct (pc s); cbn [pc_weight]; lia.
  - unfold Process_step, take_next, take_message in H.
    destruct (pc s) as [| | | | |p| | |] eqn:Hc; try done; injection H as H; subst s'.
    + cbn [goto mq pc notifies]. destruct (quit_ _), (message_queue_ _); cbn [pc_weight]; lia.
    + cbn [goto mq pc notifies]. destruct (message_queue_ _); cbn [pc_weight]; lia.
    + cbn [goto mq pc notifies pc_weight]. lia.
    + cbn [set_mq set_busy mq message_queue_]. destruct (message_queue_ (mq s)) as [|p ms] eqn:E;
        cbn [goto mq pc notifies set_mq set_busy message_queue_ length]; rewrite ?E;
        cbn [length pc_weight]; lia.
    + cbn [mq pc notifies pc_weight]. lia.
    + cbn [goto set_mq count_processed mq pc notifies message_queue_ pc_weight]. lia.
    + destruct (message_queue_ (mq s)) as [|p ms] eqn:E;
        cbn [goto mq pc notifies set_mq set_busy message_queue_ length]; rewrite ?E;
        cbn [length pc_weight]; lia.
Qed.

Lemma internal_keeps s s' :
  mq_internal s s' -> posted s' = posted s /\ quit_ (mq s') = quit_ (mq s) /\ (notifies s' <= notifies s)%nat.
Proof.
  intros [H|H].
  - unfold notify_all in H. destruct (notifies s) as [|k]; simplify_eq. cbn. repeat split; lia.
  - unfold Process_step, take_next, take_message in H.
    destruct (pc s); try done; injection H as H; subst s'; try done.
    + cbn [set_mq set_busy mq message_queue_]. by destruct (message_queue_ (mq s)).
    + by destruct (message_queue_ (mq s)).
Qed.

Lemma internal_stops s :
  (exists s', mq_internal s s') \/ notifies s = 0%nat /\ (pc s = Waiting \/ pc s = Finished).
Proof.
  destruct (notifies s) as [|k] eqn:E.
  - destruct (Process_step s) as [s'|] eqn:H; [left; exists s'; by right|].
    right. split; [done|]. unfold Process_step in H. destruct (pc s); auto; done.
  - left. eexists. left. unfold notify_all. by rewrite E.
Qed.

Lemma internal_runs k s s' :
  mq_inv s -> nsteps mq_internal k s s' ->
  (k + mq_work s' <= mq_work s)%nat /\ mq_inv s' /\ posted s' = posted s /\
  quit_ (mq s') = quit_ (mq s).
Proof.
  intros Hi H. revert Hi. induction H as [s|k s t s' Hs H IH]; intros Hi; [done|].
  assert (Ht : mq_inv t).
  { eapply mq_step_inv; [done|]. destruct Hs; [by apply step_notify|by apply step_process]. }
  destruct (IH Ht) as (? & ? & E1 & E2). pose proof (internal_less s t Hs).
  destruct (internal_keeps s t Hs) as (E3 & E4 & _). split; [lia|]. by rewrite E1, E2.
Qed.
End MessageQueue.

#[global] Arguments system Message : clear implicits.
#[global] Arguments worker Message : clear implicits.

(** ** Theorems *)

(** C20. The messages run in the order they were posted, each once: at every moment, under
    every interleaving, the posted messages are those that have run, then the one in
    hand, then those in the queue, and the counters say how many.  When the worker and
    the outstanding notifications go on alone, they stop after at most [mq_work] steps,
    either with the worker asleep, every message having run, or with [Process] returned
    after [Close]: no wake-up for a message is lost. *)
Theorem MessageQueue_runs_in_order {Message} (s : system Message) :
  mq_reachable s ->
  posted s = ran s ++ in_hand s ++ message_queue_ (mq s) /\
  queue_size_ (mq s) = Z.of_nat (length (message_queue_ (mq s))) /\
  (pc s <> AfterRun -> processed_ (mq s) = u64 (Z.of_nat (length (ran s)))) /\
  (forall k s', nsteps mq_internal k s s' ->
     (k <= mq_work s)%nat /\ posted s' = posted s /\
     ((exists s'', mq_internal s' s'') \/
      pc s' = Waiting /\ ran s' = posted s \/
      pc s' = Finished /\ quit_ (mq s) = true)).
Proof.
  intros Hi%reachable_mq_inv. split; [apply (inv_fifo s Hi)|]. split; [apply (inv_size s Hi)|]. split.
  { intros Hc. rewrite (inv_processed s Hi). f_equal. destruct (pc s); lia || done. }
  intros k s' H. destruct (internal_runs k s s' Hi H) as (Hk & Hi' & Hp & Hq).
  split; [lia|]. split; [done|]. destruct (internal_stops s') as [?|[Hn [Hc|Hc]]]; [by left|right..].
  - left. split; [done|]. rewrite <- Hp, (inv_fifo s' Hi'). unfold in_hand. rewrite Hc. cbn [app].
    destruct (message_queue_ (mq s')) eqn:E; [by rewrite app_nil_r|].
    pose proof (inv_wait s' Hi' Hc) as Hw. rewrite E, Hn in Hw. specialize (Hw ltac:(done)). lia.
  - right. split; [done|]. rewrite <- Hq. by apply inv_quit.
Qed.

(** C21. [Close] may be lost, and loses messages: it sets [quit_] without [mutex_], so that
    whenever the worker has just tested [quit_] and the queue is empty, a [Close] and its
    notification may pass before the worker goes to sleep, and then nothing is under way
    that ends the [wait]: a [Join] does not return.  And once [Process] has returned,
    no message that is in the queue or will be posted runs. *)
Theorem Close_is_lost {Message} (s : system Message) :
  mq_reachable s ->
  (pc s = AtLook -> message_queue_ (mq s) = [] -> notifies s = 0%nat ->
   exists s', mq_reachable s' /\ rtc mq_step s s' /\ posted s' = posted s /\
     quit_ (mq s') = true /\ pc s' = Waiting /\ forall s'', ~ mq_internal s' s'') /\
  (pc s = Finished -> forall s', rtc mq_step s s' -> pc s' = Finished /\ ran s' = ran s).
Proof.
  intros Hr. split.
  - intros Hc Hq Hn. pose (s1 := close s). pose (s2 := goto AtLook (set_mq (mq s1) s)).
    exists (goto Waiting (set_mq (set_quit (mq s)) s)).
    assert (H : rtc mq_step s (goto Waiting (set_mq (set_quit (mq s)) s))).
    { eapply rtc_l; [by apply step_close|]. eapply rtc_l.
      { apply step_notify. unfold notify_all, close. cbn [notifies mq pc posted ran].
        by rewrite Hn, Hc. }
      eapply rtc_once, step_process. cbn [Process_step pc]. cbn [mq set_quit message_queue_].
      rewrite Hq. unfold goto, set_mq. cbn [mq notifies posted ran]. by rewrite Hn. }
    split; [by eapply rtc_trans|]. repeat split; [done..|].
    intros s'' [E|E]; [|done]. unfold notify_all in E. cbn [goto set_mq notifies] in E. by rewrite Hn in E.
  - intros Hc s' H. clear Hr. induction H as [s|s t s' Hs H IH]; [done|].
    assert (pc t = Finished /\ ran t = ran s) as [Ht Hrt].
    { destruct Hs as [ms -> _| -> |E|E|E]; [done..| | |].
      - unfold notify_all in E. destruct (notifies s); simplify_eq. cbn. by rewrite Hc.
      - unfold spurious in E. by rewrite Hc in E.
      - unfold Process_step in E. by rewrite Hc in E. }
    rewrite <- Hrt. by apply IH.
Qed.

(** ** Concrete executions *)

(** Message 7 is running, 8 and 9 were posted behind it and their notification is due. *)
Definition demo_queue : system Z :=
  mkSystem (mkMessageQueue [8; 9] 2 1 false 0) (Running 7) 1 [7; 8; 9] [].

Lemma demo_queue_reachable : mq_reachable demo_queue.
Proof.
  unfold mq_reachable.
  eapply rtc_l; [by apply (step_process _ (goto AtLook new_system))|].
  eapply rtc_l; [by apply (step_process _ (goto Waiting new_system))|].
  eapply rtc_l; [eapply (step_post _ _ [7]); [done|vm_compute; reflexivity]|].
  eapply rtc_l; [apply step_notify; vm_compute; reflexivity|].
  eapply rtc_l; [apply step_process; vm_compute; reflexivity|].
  eapply rtc_l; [apply step_process; vm_compute; reflexivity|].
  eapply rtc_l; [|apply rtc_refl].
  eapply (step_post _ _ [8; 9]); [vm_compute; reflexivity|vm_compute; reflexivity].
Qed.

Lemma MessageQueue_runs_in_order_witness :
  mq_reachable demo_queue /\ posted demo_queue = [] ++ [7] ++ [8; 9] /\ mq_work demo_queue = 35%nat.
Proof.
  split; [apply demo_queue_reachable|]. split; [|vm_compute; reflexivity].
  destruct (MessageQueue_runs_in_order demo_queue demo_queue_reachable) as [H _]. exact H.
Defined.

Lemma Close_is_lost_witness :
  exists s' : system Z, mq_reachable s' /\ quit_ (mq s') = true /\ pc s' = Waiting /\
    forall s'', ~ mq_internal s' s''.
Proof.
  assert (Hr : mq_reachable (goto AtLook (@new_system Z))).
  { eapply rtc_once, step_process. reflexivity. }
  destruct (Close_is_lost (goto AtLook (@new_system Z)) Hr) as [H _].
  destruct (H eq_refl eq_refl eq_refl) as (s' & H1 & _ & _ & H2 & H3 & H4). exists s'. auto.
Defined.

(** A worker to which a message was just posted is not [busy] until it wakes up. *)
Lemma busy_is_late {Message} (ms : list Message) :
  busy_ (mq (post ms new_system)) = 0 /\ message_queue_ (mq (post ms new_system)) = ms.
Proof.
  cbn [post mq]. destruct (push_range_fields ms (mq (@new_system Message))) as (E1 & E2 & _).
  by rewrite E1, E2.
Qed.
