(* ===== verification/BaseThreadPool.v ===== *)
(** The thread pool of src/base/threadpool.h and threadpool.cc: a list of workers, each
    with the message queue of BaseMessageQueue, and the choice of the worker that gets the
    next message.

    Workers are named by the order in which they were made; [heap] holds those that exist.
    [i_] is the iterator into [workers_]: the worker it points at, or [None] for the end.
    What a call reads of the workers while they run is an argument: [busy w] is what
    [w->busy ()] returns, [size w] what [w->size ()] returns (each is read once in a
    call); [starts w] tells whether the thread of a new worker starts, and [joins w]
    whether the thread of a worker ends, so that [join] returns. *)
From Stdlib Require Import ZArith Lia Bool.
From stdpp Require Import base list numbers gmap relations.
From S2P Require Import Prelude.
From S2P Require Import BaseMessageQueue.

Section ThreadPool.
Context {Message : Type}.

(** ** The pool *)

Record ThreadPool := mkThreadPool {
  max_size_ : Z;
  message_count_ : Z;
  workers_ : list nat;
  i_ : option nat;
  heap : gmap nat (system Message);
  next_worker : nat
}.

Definition set_max_size (v : Z) (p : ThreadPool) : ThreadPool :=
  mkThreadPool v (message_count_ p) (workers_ p) (i_ p) (heap p) (next_worker p).
Definition set_message_count (v : Z) (p : ThreadPool) : ThreadPool :=
  mkThreadPool (max_size_ p) v (workers_ p) (i_ p) (heap p) (next_worker p).
Definition set_workers (v : list nat) (p : ThreadPool) : ThreadPool :=
  mkThreadPool (max_size_ p) (message_count_ p) v (i_ p) (heap p) (next_worker p).
Definition set_i (v : option nat) (p : ThreadPool) : ThreadPool :=
  mkThreadPool (max_size_ p) (message_count_ p) (workers_ p) v (heap p) (next_worker p).
Definition set_heap (v : gmap nat (system Message)) (p : ThreadPool) : ThreadPool :=
  mkThreadPool (max_size_ p) (message_count_ p) (workers_ p) (i_ p) v (next_worker p).

(** ++ of an iterator at worker [w]: [None] when [w] is not in the list any more, which is
    undefined behaviour. *)
Fixpoint iterator_next (w : nat) (ws : list nat) : option (option nat) :=
  match ws with
  | [] => None
  | x :: ws => if (x =? w)%nat then Some (head ws) else iterator_next w ws
  end.

(** [Create]: the new worker, or 0 when its thread does not start. *)
Definition Create (starts : nat -> bool) (p : ThreadPool) : ThreadPool * option nat :=
  let w := next_worker p in
  if starts w then
    (mkThreadPool (max_size_ p) (message_count_ p) (workers_ p ++ [w]) (i_ p)
       (<[w := new_system]> (heap p)) (S w), Some w)
  else
    (mkThreadPool (max_size_ p) (message_count_ p) (workers_ p) (i_ p) (heap p) (S w), None).

(** The loop of [GetIdle], with [k] turns left: the worker that is not busy, if one was
    found, the iterator, and [idle_worker_]. *)
Fixpoint scan (busy : nat -> Z) (ws : list nat) (k : nat) (it : option nat)
    (min_busy_ : Z) (idle_worker_ : option nat) : outcome (option nat * option nat * option nat) :=
  match k with
  | O => Ret (None, it, idle_worker_)
  | S k =>
      match match it with None => head ws | Some w => Some w end with
      | None => Crash
      | Some mq =>
          match iterator_next mq ws with
          | None => Crash
          | Some it =>
              if busy mq =? 0 then Ret (Some mq, it, idle_worker_)
              else if busy mq <? min_busy_ then scan busy ws k it (busy mq) (Some mq)
              else scan busy ws k it min_busy_ idle_worker_
          end
      end
  end.

Definition GetIdle (busy : nat -> Z) (starts : nat -> bool) (p : ThreadPool)
    : outcome (ThreadPool * option nat) :=
  let worker_count := length (workers_ p) in
  let! (found, it, idle_worker_) := scan busy (workers_ p) worker_count (i_ p) 0xffff None in
  let p := set_i it p in
  match found with
  | Some mq => Ret (p, Some mq)
  | None =>
      if Z.of_nat worker_count <? max_size_ p then Ret (Create starts p)
      else
        match idle_worker_ with
        | Some w => Ret (p, Some w)
        | None =>
            match workers_ p with
            | [] => Crash
            | w :: _ => Ret (set_i (Some w) p, Some w)
            end
        end
  end.

(** [Post (beg, end)] returns whether a worker took the messages; [Post (m)], which counts
    one, is the case of one message. *)
Definition Post (busy : nat -> Z) (starts : nat -> bool) (ms : list Message) (p : ThreadPool)
    : outcome (ThreadPool * bool) :=
  let! (p, r) := GetIdle busy starts p in
  match r with
  | None => Ret (p, false)
  | Some w =>
      match heap p !! w with
      | None => Crash
      | Some s =>
          Ret (set_message_count (s32 (message_count_ p + push_range_count ms))
                 (set_heap (<[w := post ms s]> (heap p)) p), true)
      end
  end.

(** [w->Close ()]. *)
Definition close_worker (w : nat) (p : ThreadPool) : outcome ThreadPool :=
  match heap p !! w with
  | None => Crash
  | Some s => Ret (set_heap (<[w := close s]> (heap p)) p)
  end.

(** [delete w]: joins the thread; [NoFuel] is a [join] that does not return. *)
Definition delete_worker (joins : nat -> bool) (w : nat) (p : ThreadPool) : outcome ThreadPool :=
  match heap p !! w with
  | None => Crash
  | Some _ => if joins w then Ret (set_heap (delete w (heap p)) p) else NoFuel
  end.

(** The loop of [Shrunk]: [kept] are the workers before [it], [rest] those from it on. *)
Fixpoint Shrunk_loop (size : nat -> Z) (joins : nat -> bool) (kept rest : list nat) (n : Z)
    (p : ThreadPool) : outcome ThreadPool :=
  match rest with
  | [] => Ret p
  | w :: rest =>
      if size w =? 0 then
        let p := set_workers (kept ++ rest) p in
        let! p := close_worker w p in
        let! p := delete_worker joins w p in
        if u64 (n - 1) =? 0 then Ret p
        else Shrunk_loop size joins kept rest (u64 (n - 1)) p
      else Shrunk_loop size joins (kept ++ [w]) rest n p
  end.
Definition Shrunk (size : nat -> Z) (joins : nat -> bool) (n : Z) (p : ThreadPool) : outcome ThreadPool :=
  Shrunk_loop size joins [] (workers_ p) n p.

Fixpoint create_many (starts : nat -> bool) (k : nat) (p : ThreadPool) : ThreadPool :=
  match k with
  | O => p
  | S k => create_many starts k (Create starts p).1
  end.

Definition set_size (size : nat -> Z) (starts joins : nat -> bool) (n max_size : Z) (p : ThreadPool)
    : outcome ThreadPool :=
  let current := Z.of_nat (length (workers_ p)) in
  let! p :=
    if n <? current then Shrunk size joins n p
    else if current <? n then Ret (create_many starts (Z.to_nat (n - current)) p)
    else Ret p in
  Ret (if negb (max_size =? 0) then set_max_size max_size p else p).

(** The constructor. *)
Definition new_ThreadPool (starts : nat -> bool) (init_size max_size : Z) : ThreadPool :=
  let p := create_many starts (Z.to_nat init_size) (mkThreadPool max_size 0 [] None ∅ 0) in
  set_i (head (workers_ p)) p.

Definition for_workers (f : nat -> ThreadPool -> outcome ThreadPool) (p : ThreadPool) : outcome ThreadPool :=
  fold_left (fun p w => let! p := p in f w p) (workers_ p) (Ret p).

Definition Stop : ThreadPool -> outcome ThreadPool := for_workers close_worker.
Definition Join (joins : nat -> bool) : ThreadPool -> outcome ThreadPool :=
  for_workers (fun w p => match heap p !! w with
                          | None => Crash
                          | Some _ => if joins w then Ret p else NoFuel
                          end).
Definition destroy (joins : nat -> bool) : ThreadPool -> outcome ThreadPool :=
  for_workers (delete_worker joins).

(** ** Well-formed pools *)

Record pool_wf (p : ThreadPool) : Prop := {
  wf_nodup : NoDup (workers_ p);
  wf_iter : forall w, i_ p = Some w -> w ∈ workers_ p;
  wf_heap : forall w, w ∈ workers_ p -> exists s, heap p !! w = Some s /\ mq_reachable s;
  wf_next : forall w, w ∈ workers_ p -> (w < next_worker p)%nat
}.

Lemma Create_wf starts p : pool_wf p -> pool_wf (Create starts p).1.
Proof.
  intros [Hn Hi Hh Hx]. unfold Create. destruct (starts _); cbn [fst];
    split; cbn [workers_ i_ heap next_worker]; auto.
  - apply NoDup_app. split; [done|]. split; [|apply NoDup_singleton].
    intros w Hw ->%list_elem_of_singleton. specialize (Hx _ Hw). lia.
  - intros w Hw%Hi. apply elem_of_app. by left.
  - intros w [Hw| ->%list_elem_of_singleton]%elem_of_app.
    + specialize (Hx _ Hw). rewrite lookup_insert_ne by lia. by apply Hh.
    + rewrite lookup_insert_eq. exists new_system. split; [done|apply rtc_refl].
  - intros w [Hw| ->%list_elem_of_singleton]%elem_of_app; [specialize (Hx _ Hw)|]; lia.
  - intros w Hw. specialize (Hx _ Hw). lia.
Qed.

Lemma create_many_wf starts k p : pool_wf p -> pool_wf (create_many starts k p).
Proof. revert p. induction k as [|k IH]; intros p Hp; [done|]. by apply IH, Create_wf. Qed.

Lemma new_ThreadPool_wf starts init_size max_size : pool_wf (new_ThreadPool starts init_size max_size).
Proof.
  unfold new_ThreadPool. assert (H : pool_wf (mkThreadPool max_size 0 [] None ∅ 0)).
  { split; cbn; try done; [apply NoDup_nil_2|set_solver..]. }
  apply (create_many_wf starts (Z.to_nat init_size)) in H as [Hn Hi Hh Hx].
  split; cbn [set_i workers_ i_ heap next_worker]; auto.
  intros w. destruct (workers_ _) as [|x ws]; [done|]. intros [= ->]. set_solver.
Qed.

(** ** The choice of a worker *)

(** What the loop makes of the workers it visits, in order. *)
Fixpoint choose (busy : nat -> Z) (vs : list nat) (min_busy_ : Z) (idle : option nat)
    : option nat * option nat :=
  match vs with
  | [] => (None, idle)
  | w :: vs =>
      if busy w =? 0 then (Some w, idle)
      else if busy w <? min_busy_ then choose busy vs (busy w) (Some w)
      else choose busy vs min_busy_ idle
  end.

Lemma iterator_next_at w a b : w ∉ a -> iterator_next w (a ++ w :: b) = Some (head b).
Proof.
  induction a as [|x a IH]; intros Hw; cbn; [by rewrite Nat.eqb_refl|].
  destruct (Nat.eqb_spec x w); [set_solver|]. apply IH. set_solver.
Qed.

(** An iterator that is not the end stands at the head of a suffix of the list. *)
Lemma scan_choose busy ws k a b m idle :
  NoDup ws -> ws = a ++ b -> (k <= length b + length ws)%nat -> ws <> [] ->
  exists it, scan busy ws k (head b) m idle =
      Ret ((choose busy (take k (b ++ ws)) m idle).1, it, (choose busy (take k (b ++ ws)) m idle).2) /\
    (forall w, it = Some w -> w ∈ ws) /\
    (forall w, (choose busy (take k (b ++ ws)) m idle).1 = Some w -> iterator_next w ws = Some it).
Proof.
  intros Hn. revert a b m idle. induction k as [|k IH]; intros a b m idle Hws Hk Hne.
  { exists (head b). split; [done|]. split; [|done]. intros w Hw. destruct b as [|x b]; [done|].
    injection Hw as ->. rewrite Hws.
    apply elem_of_app. right. apply list_elem_of_here. }
  assert (exists a' w b', ws = a' ++ w :: b' /\
            match head b with None => head ws | Some w => Some w end = Some w /\
            take (S k) (b ++ ws) = w :: take k (b' ++ ws) /\ (k <= length b' + length ws)%nat)
    as (a' & w & b' & E1 & E2 & E3 & E4).
  { destruct b as [|x b].
    - destruct ws as [|x ws]; [done|]. exists [], x, ws. repeat split; [|cbn in *; lia].
      cbn [app take]. f_equal. cbn in Hk. rewrite !take_app_le; [done|lia].
    - exists a, x, b. repeat split; [done|]. cbn in *. lia. }
  assert (Hw : w ∉ a').
  { rewrite E1 in Hn. apply NoDup_app in Hn as (_ & Hn & _). intros Hin. apply (Hn w Hin), list_elem_of_here. }
  pose proof (iterator_next_at w a' b' Hw) as Hnext. rewrite <- E1 in Hnext.
  assert (E1' : ws = (a' ++ [w]) ++ b') by (rewrite E1, <- app_assoc; done).
  assert (Hb' : forall v, head b' = Some v -> v ∈ ws).
  { intros v Hv. destruct b' as [|y b']; [done|]. injection Hv as ->. rewrite E1.
    apply elem_of_app. right. apply list_elem_of_further, list_elem_of_here. }
  cbn [scan]. rewrite E2, E3, Hnext. cbn [choose]. destruct (busy w =? 0).
  - exists (head b'). split; [done|]. split; [done|]. by intros v [= <-].
  - by destruct (busy w <? m); apply (IH (a' ++ [w]) b').
Qed.

Lemma choose_found busy vs m idle w :
  (choose busy vs m idle).1 = Some w ->
  exists a b, vs = a ++ w :: b /\ Forall (fun v => busy v <> 0) a /\ busy w = 0.
Proof.
  revert m idle. induction vs as [|v vs IH]; intros m idle; cbn [choose]; [done|].
  destruct (Z.eqb_spec (busy v) 0) as [E|E].
  - intros [= ->]. by exists [], vs.
  - intros H. assert (exists m' i', (choose busy vs m' i').1 = Some w) as (m' & i' & H').
    { destruct (busy v <? m); eauto. }
    destruct (IH m' i' H') as (a & b & -> & Ha & Hw). exists (v :: a), b. auto.
Qed.

Lemma choose_none busy vs m idle :
  (choose busy vs m idle).1 = None -> Forall (fun v => busy v <> 0) vs.
Proof.
  revert m idle. induction vs as [|v vs IH]; intros m idle; cbn [choose]; [by constructor|].
  destruct (Z.eqb_spec (busy v) 0) as [E|E]; [done|].
  destruct (busy v <? m); intros H; constructor; eauto.
Qed.

(** Nothing below [m] was seen, or the least that was. *)
Lemma choose_least busy vs m idle :
  (choose busy vs m idle).1 = None ->
  (choose busy vs m idle).2 = idle /\ Forall (fun v => m <= busy v) vs \/
  exists w, (choose busy vs m idle).2 = Some w /\ w ∈ vs /\ busy w < m /\
    Forall (fun v => busy w <= busy v) vs.
Proof.
  revert m idle. induction vs as [|v vs IH]; intros m idle; cbn [choose]; [by left|].
  destruct (Z.eqb_spec (busy v) 0) as [E|E]; [done|].
  destruct (Z.ltb_spec (busy v) m) as [Hm|Hm]; intros H.
  - right. destruct (IH (busy v) (Some v) H) as [[-> Hall]|(w & -> & Hw & Hlt & Hall)].
    + exists v. split; [done|]. split; [apply list_elem_of_here|]. split; [done|]. by constructor.
    + exists w. split; [done|]. split; [by apply list_elem_of_further|]. split; [lia|]. constructor; [lia|done].
  - destruct (IH m idle H) as [[-> Hall]|(w & -> & Hw & Hlt & Hall)].
    + left. split; [done|]. by constructor.
    + right. exists w. split; [done|]. split; [by apply list_elem_of_further|]. split; [done|]. constructor; [lia|done].
Qed.

(** The place of the iterator: the loop visits [b], then [a]. *)
Definition stands_before (p : ThreadPool) (a b : list nat) : Prop :=
  workers_ p = a ++ b /\ i_ p = head b.

Lemma stands_somewhere p : pool_wf p -> exists a b, stands_before p a b.
Proof.
  intros [_ Hi _ _]. destruct (i_ p) as [w|] eqn:E.
  - destruct (list_elem_of_split _ _ (Hi w eq_refl)) as (a & b & Hw). exists a, (w :: b). by split.
  - exists (workers_ p), []. unfold stands_before. by rewrite app_nil_r.
Qed.

(** What the caller of [GetIdle] gets: the first worker that is not busy in the order of
    the ring; else a new one while there may be more; else one that is least busy, or the
    first when all are as busy as can be. *)
Definition chosen (busy : nat -> Z) (starts : nat -> bool) (p : ThreadPool) (visited : list nat)
    (p' : ThreadPool) (r : option nat) : Prop :=
  (exists a w b, visited = a ++ w :: b /\ Forall (fun v => busy v <> 0) a /\ busy w = 0 /\
     r = Some w /\ exists it, iterator_next w (workers_ p) = Some it /\ p' = set_i it p) \/
  Forall (fun v => busy v <> 0) visited /\
  exists it,
    (Z.of_nat (length (workers_ p)) < max_size_ p /\ (p', r) = Create starts (set_i it p) \/
     max_size_ p <= Z.of_nat (length (workers_ p)) /\ p' = set_i it p /\
     exists w, r = Some w /\ w ∈ workers_ p /\
       Forall (fun v => Z.min (busy w) 0xffff <= busy v) visited).

Lemma set_i_wf it p : pool_wf p -> (forall w, it = Some w -> w ∈ workers_ p) -> pool_wf (set_i it p).
Proof. intros [] H. by split. Qed.

Lemma GetIdle_spec busy starts p a b :
  pool_wf p -> stands_before p a b -> workers_ p <> [] ->
  exists p' r, GetIdle busy starts p = Ret (p', r) /\ pool_wf p' /\
    chosen busy starts p (b ++ a) p' r /\ (forall w, r = Some w -> w ∈ workers_ p').
Proof.
  intros Hp [Hw Hi] Hne.
  destruct (scan_choose busy (workers_ p) (length (workers_ p)) a b 0xffff None
              (wf_nodup p Hp) Hw ltac:(lia) Hne) as (it & Hs & Hit & Hnext).
  assert (E : take (length (workers_ p)) (b ++ workers_ p) = b ++ a).
  { rewrite Hw. rewrite app_assoc, take_app_le by (rewrite !length_app; lia).
    apply take_ge. rewrite !length_app. lia. }
  rewrite E in *. unfold GetIdle. rewrite Hi, Hs. cbn [obind].
  pose proof (set_i_wf it p Hp Hit) as Hp'.
  destruct (choose busy (b ++ a) 0xffff None) as [[w|] idle] eqn:Ec; cbn [fst snd] in *.
  - assert (Hc : (choose busy (b ++ a) 0xffff None).1 = Some w) by (by rewrite Ec).
    apply choose_found in Hc as (a' & b' & Hv & Ha & H0).
    eexists _, _. split; [done|]. split; [done|]. split.
    + left. exists a', w, b'. repeat split; try done. exists it. split; [by apply Hnext|done].
    + intros v [= <-]. cbn [set_i workers_]. rewrite Hw. apply elem_of_app.
      assert (Hin : w ∈ b ++ a) by (rewrite Hv; apply elem_of_app; right; apply list_elem_of_here).
      apply elem_of_app in Hin. tauto.
  - assert (Hc : (choose busy (b ++ a) 0xffff None).1 = None) by (by rewrite Ec).
    pose proof (choose_none _ _ _ _ Hc) as Hall. pose proof (choose_least _ _ _ _ Hc) as Hl.
    rewrite Ec in Hl. cbn [snd] in Hl.
    destruct (Z.ltb_spec (Z.of_nat (length (workers_ p))) (max_size_ p)) as [Hlt|Hge];
      cbn [set_i max_size_].
    + replace (Z.of_nat (length (workers_ p)) <? max_size_ p) with true by lia.
      eexists _, _. split; [by rewrite <- surjective_pairing|]. split; [by apply Create_wf|]. split.
      * right. split; [done|]. exists it. left. split; [done|]. by rewrite <- surjective_pairing.
      * unfold Create. destruct (starts _); cbn [fst snd]; [|done]. intros v [= <-].
        cbn [workers_]. apply elem_of_app. right. apply list_elem_of_here.
    + replace (Z.of_nat (length (workers_ p)) <? max_size_ p) with false by lia.
      destruct Hl as [[-> Hl]|(w & -> & Hin & Hlt & Hl)].
      * destruct (workers_ p) as [|w ws] eqn:Ew; [done|]. cbn [set_i workers_] in *. rewrite Ew.
        assert (Hin : w ∈ w :: ws) by apply list_elem_of_here.
        eexists _, _. split; [done|]. split.
        { apply (set_i_wf (Some w) _ Hp'). intros v [= <-]. cbn [set_i workers_]. by rewrite Ew. }
        split; [|intros v [= <-]; cbn [set_i workers_]; by rewrite Ew].
        right. split; [done|]. exists (Some w). right. rewrite Ew. split; [done|]. split; [done|].
        exists w. split; [done|]. split; [done|]. eapply Forall_impl; [done|]. cbn. lia.
      * assert (Hin' : w ∈ workers_ p) by (rewrite Hw; apply elem_of_app; apply elem_of_app in Hin; tauto).
        eexists _, _. split; [done|]. split; [done|]. split; [|by intros v [= <-]].
        right. split; [done|]. exists it. right. split; [done|]. split; [done|].
        exists w. split; [done|]. split; [done|]. eapply Forall_impl; [done|]. cbn. lia.
Qed.

(** ** Delivery *)

Lemma post_reachable ms (s : system Message) :
  mq_reachable s -> Z.of_nat (length (message_queue_ (mq s) ++ ms)) < 2 ^ 64 ->
  mq_reachable (post ms s).
Proof.
  intros Hs Hb. eapply rtc_r; [done|]. eapply (step_post _ _ ms); [done|].
  cbn [post mq]. by rewrite (proj1 (push_range_fields ms (mq s))).
Qed.

(** Every queue of the pool has room for [ms]. *)
Definition has_room (ms : list Message) (p : ThreadPool) : Prop :=
  Z.of_nat (length ms) < 2 ^ 64 /\
  forall w s, heap p !! w = Some s -> Z.of_nat (length (message_queue_ (mq s) ++ ms)) < 2 ^ 64.

Lemma post_to_wf ms w s p :
  pool_wf p -> heap p !! w = Some s -> mq_reachable s ->
  Z.of_nat (length (message_queue_ (mq s) ++ ms)) < 2 ^ 64 ->
  pool_wf (set_heap (<[w := post ms s]> (heap p)) p).
Proof.
  intros [Hn Hi Hh Hx] Hw Hs Hb. split; cbn [set_heap workers_ i_ heap next_worker]; auto.
  intros v Hv. destruct (decide (v = w)) as [->|Hne].
  - rewrite lookup_insert_eq. eexists. split; [done|]. by apply post_reachable.
  - rewrite lookup_insert_ne by done. by apply Hh.
Qed.

(** ** Resizing *)

(** [ws] without its first [k] workers whose queue is empty. *)
Fixpoint remove_idle (size : nat -> Z) (k : nat) (ws : list nat) : list nat :=
  match ws with
  | [] => []
  | w :: ws =>
      if size w =? 0 then
        match k with O => w :: ws | S k => remove_idle size k ws end
      else w :: remove_idle size k ws
  end.

Definition num_idle (size : nat -> Z) (ws : list nat) : nat := length (List.filter (fun w => size w =? 0) ws).

Lemma remove_idle_length size k ws :
  length (remove_idle size k ws) = (length ws - Nat.min k (num_idle size ws))%nat.
Proof.
  unfold num_idle. revert k. induction ws as [|w ws IH]; intros k; cbn [remove_idle List.filter length]; [lia|].
  pose proof (filter_length (fun w => size w =? 0) ws) as Hf. pose proof (filter_length_le (fun w => size w =? 0) ws).
  destruct (size w =? 0); cbn [length].
  - destruct k as [|k]; cbn [length]; [lia|]. rewrite IH. lia.
  - rewrite IH. lia.
Qed.

Lemma num_idle_length size ws : (num_idle size ws <= length ws)%nat.
Proof. apply filter_length_le. Qed.

Lemma remove_idle_all size k ws :
  (num_idle size ws <= k)%nat -> remove_idle size k ws = List.filter (fun w => negb (size w =? 0)) ws.
Proof.
  unfold num_idle. revert k. induction ws as [|w ws IH]; intros k Hk; cbn in *; [done|].
  destruct (size w =? 0); cbn in *; [destruct k; [lia|]; apply IH; lia|]. f_equal. by apply IH.
Qed.

Lemma remove_idle_0 size ws : remove_idle size 0 ws = ws.
Proof.
  induction ws as [|w ws IH]; cbn [remove_idle]; [done|]. destruct (size w =? 0); [done|]. by rewrite IH.
Qed.

Lemma remove_worker joins w ws p s :
  heap p !! w = Some s -> joins w = true ->
  (let! p := close_worker w (set_workers ws p) in delete_worker joins w p) =
    Ret (set_heap (delete w (heap p)) (set_workers ws p)).
Proof.
  intros Hw Hj. unfold close_worker, delete_worker. cbn [set_workers heap]. rewrite Hw. cbn [obind set_heap heap].
  rewrite lookup_insert_eq, Hj. f_equal. unfold set_heap, set_workers. cbn. f_equal.
  apply delete_insert_eq.
Qed.

Lemma Shrunk_loop_spec size joins kept rest n p :
  (forall w, joins w = true) -> NoDup rest ->
  (forall w, w ∈ rest -> is_Some (heap p !! w)) -> workers_ p = kept ++ rest ->
  0 <= n < 2 ^ 64 -> (Z.of_nat (length rest) < 2 ^ 64) ->
  exists p', Shrunk_loop size joins kept rest n p = Ret p' /\
    workers_ p' = kept ++ remove_idle size (if n =? 0 then length rest else Z.to_nat n) rest /\
    i_ p' = i_ p /\ max_size_ p' = max_size_ p /\ message_count_ p' = message_count_ p.
Proof.
  intros Hj. revert kept n p. induction rest as [|w rest IH]; intros kept n p Hn Hh Hws Hb Hl; cbn [Shrunk_loop].
  { exists p. split; [done|]. split; [|done]. cbn [remove_idle]. done. }
  apply NoDup_cons in Hn as [Hni Hn]. cbn [remove_idle].
  assert (Hh' : forall v, v ∈ rest -> is_Some (heap p !! v)).
  { intros v Hv. apply Hh. by apply list_elem_of_further. }
  destruct (size w =? 0) eqn:Ez.
  - destruct (Hh w (list_elem_of_here _ _)) as [s Hs].
    match goal with |- exists p', ?l = _ /\ _ =>
      assert (El : l = let! p := (let! p := close_worker w (set_workers (kept ++ rest) p) in
                                  delete_worker joins w p) in
                       if u64 (n - 1) =? 0 then Ret p
                       else Shrunk_loop size joins kept rest (u64 (n - 1)) p)
    end.
    { by destruct (close_worker w (set_workers (kept ++ rest) p)). }
    rewrite El, (remove_worker joins w _ p s Hs (Hj w)). cbn [obind]. clear El.
    set (q := set_heap (delete w (heap p)) (set_workers (kept ++ rest) p)).
    destruct (u64 (n - 1) =? 0) eqn:Eu.
    + exists q. split; [done|]. split; [|done]. cbn [q set_heap set_workers workers_].
      assert (n = 1) as ->.
      { unfold u64 in Eu. destruct (Z.eqb_spec n 0) as [->|]; [by vm_compute in Eu|].
        rewrite Z.mod_small in Eu by lia. lia. }
      change (Z.to_nat 1) with 1%nat. cbn [Z.eqb]. by rewrite remove_idle_0.
    + destruct (IH kept (u64 (n - 1)) q) as (p' & H1 & H2 & H3 & H4 & H5); [done| |done| |cbn in Hl; lia|].
      * intros v Hv. cbn [q set_heap heap]. rewrite lookup_delete_ne by (intros ->; done). by apply Hh'.
      * unfold u64. apply Z.mod_pos_bound. lia.
      * exists p'. split; [done|]. split; [|done].
        rewrite H2. f_equal. rewrite Eu. cbn in Hl.
        unfold u64. destruct (Z.eqb_spec n 0) as [->|Hn0].
        -- change ((0 - 1) mod 2 ^ 64) with (2 ^ 64 - 1).
           pose proof (num_idle_length size rest). rewrite remove_idle_all by lia.
           cbn [length]. by rewrite remove_idle_all by done.
        -- rewrite Z.mod_small by lia. replace (Z.to_nat n) with (S (Z.to_nat (n - 1))) by lia. done.
  - destruct (IH (kept ++ [w]) n p) as (p' & H1 & H2 & H3); [done|done| |done|cbn in Hl; lia|].
    { by rewrite <- app_assoc. }
    exists p'. split; [done|]. split; [|done]. rewrite H2, <- app_assoc. cbn [app]. do 2 f_equal.
    destruct (Z.eqb_spec n 0); [|done]. cbn [length].
    pose proof (num_idle_length size rest). by rewrite !remove_idle_all by lia.
Qed.

Lemma create_many_all starts k p :
  (forall w, starts w = true) ->
  length (workers_ (create_many starts k p)) = (length (workers_ p) + k)%nat /\
  max_size_ (create_many starts k p) = max_size_ p.
Proof.
  intros Hs. revert p. induction k as [|k IH]; intros p; cbn [create_many]; [split; [lia|done]|].
  destruct (IH (Create starts p).1) as [-> ->]. unfold Create. rewrite Hs. cbn [fst workers_ max_size_].
  rewrite length_app. cbn [length]. split; [lia|done].
Qed.
End ThreadPool.

#[global] Arguments ThreadPool Message : clear implicits.

(** ** Theorems *)

(** C22. A message goes to the worker the comment of [GetIdle] promises: the first one
    that is not busy, in the order in which the workers take turns; a new one, when all
    are busy and there may be more; else one that is least busy (or the first, when all
    have 0xffff messages and more).  The messages are appended in order to the queue of
    that worker, the queues of the others are untouched, the pool stays well formed, with
    all its queues in states that MessageQueue can reach, and only the failure to start a
    new worker loses the messages. *)
Theorem ThreadPool_Post_delivers {Message} (busy : nat -> Z) (starts : nat -> bool)
    (ms : list Message) (p : ThreadPool Message) a b :
  pool_wf p -> stands_before p a b -> workers_ p <> [] -> has_room ms p ->
  exists q r, chosen busy starts p (b ++ a) q r /\
    match r with
    | Some w =>
        w ∈ workers_ q /\
        exists s, heap q !! w = Some s /\ mq_reachable s /\
          exists p', Post busy starts ms p = Ret (p', true) /\ pool_wf p' /\
            workers_ p' = workers_ q /\ heap p' = <[w := post ms s]> (heap q) /\
            message_count_ p' = s32 (message_count_ p + push_range_count ms)
    | None => Post busy starts ms p = Ret (q, false)
    end.
Proof.
  intros Hp Hs Hne [Hroom0 Hroom].
  destruct (GetIdle_spec busy starts p a b Hp Hs Hne) as (q & r & E & Hq & Hc & Hr).
  exists q, r. split; [done|]. unfold Post. rewrite E. cbn [obind].
  destruct r as [w|]; [|done]. specialize (Hr w eq_refl). split; [done|].
  destruct (wf_heap q Hq w Hr) as (s & Hw & Hreach). exists s. split; [done|]. split; [done|].
  rewrite Hw. eexists. split; [done|].
  assert (Z.of_nat (length (message_queue_ (mq s) ++ ms)) < 2 ^ 64 /\
                 message_count_ q = message_count_ p) as [Hlen Hcount].
  { assert (heap q = heap p \/ s = new_system \/ heap p !! w = Some s) as Hcase.
    { destruct Hc as [(? & ? & ? & _ & _ & _ & _ & it & _ & ->)|[_ (it & [[_ Hcr]|(_ & -> & _)])]];
        [by left| |by left].
      unfold Create in Hcr. destruct (starts _); [|done]. injection Hcr as -> Hwn.
      cbn [heap set_i] in Hw. subst w. cbn [set_i next_worker] in Hw. rewrite lookup_insert_eq in Hw. right; left; congruence. }
    split.
    - destruct Hcase as [Eh|[->|Eh]]; [rewrite Eh in Hw; by eapply Hroom| |by eapply Hroom].
      by cbn [new_system mq new_MessageQueue message_queue_ app].
    - destruct Hc as [(? & ? & ? & _ & _ & _ & _ & it & _ & ->)|[_ (it & [[_ Hcr]|(_ & -> & _)])]];
        [done| |done].
      unfold Create in Hcr. destruct (starts _); injection Hcr as Hq' Hr'; by rewrite Hq'. }
  split.
  { destruct (post_to_wf ms w s q Hq Hw Hreach Hlen). by split. }
  cbn [set_message_count set_heap workers_ heap message_count_]. by rewrite Hcount.
Qed.

(** C1. What [set_size (n)] does.  A pool that has fewer workers gets new ones until it
    has [n].  A pool that has more does not keep [n] workers: it loses the first [n] of
    those whose queue is empty (all of them for [n = 0]), so that a pool of idle workers
    keeps as many as it had, less [n]. *)
Theorem set_size_resizes {Message} size starts joins n max_size (p : ThreadPool Message) :
  pool_wf p -> (forall w, joins w = true) -> (forall w, starts w = true) ->
  0 <= n < 2 ^ 64 -> Z.of_nat (length (workers_ p)) < 2 ^ 64 ->
  let current := length (workers_ p) in
  exists p', set_size size starts joins n max_size p = Ret p' /\
    max_size_ p' = (if max_size =? 0 then max_size_ p else max_size) /\
    (Z.of_nat current <= n -> length (workers_ p') = Z.to_nat n /\ pool_wf p') /\
    (n < Z.of_nat current ->
     workers_ p' = remove_idle size (if n =? 0 then current else Z.to_nat n) (workers_ p) /\
     length (workers_ p') =
       (current - Nat.min (if (n =? 0)%Z then current else Z.to_nat n) (num_idle size (workers_ p)))%nat).
Proof.
  intros Hp Hj Hs Hn Hl. cbn zeta. unfold set_size.
  assert (Hend : forall q : ThreadPool Message, max_size_ q = max_size_ p -> max_size_
    (if negb (max_size =? 0) then set_max_size max_size q else q) =
    (if max_size =? 0 then max_size_ p else max_size)).
  { intros q Hq. by destruct (max_size =? 0). }
  assert (Hw : forall q : ThreadPool Message, workers_
    (if negb (max_size =? 0) then set_max_size max_size q else q) = workers_ q).
  { intros q. by destruct (max_size =? 0). }
  assert (Hwf : forall q : ThreadPool Message, pool_wf q -> pool_wf
    (if negb (max_size =? 0) then set_max_size max_size q else q)).
  { intros q []. by destruct (max_size =? 0). }
  destruct (Z.ltb_spec n (Z.of_nat (length (workers_ p)))) as [Hlt|Hge].
  - destruct (Shrunk_loop_spec size joins [] (workers_ p) n p Hj (wf_nodup p Hp)) as
      (p' & E & Ew & _ & Em & _); [|done..|].
    { intros w Hin. destruct (wf_heap p Hp w Hin) as (s & Hs' & _). by exists s. }
    unfold Shrunk. rewrite E. cbn [obind]. eexists. split; [done|]. split; [by apply Hend|].
    split; [lia|]. intros _. rewrite Hw, Ew. cbn [app]. split; [done|]. by rewrite remove_idle_length.
  - destruct (Z.ltb_spec (Z.of_nat (length (workers_ p))) n) as [Hlt|Hge'].
    + destruct (create_many_all starts (Z.to_nat (n - Z.of_nat (length (workers_ p)))) p Hs) as [El Em].
      cbn [obind]. eexists. split; [done|]. split; [by apply Hend|]. split; [|lia].
      intros _. rewrite Hw, El. split; [lia|]. by apply Hwf, create_many_wf.
    + cbn [obind]. eexists. split; [done|]. split; [by apply Hend|]. split; [|lia].
      intros _. rewrite Hw. split; [lia|]. by apply Hwf.
Qed.

(** ** Concrete pools *)

Definition demo_pool : ThreadPool Z := set_i (Some 1%nat) (new_ThreadPool (fun _ => true) 3 4).

Lemma demo_pool_wf : pool_wf demo_pool.
Proof.
  apply set_i_wf; [apply new_ThreadPool_wf|]. intros w [= <-].
  change (workers_ _) with [0; 1; 2]%nat. apply list_elem_of_further, list_elem_of_here.
Qed.

(** Workers 1 and 2 are busy: the message 42 goes to worker 0, the last of the ring. *)
Definition demo_busy (w : nat) : Z := if (w =? 0)%nat then 0 else 5.

Lemma ThreadPool_Post_delivers_witness :
  (stands_before demo_pool [0%nat] [1%nat; 2%nat] /\
   exists p', Post demo_busy (fun _ => true) [42] demo_pool = Ret (p', true) /\
     heap p' !! 0%nat = Some (post [42] new_system)) /\
  exists q r, chosen demo_busy (fun _ => true) demo_pool [1; 2; 0]%nat q r.
Proof.
  split; [split; [by split|eexists; split; vm_compute; reflexivity]|].
  assert (Hroom : has_room [42] demo_pool).
  { split; [by vm_compute|]. intros w s.
    change (heap demo_pool) with
      (<[2%nat := @new_system Z]> (<[1%nat := new_system]> (<[0%nat := new_system]> ∅))
      : gmap nat (system Z)).
    intros H. do 3 (apply lookup_insert_Some in H as [[_ <-]|[_ H]]; [by vm_compute|]).
    by rewrite lookup_empty in H. }
  destruct (ThreadPool_Post_delivers demo_busy (fun _ => true) [42] demo_pool [0%nat] [1; 2]%nat
              demo_pool_wf (conj eq_refl eq_refl) ltac:(done) Hroom) as (q & r & H & _).
  exists q, r. exact H.
Defined.

(** Ten idle workers, asked to become three, are seven. *)
Lemma set_size_resizes_witness :
  exists p', set_size (fun _ => 0) (fun _ => true) (fun _ => true) 3 0
               (new_ThreadPool (Message := Z) (fun _ => true) 10 10) = Ret p' /\
    length (workers_ p') = 7%nat.
Proof.
  destruct (set_size_resizes (fun _ => 0) (fun _ => true) (fun _ => true) 3 0
              (new_ThreadPool (Message := Z) (fun _ => true) 10 10)) as (p' & H & _ & _ & H2);
    [apply new_ThreadPool_wf|done|done|lia|vm_compute; reflexivity|].
  exists p'. split; [exact H|]. destruct H2 as [_ H2]; [vm_compute; reflexivity|]. exact H2.
Defined.

(** [Shrunk] does not look at [i_]: when it deletes the worker the iterator stands at, the
    next [Post] uses an erased iterator. *)
Lemma Shrunk_leaves_dangling_iterator :
  exists p, set_size (fun _ => 0) (fun _ => true) (fun _ => true) 2 0
              (set_i (Some 0%nat) (new_ThreadPool (Message := Z) (fun _ => true) 4 4)) = Ret p /\
    workers_ p = [2; 3]%nat /\ i_ p = Some 0%nat /\
    Post (fun _ => 0) (fun _ => true) [42] p = Crash.
Proof. eexists. split; [vm_compute; reflexivity|]. by split; [|split]. Qed.

(** A pool that was made with no workers and may have none dereferences [end ()]. *)
Lemma empty_pool_crashes :
  Post (fun _ => 0) (fun _ => true) [42] (new_ThreadPool (fun _ => true) 0 0) = Crash.
Proof. reflexivity. Qed.

(** [mutex_] is given back between the scan and [Create]: two threads that find all workers
    busy both make one, and the pool has more than [max_size_]. *)
Lemma max_size_is_exceeded :
  let p := new_ThreadPool (Message := Z) (fun _ => true) 1 2 in
  scan (fun _ => 1) (workers_ p) 1 (i_ p) 0xffff None = Ret (None, None, Some 0%nat) /\
  let p2 := (Create (fun _ => true) (Create (fun _ => true) p).1).1 in
  max_size_ p2 < Z.of_nat (length (workers_ p2)).
Proof. split; [reflexivity|]. vm_compute. reflexivity. Qed.

(** A worker whose [join] does not return, such as one that lost its [Close], stops
    [set_size] and the destructor; [Stop] has to come before the destructor. *)
Lemma lost_Close_stops_the_pool :
  let p := new_ThreadPool (Message := Z) (fun _ => true) 2 2 in
  set_size (fun _ => 0) (fun _ => true) (fun w => negb (w =? 0)%nat) 1 0 p = NoFuel /\
  destroy (fun w => negb (w =? 0)%nat) p = NoFuel.
Proof. by split; vm_compute. Qed.
