(* ===== verification/Qlz.v ===== *)
(** QuickLZ 1.4.0: src/feed/feedview/quicklz.c as quicklz.h configures it, that is
    QLZ_COMPRESSION_LEVEL 1, QLZ_STREAMING_BUFFER 0 and not QLZ_MEMORY_SAFE, for a
    machine of the x86 family (X86X64).  Pointers into the source and the destination
    are offsets from their beginning; a read or write outside a buffer is [Crash]. *)
From Stdlib Require Import ZArith Lia Bool String.
From stdpp Require Import base list numbers.
From S2P Require Import Prelude.

Definition MINOFFSET : Z := 2.
Definition UNCONDITIONAL_MATCHLEN : Z := 6.
Definition UNCOMPRESSED_END : Z := 4.
Definition CWORD_LEN : Z := 4.

(** ** Memory *)

Definition msize (m : list Z) : Z := Z.of_nat (length m).

(** The byte at offset [i]. *)
Definition byte_at (m : list Z) (i : Z) : Z := nth (Z.to_nat i) m 0.

Definition rd8 (m : list Z) (i : Z) : outcome Z :=
  if (0 <=? i) && (i <? msize m) then Ret (byte_at m i) else Crash.

(** The [ui32] at offset [i]. *)
Definition word_at (m : list Z) (i : Z) : Z :=
  le32 (byte_at m i) (byte_at m (i + 1)) (byte_at m (i + 2)) (byte_at m (i + 3)).

Definition rd32 (m : list Z) (i : Z) : outcome Z :=
  if (0 <=? i) && (i + 4 <=? msize m) then Ret (word_at m i) else Crash.

Definition wr (m : list Z) (i : Z) (bs : list Z) : outcome (list Z) :=
  if (0 <=? i) && (i + msize bs <=? msize m) then Ret (mem_write m (Z.to_nat i) bs) else Crash.

Definition bytes4 (f : Z) : list Z :=
  [u8 f; u8 (Z.shiftr f 8); u8 (Z.shiftr f 16); u8 (Z.shiftr f 24)].

(** [fast_read]: whatever the number of bytes asked for, a whole word is read. *)
Definition fast_read (m : list Z) (i bytes : Z) : outcome Z :=
  if (1 <=? bytes) && (bytes <=? 4) then rd32 m i else Ret 0.

(** [fast_write]: three bytes are written as four. *)
Definition fast_write (f : Z) (m : list Z) (i bytes : Z) : outcome (list Z) :=
  if (bytes =? 4) || (bytes =? 3) then wr m i (bytes4 f)
  else if bytes =? 2 then wr m i [u8 f; u8 (Z.shiftr f 8)]
  else if bytes =? 1 then wr m i [u8 f]
  else Ret m.

(** The [do ... while] loop of [memcpy_up], four bytes every three. *)
Fixpoint memcpy_up (fuel : nat) (m : list Z) (dst src f n : Z) : outcome (list Z) :=
  match fuel with
  | O => NoFuel
  | S fuel =>
      let! w := rd32 m (src + f) in
      let! m := wr m (dst + f) (bytes4 w) in
      let f := f + (MINOFFSET + 1) in
      if f <? n then memcpy_up fuel m dst src f n else Ret m
  end.

Definition hash_func (i : Z) : Z := Z.land (Z.lxor (Z.shiftr i 12) i) 4095.

(** An entry of an array of [QLZ_HASH_VALUES] elements; the arrays start with whatever
    the scratch memory holds. *)
Definition upd (h v : Z) (t : Z -> Z) : Z -> Z := fun i => if i =? h then v else t i.

(** ** Compression *)

Section Compress.
Variable source : list Z.

Definition last_byte : Z := msize source - 1.
Definition last_matchstart : Z := last_byte - UNCONDITIONAL_MATCHLEN - UNCOMPRESSED_END.

(** The variables of [qlz_compress_core]; [c_out] is the destination. *)
Record comp := mkComp {
  c_src : Z;
  c_dst : Z;
  c_cptr : Z;
  c_cword : Z;
  c_fetch : Z;
  c_cache : Z -> Z;
  c_off : Z -> Z;
  c_cnt : Z -> Z;
  c_out : list Z
}.

(** [(cword_val >> 1) | (1U << 31)], and the word at [cword_ptr]. *)
Definition shift_in (cword : Z) : Z := Z.lor (Z.shiftr cword 1) (2 ^ 31).

Definition flush_cword (c : comp) : outcome (list Z) :=
  fast_write (shift_in (c_cword c)) (c_out c) (c_cptr c) CWORD_LEN.

Definition cword_full (c : comp) : bool := Z.land (c_cword c) 1 =? 1.

(** Writes a full control word and reserves room for the next. *)
Definition next_cword (c : comp) : outcome comp :=
  let! out := flush_cword c in
  Ret (mkComp (c_src c) (c_dst c + CWORD_LEN) (c_dst c) (2 ^ 31) (c_fetch c)
         (c_cache c) (c_off c) (c_cnt c) out).

Definition set_fetch (f : Z) (c : comp) : comp :=
  mkComp (c_src c) (c_dst c) (c_cptr c) (c_cword c) f (c_cache c) (c_off c) (c_cnt c) (c_out c).

(** The beginning of a turn of the main loop: [false] when the data do not compress. *)
Definition begin_turn (c : comp) : outcome (bool * comp) :=
  if cword_full c then
    if (3 * Z.shiftr (msize source) 2 <? c_src c) && (c_src c - Z.shiftr (c_src c) 5 <? c_dst c)
    then Ret (false, c)
    else
      let! c := next_cword c in
      let! f := fast_read source (c_src c) 3 in
      Ret (true, set_fetch f c)
  else Ret (true, c).

Definition same_byte (i j : Z) : outcome bool :=
  let! a := rd8 source i in
  let! b := rd8 source j in
  Ret (a =? b).

Fixpoint extend_match (fuel : nat) (o old_src src remaining : Z) : outcome Z :=
  match fuel with
  | O => NoFuel
  | S fuel =>
      let! eq := same_byte (o + (src - old_src)) src in
      if eq && (src - old_src <? remaining)
      then extend_match fuel o old_src (src + 1) remaining else Ret src
  end.

(** The end of a match of at least four bytes. *)
Definition match_end (o old_src : Z) : outcome Z :=
  let src := old_src + CWORD_LEN in
  let! eq := same_byte (o + (src - old_src)) src in
  if eq : bool then
    let src := src + 1 in
    let! eq := same_byte (o + (src - old_src)) src in
    if eq : bool then
      let rest := last_byte - UNCOMPRESSED_END - (src - 5) + 1 in
      let remaining := if rest >? 255 then 255 else rest in
      extend_match (length source) o old_src (src + 1) remaining
    else Ret src
  else Ret src.

(** A match with the bytes at [o], whose first three are known to agree. *)
Definition put_match (o hash : Z) (c : comp) : outcome comp :=
  let old_src := c_src c in
  let! eq := same_byte (o + 3) (old_src + 3) in
  if negb eq then
    let! out := fast_write (Z.lor (3 - 2) (Z.shiftl hash 4)) (c_out c) (c_dst c) 2 in
    Ret (mkComp (old_src + 3) (c_dst c + 2) (c_cptr c) (shift_in (c_cword c)) (c_fetch c)
           (c_cache c) (c_off c) (c_cnt c) out)
  else
    let! src := match_end o old_src in
    let matchlen := src - old_src in
    let hash := Z.shiftl hash 4 in
    if matchlen <? 18 then
      let! out := fast_write (Z.lor (matchlen - 2) hash) (c_out c) (c_dst c) 2 in
      Ret (mkComp src (c_dst c + 2) (c_cptr c) (shift_in (c_cword c)) (c_fetch c)
             (c_cache c) (c_off c) (c_cnt c) out)
    else
      let! out := fast_write (Z.lor (Z.shiftl matchlen 16) hash) (c_out c) (c_dst c) 3 in
      Ret (mkComp src (c_dst c + 3) (c_cptr c) (shift_in (c_cword c)) (c_fetch c)
             (c_cache c) (c_off c) (c_cnt c) out).

Definition put_literal (c : comp) : outcome comp :=
  let! b := rd8 source (c_src c) in
  let! out := wr (c_out c) (c_dst c) [b] in
  Ret (mkComp (c_src c + 1) (c_dst c + 1) (c_cptr c) (Z.shiftr (c_cword c) 1) (c_fetch c)
         (c_cache c) (c_off c) (c_cnt c) out).

(** The rest of a turn of the main loop. *)
Definition encode_turn (c : comp) : outcome comp :=
  let hash := hash_func (c_fetch c) in
  let cached := Z.lxor (c_fetch c) (c_cache c hash) in
  let o := c_off c hash in
  let hit := (Z.land cached 0xffffff =? 0) && (c_src c - o >? MINOFFSET)
             && negb (c_cnt c hash =? 0) in
  let c := mkComp (c_src c) (c_dst c) (c_cptr c) (c_cword c) (c_fetch c)
             (upd hash (c_fetch c) (c_cache c)) (upd hash (c_src c) (c_off c)) (c_cnt c) (c_out c) in
  let! c :=
    (if hit then put_match o hash c
     else put_literal (mkComp (c_src c) (c_dst c) (c_cptr c) (c_cword c) (c_fetch c)
                         (c_cache c) (c_off c) (upd hash 1 (c_cnt c)) (c_out c))) in
  let! f := fast_read source (c_src c) 3 in
  Ret (set_fetch f c).

(** The main loop; [false] when it gives up. *)
Fixpoint main_loop (fuel : nat) (c : comp) : outcome (bool * comp) :=
  match fuel with
  | O => NoFuel
  | S fuel =>
      if c_src c <=? last_matchstart then
        let! (go, c) := begin_turn c in
        if go : bool then let! c := encode_turn c in main_loop fuel c else Ret (false, c)
      else Ret (true, c)
  end.

(** The loop over the last bytes, which are not compressed. *)
Fixpoint tail_loop (fuel : nat) (c : comp) : outcome comp :=
  match fuel with
  | O => NoFuel
  | S fuel =>
      if c_src c <=? last_byte then
        let! c := (if cword_full c then next_cword c else Ret c) in
        let! c :=
          (if c_src c <=? last_byte - 3 then
             let! f := fast_read source (c_src c) 3 in
             let hash := hash_func f in
             Ret (mkComp (c_src c) (c_dst c) (c_cptr c) (c_cword c) (c_fetch c)
                    (upd hash f (c_cache c)) (upd hash (c_src c) (c_off c))
                    (upd hash 1 (c_cnt c)) (c_out c))
           else Ret c) in
        let! c := put_literal c in
        tail_loop fuel c
      else Ret c
  end.

(** [while ((cword_val & 1) != 1) cword_val = (cword_val >> 1)]. *)
Fixpoint align_cword (fuel : nat) (cword : Z) : outcome Z :=
  match fuel with
  | O => NoFuel
  | S fuel => if Z.land cword 1 =? 1 then Ret cword else align_cword fuel (Z.shiftr cword 1)
  end.

(** [qlz_compress_core]: the number of bytes, 0 when the data do not compress, and the
    destination.  [cache] and [offset] are the contents of the hash table. *)
Definition qlz_compress_core (destination : list Z) (cache offset counter : Z -> Z)
    : outcome (Z * list Z) :=
  let! fetch := (if 0 <=? last_matchstart then fast_read source 0 3 else Ret 0) in
  let c := mkComp 0 CWORD_LEN 0 (2 ^ 31) fetch cache offset counter destination in
  let! (go, c) := main_loop (S (length source)) c in
  if negb go then Ret (0, c_out c)
  else
    let! c := tail_loop (S (length source)) c in
    let! cword := align_cword 32 (c_cword c) in
    let! out := fast_write (shift_in cword) (c_out c) (c_cptr c) CWORD_LEN in
    Ret (if c_dst c <? 9 then 9 else c_dst c, out).
End Compress.

(** ** Decompression *)

Section Decompress.
Variable source : list Z.

(** The variables of [qlz_decompress_core]; [d_out] is the destination, of which [size]
    bytes are to be filled. *)
Record decomp := mkDecomp {
  d_src : Z;
  d_dst : Z;
  d_cword : Z;
  d_hashed : Z;
  d_off : Z -> Z;
  d_cnt : Z -> Z;
  d_out : list Z
}.

(** [update_hash] of the position [s]. *)
Definition update_hash (s : Z) (d : decomp) : outcome decomp :=
  let! fetch := fast_read (d_out d) s 3 in
  let hash := hash_func fetch in
  Ret (mkDecomp (d_src d) (d_dst d) (d_cword d) (d_hashed d)
         (upd hash s (d_off d)) (upd hash 1 (d_cnt d)) (d_out d)).

Definition set_hashed (lh : Z) (d : decomp) : decomp :=
  mkDecomp (d_src d) (d_dst d) (d_cword d) lh (d_off d) (d_cnt d) (d_out d).

(** [update_hash_upto], whose loop runs [max - *lh] times. *)
Fixpoint hash_loop (n : nat) (d : decomp) : outcome decomp :=
  match n with
  | O => Ret d
  | S n =>
      let d := set_hashed (d_hashed d + 1) d in
      let! d := update_hash (d_hashed d) d in
      hash_loop n d
  end.
Definition update_hash_upto (max : Z) (d : decomp) : outcome decomp :=
  hash_loop (Z.to_nat (max - d_hashed d)) d.

Definition bitlut (i : Z) : Z := nth (Z.to_nat i) [4; 0; 1; 0; 2; 0; 1; 0; 3; 0; 1; 0; 2; 0; 1; 0] 0.

(** Loads the next control word. *)
Definition load_cword (d : decomp) : outcome decomp :=
  if d_cword d =? 1 then
    let! w := fast_read source (d_src d) CWORD_LEN in
    Ret (mkDecomp (d_src d + CWORD_LEN) (d_dst d) w (d_hashed d) (d_off d) (d_cnt d) (d_out d))
  else Ret d.

(** A match. *)
Definition copy_match (fetch : Z) (d : decomp) : outcome decomp :=
  let hash := Z.land (Z.shiftr fetch 4) 0xfff in
  let offset2 := d_off d hash in
  let! (matchlen, n) :=
    (if negb (Z.land fetch 0xf =? 0) then Ret (Z.land fetch 0xf + 2, 2)
     else let! b := rd8 source (d_src d + 2) in Ret (b, 3)) in
  let! out := memcpy_up (S (Z.to_nat matchlen)) (d_out d) (d_dst d) offset2 0 matchlen in
  let! d := update_hash_upto (d_dst d)
    (mkDecomp (d_src d + n) (d_dst d + matchlen) (Z.shiftr (d_cword d) 1) (d_hashed d)
       (d_off d) (d_cnt d) out) in
  Ret (set_hashed (d_dst d - 1) d).

(** Up to four literals at once. *)
Definition copy_literals (d : decomp) : outcome decomp :=
  let! w := rd32 source (d_src d) in
  let! out := wr (d_out d) (d_dst d) (bytes4 w) in
  let n := bitlut (Z.land (d_cword d) 0xf) in
  update_hash_upto (d_dst d + n - 3)
    (mkDecomp (d_src d + n) (d_dst d + n) (Z.shiftr (d_cword d) n) (d_hashed d)
       (d_off d) (d_cnt d) out).

(** The loop over the last bytes. *)
Fixpoint copy_rest (fuel : nat) (last_destination_byte : Z) (d : decomp) : outcome decomp :=
  match fuel with
  | O => NoFuel
  | S fuel =>
      if d_dst d <=? last_destination_byte then
        let '(src, cword) :=
          if d_cword d =? 1 then (d_src d + CWORD_LEN, 2 ^ 31) else (d_src d, d_cword d) in
        let! b := rd8 source src in
        let! out := wr (d_out d) (d_dst d) [b] in
        copy_rest fuel last_destination_byte
          (mkDecomp (src + 1) (d_dst d + 1) (Z.shiftr cword 1) (d_hashed d) (d_off d) (d_cnt d) out)
      else Ret d
  end.

Fixpoint decompress_loop (fuel : nat) (size : Z) (d : decomp) : outcome decomp :=
  match fuel with
  | O => NoFuel
  | S fuel =>
      let last_destination_byte := size - 1 in
      let last_matchstart := last_destination_byte - UNCONDITIONAL_MATCHLEN - UNCOMPRESSED_END in
      let! d := load_cword d in
      let! fetch := fast_read source (d_src d) 4 in
      if Z.land (d_cword d) 1 =? 1 then
        let! d := copy_match fetch d in decompress_loop fuel size d
      else if d_dst d <? last_matchstart then
        let! d := copy_literals d in decompress_loop fuel size d
      else
        let! d := copy_rest (S (length (d_out d))) last_destination_byte d in
        update_hash_upto (last_destination_byte - 3) d
  end.

(** Each turn reads a byte of the source that was not read before. *)
Definition qlz_decompress_core (destination : list Z) (size : Z) (offset counter : Z -> Z)
    : outcome (Z * list Z) :=
  let! d := decompress_loop (S (length source)) size
    (mkDecomp 0 0 1 (-1) offset counter destination) in
  Ret (size, d_out d).
End Decompress.

(** ** The interface *)

(** The bytes of a size field: 4 in a long header and 1 in a short one. *)
Definition size_bytes (source : list Z) : outcome Z :=
  let! flags := rd8 source 0 in
  Ret (if Z.land flags 2 =? 2 then 4 else 1).

Definition qlz_size_decompressed (source : list Z) : outcome Z :=
  let! n := size_bytes source in
  let! r := fast_read source (1 + n) n in
  Ret (Z.land r (Z.shiftr 0xffffffff ((4 - n) * 8))).

Definition qlz_size_compressed (source : list Z) : outcome Z :=
  let! n := size_bytes source in
  let! r := fast_read source 1 n in
  Ret (Z.land r (Z.shiftr 0xffffffff ((4 - n) * 8))).

(** The contents of the scratch memory: the hash table's [cache] and [offset]. The
    counters are reset before they are read. *)
Record scratch := mkScratch { s_cache : Z -> Z; s_offset : Z -> Z }.

Definition put_header (base r size compressed : Z) (destination : list Z) : outcome (list Z) :=
  let flags := Z.lor (Z.lor compressed (Z.shiftl 1 2)) (Z.shiftl 1 6) in
  if base =? 3 then
    let! d := wr destination 0 [flags] in
    let! d := wr d 1 [u8 r] in
    wr d 2 [u8 size]
  else
    let! d := wr destination 0 [Z.lor 2 flags] in
    let! d := fast_write (u32 r) d 1 4 in
    fast_write (u32 size) d 5 4.

(** Runs [f] on the memory from offset [base]. *)
Definition at_offset {A} (base : Z) (m : list Z) (f : list Z -> outcome (A * list Z))
    : outcome (A * list Z) :=
  let! (a, body) := f (drop (Z.to_nat base) m) in
  Ret (a, take (Z.to_nat base) m ++ body).

Definition qlz_compress (source destination : list Z) (s : scratch) : outcome (Z * list Z) :=
  let size := msize source in
  if (size =? 0) || (0xffffffff - 400 <? size) then Ret (0, destination)
  else
    let base := if size <? 216 then 3 else 9 in
    let! (n, destination) :=
      at_offset base destination (fun m =>
        qlz_compress_core source m (s_cache s) (s_offset s) (fun _ => 0)) in
    let! (r, compressed, destination) :=
      (if n =? 0 then
         let! d := wr destination base source in Ret (size + base, 0, d)
       else Ret (base + n, 1, destination)) in
    let! destination := put_header base r size compressed destination in
    Ret (r, destination).

Definition qlz_decompress (source destination : list Z) (s : scratch) : outcome (Z * list Z) :=
  let! flags := rd8 source 0 in
  let! n := size_bytes source in
  let headerlen := 2 * n + 1 in
  let! dsiz := qlz_size_decompressed source in
  let! _ := qlz_size_compressed source in
  if Z.land flags 1 =? 1 then
    qlz_decompress_core (drop (Z.to_nat headerlen) source) destination dsiz (s_offset s) (fun _ => 0)
  else if msize source <? headerlen + dsiz then Crash
  else
    let! d := wr destination 0 (slice source (Z.to_nat headerlen) (Z.to_nat (headerlen + dsiz))) in
    Ret (dsiz, d).
