(* ===== verification/QlzTokens.v ===== *)
(** QuickLZ: the data between compressor and decompressor.  A source is cut into tokens
    ([parse]); tokens are written as control words and their bytes ([stream]). *)
From Stdlib Require Import ZArith Lia Bool.
From stdpp Require Import base list numbers.
From S2P Require Import Prelude Qlz.

(** ** Words *)

Lemma byte_at_bound m i : Forall is_byte m -> is_byte (byte_at m i).
Proof.
  intros Hm. unfold byte_at. destruct (Nat.lt_ge_cases (Z.to_nat i) (length m)) as [H|H].
  - rewrite List.Forall_forall in Hm. apply Hm. by apply nth_In.
  - rewrite nth_overflow by done. unfold is_byte. lia.
Qed.

(** The three bytes a hash is computed from. *)
Definition word24 (m : list Z) (i : Z) : Z :=
  byte_at m i + byte_at m (i + 1) * 2 ^ 8 + byte_at m (i + 2) * 2 ^ 16.

Definition key (m : list Z) (i : Z) : Z := hash_func (word24 m i).

Lemma word_at_word24 m i : Forall is_byte m -> word_at m i mod 2 ^ 24 = word24 m i.
Proof.
  intros Hm. unfold word_at, word24, le32. symmetry.
  pose proof (byte_at_bound m i Hm). pose proof (byte_at_bound m (i + 1) Hm).
  pose proof (byte_at_bound m (i + 2) Hm). unfold is_byte in *.
  apply (Z.mod_unique_pos _ _ (byte_at m (i + 3))); lia.
Qed.

Lemma word24_small m i : Forall is_byte m -> word24 m i mod 2 ^ 24 = word24 m i.
Proof.
  intros Hm. unfold word24.
  pose proof (byte_at_bound m i Hm). pose proof (byte_at_bound m (i + 1) Hm).
  pose proof (byte_at_bound m (i + 2) Hm). unfold is_byte in *. apply Z.mod_small. lia.
Qed.

Lemma word24_inj m i j :
  Forall is_byte m -> word24 m i = word24 m j ->
  forall k, 0 <= k < 3 -> byte_at m (i + k) = byte_at m (j + k).
Proof.
  intros Hm H k Hk. unfold word24 in H.
  pose proof (byte_at_bound m i Hm). pose proof (byte_at_bound m (i + 1) Hm).
  pose proof (byte_at_bound m (i + 2) Hm). pose proof (byte_at_bound m j Hm).
  pose proof (byte_at_bound m (j + 1) Hm). pose proof (byte_at_bound m (j + 2) Hm).
  unfold is_byte in *.
  assert (k = 0 \/ k = 1 \/ k = 2) as [-> | [-> | ->]] by lia; rewrite ?Z.add_0_r; lia.
Qed.

(** Only the low 24 bits of a word matter to the hash and to the test for a match. *)
Lemma hash_func_low w w' : w mod 2 ^ 24 = w' mod 2 ^ 24 -> hash_func w = hash_func w'.
Proof.
  intros H. unfold hash_func. change 4095 with (Z.ones 12). apply Z.bits_inj'. intros j Hj.
  rewrite !Z.land_spec, !Z.lxor_spec, !Z.shiftr_spec by done. rewrite Z.testbit_ones_nonneg by lia.
  destruct (Z.ltb_spec j 12); [|by rewrite !andb_false_r]. rewrite !andb_true_r.
  assert (Hbit : forall i, 0 <= i < 24 -> Z.testbit w i = Z.testbit w' i).
  { intros i Hi. rewrite <-(Z.mod_pow2_bits_low w 24 i), <-(Z.mod_pow2_bits_low w' 24 i) by lia.
    by rewrite H. }
  by rewrite !Hbit by lia.
Qed.

Lemma hash_func_range w : 0 <= hash_func w < 4096.
Proof.
  unfold hash_func. change 4095 with (Z.ones 12). rewrite Z.land_ones by lia.
  apply Z.mod_pos_bound. lia.
Qed.

Lemma cached_hit w w' :
  (Z.land (Z.lxor w w') 0xffffff =? 0) = true <-> w mod 2 ^ 24 = w' mod 2 ^ 24.
Proof.
  rewrite Z.eqb_eq. change 0xffffff with (Z.ones 24).
  rewrite <-!Z.land_ones by lia. split; intros H.
  - apply Z.bits_inj'. intros j Hj. apply (f_equal (fun z => Z.testbit z j)) in H.
    rewrite Z.land_spec, Z.lxor_spec, Z.bits_0 in H. rewrite !Z.land_spec.
    destruct (Z.testbit (Z.ones 24) j); [|by rewrite !andb_false_r].
    rewrite andb_true_r in *. destruct (Z.testbit w j), (Z.testbit w' j); done.
  - apply Z.bits_inj'. intros j Hj. apply (f_equal (fun z => Z.testbit z j)) in H.
    rewrite Z.land_spec, Z.lxor_spec, Z.bits_0. rewrite !Z.land_spec in H.
    destruct (Z.testbit (Z.ones 24) j); [|by rewrite !andb_false_r].
    rewrite andb_true_r in *. destruct (Z.testbit w j), (Z.testbit w' j); done.
Qed.

Lemma le32_bytes4 a b c d :
  is_byte a -> is_byte b -> is_byte c -> is_byte d -> bytes4 (le32 a b c d) = [a; b; c; d].
Proof.
  unfold is_byte, bytes4, le32, u8. intros.
  rewrite !Z.shiftr_div_pow2 by lia.
  repeat f_equal; symmetry.
  - apply (Z.mod_unique_pos _ _ (b + c * 2 ^ 8 + d * 2 ^ 16)); lia.
  - replace ((a + b * 2 ^ 8 + c * 2 ^ 16 + d * 2 ^ 24) / 2 ^ 8) with (b + c * 2 ^ 8 + d * 2 ^ 16)
      by (apply Z.div_unique_pos with a; lia).
    apply (Z.mod_unique_pos _ _ (c + d * 2 ^ 8)); lia.
  - replace ((a + b * 2 ^ 8 + c * 2 ^ 16 + d * 2 ^ 24) / 2 ^ 16) with (c + d * 2 ^ 8)
      by (apply Z.div_unique_pos with (a + b * 2 ^ 8); lia).
    apply (Z.mod_unique_pos _ _ d); lia.
  - replace ((a + b * 2 ^ 8 + c * 2 ^ 16 + d * 2 ^ 24) / 2 ^ 24) with d
      by (apply Z.div_unique_pos with (a + b * 2 ^ 8 + c * 2 ^ 16); lia).
    apply (Z.mod_unique_pos _ _ 0); lia.
Qed.

Lemma bytes4_le32 w :
  is_u32 w -> le32 (u8 w) (u8 (Z.shiftr w 8)) (u8 (Z.shiftr w 16)) (u8 (Z.shiftr w 24)) = w.
Proof.
  unfold is_u32, le32, u8. intros Hw. rewrite !Z.shiftr_div_pow2 by lia.
  replace (w / 2 ^ 16) with (w / 2 ^ 8 / 2 ^ 8) by (by rewrite Z.div_div by lia).
  replace (w / 2 ^ 24) with (w / 2 ^ 8 / 2 ^ 8 / 2 ^ 8) by (by rewrite !Z.div_div by lia).
  assert (0 <= w / 2 ^ 8 / 2 ^ 8 / 2 ^ 8 < 2 ^ 8) as Hd.
  { rewrite !Z.div_div by lia. split; [apply Z.div_pos; lia|apply Z.div_lt_upper_bound; lia]. }
  rewrite (Z.mod_small (w / 2 ^ 8 / 2 ^ 8 / 2 ^ 8)) by done.
  pose proof (Z.div_mod w (2 ^ 8) ltac:(lia)). pose proof (Z.div_mod (w / 2 ^ 8) (2 ^ 8) ltac:(lia)).
  pose proof (Z.div_mod (w / 2 ^ 8 / 2 ^ 8) (2 ^ 8) ltac:(lia)). lia.
Qed.

(** ** Memory *)

Lemma byte_at_in m i : 0 <= i < msize m -> m !! Z.to_nat i = Some (byte_at m i).
Proof.
  unfold msize, byte_at. intros Hi. rewrite nth_lookup.
  destruct (lookup_lt_is_Some_2 m (Z.to_nat i)) as [b ->]; [lia|done].
Qed.

Lemma rd8_ret m i : 0 <= i < msize m -> rd8 m i = Ret (byte_at m i).
Proof.
  intros Hi. unfold rd8. destruct (Z.leb_spec 0 i); [|lia]. by destruct (Z.ltb_spec i (msize m)); [|lia].
Qed.

Lemma rd32_ret m i : 0 <= i -> i + 4 <= msize m -> rd32 m i = Ret (word_at m i).
Proof.
  intros Hi Hm. unfold rd32. destruct (Z.leb_spec 0 i); [|lia].
  by destruct (Z.leb_spec (i + 4) (msize m)); [|lia].
Qed.

Lemma wr_ret m i bs :
  0 <= i -> i + msize bs <= msize m -> wr m i bs = Ret (mem_write m (Z.to_nat i) bs).
Proof.
  intros Hi Hm. unfold wr. destruct (Z.leb_spec 0 i); [|lia].
  by destruct (Z.leb_spec (i + msize bs) (msize m)); [|lia].
Qed.

Lemma msize_mem_write m i bs :
  0 <= i -> i + msize bs <= msize m -> msize (mem_write m (Z.to_nat i) bs) = msize m.
Proof. unfold msize. intros. rewrite length_mem_write; lia. Qed.

Lemma byte_at_app_l m m' i : 0 <= i < msize m -> byte_at (m ++ m') i = byte_at m i.
Proof. unfold byte_at, msize. intros. apply app_nth1. lia. Qed.

Lemma byte_at_app_r m m' i : msize m <= i -> byte_at (m ++ m') i = byte_at m' (i - msize m).
Proof. unfold byte_at, msize. intros. rewrite app_nth2 by lia. f_equal. lia. Qed.

Lemma byte_at_drop m k i : 0 <= k -> 0 <= i -> byte_at (drop (Z.to_nat k) m) i = byte_at m (k + i).
Proof.
  unfold byte_at. intros. rewrite !nth_lookup, lookup_drop. do 2 f_equal. lia.
Qed.

Lemma byte_at_take m k i : i < k -> 0 <= i -> byte_at (take (Z.to_nat k) m) i = byte_at m i.
Proof.
  unfold byte_at. intros. rewrite !nth_lookup, lookup_take_lt by lia. done.
Qed.

Lemma byte_at_mem_write m i bs j :
  0 <= i -> i + msize bs <= msize m -> 0 <= j ->
  byte_at (mem_write m (Z.to_nat i) bs) j =
    if (i <=? j) && (j <? i + msize bs) then byte_at bs (j - i) else byte_at m j.
Proof.
  intros Hi Hm Hj. unfold mem_write.
  assert (msize (take (Z.to_nat i) m) = i) as Ht.
  { unfold msize in *. rewrite length_take. lia. }
  destruct (Z.leb_spec i j); cbn [andb].
  - rewrite byte_at_app_r, Ht by lia.
    destruct (Z.ltb_spec j (i + msize bs)).
    + apply byte_at_app_l. lia.
    + rewrite byte_at_app_r by lia.
      replace (Z.to_nat i + length bs)%nat with (Z.to_nat (i + msize bs)) by (unfold msize; lia).
      rewrite byte_at_drop by (unfold msize in *; lia). f_equal. lia.
  - rewrite byte_at_app_l by lia. by apply byte_at_take.
Qed.

(** What a write leaves below a position. *)
Lemma take_written m i bs :
  0 <= i -> i + msize bs <= msize m ->
  take (Z.to_nat (i + msize bs)) (mem_write m (Z.to_nat i) bs) = take (Z.to_nat i) m ++ bs.
Proof.
  unfold msize, mem_write. intros. rewrite app_assoc. apply take_app_length'.
  rewrite length_app, length_take. lia.
Qed.

Lemma take_mem_write_below m i bs k :
  0 <= k <= i -> i + msize bs <= msize m ->
  take (Z.to_nat k) (mem_write m (Z.to_nat i) bs) = take (Z.to_nat k) m.
Proof.
  unfold msize, mem_write. intros. rewrite take_app_le by (rewrite length_take; lia).
  rewrite take_take. f_equal. lia.
Qed.

Lemma take_mem_write_patch m i bs a b c k :
  take (Z.to_nat k) m = a ++ b ++ c -> msize a = i -> msize b = msize bs -> 0 <= k <= msize m ->
  take (Z.to_nat k) (mem_write m (Z.to_nat i) bs) = a ++ bs ++ c.
Proof.
  unfold msize, mem_write. intros H Ha Hb Hk.
  pose proof (f_equal length H) as Hl. rewrite length_take, !length_app in Hl.
  assert (m = a ++ b ++ c ++ drop (Z.to_nat k) m) as Hm.
  { rewrite <-(take_drop (Z.to_nat k) m) at 1. rewrite H. by rewrite <-!app_assoc. }
  set (r := drop (Z.to_nat k) m) in *. clearbody r.
  replace (Z.to_nat i) with (length a) by lia. rewrite Hm.
  rewrite take_app_length, (app_assoc a b), drop_app_length' by (rewrite length_app; lia).
  rewrite !app_assoc. apply take_app_length'. rewrite !length_app. lia.
Qed.

(** ** Tokens *)

Inductive token :=
| Lit (b : Z)
| Match (hash len : Z).

Definition bit (t : token) : Z := match t with Lit _ => 0 | Match _ _ => 1 end.

Definition bytes_of (t : token) : list Z :=
  match t with
  | Lit b => [b]
  | Match hash len =>
      if len <? 18 then take 2 (bytes4 (Z.lor (len - 2) (Z.shiftl hash 4)))
      else take 3 (bytes4 (Z.lor (Z.shiftl len 16) (Z.shiftl hash 4)))
  end.

(** The bits of a group, its first token lowest; with [m] places left in the group, the
    control word that remains of it. *)
Fixpoint bits (ts : list token) : Z :=
  match ts with [] => 0 | t :: ts => bit t + 2 * bits ts end.
Definition cword (m : nat) (ts : list token) : Z := bits (take m ts) + 2 ^ Z.of_nat m.

(** The bytes of tokens when [m] places are left in the current group. *)
Fixpoint stream (m : nat) (ts : list token) : list Z :=
  match ts with
  | [] => []
  | t :: ts' =>
      match m with
      | O => bytes4 (cword 31 ts) ++ bytes_of t ++ stream 30 ts'
      | S m => bytes_of t ++ stream m ts'
      end
  end.

Definition body (ts : list token) : list Z := concat (map bytes_of ts).

Lemma bits_range ts : 0 <= bits ts < 2 ^ Z.of_nat (length ts).
Proof.
  induction ts as [|t ts IH]; cbn [bits length]; [lia|]. rewrite Nat2Z.inj_succ, Z.pow_succ_r by lia.
  destruct t; cbn [bit]; lia.
Qed.

Lemma bits_app ts ts' : bits (ts ++ ts') = bits ts + bits ts' * 2 ^ Z.of_nat (length ts).
Proof.
  induction ts as [|t ts IH]; cbn [bits app length]; [lia|].
  rewrite IH, Nat2Z.inj_succ, Z.pow_succ_r by lia. lia.
Qed.

Lemma cword_range m ts : (m <= 31)%nat -> 1 <= cword m ts < 2 ^ 32.
Proof.
  intros Hm. unfold cword. pose proof (bits_range (take m ts)) as Hb. rewrite length_take in Hb.
  assert (2 ^ Z.of_nat (m `min` length ts) <= 2 ^ Z.of_nat m) by (apply Z.pow_le_mono_r; lia).
  assert (2 ^ Z.of_nat m <= 2 ^ 31) by (apply Z.pow_le_mono_r; lia). lia.
Qed.

Lemma cword_S m t ts : cword (S m) (t :: ts) = bit t + 2 * cword m ts.
Proof.
  unfold cword. cbn [take bits]. rewrite Nat2Z.inj_succ, Z.pow_succ_r by lia. lia.
Qed.

Lemma stream_body m ts : (length ts <= m)%nat -> stream m ts = body ts.
Proof.
  revert m. induction ts as [|t ts IH]; intros m Hm; [done|]. destruct m as [|m]; cbn in Hm; [lia|].
  cbn. rewrite IH by lia. done.
Qed.

Lemma stream_app m g ts :
  length g = m -> stream m (g ++ ts) = body g ++ stream 0 ts.
Proof.
  revert m. induction g as [|t g IH]; intros m Hm; [by subst|]. subst m. cbn.
  rewrite IH by done. by rewrite app_assoc.
Qed.

(** A group that is full, and the last one. *)
Lemma stream_group g ts :
  length g = 31%nat -> stream 0 (g ++ ts) = bytes4 (bits g + 2 ^ 31) ++ body g ++ stream 0 ts.
Proof.
  intros Hg. destruct g as [|t g]; [done|]. cbn [app stream].
  assert (cword 31 (t :: g ++ ts) = bits (t :: g) + 2 ^ 31) as ->.
  { unfold cword. rewrite app_comm_cons, take_app_length' by done. done. }
  rewrite stream_app by (cbn in Hg; lia). cbn. by rewrite !app_assoc.
Qed.

Lemma stream_last g :
  g <> [] -> (length g <= 31)%nat -> stream 0 g = bytes4 (bits g + 2 ^ 31) ++ body g.
Proof.
  intros Hne Hg. destruct g as [|t g]; [done|]. cbn [stream]. cbn in Hg.
  rewrite stream_body by lia. cbn [body map concat].
  unfold cword. rewrite take_ge by (cbn; lia). done.
Qed.

(** ** Parsing a source *)

(** The position last entered under each hash. *)
Definition history := Z -> option Z.
Definition enter (h p : Z) (t : history) : history := fun i => if i =? h then Some p else t i.

(** [parse s p t ts]: the bytes of [s] from [p] on are cut into [ts], where every match
    begins ten bytes before the end or earlier, ends four bytes before it or earlier,
    and repeats the bytes at the position last entered under its hash, which is at least
    three bytes back. *)
Inductive parse (s : list Z) : Z -> history -> list token -> Prop :=
| parse_end t : parse s (msize s) t []
| parse_lit p t ts :
    0 <= p < msize s -> parse s (p + 1) (enter (key s p) p t) ts ->
    parse s p t (Lit (byte_at s p) :: ts)
| parse_match p t o len ts :
    t (key s p) = Some o -> 0 <= o -> o + MINOFFSET < p -> 3 <= len <= 255 ->
    p <= last_matchstart s -> p + len <= last_byte s - 3 ->
    (forall i, 0 <= i < len -> byte_at s (o + i) = byte_at s (p + i)) ->
    parse s (p + len) (enter (key s p) p t) ts ->
    parse s p t (Match (key s p) len :: ts).

Lemma parse_range s p t ts : parse s p t ts -> 0 <= p <= msize s.
Proof.
  induction 1 as [t|p t ts Hp _ _|p t o len ts Ht Ho Hop Hlen Hp Hend _ _ _]; [unfold msize; lia|lia|].
  unfold last_matchstart, last_byte, UNCONDITIONAL_MATCHLEN, UNCOMPRESSED_END, MINOFFSET in *. lia.
Qed.

(** After the last start of a match only literals follow. *)
Lemma parse_tail s p t ts :
  parse s p t ts -> last_matchstart s < p -> ts = map Lit (drop (Z.to_nat p) s).
Proof.
  induction 1 as [t|p t ts Hp _ IH|p t o len ts Ht Ho Hop Hlen Hp Hend _ _ _]; intros Hlast; [| |lia].
  - rewrite drop_ge; [done|]. unfold msize. lia.
  - rewrite (drop_S _ (byte_at s p) (Z.to_nat p)) by (apply byte_at_in; lia). cbn [map].
    rewrite IH by lia. do 3 f_equal. lia.
Qed.

(** The rest of the source as literals is always a parse. *)
Lemma parse_literals s p t : 0 <= p <= msize s -> parse s p t (map Lit (drop (Z.to_nat p) s)).
Proof.
  intros Hp. remember (Z.to_nat (msize s - p)) as k eqn:Hk. revert p t Hp Hk.
  induction k as [|k IH]; intros p t Hp Hk.
  - assert (p = msize s) as -> by lia. rewrite drop_ge by (unfold msize; lia). constructor.
  - rewrite (drop_S _ (byte_at s p) (Z.to_nat p)) by (apply byte_at_in; lia). cbn [map].
    constructor; [lia|]. replace (S (Z.to_nat p)) with (Z.to_nat (p + 1)) by lia. apply IH; lia.
Qed.

Lemma bytes4_length w : length (bytes4 w) = 4%nat.
Proof. done. Qed.

Lemma bytes_of_length t : (1 <= length (bytes_of t) <= 3)%nat.
Proof. destruct t as [b|h len]; cbn [bytes_of length]; [lia|]. destruct (len <? 18); cbn; lia. Qed.

(** At least four bytes of the stream are left when four bytes of the source are. *)
Lemma stream_long s p t ts m :
  parse s p t ts -> Z.min 4 (msize s - p) <= Z.of_nat (length (stream m ts)).
Proof.
  intros Hp. revert m. induction Hp as [t|p t ts Hp _ IH|p t o len ts Ht Ho Hop Hlen Hp Hend _ _ IH];
    intros m; cbn [stream]; [lia| |].
  - destruct m as [|m]; cbn [bytes_of]; rewrite !length_app; cbn [length].
    + specialize (IH 30%nat). lia.
    + specialize (IH m). lia.
  - unfold last_byte in Hend. destruct m as [|m]; rewrite !length_app.
    + specialize (IH 30%nat). lia.
    + specialize (IH m). lia.
Qed.

(** ** Control words of the compressor *)

Lemma land_1 z : Z.land z 1 = z mod 2.
Proof. change 1 with (Z.ones 1) at 1. by rewrite Z.land_ones by lia. Qed.

Lemma land_pow2_small x k : 0 <= k -> 0 <= x < 2 ^ k -> Z.land x (2 ^ k) = 0.
Proof.
  intros Hk Hx. apply Z.bits_inj'. intros j Hj. rewrite Z.land_spec, Z.bits_0, Z.pow2_bits_eqb by done.
  destruct (Z.eqb_spec k j) as [<-|]; [|by rewrite andb_false_r].
  rewrite <-(Z.mod_small x (2 ^ k)) by done. by rewrite Z.mod_pow2_bits_high by lia.
Qed.

(** [cword_val] when the group holds [g]: a one that marks the free places, and the bits
    above it. *)
Definition cword_val (g : list token) : Z :=
  2 ^ (31 - Z.of_nat (length g)) * (1 + 2 * bits g).

Lemma cword_val_range g : (length g <= 31)%nat -> 0 <= cword_val g < 2 ^ 32.
Proof.
  intros Hg. unfold cword_val. pose proof (bits_range g) as Hb.
  assert (2 ^ (31 - Z.of_nat (length g)) * 2 ^ Z.of_nat (length g) = 2 ^ 31) as Hp.
  { rewrite <-Z.pow_add_r by lia. f_equal. lia. }
  assert (0 < 2 ^ (31 - Z.of_nat (length g))) by (apply Z.pow_pos_nonneg; lia). nia.
Qed.

Lemma cword_val_full g :
  (length g <= 31)%nat -> (Z.land (cword_val g) 1 =? 1) = (length g =? 31)%nat.
Proof.
  intros Hg. rewrite land_1. unfold cword_val. destruct (Nat.eqb_spec (length g) 31) as [->|Hne].
  - change (2 ^ (31 - Z.of_nat 31)) with 1. rewrite Z.mul_1_l, Z.eqb_eq.
    symmetry. apply (Z.mod_unique_pos _ _ (bits g)); lia.
  - replace (31 - Z.of_nat (length g)) with (Z.succ (30 - Z.of_nat (length g))) by lia.
    rewrite Z.pow_succ_r by lia. rewrite <-Z.mul_assoc, Z.mul_comm, Z_mod_mult. done.
Qed.

Lemma cword_val_shift g t :
  (length g < 31)%nat ->
  Z.shiftr (cword_val g) 1 + bit t * 2 ^ 31 = cword_val (g ++ [t]) /\
  0 <= Z.shiftr (cword_val g) 1 < 2 ^ 31.
Proof.
  intros Hg. pose proof (cword_val_range g ltac:(lia)) as Hr.
  rewrite Z.shiftr_div_pow2 by lia. split; [|split; [apply Z.div_pos; lia|apply Z.div_lt_upper_bound; lia]].
  unfold cword_val. rewrite length_app, bits_app. cbn [length bits].
  replace (31 - Z.of_nat (length g)) with (Z.succ (30 - Z.of_nat (length g))) by lia.
  replace (31 - Z.of_nat (length g + 1)) with (30 - Z.of_nat (length g)) by lia.
  rewrite Z.pow_succ_r, <-Z.mul_assoc by lia. change (2 ^ 1) with 2.
  rewrite (Z.mul_comm 2), Z.div_mul by lia.
  assert (2 ^ (30 - Z.of_nat (length g)) * 2 ^ Z.of_nat (length g) = 2 ^ 30) as Hp.
  { rewrite <-Z.pow_add_r by lia. f_equal. lia. }
  change (2 ^ 31) with (2 * 2 ^ 30). rewrite <-Hp. lia.
Qed.

Lemma cword_val_lit g b : (length g < 31)%nat -> Z.shiftr (cword_val g) 1 = cword_val (g ++ [Lit b]).
Proof. intros Hg. destruct (cword_val_shift g (Lit b) Hg) as [<- _]. cbn [bit]. lia. Qed.

Lemma cword_val_match g h len :
  (length g < 31)%nat -> shift_in (cword_val g) = cword_val (g ++ [Match h len]).
Proof.
  intros Hg. destruct (cword_val_shift g (Match h len) Hg) as [<- Hr]. unfold shift_in. cbn [bit].
  rewrite lor_add by (apply land_pow2_small; lia). lia.
Qed.

Lemma shift_in_last g : (length g <= 31)%nat -> shift_in (1 + 2 * bits g) = bits g + 2 ^ 31.
Proof.
  intros Hg. unfold shift_in. rewrite Z.shiftr_div_pow2 by lia.
  replace ((1 + 2 * bits g) / 2 ^ 1) with (bits g) by (apply Z.div_unique_pos with 1; lia).
  apply lor_add, land_pow2_small; [lia|]. pose proof (bits_range g) as Hb.
  assert (2 ^ Z.of_nat (length g) <= 2 ^ 31) by (apply Z.pow_le_mono_r; lia). lia.
Qed.

Lemma cword_val_31 g : length g = 31%nat -> cword_val g = 1 + 2 * bits g.
Proof. intros Hg. unfold cword_val. rewrite Hg. change (2 ^ (31 - Z.of_nat 31)) with 1. lia. Qed.

(** Aligning the word of an unfinished group takes a shift per free place. *)
Lemma align_cword_val g fuel :
  (length g <= 31)%nat -> (31 - length g < fuel)%nat ->
  align_cword fuel (cword_val g) = Ret (1 + 2 * bits g).
Proof.
  intros Hg. unfold cword_val. replace (31 - Z.of_nat (length g)) with (Z.of_nat (31 - length g)) by lia.
  generalize (31 - length g)%nat as j. clear Hg. intros j. revert fuel.
  induction j as [|j IH]; intros [|fuel] Hf; try lia; cbn [align_cword]; rewrite land_1.
  - change (2 ^ Z.of_nat 0) with 1. rewrite Z.mul_1_l.
    replace ((1 + 2 * bits g) mod 2) with 1 by (apply (Z.mod_unique_pos _ _ (bits g)); lia). done.
  - rewrite Nat2Z.inj_succ, Z.pow_succ_r, <-Z.mul_assoc by lia.
    rewrite (Z.mul_comm 2), Z_mod_mult. cbn [Z.eqb].
    rewrite Z.shiftr_div_pow2, Z.div_mul by lia. apply IH. lia.
Qed.
