(* ===== verification/QlzCompress.v ===== *)
(** QuickLZ: what [qlz_compress_core] writes is the stream of a parse of its source, and
    its writes stay within 111 bytes more than the source has. *)
From Stdlib Require Import ZArith Lia Bool.
From stdpp Require Import base list numbers.
From S2P Require Import Prelude Qlz QlzTokens.

Section Compressor.
Variable s : list Z.
Variable cap : Z.
Hypothesis s_bytes : Forall is_byte s.

Abbreviation n := (msize s).

(** ** The destination *)

(** The state at source position [p]: [done] are the bytes of the groups that are
    closed, [g] the tokens of the open group, which began at position [q]. *)
Record cbase (p : Z) (done : list Z) (g : list token) (q : Z) (c : comp) : Prop := {
  cb_src : c_src c = p;
  cb_cptr : c_cptr c = msize done;
  cb_dst : c_dst c = msize done + 4 + msize (body g);
  cb_out : exists hole, length hole = 4%nat /\
    take (Z.to_nat (c_dst c)) (c_out c) = done ++ hole ++ body g;
  cb_cap : msize (c_out c) = cap;
  cb_g : (length g <= 31)%nat;
  cb_cword : c_cword c = cword_val g;
  cb_p : 0 <= p <= n;
  cb_q : 0 <= q;
  cb_done : 31 * msize done <= 35 * q;
  cb_tokens : q + Z.of_nat (length g) <= p;
  cb_body : msize (body g) <= p - q
}.

Lemma msize_app a b : msize (a ++ b) = msize a + msize b.
Proof. unfold msize. rewrite length_app. lia. Qed.

Lemma body_app g g' : body (g ++ g') = body g ++ body g'.
Proof. unfold body. by rewrite map_app, concat_app. Qed.

Lemma body_length g : msize (body g) <= 3 * Z.of_nat (length g).
Proof.
  induction g as [|t g IH]; [unfold msize; cbn; lia|]. change (body (t :: g)) with (bytes_of t ++ body g).
  rewrite msize_app. pose proof (bytes_of_length t). unfold msize in *. cbn [length]. lia.
Qed.

(** The variables a write does not touch. *)
Definition same_tables (c c' : comp) : Prop :=
  c_cache c' = c_cache c /\ c_off c' = c_off c /\ c_cnt c' = c_cnt c.

Lemma fast_write_4 f m i : fast_write f m i 4 = wr m i (bytes4 f).
Proof. done. Qed.

(** Writing the control word of the open group. *)
Lemma patch_cword p done g q c w :
  cbase p done g q c -> c_dst c <= cap ->
  exists out, wr (c_out c) (c_cptr c) (bytes4 w) = Ret out /\ msize out = cap /\
    take (Z.to_nat (c_dst c)) out = done ++ bytes4 w ++ body g.
Proof.
  intros [Hsrc Hptr Hdst (hole & Hh & Hout) Hcap Hg Hcw Hp Hq Hd Ht Hb] Hle.
  assert (msize (bytes4 w) = 4) as H4 by done. assert (0 <= msize done) by (unfold msize; lia).
  assert (0 <= msize (body g)) by (unfold msize; lia).
  rewrite wr_ret by lia. eexists. split; [done|]. split; [rewrite msize_mem_write; lia|].
  apply (take_mem_write_patch _ _ _ _ hole); try done; try lia. unfold msize. by rewrite Hh.
Qed.

Lemma next_cword_ok p done g q c :
  cbase p done g q c -> length g = 31%nat -> c_dst c + 4 <= cap ->
  exists c', next_cword c = Ret c' /\
    cbase p (done ++ bytes4 (bits g + 2 ^ 31) ++ body g) [] p c' /\ same_tables c c' /\
    c_dst c' = c_dst c + 4.
Proof.
  intros Hb Hg Hle. pose proof Hb as [Hsrc Hptr Hdst Hout Hcap _ Hcw Hp Hq Hd Ht Hbody].
  destruct (patch_cword p done g q c (shift_in (c_cword c)) Hb ltac:(lia)) as (out & Hwr & Hsz & Hout').
  unfold next_cword, flush_cword. rewrite fast_write_4, Hwr. cbn [obind].
  eexists. split; [done|].
  rewrite Hcw, cword_val_31, shift_in_last in Hout' by lia.
  set (done' := done ++ bytes4 (bits g + 2 ^ 31) ++ body g) in *.
  assert (Hdone : msize done' = c_dst c).
  { unfold done'. rewrite !msize_app, Hdst. change (msize (bytes4 (bits g + 2 ^ 31))) with 4. lia. }
  assert (0 <= c_dst c) by (rewrite <-Hdone; unfold msize; lia).
  assert (msize (body []) = 0) as H0 by done.
  split_and!; [|done|done]. constructor; cbn [c_src c_cptr c_dst c_out c_cword length]; try done; try lia.
  - rewrite Hdone, H0. unfold CWORD_LEN. lia.
  - exists (slice out (Z.to_nat (c_dst c)) (Z.to_nat (c_dst c + 4))). split.
    + rewrite length_slice; unfold msize in *; lia.
    + change (body []) with (@nil Z). rewrite app_nil_r, <-Hout'. unfold CWORD_LEN, slice.
      replace (Z.to_nat (c_dst c + 4)) with (Z.to_nat (c_dst c) + 4)%nat by lia.
      rewrite take_take_drop. f_equal. lia.
Qed.

(** Writing the bytes of a token. *)
Lemma emit p done g q c t p' out fetch cache off cnt cword' :
  cbase p done g q c -> (length g < 31)%nat ->
  msize out = cap ->
  take (Z.to_nat (c_dst c + msize (bytes_of t))) out = take (Z.to_nat (c_dst c)) (c_out c) ++ bytes_of t ->
  p + msize (bytes_of t) <= p' <= n -> cword' = cword_val (g ++ [t]) ->
  cbase p' done (g ++ [t]) q
    (mkComp p' (c_dst c + msize (bytes_of t)) (c_cptr c) cword' fetch cache off cnt out).
Proof.
  intros [Hsrc Hptr Hdst (hole & Hh & Hout) Hcap Hg' Hcw Hp Hq Hd Ht Hb] Hg Hsz Hout' Hp' Hw.
  pose proof (bytes_of_length t) as Hl.
  assert (msize (body (g ++ [t])) = msize (body g) + msize (bytes_of t)) as Hbody.
  { rewrite body_app, msize_app. f_equal. unfold body. cbn. by rewrite app_nil_r. }
  assert (1 <= msize (bytes_of t)) by (unfold msize; lia).
  constructor; cbn [c_src c_cptr c_dst c_out c_cword]; try done; try lia.
  - exists hole. split; [done|]. rewrite Hout', Hout, body_app. unfold body at 3. cbn.
    by rewrite app_nil_r, <-!app_assoc.
  - rewrite length_app. cbn. lia.
  - rewrite length_app. cbn [length]. lia.
Qed.

(** ** Matches *)

Lemma same_byte_ret i j :
  0 <= i < n -> 0 <= j < n -> same_byte s i j = Ret (byte_at s i =? byte_at s j).
Proof. intros Hi Hj. unfold same_byte. by rewrite !rd8_ret. Qed.

(** The bytes at [o] repeat at [p], [len] of them. *)
Definition repeats (o p len : Z) : Prop := forall i, 0 <= i < len -> byte_at s (o + i) = byte_at s (p + i).

Lemma repeats_step o p len :
  0 <= len -> repeats o p len -> byte_at s (o + len) = byte_at s (p + len) -> repeats o p (len + 1).
Proof.
  intros Hl Hr Heq i Hi. destruct (Z.eq_dec i len) as [->|]; [done|]. apply Hr. lia.
Qed.

Lemma extend_match_ok fuel o p len remaining :
  0 <= o < p -> 0 <= len <= remaining -> p + remaining < n -> repeats o p len ->
  (Z.to_nat (remaining - len) < fuel)%nat ->
  exists len', extend_match s fuel o p (p + len) remaining = Ret (p + len') /\
    len <= len' <= remaining /\ repeats o p len'.
Proof.
  revert len. induction fuel as [|fuel IH]; intros len Ho Hl Hn Hr Hf; [lia|]. cbn [extend_match].
  replace (p + len - p) with len by lia. rewrite same_byte_ret by lia. cbn [obind].
  destruct (Z.eqb_spec (byte_at s (o + len)) (byte_at s (p + len))) as [Heq|]; [|by exists len; split_and!; try done; lia].
  destruct (Z.ltb_spec len remaining); cbn [andb]; [|by exists len; split_and!; try done; lia].
  replace (p + len + 1) with (p + (len + 1)) by lia.
  destruct (IH (len + 1)) as (len' & -> & Hle & Hr'); try lia.
  - apply repeats_step; [lia|done|done].
  - exists len'. split_and!; [done|lia|lia|done].
Qed.

Lemma match_end_ok o p :
  0 <= o < p -> p <= last_matchstart s -> repeats o p 4 ->
  exists len, match_end s o p = Ret (p + len) /\ 4 <= len <= 255 /\ p + len <= last_byte s - 3 /\
    repeats o p len.
Proof.
  intros Ho Hp Hr. unfold last_matchstart, last_byte, UNCONDITIONAL_MATCHLEN, UNCOMPRESSED_END in *.
  unfold match_end, CWORD_LEN, last_byte, UNCOMPRESSED_END.
  replace (p + 4 - p) with 4 by lia. rewrite same_byte_ret by lia. cbn [obind].
  destruct (Z.eqb_spec (byte_at s (o + 4)) (byte_at s (p + 4))) as [Heq|];
    [|by exists 4; split_and!; try done; lia].
  replace (p + 4 + 1) with (p + 5) by lia. replace (p + 5 - p) with 5 by lia.
  rewrite same_byte_ret by lia. cbn [obind].
  assert (Hr5 : repeats o p 5) by (apply (repeats_step o p 4); [lia|done|done]).
  destruct (Z.eqb_spec (byte_at s (o + 5)) (byte_at s (p + 5))) as [Heq5|];
    [|by exists 5; split_and!; try done; lia].
  assert (Hr6 : repeats o p 6) by (apply (repeats_step o p 5); [lia|done|done]).
  set (rest := n - 1 - 4 - (p + 5 - 5) + 1).
  destruct (extend_match_ok (length s) o p 6 (if rest >? 255 then 255 else rest)) as (len & H & Hl & Hrl).
  - done.
  - destruct (Z.gtb_spec rest 255); lia.
  - destruct (Z.gtb_spec rest 255); lia.
  - done.
  - destruct (Z.gtb_spec rest 255); unfold msize in *; lia.
  - replace (p + 5 + 1) with (p + 6) by lia. exists len. split; [done|].
    destruct (Z.gtb_spec rest 255); split_and!; try done; lia.
Qed.

(** ** Tables *)

(** The hash table agrees with the history, and the history with the source. *)
Definition ctables (t : history) (c : comp) : Prop :=
  forall h, if c_cnt c h =? 0 then t h = None
    else t h = Some (c_off c h) /\ c_cache c h mod 2 ^ 24 = word24 s (c_off c h).

Definition entered (p : Z) (t : history) : Prop :=
  forall h o, t h = Some o -> 0 <= o < p /\ key s o = h.

(** The bytes at the current position, while a match may begin there. *)
Definition cfetch (c : comp) : Prop :=
  c_src c <= last_matchstart s -> c_fetch c mod 2 ^ 24 = word24 s (c_src c).

Lemma entered_enter p p' t : entered p t -> 0 <= p < p' -> entered p' (enter (key s p) p t).
Proof.
  intros He Hp h o. unfold enter. destruct (Z.eqb_spec h (key s p)) as [->|].
  - intros [= <-]. lia.
  - intros Ho. destruct (He h o Ho). lia.
Qed.

Lemma cfetch_key c :
  cfetch c -> c_src c <= last_matchstart s -> hash_func (c_fetch c) = key s (c_src c).
Proof.
  intros Hf Hle. unfold key. apply hash_func_low. rewrite word24_small by done. by apply Hf.
Qed.

Lemma fast_read_3 i : 0 <= i -> i + 4 <= n -> fast_read s i 3 = Ret (word_at s i).
Proof. intros. unfold fast_read. cbn. by apply rd32_ret. Qed.

(** ** A turn of the main loop *)

(** The bytes of a match of [len] bytes, as the two places that write them do. *)
Lemma match_bytes hash len :
  0 <= len ->
  ((len <? 18) = true ->
     [u8 (Z.lor (len - 2) (Z.shiftl hash 4)); u8 (Z.shiftr (Z.lor (len - 2) (Z.shiftl hash 4)) 8)]
       = bytes_of (Match hash len)) /\
  ((len <? 18) = false ->
     take 3 (bytes4 (Z.lor (Z.shiftl len 16) (Z.shiftl hash 4))) = bytes_of (Match hash len)).
Proof. intros Hl. cbn [bytes_of]. by split; intros ->. Qed.

(** A write of two bytes at the end of what has been written. *)
Lemma write_2 m i f :
  0 <= i -> i + 4 <= msize m -> msize m = cap ->
  exists out, fast_write f m i 2 = Ret out /\ msize out = cap /\
    take (Z.to_nat (i + 2)) out = take (Z.to_nat i) m ++ [u8 f; u8 (Z.shiftr f 8)].
Proof.
  intros Hi Hle Hcap. unfold fast_write. cbn [Z.eqb orb Pos.eqb].
  assert (msize [u8 f; u8 (Z.shiftr f 8)] = 2) as H2 by done.
  rewrite wr_ret by lia. eexists. split; [done|]. split.
  - rewrite msize_mem_write; lia.
  - apply (take_written m i [u8 f; u8 (Z.shiftr f 8)]); lia.
Qed.

(** A write of three bytes, which stores four. *)
Lemma write_3 m i f :
  0 <= i -> i + 4 <= msize m -> msize m = cap ->
  exists out, fast_write f m i 3 = Ret out /\ msize out = cap /\
    take (Z.to_nat (i + 3)) out = take (Z.to_nat i) m ++ take 3 (bytes4 f).
Proof.
  intros Hi Hle Hcap. unfold fast_write. cbn [Z.eqb orb Pos.eqb].
  assert (msize (bytes4 f) = 4) as H4 by done.
  rewrite wr_ret by lia. eexists. split; [done|]. split; [rewrite msize_mem_write; lia|].
  pose proof (take_written m i (bytes4 f) Hi ltac:(lia)) as Ht. rewrite H4 in Ht.
  apply (f_equal (take (Z.to_nat (i + 3)))) in Ht. rewrite take_take in Ht.
  replace (Z.to_nat (i + 3) `min` Z.to_nat (i + 4))%nat with (Z.to_nat (i + 3)) in Ht by lia.
  rewrite Ht, take_app_ge; rewrite length_take; [|unfold msize in *; lia].
  do 2 f_equal. unfold msize in *. lia.
Qed.

(** The turn ends with the token [t] written. *)
Definition wrote (p : Z) (done : list Z) (g : list token) (q : Z) (t : token) (p' : Z) (c c' : comp) : Prop :=
  cbase p' done (g ++ [t]) q c' /\ same_tables c c'.

Lemma put_match_ok p done g q o h c :
  cbase p done g q c -> (length g < 31)%nat -> c_dst c + 4 <= cap ->
  0 <= o < p -> p <= last_matchstart s -> repeats o p 3 ->
  exists len c', put_match s o h c = Ret c' /\ 3 <= len <= 255 /\ p + len <= last_byte s - 3 /\
    repeats o p len /\ wrote p done g q (Match h len) (p + len) c c'.
Proof.
  intros Hb Hg Hcap Ho Hp Hr. pose proof Hb as [Hsrc Hptr Hdst _ Hsz _ Hcw Hpr Hq Hd Ht Hbody].
  assert (0 <= c_dst c) by (rewrite Hdst; unfold msize; lia).
  unfold put_match. rewrite Hsrc.
  unfold last_matchstart, last_byte, UNCONDITIONAL_MATCHLEN, UNCOMPRESSED_END in Hp.
  rewrite same_byte_ret by lia. cbn [obind].
  assert (Hshort : forall len f, 3 <= len <= 255 -> p + len <= last_byte s - 3 -> (len <? 18) = true ->
    f = Z.lor (len - 2) (Z.shiftl h 4) ->
    exists out, fast_write f (c_out c) (c_dst c) 2 = Ret out /\
      wrote p done g q (Match h len) (p + len) c
        (mkComp (p + len) (c_dst c + 2) (c_cptr c) (shift_in (c_cword c)) (c_fetch c)
           (c_cache c) (c_off c) (c_cnt c) out)).
  { intros len f Hl Hle H18 ->. destruct (write_2 (c_out c) (c_dst c) (Z.lor (len - 2) (Z.shiftl h 4)))
      as (out & Hw & Hso & Htk); try lia. exists out. split; [done|].
    pose proof (proj1 (match_bytes h len ltac:(lia)) H18) as Hbs. rewrite Hbs in Htk. split; [|done].
    assert (msize (bytes_of (Match h len)) = 2) as H2 by (by rewrite <-Hbs).
    replace (c_dst c + 2) with (c_dst c + msize (bytes_of (Match h len))) in * by lia.
    unfold last_byte in Hle.
    apply (emit p done g q c (Match h len)); try done; try lia.
    rewrite Hcw. by apply cword_val_match. }
  destruct (Z.eqb_spec (byte_at s (o + 3)) (byte_at s (p + 3))) as [Heq|Hne]; cbn [negb].
  - assert (Hr4 : repeats o p 4) by (apply (repeats_step o p 3); [lia|done|done]).
    destruct (match_end_ok o p) as (len & Hme & Hl & Hle & Hrl); [done|done|done|].
    rewrite Hme. cbn [obind]. replace (p + len - p) with len by lia.
    destruct (Z.ltb_spec len 18) as [H18|H18].
    + destruct (Hshort len (Z.lor (len - 2) (Z.shiftl h 4))) as (out & -> & Hw);
        [lia|done|by apply Z.ltb_lt|done|].
      eexists len, _. split; [done|]. split_and!; try done; lia.
    + destruct (write_3 (c_out c) (c_dst c) (Z.lor (Z.shiftl len 16) (Z.shiftl h 4)))
        as (out & -> & Hso & Htk); try lia. cbn [obind].
      eexists len, _. split; [done|]. split_and!; try done; try lia.
      apply Z.ltb_ge in H18. pose proof (proj2 (match_bytes h len ltac:(lia)) H18) as Hbs.
      rewrite Hbs in Htk. split; [|done].
      assert (msize (bytes_of (Match h len)) = 3) as H3 by (by rewrite <-Hbs).
      replace (c_dst c + 3) with (c_dst c + msize (bytes_of (Match h len))) in * by lia.
      unfold last_byte in Hle. apply (emit p done g q c (Match h len)); try done; try lia.
      rewrite Hcw. by apply cword_val_match.
  - destruct (Hshort 3 (Z.lor (3 - 2) (Z.shiftl h 4))) as (out & -> & Hw); [lia| |done|done|].
    { unfold last_byte. lia. }
    cbn [obind]. eexists 3, _. split; [done|]. split_and!; try done; unfold last_byte; lia.
Qed.

Lemma put_literal_ok p done g q c :
  cbase p done g q c -> (length g < 31)%nat -> c_dst c + 1 <= cap -> p < n ->
  exists c', put_literal s c = Ret c' /\ wrote p done g q (Lit (byte_at s p)) (p + 1) c c' /\
    c_dst c' = c_dst c + 1.
Proof.
  intros Hb Hg Hcap Hp. pose proof Hb as [Hsrc Hptr Hdst _ Hsz _ Hcw Hpr Hq Hd Ht Hbody].
  assert (0 <= c_dst c) by (rewrite Hdst; unfold msize; lia).
  unfold put_literal. rewrite Hsrc, rd8_ret by lia. cbn [obind].
  assert (msize [byte_at s p] = 1) as H1 by done.
  rewrite wr_ret by lia. cbn [obind]. eexists. split; [reflexivity|]. split; [|reflexivity]. split; [|done].
  apply (emit p done g q c (Lit (byte_at s p))); try done; try (cbn [bytes_of]; lia).
  - rewrite msize_mem_write; lia.
  - cbn [bytes_of]. apply take_written; lia.
  - rewrite Hcw. by apply cword_val_lit.
Qed.

Lemma ctables_enter t p f c c' :
  ctables t c -> f mod 2 ^ 24 = word24 s p ->
  c_cache c' = upd (key s p) f (c_cache c) -> c_off c' = upd (key s p) p (c_off c) ->
  (c_cnt c' = c_cnt c /\ c_cnt c (key s p) <> 0 \/ c_cnt c' = upd (key s p) 1 (c_cnt c)) ->
  ctables (enter (key s p) p t) c'.
Proof.
  intros Ht Hf Hcache Hoff Hcnt h. specialize (Ht h). unfold enter. rewrite Hcache, Hoff.
  unfold upd at 1 2 3. destruct (Z.eqb_spec h (key s p)) as [->|Hne].
  - destruct Hcnt as [[-> Hc]| ->]; [apply Z.eqb_neq in Hc; by rewrite Hc|].
    unfold upd. by rewrite Z.eqb_refl.
  - destruct Hcnt as [[-> Hc]| ->]; [done|]. unfold upd. apply Z.eqb_neq in Hne. by rewrite Hne.
Qed.

(** The compressor at a position: its variables, its tables and its window. *)
Record cstate (p : Z) (t : history) (done : list Z) (g : list token) (q : Z) (c : comp) : Prop := {
  cs_base : cbase p done g q c;
  cs_tables : ctables t c;
  cs_entered : entered p t;
  cs_fetch : cfetch c
}.

(** The state after a token, once the new position has been fetched. *)
Lemma fetched p' t done g q c c1 :
  cbase p' done g q c1 -> same_tables c c1 -> ctables t c -> entered p' t -> p' + 4 <= n ->
  exists c', (let! f := fast_read s (c_src c1) 3 in Ret (set_fetch f c1)) = Ret c' /\
    cstate p' t done g q c'.
Proof.
  intros Hb (H1 & H2 & H3) Ht He Hp. pose proof Hb as [Hsrc Hptr Hdst Hout Hsz Hg Hcw Hpr Hq Hd Htk Hbody].
  rewrite Hsrc, fast_read_3 by lia. cbn [obind]. eexists. split; [done|].
  constructor; [by constructor| |done|].
  - intros h. specialize (Ht h). cbn. by rewrite H1, H2, H3.
  - intros _. cbn. rewrite Hsrc. by apply word_at_word24.
Qed.

(** The window does not depend on the tables. *)
Lemma cbase_same p done g q c f cache off cnt :
  cbase p done g q c ->
  cbase p done g q (mkComp p (c_dst c) (c_cptr c) (c_cword c) f cache off cnt (c_out c)).
Proof. intros []. by constructor. Qed.

Lemma encode_turn_ok p t done g q c :
  cstate p t done g q c -> (length g < 31)%nat -> c_dst c + 4 <= cap -> p <= last_matchstart s ->
  exists tok p' c', encode_turn s c = Ret c' /\
    cstate p' (enter (key s p) p t) done (g ++ [tok]) q c' /\ p < p' <= last_byte s - 3 /\
    (forall ts, parse s p' (enter (key s p) p t) ts -> parse s p t (tok :: ts)).
Proof.
  intros [Hb Ht He Hf] Hg Hcap Hp. pose proof Hb as [Hsrc Hptr Hdst Hout Hsz _ Hcw Hpr Hq Hd Htk Hbody].
  assert (Hlast : last_matchstart s = n - 11).
  { unfold last_matchstart, last_byte, UNCONDITIONAL_MATCHLEN, UNCOMPRESSED_END. lia. }
  unfold encode_turn. rewrite (cfetch_key c Hf) by lia. rewrite Hsrc.
  assert (Hfp : c_fetch c mod 2 ^ 24 = word24 s p) by (rewrite <-Hsrc; apply Hf; lia).
  set (h := key s p) in *. unfold MINOFFSET.
  destruct (_ && _ && _) eqn:Hhit.
  - apply andb_prop in Hhit as [[Hc Ho]%andb_prop Hcnt]. apply cached_hit in Hc. apply Z.gtb_lt in Ho.
    assert (Hh := Ht h). destruct (c_cnt c h =? 0) eqn:Hcnt0; [done|]. apply Z.eqb_neq in Hcnt0.
    destruct Hh as [Hh Hcache]. destruct (He h (c_off c h) Hh) as [Hor _].
    set (c1 := mkComp _ _ _ _ _ _ _ _ _).
    destruct (put_match_ok p done g q (c_off c h) h c1) as (len & c2 & Hput & Hl & Hle & Hr & Hb2 & Hs2);
      [by apply cbase_same|done|done|lia|done| |].
    { intros i Hi. apply (word24_inj s); [done| |done]. by rewrite <-Hcache, <-Hc. }
    rewrite Hput. cbn [obind].
    destruct (fetched (p + len) (enter h p t) done (g ++ [Match h len]) q c1 c2) as (c3 & -> & Hc3);
      [done|done| | | |].
    + eapply (ctables_enter t p (c_fetch c) c c1); try done. by left.
    + apply (entered_enter p); [done|lia].
    + unfold last_byte in Hle. lia.
    + eexists _, _, _. split; [done|]. split; [done|]. split; [lia|]. intros ts Hts.
      apply (parse_match s p t (c_off c h)); try done; try lia. unfold MINOFFSET. lia.
  - cbn [c_src c_dst c_cptr c_cword c_fetch c_cache c_off c_cnt c_out].
    set (c1 := mkComp _ _ _ _ _ _ _ _ _).
    destruct (put_literal_ok p done g q c1) as (c2 & Hput & [Hb2 Hs2] & _);
      [by apply cbase_same|done|cbn; lia|lia|].
    rewrite Hput. cbn [obind].
    destruct (fetched (p + 1) (enter h p t) done (g ++ [Lit (byte_at s p)]) q c1 c2) as (c3 & -> & Hc3);
      [done|done| | | |].
    + eapply (ctables_enter t p (c_fetch c) c c1); try done. by right.
    + apply (entered_enter p); [done|lia].
    + lia.
    + eexists _, _, _. split; [done|]. split; [done|]. split; [unfold last_byte; lia|]. intros ts Hts.
      apply parse_lit; [lia|done].
Qed.

(** ** The loops *)

Hypothesis cap_enough : n + 111 <= cap.

Lemma dst_bound p done g q c : cbase p done g q c -> c_dst c <= msize done + 4 + 3 * Z.of_nat (length g).
Proof. intros Hb. rewrite (cb_dst _ _ _ _ _ Hb). pose proof (body_length g). lia. Qed.

(** The bytes from the open group on, when [ts] follow. *)
Definition output (done : list Z) (g ts : list token) : list Z := done ++ stream 0 (g ++ ts).

Lemma output_group done g ts :
  length g = 31%nat -> output done g ts = output (done ++ bytes4 (bits g + 2 ^ 31) ++ body g) [] ts.
Proof. intros Hg. unfold output. rewrite stream_group by done. by rewrite <-!app_assoc. Qed.

(** A group is closed only while the data compress, so that little has been written. *)
Lemma begin_turn_ok p t done g q c :
  cstate p t done g q c -> msize done <= n -> p <= last_matchstart s ->
  (begin_turn s c = Ret (false, c) /\ 42 <= n) \/
  exists done' g' q' c', begin_turn s c = Ret (true, c') /\ cstate p t done' g' q' c' /\
    (length g' < 31)%nat /\ msize done' <= n /\ forall ts, output done g ts = output done' g' ts.
Proof.
  intros [Hb Ht He Hf] Hd Hp. pose proof (dst_bound _ _ _ _ _ Hb) as Hdb.
  pose proof (cb_g _ _ _ _ _ Hb) as Hg. unfold begin_turn, cword_full.
  rewrite (cb_cword _ _ _ _ _ Hb), cword_val_full by done.
  destruct (Nat.eqb_spec (length g) 31) as [Hg31|Hg31].
  2: { right. exists done, g, q, c. split_and!; try done. lia. }
  pose proof (cb_tokens _ _ _ _ _ Hb) as Htk. pose proof (cb_q _ _ _ _ _ Hb) as Hq.
  pose proof (cb_done _ _ _ _ _ Hb) as Hdone. pose proof (cb_body _ _ _ _ _ Hb) as Hbody.
  pose proof (cb_dst _ _ _ _ _ Hb) as Hdst. rewrite (cb_src _ _ _ _ _ Hb).
  unfold last_matchstart, last_byte, UNCONDITIONAL_MATCHLEN, UNCOMPRESSED_END in Hp.
  rewrite !Z.shiftr_div_pow2 by lia.
  destruct (_ && _) eqn:Hstop; [left; split; [done|lia]|]. right.
  destruct (next_cword_ok p done g q c Hb Hg31) as (c1 & Hn & Hb1 & Hs1 & Hdst1); [lia|].
  rewrite Hn. cbn [obind]. set (done' := done ++ _) in *.
  destruct (fetched p t done' [] p c c1 Hb1 Hs1 Ht He) as (c2 & Hf2 & Hc2); [lia|].
  rewrite (cb_src _ _ _ _ _ Hb1) in Hf2. rewrite (cb_src _ _ _ _ _ Hb1).
  rewrite fast_read_3 in * by lia. cbn [obind] in *. injection Hf2 as <-.
  exists done', [], p, (set_fetch (word_at s p) c1). split; [done|]. split; [done|]. split; [cbn; lia|].
  split; [|intros ts; by apply output_group].
  pose proof (cb_dst _ _ _ _ _ Hb1) as Hd1. change (msize (body [])) with 0 in Hd1.
  change (2 ^ 2) with 4 in Hstop. change (2 ^ 5) with 32 in Hstop.
  pose proof (Z.div_mod n 4 ltac:(lia)). pose proof (Z.mod_pos_bound n 4 ltac:(lia)).
  pose proof (Z.div_mod p 32 ltac:(lia)). pose proof (Z.mod_pos_bound p 32 ltac:(lia)).
  apply andb_false_iff in Hstop as [Hstop|Hstop]; apply Z.ltb_ge in Hstop; lia.
Qed.

Lemma main_loop_ok fuel p t done g q c :
  cstate p t done g q c -> msize done <= n -> p < n -> (Z.to_nat (n - p) < fuel)%nat ->
  exists go c', main_loop s fuel c = Ret (go, c') /\ msize (c_out c') = cap /\
    if go : bool then
      exists p' t' done' g' q', cbase p' done' g' q' c' /\ msize done' <= n /\
        last_matchstart s < p' /\ p' < n /\
        (forall ts, parse s p' t' ts ->
           exists ts0, parse s p t ts0 /\ output done g ts0 = output done' g' ts)
    else 42 <= n.
Proof.
  revert p t done g q c. induction fuel as [|fuel IH]; intros p t done g q c Hc Hd Hpn Hf; [lia|].
  cbn [main_loop]. rewrite (cb_src _ _ _ _ _ (cs_base _ _ _ _ _ _ Hc)).
  pose proof (cb_p _ _ _ _ _ (cs_base _ _ _ _ _ _ Hc)) as Hp0.
  destruct (Z.leb_spec p (last_matchstart s)) as [Hp|Hp].
  - destruct (begin_turn_ok p t done g q c Hc Hd Hp) as [[-> Hn]|(done1 & g1 & q1 & c1 & -> & Hc1 & Hg1 & Hd1 & Ho)].
    + exists false, c. split; [done|]. split; [|done]. apply (cb_cap _ _ _ _ _ (cs_base _ _ _ _ _ _ Hc)).
    + cbn [obind]. pose proof (dst_bound _ _ _ _ _ (cs_base _ _ _ _ _ _ Hc1)) as Hdb.
      destruct (encode_turn_ok p t done1 g1 q1 c1 Hc1) as (tok & p2 & c2 & -> & Hc2 & Hp2 & Hparse);
        [done|lia|done|]. cbn [obind].
      destruct (IH p2 _ done1 _ q1 c2 Hc2 Hd1) as (go & c3 & -> & Hcap3 & Hgo);
        [unfold last_byte in Hp2; lia|unfold last_byte in Hp2; lia|].
      exists go, c3. split; [done|]. split; [done|]. destruct go; [|done].
      destruct Hgo as (p' & t' & done' & g' & q' & Hb' & Hd' & Hp' & Hpn' & Hts).
      exists p', t', done', g', q'. split_and!; try done. intros ts Hpts.
      destruct (Hts ts Hpts) as (ts0 & Hp0' & Ho'). exists (tok :: ts0). split; [by apply Hparse|].
      rewrite Ho. unfold output in *. rewrite <-Ho', <-app_assoc. done.
  - exists true, c. split; [done|]. split; [apply (cb_cap _ _ _ _ _ (cs_base _ _ _ _ _ _ Hc))|].
    exists p, t, done, g, q. split_and!; [apply Hc|done|done|done|]. intros ts Hts. by exists ts.
Qed.

(** At most ten literals are left; they open at most one more group. *)
Lemma tail_room B p done g q c :
  cbase p done g q c -> last_matchstart s < p -> p < n -> B <= cap ->
  c_dst c + (n - p) + (if 31 <? Z.of_nat (length g) + (n - p) then 4 else 0) <= B ->
  exists done1 g1 q1 c1, (if cword_full c then next_cword c else Ret c) = Ret c1 /\
    cbase p done1 g1 q1 c1 /\ (length g1 < 31)%nat /\
    c_dst c1 + (n - p) + (if 31 <? Z.of_nat (length g1) + (n - p) then 4 else 0) <= B /\
    forall ts, output done g ts = output done1 g1 ts.
Proof.
  intros Hb Hp Hlt HB Hcap. pose proof (cb_g _ _ _ _ _ Hb) as Hg.
  unfold last_matchstart, last_byte, UNCONDITIONAL_MATCHLEN, UNCOMPRESSED_END in Hp.
  unfold cword_full. rewrite (cb_cword _ _ _ _ _ Hb), cword_val_full by done.
  destruct (Nat.eqb_spec (length g) 31) as [Hg31|Hg31].
  - destruct (Z.ltb_spec 31 (Z.of_nat (length g) + (n - p))); [|lia].
    destruct (next_cword_ok p done g q c Hb Hg31) as (c1 & Hn & Hb1 & _ & Hdst1); [lia|].
    eexists _, [], p, c1. split_and!; [done|exact Hb1|cbn; lia| |intros ts; by apply output_group].
    cbn [length]. destruct (Z.ltb_spec 31 (Z.of_nat 0 + (n - p))); lia.
  - exists done, g, q, c. split_and!; try done. lia.
Qed.

(** The entry the tail makes for a position. *)
Lemma tail_enter p done g q c :
  cbase p done g q c ->
  exists c1,
    (if c_src c <=? last_byte s - 3 then
       let! f := fast_read s (c_src c) 3 in
       Ret (mkComp (c_src c) (c_dst c) (c_cptr c) (c_cword c) (c_fetch c)
              (upd (hash_func f) f (c_cache c)) (upd (hash_func f) (c_src c) (c_off c))
              (upd (hash_func f) 1 (c_cnt c)) (c_out c))
     else Ret c) = Ret c1 /\ cbase p done g q c1 /\ c_dst c1 = c_dst c.
Proof.
  intros Hb. pose proof (cb_p _ _ _ _ _ Hb) as Hp. rewrite (cb_src _ _ _ _ _ Hb). unfold last_byte.
  destruct (Z.leb_spec p (n - 1 - 3)); [|by exists c].
  rewrite fast_read_3 by lia. cbn [obind]. eexists. split; [done|]. split; [|done].
  by apply cbase_same.
Qed.

Lemma tail_loop_ok fuel B p done g q c :
  cbase p done g q c -> last_matchstart s < p -> (Z.to_nat (n - p) < fuel)%nat ->
  B <= cap ->
  c_dst c + (n - p) + (if 31 <? Z.of_nat (length g) + (n - p) then 4 else 0) <= B ->
  exists done' g' q' c', tail_loop s fuel c = Ret c' /\ cbase n done' g' q' c' /\
    output done g (map Lit (drop (Z.to_nat p) s)) = output done' g' [] /\
    (g <> [] \/ p < n -> g' <> []) /\ c_dst c' <= B.
Proof.
  revert p done g q c. induction fuel as [|fuel IH]; intros p done g q c Hb Hp Hf HB Hcap; [lia|].
  pose proof (cb_p _ _ _ _ _ Hb) as Hp0. pose proof (cb_g _ _ _ _ _ Hb) as Hg.
  cbn [tail_loop]. rewrite (cb_src _ _ _ _ _ Hb).
  destruct (Z.leb_spec p (last_byte s)) as [Hlt|Hge].
  2: { assert (p = n) as -> by (unfold last_byte in Hge; lia). exists done, g, q, c. split_and!; try done.
       - rewrite drop_ge by (unfold msize; lia). by cbn.
       - intros [Hne|]; [done|lia].
       - destruct (31 <? _); lia. }
  assert (Hpn : p < n) by (unfold last_byte in Hlt; lia).
  destruct (tail_room B p done g q c Hb Hp Hpn HB Hcap) as (done1 & g1 & q1 & c1 & -> & Hb1 & Hg1 & Hcap1 & Ho).
  cbn [obind]. destruct (tail_enter p done1 g1 q1 c1 Hb1) as (c2 & -> & Hb2 & Hdst2). cbn [obind].
  destruct (put_literal_ok p done1 g1 q1 c2 Hb2 Hg1) as (c3 & -> & [Hb3 _] & Hdst3); [|done|].
  { destruct (31 <? _) in Hcap1; lia. }
  cbn [obind]. destruct (IH (p + 1) done1 _ q1 c3 Hb3) as (done' & g' & q' & c' & -> & Hb' & Ho' & Hne & Hdst').
  - lia.
  - lia.
  - done.
  - rewrite length_app. cbn [length].
    replace (Z.of_nat (length g1 + 1) + (n - (p + 1))) with (Z.of_nat (length g1) + (n - p)) by lia.
    destruct (31 <? _); lia.
  - exists done', g', q', c'. split_and!; try done.
    + rewrite Ho, (drop_S _ (byte_at s p) (Z.to_nat p)) by (apply byte_at_in; lia).
      rewrite <-Ho'. unfold output. cbn [map]. rewrite <-app_assoc. cbn [app].
      do 6 f_equal. lia.
    + intros _. apply Hne. left. by destruct g1.
Qed.

(** ** The whole *)

Lemma compress_core_ok dest cache off :
  msize dest = cap -> 0 < n ->
  exists r out, qlz_compress_core s dest cache off (fun _ => 0) = Ret (r, out) /\ msize out = cap /\
    ((r = 0 /\ 42 <= n) \/
     exists ts, parse s 0 (fun _ => None) ts /\ r = Z.max 9 (msize (stream 0 ts)) /\
       take (length (stream 0 ts)) out = stream 0 ts /\
       31 * msize (stream 0 ts) <= 35 * n + 124 /\ msize (stream 0 ts) <= n + 111).
Proof.
  intros Hcap Hn. unfold qlz_compress_core.
  assert (exists f, (if 0 <=? last_matchstart s then fast_read s 0 3 else Ret 0) = Ret f /\
            (0 <= last_matchstart s -> f mod 2 ^ 24 = word24 s 0)) as (f & -> & Hfetch).
  { destruct (Z.leb_spec 0 (last_matchstart s)) as [Hl|Hl]; [|exists 0; split; [done|lia]].
    unfold last_matchstart, last_byte, UNCONDITIONAL_MATCHLEN, UNCOMPRESSED_END in Hl.
    exists (word_at s 0). rewrite fast_read_3 by lia. split; [done|]. intros _. by apply word_at_word24. }
  cbn [obind]. set (c0 := mkComp _ _ _ _ _ _ _ _ _).
  assert (Hc0 : cstate 0 (fun _ => None) [] [] 0 c0).
  { constructor; [|done|done|done]. constructor; cbn; unfold msize in *; cbn; try done; try lia.
    exists (take 4 dest). rewrite app_nil_r. split; [rewrite length_take; lia|done]. }
  destruct (main_loop_ok (S (length s)) 0 (fun _ => None) [] [] 0 c0 Hc0) as (go & c1 & -> & Hcap1 & Hgo);
    [unfold msize; cbn; lia|done|unfold msize; lia|].
  cbn [obind]. destruct go; cbn [negb].
  2: { exists 0, (c_out c1). split_and!; [done|done|]. by left. }
  destruct Hgo as (p & t & done & g & q & Hb & Hd & Hp & Hpn & Hts).
  pose proof (cb_p _ _ _ _ _ Hb) as Hpr. pose proof (dst_bound _ _ _ _ _ Hb) as Hdb.
  pose proof (cb_g _ _ _ _ _ Hb) as Hg.
  assert (Hlast : last_matchstart s = n - 11).
  { unfold last_matchstart, last_byte, UNCONDITIONAL_MATCHLEN, UNCOMPRESSED_END. lia. }
  destruct (tail_loop_ok (S (length s)) (n + 111) p done g q c1 Hb Hp) as
    (done' & g' & q' & c' & -> & Hb' & Ho & Hne & Hdst'); [unfold msize; lia|done| |].
  { destruct (31 <? _); lia. }
  destruct (Hts _ (parse_literals s p t ltac:(lia))) as (ts & Hparse & Hout).
  rewrite Ho in Hout. unfold output in Hout. cbn [app] in Hout. rewrite app_nil_r in Hout.
  pose proof (cb_g _ _ _ _ _ Hb') as Hg'. assert (g' <> []) as Hg0 by (apply Hne; right; lia).
  rewrite (stream_last g') in Hout by done.
  cbn [obind]. rewrite (cb_cword _ _ _ _ _ Hb'), align_cword_val by lia. cbn [obind].
  destruct (patch_cword n done' g' q' c' (shift_in (1 + 2 * bits g')) Hb' ltac:(lia)) as (out & Hw & Hsz & Htk).
  rewrite fast_write_4, Hw. cbn [obind]. rewrite shift_in_last, <-Hout in Htk by done.
  pose proof (cb_dst _ _ _ _ _ Hb') as Hdst. pose proof (cb_done _ _ _ _ _ Hb').
  pose proof (cb_body _ _ _ _ _ Hb'). pose proof (cb_tokens _ _ _ _ _ Hb'). pose proof (cb_q _ _ _ _ _ Hb').
  assert (msize (stream 0 ts) = c_dst c') as HL.
  { rewrite Hout, !msize_app, Hdst. change (msize (bytes4 (bits g' + 2 ^ 31))) with 4. lia. }
  eexists _, out. split; [reflexivity|]. split; [done|]. right. exists ts.
  split_and!; [done| | |lia|lia].
  - rewrite HL. destruct (Z.ltb_spec (c_dst c') 9); lia.
  - rewrite <-Htk at 2. f_equal. unfold msize in HL. lia.
Qed.
End Compressor.
