(* ===== verification/QlzDecompress.v ===== *)
(** QuickLZ: [qlz_decompress_core] rebuilds the source from the stream of any parse of
    it, reading and writing only what the stream and the source occupy. *)
From Stdlib Require Import ZArith Lia Bool.
From stdpp Require Import base list numbers.
From S2P Require Import Prelude Qlz QlzTokens.

Section Decompressor.
Variable s : list Z.
Hypothesis s_bytes : Forall is_byte s.
Variable source : list Z.
Hypothesis source_size : 9 <= msize source.
Variable cap : Z.
Hypothesis cap_enough : msize s <= cap.

Abbreviation n := (msize s).

(** ** Reading the stream *)

(** The bytes [bs] are in the compressed data at [i]. *)
Definition holds (i : Z) (bs : list Z) : Prop :=
  0 <= i /\ i + msize bs <= msize source /\
  forall j, 0 <= j < msize bs -> byte_at source (i + j) = byte_at bs j.

Lemma holds_app i a b : holds i (a ++ b) -> holds i a /\ holds (i + msize a) b.
Proof.
  intros (Hi & Hle & Hb). assert (msize (a ++ b) = msize a + msize b) as Hab.
  { unfold msize. rewrite length_app. lia. }
  assert (0 <= msize a /\ 0 <= msize b) as [] by (unfold msize; lia).
  split; split_and!; try lia.
  - intros j Hj. rewrite Hb by lia. by apply byte_at_app_l.
  - intros j Hj. rewrite <-Z.add_assoc, Hb by lia. rewrite byte_at_app_r by lia. f_equal. lia.
Qed.

(** The bytes of a word that is stored again, as long as they are bytes. *)
Lemma byte_at_bytes4 m i j :
  0 <= j < 4 -> (forall k, 0 <= k <= j -> is_byte (byte_at m (i + k))) ->
  byte_at (bytes4 (word_at m i)) j = byte_at m (i + j).
Proof.
  intros Hj Hb. unfold word_at, le32, bytes4, u8.
  assert (H0 := Hb 0 ltac:(lia)). rewrite Z.add_0_r in H0. unfold is_byte in H0.
  set (a := byte_at m i) in *. set (b := byte_at m (i + 1)). set (c := byte_at m (i + 2)).
  set (d := byte_at m (i + 3)). rewrite !Z.shiftr_div_pow2 by lia.
  assert (j = 0 \/ j = 1 \/ j = 2 \/ j = 3) as [-> | [-> | [-> | ->]]] by lia;
    unfold byte_at; cbn [Z.to_nat Pos.to_nat Pos.iter_op nth Nat.add].
  - fold (byte_at m (i + 0)). rewrite Z.add_0_r. fold a. symmetry.
    apply (Z.mod_unique_pos _ _ (b + c * 2 ^ 8 + d * 2 ^ 16)); lia.
  - assert (H1 := Hb 1 ltac:(lia)). unfold is_byte in H1. fold b in H1.
    fold (byte_at m (i + 1)). fold b. symmetry.
    replace ((a + b * 2 ^ 8 + c * 2 ^ 16 + d * 2 ^ 24) / 2 ^ 8) with (b + c * 2 ^ 8 + d * 2 ^ 16)
      by (apply Z.div_unique_pos with a; lia).
    apply (Z.mod_unique_pos _ _ (c + d * 2 ^ 8)); lia.
  - assert (H1 := Hb 1 ltac:(lia)). assert (H2 := Hb 2 ltac:(lia)). unfold is_byte in H1, H2.
    fold b in H1. fold c in H2. fold (byte_at m (i + 2)). fold c. symmetry.
    replace ((a + b * 2 ^ 8 + c * 2 ^ 16 + d * 2 ^ 24) / 2 ^ 16) with (c + d * 2 ^ 8)
      by (apply Z.div_unique_pos with (a + b * 2 ^ 8); lia).
    apply (Z.mod_unique_pos _ _ d); lia.
  - assert (H1 := Hb 1 ltac:(lia)). assert (H2 := Hb 2 ltac:(lia)). assert (H3 := Hb 3 ltac:(lia)).
    unfold is_byte in H1, H2, H3. fold b in H1. fold c in H2. fold d in H3.
    fold (byte_at m (i + 3)). fold d. symmetry.
    replace ((a + b * 2 ^ 8 + c * 2 ^ 16 + d * 2 ^ 24) / 2 ^ 24) with d
      by (apply Z.div_unique_pos with (a + b * 2 ^ 8 + c * 2 ^ 16); lia).
    apply (Z.mod_unique_pos _ _ 0); lia.
Qed.

Lemma holds_word i w : is_u32 w -> holds i (bytes4 w) -> rd32 source i = Ret w.
Proof.
  intros Hw (Hi & Hle & Hb). change (msize (bytes4 w)) with 4 in *. rewrite rd32_ret by lia.
  unfold word_at. rewrite <-(Z.add_0_r i) at 1. rewrite !Hb by lia.
  f_equal. exact (bytes4_le32 w Hw).
Qed.

(** ** What a match looks like *)

(** The low 16 bits of a word in memory, and its low 24 bits. *)
Lemma holds_low2 i f : holds i (take 2 (bytes4 f)) -> i + 4 <= msize source -> 0 <= f < 2 ^ 16 ->
  exists x, word_at source i = f + x * 2 ^ 16.
Proof.
  intros (Hi & Hle & Hb) Hs Hf. change (msize (take 2 (bytes4 f))) with 2 in *.
  exists (byte_at source (i + 2) + byte_at source (i + 3) * 2 ^ 8).
  unfold word_at, le32. rewrite <-(Z.add_0_r i) at 1. rewrite !Hb by lia.
  change (byte_at (take 2 (bytes4 f)) 0) with (f mod 2 ^ 8).
  change (byte_at (take 2 (bytes4 f)) 1) with (Z.shiftr f 8 mod 2 ^ 8).
  rewrite Z.shiftr_div_pow2 by lia. rewrite (Z.mod_small (f / 2 ^ 8)).
  - pose proof (Z.div_mod f (2 ^ 8) ltac:(lia)). lia.
  - split; [apply Z.div_pos; lia|apply Z.div_lt_upper_bound; lia].
Qed.

Lemma holds_low3 i f : holds i (take 3 (bytes4 f)) -> i + 4 <= msize source -> 0 <= f < 2 ^ 24 ->
  (exists x, word_at source i = f + x * 2 ^ 24) /\ byte_at source (i + 2) = f / 2 ^ 16.
Proof.
  intros (Hi & Hle & Hb) Hs Hf. change (msize (take 3 (bytes4 f))) with 3 in *.
  assert (H2 := Hb 2 ltac:(lia)).
  change (byte_at (take 3 (bytes4 f)) 2) with (Z.shiftr f 16 mod 2 ^ 8) in H2.
  rewrite Z.shiftr_div_pow2 in H2 by lia.
  assert (0 <= f / 2 ^ 16 < 2 ^ 8) as Hd.
  { split; [apply Z.div_pos; lia|apply Z.div_lt_upper_bound; lia]. }
  rewrite Z.mod_small in H2 by done. split; [|done].
  exists (byte_at source (i + 3)).
  unfold word_at, le32. rewrite H2. rewrite <-(Z.add_0_r i) at 1. rewrite !Hb by lia.
  change (byte_at (take 3 (bytes4 f)) 0) with (f mod 2 ^ 8).
  change (byte_at (take 3 (bytes4 f)) 1) with (Z.shiftr f 8 mod 2 ^ 8).
  rewrite Z.shiftr_div_pow2 by lia.
  replace (f / 2 ^ 16) with (f / 2 ^ 8 / 2 ^ 8) by (by rewrite Z.div_div by lia).
  pose proof (Z.div_mod f (2 ^ 8) ltac:(lia)). pose proof (Z.div_mod (f / 2 ^ 8) (2 ^ 8) ltac:(lia)). lia.
Qed.

Lemma land_15 z : Z.land z 0xf = z mod 16.
Proof. change 0xf with (Z.ones 4). by rewrite Z.land_ones by lia. Qed.
Lemma land_4095 z : Z.land z 0xfff = z mod 4096.
Proof. change 0xfff with (Z.ones 12). by rewrite Z.land_ones by lia. Qed.

(** The fields a match is decoded to: hash, length and number of bytes. *)
Lemma match_fields i h len :
  0 <= h < 4096 -> 3 <= len <= 255 -> holds i (bytes_of (Match h len)) -> i + 4 <= msize source ->
  Z.land (Z.shiftr (word_at source i) 4) 0xfff = h /\
  (if negb (Z.land (word_at source i) 0xf =? 0) then Ret (Z.land (word_at source i) 0xf + 2, 2)
   else let! b := rd8 source (i + 2) in Ret (b, 3)) = Ret (len, msize (bytes_of (Match h len))).
Proof.
  intros Hh Hl Hb Hs. pose proof Hb as (Hi & _ & _). rewrite land_4095, land_15.
  rewrite Z.shiftr_div_pow2 by lia. change (2 ^ 4) with 16. cbn [bytes_of] in *.
  rewrite !(Z.shiftl_mul_pow2 h) in * by lia. change (2 ^ 4) with 16 in *.
  destruct (Z.ltb_spec len 18) as [H18|H18].
  - assert (Z.lor (len - 2) (h * 16) = len - 2 + h * 16) as Hor.
    { rewrite Z.lor_comm, (Z.add_comm (len - 2)). change (h * 16) with (h * 2 ^ 4).
      rewrite <-(Z.shiftl_mul_pow2 h 4) by lia.
      apply lor_add. apply Z.bits_inj'. intros j Hj. rewrite Z.land_spec, Z.bits_0, Z.shiftl_spec by done.
      destruct (Z.ltb_spec j 4); [by rewrite Z.testbit_neg_r by lia|].
      rewrite <-(Z.mod_small (len - 2) (2 ^ 4)) by lia.
      by rewrite Z.mod_pow2_bits_high, andb_false_r by lia. }
    rewrite Hor in *. destruct (holds_low2 i _ Hb Hs) as [x ->]; [lia|].
    replace ((len - 2 + h * 16 + x * 2 ^ 16) / 16) with (h + x * 4096)
      by (apply Z.div_unique_pos with (len - 2); lia).
    replace ((len - 2 + h * 16 + x * 2 ^ 16) mod 16) with (len - 2)
      by (apply (Z.mod_unique_pos _ _ (h + x * 4096)); lia).
    split; [symmetry; apply (Z.mod_unique_pos _ _ x); lia|].
    destruct (Z.eqb_spec (len - 2) 0); [lia|]. cbn. do 2 f_equal. lia.
  - assert (Z.lor (Z.shiftl len 16) (h * 16) = len * 2 ^ 16 + h * 16) as Hor.
    { rewrite <-Z.shiftl_mul_pow2 by lia. apply lor_add. apply Z.bits_inj'. intros j Hj.
      rewrite Z.land_spec, Z.bits_0, Z.shiftl_spec by done.
      destruct (Z.ltb_spec j 16); [by rewrite Z.testbit_neg_r by lia|].
      rewrite <-(Z.mod_small (h * 16) (2 ^ 16)) by lia.
      by rewrite Z.mod_pow2_bits_high, andb_false_r by lia. }
    rewrite Hor in *. destruct (holds_low3 i _ Hb Hs) as [[x ->] H2]; [lia|].
    replace ((len * 2 ^ 16 + h * 16 + x * 2 ^ 24) / 16) with (h + (len + x * 256) * 4096)
      by (apply Z.div_unique_pos with 0; lia).
    replace ((len * 2 ^ 16 + h * 16 + x * 2 ^ 24) mod 16) with 0
      by (apply (Z.mod_unique_pos _ _ (h + (len + x * 256) * 4096)); lia).
    split; [symmetry; apply (Z.mod_unique_pos _ _ (len + x * 256)); lia|].
    cbn [Z.eqb negb]. rewrite rd8_ret by lia. rewrite H2. cbn [obind]. do 2 f_equal.
    symmetry. apply Z.div_unique_pos with (h * 16); lia.
Qed.

(** ** The destination *)

(** The first [p] bytes are those of the source. *)
Definition agrees (out : list Z) (p : Z) : Prop :=
  msize out = cap /\ forall i, 0 <= i < p -> byte_at out i = byte_at s i.

Lemma agrees_le out p p' : agrees out p -> p' <= p -> agrees out p'.
Proof. intros [Hc Ha] Hle. split; [done|]. intros i Hi. apply Ha. lia. Qed.

Lemma s_byte i : is_byte (byte_at s i).
Proof. by apply byte_at_bound. Qed.

(** Storing a word of which the first [k] bytes come next in the source. *)
Lemma agrees_store out p p' i w k :
  agrees out p -> 0 <= p <= i -> i + 4 <= cap ->
  (forall j, 0 <= j < k -> byte_at (bytes4 w) j = byte_at s (i + j)) -> 0 <= k <= 4 ->
  (forall j, p <= j < i -> byte_at out j = byte_at s j) -> p' <= i + k ->
  exists out', wr out i (bytes4 w) = Ret out' /\ agrees out' p'.
Proof.
  intros [Hc Ha] Hp Hi Hw Hk Hgap Hp'. assert (msize (bytes4 w) = 4) as H4 by done.
  rewrite wr_ret by lia. eexists. split; [done|]. split; [rewrite msize_mem_write; lia|].
  intros j Hj. rewrite byte_at_mem_write by lia. rewrite H4.
  destruct (Z.leb_spec i j); cbn [andb].
  - destruct (Z.ltb_spec j (i + 4)); [|lia]. rewrite Hw by lia. f_equal. lia.
  - destruct (Z.ltb_spec j p); [apply Ha; lia|apply Hgap; lia].
Qed.

(** Copying a match that starts at least three bytes back: every three bytes copied are
    final before they are read again. *)
Lemma memcpy_up_ok fuel out p o len f :
  agrees out (p + f) -> 0 <= o -> o + 2 < p -> 0 <= f < len -> p + len + 3 <= cap ->
  (forall i, 0 <= i < len -> byte_at s (o + i) = byte_at s (p + i)) ->
  (Z.to_nat (len - f) < fuel)%nat ->
  exists out', memcpy_up fuel out p o f len = Ret out' /\ agrees out' (p + len).
Proof.
  revert out f. induction fuel as [|fuel IH]; intros out f Ha Ho Hop Hf Hcap Hr Hfuel; [lia|].
  cbn [memcpy_up]. pose proof Ha as [Hc Hab]. rewrite rd32_ret by lia. cbn [obind].
  destruct (agrees_store out (p + f) (p + Z.min (f + 3) len) (p + f) (word_at out (o + f)) (Z.min 3 (len - f)))
    as (out' & -> & Ha'); try done; try lia.
  - intros j Hj. rewrite byte_at_bytes4.
    + rewrite Hab by lia. rewrite <-!Z.add_assoc. apply Hr. lia.
    + lia.
    + intros k Hk. rewrite Hab by lia. apply s_byte.
  - cbn [obind]. unfold MINOFFSET. change (2 + 1) with 3.
    destruct (Z.ltb_spec (f + 3) len).
    + apply IH; try done; try lia. by replace (p + (f + 3)) with (p + Z.min (f + 3) len) by lia.
    + exists out'. split; [done|]. by replace (p + len) with (p + Z.min (f + 3) len) by lia.
Qed.

(** ** The hash table *)

(** The table holds what the compressor entered, up to [lh]; later positions have all
    been entered by the compressor. *)
Record dtable (p : Z) (t : history) (lh : Z) (off : Z -> Z) : Prop := {
  dt_lh : -1 <= lh < p;
  dt_off : forall h o, t h = Some o -> o <= lh -> off h = o;
  dt_new : forall i, lh < i < p -> exists o, t (key s i) = Some o /\ i <= o;
  dt_entered : forall h o, t h = Some o -> 0 <= o < p /\ key s o = h
}.

Lemma dtable_enter p t lh off : 0 <= p -> dtable p t lh off -> dtable (p + 1) (enter (key s p) p t) lh off.
Proof.
  intros Hp [Hlh Hoff Hnew He]. unfold enter. constructor.
  - lia.
  - intros h o. destruct (h =? key s p); [intros [= <-]; lia|apply Hoff].
  - intros i Hi. destruct (Z.eqb_spec (key s i) (key s p)) as [|Hne]; [exists p; split; [done|lia]|].
    apply Hnew. destruct (Z.eq_dec i p) as [->|]; [done|lia].
  - intros h o. destruct (Z.eqb_spec h (key s p)) as [->|]; [intros [= <-]; split; [lia|done]|].
    intros Ho. destruct (He h o Ho). split; [lia|done].
Qed.

Lemma dtable_hash p t lh off :
  dtable p t lh off -> lh + 1 < p -> dtable p t (lh + 1) (upd (key s (lh + 1)) (lh + 1) off).
Proof.
  intros [Hlh Hoff Hnew He] Hlt. unfold upd. constructor.
  - lia.
  - intros h o Ho Hle. destruct (Z.eqb_spec h (key s (lh + 1))) as [->|Hne].
    + destruct (Hnew (lh + 1)) as (o' & Ho' & Hge); [lia|]. rewrite Ho' in Ho. injection Ho as ->. lia.
    + destruct (Z.eq_dec o (lh + 1)) as [->|]; [by destruct (He h (lh + 1) Ho) as [_ <-]|].
      apply Hoff; [done|lia].
  - intros i Hi. apply Hnew. lia.
  - done.
Qed.

(** After a match everything behind the position counts as hashed. *)
Lemma dtable_skip p t lh off p' : dtable p t lh off -> lh = p - 1 -> p <= p' -> dtable p' t (p' - 1) off.
Proof.
  intros [Hlh Hoff Hnew He] -> Hle. constructor.
  - lia.
  - intros h o Ho _. apply Hoff; [done|]. destruct (He h o Ho). lia.
  - lia.
  - intros h o Ho. destruct (He h o Ho). split; [lia|done].
Qed.

(** What hashing leaves alone. *)
Definition same_io (d d' : decomp) : Prop :=
  d_src d' = d_src d /\ d_dst d' = d_dst d /\ d_cword d' = d_cword d /\ d_out d' = d_out d.

Lemma hash_loop_ok k p t q d :
  dtable p t (d_hashed d) (d_off d) -> agrees (d_out d) q ->
  (k = 0%nat \/ d_hashed d + Z.of_nat k < p /\ d_hashed d + Z.of_nat k + 2 < q /\
    d_hashed d + Z.of_nat k + 4 <= cap) ->
  exists d', hash_loop k d = Ret d' /\ same_io d d' /\ d_hashed d' = d_hashed d + Z.of_nat k /\
    dtable p t (d_hashed d') (d_off d').
Proof.
  revert d. induction k as [|k IH]; intros d Hd Ha Hk; cbn [hash_loop].
  - exists d. split_and!; try done. lia.
  - destruct Hk as [|(Hp & Hq & Hc)]; [done|]. pose proof Ha as [Hcap Hab].
    pose proof (dt_lh _ _ _ _ Hd). unfold update_hash, fast_read. cbn [Z.leb andb Z.compare Pos.compare Pos.compare_cont].
    cbn [set_hashed d_hashed d_out]. rewrite rd32_ret by lia. cbn [obind].
    assert (hash_func (word_at (d_out d) (d_hashed d + 1)) = key s (d_hashed d + 1)) as ->.
    { unfold key. apply hash_func_low. rewrite word24_small by done.
      rewrite <-(word_at_word24 s) by done. unfold word_at, le32.
      rewrite !Z_mod_plus_full, !Hab by lia. done. }
    set (d1 := mkDecomp _ _ _ _ _ _ _).
    destruct (IH d1) as (d' & -> & (H1 & H2 & H3 & H4) & Hh & Hd').
    + apply (dtable_hash p t); [done|lia].
    + done.
    + cbn. lia.
    + exists d'. split_and!; try done. cbn in Hh. lia.
Qed.

Lemma update_hash_upto_ok max p t q d :
  dtable p t (d_hashed d) (d_off d) -> agrees (d_out d) q ->
  max < p -> max + 2 < q -> max + 4 <= cap ->
  exists d', update_hash_upto max d = Ret d' /\ same_io d d' /\
    d_hashed d' = Z.max max (d_hashed d) /\ dtable p t (d_hashed d') (d_off d').
Proof.
  intros Hd Ha Hp Hq Hc. unfold update_hash_upto.
  destruct (hash_loop_ok (Z.to_nat (max - d_hashed d)) p t q d Hd Ha) as (d' & -> & Hs & Hh & Hd').
  - destruct (Z.le_gt_cases max (d_hashed d)); [left; lia|right; lia].
  - exists d'. split_and!; try done. lia.
Qed.

(** ** Turns of the loop *)

(** The decompressor at position [p] of the destination, with the tokens [ts] to come and
    [m] of them left in the current control word. *)
Record dstate (p : Z) (t : history) (ts : list token) (m : nat) (d : decomp) : Prop := {
  ds_parse : parse s p t ts;
  ds_src : holds (d_src d) (stream m ts);
  ds_dst : d_dst d = p;
  ds_m : (m <= 31)%nat;
  ds_cword : d_cword d = cword m ts;
  ds_out : agrees (d_out d) p;
  ds_table : dtable p t (d_hashed d) (d_off d)
}.

Lemma cword_0 ts : cword 0 ts = 1.
Proof. done. Qed.

Lemma cword_pos m ts : (1 <= m)%nat -> 2 <= cword m ts.
Proof.
  intros Hm. unfold cword. pose proof (bits_range (take m ts)).
  assert (2 ^ 1 <= 2 ^ Z.of_nat m) by (apply Z.pow_le_mono_r; lia). lia.
Qed.

Lemma stream_0 ts : ts <> [] -> stream 0 ts = bytes4 (cword 31 ts) ++ stream 31 ts.
Proof. by destruct ts. Qed.

Lemma load_cword_ok p t ts m d :
  dstate p t ts m d -> ts <> [] ->
  exists m' d', load_cword source d = Ret d' /\ dstate p t ts (S m') d' /\
    d_src d' = d_src d + (if (m =? 0)%nat then 4 else 0) /\ d_hashed d' = d_hashed d.
Proof.
  intros [Hp Hs Hd Hm Hc Ho Ht] Hne. unfold load_cword. rewrite Hc. destruct m as [|m].
  - rewrite cword_0. cbn [Z.eqb Pos.eqb]. rewrite stream_0 in Hs by done.
    apply holds_app in Hs as [Hw Hs]. change (msize (bytes4 (cword 31 ts))) with 4 in Hs.
    unfold fast_read. cbn [Z.leb andb Z.compare Pos.compare Pos.compare_cont CWORD_LEN].
    rewrite (holds_word _ (cword 31 ts)); [|pose proof (cword_range 31 ts); unfold is_u32; lia|done].
    cbn [obind]. eexists 30%nat, _. split; [done|]. split; [by constructor|split; done].
  - pose proof (cword_pos (S m) ts ltac:(lia)). destruct (Z.eqb_spec (cword (S m) ts) 1); [lia|].
    exists m, d. split; [done|]. split; [by constructor|]. split; [|done]. cbn. lia.
Qed.

Lemma copy_match_ok p t h len ts m d :
  dstate p t (Match h len :: ts) (S m) d -> p - 3 <= d_hashed d ->
  exists d', copy_match source (word_at source (d_src d)) d = Ret d' /\
    dstate (p + len) (enter (key s p) p t) ts m d' /\ d_src d < d_src d' /\ p + len + 4 <= n /\ p + len - 3 <= d_hashed d'.
Proof.
  intros [Hp Hs Hd Hm Hc Ho Ht] Hl. pose proof (stream_long s p t _ (S m) Hp) as Hlong.
  inversion Hp as [| |p0 t0 o len0 ts0 Hto Ho0 Hop Hlen Hps Hend Hrep Hp']; subst p0 t0 len0 ts0 h.
  unfold last_matchstart, last_byte, UNCONDITIONAL_MATCHLEN, UNCOMPRESSED_END, MINOFFSET in *.
  pose proof Hs as (Hs0 & Hs1 & _). assert (Hroom : d_src d + 4 <= msize source) by (unfold msize in *; lia).
  cbn [stream] in Hs. apply holds_app in Hs as [Hb Hs].
  destruct (match_fields (d_src d) (key s p) len) as [Hh Hf]; [apply hash_func_range|done|done|done|].
  unfold copy_match. rewrite Hh, Hf. cbn [obind].
  assert (d_off d (key s p) = o) as ->.
  { apply (dt_off _ _ _ _ Ht); [done|lia]. }
  rewrite Hd. destruct (memcpy_up_ok (S (Z.to_nat len)) (d_out d) p o len 0) as (out & -> & Ha);
    try done; try lia; [by rewrite Z.add_0_r|]. cbn [obind].
  set (d1 := mkDecomp _ _ _ _ _ _ _). cbn [d_dst].
  pose proof (dtable_enter p t _ _ ltac:(lia) Ht) as Ht1.
  destruct (update_hash_upto_ok p (p + 1) (enter (key s p) p t) (p + len) d1) as
    (d2 & -> & (E1 & E2 & E3 & E4) & Hh2 & Ht2); try done; try lia.
  cbn [obind]. eexists. split; [reflexivity|].
  assert (Hhp : d_hashed d2 = p).
  { rewrite Hh2. cbn. pose proof (dt_lh _ _ _ _ Ht). lia. }
  split; [|split; [cbn [set_hashed d_src]; rewrite E1; cbn [d_src d1]; pose proof (bytes_of_length (Match (key s p) len)); unfold msize; lia|split; [lia|]]].
  2: { cbn [set_hashed d_hashed]. rewrite E2. cbn [d_dst d1]. lia. }
  constructor; cbn [set_hashed d_src d_dst d_cword d_out d_off d_hashed].
  - done.
  - rewrite E1. exact Hs.
  - by rewrite E2.
  - lia.
  - rewrite E3. cbn [d_cword d1]. rewrite Hc, cword_S. cbn [bit].
    rewrite Z.shiftr_div_pow2 by lia. symmetry. apply Z.div_unique_pos with 1; lia.
  - by rewrite E4.
  - rewrite E2. cbn [d_dst d1]. rewrite Hhp in Ht2. apply (dtable_skip (p + 1) _ p); [done|lia|lia].
Qed.

(** A literal comes next when the control word is even. *)
Lemma literal_next p t ts m :
  parse s p t ts -> p < n -> cword m ts mod 2 = 0 ->
  exists m' ts', m = S m' /\ ts = Lit (byte_at s p) :: ts' /\
    parse s (p + 1) (enter (key s p) p t) ts' /\ cword m ts = 2 * cword m' ts'.
Proof.
  intros Hp Hlt Hc. destruct m as [|m]; [by rewrite cword_0 in Hc|].
  inversion Hp as [t0|p0 t0 ts' Hr Hp'|p0 t0 o len ts' Hto Ho0 Hop Hlen Hps Hend Hrep Hp']; subst.
  - lia.
  - exists m, ts'. split_and!; try done. rewrite cword_S. cbn [bit]. lia.
  - exfalso. rewrite cword_S in Hc. cbn [bit] in Hc.
    rewrite Z.add_mod, (Z.mul_comm 2), Z_mod_mult in Hc by lia. done.
Qed.

(** A run of [c] literals. *)
Lemma literal_run c p t ts m :
  parse s p t ts -> p + Z.of_nat c <= n -> cword m ts mod 2 ^ Z.of_nat c = 0 ->
  exists m' ts' t' bs, m = (c + m')%nat /\ stream m ts = bs ++ stream m' ts' /\
    msize bs = Z.of_nat c /\ (forall j, 0 <= j < Z.of_nat c -> byte_at bs j = byte_at s (p + j)) /\
    parse s (p + Z.of_nat c) t' ts' /\ cword m ts = 2 ^ Z.of_nat c * cword m' ts' /\
    (forall lh off, dtable p t lh off -> dtable (p + Z.of_nat c) t' lh off).
Proof.
  revert p t ts m. induction c as [|c IH]; intros p t ts m Hp Hle Hc.
  - exists m, ts, t, []. change (2 ^ Z.of_nat 0) with 1. replace (p + Z.of_nat 0) with p by lia.
    split_and!; try done; try lia.
  - pose proof (parse_range s p t ts Hp) as Hpr.
    rewrite Nat2Z.inj_succ, Z.pow_succ_r in Hc |- * by lia.
    assert (0 < 2 ^ Z.of_nat c) by (apply Z.pow_pos_nonneg; lia).
    destruct (literal_next p t ts m Hp) as (m1 & ts1 & -> & -> & Hp1 & Hc1); [lia| |].
    { apply Z.mod_divide in Hc as [k Hk]; [|lia]. rewrite Hk.
      replace (k * (2 * 2 ^ Z.of_nat c)) with (k * 2 ^ Z.of_nat c * 2) by lia. apply Z_mod_mult. }
    destruct (IH (p + 1) _ ts1 m1 Hp1) as (m' & ts' & t' & bs & -> & Hst & Hbs & Hj & Hp' & Hc' & Ht').
    + lia.
    + rewrite Hc1, Z.mul_mod_distr_l in Hc by lia. lia.
    + exists m', ts', t', (byte_at s p :: bs). cbn [stream bytes_of app].
      replace (p + Z.succ (Z.of_nat c)) with (p + 1 + Z.of_nat c) by lia.
      split_and!; try done.
      * by rewrite Hst.
      * unfold msize in *. cbn [length]. lia.
      * intros j Hjr. destruct (Z.eq_dec j 0) as [->|Hj0]; [by rewrite Z.add_0_r|].
        replace (p + j) with (p + 1 + (j - 1)) by lia.
        rewrite <-(Hj (j - 1)) by lia. unfold byte_at. by replace (Z.to_nat j) with (S (Z.to_nat (j - 1))) by lia.
      * rewrite Hc1, Hc'. lia.
      * intros lh off Hd. apply Ht'. apply dtable_enter; [lia|done].
Qed.

(** The table of trailing zeros. *)
Lemma bitlut_spec w :
  w mod 2 = 0 ->
  exists c : nat, bitlut (Z.land w 0xf) = Z.of_nat c /\ (1 <= c <= 4)%nat /\ w mod 2 ^ Z.of_nat c = 0.
Proof.
  intros Hw. rewrite land_15. pose proof (Z.mod_pos_bound w 16 ltac:(lia)) as Hr.
  assert (Hpow : forall c, (c <= 4)%nat -> w mod 2 ^ Z.of_nat c = (w mod 16) mod 2 ^ Z.of_nat c).
  { intros c Hc. symmetry. apply Z.mod_mod_divide. exists (2 ^ (4 - Z.of_nat c)).
    rewrite <-Z.pow_add_r by lia. change 16 with (2 ^ 4). f_equal. lia. }
  assert (He : (w mod 16) mod 2 = 0) by (pose proof (Hpow 1%nat ltac:(lia)) as H1; change (2 ^ Z.of_nat 1) with 2 in H1; lia).
  set (r := w mod 16) in *. clearbody r.
  assert (r = 0 \/ r = 2 \/ r = 4 \/ r = 6 \/ r = 8 \/ r = 10 \/ r = 12 \/ r = 14) as Hcases.
  { pose proof (Z.div_mod r 2 ltac:(lia)). lia. }
  destruct Hcases as [-> | [-> | [-> | [-> | [-> | [-> | [-> | ->]]]]]]];
    [exists 4%nat|exists 1%nat|exists 2%nat|exists 1%nat|exists 3%nat|exists 1%nat|exists 2%nat|exists 1%nat];
    (split; [done|]); (split; [lia|]); rewrite Hpow by lia; done.
Qed.

Lemma copy_literals_ok p t ts m d :
  dstate p t ts m d -> p < last_matchstart s -> cword m ts mod 2 = 0 ->
  exists p' t' ts' m' d', copy_literals source d = Ret d' /\ dstate p' t' ts' m' d' /\
    d_src d < d_src d' /\ p < p' /\ p' + 4 <= n /\ p' - 3 <= d_hashed d'.
Proof.
  intros [Hp Hs Hd Hm Hc Ho Ht] Hlast He. pose proof (stream_long s p t ts m Hp) as Hlong.
  unfold last_matchstart, last_byte, UNCONDITIONAL_MATCHLEN, UNCOMPRESSED_END in Hlast.
  pose proof (parse_range s p t ts Hp) as Hpr. pose proof Hs as (Hs0 & Hs1 & _).
  assert (Hroom : d_src d + 4 <= msize source) by (unfold msize in *; lia).
  destruct (bitlut_spec (cword m ts) He) as (c & Hc1 & Hc2 & Hc3).
  destruct (literal_run c p t ts m Hp ltac:(lia) Hc3) as (m' & ts' & t' & bs & -> & Hst & Hbs & Hj & Hp' & Hc' & Ht').
  rewrite Hst in Hs. apply holds_app in Hs as [Hb Hs]. destruct Hb as (_ & _ & Hb).
  unfold copy_literals. rewrite rd32_ret by lia. cbn [obind]. rewrite Hd.
  assert (Hin : forall j, 0 <= j < Z.of_nat c -> byte_at source (d_src d + j) = byte_at s (p + j)).
  { intros j Hjr. rewrite Hb by lia. by apply Hj. }
  destruct (agrees_store (d_out d) p (p + Z.of_nat c) p (word_at source (d_src d)) (Z.of_nat c))
    as (out & -> & Ha); try done; try lia.
  { intros j Hjr. rewrite byte_at_bytes4 by (try lia; intros k Hk; rewrite Hin by lia; apply s_byte).
    by apply Hin. }
  cbn [obind]. rewrite Hc, Hc1. set (d1 := mkDecomp _ _ _ _ _ _ _).
  pose proof (Ht' _ _ Ht) as Ht1.
  destruct (update_hash_upto_ok (p + Z.of_nat c - 3) (p + Z.of_nat c) t' (p + Z.of_nat c) d1) as
    (d2 & -> & (E1 & E2 & E3 & E4) & Hh2 & Ht2); try done; try lia.
  exists (p + Z.of_nat c), t', ts', m', d2. split; [done|].
  split; [|split; [rewrite E1; cbn [d_src d1]; lia|split_and!; lia]]. constructor; try done.
  - rewrite E1. cbn [d_src d1]. by rewrite <-Hbs.
  - lia.
  - rewrite E3. cbn [d_cword d1]. rewrite Hc', Z.shiftr_div_pow2 by lia.
    symmetry. apply Z.div_unique_pos with 0; [|lia]. split; [lia|]. apply Z.pow_pos_nonneg; lia.
  - by rewrite E4.
Qed.

(** *** The last bytes *)

Lemma cword_literals m l : cword m (map Lit l) = 2 ^ Z.of_nat m.
Proof.
  unfold cword. enough (forall k, bits (take k (map Lit l)) = 0) as -> by lia.
  induction l as [|b l IH]; intros [|k]; [done|done|done|]. cbn [map take bits bit]. rewrite IH. lia.
Qed.

Lemma copy_rest_ok fuel p t m d :
  dstate p t (map Lit (drop (Z.to_nat p) s)) m d -> 0 <= p <= n -> (Z.to_nat (n - p) < fuel)%nat ->
  exists d' t', copy_rest source fuel (n - 1) d = Ret d' /\ agrees (d_out d') n /\
    dtable n t' (d_hashed d') (d_off d').
Proof.
  revert p t m d. induction fuel as [|fuel IH]; intros p t m d [Hp Hs Hd Hm Hc Ho Ht] Hpr Hf; [lia|].
  cbn [copy_rest]. rewrite Hd. destruct (Z.leb_spec p (n - 1)) as [Hlt|Hge].
  2: { assert (p = n) as -> by lia. by exists d, t. }
  rewrite (drop_S _ (byte_at s p) (Z.to_nat p)) in Hs, Hp, Hc by (apply byte_at_in; lia).
  replace (S (Z.to_nat p)) with (Z.to_nat (p + 1)) in * by lia.
  set (l := drop (Z.to_nat (p + 1)) s) in *.
  assert (exists m' src cw, (if d_cword d =? 1 then (d_src d + CWORD_LEN, 2 ^ 31) else (d_src d, d_cword d)) = (src, cw)
            /\ (m' <= 30)%nat /\ cw = 2 ^ Z.of_nat (S m') /\ holds src (byte_at s p :: stream m' (map Lit l)))
    as (m' & src & cw & -> & Hm' & -> & Hs').
  { rewrite Hc, cword_literals. destruct m as [|m].
    - cbn [map stream] in Hs. apply holds_app in Hs as [_ Hs]. change (2 ^ Z.of_nat 0 =? 1) with true.
      exists 30%nat. eexists _, _. split; [done|]. by split_and!.
    - assert (2 ^ 1 <= 2 ^ Z.of_nat (S m)) by (apply Z.pow_le_mono_r; lia).
      destruct (Z.eqb_spec (2 ^ Z.of_nat (S m)) 1); [lia|].
      exists m. eexists _, _. split; [done|]. split_and!; try done. lia. }
  pose proof (holds_app src [byte_at s p] (stream m' (map Lit l)) Hs') as [(Hs0 & Hs1 & Hb) Hs2].
  change (msize [byte_at s p]) with 1 in *. rewrite rd8_ret by lia. cbn [obind].
  pose proof (Hb 0 ltac:(lia)) as Hb0. rewrite Z.add_0_r in Hb0.
  change (byte_at [byte_at s p] 0) with (byte_at s p) in Hb0. rewrite Hb0.
  destruct Ho as [Hcap Hab]. rewrite wr_ret by (change (msize [byte_at s p]) with 1; lia). cbn [obind].
  apply (IH (p + 1) (enter (key s p) p t) m'); [|lia|lia].
  constructor; cbn [d_src d_dst d_cword d_out d_off d_hashed]; try done.
  - apply parse_literals. lia.
  - lia.
  - fold l. rewrite cword_literals, Nat2Z.inj_succ, Z.pow_succ_r, Z.shiftr_div_pow2 by lia.
    symmetry. apply Z.div_unique_pos with 0; lia.
  - split; [rewrite msize_mem_write; change (msize [byte_at s p]) with 1; lia|].
    intros j Hj. rewrite byte_at_mem_write by (change (msize [byte_at s p]) with 1; lia).
    change (msize [byte_at s p]) with 1. destruct (Z.leb_spec p j); cbn [andb]; [|apply Hab; lia].
    destruct (Z.ltb_spec j (p + 1)); [|lia]. assert (j = p) as -> by lia. by rewrite Z.sub_diag.
  - apply dtable_enter; [lia|done].
Qed.

Lemma parse_more p t ts : parse s p t ts -> p < n -> ts <> [].
Proof. intros Hp Hlt ->. inversion Hp. lia. Qed.

(** Where no match follows, the tokens are the literals that are left. *)
Lemma parse_rest p t ts m :
  parse s p t ts -> p < n -> last_matchstart s <= p -> cword m ts mod 2 = 0 ->
  ts = map Lit (drop (Z.to_nat p) s).
Proof.
  intros Hp Hlt Hl He. pose proof (parse_range s p t ts Hp).
  destruct (literal_next p t ts m Hp Hlt He) as (m' & ts' & _ & -> & Hp' & _).
  rewrite (parse_tail s _ _ _ Hp') by lia.
  rewrite (drop_S s (byte_at s p) (Z.to_nat p)) by (apply byte_at_in; lia). cbn [map].
  do 3 f_equal. lia.
Qed.

Lemma decompress_loop_ok fuel p t ts m d :
  dstate p t ts m d -> p - 3 <= d_hashed d -> p < n ->
  (p + 4 <= n \/ d_src d = 0 /\ m = 0%nat) -> (Z.to_nat (msize source - d_src d) < fuel)%nat ->
  exists d', decompress_loop source fuel n d = Ret d' /\ agrees (d_out d') n.
Proof.
  revert p t ts m d. induction fuel as [|fuel IH]; intros p t ts m d Hds Hl Hpn Hroom Hf; [lia|].
  cbn [decompress_loop]. pose proof (parse_more p t ts (ds_parse _ _ _ _ _ Hds) Hpn) as Hne.
  destruct (load_cword_ok p t ts m d Hds Hne) as (m1 & d1 & -> & Hds1 & Hsrc1 & Hh1). cbn [obind].
  pose proof Hds1 as [Hp Hs Hd Hm Hc Ho Ht]. pose proof (stream_long s p t ts (S m1) Hp) as Hlong.
  pose proof Hs as (Hs0 & Hs1 & _).
  assert (Hroom1 : d_src d1 + 4 <= msize source).
  { destruct Hroom as [|[H0 ->]]; [unfold msize in *; lia|]. rewrite Hsrc1, H0. cbn. lia. }
  unfold fast_read. cbn [Z.leb andb Z.compare Pos.compare Pos.compare_cont].
  rewrite rd32_ret by lia. cbn [obind]. rewrite Hc, land_1, Hd.
  pose proof (Z.mod_pos_bound (cword (S m1) ts) 2 ltac:(lia)) as Hmod.
  assert (Hfuel : forall d2, d_src d1 < d_src d2 -> (Z.to_nat (msize source - d_src d2) < fuel)%nat).
  { intros d2 Hlt. destruct (m =? 0)%nat; lia. }
  destruct (Z.eqb_spec (cword (S m1) ts mod 2) 1) as [H1|H1].
  - destruct ts as [|[b|h len] ts]; [done| |].
    + rewrite cword_S in H1. cbn [bit] in H1. rewrite Z.add_0_l, (Z.mul_comm 2), Z_mod_mult in H1. done.
    + destruct (copy_match_ok p t h len ts m1 d1 Hds1 ltac:(lia)) as (d2 & -> & Hds2 & Hlt & Hle & Hl2).
      cbn [obind]. eapply IH; [exact Hds2|lia|lia|left; lia|by apply Hfuel].
  - assert (He : cword (S m1) ts mod 2 = 0) by lia.
    change (n - 1 - UNCONDITIONAL_MATCHLEN - UNCOMPRESSED_END) with (last_matchstart s).
    destruct (Z.ltb_spec p (last_matchstart s)) as [Hlast|Hlast].
    + destruct (copy_literals_ok p t ts (S m1) d1 Hds1 Hlast He)
        as (p' & t' & ts' & m' & d2 & -> & Hds2 & Hlt & Hpp & Hle & Hl2).
      cbn [obind]. eapply IH; [exact Hds2|lia|lia|left; lia|by apply Hfuel].
    + pose proof (parse_range s p t ts Hp) as Hpr.
      rewrite (parse_rest p t ts (S m1) Hp Hpn Hlast He) in Hds1.
      destruct Ho as [Hcap _].
      destruct (copy_rest_ok (S (length (d_out d1))) p t (S m1) d1 Hds1) as (d2 & t2 & -> & Ha2 & Ht2);
        [lia|unfold msize in *; lia|].
      cbn [obind]. pose proof Ha2 as [Hcap2 _].
      destruct (update_hash_upto_ok (n - 1 - 3) n t2 n d2 Ht2 Ha2) as (d3 & -> & (_ & _ & _ & Hout) & _ & _);
        [lia|lia|lia|].
      exists d3. split; [done|]. by rewrite Hout.
Qed.

Lemma decompress_core_ok dest off cnt ts :
  msize dest = cap -> 0 < n -> parse s 0 (fun _ => None) ts -> holds 0 (stream 0 ts) ->
  exists out, qlz_decompress_core source dest n off cnt = Ret (n, out) /\ agrees out n.
Proof.
  intros Hcap Hn Hp Hs. unfold qlz_decompress_core. set (d0 := mkDecomp _ _ _ _ _ _ _).
  destruct (decompress_loop_ok (S (length source)) 0 (fun _ => None) ts 0 d0) as (d' & -> & Ha).
  - constructor; try done; [cbn; lia|split; [done|cbn; lia]|]. constructor; try done. cbn. lia.
  - cbn. lia.
  - done.
  - by right.
  - cbn. unfold msize. lia.
  - by exists (d_out d').
Qed.
End Decompressor.
