(* ===== verification/QlzRoundtrip.v ===== *)
(** QuickLZ: the container around the stream, and the round trip of qlz_compress and
    qlz_decompress. *)
From Stdlib Require Import ZArith Lia Bool String.
From stdpp Require Import base list numbers.
From S2P Require Import Prelude Qlz QlzTokens QlzCompress QlzDecompress.

(** Sizes of lists of which the first elements are known. *)
Ltac sizes := unfold msize in *; cbn [length app bytes4 mem_write take drop] in *; lia.

(** ** Headers *)

Definition header_flags (compressed : Z) : Z := Z.lor (Z.lor compressed (Z.shiftl 1 2)) (Z.shiftl 1 6).

(** The short header and the long one. *)
Definition header_of (base r size compressed : Z) : list Z :=
  if base =? 3 then [header_flags compressed; u8 r; u8 size]
  else Z.lor 2 (header_flags compressed) :: bytes4 (u32 r) ++ bytes4 (u32 size).

Definition base_of (size : Z) : Z := if size <? 216 then 3 else 9.

(** What the fields of a header can hold. *)
Definition header_fits (base r size : Z) : Prop :=
  base = base_of size /\ 0 <= size /\ 0 <= r /\ size < 2 ^ 32 /\ r < 2 ^ 32 /\ (size < 216 -> r < 256).

Lemma wr_cons_0 a m x : wr (a :: m) 0 [x] = Ret (x :: m).
Proof. rewrite wr_ret by sizes. done. Qed.

Lemma put_header_ok base r size compressed h body :
  base = 3 \/ base = 9 -> length h = Z.to_nat base ->
  put_header base r size compressed (h ++ body) = Ret (header_of base r size compressed ++ body).
Proof.
  intros [-> | ->] Hh; unfold put_header, header_of; cbn [Z.eqb Pos.eqb].
  - destruct h as [|a [|b [|c [|]]]]; try done. cbn [app]. rewrite wr_cons_0. cbn [obind].
    rewrite wr_ret by sizes. cbn [obind].
    change (mem_write (?x :: b :: c :: body) (Z.to_nat 1) [u8 r]) with (x :: u8 r :: c :: body).
    by rewrite wr_ret by sizes.
  - destruct h as [|a [|b [|c [|d [|e [|f [|g [|i [|j [|]]]]]]]]]]; try done.
    cbn [app]. rewrite wr_cons_0. cbn [obind]. unfold fast_write. cbn [Z.eqb Pos.eqb orb].
    rewrite wr_ret by sizes. cbn [obind].
    change (mem_write (?x :: b :: c :: d :: e :: f :: g :: i :: j :: body) (Z.to_nat 1) (bytes4 (u32 r)))
      with (x :: bytes4 (u32 r) ++ f :: g :: i :: j :: body).
    by rewrite wr_ret by sizes.
Qed.

Lemma header_size_bytes base r size c payload :
  base = 3 \/ base = 9 -> c = 0 \/ c = 1 ->
  rd8 (header_of base r size c ++ payload) 0 = Ret (hd 0 (header_of base r size c)) /\
  size_bytes (header_of base r size c ++ payload) = Ret (if base =? 3 then 1 else 4) /\
  Z.land (hd 0 (header_of base r size c)) 1 = c.
Proof.
  intros Hb Hc. assert (Hrd : forall x m, rd8 (x :: m) 0 = Ret x).
  { intros x m. by rewrite rd8_ret by sizes. }
  unfold size_bytes. destruct Hb as [-> | ->]; unfold header_of; cbn [Z.eqb Pos.eqb app hd];
    rewrite Hrd; cbn [obind]; destruct Hc as [-> | ->]; done.
Qed.

Lemma land_mask8 a b c d : Z.land (le32 (u8 a) b c d) 255 = u8 a.
Proof.
  rewrite land_255. unfold le32, u8. symmetry.
  apply (Z.mod_unique_pos _ _ (b + c * 2 ^ 8 + d * 2 ^ 16)); [|lia].
  pose proof (Z.mod_pos_bound a (2 ^ 8)). lia.
Qed.

Lemma word_of_bytes4 x : 0 <= x < 2 ^ 32 ->
  Z.land (le32 (u8 (u32 x)) (u8 (Z.shiftr (u32 x) 8)) (u8 (Z.shiftr (u32 x) 16))
            (u8 (Z.shiftr (u32 x) 24))) (Z.shiftr 0xffffffff ((4 - 4) * 8)) = x.
Proof.
  intros Hx. rewrite u32_small by done. rewrite bytes4_le32 by done.
  change (Z.shiftr 0xffffffff ((4 - 4) * 8)) with (Z.ones 32). rewrite Z.land_ones by lia.
  by apply Z.mod_small.
Qed.

Lemma header_sizes base r size c payload :
  header_fits base r size -> c = 0 \/ c = 1 -> 3 <= msize payload ->
  qlz_size_compressed (header_of base r size c ++ payload) = Ret r /\
  qlz_size_decompressed (header_of base r size c ++ payload) = Ret size.
Proof.
  intros (Hbase & Hsz & Hr & Hsz' & Hr' & Hshort) Hc Hp. unfold base_of in Hbase.
  assert (base = 3 \/ base = 9) as Hb by (destruct (size <? 216); auto).
  unfold qlz_size_compressed, qlz_size_decompressed.
  destruct (header_size_bytes base r size c payload Hb Hc) as (_ & -> & _). cbn [obind].
  unfold header_of, fast_read. destruct (Z.ltb_spec size 216) as [Hlt|Hge]; subst base;
    cbn [Z.eqb Pos.eqb Z.leb andb Z.compare Pos.compare Pos.compare_cont Z.add Pos.add Pos.succ].
  - destruct payload as [|x [|y [|z payload]]]; try sizes.
    rewrite !rd32_ret by sizes. cbn [obind].
    change (Z.shiftr 0xffffffff ((4 - 1) * 8)) with 255.
    split; f_equal; [etrans; [exact (land_mask8 r _ _ _)|]|etrans; [exact (land_mask8 size _ _ _)|]];
      apply u8_small; unfold is_byte; lia.
  - rewrite !rd32_ret by sizes. cbn [obind].
    split; f_equal; [exact (word_of_bytes4 r ltac:(lia))|exact (word_of_bytes4 size ltac:(lia))].
Qed.

(** ** The payload *)

(** The compressed form of [source]: a header and a payload, which is the stream of a
    parse or the source itself. *)
Inductive payload_of (source : list Z) : Z -> list Z -> Prop :=
| payload_stream ts payload :
    parse source 0 (fun _ => None) ts -> take (length (stream 0 ts)) payload = stream 0 ts ->
    msize payload = Z.max 9 (msize (stream 0 ts)) -> payload_of source 1 payload
| payload_stored : payload_of source 0 source.

(** What qlz_compress promises. *)
Record compressed_form (source : list Z) (r : Z) (src : list Z) : Prop := {
  cf_payload : exists c payload, payload_of source c payload /\ 3 <= msize payload /\
    src = header_of (base_of (msize source)) r (msize source) c ++ payload;
  cf_fits : header_fits (base_of (msize source)) r (msize source);
  cf_size : msize src = r
}.

Lemma header_of_size base r size c : base = 3 \/ base = 9 -> msize (header_of base r size c) = base.
Proof. by intros [-> | ->]. Qed.

Lemma base_of_cases size : base_of size = 3 \/ base_of size = 9.
Proof. unfold base_of. destruct (size <? 216); auto. Qed.

Lemma take_exact (a b : list Z) k : k = length a -> take k (a ++ b) = a.
Proof. intros ->. apply take_app_length. Qed.

Lemma stream_form source r ts body :
  0 < msize source -> msize source <= 0xffffffff - 400 -> parse source 0 (fun _ => None) ts ->
  take (length (stream 0 ts)) body = stream 0 ts ->
  31 * msize (stream 0 ts) <= 35 * msize source + 124 -> msize (stream 0 ts) <= msize source + 111 ->
  r = base_of (msize source) + Z.max 9 (msize (stream 0 ts)) -> Z.max 9 (msize (stream 0 ts)) <= msize body ->
  compressed_form source r
    (take (Z.to_nat r) (header_of (base_of (msize source)) r (msize source) 1 ++ body)).
Proof.
  intros Hn Hmax Hp Htk H31 H111 Hr Hbody. set (n := msize source) in *. set (base := base_of n) in *.
  set (L := msize (stream 0 ts)) in *. assert (0 <= L) by (unfold L, msize; lia).
  pose proof (header_of_size base r n 1 (base_of_cases n)) as Hh.
  assert (Ht : take (Z.to_nat r) (header_of base r n 1 ++ body)
             = header_of base r n 1 ++ take (Z.to_nat (Z.max 9 L)) body).
  { rewrite take_app_ge by (unfold msize in Hh; pose proof (base_of_cases n); lia). do 2 f_equal.
    unfold msize in Hh. lia. }
  assert (Hpl : msize (take (Z.to_nat (Z.max 9 L)) body) = Z.max 9 L).
  { unfold msize in *. rewrite length_take. lia. }
  rewrite Ht. constructor.
  - exists 1, (take (Z.to_nat (Z.max 9 L)) body). split; [|split; [lia|done]].
    apply (payload_stream source ts); [done| |done].
    rewrite take_take, Nat.min_l; [done|]. unfold L, msize. lia.
  - split_and!; try done; try lia; unfold base, base_of in *; destruct (Z.ltb_spec n 216); lia.
  - rewrite msize_app, Hh, Hpl. lia.
Qed.

Lemma stored_form source body :
  42 <= msize source -> msize source <= 0xffffffff - 400 ->
  let r := msize source + base_of (msize source) in
  compressed_form source r
    (take (Z.to_nat r) (header_of (base_of (msize source)) r (msize source) 0 ++ source ++ body)).
Proof.
  intros Hn Hmax r. set (n := msize source) in *. set (base := base_of n) in *.
  pose proof (header_of_size base r n 0 (base_of_cases n)) as Hh.
  assert (Ht : take (Z.to_nat r) (header_of base r n 0 ++ source ++ body) = header_of base r n 0 ++ source).
  { rewrite app_assoc. apply take_exact. rewrite length_app.
    assert (n = Z.of_nat (length source)) by done. unfold msize in Hh. unfold r at 1. lia. }
  rewrite Ht. constructor.
  - exists 0, source. split; [constructor|]. split; [lia|done].
  - split_and!; try done; try lia; unfold r, base, base_of in *; destruct (Z.ltb_spec n 216); lia.
  - rewrite msize_app, Hh. unfold r, n. lia.
Qed.

(** ** qlz_compress *)

Lemma qlz_compress_ok source dest sc :
  Forall is_byte source -> 0 < msize source <= 0xffffffff - 400 -> msize source + 400 <= msize dest ->
  exists r d, qlz_compress source dest sc = Ret (r, d) /\ msize d = msize dest /\
    r <= msize source + 120 /\ compressed_form source r (take (Z.to_nat r) d).
Proof.
  intros Hb Hn Hd. unfold qlz_compress. set (n := msize source) in *.
  destruct (Z.eqb_spec n 0); [lia|]. destruct (Z.ltb_spec (0xffffffff - 400) n); [lia|]. cbn [orb].
  change (if n <? 216 then 3 else 9) with (base_of n).
  pose proof (base_of_cases n) as Hbase. set (base := base_of n) in *.
  unfold at_offset. set (h := take (Z.to_nat base) dest). set (body := drop (Z.to_nat base) dest).
  assert (Hh : length h = Z.to_nat base) by (unfold h, msize in *; rewrite length_take; lia).
  assert (Hbody : msize body = msize dest - base) by (unfold body, msize in *; rewrite length_drop; lia).
  destruct (compress_core_ok source (msize body) Hb ltac:(lia) body (s_cache sc) (s_offset sc))
    as (k & out & -> & Hout & Hk); [done|lia|].
  cbn [obind]. assert (Hhs : msize h = base) by (unfold msize; lia).
  destruct Hk as [[-> H42]|(ts & Hp & -> & Htk & H31 & H111)].
  - cbn [Z.eqb]. rewrite wr_ret by (rewrite ?msize_app; fold n; lia). cbn [obind].
    unfold mem_write. rewrite <-Hh, take_app_length, drop_app_ge by lia.
    rewrite put_header_ok by done. cbn [obind].
    eexists _, _. split; [reflexivity|]. split; [|split; [lia|by apply stored_form]].
    rewrite !msize_app, header_of_size by done. fold n. unfold msize at 1. rewrite length_drop.
    assert (n = Z.of_nat (length source)) by done. unfold msize in Hout, Hd, Hbody |- *. lia.
  - set (L := Z.max 9 (msize (stream 0 ts))) in *. destruct (Z.eqb_spec L 0); [lia|]. cbn [obind].
    rewrite put_header_ok by done. cbn [obind].
    eexists _, _. split; [reflexivity|]. split; [rewrite msize_app, header_of_size by done; lia|].
    split; [lia|]. apply (stream_form source _ ts); try done; fold n; try lia.
Qed.

(** ** qlz_decompress *)

Lemma take_agrees source out : agrees source (msize out) out (msize source) -> msize source <= msize out ->
  take (length source) out = source.
Proof.
  intros [_ Ha] Hle. apply (nth_ext _ _ 0 0).
  - unfold msize in *. rewrite length_take. lia.
  - intros k Hk. rewrite length_take in Hk. specialize (Ha (Z.of_nat k)).
    unfold byte_at, msize in *. rewrite Nat2Z.id in Ha. rewrite <-Ha by lia.
    rewrite !nth_lookup, lookup_take_lt by lia. done.
Qed.

Lemma drop_exact (a b : list Z) k : k = length a -> drop k (a ++ b) = b.
Proof. intros ->. apply drop_app_length. Qed.

Lemma qlz_decompress_ok source r src target sd :
  Forall is_byte source -> 0 < msize source -> compressed_form source r src -> msize source <= msize target ->
  exists t, qlz_decompress src target sd = Ret (msize source, t) /\ take (length source) t = source /\
    msize t = msize target.
Proof.
  intros Hb Hn [(c & payload & Hp & Hlen & ->) Hfits Hsize] Htgt.
  set (n := msize source) in *. pose proof (base_of_cases n) as Hbase. set (base := base_of n) in *.
  assert (Hc : c = 0 \/ c = 1) by (destruct Hp; auto).
  destruct (header_size_bytes base r n c payload Hbase Hc) as (Hrd & Hsb & Hflag).
  destruct (header_sizes base r n c payload Hfits Hc Hlen) as (Hsc & Hsd).
  pose proof (header_of_size base r n c Hbase) as Hhs.
  unfold qlz_decompress. rewrite Hrd, Hsb, Hsc, Hsd. cbn [obind]. rewrite Hflag.
  assert (Hhl : 2 * (if base =? 3 then 1 else 4) + 1 = base) by (by destruct Hbase as [-> | ->]).
  rewrite Hhl, drop_exact by (unfold msize in Hhs; lia).
  destruct Hp as [ts payload Hp Htk Hpl|].
  - cbn [Z.eqb Pos.eqb]. destruct (decompress_core_ok source Hb payload ltac:(lia) (msize target) Htgt
      target (s_offset sd) (fun _ => 0) ts) as (out & Hdec & Ha); try done.
    { split_and!; [lia|lia|]. intros j Hj. transitivity (byte_at (take (length (stream 0 ts)) payload) j); [|by rewrite Htk].
      unfold byte_at, msize in *. rewrite !nth_lookup, lookup_take_lt by lia. done. }
    fold n in Hdec. rewrite Hdec. exists out. pose proof Ha as [Ho _]. split_and!; [done| |done]. apply take_agrees; [by rewrite Ho|lia].
  - cbn [Z.eqb]. rewrite msize_app, Hhs. fold n. destruct (Z.ltb_spec (base + n) (base + n)); [lia|].
    assert (Hsl : slice (header_of base r n 0 ++ source) (Z.to_nat base) (Z.to_nat (base + n)) = source).
    { unfold slice. rewrite drop_exact by (unfold msize in Hhs; lia). apply take_ge. unfold n, msize. lia. }
    rewrite Hsl, wr_ret by (fold n; lia). cbn [obind]. eexists. split; [reflexivity|].
    assert (mem_write target (Z.to_nat 0) source = source ++ drop (length source) target) as -> by done.
    rewrite take_app_length. split; [done|].
    rewrite msize_app. fold n. unfold msize at 1. rewrite length_drop.
    assert (n = Z.of_nat (length source)) by done. unfold msize in Htgt |- *. lia.
Qed.

(** ** Properties *)

(** C24.  qlz_decompress undoes qlz_compress.  For every non-empty source within the
    limit of qlz_compress and a destination of the 400 extra bytes the manual asks for,
    whatever the destination and the two scratch memories hold: qlz_compress returns a
    size [r], at most 120 more than the source has, and keeps within the destination;
    the size functions read [r] and the size of the source back from the first [r] bytes;
    and qlz_decompress, given those bytes alone and room for the source alone, reads and
    writes nothing outside them and restores the source. *)
Theorem qlz_roundtrip source destination target sc sd :
  Forall is_byte source -> 0 < msize source <= 0xffffffff - 400 ->
  msize source + 400 <= msize destination -> msize source <= msize target ->
  exists r d t,
    qlz_compress source destination sc = Ret (r, d) /\ r <= msize source + 120 /\
    msize d = msize destination /\
    qlz_size_compressed (take (Z.to_nat r) d) = Ret r /\
    qlz_size_decompressed (take (Z.to_nat r) d) = Ret (msize source) /\
    qlz_decompress (take (Z.to_nat r) d) target sd = Ret (msize source, t) /\
    take (length source) t = source /\ msize t = msize target.
Proof.
  intros Hb Hn Hd Ht. destruct (qlz_compress_ok source destination sc Hb Hn Hd) as (r & d & Hc & Hsz & Hr & Hform).
  destruct (qlz_decompress_ok source r _ target sd Hb ltac:(lia) Hform Ht) as (t & Hdec & Htk & Htsz).
  exists r, d, t. destruct Hform as [(c & payload & Hp & Hlen & Hsrc) Hfits Hsize].
  assert (Hcc : c = 0 \/ c = 1) by (destruct Hp; auto).
  destruct (header_sizes _ r _ c payload Hfits Hcc Hlen) as [H1 H2]. rewrite <-Hsrc in H1, H2.
  by split_and!.
Qed.

Definition demo_source : list Z := b! "to be or not to be, to be or not to be, that is the question, not to be".
Definition demo_scratch : scratch := mkScratch (fun i => i * 77) (fun i => i * 31).

Lemma qlz_roundtrip_witness :
  exists r d t,
    qlz_compress demo_source (replicate 472 170) demo_scratch = Ret (r, d) /\
    qlz_decompress (take (Z.to_nat r) d) (replicate 72 0) demo_scratch = Ret (msize demo_source, t) /\
    take (length demo_source) t = demo_source.
Proof.
  destruct (qlz_roundtrip demo_source (replicate 472 170) (replicate 72 0) demo_scratch demo_scratch)
    as (r & d & t & H1 & _ & _ & _ & _ & H2 & H3 & _).
  - apply (bool_decide_unpack _). by vm_compute.
  - vm_compute. by split.
  - by vm_compute.
  - by vm_compute.
  - exists r, d, t. exact (conj H1 (conj H2 H3)).
Defined.

(** *** Runs *)

Lemma byte_at_replicate k b i : 0 <= i < Z.of_nat k -> byte_at (replicate k b) i = b.
Proof.
  intros Hi. unfold byte_at. rewrite nth_lookup. by rewrite lookup_replicate_2 by lia.
Qed.

Lemma key_replicate k b i j :
  0 <= i -> i + 3 <= Z.of_nat k -> 0 <= j -> j + 3 <= Z.of_nat k ->
  key (replicate k b) i = key (replicate k b) j.
Proof. intros. unfold key, word24. by rewrite !byte_at_replicate by lia. Qed.

(** In a run the position last entered is always the one before, which is too near. *)
Lemma parse_run k b p t ts :
  parse (replicate k b) p t ts ->
  (p + 3 <= Z.of_nat k -> forall o, t (key (replicate k b) p) = Some o -> o = p - 1) ->
  Z.of_nat (length ts) = Z.of_nat k - p.
Proof.
  assert (Hk : msize (replicate k b) = Z.of_nat k) by (unfold msize; by rewrite length_replicate).
  induction 1 as [t|p t ts Hp _ IH|p t o len ts Ht Ho Hop Hlen Hp Hend _ _ _]; intros Hlast.
  - rewrite Hk. cbn. lia.
  - cbn [length]. rewrite Nat2Z.inj_succ, IH; [lia|]. intros Hle o. unfold enter.
    rewrite (key_replicate k b (p + 1) p) by lia. rewrite Z.eqb_refl. intros [= <-]. lia.
  - unfold last_byte, last_matchstart, UNCONDITIONAL_MATCHLEN, UNCOMPRESSED_END, MINOFFSET in *.
    rewrite Hk in *. specialize (Hlast ltac:(lia) o Ht). lia.
Qed.

Lemma stream_tokens m ts : (length ts <= length (stream m ts))%nat.
Proof.
  revert m. induction ts as [|t ts IH]; intros m; [done|]. pose proof (bytes_of_length t).
  cbn [stream length]. destruct m as [|m]; rewrite !length_app; [specialize (IH 30%nat)|specialize (IH m)]; lia.
Qed.

(**  A run of one byte never gets shorter.  The hash table remembers only the last
    position of each hash, in a run that is the byte before, and a match must start at
    least three bytes back: no match is ever found, however long the run. *)
Theorem qlz_runs_do_not_compress k b destination sc :
  is_byte b -> 0 < Z.of_nat k <= 0xffffffff - 400 -> Z.of_nat k + 400 <= msize destination ->
  exists r d, qlz_compress (replicate k b) destination sc = Ret (r, d) /\ Z.of_nat k < r.
Proof.
  intros Hb Hk Hd. assert (Hn : msize (replicate k b) = Z.of_nat k).
  { unfold msize. by rewrite length_replicate. }
  destruct (qlz_compress_ok (replicate k b) destination sc) as (r & d & Hc & _ & _ & Hform);
    [by apply Forall_replicate|by rewrite Hn|by rewrite Hn|].
  exists r, d. split; [done|]. destruct Hform as [(c & payload & Hp & _ & Hsrc) _ <-].
  rewrite Hsrc, msize_app. pose proof (base_of_cases (msize (replicate k b))) as Hbase.
  rewrite header_of_size by done.
  enough (Z.of_nat k <= msize payload) by lia.
  destruct Hp as [ts payload Hp _ Hsz|]; [|lia].
  pose proof (parse_run k b 0 _ ts Hp ltac:(done)) as Hlen. pose proof (stream_tokens 0 ts).
  unfold msize in Hsz |- *. lia.
Qed.

Lemma qlz_runs_do_not_compress_witness :
  exists r d, qlz_compress (replicate 60 32) (replicate 460 0) demo_scratch = Ret (r, d) /\ 60 < r.
Proof.
  apply (qlz_runs_do_not_compress 60 32).
  - by vm_compute.
  - lia.
  - by vm_compute.
Defined.

(** *** Outside the round trip *)

(** The output is at least nine bytes after the header; for one byte of source four of
    them are what the destination held before. *)
Lemma qlz_short_source_leaks :
  (let! (r, d) := qlz_compress (b! "a") (replicate 401 170) demo_scratch in
   Ret (take (Z.to_nat r) d)) = Ret [69; 12; 1; 0; 0; 0; 128; 97; 170; 170; 170; 170].
Proof. vm_compute. reflexivity. Qed.

(**  qlz_decompress trusts its input: a stream that begins with a match makes it
    follow a pointer the hash table was never given, and a size field larger than the
    memory behind the destination makes it write past it. *)
Theorem qlz_decompress_trusts_input :
  qlz_decompress [71; 30; 0; 0; 0; 20; 0; 0; 0; 1; 0; 0; 128; 1; 0; 0; 0; 0; 0; 0; 0]
    (replicate 20 0) (mkScratch (fun _ => 0) (fun _ => -4096)) = Crash /\
  (let! (r, d) := qlz_compress demo_source (replicate 472 0) demo_scratch in
   qlz_decompress (take (Z.to_nat r) d) (replicate 16 0) demo_scratch) = Crash.
Proof. split; vm_compute; reflexivity. Qed.
