(* ===== verification/CgiString.v ===== *)
(** The string functions of src/AdHot/hub/cgi/cgi.c: cgi_url_unescape, the truncation
    of text for display (Utf8StringTrunc, MaxLength) and the age of an item (RFeedTime).
    They work on buffers: a C string is a list of bytes with its NUL
    and whatever lies behind it, a pointer into it an index, and an access outside the
    list is [Crash].  The functions of ctype.h are those of the C locale. *)
From Stdlib Require Import ZArith Lia Bool String.
From stdpp Require Import base list numbers.
From S2P Require Import Prelude Clib BaseEscape.

(** ** cgi_url_unescape *)

(** [(c >= 'A') ? ((c & 0xdf) - 'A') + 10 : (c - '0')]. *)
Definition xdigit (c : Z) : Z := if c >=? 65 then Z.land c 0xdf - 65 + 10 else c - 48.

(** [num] is a [char]; the buffer holds unsigned ones. *)
Definition unescape_byte (h l : Z) : Z :=
  let num := s8 (xdigit h) in
  let num := s8 (num * 16) in
  let num := s8 (num + xdigit l) in
  u8 num.

(** [s[i] == '%' && isxdigit (s[i+1]) && isxdigit (s[i+2])], and the two digits. *)
Definition escape_at (s : list Z) (i : nat) (c : Z) : outcome (option (Z * Z)) :=
  if c =? 37 then
    let! h := ld s (i + 1) in
    if isxdigit h then
      let! l := ld s (i + 2) in
      if isxdigit l then Ret (Some (h, l)) else Ret None
    else Ret None
  else Ret None.

Fixpoint unescape_loop (fuel : nat) (s : list Z) (i o : nat) : outcome (list Z * nat * nat) :=
  match fuel with
  | O => NoFuel
  | S fuel =>
      let! c := ld s i in
      if c =? 0 then Ret (s, i, o)
      else if c =? 43 then
        let! s := st s o 32 in unescape_loop fuel s (i + 1) (o + 1)
      else
        let! e := escape_at s i c in
        match e with
        | Some (h, l) => let! s := st s o (unescape_byte h l) in unescape_loop fuel s (i + 3) (o + 1)
        | None => let! s := st s o c in unescape_loop fuel s (i + 1) (o + 1)
        end
  end.

(** [value] is [None] for a NULL pointer. *)
Definition cgi_url_unescape (value : option (list Z)) : outcome (option (list Z)) :=
  match value with
  | None => Ret None
  | Some s =>
      let! (s, i, o) := unescape_loop (S (length s)) s 0 0 in
      if negb (i =? 0)%nat && negb (o =? 0)%nat then let! s := st s o 0 in Ret (Some s)
      else Ret (Some s)
  end.

(** ** Utf8StringTrunc *)

(** How many bytes the loop takes at a character that starts with [c]. *)
Definition utf8_size (c : Z) : option nat :=
  if Z.land c 0x80 =? 0 then Some 1%nat
  else if Z.land c 0xE0 =? 0xC0 then Some 2%nat
  else if Z.land c 0xF0 =? 0xE0 then Some 3%nat
  else if Z.land c 0xF8 =? 0xF0 then Some 4%nat
  else None.

(** [in[i+1] == 0 || ... || in[i+n] == 0]. *)
Fixpoint nul_among (text : list Z) (i n : nat) : outcome bool :=
  match n with
  | O => Ret false
  | S n => let! c := ld text i in if c =? 0 then Ret true else nul_among text (i + 1) n
  end.

(** [out[out_len++] = in[i]; ...; out[out_len++] = in[i+n-1];] *)
Fixpoint copy_bytes (text : list Z) (i : nat) (out : list Z) (o n : nat) : outcome (list Z) :=
  match n with
  | O => Ret out
  | S n =>
      let! c := ld text i in
      let! out := st out o c in
      copy_bytes text (i + 1) out (o + 1) n
  end.

(** The loop; it gives [i], [out_len], [last_size] and the buffer. *)
Fixpoint trunc_loop (fuel : nat) (text : list Z) (in_len max_width cur_width : Z)
    (i o last_size : nat) (out : list Z) : outcome (nat * nat * nat * list Z) :=
  match fuel with
  | O => NoFuel
  | S fuel =>
      if (cur_width <? u64 max_width) && (Z.of_nat i <? u64 in_len) then
        let! c := ld text i in
        match utf8_size c with
        | None => Ret (i, o, last_size, out)
        | Some n =>
            let! nul := nul_among text (i + 1) (n - 1) in
            if nul then Ret (i, o, last_size, out)
            else
              let! out := copy_bytes text i out o n in
              trunc_loop fuel text in_len max_width (cur_width + (if (n =? 1)%nat then 1 else 2))
                (i + n) (o + n) n out
        end
      else Ret (i, o, last_size, out)
  end.

(** [out0] is the memory [malloc (in_len + 3)] returns. *)
Definition Utf8StringTrunc (text : list Z) (in_len max_width : Z) (out0 : list Z) : outcome (list Z) :=
  let! (i, o, last_size, out) :=
    trunc_loop (S (length text)) text in_len max_width 0 0 0 0 out0 in
  let! (o, out) :=
    (if Z.of_nat i <? u64 in_len then
       let o := if (last_size <? o)%nat then (o - last_size)%nat else o in
       let! out := copy_bytes (b! "...") 0 out o 3 in
       Ret ((o + 3)%nat, out)
     else Ret (o, out)) in
  st out o 0.

(** [CSARG]: the fields MaxLength sets. *)
Record CSARG := mkCSARG { arg_s : list Z; arg_alloc : bool }.

(** [args] is what [cs_arg_parse] delivers: an error, or the text and the length. *)
Definition MaxLength {E} (args : E + option (list Z) * Z) (malloc : Z -> list Z) :
    outcome (option E * CSARG) :=
  let result := mkCSARG [0] false in
  match args with
  | inl err => Ret (Some err, result)
  | inr (None, _) => Ret (None, result)
  | inr (Some text, max_len) =>
      if max_len <=? 0 then Ret (None, result)
      else
        let len := s32 (Z.of_nat (length (cstr text))) in
        let! out := Utf8StringTrunc text len (s32 max_len) (malloc (s32 (len + 3))) in
        Ret (None, mkCSARG out true)
  end.

(** ** RFeedTime *)

(** The texts of the function, in the encoding of the file (UTF-8). *)
Definition just_now : list Z := [229; 136; 154; 229; 136; 154; 230; 155; 180; 230; 150; 176].
Definition minutes_ago : list Z := [229; 136; 134; 233; 146; 159; 229; 137; 141].
Definition hours_ago : list Z := [229; 176; 143; 230; 151; 182; 229; 137; 141].
Definition days_ago : list Z := [229; 164; 169; 229; 137; 141].

(** [%m-%d %H:%M] for the month (from 0), day, hour and minute of a [struct tm]. *)
Definition two_digits (k : Z) : list Z := [k / 10 + 48; k mod 10 + 48].
Definition month_day_time (mon mday hour min : Z) : list Z :=
  two_digits (mon + 1) ++ [45] ++ two_digits mday ++ [32] ++ two_digits hour ++ [58] ++ two_digits min.

(** What [strftime] leaves in a buffer when it is told that there are [max] bytes: the
    text, or unspecified contents when the text and its NUL do not fit. *)
Definition strftime (max : nat) (text unspecified : list Z) : list Z :=
  if (length text <? max)%nat then text else unspecified.

(** The string in [buf]; [localtime] gives month, day, hour and minute, and [sizeof (buf)]
    is the size of a pointer. *)
Definition RFeedTime (text : list Z) (now : Z) (localtime : Z -> Z * Z * Z * Z)
    (unspecified : list Z) : list Z :=
  let buf_len := 256%nat in
  let sizeof_buf := 8%nat in
  let t := Z.quot (atoll text) 1000 in
  let t := if t <? 0 then 0 else t in
  let diff_minutes := s32 (Z.quot (now - t) 60) in
  if diff_minutes <=? 0 then just_now
  else if diff_minutes <? 60 then snprintf (buf_len - 1) (format_d diff_minutes ++ minutes_ago)
  else if diff_minutes <? 24 * 60 then
    snprintf (buf_len - 1) (format_d (Z.quot diff_minutes 60) ++ hours_ago)
  else if (diff_minutes >=? 24 * 60) && (diff_minutes <? 3 * 24 * 60) then
    snprintf (buf_len - 1) (format_d (Z.quot diff_minutes (24 * 60)) ++ days_ago)
  else
    let '(mon, mday, hour, min) := localtime t in
    strftime sizeof_buf (month_day_time mon mday hour min) unspecified.

(** ** Lemmas: buffers *)

Lemma ld_lookup b i c : b !! i = Some c -> ld b i = Ret c.
Proof. unfold ld. by intros ->. Qed.

Lemma ld_app_r a b i : (length a <= i)%nat -> ld (a ++ drop (length a) b) i = ld b i.
Proof.
  intros. unfold ld. rewrite lookup_app_r, lookup_drop by done. by replace (length a + (i - length a))%nat with i by lia.
Qed.

Lemma ld_drop b i c t : drop i b = c :: t -> ld b i = Ret c.
Proof.
  intros H. apply ld_lookup. assert ((drop i b) !! 0%nat = Some c) as H0 by by rewrite H.
  rewrite lookup_drop in H0. by rewrite Nat.add_0_r in H0.
Qed.

Lemma drop_plus {A} (b : list A) i j r t : drop i b = r ++ t -> length r = j -> drop (i + j) b = t.
Proof. intros H <-. by rewrite <-drop_drop, H, drop_app_length. Qed.

(** A buffer whose first bytes have been overwritten by [a], and one byte more. *)
Lemma st_over a b v :
  (length a < length b)%nat ->
  st (a ++ drop (length a) b) (length a) v = Ret ((a ++ [v]) ++ drop (length (a ++ [v])) b).
Proof.
  intros H. unfold st. rewrite length_app, length_drop.
  destruct (Nat.ltb_spec (length a) (length a + (length b - length a))); [|lia]. f_equal.
  destruct (drop (length a) b) as [|x t] eqn:E.
  { apply (f_equal length) in E. rewrite length_drop in E. cbn in E. lia. }
  rewrite insert_app_r_alt, Nat.sub_diag by done. cbn. rewrite <-app_assoc. cbn. do 2 f_equal.
  rewrite length_app. cbn [length]. by rewrite (drop_plus b (length a) 1 [x] t).
Qed.

Definition nonzero (c : Z) : Prop := c <> 0.

(** ** cgi_url_unescape: what it decodes *)

Definition xdigit_value (c : Z) : Z := if isdigit c then c - 48 else tolower c - 97 + 10.

(** The decoding of application/x-www-form-urlencoded, '%' without two digits being
    itself. *)
Fixpoint form_decode (e : list Z) : list Z :=
  match e with
  | [] => []
  | c :: t =>
      if c =? 43 then 32 :: form_decode t
      else if c =? 37 then
        match t with
        | h :: l :: t' =>
            if isxdigit h && isxdigit l then xdigit_value h * 16 + xdigit_value l :: form_decode t'
            else c :: form_decode t
        | _ => c :: form_decode t
        end
      else c :: form_decode t
  end.

(** The encodings of a string: every byte itself, as '+' or as '%' and two digits. *)
Inductive form_encodes : list Z -> list Z -> Prop :=
| encodes_nil : form_encodes [] []
| encodes_plain c e s :
    is_byte c -> c <> 0 -> c <> 37 -> c <> 43 -> form_encodes e s -> form_encodes (c :: e) (c :: s)
| encodes_space e s : form_encodes e s -> form_encodes (43 :: e) (32 :: s)
| encodes_hex h l c e s :
    isxdigit h = true -> isxdigit l = true -> c = xdigit_value h * 16 + xdigit_value l ->
    form_encodes e s -> form_encodes (37 :: h :: l :: e) (c :: s).

Lemma isxdigit_byte c : isxdigit c = true -> is_byte c /\ c <> 0.
Proof. unfold isxdigit, isdigit, is_byte. lia. Qed.

Lemma unescape_byte_value h l :
  isxdigit h = true -> isxdigit l = true -> unescape_byte h l = xdigit_value h * 16 + xdigit_value l.
Proof.
  intros Hh Hl. destruct (isxdigit_byte h Hh) as [Bh _], (isxdigit_byte l Hl) as [Bl _].
  assert (forall h, is_byte h -> forallb (fun l => if isxdigit h && isxdigit l
            then unescape_byte h l =? xdigit_value h * 16 + xdigit_value l else true) (seqZ 0 256) = true) as H.
  { apply (is_byte_forall (fun h => forallb (fun l => if isxdigit h && isxdigit l
      then unescape_byte h l =? xdigit_value h * 16 + xdigit_value l else true) (seqZ 0 256))). by vm_compute. }
  pose proof (is_byte_forall _ (H h Bh) l Bl) as Hb. cbn beta in Hb. rewrite Hh, Hl in Hb. cbn in Hb. lia.
Qed.

Lemma form_decode_encodes e s : form_encodes e s -> form_decode e = s /\ Forall nonzero e.
Proof.
  induction 1 as [|c e s _ ? ? ? _ [IHe IH]|e s _ [IHe IH]|h l c e s Hh Hl -> _ [IHe IH]]; cbn [form_decode].
  - by split; [|constructor].
  - destruct (Z.eqb_spec c 43); [done|]. destruct (Z.eqb_spec c 37); [done|]. rewrite IHe.
    by split; [|constructor].
  - cbn. rewrite IHe. by split; [|constructor].
  - cbn. rewrite Hh, Hl. cbn. rewrite IHe. destruct (isxdigit_byte h Hh), (isxdigit_byte l Hl).
    split; [done|]. by repeat (constructor; [done|]).
Qed.

(** The loop, with [a] written, [r] to be read and the buffer otherwise as it was. *)
Lemma unescape_loop_ok fuel s rest : forall r a i,
  (length r < fuel)%nat -> Forall nonzero r ->
  drop i s = r ++ 0 :: rest -> (length a <= i)%nat ->
  exists i', unescape_loop fuel (a ++ drop (length a) s) i (length a)
    = Ret ((a ++ form_decode r) ++ drop (length (a ++ form_decode r)) s, i',
           length (a ++ form_decode r)) /\ (i <= i')%nat /\ (r <> [] -> (i < i')%nat).
Proof.
  induction fuel as [|fuel IH]; intros r a i Hf Hr Hd Ha; [lia|]. cbn [unescape_loop].
  rewrite (ld_app_r a) by done.
  assert (i < length s)%nat as Hi.
  { apply (f_equal length) in Hd. rewrite length_drop, length_app in Hd. cbn in Hd. lia. }
  destruct r as [|c r].
  { rewrite (ld_drop s i 0 rest) by done. cbn. rewrite app_nil_r. by exists i. }
  rewrite (ld_drop s i c (r ++ 0 :: rest)) by done. cbn [obind].
  apply List.Forall_cons_iff in Hr as [Hc Hr]. red in Hc.
  destruct (Z.eqb_spec c 0); [done|].
  assert (forall v r' k, (length r' <= length r)%nat -> Forall nonzero r' -> (1 <= k)%nat ->
    drop (i + k) s = r' ++ 0 :: rest ->
    exists i', (let! s := st (a ++ drop (length a) s) (length a) v in
                unescape_loop fuel s (i + k) (length a + 1))
      = Ret ((a ++ v :: form_decode r') ++ drop (length (a ++ v :: form_decode r')) s, i',
             length (a ++ v :: form_decode r')) /\ (i <= i')%nat /\ (c :: r <> [] -> (i < i')%nat)) as Step.
  { intros v r' k Hlen Hr' Hk Hd'. rewrite st_over by lia. cbn [obind].
    replace (length a + 1)%nat with (length (a ++ [v])) by (rewrite length_app; cbn; lia).
    destruct (IH r' (a ++ [v]) (i + k)%nat) as (i' & E & H1 & _);
      [cbn in Hf; lia|done|done|rewrite length_app; cbn; lia|].
    replace (a ++ v :: form_decode r') with ((a ++ [v]) ++ form_decode r') by by rewrite <-app_assoc.
    exists i'. split; [exact E|]. lia. }
  assert (forall v, exists i', (let! s := st (a ++ drop (length a) s) (length a) v in
                unescape_loop fuel s (i + 1) (length a + 1))
      = Ret ((a ++ v :: form_decode r) ++ drop (length (a ++ v :: form_decode r)) s, i',
             length (a ++ v :: form_decode r)) /\ (i <= i')%nat /\ (c :: r <> [] -> (i < i')%nat)) as Step1.
  { intros v. apply Step; [done|done|lia|]. by apply (drop_plus s i 1 [c]). }
  cbn [form_decode]. destruct (Z.eqb_spec c 43) as [->|]; [apply Step1|].
  unfold escape_at. destruct (Z.eqb_spec c 37) as [->|]; [|apply Step1].
  rewrite !(ld_app_r a) by lia.
  assert (drop (i + 1) s = r ++ 0 :: rest) as Hd1 by by apply (drop_plus s i 1 [37]).
  destruct r as [|h r].
  { rewrite (ld_drop s (i + 1) 0 rest) by done. apply Step1. }
  rewrite (ld_drop s (i + 1) h (r ++ 0 :: rest)) by done. cbn [obind].
  assert (drop (i + 2) s = r ++ 0 :: rest) as Hd2.
  { replace (i + 2)%nat with (i + 1 + 1)%nat by lia. by apply (drop_plus s (i + 1) 1 [h]). }
  destruct (isxdigit h) eqn:Eh; cbn [andb]; [|destruct r; apply Step1].
  destruct r as [|l r].
  { rewrite (ld_drop s (i + 2) 0 rest) by done. apply Step1. }
  rewrite (ld_drop s (i + 2) l (r ++ 0 :: rest)) by done. cbn [obind].
  destruct (isxdigit l) eqn:El; cbn [obind]; [|apply Step1].
  rewrite unescape_byte_value by done. apply List.Forall_cons_iff in Hr as [_ [_ Hr]%List.Forall_cons_iff].
  apply (Step _ r 3%nat); [cbn; lia|done|lia|]. replace (i + 3)%nat with (i + 2 + 1)%nat by lia.
  by apply (drop_plus s (i + 2) 1 [l]).
Qed.

Lemma form_decode_length e : (length (form_decode e) <= length e)%nat.
Proof.
  remember (length e) as n eqn:Hn. revert e Hn. induction n as [n IH] using lt_wf_ind. intros e ->.
  destruct e as [|c e]; [done|]. cbn [form_decode length].
  assert (length (form_decode e) <= length e)%nat by (eapply IH; [|done]; cbn; lia).
  destruct (c =? 43); [cbn; lia|]. destruct (c =? 37); [|cbn; lia].
  destruct e as [|h [|l e]]; [cbn [length] in *; lia..|]. destruct (isxdigit h && isxdigit l); [|cbn [length] in *; lia].
  assert (length (form_decode e) <= length e)%nat by (eapply IH; [|done]; cbn; lia). cbn. lia.
Qed.

Lemma unescape_ok e rest :
  Forall nonzero e ->
  cgi_url_unescape (Some (e ++ 0 :: rest)) =
  Ret (Some (form_decode e ++ 0 :: drop (S (length (form_decode e))) (e ++ 0 :: rest))).
Proof.
  intros He. set (s := e ++ 0 :: rest). unfold cgi_url_unescape.
  assert (length s = length e + S (length rest))%nat as Hs by (unfold s; by rewrite length_app).
  pose proof (form_decode_length e) as Hlen.
  destruct (unescape_loop_ok (S (length s)) s rest e [] 0%nat) as (i' & E & Hi & Hne); [lia|done|done|cbn; lia|].
  cbn [length app] in E. rewrite drop_0 in E. rewrite E. cbn [obind].
  destruct e as [|c e].
  { cbn [form_decode length]. rewrite Nat.eqb_refl, andb_false_r. cbn. by destruct rest. }
  assert (form_decode (c :: e) <> []) as Hnil.
  { cbn. repeat case_match; done. }
  specialize (Hne ltac:(done)). destruct (Nat.eqb_spec i' 0); [lia|].
  destruct (Nat.eqb_spec (length (form_decode (c :: e))) 0) as [H0|_].
  { by apply nil_length_inv in H0. }
  cbn [negb andb]. rewrite st_over by lia. cbn [obind]. rewrite length_app, <-app_assoc.
  cbn [length app]. by rewrite Nat.add_1_r.
Qed.

Lemma url_char_encodes c e s : is_byte c -> form_encodes e s -> form_encodes (url_char c ++ e) (c :: s).
Proof.
  intros Hc He.
  assert ((match url_char c with
    | [x] => ((x =? 43) && (c =? 32)) ||
             (negb (x =? 43) && negb (x =? 37) && negb (x =? 0) && (x =? c))
    | [p; h; l] => (p =? 37) && isxdigit h && isxdigit l && (c =? xdigit_value h * 16 + xdigit_value l)
    | _ => false
    end) = true) as H.
  { apply (is_byte_forall (fun c => match url_char c with
      | [x] => ((x =? 43) && (c =? 32)) ||
               (negb (x =? 43) && negb (x =? 37) && negb (x =? 0) && (x =? c))
      | [p; h; l] => (p =? 37) && isxdigit h && isxdigit l && (c =? xdigit_value h * 16 + xdigit_value l)
      | _ => false
      end)); [by vm_compute|done]. }
  destruct (url_char c) as [|x [|h [|l [|? ?]]]]; try done; cbn [app].
  - apply orb_true_iff in H as [[->%Z.eqb_eq ->%Z.eqb_eq]%andb_true_iff|H]; [by constructor|].
    rewrite !andb_true_iff, !negb_true_iff, !Z.eqb_neq, Z.eqb_eq in H.
    destruct H as [[[? ?] ?] ->]. by constructor.
  - rewrite !andb_true_iff, !Z.eqb_eq in H. destruct H as [[[-> ?] ?] ->]. by constructor.
Qed.

Lemma url_escape_encodes t :
  Forall is_byte t -> exists q, UrlQueryEscape t = Ret q /\ form_encodes q t.
Proof.
  intros Ht. destruct (UrlQueryEscape_text t Ht) as [-> _]. eexists. split; [done|].
  induction Ht as [|c t Hc _ IH]; [constructor|]. unfold escape_with. cbn [map concat].
  by apply url_char_encodes.
Qed.

(**  cgi_url_unescape decodes in place every form encoding of a string, whatever
    lies behind its NUL, and leaves the rest of the buffer alone; what UrlQueryEscape of
    src/base/escape.h produces is such an encoding. *)
Theorem cgi_url_unescape_decodes e s rest :
  form_encodes e s ->
  cgi_url_unescape (Some (e ++ 0 :: rest)) =
    Ret (Some (s ++ 0 :: drop (S (length s)) (e ++ 0 :: rest))) /\
  (Forall is_byte s -> exists q, UrlQueryEscape s = Ret q /\ form_encodes q s).
Proof.
  intros [Hdec Hnz]%form_decode_encodes. split; [by rewrite unescape_ok, Hdec by done|].
  apply url_escape_encodes.
Qed.

Lemma cgi_url_unescape_decodes_witness :
  cgi_url_unescape (Some (b! "a+b%3dc" ++ 0 :: [7; 8])) = Ret (Some (b! "a b=c" ++ [0; 99; 0; 7; 8])).
Proof.
  apply (cgi_url_unescape_decodes (b! "a+b%3dc") (b! "a b=c") [7; 8]).
  apply encodes_plain; [by vm_compute|done|done|done|]. apply encodes_space.
  apply encodes_plain; [by vm_compute|done|done|done|]. apply encodes_hex; [done|done|done|].
  apply encodes_plain; [by vm_compute|done|done|done|]. apply encodes_nil.
Defined.

(** ** Utf8StringTrunc: what is displayed *)

(** The characters at the beginning of a text, and what is left from the first byte that
    begins none. *)
Fixpoint utf8_split (fuel : nat) (text : list Z) : list (list Z) * list Z :=
  match fuel, text with
  | S fuel, c :: _ =>
      match utf8_size c with
      | Some n =>
          if (n <=? length text)%nat then
            let r := utf8_split fuel (drop n text) in (take n text :: r.1, r.2)
          else ([], text)
      | None => ([], text)
      end
  | _, _ => ([], text)
  end.

Definition char_width (ch : list Z) : Z := if (length ch =? 1)%nat then 1 else 2.

(** The characters the loop takes: until the width is reached. *)
Fixpoint shown (w : Z) (chars : list (list Z)) : list (list Z) :=
  match chars with
  | ch :: chars => if 0 <? w then ch :: shown (w - char_width ch) chars else []
  | [] => []
  end.

(** What is kept before the dots: all that was taken when it is one character. *)
Definition kept (sh : list (list Z)) : list (list Z) :=
  match sh with [] | [_] => sh | _ => removelast sh end.

(** The text, or the characters taken, less the last unless it is the only one, and "...". *)
Definition displayed (w : Z) (text : list Z) : list Z :=
  let '(chars, bad) := utf8_split (length text) text in
  let sh := shown w chars in
  if (length sh =? length chars)%nat && (length bad =? 0)%nat then text
  else concat (kept sh) ++ b! "...".

(** A character as the loop takes it. *)
Definition whole_char (ch : list Z) : Prop :=
  match ch with c :: _ => utf8_size c = Some (length ch) | [] => False end.

(** What stops the loop. *)
Definition no_char (bad : list Z) : Prop :=
  match bad with
  | [] => True
  | c :: t => match utf8_size c with Some n => (length bad < n)%nat | None => True end
  end.

Lemma utf8_size_pos c n : utf8_size c = Some n -> (1 <= n)%nat.
Proof. unfold utf8_size. repeat case_match; intros [= <-]; lia. Qed.

Lemma utf8_split_ok fuel text :
  (length text <= fuel)%nat ->
  text = concat (utf8_split fuel text).1 ++ (utf8_split fuel text).2 /\
  Forall whole_char (utf8_split fuel text).1 /\ no_char (utf8_split fuel text).2.
Proof.
  revert text. induction fuel as [|fuel IH]; intros text Hf.
  { destruct text; [|cbn in Hf; lia]. by split_and!. }
  destruct text as [|c t]; [by split_and!|]. cbn [utf8_split].
  destruct (utf8_size c) as [n|] eqn:E; [|by split_and!; [|constructor|cbn; rewrite E]].
  destruct (Nat.leb_spec n (length (c :: t))).
  - pose proof (utf8_size_pos c n E) as Hn.
    destruct (IH (drop n (c :: t))) as (H1 & H2 & H3); [rewrite length_drop; cbn in *; lia|].
    cbn [fst snd concat]. split_and!; [|constructor; [|done]|done].
    + by rewrite <-app_assoc, <-H1, take_drop.
    + destruct n as [|n]; [lia|]. cbn [take whole_char length]. rewrite E. f_equal.
      rewrite length_take. cbn in *. lia.
  - split_and!; [done|constructor|]. cbn. rewrite E. done.
Qed.

Lemma copy_bytes_ok n text i bs t a b :
  drop i text = bs ++ t -> length bs = n -> (length a + n <= length b)%nat ->
  copy_bytes text i (a ++ drop (length a) b) (length a) n
  = Ret ((a ++ bs) ++ drop (length (a ++ bs)) b).
Proof.
  revert i bs a. induction n as [|n IH]; intros i bs a Hd Hn Hb.
  { apply nil_length_inv in Hn as ->. cbn. by rewrite app_nil_r. }
  destruct bs as [|c bs]; [done|]. cbn [copy_bytes].
  rewrite (ld_drop text i c (bs ++ t)) by done. cbn [obind].
  rewrite st_over by lia. cbn [obind].
  replace (length a + 1)%nat with (length (a ++ [c])) by (rewrite length_app; cbn; lia).
  assert (a ++ c :: bs = (a ++ [c]) ++ bs) as -> by by rewrite <-app_assoc.
  rewrite (IH (i + 1)%nat bs); [done| |by injection Hn|].
  - by apply (drop_plus text i 1 [c]).
  - rewrite length_app. cbn. lia.
Qed.

Lemma nul_among_ok n text i bs t :
  drop i text = bs ++ t -> length bs = n -> Forall nonzero bs -> nul_among text i n = Ret false.
Proof.
  revert i bs. induction n as [|n IH]; intros i bs Hd Hn Hz; [done|].
  destruct bs as [|c bs]; [done|]. apply List.Forall_cons_iff in Hz as [Hc Hz].
  cbn [nul_among]. rewrite (ld_drop text i c (bs ++ t)) by done. cbn [obind].
  destruct (Z.eqb_spec c 0); [done|]. apply (IH _ bs); [|by injection Hn|done].
  by apply (drop_plus text i 1 [c]).
Qed.

Lemma nul_among_nul n text i bs t :
  drop i text = bs ++ 0 :: t -> (length bs < n)%nat -> nul_among text i n = Ret true.
Proof.
  revert i bs. induction n as [|n IH]; intros i bs Hd Hn; [lia|]. cbn [nul_among].
  destruct bs as [|c bs].
  - by rewrite (ld_drop text i 0 t).
  - rewrite (ld_drop text i c (bs ++ 0 :: t)) by done. cbn [obind].
    destruct (c =? 0); [done|]. apply (IH _ bs); [|cbn in Hn; lia]. by apply (drop_plus text i 1 [c]).
Qed.

Lemma shown_prefix w chars : exists later, chars = shown w chars ++ later.
Proof.
  revert w. induction chars as [|ch chars IH]; intros w; cbn [shown]; [by exists []|].
  destruct (0 <? w); [|by exists (ch :: chars)].
  destruct (IH (w - char_width ch)) as [later H]. exists later. cbn. by f_equal.
Qed.

Definition last_length (sh : list (list Z)) (n : nat) : nat :=
  match list.last sh with Some ch => length ch | None => n end.

Lemma last_length_cons ch sh n : last_length (ch :: sh) n = last_length sh (length ch).
Proof. unfold last_length. destruct sh as [|d sh]; [done|]. rewrite last_cons_cons. by destruct (list.last (d :: sh)) eqn:E; [|apply last_None in E]. Qed.

(** The loop takes the characters shown and stops. *)
Lemma trunc_loop_ok fuel text in_len mw rest bad out0 : forall chars cur a l,
  (length chars < fuel)%nat -> text = a ++ concat chars ++ bad ++ 0 :: rest ->
  in_len = Z.of_nat (length (a ++ concat chars ++ bad)) -> in_len < 2 ^ 31 ->
  0 <= mw < 2 ^ 31 -> Forall whole_char chars -> no_char bad ->
  Forall nonzero (concat chars ++ bad) -> (length (a ++ concat chars) <= length out0)%nat ->
  trunc_loop fuel text in_len mw cur (length a) (length a) l (a ++ drop (length a) out0) =
  let a' := a ++ concat (shown (mw - cur) chars) in
  Ret (length a', length a', last_length (shown (mw - cur) chars) l, a' ++ drop (length a') out0).
Proof.
  assert (forall z, 0 <= z < 2 ^ 31 -> u64 z = z) as U by (intros; apply Z.mod_small; lia).
  induction fuel as [|fuel IH]; intros chars cur a l Hf Ht Hin H31 Hmw Hch Hbad Hz Hout; [lia|].
  cbn [trunc_loop]. rewrite !U by (rewrite ?Hin in *; lia).
  destruct chars as [|ch chars].
  { cbn [concat shown app] in *. rewrite app_nil_r. cbn zeta. unfold last_length. cbn [list.last].
    destruct (cur <? mw); [|done]. cbn [andb]. rewrite Hin, length_app.
    destruct bad as [|c bad].
    { cbn [length]. by destruct (Z.ltb_spec (Z.of_nat (length a)) (Z.of_nat (length a + 0))); [lia|]. }
    destruct (Z.ltb_spec (Z.of_nat (length a)) (Z.of_nat (length a + length (c :: bad)))); [|done].
    assert (drop (length a) text = c :: bad ++ 0 :: rest) as Hd by by rewrite Ht, drop_app_length.
    rewrite (ld_drop text (length a) c _ Hd). cbn [obind]. cbn [no_char] in Hbad.
    destruct (utf8_size c) as [n|] eqn:E; [|done].
    rewrite (nul_among_nul (n - 1) text _ bad rest); [done| |cbn in Hbad; lia].
    by apply (drop_plus text (length a) 1 [c]). }
  cbn [shown]. destruct (Z.ltb_spec cur mw) as [Hw|Hw].
  2: { destruct (Z.ltb_spec 0 (mw - cur)); [lia|]. cbn. by rewrite app_nil_r. }
  destruct (Z.ltb_spec 0 (mw - cur)); [|lia]. cbn [andb].
  apply List.Forall_cons_iff in Hch as [Hc Hch]. destruct ch as [|c t]; [done|]. cbn [whole_char] in Hc.
  cbn [concat] in *. rewrite !length_app in Hin. cbn [length] in Hin.
  destruct (Z.ltb_spec (Z.of_nat (length a)) in_len); [|lia].
  assert (drop (length a) text = (c :: t) ++ concat chars ++ bad ++ 0 :: rest) as Hd
    by by rewrite Ht, drop_app_length, <-app_assoc.
  rewrite (ld_drop text (length a) c _ Hd). cbn [obind]. rewrite Hc.
  rewrite <-app_assoc in Hz. apply Forall_app in Hz as [Hzc Hz].
  apply List.Forall_cons_iff in Hzc as [_ Hzt].
  rewrite (nul_among_ok _ text _ t (concat chars ++ bad ++ 0 :: rest));
    [|by apply (drop_plus text (length a) 1 [c])|cbn; lia|done].
  cbn [obind]. rewrite length_app in Hout. rewrite length_app in Hout.
  rewrite (copy_bytes_ok _ text _ (c :: t) _ a out0 Hd eq_refl) by lia. cbn [obind].
  rewrite <-(length_app a (c :: t)). rewrite (IH chars).
  - cbn zeta. fold (char_width (c :: t)). rewrite last_length_cons.
    rewrite !(app_assoc a (c :: t)).
    by replace (mw - (cur + char_width (c :: t))) with (mw - cur - char_width (c :: t)) by lia.
  - cbn in Hf. lia.
  - rewrite Ht. by rewrite <-!app_assoc.
  - rewrite Hin, !length_app. cbn [length]. lia.
  - done.
  - done.
  - done.
  - done.
  - done.
  - rewrite !length_app in *. cbn [length] in *. lia.
Qed.

Lemma whole_char_length ch : whole_char ch -> (1 <= length ch)%nat.
Proof. destruct ch; cbn; [done|]. lia. Qed.

Lemma whole_chars_nil later : Forall whole_char later -> concat later = [] -> later = [].
Proof.
  destruct 1 as [|ch later Hch _]; [done|]. apply whole_char_length in Hch.
  cbn. intros [-> _]%app_eq_nil. cbn in Hch. lia.
Qed.

Lemma kept_length sh :
  Forall whole_char sh ->
  length (concat (kept sh)) =
    (if (last_length sh 0 <? length (concat sh))%nat
     then length (concat sh) - last_length sh 0 else length (concat sh))%nat /\
  exists d, concat sh = concat (kept sh) ++ d.
Proof.
  intros H. destruct sh as [|c1 [|c2 sh]]; cbn [kept].
  - split; [done|]. by exists [].
  - unfold last_length. cbn [list.last concat]. rewrite app_nil_r. destruct (Nat.ltb_spec (length c1) (length c1)); [lia|].
    split; [done|]. exists []. by rewrite app_nil_r.
  - destruct (exists_last (l := c1 :: c2 :: sh) ltac:(done)) as (l & d & E). rewrite E in *.
    rewrite removelast_last, concat_app. cbn [concat]. rewrite app_nil_r.
    unfold last_length. rewrite last_snoc, length_app.
    assert (1 <= length (concat l))%nat as Hl.
    { destruct l as [|x l]; [done|]. apply Forall_app in H as [[Hx _]%List.Forall_cons_iff _].
      apply whole_char_length in Hx. cbn. rewrite length_app. lia. }
    destruct (Nat.ltb_spec (length d) (length (concat l) + length d)); [|lia].
    split; [lia|]. by exists d.
Qed.

Lemma Utf8StringTrunc_ok text rest w out0 :
  Forall nonzero text -> Z.of_nat (length text) < 2 ^ 31 -> 0 <= w < 2 ^ 31 ->
  length out0 = (length text + 3)%nat ->
  exists junk, Utf8StringTrunc (text ++ 0 :: rest) (Z.of_nat (length text)) w out0
    = Ret (displayed w text ++ 0 :: junk).
Proof.
  intros Hz H31 Hw Hout. unfold displayed.
  destruct (utf8_split_ok (length text) text) as (Ht & Hch & Hbad); [done|].
  destruct (utf8_split (length text) text) as [chars bad] eqn:Hs. cbn [fst snd] in *. clear Hs.
  destruct (shown_prefix w chars) as [later Hl]. set (sh := shown w chars) in *.
  assert (length text = length (concat sh) + length (concat later) + length bad)%nat as Hlen
    by (rewrite Ht, Hl, concat_app, !length_app; lia).
  unfold Utf8StringTrunc.
  pose proof (trunc_loop_ok (S (length (text ++ 0 :: rest))) (text ++ 0 :: rest) (Z.of_nat (length text))
    w rest bad out0 chars 0 [] 0%nat) as L. cbn [app length drop] in L. rewrite Z.sub_0_r, drop_0 in L.
  assert (length chars <= length text)%nat as Hcl.
  { rewrite Ht, length_app. clear -Hch. induction Hch as [|ch chars Hc _ IH]; [cbn; lia|].
    apply whole_char_length in Hc. cbn [concat length]. rewrite length_app. lia. }
  rewrite L; clear L; try done.
  2: { rewrite length_app. lia. }
  2: { rewrite Ht at 1. by rewrite <-!app_assoc. }
  2: { by rewrite <-Ht. }
  2: { by rewrite <-Ht. }
  2: { rewrite Hout, Hl, concat_app, length_app. lia. }
  fold sh. cbn [obind]. 
  assert (u64 (Z.of_nat (length text)) = Z.of_nat (length text)) as -> by (apply Z.mod_small; lia).
  assert (Forall whole_char later) as Hwl by (rewrite Hl in Hch; by apply Forall_app in Hch as [_ ?]).
  assert (Forall whole_char sh) as Hwsh by (rewrite Hl in Hch; by apply Forall_app in Hch as [? _]).
  assert (length chars = length sh + length later)%nat as Hcs by by rewrite Hl, length_app.
  destruct (Z.ltb_spec (Z.of_nat (length (concat sh))) (Z.of_nat (length text))) as [Hlt|Hge].
  - assert ((length sh =? length chars)%nat && (length bad =? 0)%nat = false) as ->.
    { apply andb_false_iff. destruct (Nat.eqb_spec (length bad) 0); [left|by right].
      apply Nat.eqb_neq. intros E. destruct later; [cbn in Hlen; lia|cbn in Hcs; lia]. }
    destruct (kept_length sh Hwsh) as [<- [d Hd]]. set (k := concat (kept sh)) in *.
    set (b := concat sh ++ drop (length (concat sh)) out0).
    assert (length b = length out0) as Hb by (unfold b; rewrite length_app, length_drop; lia).
    assert (length k <= length (concat sh))%nat as Hk by (rewrite Hd, length_app; lia).
    assert (b = k ++ drop (length k) b) as Ebk.
    { unfold b. rewrite Hd at 1. rewrite <-app_assoc. f_equal. rewrite Hd at 2.
      by rewrite <-app_assoc, drop_app_length. }
    clearbody b. assert (copy_bytes (b! "...") 0 b (length k) 3 =
      Ret ((k ++ b! "...") ++ drop (length (k ++ b! "...")) b)) as ->.
    { rewrite Ebk at 1. apply (copy_bytes_ok 3 _ 0 (b! "...") [] k b); [done|done|lia]. }
    cbn [obind].
    replace (length k + 3)%nat with (length (k ++ b! "...")) by by rewrite length_app.
    rewrite st_over by (rewrite length_app; cbn; lia). rewrite <-app_assoc. cbn [app]. by eexists.
  - assert (concat later = [] /\ bad = []) as [Hc0 ->].
    { split; apply nil_length_inv; lia. }
    apply whole_chars_nil in Hc0 as ->; [|done]. rewrite app_nil_r in Hl.
    assert (length (concat chars) < length out0)%nat as Hc by (rewrite Hl; lia).
    rewrite <-Hl, Nat.eqb_refl. cbn [andb length Nat.eqb obind].
    rewrite st_over by done. rewrite app_nil_r in Ht. rewrite <-Ht.
    rewrite <-app_assoc. cbn [app]. by eexists.
Qed.

(**  x_maxlen never reads or writes outside a buffer, whatever bytes the text holds.
    It takes whole characters (of width 1 for ASCII, 2 for others) until their width
    reaches [max_len] or no character follows, and displays the text when that was all of
    it, otherwise what was taken, less the last character unless it is the only one, and
    "...". *)
Theorem MaxLength_displays {E} text rest max_len malloc :
  Forall nonzero text -> Z.of_nat (length text) < 2 ^ 31 - 3 -> 0 < max_len < 2 ^ 31 ->
  (forall n, length (malloc n) = Z.to_nat n) ->
  exists junk, MaxLength (E := E) (inr (Some (text ++ 0 :: rest), max_len)) malloc =
    Ret (None, mkCSARG (displayed max_len text ++ 0 :: junk) true).
Proof.
  intros Hz Hl Hm Hmal. unfold MaxLength. destruct (Z.leb_spec max_len 0); [lia|].
  rewrite cstr_nonzero_app by done. rewrite !s32_small by lia.
  destruct (Utf8StringTrunc_ok text rest max_len (malloc (Z.of_nat (length text) + 3))) as [junk ->];
    [done|lia|lia|rewrite Hmal; lia|]. by exists junk.
Qed.

Lemma MaxLength_displays_witness :
  exists junk, MaxLength (E := unit) (inr (Some (b! "a" ++ [229; 136; 154] ++ b! "bc" ++ 0 :: []), 3))
    (fun n => replicate (Z.to_nat n) 170) =
    Ret (None, mkCSARG (displayed 3 (b! "a" ++ [229; 136; 154] ++ b! "bc") ++ 0 :: junk) true).
Proof.
  apply (MaxLength_displays (b! "a" ++ [229; 136; 154] ++ b! "bc") []).
  - by repeat (constructor; [by vm_compute|]).
  - by vm_compute.
  - lia.
  - intros n. apply length_replicate.
Defined.

Example displayed_dots : displayed 3 (b! "a" ++ [229; 136; 154] ++ b! "bc") = b! "a...".
Proof. reflexivity. Qed.

(** ** RFeedTime *)

(** The age of an item of at most three days is a number of whole minutes, hours or days. *)
Lemma RFeedTime_recent text now t lt junk :
  Z.quot (atoll text) 1000 = t -> 0 <= t <= now -> now - t < 3 * 24 * 3600 ->
  let m := (now - t) / 60 in
  RFeedTime text now lt junk =
    if m =? 0 then just_now
    else if m <? 60 then format_d m ++ minutes_ago
    else if m <? 1440 then format_d (m / 60) ++ hours_ago
    else format_d (m / 1440) ++ days_ago.
Proof.
  intros Ht H0 H3 m. unfold RFeedTime. rewrite Ht. destruct (Z.ltb_spec t 0); [lia|].
  rewrite Z.quot_div_nonneg by lia. fold m.
  assert (0 <= m < 4320) as Hm.
  { unfold m. split; [apply Z.div_pos; lia|apply Z.div_lt_upper_bound; lia]. }
  rewrite s32_small by lia. rewrite !Z.quot_div_nonneg by lia.
  assert (forall k s, 0 <= k < 10000 -> (length s <= 9)%nat ->
    snprintf 255 (format_d k ++ s) = format_d k ++ s) as Hfit.
  { intros k s Hk Hs. unfold snprintf. apply take_ge. rewrite length_app.
    pose proof (format_d_length 3 k ltac:(lia) ltac:(lia)). lia. }
  assert (0 <= m / 60 < 72) by (split; [apply Z.div_pos; lia|apply Z.div_lt_upper_bound; lia]).
  assert (0 <= m / 1440 < 3) by (split; [apply Z.div_pos; lia|apply Z.div_lt_upper_bound; lia]).
  change (24 * 60) with 1440. change (3 * 24 * 60) with 4320.
  destruct (Z.leb_spec m 0), (Z.eqb_spec m 0); try lia; [done|].
  destruct (Z.ltb_spec m 60); [apply Hfit; [lia|by apply Nat.leb_le]|].
  destruct (Z.ltb_spec m 1440); [apply Hfit; [lia|by apply Nat.leb_le]|].
  destruct (Z.geb_spec m 1440); [|lia]. destruct (Z.ltb_spec m 4320); [|lia].
  apply Hfit; [lia|by apply Nat.leb_le].
Qed.

(** For an older item [strftime] is told the size of a pointer, so that the string
    returned is whatever the memory contains. *)
Lemma RFeedTime_old text now t lt junk :
  Z.quot (atoll text) 1000 = t -> 0 <= t -> 3 * 24 * 3600 <= now - t < 60 * 2 ^ 31 ->
  RFeedTime text now lt junk = junk.
Proof.
  intros Ht H0 H3. unfold RFeedTime. rewrite Ht. destruct (Z.ltb_spec t 0); [lia|].
  rewrite Z.quot_div_nonneg by lia. set (m := (now - t) / 60).
  assert (4320 <= m < 2 ^ 31) as Hm.
  { unfold m. split; [apply Z.div_le_lower_bound; lia|apply Z.div_lt_upper_bound; lia]. }
  rewrite s32_small by lia. change (24 * 60) with 1440. change (3 * 24 * 60) with 4320.
  destruct (Z.leb_spec m 0); [lia|]. destruct (Z.ltb_spec m 60); [lia|].
  destruct (Z.ltb_spec m 1440); [lia|]. destruct (Z.ltb_spec m 4320); [lia|].
  rewrite andb_false_r. by destruct (lt t) as [[[? ?] ?] ?].
Qed.
