(* ===== verification/CgiStrip.v ===== *)
(** cgi_html_ws_strip of src/AdHot/hub/cgi/cgi.c: white space is taken out of a page in
    place, except in tags and in the contents of textarea and pre. *)
From Stdlib Require Import ZArith Lia Bool String.
From stdpp Require Import base list numbers.
From S2P Require Import Prelude Clib CgiString.

(** ** cgi_html_ws_strip *)

(** [STRING] of neo_str.h; the buffer of a string nothing was appended to is NULL, the
    empty list. *)
Record STRING := mkSTRING { str_buf : list Z; str_len : nat }.

(** [do { ch = strchr (ch, '<'); if (ch == NULL) ...; ch++; } while (strncasecmp (ch, tag, ...));
    ch += strlen (tag);] *)
Fixpoint close_tag (fuel : nat) (tag b : list Z) (ch : nat) : outcome (option nat) :=
  match fuel with
  | O => NoFuel
  | S fuel =>
      let! r := strchr 60 (drop ch b) in
      match r with
      | None => Ret None
      | Some d =>
          let ch := (ch + d + 1)%nat in
          let! found := prefix_nocase tag (drop ch b) in
          if found then Ret (Some (ch + length tag)%nat) else close_tag fuel tag b ch
      end
  end.

(** Where the tag that begins before [i] ends, for textarea and pre with its contents. *)
Definition tag_end (b : list Z) (i : nat) : outcome (option nat) :=
  let! textarea := prefix_nocase (b! "textarea") (drop i b) in
  if textarea then close_tag (S (length b)) (b! "/textarea>") b i
  else
    let! pre := prefix_nocase (b! "pre") (drop i b) in
    if pre then close_tag (S (length b)) (b! "/pre>") b i
    else
      let! r := strchr 62 (drop i b) in
      Ret ((fun d => (i + d + 1)%nat) <$> r).

(** [while (o && isspace (buf[o-1])) o--;] *)
Fixpoint back_over_space (b : list Z) (o : nat) : outcome nat :=
  match o with
  | O => Ret O
  | S p => let! c := ld b p in if isspace c then back_over_space b p else Ret o
  end.

Fixpoint ws_loop (fuel : nat) (level : Z) (len : nat) (b : list Z) (i o : nat) (ws seen : bool) :
    outcome STRING :=
  match fuel with
  | O => NoFuel
  | S fuel =>
      if (i <? len)%nat then
        let! c := ld b i in
        if c =? 60 then
          let! b := st b o c in
          let i := (i + 1)%nat in
          let o := (o + 1)%nat in
          let! e := tag_end b i in
          match e with
          | None =>
              let! b := memmove b o i (len - i) in
              let len := (o + (len - i))%nat in
              let! b := st b len 0 in
              Ret (mkSTRING b len)
          | Some ch =>
              let l := (ch - i)%nat in
              let! b := memmove b o i l in
              ws_loop fuel level len b (i + l) (o + l) false true
          end
        else if c =? 10 then
          let! o := back_over_space b o in
          let! b := st b o c in
          ws_loop fuel level len b (i + 1) (o + 1) (level >? 1) (level >? 1)
        else if seen && isspace c then
          if ws then ws_loop fuel level len b (i + 1) o ws seen
          else let! b := st b o c in ws_loop fuel level len b (i + 1) (o + 1) true seen
        else let! b := st b o c in ws_loop fuel level len b (i + 1) (o + 1) false true
      else
        let! b := st b o 0 in
        Ret (mkSTRING b o)
  end.

Definition cgi_html_ws_strip (str : STRING) (level : Z) : outcome STRING :=
  let len := str_len str in
  let! ws := (if (len =? 0)%nat then Ret false else let! c := ld (str_buf str) 0 in Ret (isspace c)) in
  ws_loop (S len) level len (str_buf str) 0 0 ws (level >? 1).


(** ** The reference: the same on lists *)

(** The position of [c] in the C string at the beginning of a text. *)
Fixpoint find_char (c : Z) (l : list Z) : option nat :=
  match l with
  | [] => None
  | x :: l => if x =? c then Some 0%nat else if x =? 0 then None else S <$> find_char c l
  end.

Fixpoint starts_nocase (lit l : list Z) : bool :=
  match lit, l with
  | [], _ => true
  | _ :: _, [] => false
  | c :: lit, x :: l => (tolower x =? c) && starts_nocase lit l
  end.

(** The length of a text up to the end of [tag], which must follow a '<'. *)
Fixpoint find_close (fuel : nat) (tag l : list Z) : option nat :=
  match fuel, find_char 60 l with
  | S fuel, Some d =>
      let l := drop (d + 1) l in
      if starts_nocase tag l then Some (d + 1 + length tag)%nat
      else (fun n => (d + 1 + n)%nat) <$> find_close fuel tag l
  | _, _ => None
  end.

(** The length of the rest of a tag, with the contents of textarea and pre. *)
Definition tag_length (l : list Z) : option nat :=
  if starts_nocase (b! "textarea") l then find_close (S (length l)) (b! "/textarea>") l
  else if starts_nocase (b! "pre") l then find_close (S (length l)) (b! "/pre>") l
  else S <$> find_char 62 l.

(** A text without the white space at its end. *)
Fixpoint rstrip (l : list Z) : list Z :=
  match l with
  | [] => []
  | c :: l => match rstrip l with [] => if isspace c then [] else [c] | r => c :: r end
  end.

(** The page: [out] is what has been kept, [page] what follows. *)
Fixpoint strip_page (fuel : nat) (level : Z) (out page : list Z) (ws seen : bool) : list Z :=
  match fuel, page with
  | S fuel, c :: page =>
      if c =? 60 then
        match tag_length page with
        | None => out ++ c :: page
        | Some n => strip_page fuel level (out ++ c :: take n page) (drop n page) false true
        end
      else if c =? 10 then strip_page fuel level (rstrip out ++ [c]) page (level >? 1) (level >? 1)
      else if seen && isspace c then
        if ws then strip_page fuel level out page ws seen
        else strip_page fuel level (out ++ [c]) page true seen
      else strip_page fuel level (out ++ [c]) page false true
  | _, _ => out
  end.

(** The page as the function strips it. *)
Definition stripped (level : Z) (page : list Z) : list Z :=
  strip_page (length page) level [] page
    (match page with c :: _ => isspace c | [] => false end) (level >? 1).

(** ** Lemmas: searching *)

Lemma strchr_find c l t : c <> 0 -> strchr c (l ++ 0 :: t) = Ret (find_char c l).
Proof.
  intros Hc. induction l as [|x l IH]; cbn [app strchr find_char].
  - by destruct (Z.eqb_spec 0 c).
  - destruct (x =? c); [done|]. destruct (x =? 0); [done|]. by rewrite IH.
Qed.

Lemma prefix_starts lit l t :
  Forall nonzero lit -> prefix_nocase lit (l ++ 0 :: t) = Ret (starts_nocase lit l).
Proof.
  intros H. revert l. induction H as [|c lit Hc _ IH]; intros l; [by destruct l|].
  destruct l as [|x l]; cbn [prefix_nocase starts_nocase app].
  - change (tolower 0) with 0. by destruct (Z.eqb_spec 0 c); [subst|].
  - destruct (tolower x =? c); [apply IH|done].
Qed.

Lemma find_char_bound c l n : find_char c l = Some n -> (n < length l)%nat.
Proof.
  revert n. induction l as [|x l IH]; intros n; [done|]. cbn [find_char].
  destruct (x =? c); [intros [= <-]; cbn; lia|]. destruct (x =? 0); [done|].
  destruct (find_char c l); [|done]. intros [= <-]. specialize (IH _ eq_refl). cbn. lia.
Qed.

Lemma starts_bound lit l : starts_nocase lit l = true -> (length lit <= length l)%nat.
Proof.
  revert l. induction lit as [|c lit IH]; intros [|x l]; cbn; try (done || lia).
  intros [_ H]%andb_true_iff. specialize (IH l H). lia.
Qed.

Lemma find_close_bound fuel tag l n : find_close fuel tag l = Some n -> (n <= length l)%nat.
Proof.
  revert l n. induction fuel as [|fuel IH]; intros l n; [done|]. cbn [find_close].
  destruct (find_char 60 l) as [d|] eqn:E; [|done]. apply find_char_bound in E.
  destruct (starts_nocase tag (drop (d + 1) l)) eqn:T.
  - apply starts_bound in T. rewrite length_drop in T. intros [= <-]. lia.
  - destruct (find_close fuel tag (drop (d + 1) l)) as [m|] eqn:F; [|done].
    apply IH in F. rewrite length_drop in F. intros [= <-]. lia.
Qed.

Lemma tag_length_bound l n : tag_length l = Some n -> (n <= length l)%nat.
Proof.
  unfold tag_length. destruct (starts_nocase _ l); [apply find_close_bound|].
  destruct (starts_nocase _ l); [apply find_close_bound|].
  destruct (find_char 62 l) eqn:E; [|done]. apply find_char_bound in E. intros [= <-]. lia.
Qed.

Lemma find_close_fuel f1 : forall f2 tag l,
  (length l < f1)%nat -> (length l < f2)%nat -> find_close f1 tag l = find_close f2 tag l.
Proof.
  induction f1 as [|f1 IH]; intros [|f2] tag l H1 H2; try lia. cbn [find_close].
  destruct (find_char 60 l) as [d|] eqn:E; [|done]. apply find_char_bound in E.
  rewrite (IH f2); [done|rewrite length_drop; lia..].
Qed.

Lemma close_tag_ok fuel tag b t : forall l ch,
  Forall nonzero tag -> drop ch b = l ++ 0 :: t -> (length l < fuel)%nat ->
  close_tag fuel tag b ch = Ret ((fun n => (ch + n)%nat) <$> find_close fuel tag l).
Proof.
  induction fuel as [|fuel IH]; intros l ch Ht Hd Hf; [lia|]. cbn [close_tag find_close].
  rewrite Hd, strchr_find by done. cbn [obind].
  destruct (find_char 60 l) as [d|] eqn:E; [|done]. apply find_char_bound in E.
  assert (drop (ch + d + 1) b = drop (d + 1) l ++ 0 :: t) as Hd'.
  { rewrite <-Nat.add_assoc, <-drop_drop, Hd. rewrite drop_app_le by lia. done. }
  rewrite Hd', prefix_starts by done. cbn [obind].
  destruct (starts_nocase tag (drop (d + 1) l)).
  - cbn. by rewrite !Nat.add_assoc.
  - rewrite (IH _ _ Ht Hd') by (rewrite length_drop; lia). destruct (find_close _ _ _); cbn; [|done].
    by rewrite !Nat.add_assoc.
Qed.

Lemma tag_end_ok b i l t :
  drop i b = l ++ 0 :: t -> tag_end b i = Ret ((fun n => (i + n)%nat) <$> tag_length l).
Proof.
  intros Hd. unfold tag_end, tag_length.
  assert (length l < length b)%nat as Hl.
  { apply (f_equal length) in Hd. rewrite length_drop, length_app in Hd. cbn in Hd. lia. }
  assert (forall lit, forallb (fun c => negb (c =? 0)) lit = true -> Forall nonzero lit) as Hnz.
  { intros lit H. apply List.Forall_forall. intros c Hc. rewrite forallb_forall in H.
    specialize (H c Hc). unfold nonzero. lia. }
  rewrite Hd, prefix_starts by by apply Hnz. cbn [obind].
  destruct (starts_nocase _ l).
  { rewrite (close_tag_ok _ _ _ t l) by (first [by apply Hnz|done|lia]). f_equal. f_equal.
    apply find_close_fuel; lia. }
  rewrite prefix_starts by by apply Hnz. cbn [obind]. destruct (starts_nocase _ l).
  { rewrite (close_tag_ok _ _ _ t l) by (first [by apply Hnz|done|lia]). f_equal. f_equal.
    apply find_close_fuel; lia. }
  rewrite strchr_find by done. cbn [obind]. destruct (find_char 62 l); cbn; [|done].
  do 2 f_equal. lia.
Qed.

(** ** Lemmas: the buffer *)

(** The buffer begins with [out]. *)
Definition begins (b out : list Z) : Prop := take (length out) b = out.

Lemma begins_length b out : begins b out -> (length out <= length b)%nat.
Proof. intros H. apply (f_equal length) in H. rewrite length_take in H. lia. Qed.

Lemma begins_st b out v :
  begins b out -> (length out < length b)%nat ->
  exists b', st b (length out) v = Ret b' /\ begins b' (out ++ [v]) /\ length b' = length b /\
    forall j, (length out < j)%nat -> drop j b' = drop j b.
Proof.
  intros H Hl. unfold st. destruct (Nat.ltb_spec (length out) (length b)); [|lia].
  eexists. split_and!; [done| |apply length_insert|].
  - unfold begins in *. rewrite length_app. cbn [length]. rewrite Nat.add_1_r.
    erewrite take_S_r; [|by apply list_lookup_insert_eq]. by rewrite take_insert_ge, H by done.
  - intros j Hj. by rewrite drop_insert_lt by done.
Qed.

Lemma drop_mem_write {A} (b : list A) o bs j :
  (o + length bs <= length b)%nat -> (o + length bs <= j)%nat ->
  drop j (mem_write b o bs) = drop j b.
Proof.
  intros Hb Hj. unfold mem_write. rewrite app_assoc.
  rewrite drop_app_ge by (rewrite length_app, length_take; lia).
  rewrite drop_drop, length_app, length_take. f_equal. lia.
Qed.

Lemma begins_memmove b out i l page :
  begins b out -> (length out <= i)%nat -> (i + l <= length b)%nat -> take l (drop i b) = page ->
  exists b', memmove b (length out) i l = Ret b' /\ begins b' (out ++ page) /\ length b' = length b /\
    forall j, (i + l <= j)%nat -> drop j b' = drop j b.
Proof.
  intros H Hi Hb Hp. unfold memmove.
  destruct (Nat.leb_spec (i + l) (length b)); [|lia].
  destruct (Nat.leb_spec (length out + l) (length b)); [|lia]. cbn [andb].
  assert (slice b i (i + l) = page) as -> by (unfold slice; by replace (i + l - i)%nat with l by lia).
  assert (length page = l) as Hl by (rewrite <-Hp, length_take, length_drop; lia).
  eexists. split_and!; [done| |apply length_mem_write; lia|].
  - unfold begins in *. rewrite length_app, take_mem_write by lia. by rewrite H.
  - intros j Hj. apply drop_mem_write; lia.
Qed.

Lemma begins_app b out t : begins b (out ++ t) -> begins b out.
Proof.
  unfold begins. intros H. apply (f_equal (take (length out))) in H.
  rewrite take_take, length_app, Nat.min_l in H by lia. by rewrite take_app_length in H.
Qed.

Lemma rstrip_snoc l c : rstrip (l ++ [c]) = if isspace c then rstrip l else l ++ [c].
Proof.
  induction l as [|x l IH]; cbn [app rstrip]; [done|]. rewrite IH. destruct (isspace c); [done|].
  by destruct l.
Qed.

Lemma begins_snoc b out c : begins b (out ++ [c]) -> ld b (length out) = Ret c.
Proof.
  unfold begins. intros H. apply ld_lookup. apply (f_equal (.!! length out)) in H.
  rewrite lookup_take_lt in H by (rewrite length_app; cbn; lia).
  by rewrite lookup_app_r, Nat.sub_diag in H.
Qed.

Lemma back_over_space_ok b out :
  begins b out ->
  back_over_space b (length out) = Ret (length (rstrip out)) /\ begins b (rstrip out).
Proof.
  induction out as [|c out IH] using rev_ind; intros H; [done|].
  rewrite length_app, Nat.add_1_r. cbn [back_over_space].
  rewrite (begins_snoc b out c H). cbn [obind]. rewrite rstrip_snoc.
  destruct (isspace c); [apply IH; by eapply begins_app|].
  split; [|done]. by rewrite length_app, Nat.add_1_r.
Qed.

Lemma rstrip_length l : (length (rstrip l) <= length l)%nat.
Proof. induction l as [|c l IH]; cbn; [lia|]. destruct (rstrip l); [destruct (isspace c)|]; cbn in *; lia. Qed.

(** A string holds [page], with [page] any bytes. *)
Definition holds_page (str : STRING) (page : list Z) : Prop :=
  str_len str = length page /\ begins (str_buf str) (page ++ [0]).

Lemma holds_finish b out :
  begins b out -> (length out < length b)%nat ->
  exists b', st b (length out) 0 = Ret b' /\ length b' = length b /\
    holds_page (mkSTRING b' (length out)) out.
Proof.
  intros H Hl. destruct (begins_st b out 0 H Hl) as (b' & E & Hb & Hl' & _). exists b'. by split_and!.
Qed.

(** ** The function is the reference *)

Lemma ws_loop_ok fuel level rest : forall page b i out ws seen,
  (length page < fuel)%nat -> begins b out -> (length out <= i)%nat ->
  drop i b = page ++ 0 :: rest ->
  exists b', ws_loop fuel level (i + length page) b i (length out) ws seen
    = Ret (mkSTRING b' (length (strip_page (length page) level out page ws seen))) /\
    length b' = length b /\
    holds_page (mkSTRING b' (length (strip_page (length page) level out page ws seen)))
      (strip_page (length page) level out page ws seen).
Proof.
  enough (forall k page b i out ws seen,
  (length page < fuel)%nat -> (length page <= k)%nat -> begins b out -> (length out <= i)%nat ->
  drop i b = page ++ 0 :: rest ->
  exists b', ws_loop fuel level (i + length page) b i (length out) ws seen
    = Ret (mkSTRING b' (length (strip_page k level out page ws seen))) /\
    length b' = length b /\
    holds_page (mkSTRING b' (length (strip_page k level out page ws seen)))
      (strip_page k level out page ws seen)) as H by (intros; by apply H).
  induction fuel as [|fuel IH]; intros k page b i out ws seen Hf Hk Hb Hi Hd; [lia|].
  assert (i + length page < length b)%nat as Hlb.
  { apply (f_equal length) in Hd. rewrite length_drop, length_app in Hd. cbn in Hd. lia. }
  cbn [ws_loop]. destruct page as [|c page].
  { cbn [length]. destruct (Nat.ltb_spec i (i + 0)); [lia|].
    assert (strip_page k level out [] ws seen = out) as -> by by destruct k.
    destruct (holds_finish b out Hb) as (b' & -> & ? & ?); [lia|]. by exists b'. }
  cbn [length] in *. destruct k as [|k]; [lia|]. cbn [strip_page].
  destruct (Nat.ltb_spec i (i + S (length page))); [|lia].
  rewrite (ld_drop b i c _ Hd). cbn [obind].
  assert (drop (i + 1) b = page ++ 0 :: rest) as Hd1 by by apply (drop_plus b i 1 [c]).
  (* one byte is kept and the loop goes on *)
  assert (forall out' ws' seen', begins b out' -> (length out' <= i)%nat ->
    exists b', (let! b := st b (length out') c in
                ws_loop fuel level (i + S (length page)) b (i + 1) (length out' + 1) ws' seen')
      = Ret (mkSTRING b' (length (strip_page k level (out' ++ [c]) page ws' seen'))) /\
      length b' = length b /\
      holds_page (mkSTRING b' (length (strip_page k level (out' ++ [c]) page ws' seen')))
        (strip_page k level (out' ++ [c]) page ws' seen')) as Keep.
  { intros out' ws' seen' Hb' Ho'.
    destruct (begins_st b out' c Hb') as (b' & -> & Hb1 & Hl1 & Hdr); [lia|]. cbn [obind].
    destruct (IH k page b' (i + 1)%nat (out' ++ [c]) ws' seen') as (b2 & E & Hl2 & Hh);
      [lia|lia|done|rewrite length_app; cbn; lia|by rewrite Hdr by lia|].
    exists b2. rewrite length_app in E. cbn [length] in E.
    replace (i + 1 + length page)%nat with (i + S (length page))%nat in E by lia.
    rewrite E, Hl2, Hl1. done. }
  destruct (Z.eqb_spec c 60) as [->|].
  { destruct (begins_st b out 60 Hb) as (b1 & -> & Hb1 & Hl1 & Hdr1); [lia|]. cbn [obind].
    assert (drop (i + 1) b1 = page ++ 0 :: rest) as Hd2 by by rewrite Hdr1 by lia.
    rewrite (tag_end_ok b1 (i + 1) page rest Hd2). cbn [obind].
    replace (length out + 1)%nat with (length (out ++ [60])) by by rewrite length_app.
    destruct (tag_length page) as [n|] eqn:Et; cbn [fmap option_fmap option_map].
    - pose proof (tag_length_bound page n Et) as Hn.
      replace (i + 1 + n - (i + 1))%nat with n by lia.
      destruct (begins_memmove b1 (out ++ [60]) (i + 1) n (take n page)) as (b2 & -> & Hb2 & Hl2 & Hdr2);
        [done|rewrite length_app; cbn; lia|lia|by rewrite Hd2, take_app_le by lia|]. cbn [obind].
      assert (drop (i + 1 + n) b2 = drop n page ++ 0 :: rest) as Hd3.
      { rewrite Hdr2 by lia. rewrite <-drop_drop, Hd2. by rewrite drop_app_le by lia. }
      destruct (IH k (drop n page) b2 (i + 1 + n)%nat (out ++ 60 :: take n page) false true)
        as (b3 & E & Hl3 & Hh); [rewrite length_drop; lia|rewrite length_drop; lia| | |done|].
      { by rewrite <-app_assoc in Hb2. }
      { rewrite length_app. cbn [length]. rewrite length_take. lia. }
      exists b3. rewrite length_drop, !length_app in E. cbn [length] in E. rewrite length_take in E.
      replace (i + 1 + n + (length page - n))%nat with (i + S (length page))%nat in E by lia.
      rewrite length_app. cbn [length].
      replace (length out + 1 + n)%nat with (length out + S (n `min` length page))%nat by lia.
      rewrite E, Hl3, Hl2, Hl1. done.
    - replace (i + S (length page) - (i + 1))%nat with (length page) by lia.
      destruct (begins_memmove b1 (out ++ [60]) (i + 1) (length page) page) as (b2 & -> & Hb2 & Hl2 & Hdr2);
        [done|rewrite length_app; cbn; lia|lia|by rewrite Hd2, take_app_length|]. cbn [obind].
      rewrite <-length_app, <-app_assoc. rewrite <-app_assoc in Hb2. cbn [app] in *.
      destruct (holds_finish b2 _ Hb2) as (b3 & -> & Hl3 & Hh).
      { rewrite length_app. cbn [length]. lia. }
      exists b3. cbn [obind]. rewrite Hl3, Hl2, Hl1. done. }
  destruct (Z.eqb_spec c 10) as [->|].
  { destruct (back_over_space_ok b out Hb) as [-> Hb']. cbn [obind]. apply Keep; [done|].
    pose proof (rstrip_length out). lia. }
  destruct (seen && isspace c); [|by apply Keep]. destruct ws; [|by apply Keep].
  replace (i + S (length page))%nat with (i + 1 + length page)%nat by lia.
  apply IH; [lia|lia|done|lia|done].
Qed.

(** ** What stripping keeps *)

Definition solid (l : list Z) : list Z := List.filter (fun c => negb (isspace c)) l.

Lemma solid_app a b : solid (a ++ b) = solid a ++ solid b.
Proof. apply List.filter_app. Qed.

Lemma rstrip_split l : exists d, l = rstrip l ++ d /\ solid d = [].
Proof.
  induction l as [|c l (d & IH & Hd)]; cbn [rstrip]; [by exists []|].
  destruct (rstrip l) as [|x r] eqn:E.
  - destruct (isspace c) eqn:Hc; [exists (c :: d)|exists d]; cbn in IH; subst l; [|done].
    split; [done|]. cbn. by rewrite Hc.
  - exists d. cbn in *. by rewrite <-IH.
Qed.

Lemma solid_rstrip l : solid (rstrip l) = solid l.
Proof. destruct (rstrip_split l) as (d & E & Hd). rewrite E at 2. by rewrite solid_app, Hd, app_nil_r. Qed.

(** No character but white space is lost, and nothing is added. *)
Lemma strip_page_solid k level : forall out page ws seen,
  (length page <= k)%nat ->
  solid (strip_page k level out page ws seen) = solid out ++ solid page /\
  (length (strip_page k level out page ws seen) <= length out + length page)%nat.
Proof.
  induction k as [|k IH]; intros out page ws seen Hk.
  { destruct page; [|cbn in Hk; lia]. cbn. rewrite app_nil_r. split; [done|lia]. }
  destruct page as [|c page]; cbn [strip_page length] in *.
  { rewrite app_nil_r. split; [done|lia]. }
  assert (forall out' t p ws' seen', solid out' ++ solid t ++ solid p = solid out ++ solid (c :: page) ->
    (length out' + length t + length p <= length out + S (length page))%nat -> (length p <= k)%nat ->
    solid (strip_page k level (out' ++ t) p ws' seen') = solid out ++ solid (c :: page) /\
    (length (strip_page k level (out' ++ t) p ws' seen') <= length out + S (length page))%nat) as Go.
  { intros out' t p ws' seen' Hs Hl Hp. destruct (IH (out' ++ t) p ws' seen' Hp) as [-> H2].
    rewrite solid_app, <-app_assoc, length_app in *. split; [done|lia]. }
  destruct (Z.eqb_spec c 60) as [->|].
  { destruct (tag_length page) as [n|] eqn:E.
    - pose proof (tag_length_bound page n E). apply Go.
      + f_equal. rewrite <-solid_app. cbn [app]. by rewrite take_drop.
      + cbn [length]. rewrite length_take, length_drop. lia.
      + rewrite length_drop. lia.
    - rewrite solid_app, length_app. split; [done|]. cbn [length]. lia. }
  destruct (Z.eqb_spec c 10) as [->|].
  { apply Go; [by rewrite solid_rstrip|pose proof (rstrip_length out); cbn [length]; lia|lia]. }
  destruct (seen && isspace c) eqn:Hsp.
  - apply andb_true_iff in Hsp as [-> Hc]. destruct ws.
    + rewrite <-(app_nil_r out) at 1 3. apply Go; [|cbn; lia|lia]. cbn. by rewrite Hc.
    + apply Go; [|cbn; lia|lia]. by rewrite <-solid_app.
  - apply Go; [|cbn; lia|lia]. by rewrite <-solid_app.
Qed.

(** No white space before the end of a line. *)
Definition tidy (l : list Z) : Prop :=
  forall i, l !! S i = Some 10 -> exists c, l !! i = Some c /\ isspace c = false.

Lemma tidy_snoc l c : tidy l -> (c = 10 -> rstrip l = l) -> tidy (l ++ [c]).
Proof.
  intros H Hc i Hi. destruct (decide (S i < length l)%nat) as [Hlt|Hge].
  - rewrite lookup_app_l in Hi by done. destruct (H i Hi) as (x & Hx & ?). exists x.
    rewrite lookup_app_l by lia. done.
  - apply lookup_app_Some in Hi as [Hi|[Hl Hi]].
    { apply lookup_lt_Some in Hi. lia. }
    assert (S i = length l) as Hi' by (apply lookup_lt_Some in Hi; cbn in Hi; lia).
    rewrite Hi', Nat.sub_diag in Hi. injection Hi as ->. specialize (Hc eq_refl).
    destruct l as [|x l _] using rev_ind; [done|]. rewrite rstrip_snoc in Hc.
    rewrite length_app, Nat.add_1_r in Hi'. injection Hi' as ->.
    exists x. rewrite <-app_assoc. rewrite lookup_app_r, Nat.sub_diag by done. split; [done|].
    destruct (isspace x); [|done]. apply (f_equal length) in Hc. pose proof (rstrip_length l).
    rewrite length_app in Hc. cbn in Hc. lia.
Qed.

Lemma tidy_rstrip l : tidy l -> tidy (rstrip l).
Proof.
  intros H. destruct (rstrip_split l) as (d & E & _). rewrite E in H. intros i Hi.
  destruct (H i) as (c & Hc & ?); [by apply lookup_app_l_Some|]. exists c. split; [|done].
  apply lookup_lt_Some in Hi. by rewrite lookup_app_l in Hc by lia.
Qed.

Lemma rstrip_idem l : rstrip (rstrip l) = rstrip l.
Proof.
  induction l as [|c l IH]; cbn [rstrip]; [done|].
  destruct (rstrip l) as [|x r] eqn:E; [|cbn [rstrip] in *; by rewrite IH].
  destruct (isspace c) eqn:Hc; [done|]. cbn. by rewrite Hc.
Qed.

Lemma strip_page_tidy k level : forall out page ws seen,
  Forall (fun c => c <> 60) page -> tidy out -> tidy (strip_page k level out page ws seen).
Proof.
  induction k as [|k IH]; intros out page ws seen Hp Ho; [done|].
  destruct page as [|c page]; [done|]. cbn [strip_page].
  apply List.Forall_cons_iff in Hp as [Hc Hp]. destruct (Z.eqb_spec c 60); [done|].
  destruct (Z.eqb_spec c 10).
  - apply IH; [done|]. apply tidy_snoc; [by apply tidy_rstrip|]. intros _. apply rstrip_idem.
  - destruct (seen && isspace c); [destruct ws|]; apply IH; try done; by apply tidy_snoc.
Qed.

Lemma cgi_html_ws_strip_ok str level page rest :
  str_len str = length page -> str_buf str = page ++ 0 :: rest ->
  exists str', cgi_html_ws_strip str level = Ret str' /\ holds_page str' (stripped level page) /\
    length (str_buf str') = length (str_buf str).
Proof.
  intros Hl Hb. unfold cgi_html_ws_strip, stripped. rewrite Hl.
  assert ((if (length page =? 0)%nat then Ret false else let! c := ld (str_buf str) 0 in Ret (isspace c))
    = Ret (match page with c :: _ => isspace c | [] => false end)) as ->
    by (rewrite Hb; by destruct page).
  cbn [obind]. set (ws := match page with c :: _ => isspace c | [] => false end).
  destruct (ws_loop_ok (S (length page)) level rest page (str_buf str) 0 [] ws (level >? 1))
    as (b' & E & Hlb & Hh); [lia|done|done|by rewrite Hb|].
  cbn [length Nat.add] in E. rewrite E. by eexists.
Qed.

(** C28.  cgi_html_ws_strip, which works in place with memmove, gives the page the
    reference gives, within its buffer, for every page, its tags closed or not.  Nothing
    but white space is taken away and nothing is added, and in a page without tags no
    white space is left before the end of a line. *)
Theorem cgi_html_ws_strip_strips str level page rest :
  str_len str = length page -> str_buf str = page ++ 0 :: rest ->
  exists str', cgi_html_ws_strip str level = Ret str' /\ holds_page str' (stripped level page) /\
    length (str_buf str') = length (str_buf str) /\
    solid (stripped level page) = solid page /\
    (length (stripped level page) <= length page)%nat /\
    (Forall (fun c => c <> 60) page -> tidy (stripped level page)).
Proof.
  intros Hl Hb. destruct (cgi_html_ws_strip_ok str level page rest Hl Hb) as (str' & -> & Hh & Hlen).
  exists str'. destruct (strip_page_solid (length page) level [] page
    (match page with c :: _ => isspace c | [] => false end) (level >? 1)) as [Hs Hle]; [done|].
  split_and!; try done. intros Hp. by apply strip_page_tidy.
Qed.

Lemma cgi_html_ws_strip_strips_witness :
  exists str', cgi_html_ws_strip (mkSTRING (b! "  a  b <pre> x </pre>   " ++ [10; 10; 99; 0; 1]) 27) 1 = Ret str' /\
    holds_page str' (stripped 1 (b! "  a  b <pre> x </pre>   " ++ [10; 10; 99])).
Proof.
  destruct (cgi_html_ws_strip_strips (mkSTRING (b! "  a  b <pre> x </pre>   " ++ [10; 10; 99; 0; 1]) 27)
    1 (b! "  a  b <pre> x </pre>   " ++ [10; 10; 99]) [1] eq_refl eq_refl) as (str' & H1 & H2 & _).
  by exists str'.
Defined.

Example stripped_levels :
  stripped 1 (b! "  a  b <pre> x </pre>   " ++ [10; 10; 99]) = b! "  a b <pre> x </pre>" ++ [10; 99] /\
  stripped 2 (b! "  a  b <pre> x </pre>   " ++ [10; 10; 99]) = b! "a b <pre> x </pre>" ++ [10; 99].
Proof. by vm_compute. Qed.

(** A page to which nothing was appended has no buffer to hold the NUL. *)
Lemma cgi_html_ws_strip_null level : cgi_html_ws_strip (mkSTRING [] 0) level = Crash.
Proof. reflexivity. Qed.
