(* ===== verification/CgiHdf.v ===== *)
(** What src/AdHot/hub/cgi/cgi.c uses of ClearSilver: error values (neo_err.h), the data
    set (neo_hdf.h) and the wrapper of the CGI environment (cgiwrap.h).  Their code is not
    part of the repository, so the operations are those of the classes [Hdf] and
    [CgiWrap]; [HdfLaws] states what neo_hdf.h documents of the data set, against a flat
    model of it ([dataset]), and [flat_hdf] is one implementation that obeys it. *)
From Stdlib Require Import ZArith Lia Bool String.
From stdpp Require Import base list numbers.
From S2P Require Import Prelude.

(** ** Errors *)

(** [NERR_TYPE]: the predefined types the code uses, and those registered at run time. *)
Inductive NERR_TYPE :=
  NERR_ASSERT | NERR_NOMEM | NERR_IO | NERR_SYSTEM | NERR_OUTOFRANGE | NERR_registered (n : Z).

#[export] Instance NERR_TYPE_eq_dec : EqDecision NERR_TYPE.
Proof. solve_decision. Defined.

(** [NEOERR *]: the type at the bottom of the chain; [nerr_pass] does not change it. *)
Abbreviation NEOERR := (option NERR_TYPE).
Abbreviation STATUS_OK := (@None NERR_TYPE).
Definition nerr_raise (t : NERR_TYPE) : NEOERR := Some t.
Definition nerr_match (e : NEOERR) (t : NERR_TYPE) : bool := bool_decide (e = Some t).

(** ** The data set *)

Abbreviation bytes := (list Z).

(** A node is known by the names on the way to it from the top. *)
Definition path := list bytes.

(** All nodes but the top one, in the order of their creation, with their values. *)
Definition dataset := list (path * option bytes).

(** Is there a node, and with what value? *)
Fixpoint ds_find (d : dataset) (p : path) : option (option bytes) :=
  match d with
  | [] => None
  | (q, v) :: d => if decide (q = p) then Some v else ds_find d p
  end.

(** The nodes directly below a node. *)
Definition is_child (p : path) (q : path) : bool :=
  match q with [] => false | _ => bool_decide (removelast q = p) end.
Definition ds_children (d : dataset) (p : path) : list path :=
  List.filter (is_child p) (map fst d).

(** A node is created at the end of its level, with no value. *)
Definition ds_touch (d : dataset) (p : path) : dataset :=
  match ds_find d p with Some _ => d | None => d ++ [(p, None)] end.

(** [p ++ names] and the nodes on the way from [p]. *)
Fixpoint ds_make (d : dataset) (p names : path) : dataset :=
  match names with
  | [] => d
  | n :: names => ds_make (ds_touch d (p ++ [n])) (p ++ [n]) names
  end.

Definition ds_update (d : dataset) (p : path) (v : option bytes) : dataset :=
  map (fun e => if decide (e.1 = p) then (p, v) else e) d.

Definition ds_set (d : dataset) (p names : path) (v : option bytes) : dataset :=
  ds_update (ds_make d p names) (p ++ names) v.

(** The names of a dotted name. *)
Fixpoint split_dots (n : bytes) : path :=
  match n with
  | [] => [[]]
  | c :: n =>
      match split_dots n with
      | w :: ws => if c =? 46 then [] :: w :: ws else (c :: w) :: ws
      | [] => [[c]]
      end
  end.

(** Names that walk somewhere. *)
Definition good_name (n : bytes) : Prop := Forall (fun w => w <> []) (split_dots n).
#[export] Instance good_name_dec n : Decision (good_name n).
Proof. apply _. Defined.

(** The node at the first level that a walk from [p] by [n] enters. *)
Definition entered (p : path) (n : bytes) : option bytes :=
  match p with c :: _ => Some c | [] => head (split_dots n) end.

(** The operations.  A pointer to a node is its path: the code neither moves nor removes
    nodes.  Values and names are C strings. *)
Class Hdf := {
  hdf_t : Type;
  hdf_empty : hdf_t;
  hdf_get_value : hdf_t -> path -> bytes -> option bytes -> option bytes;
  hdf_get_int_value : hdf_t -> path -> bytes -> Z -> Z;
  hdf_get_copy : hdf_t -> path -> bytes -> NEOERR * option bytes;
  hdf_get_obj : hdf_t -> path -> bytes -> option path;
  hdf_obj_child : hdf_t -> path -> option path;
  hdf_obj_next : hdf_t -> path -> option path;
  hdf_obj_value : hdf_t -> path -> option bytes;
  hdf_set_value : hdf_t -> path -> bytes -> option bytes -> NEOERR * hdf_t;
  hdf_set_buf : hdf_t -> path -> bytes -> bytes -> NEOERR * hdf_t;
  hdf_set_int_value : hdf_t -> path -> bytes -> Z -> NEOERR * hdf_t;
  hdf_dump_str : hdf_t -> NEOERR * bytes;
  (** the data set as the header file describes it *)
  hdf_data : hdf_t -> dataset
}.

(** What the header file says, of a data set without symbolic links (the code makes none)
    and while there is memory. *)
Class HdfLaws (H : Hdf) : Prop := {
  hdf_get_value_law s p n def v :
    good_name n -> ds_find (hdf_data s) (p ++ split_dots n) = Some (Some v) ->
    hdf_get_value s p n def = Some v;
  hdf_get_value_none_law s p n def :
    good_name n -> ds_find (hdf_data s) (p ++ split_dots n) = None -> hdf_get_value s p n def = def;
  hdf_get_copy_law s p n : hdf_get_copy s p n = (STATUS_OK, hdf_get_value s p n None);
  hdf_get_obj_law s p n :
    good_name n ->
    hdf_get_obj s p n = (fun _ => p ++ split_dots n) <$> ds_find (hdf_data s) (p ++ split_dots n);
  hdf_get_obj_under_law s p n q :
    hdf_get_obj s p n = Some q -> head q = entered p n;
  hdf_obj_child_law s p : hdf_obj_child s p = head (ds_children (hdf_data s) p);
  hdf_obj_next_law s p l q r :
    ds_children (hdf_data s) p = l ++ q :: r -> hdf_obj_next s q = head r;
  hdf_obj_value_law s p v : ds_find (hdf_data s) p = Some v -> hdf_obj_value s p = v;
  hdf_set_value_law s p n v :
    good_name n -> exists s', hdf_set_value s p n v = (STATUS_OK, s') /\
      hdf_data s' = ds_set (hdf_data s) p (split_dots n) v;
  hdf_set_value_frame_law s p n v e s' q :
    hdf_set_value s p n v = (e, s') -> head q <> entered p n ->
    ds_find (hdf_data s') q = ds_find (hdf_data s) q;
  hdf_set_buf_law s p n v : hdf_set_buf s p n v = hdf_set_value s p n (Some v);
  hdf_data_law s : NoDup (map fst (hdf_data s));
  hdf_empty_law : hdf_data hdf_empty = []
}.

(** ** The wrapper of the CGI environment *)

(** What [cgiwrap_read] reports in [read_len]: the bytes it read, or a negative number. *)
Inductive read_result := Read (data : bytes) | ReadError.

(** [world] is what lies outside the program: its environment, the request body, the
    output so far, files.  [cgiwrap_writef] is given what the format expands to. *)
Class CgiWrap := {
  world : Type;
  cgiwrap_getenv : world -> bytes -> NEOERR * option bytes;
  cgiwrap_putenv : world -> bytes -> bytes -> NEOERR * world;
  cgiwrap_iterenv : world -> Z -> NEOERR * option (bytes * bytes);
  cgiwrap_read : world -> Z -> read_result * world;
  cgiwrap_writef : world -> bytes -> NEOERR * world;
  cgiwrap_write : world -> bytes -> NEOERR * world;
  (** [fwrite] to the file an upload is stored in *)
  fwrite : world -> bytes -> Z * world;
  (** of neo_misc.h and neo_str.h *)
  ne_timef : world -> Z;
  neos_strip : bytes -> bytes;
  (** what neos_strip leaves at the beginning of the buffer it works on *)
  neos_strip_end : bytes -> bytes
}.

(** [nerr_init] and [nerr_register]; the latter gives the number of the type. *)
Class NeoErr := {
  registry : Type;
  nerr_init : registry -> NEOERR * registry;
  nerr_register : registry -> bytes -> (NERR_TYPE + Z) * registry
}.

(** ** Lemmas: the flat model *)

Lemma ds_find_app d e p :
  ds_find (d ++ e) p = match ds_find d p with Some v => Some v | None => ds_find e p end.
Proof. induction d as [|[q v] d IH]; cbn; [done|]. by destruct (decide (q = p)). Qed.

Lemma ds_find_update d p v q :
  ds_find (ds_update d p v) q =
  if decide (q = p) then (fun _ => v) <$> ds_find d q else ds_find d q.
Proof.
  unfold ds_update. induction d as [|[r w] d IH]; [by destruct (decide (q = p))|].
  cbn [map fst ds_find]. destruct (decide (r = p)) as [->|Hr]; cbn [ds_find]; rewrite IH; clear IH.
  - destruct (decide (p = q)) as [->|]; [by rewrite decide_True|]. by rewrite decide_False.
  - destruct (decide (r = q)) as [->|]; [by rewrite decide_False|done].
Qed.

Lemma ds_find_touch d p q :
  ds_find (ds_touch d p) q =
  if decide (q = p) then Some (default None (ds_find d p)) else ds_find d q.
Proof.
  unfold ds_touch. destruct (ds_find d p) as [v|] eqn:E.
  - destruct (decide (q = p)) as [->|]; [by rewrite E|done].
  - rewrite ds_find_app. cbn. destruct (decide (q = p)) as [->|].
    + rewrite E. by destruct (decide (p = p)).
    + destruct (ds_find d q); [done|]. by destruct (decide (p = q)); [subst|].
Qed.

Lemma ds_children_touch d p q :
  ds_children (ds_touch d p) q =
  match ds_find d p with
  | Some _ => ds_children d q
  | None => ds_children d q ++ (if is_child q p then [p] else [])
  end.
Proof.
  unfold ds_touch. destruct (ds_find d p); [done|]. unfold ds_children.
  rewrite map_app, List.filter_app. cbn. by destruct (is_child q p).
Qed.

Lemma ds_children_update d p v q : ds_children (ds_update d p v) q = ds_children d q.
Proof.
  unfold ds_children, ds_update. rewrite map_map. f_equal. apply map_ext. intros [r w]. cbn.
  by destruct (decide (r = p)).
Qed.

Lemma ds_find_make_other names d p q :
  (forall a b, names = a ++ b -> a <> [] -> q <> p ++ a) ->
  ds_find (ds_make d p names) q = ds_find d q.
Proof.
  revert d p. induction names as [|n names IH]; intros d p H; [done|]. cbn [ds_make].
  rewrite IH.
  - rewrite ds_find_touch. case_decide as E; [|done]. exfalso. by apply (H [n] names).
  - intros a b -> Ha. rewrite <-app_assoc. by apply (H (n :: a) b).
Qed.

(** Setting a node one level down, and two levels down from the top. *)
Lemma ds_set_1_find d p n v q :
  ds_find (ds_set d p [n] v) q = if decide (q = p ++ [n]) then Some v else ds_find d q.
Proof.
  unfold ds_set. cbn [ds_make]. rewrite ds_find_update, !ds_find_touch.
  by repeat case_decide.
Qed.

Lemma ds_set_1_children d p n v q :
  ds_children (ds_set d p [n] v) q =
  match ds_find d (p ++ [n]) with
  | Some _ => ds_children d q
  | None => ds_children d q ++ (if decide (q = p) then [p ++ [n]] else [])
  end.
Proof.
  unfold ds_set. cbn [ds_make]. rewrite ds_children_update, ds_children_touch.
  destruct (ds_find d (p ++ [n])); [done|]. f_equal. unfold is_child.
  destruct (p ++ [n]) as [|x r] eqn:E; [by destruct p|]. rewrite <-E, removelast_last.
  case_decide as Hq; [subst; by rewrite bool_decide_true|]. by rewrite bool_decide_false by congruence.
Qed.

Lemma ds_set_2_find d a b v q :
  ds_find (ds_set d [] [a; b] v) q =
  if decide (q = [a; b]) then Some v
  else if decide (q = [a]) then Some (default None (ds_find d [a])) else ds_find d q.
Proof.
  unfold ds_set. cbn [ds_make app]. rewrite ds_find_update, !ds_find_touch.
  case_decide; [|done]. subst. by rewrite decide_False by done.
Qed.

Lemma ds_set_2_children d a b c v :
  ds_children (ds_set d [] [a; b] v) [a; c] = ds_children d [a; c].
Proof.
  unfold ds_set. cbn [ds_make app]. rewrite ds_children_update, !ds_children_touch.
  rewrite !ds_find_touch. unfold is_child. cbn [removelast].
  rewrite !bool_decide_false by done. rewrite !app_nil_r. by repeat case_match.
Qed.

(** Setting a node leaves the other parts of the data set alone. *)
Lemma ds_set_frame d p names v q :
  names <> [] -> head q <> head (p ++ names) -> ds_find (ds_set d p names v) q = ds_find d q.
Proof.
  intros Hn Hq. unfold ds_set. rewrite ds_find_update.
  rewrite decide_False by (intros ->; done). apply ds_find_make_other.
  intros a b -> Ha ->. apply Hq. destruct p; [|done]. by destruct a.
Qed.

(** ** Lemmas: names *)

Lemma split_dots_cons c n : c <> 46 ->
  split_dots (c :: n) = match split_dots n with w :: ws => (c :: w) :: ws | [] => [[c]] end.
Proof. intros H. cbn. destruct (split_dots n); [done|]. by destruct (Z.eqb_spec c 46). Qed.

Lemma split_dots_nonempty n : split_dots n <> [].
Proof. destruct n as [|c n]; [done|]. cbn. destruct (split_dots n); [done|]. by destruct (c =? 46). Qed.

Lemma split_dots_plain n : Forall (fun c => c <> 46) n -> split_dots n = [n].
Proof. induction 1 as [|c n Hc _ IH]; [done|]. by rewrite split_dots_cons, IH by done. Qed.

Lemma split_dots_app n m :
  Forall (fun c => c <> 46) n -> split_dots (n ++ 46 :: m) = n :: split_dots m.
Proof.
  induction 1 as [|c n Hc _ IH].
  - cbn. pose proof (split_dots_nonempty m). by destruct (split_dots m).
  - cbn [app]. by rewrite split_dots_cons, IH by done.
Qed.

(** A node keeps its value unless it is the one that is set. *)
Lemma ds_find_make_keep names d p q x : ds_find d q = Some x -> ds_find (ds_make d p names) q = Some x.
Proof.
  revert d p. induction names as [|n names IH]; intros d p H; [done|]. cbn [ds_make]. apply IH.
  rewrite ds_find_touch. case_decide; [subst; by rewrite H|done].
Qed.

Lemma ds_set_keep d p names v q x :
  ds_find d q = Some x -> q <> p ++ names -> ds_find (ds_set d p names v) q = Some x.
Proof.
  intros H Hq. unfold ds_set. rewrite ds_find_update, decide_False by done. by apply ds_find_make_keep.
Qed.

Lemma ds_find_make_last names d p : names <> [] -> exists x, ds_find (ds_make d p names) (p ++ names) = Some x.
Proof.
  revert d p. induction names as [|n names IH]; intros d p H; [done|]. cbn [ds_make].
  destruct names as [|m names].
  - cbn [ds_make]. rewrite ds_find_touch, decide_True by done. by eexists.
  - destruct (IH (ds_touch d (p ++ [n])) (p ++ [n])) as [x Hx]; [done|]. exists x.
    by rewrite <-app_assoc in Hx.
Qed.

Lemma ds_set_at d p names v : names <> [] -> ds_find (ds_set d p names v) (p ++ names) = Some v.
Proof.
  intros H. unfold ds_set. rewrite ds_find_update, decide_True by done.
  by destruct (ds_find_make_last names d p H) as [x ->].
Qed.

Lemma ds_find_in d p : In p (map fst d) <-> exists v, ds_find d p = Some v.
Proof.
  induction d as [|[q v] d IH]; cbn; [split; [done|by intros [? ?]]|].
  case_decide as E; [subst; split; [by eexists|by left]|]. rewrite <-IH.
  split; [by intros [?|?]|by right].
Qed.

Lemma ds_touch_nodup d p : NoDup (map fst d) -> NoDup (map fst (ds_touch d p)).
Proof.
  intros H. unfold ds_touch. destruct (ds_find d p) eqn:E; [done|]. rewrite map_app.
  apply list.NoDup_app. split_and!; [done| |by apply NoDup_singleton].
  intros x Hx%list_elem_of_In Hp. apply ds_find_in in Hx as [v Hv].
  apply list_elem_of_singleton in Hp. cbn in Hp. congruence.
Qed.

Lemma ds_set_nodup d p names v : NoDup (map fst d) -> NoDup (map fst (ds_set d p names v)).
Proof.
  intros H. unfold ds_set, ds_update. rewrite map_map.
  replace (map _ (ds_make d p names)) with (map fst (ds_make d p names)).
  - revert d p H. induction names as [|n names IH]; intros d p H; [done|]. by apply IH, ds_touch_nodup.
  - apply map_ext. intros [q w]. cbn. by case_decide.
Qed.

Lemma ds_children_nodup d p : NoDup (map fst d) -> NoDup (ds_children d p).
Proof. intros H. unfold ds_children. by apply NoDup_ListNoDup, NoDup_filter, NoDup_ListNoDup. Qed.

Lemma ds_children_length d p : (length (ds_children d p) <= length d)%nat.
Proof.
  unfold ds_children. rewrite <-(length_map fst d). generalize (map fst d) as l.
  induction l as [|q l IH]; cbn; [lia|]. destruct (is_child p q); cbn; lia.
Qed.

(** ** A data set that is the flat model *)

Record flat := mkFlat { flat_data : dataset; flat_ok : NoDup (map fst flat_data) }.

Definition flat_empty : flat := mkFlat [] (@NoDup_nil_2 path).

Definition flat_set (d : flat) (p : path) (n : bytes) (v : option bytes) : NEOERR * flat :=
  if decide (good_name n) then
    (STATUS_OK, mkFlat (ds_set (flat_data d) p (split_dots n) v) (ds_set_nodup _ p (split_dots n) v (flat_ok d)))
  else (nerr_raise NERR_ASSERT, d).

Definition flat_get (d : flat) (p : path) (n : bytes) (def : option bytes) : option bytes :=
  if decide (good_name n) then
    match ds_find (flat_data d) (p ++ split_dots n) with Some (Some v) => Some v | _ => def end
  else def.

Definition flat_obj (d : flat) (p : path) (n : bytes) : option path :=
  if decide (good_name n)
  then (fun _ => p ++ split_dots n) <$> ds_find (flat_data d) (p ++ split_dots n) else None.

(** The node after [q] in a level. *)
Fixpoint after (q : path) (l : list path) : option path :=
  match l with
  | [] => None
  | x :: l => if decide (x = q) then head l else after q l
  end.

(** [to_int] is the conversion of hdf_get_int_value and [of_int] that of
    hdf_set_int_value. *)
Definition flat_hdf (to_int : bytes -> option Z) (of_int : Z -> bytes) : Hdf := {|
  hdf_t := flat;
  hdf_empty := flat_empty;
  hdf_get_value := flat_get;
  hdf_get_int_value d p n def :=
    match flat_get d p n None with Some v => default def (to_int v) | None => def end;
  hdf_get_copy d p n := (STATUS_OK, flat_get d p n None);
  hdf_get_obj := flat_obj;
  hdf_obj_child d p := head (ds_children (flat_data d) p);
  hdf_obj_next d q := after q (ds_children (flat_data d) (removelast q));
  hdf_obj_value d p := default None (ds_find (flat_data d) p);
  hdf_set_value := flat_set;
  hdf_set_buf d p n v := flat_set d p n (Some v);
  hdf_set_int_value d p n k := flat_set d p n (Some (of_int k));
  hdf_dump_str d := (STATUS_OK, []);
  hdf_data := flat_data
|}.

Lemma after_app q l r : q ∉ l -> after q (l ++ q :: r) = head r.
Proof.
  induction l as [|x l IH]; intros H; cbn; [by rewrite decide_True|].
  rewrite not_elem_of_cons in H. destruct H. rewrite decide_False by congruence. by apply IH.
Qed.

Lemma entered_head p n : head (p ++ split_dots n) = entered p n.
Proof. by destruct p. Qed.

Lemma flat_next d p l q r :
  ds_children (flat_data d) p = l ++ q :: r -> after q (ds_children (flat_data d) (removelast q)) = head r.
Proof.
  intros Hc. assert (q ∈ ds_children (flat_data d) p) as Hin
    by (rewrite Hc; apply elem_of_app; right; by constructor).
  unfold ds_children in Hin. apply list_elem_of_In, filter_In in Hin as [_ Hin].
  assert (removelast q = p) as ->.
  { destruct q; [done|]. unfold is_child in Hin. by apply bool_decide_eq_true in Hin. }
  rewrite Hc. apply after_app. pose proof (ds_children_nodup _ p (flat_ok d)) as Hd.
  rewrite Hc in Hd. apply list.NoDup_app in Hd as (_ & Hd & _). intros Hq. apply (Hd q Hq). by constructor.
Qed.

#[export] Instance flat_hdf_laws to_int of_int : HdfLaws (flat_hdf to_int of_int).
Proof.
  split; cbn.
  - intros s p n def v Hn Hf. unfold flat_get. by rewrite decide_True, Hf.
  - intros s p n def Hn Hf. unfold flat_get. by rewrite decide_True, Hf.
  - done.
  - intros s p n Hn. unfold flat_obj. by rewrite decide_True.
  - intros s p n q. unfold flat_obj. case_decide; [|done].
    destruct (ds_find _ _); [|done]. intros [= <-]. apply entered_head.
  - done.
  - intros s p l q r. apply flat_next.
  - intros s p v ->. done.
  - intros s p n v Hn. unfold flat_set. rewrite decide_True by done. by eexists.
  - intros s p n v e s' q. unfold flat_set. case_decide; intros [= <- <-] Hq; [|done].
    apply ds_set_frame; [apply split_dots_nonempty|]. by rewrite entered_head.
  - done.
  - intros s. apply flat_ok.
  - done.
Qed.

(** ** An environment that follows a script *)

Record script := mkScript {
  sc_env : list (bytes * bytes);
  sc_input : list read_result;
  sc_output : bytes;
  sc_stored : bytes
}.

Fixpoint sc_getenv (l : list (bytes * bytes)) (k : bytes) : option bytes :=
  match l with
  | [] => None
  | (n, v) :: l => if list_Z_eqb n k then Some v else sc_getenv l k
  end.

Fixpoint drop_blanks (s : bytes) : bytes :=
  match s with c :: t => if c =? 32 then drop_blanks t else s | [] => [] end.

#[export] Instance script_wrap : CgiWrap := {|
  world := script;
  cgiwrap_getenv w k := (STATUS_OK, sc_getenv (sc_env w) k);
  cgiwrap_putenv w k v := (STATUS_OK, mkScript ((k, v) :: sc_env w) (sc_input w) (sc_output w) (sc_stored w));
  cgiwrap_iterenv w n := (STATUS_OK, sc_env w !! Z.to_nat n);
  cgiwrap_read w n :=
    match sc_input w with
    | [] => (Read [], w)
    | r :: l => (r, mkScript (sc_env w) l (sc_output w) (sc_stored w))
    end;
  cgiwrap_writef w s := (STATUS_OK, mkScript (sc_env w) (sc_input w) (sc_output w ++ s) (sc_stored w));
  cgiwrap_write w s := (STATUS_OK, mkScript (sc_env w) (sc_input w) (sc_output w ++ s) (sc_stored w));
  fwrite w s := (Z.of_nat (length s), mkScript (sc_env w) (sc_input w) (sc_output w) (sc_stored w ++ s));
  ne_timef w := 0;
  neos_strip s := rev (drop_blanks (rev (drop_blanks s)));
  neos_strip_end s := rev (drop_blanks (rev s))
|}.

#[export] Instance counting_errors : NeoErr := {|
  registry := Z;
  nerr_init r := (STATUS_OK, r);
  nerr_register r _ := (inr r, r + 1)
|}.
