(* ===== verification/CgiParse.v ===== *)
(** Requests: the part of src/AdHot/hub/cgi/cgi.c that fills the data set from the
    environment, the query string, cookies and the body of the request (cgi_init,
    cgi_parse and what they call).  Strings are lists of bytes without their NUL. *)
From Stdlib Require Import ZArith Lia Bool String.
From stdpp Require Import base list numbers.
From S2P Require Import Prelude Clib CgiString CgiHdf.

(** ** Tables *)

Definition CGIVars : list (string * string) :=
  [("AUTH_TYPE", "AuthType");
   ("CONTENT_TYPE", "ContentType");
   ("CONTENT_LENGTH", "ContentLength");
   ("DOCUMENT_ROOT", "DocumentRoot");
   ("GATEWAY_INTERFACE", "GatewayInterface");
   ("PATH_INFO", "PathInfo");
   ("PATH_TRANSLATED", "PathTranslated");
   ("QUERY_STRING", "QueryString");
   ("REDIRECT_REQUEST", "RedirectRequest");
   ("REDIRECT_QUERY_STRING", "RedirectQueryString");
   ("REDIRECT_STATUS", "RedirectStatus");
   ("REDIRECT_URL", "RedirectURL");
   ("REMOTE_ADDR", "RemoteAddress");
   ("REMOTE_HOST", "RemoteHost");
   ("REMOTE_IDENT", "RemoteIdent");
   ("REMOTE_PORT", "RemotePort");
   ("REMOTE_USER", "RemoteUser");
   ("REMOTE_GROUP", "RemoteGroup");
   ("REQUEST_METHOD", "RequestMethod");
   ("REQUEST_URI", "RequestURI");
   ("SCRIPT_FILENAME", "ScriptFilename");
   ("SCRIPT_NAME", "ScriptName");
   ("SERVER_ADDR", "ServerAddress");
   ("SERVER_ADMIN", "ServerAdmin");
   ("SERVER_NAME", "ServerName");
   ("SERVER_PORT", "ServerPort");
   ("SERVER_ROOT", "ServerRoot");
   ("SERVER_PROTOCOL", "ServerProtocol");
   ("SERVER_SOFTWARE", "ServerSoftware");
   ("HTTPS", "HTTPS");
   ("SSL_PROTOCOL", "SSL.Protocol");
   ("SSL_SESSION_ID", "SSL.SessionID");
   ("SSL_CIPHER", "SSL.Cipher");
   ("SSL_CIPHER_EXPORT", "SSL.Cipher.Export");
   ("SSL_CIPHER_USEKEYSIZE", "SSL.Cipher.UseKeySize");
   ("SSL_CIPHER_ALGKEYSIZE", "SSL.Cipher.AlgKeySize");
   ("SSL_VERSION_INTERFACE", "SSL.Version.Interface");
   ("SSL_VERSION_LIBRARY", "SSL.Version.Library");
   ("SSL_CLIENT_M_VERSION", "SSL.Client.M.Version");
   ("SSL_CLIENT_M_SERIAL", "SSL.Client.M.Serial");
   ("SSL_CLIENT_S_DN", "SSL.Client.S.DN");
   ("SSL_CLIENT_S_DN_x509", "SSL.Client.S.DN.x509");
   ("SSL_CLIENT_I_DN", "SSL.Client.I.DN");
   ("SSL_CLIENT_I_DN_x509", "SSL.Client.I.DN.x509");
   ("SSL_CLIENT_V_START", "SSL.Client.V.Start");
   ("SSL_CLIENT_V_END", "SSL.Client.V.End");
   ("SSL_CLIENT_A_SIG", "SSL.Client.A.SIG");
   ("SSL_CLIENT_A_KEY", "SSL.Client.A.KEY");
   ("SSL_CLIENT_CERT", "SSL.Client.CERT");
   ("SSL_CLIENT_CERT_CHAINn", "SSL.Client.CERT.CHAINn");
   ("SSL_CLIENT_VERIFY", "SSL.Client.Verify");
   ("SSL_SERVER_M_VERSION", "SSL.Server.M.Version");
   ("SSL_SERVER_M_SERIAL", "SSL.Server.M.Serial");
   ("SSL_SERVER_S_DN", "SSL.Server.S.DN");
   ("SSL_SERVER_S_DN_x509", "SSL.Server.S.DN.x509");
   ("SSL_SERVER_S_DN_CN", "SSL.Server.S.DN.CN");
   ("SSL_SERVER_S_DN_EMAIL", "SSL.Server.S.DN.Email");
   ("SSL_SERVER_S_DN_O", "SSL.Server.S.DN.O");
   ("SSL_SERVER_S_DN_OU", "SSL.Server.S.DN.OU");
   ("SSL_SERVER_S_DN_C", "SSL.Server.S.DN.C");
   ("SSL_SERVER_S_DN_SP", "SSL.Server.S.DN.SP");
   ("SSL_SERVER_S_DN_L", "SSL.Server.S.DN.L");
   ("SSL_SERVER_I_DN", "SSL.Server.I.DN");
   ("SSL_SERVER_I_DN_x509", "SSL.Server.I.DN.x509");
   ("SSL_SERVER_I_DN_CN", "SSL.Server.I.DN.CN");
   ("SSL_SERVER_I_DN_EMAIL", "SSL.Server.I.DN.Email");
   ("SSL_SERVER_I_DN_O", "SSL.Server.I.DN.O");
   ("SSL_SERVER_I_DN_OU", "SSL.Server.I.DN.OU");
   ("SSL_SERVER_I_DN_C", "SSL.Server.I.DN.C");
   ("SSL_SERVER_I_DN_SP", "SSL.Server.I.DN.SP");
   ("SSL_SERVER_I_DN_L", "SSL.Server.I.DN.L");
   ("SSL_SERVER_V_START", "SSL.Server.V.Start");
   ("SSL_SERVER_V_END", "SSL.Server.V.End");
   ("SSL_SERVER_A_SIG", "SSL.Server.A.SIG");
   ("SSL_SERVER_A_KEY", "SSL.Server.A.KEY");
   ("SSL_SERVER_CERT", "SSL.Server.CERT");
   ("SSL_PROTOCOL_VERSION", "SSL.Protocol");
   ("SSLEAY_VERSION", "SSL.Version.Library");
   ("HTTPS_CIPHER", "SSL.Cipher");
   ("HTTPS_EXPORT", "SSL.Cipher.Export");
   ("HTTPS_SECRETKEYSIZE", "SSL.Cipher.UseKeySize");
   ("HTTPS_KEYSIZE", "SSL.Cipher.AlgKeySize");
   ("SSL_SERVER_KEY_SIZE", "SSL.Cipher.AlgKeySize");
   ("SSL_SERVER_CERTIFICATE", "SSL.Server.CERT");
   ("SSL_SERVER_CERT_START", "SSL.Server.V.Start");
   ("SSL_SERVER_CERT_END", "SSL.Server.V.End");
   ("SSL_SERVER_CERT_SERIAL", "SSL.Server.M.Serial");
   ("SSL_SERVER_SIGNATURE_ALGORITHM", "SSL.Server.A.SIG");
   ("SSL_SERVER_DN", "SSL.Server.S.DN");
   ("SSL_SERVER_CN", "SSL.Server.S.DN.CN");
   ("SSL_SERVER_EMAIL", "SSL.Server.S.DN.Email");
   ("SSL_SERVER_O", "SSL.Server.S.DN.O");
   ("SSL_SERVER_OU", "SSL.Server.S.DN.OU");
   ("SSL_SERVER_C", "SSL.Server.S.DN.C");
   ("SSL_SERVER_SP", "SSL.Server.S.DN.SP");
   ("SSL_SERVER_L", "SSL.Server.S.DN.L");
   ("SSL_SERVER_IDN", "SSL.Server.I.DN");
   ("SSL_SERVER_ICN", "SSL.Server.I.DN.CN");
   ("SSL_SERVER_IEMAIL", "SSL.Server.I.DN.Email");
   ("SSL_SERVER_IO", "SSL.Server.I.DN.O");
   ("SSL_SERVER_IOU", "SSL.Server.I.DN.OU");
   ("SSL_SERVER_IC", "SSL.Server.I.DN.C");
   ("SSL_SERVER_ISP", "SSL.Server.I.DN.SP");
   ("SSL_SERVER_IL", "SSL.Server.I.DN.L");
   ("SSL_CLIENT_CERTIFICATE", "SSL.Client.CERT");
   ("SSL_CLIENT_CERT_START", "SSL.Client.V.Start");
   ("SSL_CLIENT_CERT_END", "SSL.Client.V.End");
   ("SSL_CLIENT_CERT_SERIAL", "SSL.Client.M.Serial");
   ("SSL_CLIENT_SIGNATURE_ALGORITHM", "SSL.Client.A.SIG");
   ("SSL_CLIENT_DN", "SSL.Client.S.DN");
   ("SSL_CLIENT_CN", "SSL.Client.S.DN.CN");
   ("SSL_CLIENT_EMAIL", "SSL.Client.S.DN.Email");
   ("SSL_CLIENT_O", "SSL.Client.S.DN.O");
   ("SSL_CLIENT_OU", "SSL.Client.S.DN.OU");
   ("SSL_CLIENT_C", "SSL.Client.S.DN.C");
   ("SSL_CLIENT_SP", "SSL.Client.S.DN.SP");
   ("SSL_CLIENT_L", "SSL.Client.S.DN.L");
   ("SSL_CLIENT_IDN", "SSL.Client.I.DN");
   ("SSL_CLIENT_ICN", "SSL.Client.I.DN.CN");
   ("SSL_CLIENT_IEMAIL", "SSL.Client.I.DN.Email");
   ("SSL_CLIENT_IO", "SSL.Client.I.DN.O");
   ("SSL_CLIENT_IOU", "SSL.Client.I.DN.OU");
   ("SSL_CLIENT_IC", "SSL.Client.I.DN.C");
   ("SSL_CLIENT_ISP", "SSL.Client.I.DN.SP");
   ("SSL_CLIENT_IL", "SSL.Client.I.DN.L");
   ("SSL_EXPORT", "SSL.Cipher.Export");
   ("SSL_KEYSIZE", "SSL.Cipher.AlgKeySize");
   ("SSL_SECKEYSIZE", "SSL.Cipher.UseKeySize");
   ("SSL_SSLEAY_VERSION", "SSL.Version.Library");
   ("SSL_STRONG_CRYPTO", "SSL.Strong.Crypto");
   ("SSL_SERVER_KEY_EXP", "SSL.Server.Key.Exp");
   ("SSL_SERVER_KEY_ALGORITHM", "SSL.Server.Key.Algorithm");
   ("SSL_SERVER_KEY_SIZE", "SSL.Server.Key.Size");
   ("SSL_SERVER_SESSIONDIR", "SSL.Server.SessionDir");
   ("SSL_SERVER_CERTIFICATELOGDIR", "SSL.Server.CertificateLogDir");
   ("SSL_SERVER_CERTFILE", "SSL.Server.CertFile");
   ("SSL_SERVER_KEYFILE", "SSL.Server.KeyFile");
   ("SSL_SERVER_KEYFILETYPE", "SSL.Server.KeyFileType");
   ("SSL_CLIENT_KEY_EXP", "SSL.Client.Key.Exp");
   ("SSL_CLIENT_KEY_ALGORITHM", "SSL.Client.Key.Algorithm");
   ("SSL_CLIENT_KEY_SIZE", "SSL.Client.Key.Size")]%string.

Definition HTTPVars : list (string * string) :=
  [("HTTP_ACCEPT", "Accept");
   ("HTTP_ACCEPT_CHARSET", "AcceptCharset");
   ("HTTP_ACCEPT_ENCODING", "AcceptEncoding");
   ("HTTP_ACCEPT_LANGUAGE", "AcceptLanguage");
   ("HTTP_COOKIE", "Cookie");
   ("HTTP_HOST", "Host");
   ("HTTP_USER_AGENT", "UserAgent");
   ("HTTP_IF_MODIFIED_SINCE", "IfModifiedSince");
   ("HTTP_REFERER", "Referer");
   ("HTTP_VIA", "Via");
   ("HTTP_SOAPACTION", "Soap.Action")]%string.

(** ** Strings *)

(** The bytes before the first that [stop]s, and the others. *)
Fixpoint break_at (stop : Z -> bool) (s : bytes) : bytes * bytes :=
  match s with
  | [] => ([], [])
  | c :: t => if stop c then ([], s) else let r := break_at stop t in (c :: r.1, r.2)
  end.

Fixpoint skip_amp (s : bytes) : bytes :=
  match s with c :: t => if c =? 38 then skip_amp t else s | [] => [] end.

(** [strtok_r (s, "&", &l)]: the token, and the text at [l]. *)
Definition strtok_r (s : bytes) : option (bytes * bytes) :=
  match skip_amp s with
  | [] => None
  | s => let r := break_at (fun c => c =? 38) s in Some (r.1, tail r.2)
  end.

Definition strcasecmp (a b : bytes) : bool := list_Z_eqb (map tolower a) (map tolower b).
Definition strncmp (a b : bytes) (n : nat) : bool := list_Z_eqb (take n a) (take n b).

(** The string that [cgi_url_unescape (s)] leaves in [s]. *)
Definition unescaped (s : bytes) : outcome bytes :=
  let! r := cgi_url_unescape (Some (s ++ [0])) in
  Ret (match r with Some b => cstr b | None => [] end).

(** ** State *)

(** [struct _cgi_parse_cb]; [cb_id] stands for the function and its [rock]. *)
Record parse_cb := mkCb {
  cb_method : bytes; any_method : bool;
  cb_ctype : bytes; any_ctype : bool;
  cb_id : Z
}.

Section Cgi.
Context {H : Hdf} {W : CgiWrap}.

(** [struct _cgi]: what the modelled code uses; [files] are the handles of uploads. *)
Record CGI := mkCGI {
  hdf : hdf_t;
  ignore_empty_form_vars : bool;
  data_expected : Z;
  parse_callbacks : list parse_cb;
  files : list Z;
  filenames : list bytes;
  time_start : Z
}.

Definition set_hdf (s : hdf_t) (c : CGI) : CGI :=
  mkCGI s (ignore_empty_form_vars c) (data_expected c) (parse_callbacks c) (files c)
    (filenames c) (time_start c).
Definition set_data_expected (n : Z) (c : CGI) : CGI :=
  mkCGI (hdf c) (ignore_empty_form_vars c) n (parse_callbacks c) (files c) (filenames c) (time_start c).
Definition set_callbacks (l : list parse_cb) (c : CGI) : CGI :=
  mkCGI (hdf c) (ignore_empty_form_vars c) (data_expected c) l (files c) (filenames c) (time_start c).

(** ** The query string *)

(** The name and the value of a pair: at the first '='. *)
Definition split_pair (t : bytes) : bytes * bytes :=
  let r := break_at (fun c => c =? 61) t in (r.1, tail r.2).

(** The name used for a name that is empty or starts with a period. *)
Definition query_name (k : bytes) (unnamed_count : Z) : bytes * Z :=
  match k with
  | [] => (snprintf 10 (b! "_" ++ format_d unnamed_count), unnamed_count + 1)
  | c :: k' => (if c =? 46 then 95 :: k' else k, unnamed_count)
  end.

(** [while (child != NULL) { i++; child = hdf_obj_next (child); }] *)
Fixpoint count_children (fuel : nat) (s : hdf_t) (child : option path) (i : Z) : outcome Z :=
  match child with
  | None => Ret i
  | Some c =>
      match fuel with
      | O => NoFuel
      | S fuel => count_children fuel s (hdf_obj_next s c) (i + 1)
      end
  end.

(** The value of a name that has one already becomes the next child of its node. *)
Definition add_value (s : hdf_t) (obj : path) (v : bytes) : outcome (NEOERR * hdf_t) :=
  match hdf_obj_child s obj with
  | None =>
      let (err, s) := hdf_set_value s obj (b! "0") (hdf_obj_value s obj) in
      if decide (err = STATUS_OK) then
        Ret (hdf_set_value s obj (snprintf 10 (format_d 1)) (Some v))
      else Ret (err, s)
  | child =>
      let! i := count_children (S (length (hdf_data s))) s child 0 in
      Ret (hdf_set_value s obj (snprintf 10 (format_d i)) (Some v))
  end.

Definition store_value (s : hdf_t) (buf v : bytes) : outcome (NEOERR * hdf_t) :=
  let! (err, s) :=
    match hdf_get_obj s [] buf with
    | Some obj => add_value s obj v
    | None => Ret (STATUS_OK, s)
    end in
  if decide (err = STATUS_OK) then
    let (err, s) := hdf_set_value s [] buf (Some v) in
    Ret (if nerr_match err NERR_ASSERT then STATUS_OK else err, s)
  else Ret (err, s).

Fixpoint query_loop (fuel : nat) (ignore_empty : bool) (rest : bytes) (unnamed_count : Z) (s : hdf_t) :
    outcome (NEOERR * hdf_t) :=
  match fuel with
  | O => NoFuel
  | S fuel =>
      match strtok_r rest with
      | None => Ret (STATUS_OK, s)
      | Some (t, rest) =>
          let '(k, v) := split_pair t in
          let '(k, unnamed_count) := query_name k unnamed_count in
          let! k := unescaped k in
          let buf := snprintf 256 (b! "Query." ++ k) in
          if ignore_empty && list_Z_eqb v [] then query_loop fuel ignore_empty rest unnamed_count s
          else
            let! v := unescaped v in
            let! (err, s) := store_value s buf v in
            if decide (err = STATUS_OK) then query_loop fuel ignore_empty rest unnamed_count s
            else Ret (err, s)
      end
  end.

Definition _parse_query (cgi : CGI) (query : bytes) : outcome (NEOERR * CGI) :=
  let! (err, s) := query_loop (S (length query)) (ignore_empty_form_vars cgi) query 0 (hdf cgi) in
  Ret (err, set_hdf s cgi).

(** ** The body of a POST *)

(** The reads: what has been read, and whether the last one failed. *)
Fixpoint read_body (fuel : nat) (len : Z) (data : bytes) (w : world) : outcome (bytes * bool * world) :=
  match fuel with
  | O => NoFuel
  | S fuel =>
      let o := Z.of_nat (length data) in
      if o <? len then
        let (r, w) := cgiwrap_read w (len - o) in
        match r with
        | ReadError => Ret (data, true, w)
        | Read [] => Ret (data, false, w)
        | Read bs =>
            if Z.of_nat (length bs) <=? len - o then read_body fuel len (data ++ bs) w else Crash
        end
      else Ret (data, false, w)
  end.

(** [malloc_ok n]: [malloc (n)] does not fail; [len + 1] is an [int]. *)
Definition _parse_post_form (malloc_ok : Z -> bool) (cgi : CGI) (w : world) :
    outcome (NEOERR * CGI * world) :=
  match hdf_get_value (hdf cgi) [] (b! "CGI.ContentLength") None with
  | None => Ret (STATUS_OK, cgi, w)
  | Some l =>
      let len := atoi l in
      if len <=? 0 then Ret (STATUS_OK, cgi, w)
      else
        let cgi := set_data_expected len cgi in
        if negb (malloc_ok (u64 (s32 (len + 1)))) then Ret (nerr_raise NERR_NOMEM, cgi, w)
        else
          let! (query, failed, w) := read_body (S (Z.to_nat len)) len [] w in
          if failed : bool then Ret (nerr_raise NERR_IO, cgi, w)
          else if negb (Z.of_nat (length query) =? len) then Ret (nerr_raise NERR_IO, cgi, w)
          else
            let! (err, cgi) := _parse_query cgi (cstr query) in
            Ret (err, cgi, w)
  end.

(** ** Cookies *)

Definition name_ends (c : Z) : bool := (c =? 61) || (c =? 59).

(** One cookie of the header: its name, its value and what follows. *)
Definition next_cookie (k : bytes) : bytes * bytes * bytes :=
  let r := break_at name_ends k in
  match r.2 with
  | 61 :: l => let v := break_at (fun c => c =? 59) l in (r.1, v.1, tail v.2)
  | l => (r.1, [], tail l)
  end.

Fixpoint cookie_loop (fuel : nat) (obj : path) (k : bytes) (s : hdf_t) : outcome (NEOERR * hdf_t) :=
  match fuel, k with
  | _, [] => Ret (STATUS_OK, s)
  | O, _ => NoFuel
  | S fuel, _ =>
      let '(name, v, rest) := next_cookie k in
      let name := neos_strip name in
      let v := neos_strip v in
      if negb (list_Z_eqb name []) && negb (list_Z_eqb v []) then
        let (err, s) := hdf_set_value s obj name (Some v) in
        let err := if nerr_match err NERR_ASSERT then STATUS_OK else err in
        if decide (err = STATUS_OK) then cookie_loop fuel obj rest s else Ret (err, s)
      else cookie_loop fuel obj rest s
  end.

(** A NULL [obj] is [Crash]. *)
Definition _parse_cookie (s : hdf_t) : outcome (NEOERR * hdf_t) :=
  let (err, cookie) := hdf_get_copy s [] (b! "HTTP.Cookie") in
  if decide (err = STATUS_OK) then
    match cookie with
    | None => Ret (STATUS_OK, s)
    | Some cookie =>
        let (err, s) := hdf_set_value s [] (b! "Cookie") (Some cookie) in
        if decide (err = STATUS_OK) then
          match hdf_get_obj s [] (b! "Cookie") with
          | Some obj => cookie_loop (S (length cookie)) obj cookie s
          | None => match cookie with [] => Ret (STATUS_OK, s) | _ => Crash end
          end
        else Ret (err, s)
    end
  else Ret (err, s).

(** ** The environment *)

Definition _add_cgi_env_var (w : world) (s : hdf_t) (env name : bytes) : NEOERR * hdf_t :=
  let (err, v) := cgiwrap_getenv w env in
  if decide (err = STATUS_OK) then
    match v with
    | Some v => hdf_set_buf s [] name v
    | None => (STATUS_OK, s)
    end
  else (err, s).

(** The loop over a table; [prefix] is "CGI." or "HTTP.". *)
Fixpoint import_vars (w : world) (prefix : bytes) (vars : list (string * string)) (s : hdf_t) : NEOERR * hdf_t :=
  match vars with
  | [] => (STATUS_OK, s)
  | (env, name) :: vars =>
      let buf := snprintf 256 (prefix ++ bytes_of_string name) in
      let (err, s) := _add_cgi_env_var w s (bytes_of_string env) buf in
      if decide (err = STATUS_OK) then import_vars w prefix vars s else (err, s)
  end.

(** The seconds the process sleeps when a debugger asks it to. *)
Definition debug_pause (s : hdf_t) : Z :=
  let d := hdf_get_value s [] (b! "Query.debug_pause") None in
  let d_p := hdf_get_value s [] (b! "Config.DebugPassword") None in
  if negb (hdf_get_int_value s [] (b! "Config.DebugEnabled") 0 =? 0) then
    match d, d_p with
    | Some d, Some d_p => if list_Z_eqb d d_p then 20 else 0
    | _, _ => 0
    end
  else 0.

(** It gives the error, the state and the pause. *)
Definition cgi_pre_parse (w : world) (cgi : CGI) : outcome (NEOERR * CGI * Z) :=
  let (err, s) := import_vars w (b! "CGI.") CGIVars (hdf cgi) in
  if decide (err = STATUS_OK) then
    let (err, s) := import_vars w (b! "HTTP.") HTTPVars s in
    if decide (err = STATUS_OK) then
      let! (err, s) := _parse_cookie s in
      if decide (err = STATUS_OK) then
        let (err, query) := hdf_get_copy s [] (b! "CGI.QueryString") in
        if decide (err = STATUS_OK) then
          let cgi := set_hdf s cgi in
          let! (err, cgi) :=
            match query with Some query => _parse_query cgi query | None => Ret (STATUS_OK, cgi) end in
          if decide (err = STATUS_OK) then Ret (STATUS_OK, cgi, debug_pause (hdf cgi))
          else Ret (err, cgi, 0)
        else Ret (err, set_hdf s cgi, 0)
      else Ret (err, set_hdf s cgi, 0)
    else Ret (err, set_hdf s cgi, 0)
  else Ret (err, set_hdf s cgi, 0).

(** ** Parse callbacks *)

(** A NULL [method] or [ctype] is [None]; [alloc] tells which of the three allocations
    succeed. *)
Definition cgi_register_parse_cb (cgi : CGI) (method ctype : option bytes) (id : Z)
    (alloc : bool * bool * bool) : NEOERR * CGI :=
  match method, ctype with
  | Some method, Some ctype =>
      let '(calloc_ok, dup1, dup2) := alloc in
      if negb calloc_ok then (nerr_raise NERR_NOMEM, cgi)
      else if negb (dup1 && dup2) then (nerr_raise NERR_NOMEM, cgi)
      else
        let my_pcb := mkCb method (list_Z_eqb method (b! "*")) ctype (list_Z_eqb ctype (b! "*")) id in
        (STATUS_OK, set_callbacks (my_pcb :: parse_callbacks cgi) cgi)
  | _, _ => (nerr_raise NERR_ASSERT, cgi)
  end.

(** The functions outside the repository: the callbacks themselves, and parse_rfc2388 and
    open_upload of rfc2388.c. *)
Context (run_cb : Z -> CGI -> bytes -> option bytes -> world -> outcome (NEOERR * CGI * world)).
Context (parse_rfc2388 : CGI -> world -> outcome (NEOERR * CGI * world)).
Context (open_upload : CGI -> bool -> world -> NEOERR * CGI * world).

Definition cb_matches (pcb : parse_cb) (method : bytes) (type : option bytes) : bool :=
  (any_method pcb || strcasecmp (cb_method pcb) method)
  && (any_ctype pcb || match type with Some t => strcasecmp (cb_ctype pcb) t | None => false end).

(** The walk over the callbacks: an error, or on to the internal methods. *)
Fixpoint walk_callbacks (notHandled : Z) (l : list parse_cb) (method : bytes) (type : option bytes)
    (cgi : CGI) (w : world) : outcome (NEOERR * CGI * world) :=
  match l with
  | [] => Ret (STATUS_OK, cgi, w)
  | pcb :: l =>
      if cb_matches pcb method type then
        let! (err, cgi, w) := run_cb (cb_id pcb) cgi method type w in
        if negb (bool_decide (err = STATUS_OK)) && negb (nerr_match err (NERR_registered notHandled))
        then Ret (err, cgi, w)
        else walk_callbacks notHandled l method type cgi w
      else walk_callbacks notHandled l method type cgi w
  end.

(** The loop that stores the body of a PUT; the number of turns is not bounded. *)
Fixpoint put_loop (fuel : nat) (len x : Z) (w : world) : outcome (NEOERR * world) :=
  match fuel with
  | O => NoFuel
  | S fuel =>
      if x <? len then
        let n := if len - x >? 4096 then 4096 else len - x in
        let (r, w) := cgiwrap_read w n in
        match r with
        | ReadError => Crash
        | Read bs =>
            if n <? Z.of_nat (length bs) then Crash
            else
              let r := Z.of_nat (length bs) in
              let (wr, w) := fwrite w bs in
              if negb (wr =? r) then Ret (nerr_raise NERR_IO, w)
              else put_loop fuel len (x + r) w
        end
      else Ret (STATUS_OK, w)
  end.

(** A call that may fail, and what follows when it does not. *)
Definition then_ok (r : NEOERR * hdf_t) (k : hdf_t -> NEOERR * hdf_t) : NEOERR * hdf_t :=
  if decide (r.1 = STATUS_OK) then k r.2 else r.

(** What a PUT leaves in the data set. *)
Definition put_entries (cgi : CGI) (type : option bytes) (unlink_files : bool) : NEOERR * hdf_t :=
  let s := hdf cgi in
  then_ok
    (match hdf_get_value s [] (b! "CGI.PathInfo") None with
     | Some l => hdf_set_value s [] (b! "PUT") (Some l)
     | None => (STATUS_OK, s)
     end) (fun s =>
  then_ok
    (match type with
     | Some t => hdf_set_value s [] (b! "PUT.Type") (Some t)
     | None => (STATUS_OK, s)
     end) (fun s =>
  then_ok (hdf_set_int_value s [] (b! "PUT.FileHandle") (Z.of_nat (length (files cgi)))) (fun s =>
  if negb unlink_files then
    match filenames cgi !! (length (filenames cgi) - 1)%nat with
    | Some name => hdf_set_value s [] (b! "PUT.FileName") (Some name)
    | None => (nerr_raise NERR_OUTOFRANGE, s)
    end
  else (STATUS_OK, s)))).

Definition parse_put (fuel : nat) (cgi : CGI) (type : option bytes) (w : world) :
    outcome (NEOERR * CGI * world) :=
  let unlink_files := negb (hdf_get_int_value (hdf cgi) [] (b! "Config.Upload.Unlink") 1 =? 0) in
  let '(err, cgi, w) := open_upload cgi unlink_files w in
  if decide (err = STATUS_OK) then
    match hdf_get_value (hdf cgi) [] (b! "CGI.ContentLength") None with
    | None => Ret (STATUS_OK, cgi, w)
    | Some l =>
        let len := atoi l in
        if len <=? 0 then Ret (STATUS_OK, cgi, w)
        else
          let! (err, w) := put_loop fuel len 0 w in
          if decide (err = STATUS_OK) then
            let (err, s) := put_entries cgi type unlink_files in Ret (err, set_hdf s cgi, w)
          else Ret (err, cgi, w)
    end
  else Ret (err, cgi, w).

Definition cgi_parse (fuel : nat) (malloc_ok : Z -> bool) (notHandled : Z) (cgi : CGI) (w : world) :
    outcome (NEOERR * CGI * world) :=
  let method := default (b! "GET") (hdf_get_value (hdf cgi) [] (b! "CGI.RequestMethod") (Some (b! "GET"))) in
  let type := hdf_get_value (hdf cgi) [] (b! "CGI.ContentType") None in
  let! (err, cgi, w) := walk_callbacks notHandled (parse_callbacks cgi) method type cgi w in
  if decide (err = STATUS_OK) then
    if list_Z_eqb method (b! "POST") then
      match type with
      | Some t =>
          if list_Z_eqb t (b! "application/x-www-form-urlencoded") then _parse_post_form malloc_ok cgi w
          else if strncmp t (b! "multipart/form-data") 19 then parse_rfc2388 cgi w
          else Ret (STATUS_OK, cgi, w)
      | None => Ret (STATUS_OK, cgi, w)
      end
    else if list_Z_eqb method (b! "PUT") then parse_put fuel cgi type w
    else Ret (STATUS_OK, cgi, w)
  else Ret (err, cgi, w).

(** ** cgi_init *)

(** The globals of the file. *)
Record cgi_globals := mkGlobals {
  ExceptionsInit : bool;
  CGIFinished : Z;
  CGIUploadCancelled : Z;
  CGIParseNotHandled : Z;
  IgnoreEmptyFormVars : bool
}.

Definition initial_globals : cgi_globals := mkGlobals false (-1) (-1) (-1) false.

Context {N : NeoErr}.

(** The error types are registered once; the third is registered in the variable of the
    second. *)
Definition init_exceptions (g : cgi_globals) (reg : registry) : NEOERR * cgi_globals * registry :=
  if ExceptionsInit g then (STATUS_OK, g, reg)
  else
    let (err, reg) := nerr_init reg in
    if decide (err = STATUS_OK) then
      let (r, reg) := nerr_register reg (b! "CGIFinished") in
      match r with
      | inl t => (Some t, g, reg)
      | inr a =>
          let g := mkGlobals false a (CGIUploadCancelled g) (CGIParseNotHandled g) (IgnoreEmptyFormVars g) in
          let (r, reg) := nerr_register reg (b! "CGIUploadCancelled") in
          match r with
          | inl t => (Some t, g, reg)
          | inr b =>
              let g := mkGlobals false a b (CGIParseNotHandled g) (IgnoreEmptyFormVars g) in
              let (r, reg) := nerr_register reg (b! "CGIParseNotHandled") in
              match r with
              | inl t => (Some t, g, reg)
              | inr c => (STATUS_OK, mkGlobals true a c (CGIParseNotHandled g) (IgnoreEmptyFormVars g), reg)
              end
          end
      end
    else (err, g, reg).

(** [given] is the data set passed, [None] for NULL; [calloc_ok] and [init] are the
    results of [calloc] and [hdf_init]; on failure [*cgi] is NULL. *)
Definition cgi_init (given : option hdf_t) (calloc_ok : bool) (init : NEOERR) (g : cgi_globals)
    (reg : registry) (w : world) : outcome (NEOERR * option CGI * cgi_globals * registry) :=
  let '(err, g, reg) := init_exceptions g reg in
  if decide (err = STATUS_OK) then
    if negb calloc_ok then Ret (nerr_raise NERR_NOMEM, None, g, reg)
    else
      let mycgi s := mkCGI s (IgnoreEmptyFormVars g) 0 [] [] [] (ne_timef w) in
      let! (err, cgi) :=
        match given with
        | None =>
            if decide (init = STATUS_OK) then
              let! (err, cgi, _) := cgi_pre_parse w (mycgi hdf_empty) in Ret (err, cgi)
            else Ret (init, mycgi hdf_empty)
        | Some s => let! (err, cgi, _) := cgi_pre_parse w (mycgi s) in Ret (err, cgi)
        end in
      Ret (err, if decide (err = STATUS_OK) then Some cgi else None, g, reg)
  else Ret (err, None, g, reg).

End Cgi.
