(* ===== verification/CgiRequest.v ===== *)
(** Theorems about the requests of CgiParse: the query string, the environment, the body
    of a POST or PUT. *)
From Stdlib Require Import ZArith Lia Bool String.
From stdpp Require Import base list numbers.
From S2P Require Import Prelude Clib CgiString CgiHdf CgiParse.

(** ** Specification of a query string *)

Definition Q : bytes := Eval cbv in b! "Query".

(** Pairs as they are written in a query string. *)
Fixpoint query_text (l : list (bytes * bytes)) : bytes :=
  match l with
  | [] => []
  | [(n, v)] => n ++ 61 :: v
  | (n, v) :: l => n ++ 61 :: v ++ 38 :: query_text l
  end.

(** A name that fits the buffer and is one level of the data set. *)
Definition key_ok (k : bytes) : Prop :=
  k <> [] /\ Forall (fun c => c <> 46) k /\ Forall nonzero k /\ (length k <= 249)%nat.

(** [e] is an encoding of a pair. *)
Definition pair_encodes (e kv : bytes * bytes) : Prop :=
  form_encodes e.1 kv.1 /\ Forall (fun c => c <> 38 /\ c <> 61) e.1 /\ head e.1 <> Some 46 /\
  form_encodes e.2 kv.2 /\ Forall (fun c => c <> 38) e.2 /\
  key_ok kv.1 /\ Forall nonzero kv.2.

Definition values (k : bytes) (pairs : list (bytes * bytes)) : list bytes :=
  map snd (List.filter (fun kv => list_Z_eqb kv.1 k) pairs).

(** The name under which a value is found. *)
Definition query_var (k : bytes) : bytes := b! "Query." ++ k.
Definition query_item (k : bytes) (i : nat) : bytes := query_var k ++ 46 :: format_d (Z.of_nat i).

(** What the data set holds of a name with the values [vs]. *)
Definition item (k : bytes) (i : nat) : path := [Q; k; format_d (Z.of_nat i)].
Record ds_holds (d : dataset) (k : bytes) (vs : list bytes) : Prop := {
  holds_value : ds_find d [Q; k] = Some <$> list.last vs;
  holds_children :
    ds_children d [Q; k] = if (length vs <? 2)%nat then [] else map (item k) (seq 0 (length vs));
  holds_items i v : (2 <= length vs)%nat -> vs !! i = Some v -> ds_find d (item k i) = Some (Some v)
}.

(** ** Lemmas on text *)

Lemma break_at_stop stop a c t :
  Forall (fun x => stop x = false) a -> stop c = true -> break_at stop (a ++ c :: t) = (a, c :: t).
Proof.
  intros Ha Hc. induction Ha as [|x a Hx _ IH]; cbn [app break_at]; [by rewrite Hc|].
  by rewrite Hx, IH.
Qed.

Lemma break_at_all stop a : Forall (fun x => stop x = false) a -> break_at stop a = (a, []).
Proof. induction 1 as [|x a Hx _ IH]; cbn [break_at]; [done|]. by rewrite Hx, IH. Qed.

Lemma unescaped_ok e s : form_encodes e s -> Forall nonzero s -> unescaped e = Ret s.
Proof.
  intros [Hd Hn]%form_decode_encodes Hs. unfold unescaped. rewrite unescape_ok by done.
  cbn [obind]. by rewrite Hd, cstr_nonzero_app.
Qed.

Lemma split_plain_app a n :
  Forall (fun c => c <> 46) n -> n <> [] -> good_name a ->
  split_dots (a ++ 46 :: n) = split_dots a ++ [n] /\ good_name (a ++ 46 :: n).
Proof.
  intros Hn Hne Ha. enough (split_dots (a ++ 46 :: n) = split_dots a ++ [n]) as E.
  { split; [done|]. unfold good_name. rewrite E. apply Forall_app. by repeat constructor. }
  clear Ha. induction a as [|c a IH].
  - cbn. by rewrite split_dots_plain by done.
  - cbn [app split_dots]. rewrite IH. pose proof (split_dots_nonempty a).
    destruct (split_dots a); [done|]. cbn. by destruct (c =? 46).
Qed.

Lemma query_var_split k : key_ok k -> split_dots (query_var k) = [Q; k] /\ good_name (query_var k).
Proof.
  intros (Hk & Hd & _). apply (split_plain_app (b! "Query") k Hd Hk).
  apply (bool_decide_unpack _). by vm_compute.
Qed.

Lemma digits_plain k : 0 <= k -> Forall (fun c => c <> 46) (format_d k) /\ format_d k <> [].
Proof.
  intros Hk. split.
  - eapply List.Forall_impl; [|by apply format_d_plain]. cbn. lia.
  - unfold format_d. destruct (k <? 0); [done|]. unfold dec_digits; fold dec_digits.
    destruct (k <? 10); [done|]. by intros [_ ?]%app_eq_nil.
Qed.

Lemma query_item_split k i :
  key_ok k -> split_dots (query_item k i) = item k i /\ good_name (query_item k i).
Proof.
  intros Hk. destruct (query_var_split k Hk) as [E Hg], (digits_plain (Z.of_nat i)) as [Hd Hne]; [lia|].
  destruct (split_plain_app (query_var k) (format_d (Z.of_nat i)) Hd Hne Hg) as [E2 Hg2].
  split; [|done]. unfold query_item. by rewrite E2, E.
Qed.

Lemma digits_split k : 0 <= k -> split_dots (format_d k) = [format_d k] /\ good_name (format_d k).
Proof.
  intros Hk. destruct (digits_plain k Hk) as [Hd Hne]. unfold good_name.
  rewrite split_dots_plain by done. by repeat constructor.
Qed.

(** ** Lemmas on the data set *)

Lemma child_find d p n : In (p ++ [n]) (ds_children d p) <-> exists v, ds_find d (p ++ [n]) = Some v.
Proof.
  unfold ds_children. rewrite filter_In, ds_find_in. unfold is_child.
  destruct (p ++ [n]) as [|x r] eqn:E; [by destruct p|]. rewrite <-E, removelast_last.
  rewrite bool_decide_true by done.
  split; [by intros [? _]|by intros ?].
Qed.

Lemma values_app k a b : values k (a ++ b) = values k a ++ values k b.
Proof. unfold values. by rewrite List.filter_app, map_app. Qed.

Section Requests.
Context {H : Hdf} {L : HdfLaws H}.

Lemma count_children_ok fuel s p l r i :
  ds_children (hdf_data s) p = l ++ r -> (length r <= fuel)%nat ->
  count_children fuel s (head r) i = Ret (i + Z.of_nat (length r)).
Proof.
  revert l r i. induction fuel as [|fuel IH]; intros l r i Hc Hf.
  { destruct r; [|cbn in Hf; lia]. cbn. f_equal. lia. }
  destruct r as [|q r]; cbn [head count_children length]; [f_equal; lia|].
  rewrite (hdf_obj_next_law s p l q r Hc). rewrite (IH (l ++ [q])).
  - f_equal. lia.
  - by rewrite Hc, <-app_assoc.
  - cbn in Hf. lia.
Qed.

Lemma count_all_children s p :
  count_children (S (length (hdf_data s))) s (hdf_obj_child s p) 0 =
  Ret (Z.of_nat (length (ds_children (hdf_data s) p))).
Proof.
  rewrite hdf_obj_child_law. rewrite (count_children_ok _ s p [] (ds_children (hdf_data s) p)).
  - done.
  - done.
  - pose proof (ds_children_length (hdf_data s) p). lia.
Qed.

(** Setting the next child of a name, and the name itself. *)
Lemma set_item s k i v :
  exists s', hdf_set_value s [Q; k] (format_d (Z.of_nat i)) (Some v) = (STATUS_OK, s') /\
    hdf_data s' = ds_set (hdf_data s) [Q; k] [format_d (Z.of_nat i)] (Some v).
Proof.
  destruct (digits_split (Z.of_nat i)) as [E Hg]; [lia|].
  destruct (hdf_set_value_law s [Q; k] _ (Some v) Hg) as (s' & Hs & Hd). exists s'. by rewrite <-E.
Qed.

Lemma set_var s k v :
  key_ok k ->
  exists s', hdf_set_value s [] (query_var k) (Some v) = (STATUS_OK, s') /\
    hdf_data s' = ds_set (hdf_data s) [] [Q; k] (Some v).
Proof.
  intros Hk. destruct (query_var_split k Hk) as [E Hg].
  destruct (hdf_set_value_law s [] _ (Some v) Hg) as (s' & Hs & Hd). exists s'. by rewrite <-E.
Qed.

(** The effect of [add_value] on the data set. *)
Definition ds_add (d : dataset) (k : bytes) (vs : list bytes) (v : bytes) : dataset :=
  let d1 := match vs with
            | [x] => ds_set d [Q; k] [format_d 0] (Some x)
            | _ => d
            end in
  ds_set d1 [Q; k] [format_d (Z.of_nat (length vs))] (Some v).

Lemma add_value_ok s k vs v :
  ds_holds (hdf_data s) k vs -> vs <> [] -> Z.of_nat (length vs) < 10 ^ 9 ->
  exists s', add_value s [Q; k] v = Ret (STATUS_OK, s') /\ hdf_data s' = ds_add (hdf_data s) k vs v.
Proof.
  intros [Hv Hc Hi] Hne Hlen. unfold add_value.
  assert (forall n : nat, Z.of_nat n < 10 ^ 9 -> snprintf 10 (format_d (Z.of_nat n)) = format_d (Z.of_nat n)) as Hs.
  { intros n Hn. apply snprintf_fits. pose proof (format_d_length 8 (Z.of_nat n)). lia. }
  rewrite hdf_obj_child_law.
  destruct vs as [|x vs]; [done|]. destruct vs as [|y vs].
  - rewrite Hc. cbn [length Nat.ltb Nat.leb head].
    rewrite (hdf_obj_value_law s [Q; k] (Some x)) by done.
    destruct (set_item s k 0 x) as (s1 & E1 & D1).
    change (b! "0") with (format_d (Z.of_nat 0)). rewrite E1, decide_True by done.
    change (format_d 1) with (format_d (Z.of_nat 1)). rewrite Hs by lia.
    destruct (set_item s1 k 1 v) as (s2 & E2 & D2). exists s2. rewrite E2. split; [done|].
    rewrite D2, D1. done.
  - destruct (ds_children (hdf_data s) [Q; k]) as [|q l] eqn:E.
    { cbn in Hc. done. }
    cbn [head]. pose proof (count_all_children s [Q; k]) as Hcount.
    rewrite hdf_obj_child_law, E in Hcount. cbn [head] in Hcount. rewrite Hcount. cbn [obind].
    assert (length (q :: l) = length (x :: y :: vs)) as ->.
    { rewrite Hc. cbn [length Nat.ltb Nat.leb]. by rewrite length_map, length_seq. }
    rewrite Hs by done. destruct (set_item s k (length (x :: y :: vs)) v) as (s2 & E2 & D2).
    exists s2. by rewrite E2.
Qed.

(** Setting the name keeps what is below it. *)
Lemma ds_holds_set d k vs v :
  ds_children d [Q; k] = (if (length vs <? 2)%nat then [] else map (item k) (seq 0 (length vs))) ->
  (forall i v, (2 <= length vs)%nat -> vs !! i = Some v -> ds_find d (item k i) = Some (Some v)) ->
  list.last vs = Some v ->
  ds_holds (ds_set d [] [Q; k] (Some v)) k vs.
Proof.
  intros Hc Hi Hl. split.
  - rewrite ds_set_2_find, decide_True by done. by rewrite Hl.
  - by rewrite ds_set_2_children.
  - intros i x H2 Hx. rewrite ds_set_2_find, !decide_False by done. by apply Hi.
Qed.

Lemma item_inj k i j :
  Z.of_nat i < 10 ^ 11 -> Z.of_nat j < 10 ^ 11 -> item k i = item k j -> i = j.
Proof. intros Hi Hj [= E]. apply Nat2Z.inj. apply format_d_inj; [lia|lia|done]. Qed.

(** One more child, with the next number. *)
Lemma ds_next_item d k n v :
  ds_children d [Q; k] = map (item k) (seq 0 n) -> Z.of_nat n < 10 ^ 11 ->
  let d' := ds_set d [Q; k] [format_d (Z.of_nat n)] (Some v) in
  ds_children d' [Q; k] = map (item k) (seq 0 (S n)) /\
  ds_find d' (item k n) = Some (Some v) /\
  forall i, (i < n)%nat -> ds_find d' (item k i) = ds_find d (item k i).
Proof.
  intros Hc Hn d'. unfold d'.
  assert (forall i, (i < n)%nat -> item k i <> item k n) as Hne.
  { intros i Hi E. apply item_inj in E; lia. }
  assert (ds_find d (item k n) = None) as Hnone.
  { destruct (ds_find d (item k n)) as [x|] eqn:E; [|done]. exfalso.
    assert (In (item k n) (ds_children d [Q; k])) as Hin by (apply (child_find d [Q; k]); by exists x).
    rewrite Hc in Hin. apply in_map_iff in Hin as (i & E2 & Hi). apply in_seq in Hi.
    by apply (Hne i); [lia|]. }
  change (item k n) with ([Q; k] ++ [format_d (Z.of_nat n)]) in *. split_and!.
  - rewrite ds_set_1_children, Hnone, decide_True by done. rewrite Hc, seq_S, map_app. done.
  - by rewrite ds_set_1_find, decide_True.
  - intros i Hi. rewrite ds_set_1_find, decide_False; [done|]. by apply Hne.
Qed.

Lemma ds_add_items d k vs v :
  ds_holds d k vs -> vs <> [] -> Z.of_nat (length vs) < 10 ^ 9 ->
  ds_children (ds_add d k vs v) [Q; k] = map (item k) (seq 0 (S (length vs))) /\
  forall i x, (vs ++ [v]) !! i = Some x -> ds_find (ds_add d k vs v) (item k i) = Some (Some x).
Proof.
  intros [Hv Hc Hi] Hne Hlen. unfold ds_add.
  assert (forall d1, ds_children d1 [Q; k] = map (item k) (seq 0 (length vs)) ->
    (forall i x, vs !! i = Some x -> ds_find d1 (item k i) = Some (Some x)) ->
    ds_children (ds_set d1 [Q; k] [format_d (Z.of_nat (length vs))] (Some v)) [Q; k]
      = map (item k) (seq 0 (S (length vs))) /\
    forall i x, (vs ++ [v]) !! i = Some x ->
      ds_find (ds_set d1 [Q; k] [format_d (Z.of_nat (length vs))] (Some v)) (item k i) = Some (Some x)) as Go.
  { intros d1 Hc1 Hi1. destruct (ds_next_item d1 k (length vs) v Hc1) as (H1 & H2 & H3); [lia|].
    split; [done|]. intros i x Hx. apply lookup_app_Some in Hx as [Hx|[Hge Hx]].
    - rewrite H3 by by eapply lookup_lt_Some. by apply Hi1.
    - assert (i = length vs) as -> by (apply lookup_lt_Some in Hx; cbn in Hx; lia).
      rewrite Nat.sub_diag in Hx. injection Hx as <-. done. }
  destruct vs as [|x vs]; [done|]. destruct vs as [|y vs].
  - destruct (ds_next_item d k 0 x) as (H1 & H2 & _); [done|lia|]. apply Go; [done|].
    intros [|i] z; [|done]. by intros [= <-].
  - apply Go; [done|]. intros i z Hz. apply Hi; [cbn; lia|done].
Qed.

Lemma last_app_one {A} (l : list A) x : list.last (l ++ [x]) = Some x.
Proof. apply last_snoc. Qed.

(** [store_value] adds a value to those of its name... *)
Lemma store_value_ok s k vs v :
  key_ok k -> ds_holds (hdf_data s) k vs -> Z.of_nat (length vs) < 10 ^ 9 ->
  exists s', store_value s (query_var k) v = Ret (STATUS_OK, s') /\
    ds_holds (hdf_data s') k (vs ++ [v]) /\
    hdf_data s' = ds_set (match vs with [] => hdf_data s | _ => ds_add (hdf_data s) k vs v end)
                    [] [Q; k] (Some v).
Proof.
  intros Hk Hh Hlen. unfold store_value. destruct (query_var_split k Hk) as [E Hg].
  rewrite hdf_get_obj_law, E by done. cbn [app].
  destruct (decide (vs = [])) as [->|Hne].
  - rewrite (holds_value _ _ _ Hh). cbn [list.last fmap option_fmap option_map obind].
    rewrite decide_True by done. destruct (set_var s k v Hk) as (s' & -> & D). cbn. exists s'.
    split_and!; [done| |done]. rewrite D. apply ds_holds_set; [|cbn; lia|done].
    by rewrite (holds_children _ _ _ Hh).
  - rewrite (holds_value _ _ _ Hh).
    assert (exists x, list.last vs = Some x) as [x ->].
    { destruct (list.last vs) eqn:El; [by eexists|]. by apply last_None in El. }
    cbn [fmap option_fmap option_map].
    destruct (add_value_ok s k vs v Hh Hne Hlen) as (s1 & -> & D1). cbn [obind].
    rewrite decide_True by done. destruct (set_var s1 k v Hk) as (s' & -> & D). cbn. exists s'.
    split_and!; [done| |by rewrite D, D1; destruct vs].
    rewrite D, D1. destruct (ds_add_items _ k vs v Hh Hne Hlen) as [Hc Hi].
    assert (length (vs ++ [v]) = S (length vs)) as Hl by (rewrite length_app; cbn; lia).
    apply ds_holds_set; [|by intros; apply Hi|apply last_app_one].
    rewrite Hl, Hc. destruct vs; [done|]. by destruct (Nat.ltb_spec (S (length (l :: vs))) 2); [cbn in *; lia|].
Qed.

(** ... and leaves the other names alone. *)
Lemma ds_set_var_other d k k' v vs :
  k <> k' -> ds_holds d k' vs -> ds_holds (ds_set d [] [Q; k] (Some v)) k' vs.
Proof.
  intros Hk [Hv Hc Hi]. split.
  - rewrite ds_set_2_find, !decide_False by (try done; congruence). done.
  - by rewrite ds_set_2_children.
  - intros i x H2 Hx. rewrite ds_set_2_find, !decide_False by done. by apply Hi.
Qed.

Lemma ds_set_item_other d k k' n v vs :
  k <> k' -> ds_holds d k' vs -> ds_holds (ds_set d [Q; k] [n] v) k' vs.
Proof.
  intros Hk [Hv Hc Hi]. split.
  - by rewrite ds_set_1_find, decide_False.
  - rewrite ds_set_1_children. destruct (ds_find d ([Q; k] ++ [n])); [done|].
    rewrite decide_False, app_nil_r by congruence. done.
  - intros i x H2 Hx. rewrite ds_set_1_find, decide_False; [by apply Hi|]. unfold item. cbn. congruence.
Qed.

Lemma store_value_other d k k' vs v vs' :
  k <> k' -> ds_holds d k' vs' ->
  ds_holds (ds_set (match vs with [] => d | _ => ds_add d k vs v end) [] [Q; k] (Some v)) k' vs'.
Proof.
  intros Hk Hh. apply ds_set_var_other; [done|]. destruct vs as [|x [|y vs]]; [done| |].
  - unfold ds_add. by do 2 (apply ds_set_item_other; [done|]).
  - unfold ds_add. by apply ds_set_item_other.
Qed.

(** The whole query string. *)
Lemma strtok_pair e es kv :
  pair_encodes e kv -> strtok_r (query_text (e :: es)) = Some (e.1 ++ 61 :: e.2, query_text es).
Proof.
  intros (He & Hp & _ & _ & Hp2 & (Hk & _) & _). destruct e as [n v]. cbn [fst snd] in *. unfold strtok_r.
  assert (Forall (fun c => (c =? 38) = false) (n ++ 61 :: v)) as Hall.
  { apply Forall_app. split; [|constructor; [done|]].
    - eapply List.Forall_impl; [|exact Hp]. cbn. lia.
    - eapply List.Forall_impl; [|exact Hp2]. cbn. lia. }
  assert (forall t, skip_amp ((n ++ 61 :: v) ++ t) = (n ++ 61 :: v) ++ t) as Hskip.
  { intros t. destruct n as [|c n]; [done|]. cbn. apply List.Forall_cons_iff in Hall as [-> _]. done. }
  destruct es as [|e2 es].
  - cbn [query_text]. rewrite <-(app_nil_r (n ++ 61 :: v)) at 1. rewrite Hskip, app_nil_r.
    destruct (n ++ 61 :: v) as [|c t] eqn:E; [by destruct n|]. rewrite <-E in *. rewrite break_at_all by done. done.
  - assert (query_text ((n, v) :: e2 :: es) = (n ++ 61 :: v) ++ 38 :: query_text (e2 :: es)) as ->.
    { cbn [query_text]. destruct e2. by rewrite <-app_assoc. }
    rewrite Hskip. destruct ((n ++ 61 :: v) ++ 38 :: query_text (e2 :: es)) as [|c t] eqn:E; [by destruct n|].
    rewrite <-E. by rewrite break_at_stop.
Qed.

Lemma query_loop_ok ignore : forall epairs pairs fuel unnamed s before,
  ignore = false -> Forall2 pair_encodes epairs pairs -> (length epairs < fuel)%nat ->
  Z.of_nat (length before + length pairs) < 10 ^ 9 ->
  (forall k, ds_holds (hdf_data s) k (values k before)) ->
  exists s', query_loop fuel ignore (query_text epairs) unnamed s = Ret (STATUS_OK, s') /\
    forall k, ds_holds (hdf_data s') k (values k (before ++ pairs)).
Proof.
  intros epairs pairs fuel unnamed s before -> Hp. revert fuel s before.
  induction Hp as [|e kv epairs pairs He _ IH]; intros fuel s before Hf Hlen Hs.
  { destruct fuel as [|fuel]; [lia|]. cbn. exists s. by rewrite app_nil_r. }
  destruct fuel as [|fuel]; [cbn in Hf; lia|]. cbn [query_loop].
  rewrite (strtok_pair e epairs kv He). destruct He as (He1 & Hp1 & Hh1 & He2 & Hp2 & Hk & Hv).
  destruct e as [n ev], kv as [k v]. cbn [fst snd] in *. unfold split_pair.
  rewrite break_at_stop; [|by eapply List.Forall_impl; [|exact Hp1]; cbn; lia|done].
  cbn [fst snd tail].
  assert (query_name n unnamed = (n, unnamed)) as ->.
  { destruct n as [|c n]; cbn in *; [inversion He1; subst; by destruct Hk|].
    destruct (Z.eqb_spec c 46); [by subst|done]. }
  pose proof Hk as (Hk1 & Hk2 & Hk3 & Hk4).
  rewrite (unescaped_ok n k) by done. cbn [obind].
  rewrite (snprintf_fits 256) by (rewrite length_app; cbn; lia). fold (query_var k). cbn [andb].
  rewrite (unescaped_ok ev v) by done. cbn [obind].
  assert (length (values k before) <= length before)%nat as Hvl.
  { unfold values. rewrite length_map. clear. induction before as [|x l IH]; cbn; [lia|].
    destruct (list_Z_eqb x.1 k); cbn; lia. }
  destruct (store_value_ok s k (values k before) v Hk (Hs k)) as (s1 & -> & H1 & D1); [cbn in Hlen; lia|].
  cbn [obind]. rewrite decide_True by done.
  destruct (IH fuel s1 (before ++ [(k, v)])) as (s2 & -> & H2).
  - cbn in Hf. lia.
  - rewrite length_app. cbn in *. lia.
  - intros k'. rewrite values_app. unfold values at 2. cbn [List.filter fst].
    destruct (list_Z_eqb k k') eqn:E.
    + apply list_Z_eqb_spec in E as ->. done.
    + rewrite app_nil_r, D1. apply store_value_other; [|apply Hs]. intros ->.
      assert (list_Z_eqb k' k' = true) by by apply list_Z_eqb_spec. congruence.
  - exists s2. split; [done|]. intros k'. specialize (H2 k'). by rewrite <-app_assoc in H2.
Qed.

End Requests.

Section QueryTheorem.
Context {H : Hdf} {L : HdfLaws H}.

(** C25.  A query string of any encoding of pairs, in a request without query values:
    every name has its last value, and the values of a name that occurs more than once
    are the children 0, 1, ... of its node, in their order; other names have no node. *)
Theorem _parse_query_stores cgi epairs pairs :
  ignore_empty_form_vars cgi = false ->
  (forall q, head q = Some Q -> ds_find (hdf_data (hdf cgi)) q = None) ->
  Forall2 pair_encodes epairs pairs -> Z.of_nat (length pairs) < 10 ^ 9 ->
  exists cgi', _parse_query cgi (query_text epairs) = Ret (STATUS_OK, cgi') /\
    forall k, key_ok k ->
      match list.last (values k pairs) with
      | Some v => hdf_get_value (hdf cgi') [] (query_var k) None = Some v
      | None => hdf_get_obj (hdf cgi') [] (query_var k) = None
      end /\
      forall i v, (2 <= length (values k pairs))%nat -> values k pairs !! i = Some v ->
        hdf_get_value (hdf cgi') [] (query_item k i) None = Some v.
Proof.
  intros Hign Hfresh Hp Hlen. unfold _parse_query.
  destruct (query_loop_ok (ignore_empty_form_vars cgi) epairs pairs (S (length (query_text epairs))) 0 (hdf cgi) [])
    as (s' & -> & Hs); [done|done| |done| |].
  { clear. assert (length epairs <= length (query_text epairs))%nat; [|lia].
    induction epairs as [|[n v] l IH]; [done|]. destruct l as [|e l].
    - cbn. rewrite length_app. cbn. lia.
    - cbn [query_text length] in *. rewrite length_app. cbn [length]. rewrite length_app. cbn [length]. lia. }
  { intros k. split; [by apply Hfresh| |done]. cbn.
    destruct (ds_children (hdf_data (hdf cgi)) [Q; k]) as [|q l] eqn:E; [done|]. exfalso.
    assert (In q (ds_children (hdf_data (hdf cgi)) [Q; k])) as Hin by (rewrite E; by left).
    unfold ds_children in Hin. apply filter_In in Hin as [Hq Hc].
    apply ds_find_in in Hq as [v Hv]. destruct q as [|a q]; [done|]. cbn in Hc.
    apply bool_decide_eq_true in Hc. rewrite Hfresh in Hv; [done|]. destruct q; [done|]. cbn in *. by injection Hc as -> _. }
  cbn [obind]. eexists. split; [done|]. intros k Hk. cbn [hdf set_hdf app] in *.
  destruct (query_var_split k Hk) as [E Hg]. destruct (Hs k) as [Hv _ Hi].
  split.
  - destruct (list.last (values k pairs)) as [v|].
    + apply hdf_get_value_law; [done|]. by rewrite E.
    + rewrite hdf_get_obj_law, E by done. cbn [app]. by rewrite Hv.
  - intros i v H2 Hx. destruct (query_item_split k i Hk) as [E2 Hg2].
    apply hdf_get_value_law; [done|]. rewrite E2. by apply Hi.
Qed.
End QueryTheorem.

(** A data set with one value, and a query that repeats a name. *)
Definition demo_hdf : Hdf := flat_hdf (fun _ => None) format_d.

Lemma demo_pair n v :
  forallb (fun c => is_byteb c && negb (c =? 0) && negb (c =? 37) && negb (c =? 43) && negb (c =? 38)
                    && negb (c =? 61) && negb (c =? 46)) (n ++ v) = true ->
  n <> [] -> (length n <= 249)%nat -> pair_encodes (n, v) (n, v).
Proof.
  intros Hall Hn Hl. rewrite forallb_app, andb_true_iff, !forallb_forall in Hall.
  destruct Hall as [Han Hav].
  assert (forall P : Z -> Prop, (forall c, is_byte c -> c <> 0 -> c <> 37 -> c <> 43 -> c <> 38 -> c <> 61 -> c <> 46 -> P c) ->
    Forall P n /\ Forall P v) as Hf.
  { intros P HP. split; apply List.Forall_forall; intros c Hc; [specialize (Han c Hc)|specialize (Hav c Hc)];
      rewrite !andb_true_iff, !negb_true_iff, !Z.eqb_neq, is_byteb_spec in *; apply HP; tauto. }
  assert (forall s, Forall (fun c => is_byte c /\ c <> 0 /\ c <> 37 /\ c <> 43) s -> form_encodes s s) as He.
  { induction 1 as [|c s (? & ? & ? & ?) _ IH]; by constructor. }
  destruct (Hf (fun c => is_byte c /\ c <> 0 /\ c <> 37 /\ c <> 43)) as [F1 F2]; [done|].
  unfold pair_encodes, key_ok. cbn [fst snd]. split_and!; try done; try (by apply He); try (apply Hf; unfold nonzero; done).
  destruct n as [|c n]; [done|]. cbn. intros [= ->]. specialize (Han 46 (or_introl eq_refl)). done.
Qed.

Lemma _parse_query_stores_witness :
  exists cgi', _parse_query (H := demo_hdf)
      (mkCGI (H := demo_hdf) (hdf_empty (Hdf := demo_hdf)) false 0 [] [] [] 0) (b! "a=1&b=x&a=2")
      = Ret (STATUS_OK, cgi') /\
    hdf_get_value (Hdf := demo_hdf) (hdf cgi') [] (b! "Query.a") None = Some (b! "2") /\
    hdf_get_value (Hdf := demo_hdf) (hdf cgi') [] (b! "Query.a.0") None = Some (b! "1").
Proof.
  destruct (_parse_query_stores (H := demo_hdf)
      (mkCGI (H := demo_hdf) (hdf_empty (Hdf := demo_hdf)) false 0 [] [] [] 0)
      [(b! "a", b! "1"); (b! "b", b! "x"); (b! "a", b! "2")]
      [(b! "a", b! "1"); (b! "b", b! "x"); (b! "a", b! "2")]) as (cgi' & E & Hk).
  - done.
  - done.
  - do 3 (constructor; [apply demo_pair; [by vm_compute|done|cbn; lia]|]). constructor.
  - cbn. lia.
  - exists cgi'. split; [exact E|].
    destruct (Hk (b! "a")) as [H1 H2].
    { split; [done|]. split; [by repeat constructor|]. split; [by repeat constructor|]. by apply Nat.leb_le. }
    split; [exact H1|]. apply (H2 0%nat); [by apply Nat.leb_le|done].
Defined.
