(* ===== verification/CgiImport.v ===== *)
(** Theorems about cgi_init and cgi_parse: the environment is imported, what the client
    sends stays in its part of the data set, and how the body of a request is read. *)
From Stdlib Require Import ZArith Lia Bool String Ascii.
From stdpp Require Import base list numbers.
From S2P Require Import Prelude Clib CgiString CgiHdf CgiParse CgiRequest.

(** ** Names *)

Fixpoint join_dots (l : path) : bytes :=
  match l with
  | [] => []
  | [w] => w
  | w :: l => w ++ 46 :: join_dots l
  end.

Lemma join_split n : join_dots (split_dots n) = n.
Proof.
  induction n as [|c n IH]; [done|]. cbn [split_dots]. pose proof (split_dots_nonempty n).
  destruct (split_dots n) as [|w ws]; [done|]. destruct (Z.eqb_spec c 46) as [->|].
  - cbn [join_dots app]. by rewrite <-IH.
  - rewrite <-IH. by destruct ws.
Qed.

Lemma split_dots_inj n m : split_dots n = split_dots m -> n = m.
Proof. intros E. by rewrite <-(join_split n), <-(join_split m), E. Qed.

Lemma cstr_all_nonzero s : Forall nonzero (cstr s).
Proof. induction s as [|c s IH]; cbn; [constructor|]. destruct (Z.eqb_spec c 0); by constructor. Qed.

Lemma cstr_split s : exists rest, s ++ [0] = cstr s ++ 0 :: rest.
Proof.
  induction s as [|c s [rest IH]]; cbn; [by eexists|]. destruct (Z.eqb_spec c 0) as [->|]; [by eexists|].
  exists rest. cbn. by rewrite IH.
Qed.

Lemma unescaped_returns s : exists k, unescaped s = Ret k.
Proof.
  unfold unescaped. destruct (cstr_split s) as [rest ->].
  rewrite unescape_ok by apply cstr_all_nonzero. by eexists.
Qed.

Lemma break_at_length stop l : (length (break_at stop l).2 <= length l)%nat.
Proof. induction l as [|x l IH]; cbn; [lia|]. destruct (stop x); cbn; lia. Qed.

Lemma strtok_shorter s t rest : strtok_r s = Some (t, rest) -> (length rest < length s)%nat.
Proof.
  unfold strtok_r. intros Hs.
  assert (length (skip_amp s) <= length s)%nat as H1.
  { clear. induction s as [|c s IH]; cbn; [lia|]. destruct (c =? 38); cbn; lia. }
  destruct (skip_amp s) as [|c s'] eqn:E; [done|].
  pose proof (break_at_length (fun c => c =? 38) (c :: s')) as Hb.
  destruct (break_at (fun c => c =? 38) (c :: s')) as [r1 r2]. injection Hs as _ <-.
  destruct r2; cbn in *; lia.
Qed.

Lemma next_cookie_shorter k name v rest :
  next_cookie k = (name, v, rest) -> k <> [] -> (length rest < length k)%nat.
Proof.
  assert (forall l : bytes, l <> [] -> (length (tail l) < length l)%nat) as Ht by (intros [|x l]; cbn; [done|lia]).
  assert (forall l : bytes, (length (tail l) <= length l)%nat) as Htl by (intros [|x l]; cbn; lia).
  unfold next_cookie. intros E Hk. pose proof (break_at_length name_ends k) as H1.
  destruct ((break_at name_ends k).2) as [|c l] eqn:El.
  { injection E as _ _ <-. cbn. destruct k; [done|]. cbn. lia. }
  assert (length rest <= length l)%nat; [|cbn in *; lia].
  pose proof (break_at_length (fun c => c =? 59) l) as H2. pose proof (Htl (break_at (fun c => c =? 59) l).2) as H3.
  destruct (decide (c = 61)) as [->|].
  - injection E as _ _ <-. lia.
  - assert (rest = tail (c :: l)) as ->; [|done]. repeat case_match; simplify_eq/=; done.
Qed.

(** ** Parts of the data set *)

(** Only what is under [t] may differ. *)
Definition only {H : Hdf} (t : bytes) (s s' : hdf_t) : Prop :=
  forall q, head q <> Some t -> ds_find (hdf_data s') q = ds_find (hdf_data s) q.

Section Imported.
Context {H : Hdf} {L : HdfLaws H} {W : CgiWrap}.

#[local] Instance only_preorder t : PreOrder (only t).
Proof.
  split; [by intros s q|]. intros s1 s2 s3 H1 H2 q Hq. rewrite H2 by done. by apply H1.
Qed.

Lemma set_only s p n v e s' t :
  hdf_set_value s p n v = (e, s') -> entered p n = Some t -> only t s s'.
Proof. intros E Ht q Hq. eapply hdf_set_value_frame_law; [done|]. by rewrite Ht. Qed.

(** What the data set does with a name of several parts one of which is empty: the
    error the code expects.  cgi.c warns of NERR_ASSERT and goes on when it sets a
    variable of the query or a cookie; neo_hdf.h does not say which names it is for.
    Nothing is asked of the empty name, which cgi.c does not use. *)
Definition bad_names_rejected : Prop :=
  forall s p n v, n <> [] -> ~ good_name n -> exists s', hdf_set_value s p n v = (Some NERR_ASSERT, s').

Lemma set_total s p n v :
  bad_names_rejected -> n <> [] ->
  exists e s', hdf_set_value s p n v = (e, s') /\
    (if nerr_match e NERR_ASSERT then STATUS_OK else e) = STATUS_OK.
Proof.
  intros Hbad Hne. destruct (decide (good_name n)) as [Hg|Hg].
  - destruct (hdf_set_value_law s p n v Hg) as (s' & E & _). by exists STATUS_OK, s'.
  - destruct (Hbad s p n v Hne Hg) as (s' & E). exists (Some NERR_ASSERT), s'. split; [done|].
    unfold nerr_match. by rewrite bool_decide_true.
Qed.

(** ** The query string, whatever it is *)

Lemma entered_query k : entered [] (snprintf 256 (b! "Query." ++ k)) = Some Q.
Proof.
  assert (snprintf 256 (b! "Query." ++ k) = b! "Query" ++ 46 :: take 249 k) as -> by done.
  cbn [entered]. rewrite split_dots_app; [done|]. by repeat constructor.
Qed.

Lemma add_value_only s obj v t :
  head obj = Some t -> exists s', add_value s obj v = Ret (STATUS_OK, s') /\ only t s s'.
Proof.
  intros Ht. assert (forall n, entered obj n = Some t) as He by (intros n; by destruct obj).
  assert (forall i s, exists s', hdf_set_value s obj (snprintf 10 (format_d (Z.of_nat i))) (Some v) = (STATUS_OK, s')
    /\ only t s s') as Hset.
  { intros i s1. assert (good_name (snprintf 10 (format_d (Z.of_nat i)))) as Hg.
    { destruct (digits_plain (Z.of_nat i)) as [Hd Hn]; [lia|].
      unfold good_name. rewrite split_dots_plain by (unfold snprintf; by apply Forall_take).
      constructor; [|constructor]. unfold snprintf. by destruct (format_d (Z.of_nat i)). }
    destruct (hdf_set_value_law s1 obj _ (Some v) Hg) as (s' & E & _). exists s'.
    split; [done|]. by eapply set_only. }
  unfold add_value. destruct (hdf_obj_child s obj) as [c|] eqn:Ec.
  - rewrite <-Ec, count_all_children. cbn [obind].
    destruct (Hset (length (ds_children (hdf_data s) obj)) s) as (s' & -> & ?). by exists s'.
  - assert (good_name (b! "0")) as Hg by (apply (bool_decide_unpack _); by vm_compute).
    destruct (hdf_set_value_law s obj _ (hdf_obj_value s obj) Hg) as (s1 & E1 & _). rewrite E1, decide_True by done.
    destruct (Hset 1%nat s1) as (s' & E2 & Ho). change (format_d 1) with (format_d (Z.of_nat 1)).
    rewrite E2. exists s'. split; [done|]. transitivity s1; [by eapply set_only|done].
Qed.

Lemma store_value_only s k v :
  bad_names_rejected ->
  exists s', store_value s (snprintf 256 (b! "Query." ++ k)) v = Ret (STATUS_OK, s') /\ only Q s s'.
Proof.
  intros Hbad. unfold store_value. set (buf := snprintf 256 (b! "Query." ++ k)).
  assert (exists s1, match hdf_get_obj s [] buf with
                     | Some obj => add_value s obj v | None => Ret (STATUS_OK, s) end
                     = Ret (STATUS_OK, s1) /\ only Q s s1) as (s1 & -> & H1).
  { destruct (hdf_get_obj s [] buf) as [obj|] eqn:E; [|by exists s].
    apply add_value_only. rewrite (hdf_get_obj_under_law s [] buf obj E). apply entered_query. }
  cbn [obind]. rewrite decide_True by done.
  destruct (set_total s1 [] buf (Some v) Hbad) as (e & s' & E & He); [done|]. rewrite E, He. exists s'.
  split; [done|]. transitivity s1; [done|]. eapply set_only; [done|]. apply entered_query.
Qed.

Lemma query_loop_only ignore fuel rest unnamed s :
  bad_names_rejected -> (length rest < fuel)%nat ->
  exists s', query_loop fuel ignore rest unnamed s = Ret (STATUS_OK, s') /\ only Q s s'.
Proof.
  intros Hbad. revert rest unnamed s. induction fuel as [|fuel IH]; intros rest unnamed s Hf; [lia|].
  cbn [query_loop]. destruct (strtok_r rest) as [[t rest']|] eqn:E; [|by exists s].
  apply strtok_shorter in E. destruct (split_pair t) as [k v]. destruct (query_name k unnamed) as [k1 u].
  destruct (unescaped_returns k1) as [k2 ->]. cbn [obind].
  destruct (ignore && list_Z_eqb v []); [apply IH; lia|].
  destruct (unescaped_returns v) as [v2 ->]. cbn [obind].
  destruct (store_value_only s k2 v2 Hbad) as (s1 & -> & H1). cbn [obind]. rewrite decide_True by done.
  destruct (IH rest' u s1) as (s2 & -> & H2); [lia|]. exists s2. split; [done|]. by transitivity s1.
Qed.

Lemma parse_query_only cgi query :
  bad_names_rejected ->
  exists s', _parse_query cgi query = Ret (STATUS_OK, set_hdf s' cgi) /\ only Q (hdf cgi) s'.
Proof.
  intros Hbad. unfold _parse_query.
  destruct (query_loop_only (ignore_empty_form_vars cgi) (S (length query)) query 0 (hdf cgi) Hbad)
    as (s' & -> & Ho); [lia|]. by exists s'.
Qed.

(** ** Cookies, whatever they are *)

Definition C : bytes := Eval cbv in b! "Cookie".

Lemma cookie_loop_only fuel k s :
  bad_names_rejected -> (length k < fuel)%nat ->
  exists s', cookie_loop fuel [C] k s = Ret (STATUS_OK, s') /\ only C s s'.
Proof.
  intros Hbad. revert k s. induction fuel as [|fuel IH]; intros k s Hf; [lia|].
  destruct k as [|c k]; [by exists s|]. cbn [cookie_loop].
  destruct (next_cookie (c :: k)) as [[name v] rest] eqn:E.
  apply next_cookie_shorter in E; [|done].
  destruct (_ && _) eqn:En; [|apply IH; lia].
  destruct (set_total s [C] (neos_strip name) (Some (neos_strip v)) Hbad) as (e & s1 & E1 & He); [by intros Hn; rewrite Hn in En|].
  rewrite E1, He, decide_True by done.
  destruct (IH rest s1) as (s2 & -> & H2); [lia|]. exists s2. split; [done|].
  transitivity s1; [|done]. by eapply set_only.
Qed.

Lemma parse_cookie_only s :
  bad_names_rejected -> exists s', _parse_cookie s = Ret (STATUS_OK, s') /\ only C s s'.
Proof.
  intros Hbad. unfold _parse_cookie. rewrite hdf_get_copy_law, decide_True by done.
  destruct (hdf_get_value s [] (b! "HTTP.Cookie") None) as [cookie|]; [|by exists s].
  assert (good_name (b! "Cookie")) as Hg by (apply (bool_decide_unpack _); by vm_compute).
  destruct (hdf_set_value_law s [] _ (Some cookie) Hg) as (s1 & E & D). rewrite E, decide_True by done.
  rewrite hdf_get_obj_law by done.
  change ([] ++ split_dots (b! "Cookie")) with [C]. rewrite D.
  change (split_dots (b! "Cookie")) with [C]. rewrite (ds_set_at (hdf_data s) [] [C]) by done.
  cbn [fmap option_fmap option_map].
  destruct (cookie_loop_only (S (length cookie)) cookie s1 Hbad) as (s2 & -> & H2); [lia|].
  exists s2. split; [done|]. transitivity s1; [by eapply set_only|done].
Qed.

(** ** The environment *)

Definition var_ok (prefix : bytes) (x : string * string) : bool :=
  let n := prefix ++ bytes_of_string x.2 in
  (length n <? 256)%nat && bool_decide (good_name n) && bool_decide (head (split_dots n) = head (split_dots prefix)).

(** The variable [env] is the last of those with its name that is set. *)
Definition last_set (e : bytes -> option bytes) (vars : list (string * string)) (env name : string) : Prop :=
  exists l1 l2, vars = l1 ++ (env, name) :: l2 /\
    forall x, In x l2 -> x.2 = name -> e (bytes_of_string x.1) = None.

Lemma bytes_of_string_inj a b : bytes_of_string a = bytes_of_string b -> a = b.
Proof.
  revert b. induction a as [|x a IH]; intros [|y b]; try done. cbn. intros E.
  injection E as E1 E2. apply Nat2Z.inj in E1. rewrite (IH b E2).
  f_equal. rewrite <-(ascii_nat_embedding x), <-(ascii_nat_embedding y). by rewrite E1.
Qed.

Lemma import_vars_ok w e prefix t vars s :
  (forall k, cgiwrap_getenv w k = (STATUS_OK, e k)) ->
  forallb (var_ok prefix) vars = true -> head (split_dots prefix) = Some t ->
  exists s', import_vars w prefix vars s = (STATUS_OK, s') /\ only t s s' /\
    (forall p x, ds_find (hdf_data s) p = Some x ->
       (forall y, In y vars -> split_dots (prefix ++ bytes_of_string y.2) = p -> e (bytes_of_string y.1) = None) ->
       ds_find (hdf_data s') p = Some x) /\
    (forall env name v, last_set e vars env name -> e (bytes_of_string env) = Some v ->
       ds_find (hdf_data s') (split_dots (prefix ++ bytes_of_string name)) = Some (Some v)).
Proof.
  intros Henv Hok Ht. revert s Hok. induction vars as [|[env name] vars IH]; intros s Hok.
  { exists s. split_and!; [done|done|done|]. intros env name v (l1 & l2 & E & _). by destruct l1. }
  cbn [forallb] in Hok. apply andb_true_iff in Hok as [Hv Hok]. unfold var_ok in Hv. cbn [snd] in Hv.
  rewrite !andb_true_iff, !bool_decide_eq_true, Nat.ltb_lt in Hv. destruct Hv as [[Hlen Hg] Htop].
  cbn [import_vars]. rewrite snprintf_fits by done. set (n := prefix ++ bytes_of_string name) in *.
  assert (exists s1, _add_cgi_env_var w s (bytes_of_string env) n = (STATUS_OK, s1) /\ only t s s1 /\
    match e (bytes_of_string env) with
    | Some v => hdf_data s1 = ds_set (hdf_data s) [] (split_dots n) (Some v)
    | None => s1 = s
    end) as (s1 & -> & Ho & Hs1).
  { unfold _add_cgi_env_var. rewrite Henv, decide_True by done.
    destruct (e (bytes_of_string env)) as [v|]; [|by exists s].
    rewrite hdf_set_buf_law. destruct (hdf_set_value_law s [] n (Some v) Hg) as (s1 & E & D).
    exists s1. split_and!; [done| |done]. eapply set_only; [done|]. cbn. by rewrite Htop. }
  rewrite decide_True by done. destruct (IH s1 Hok) as (s' & -> & Ho' & Hkeep & Hset). exists s'.
  assert (forall p x, ds_find (hdf_data s) p = Some x ->
    (split_dots n = p -> e (bytes_of_string env) = None) -> ds_find (hdf_data s1) p = Some x) as Hk1.
  { intros p x Hx Hp. destruct (e (bytes_of_string env)); [|by subst s1].
    rewrite Hs1. apply ds_set_keep; [done|]. cbn. intros ->. by specialize (Hp eq_refl). }
  split_and!; [done|by transitivity s1| |].
  - intros p x Hx Hp. apply Hkeep.
    + apply Hk1; [done|]. intros Hn. apply (Hp (env, name)); [by left|done].
    + intros y Hy. apply Hp. by right.
  - intros env' name' v (l1 & l2 & E & Hl2) Hv. destruct l1 as [|y l1]; injection E as E1 E2.
    + subst env' name' l2. rewrite Hv in Hs1. apply Hkeep.
      * rewrite Hs1. apply (ds_set_at _ []). apply split_dots_nonempty.
      * intros y Hy Hn. apply Hl2; [done|]. apply split_dots_inj in Hn. apply app_inv_head in Hn.
        by apply bytes_of_string_inj.
    + apply (Hset env' name' v); [by exists l1, l2|done].
Qed.

(** ** cgi_init *)

Context {N : NeoErr}.

(** C26.  While there is memory cgi_init succeeds on every environment, query string and
    Cookie header.  Each variable of its tables is in the data set under its name (the
    last one set, when several have the same name), whatever the query and the cookies
    say, and outside CGI, HTTP, Cookie and Query nothing has changed: a client cannot
    write to Config or CookieAuthority. *)
Theorem cgi_init_imports s g g' reg reg' w e :
  bad_names_rejected -> (forall k, cgiwrap_getenv w k = (STATUS_OK, e k)) ->
  init_exceptions g reg = (STATUS_OK, g', reg') ->
  exists cgi, cgi_init (Some s) true STATUS_OK g reg w = Ret (STATUS_OK, Some cgi, g', reg') /\
    (forall env name v, last_set e CGIVars env name -> e (bytes_of_string env) = Some v ->
       hdf_get_value (hdf cgi) [] (b! "CGI." ++ bytes_of_string name) None = Some v) /\
    (forall env name v, last_set e HTTPVars env name -> e (bytes_of_string env) = Some v ->
       hdf_get_value (hdf cgi) [] (b! "HTTP." ++ bytes_of_string name) None = Some v) /\
    (forall q, Forall (fun t => head q <> Some t) [b! "CGI"; b! "HTTP"; b! "Cookie"; b! "Query"] ->
       ds_find (hdf_data (hdf cgi)) q = ds_find (hdf_data s) q).
Proof.
  intros Hbad Henv Hinit. unfold cgi_init. rewrite Hinit, decide_True by done. cbn [negb].
  set (my := mkCGI _ _ _ _ _ _ _). unfold cgi_pre_parse. change (hdf my) with s.
  destruct (import_vars_ok w e (b! "CGI.") (b! "CGI") CGIVars s Henv) as (s1 & -> & O1 & _ & V1);
    [by vm_compute|done|]. rewrite decide_True by done.
  destruct (import_vars_ok w e (b! "HTTP.") (b! "HTTP") HTTPVars s1 Henv) as (s2 & -> & O2 & _ & V2);
    [by vm_compute|done|]. rewrite decide_True by done.
  destruct (parse_cookie_only s2 Hbad) as (s3 & -> & O3). cbn [obind]. rewrite decide_True by done.
  rewrite hdf_get_copy_law, decide_True by done.
  set (query := hdf_get_value s3 [] (b! "CGI.QueryString") None).
  assert (exists s4, match query with
    | Some query => _parse_query (set_hdf s3 my) query | None => Ret (STATUS_OK, set_hdf s3 my) end
    = Ret (STATUS_OK, set_hdf s4 my) /\ only Q s3 s4) as (s4 & -> & O4).
  { destruct query as [q|]; [|by exists s3].
    destruct (parse_query_only (set_hdf s3 my) q Hbad) as (s4 & E & O4). exists s4. by rewrite E. }
  cbn [obind]. rewrite !decide_True by done. eexists. split; [done|]. cbn [hdf set_hdf].
  assert (forall prefix name t env x, x = (env, name) ->
    prefix = b! "CGI." /\ t = b! "CGI" /\ In x CGIVars \/ prefix = b! "HTTP." /\ t = b! "HTTP" /\ In x HTTPVars ->
    good_name (prefix ++ bytes_of_string name) /\
    head (split_dots (prefix ++ bytes_of_string name)) = Some t) as Hname.
  { intros prefix name t env x -> Hx.
    assert (var_ok prefix (env, name) = true /\ head (split_dots prefix) = Some t) as [Hv <-].
    { destruct Hx as [(-> & -> & Hin)|(-> & -> & Hin)]; (split; [|done]).
      - assert (forallb (var_ok (b! "CGI.")) CGIVars = true) as Hall by by vm_compute.
        rewrite forallb_forall in Hall. by apply Hall.
      - assert (forallb (var_ok (b! "HTTP.")) HTTPVars = true) as Hall by by vm_compute.
        rewrite forallb_forall in Hall. by apply Hall. }
    unfold var_ok in Hv. cbn [snd] in Hv.
    rewrite !andb_true_iff, !bool_decide_eq_true in Hv. by destruct Hv as [[_ ?] ?]. }
  assert (forall l env name, last_set e l env name -> In (env, name) l) as Hin.
  { intros l env name (l1 & l2 & -> & _). apply in_app_iff. right. by left. }
  split_and!.
  - intros env name v Hl Hv. pose proof (Hin _ _ _ Hl) as Hi.
    destruct (Hname (b! "CGI.") name (b! "CGI") env (env, name)) as [Hg Hh]; [done|by left|].
    apply hdf_get_value_law; [done|]. cbn [app]. rewrite O4, O3, O2 by (rewrite Hh; by vm_compute). by apply (V1 env).
  - intros env name v Hl Hv. pose proof (Hin _ _ _ Hl) as Hi.
    destruct (Hname (b! "HTTP.") name (b! "HTTP") env (env, name)) as [Hg Hh]; [done|by right|].
    apply hdf_get_value_law; [done|]. cbn [app]. rewrite O4, O3 by (rewrite Hh; by vm_compute). by apply (V2 env).
  - intros q Hq. rewrite !List.Forall_cons_iff in Hq. destruct Hq as (H1 & H2 & H3 & H4 & _).
    by rewrite O4, O3, O2, O1.
Qed.
End Imported.

(** ** The body of a request *)

Section Body.
Context {H : Hdf} {W : CgiWrap}.
Context (run_cb : Z -> CGI -> bytes -> option bytes -> world -> outcome (NEOERR * CGI * world)).
Context (parse_rfc2388 : CGI -> world -> outcome (NEOERR * CGI * world)).
Context (open_upload : CGI -> bool -> world -> NEOERR * CGI * world).

(** [n] bytes arrive, in pieces of any size; or fewer, and then the end or an error. *)
Inductive body_reads : world -> Z -> bytes -> world -> Prop :=
| reads_done w : body_reads w 0 [] w
| reads_more w n bs w1 rest w2 :
    cgiwrap_read w n = (Read bs, w1) -> bs <> [] -> Z.of_nat (length bs) <= n ->
    body_reads w1 (n - Z.of_nat (length bs)) rest w2 -> body_reads w n (bs ++ rest) w2.

Inductive body_short : world -> Z -> world -> Prop :=
| short_end w n w1 : 0 < n -> cgiwrap_read w n = (Read [], w1) -> body_short w n w1
| short_error w n w1 : 0 < n -> cgiwrap_read w n = (ReadError, w1) -> body_short w n w1
| short_more w n bs w1 w2 :
    cgiwrap_read w n = (Read bs, w1) -> bs <> [] -> Z.of_nat (length bs) < n ->
    body_short w1 (n - Z.of_nat (length bs)) w2 -> body_short w n w2.

Lemma read_body_ok w n rest w' : body_reads w n rest w' -> forall fuel len data,
  n = len - Z.of_nat (length data) -> (Z.to_nat n < fuel)%nat ->
  read_body fuel len data w = Ret (data ++ rest, false, w') /\ Z.of_nat (length (data ++ rest)) = len.
Proof.
  induction 1 as [w|w n bs w1 rest w2 Hr Hne Hle _ IH]; intros fuel len data Hn Hf;
    (destruct fuel as [|fuel]; [lia|]); cbn [read_body].
  - destruct (Z.ltb_spec (Z.of_nat (length data)) len); [lia|]. rewrite app_nil_r. split; [done|lia].
  - destruct bs as [|c bs]; [done|]. cbn [length] in *.
    destruct (Z.ltb_spec (Z.of_nat (length data)) len); [|lia].
    rewrite <-Hn, Hr. cbn [length]. destruct (Z.leb_spec (Z.of_nat (S (length bs))) n); [|lia].
    destruct (IH fuel len (data ++ c :: bs)) as [E El]; [rewrite length_app; cbn; lia|lia|].
    rewrite E, <-app_assoc. split; [done|]. by rewrite <-app_assoc in El.
Qed.

Lemma read_body_short w n w' : body_short w n w' -> forall fuel len data,
  n = len - Z.of_nat (length data) -> (Z.to_nat n < fuel)%nat ->
  exists got failed, read_body fuel len data w = Ret (got, failed, w') /\ Z.of_nat (length got) < len.
Proof.
  induction 1 as [w n w1 Hn0 Hr|w n w1 Hn0 Hr|w n bs w1 w2 Hr Hne Hlt _ IH]; intros fuel len data Hn Hf;
    (destruct fuel as [|fuel]; [lia|]); cbn [read_body];
    destruct (Z.ltb_spec (Z.of_nat (length data)) len); try lia; rewrite <-Hn, Hr.
  - exists data, false. by split.
  - exists data, true. by split.
  - destruct bs as [|c bs]; [done|]. cbn [length] in *.
    destruct (Z.leb_spec (Z.of_nat (S (length bs))) n); [|lia].
    destruct (IH fuel len (data ++ c :: bs)) as (got & f & E & El); [rewrite length_app; cbn; lia|lia|].
    by exists got, f.
Qed.

(** A request with a form as its body and no callback for it. *)
Record is_form_post (cgi : CGI) (len : Z) : Prop := {
  post_callbacks : parse_callbacks cgi = [];
  post_method : hdf_get_value (hdf cgi) [] (b! "CGI.RequestMethod") (Some (b! "GET")) = Some (b! "POST");
  post_type : hdf_get_value (hdf cgi) [] (b! "CGI.ContentType") None =
    Some (b! "application/x-www-form-urlencoded");
  post_length : exists l, hdf_get_value (hdf cgi) [] (b! "CGI.ContentLength") None = Some l /\ atoi l = len
}.

(** C27.  However the body of a form is cut into reads, cgi_parse does with it what
    _parse_query does with a query string; when it ends or fails before Content-Length
    bytes have come, the result is NERR_IO and the data set is as it was. *)
Theorem cgi_parse_reads_form fuel malloc_ok notHandled cgi len w :
  is_form_post cgi len -> 0 < len -> malloc_ok (u64 (s32 (len + 1))) = true ->
  (forall body w', body_reads w len body w' ->
     cgi_parse run_cb parse_rfc2388 open_upload fuel malloc_ok notHandled cgi w =
     (let! (err, cgi) := _parse_query (set_data_expected len cgi) (cstr body) in Ret (err, cgi, w'))) /\
  (forall w', body_short w len w' ->
     cgi_parse run_cb parse_rfc2388 open_upload fuel malloc_ok notHandled cgi w =
     Ret (Some NERR_IO, set_data_expected len cgi, w')).
Proof.
  intros [Hcb Hm Ht (l & Hl & Hlen)] H0 Hmal.
  assert (cgi_parse run_cb parse_rfc2388 open_upload fuel malloc_ok notHandled cgi w =
    _parse_post_form malloc_ok cgi w) as ->.
  { unfold cgi_parse. rewrite Hcb, Hm, Ht. cbn [walk_callbacks obind default]. by rewrite decide_True. }
  unfold _parse_post_form. rewrite Hl, Hlen. destruct (Z.leb_spec len 0); [lia|]. rewrite Hmal. cbn [negb].
  split.
  - intros body w' Hb. destruct (read_body_ok w len body w' Hb (S (Z.to_nat len)) len []) as [-> E]; [cbn; lia|lia|].
    cbn [obind app] in *. rewrite E, Z.eqb_refl. done.
  - intros w' Hs. destruct (read_body_short w len w' Hs (S (Z.to_nat len)) len []) as (got & f & -> & E); [cbn; lia|lia|].
    cbn [obind]. destruct f; [done|]. by destruct (Z.eqb_spec (Z.of_nat (length got)) len); [lia|].
Qed.

(** A request with a file as its body. *)
Record is_put (cgi : CGI) (len : Z) : Prop := {
  put_callbacks : parse_callbacks cgi = [];
  put_method : hdf_get_value (hdf cgi) [] (b! "CGI.RequestMethod") (Some (b! "GET")) = Some (b! "PUT");
  put_upload : exists cgi1, (forall u w, exists w1, open_upload cgi u w = (STATUS_OK, cgi1, w1)) /\
    exists l, hdf_get_value (hdf cgi1) [] (b! "CGI.ContentLength") None = Some l /\ atoi l = len
}.

(** The body stored in pieces of at most 4096 bytes, as they come. *)
Inductive body_stored : world -> Z -> world -> Prop :=
| stored_done w : body_stored w 0 w
| stored_more w n bs w1 w2 w3 :
    cgiwrap_read w (Z.min 4096 n) = (Read bs, w1) -> bs <> [] -> Z.of_nat (length bs) <= Z.min 4096 n ->
    fwrite w1 bs = (Z.of_nat (length bs), w2) ->
    body_stored w2 (n - Z.of_nat (length bs)) w3 -> body_stored w n w3.

Lemma put_loop_ok w n w' : body_stored w n w' -> forall fuel len x,
  n = len - x -> (Z.to_nat n < fuel)%nat -> put_loop fuel len x w = Ret (STATUS_OK, w').
Proof.
  induction 1 as [w|w n bs w1 w2 w3 Hr Hne Hle Hw _ IH]; intros fuel len x Hn Hf;
    (destruct fuel as [|fuel]; [lia|]); cbn [put_loop].
  - destruct (Z.ltb_spec x len); [lia|done].
  - assert (0 < Z.of_nat (length bs)) by (destruct bs; [done|cbn; lia]).
    destruct (Z.ltb_spec x len); [|lia].
    assert ((if len - x >? 4096 then 4096 else len - x) = Z.min 4096 n) as ->
      by (destruct (Z.gtb_spec (len - x) 4096); lia).
    rewrite Hr. destruct (Z.ltb_spec (Z.min 4096 n) (Z.of_nat (length bs))); [lia|].
    rewrite Hw, Z.eqb_refl. cbn [negb]. apply IH; lia.
Qed.

Lemma put_loop_spins (ended : world -> Prop) :
  (forall w n, ended w -> 0 < n -> exists w1 w2,
     cgiwrap_read w n = (Read [], w1) /\ fwrite w1 [] = (0, w2) /\ ended w2) ->
  forall fuel len x w, ended w -> x < len -> put_loop fuel len x w = NoFuel.
Proof.
  intros He fuel. induction fuel as [|fuel IH]; intros len x w Hw Hx; [done|]. cbn [put_loop].
  destruct (Z.ltb_spec x len); [|lia].
  set (n := if len - x >? 4096 then 4096 else len - x).
  assert (0 < n) as Hn by (unfold n; destruct (Z.gtb_spec (len - x) 4096); lia).
  destruct (He w n Hw Hn) as (w1 & w2 & -> & Hf & H2).
  change (Z.of_nat (length [])) with 0. destruct (Z.ltb_spec n 0); [lia|].
  rewrite Hf, Z.eqb_refl. cbn [negb]. apply IH; [done|lia].
Qed.

(**  A PUT that announces more bytes than arrive makes cgi_parse loop forever: at
    the end of the input every read gives no byte and is taken for progress. *)
Theorem cgi_parse_put_spins (ended : world -> Prop) fuel malloc_ok notHandled cgi len w :
  is_put cgi len -> 0 < len ->
  (forall w n, ended w -> 0 < n -> exists w1 w2,
     cgiwrap_read w n = (Read [], w1) /\ fwrite w1 [] = (0, w2) /\ ended w2) ->
  (forall u cgi1 w1, open_upload cgi u w = (STATUS_OK, cgi1, w1) -> ended w1) ->
  cgi_parse run_cb parse_rfc2388 open_upload fuel malloc_ok notHandled cgi w = NoFuel.
Proof.
  intros [Hcb Hm (cgi1 & Hup & l & Hl & Hlen)] H0 He Hw. unfold cgi_parse. rewrite Hcb, Hm.
  cbn [walk_callbacks obind default]. rewrite decide_True by done.
  change (list_Z_eqb (b! "PUT") (b! "POST")) with false.
  change (list_Z_eqb (b! "PUT") (b! "PUT")) with true. cbn iota. unfold parse_put.
  set (u := negb _). destruct (Hup u w) as [w1 Hu]. rewrite Hu, decide_True by done.
  rewrite Hl, Hlen. destruct (Z.leb_spec len 0); [lia|].
  by rewrite (put_loop_spins ended He fuel len 0 w1 (Hw _ _ _ Hu)) by lia.
Qed.

(** The callbacks that match are all called, newest first, and what they report as done
    does not keep the internal methods from running. *)
Lemma walk_callbacks_all nh l method type cgi w :
  Forall (fun p => cb_matches p method type = true) l ->
  (forall id c w, exists c' w', run_cb id c method type w = Ret (STATUS_OK, c', w')) ->
  exists cgi' w', walk_callbacks run_cb nh l method type cgi w = Ret (STATUS_OK, cgi', w').
Proof.
  intros Hm Hok. revert cgi w. induction Hm as [|p l Hp _ IH]; intros cgi w; cbn [walk_callbacks]; [by do 2 eexists|].
  rewrite Hp. destruct (Hok (cb_id p) cgi w) as (c1 & w1 & ->). cbn [obind].
  rewrite bool_decide_true by done. cbn [negb andb]. apply IH.
Qed.
End Body.

(** ** Concrete requests *)

Lemma last_set_check e l1 l2 env name :
  forallb (fun x => negb (String.eqb x.2 name) || match e (bytes_of_string x.1) with None => true | _ => false end) l2 = true ->
  last_set e (l1 ++ (env, name) :: l2) env name.
Proof.
  intros Hf. exists l1, l2. split; [done|]. intros x Hx Hn. rewrite forallb_forall in Hf. specialize (Hf x Hx).
  rewrite Hn, String.eqb_refl in Hf. cbn in Hf. by destruct (e (bytes_of_string x.1)).
Qed.

Definition demo_world : script :=
  mkScript [(b! "QUERY_STRING", b! "a=1&Config.DebugEnabled=1"); (b! "HTTP_COOKIE", b! "id=7; CGI.QueryString=x")] [] [] [].

Lemma flat_bad_names : bad_names_rejected (H := demo_hdf).
Proof. intros s p n v _ Hn. exists s. cbn. unfold flat_set. by rewrite decide_False. Qed.

Lemma cgi_init_imports_witness :
  exists cgi g' reg', cgi_init (H := demo_hdf) (Some flat_empty) true STATUS_OK initial_globals 1 demo_world
      = Ret (STATUS_OK, Some cgi, g', reg') /\
    hdf_get_value (Hdf := demo_hdf) (hdf cgi) [] (b! "CGI.QueryString") None = Some (b! "a=1&Config.DebugEnabled=1").
Proof.
  destruct (cgi_init_imports (H := demo_hdf) (W := script_wrap) (N := counting_errors) flat_empty initial_globals (mkGlobals true 1 3 (-1) false) 1 4 demo_world
    (sc_getenv (sc_env demo_world)) flat_bad_names) as (cgi & E & H1 & _).
  - done.
  - done.
  - exists cgi, (mkGlobals true 1 3 (-1) false), 4. split; [exact E|].
    apply (H1 "QUERY_STRING"%string "QueryString"%string).
    + change CGIVars with (take 7 CGIVars ++ ("QUERY_STRING"%string, "QueryString"%string) :: drop 8 CGIVars).
      apply last_set_check. by vm_compute.
    + by vm_compute.
Defined.

(** A form of five bytes in two reads. *)
Definition demo_post : CGI (H := demo_hdf) :=
  mkCGI (H := demo_hdf)
    (hdf_set_value (Hdf := demo_hdf) (hdf_set_value (Hdf := demo_hdf) (hdf_set_value (Hdf := demo_hdf)
      flat_empty [] (b! "CGI.RequestMethod") (Some (b! "POST"))).2 []
      (b! "CGI.ContentType") (Some (b! "application/x-www-form-urlencoded"))).2 []
      (b! "CGI.ContentLength") (Some (b! "5"))).2 false 0 [] [] [] 0.

Lemma cgi_parse_reads_form_witness :
  cgi_parse (H := demo_hdf) (fun _ c _ _ w => Ret (STATUS_OK, c, w)) (fun c w => Ret (STATUS_OK, c, w))
    (fun c _ w => (STATUS_OK, c, w)) 0 (fun _ => true) (-1) demo_post
    (mkScript [] [Read (b! "a=b"); Read (b! "&c")] [] []) =
  (let! (err, cgi) := _parse_query (set_data_expected 5 demo_post) (b! "a=b&c") in
   Ret (err, cgi, mkScript [] [] [] [])).
Proof.
  apply (cgi_parse_reads_form (H := demo_hdf) (W := script_wrap) (fun _ c _ _ w => Ret (STATUS_OK, c, w))
    (fun c w => Ret (STATUS_OK, c, w)) (fun c _ w => (STATUS_OK, c, w)) 0 (fun _ => true) (-1) demo_post 5
    (mkScript [] [Read (b! "a=b"); Read (b! "&c")] [] [])) with (body := b! "a=b&c").
  - split; [done|by vm_compute|by vm_compute|]. exists (b! "5"). split; by vm_compute.
  - lia.
  - done.
  - apply (reads_more (W := script_wrap) _ 5 (b! "a=b") (mkScript [] [Read (b! "&c")] [] []) (b! "&c")); [done|done|by vm_compute|].
    apply (reads_more (W := script_wrap) _ 2 (b! "&c") (mkScript [] [] [] []) []); [done|done|by vm_compute|]. apply reads_done.
Defined.

Definition demo_put : CGI (H := demo_hdf) :=
  mkCGI (H := demo_hdf)
    (hdf_set_value (Hdf := demo_hdf) (hdf_set_value (Hdf := demo_hdf)
      flat_empty [] (b! "CGI.RequestMethod") (Some (b! "PUT"))).2 []
      (b! "CGI.ContentLength") (Some (b! "9"))).2 false 0 [] [] [] 0.

Lemma cgi_parse_put_spins_witness :
  cgi_parse (H := demo_hdf) (fun _ c _ _ w => Ret (STATUS_OK, c, w)) (fun c w => Ret (STATUS_OK, c, w))
    (fun c _ w => (STATUS_OK, c, mkScript [] [] [] [])) 1000 (fun _ => true) (-1) demo_put (mkScript [] [] [] []) = NoFuel.
Proof.
  apply (cgi_parse_put_spins (H := demo_hdf) (W := script_wrap) (fun _ c _ _ w => Ret (STATUS_OK, c, w))
    (fun c w => Ret (STATUS_OK, c, w)) (fun c _ w => (STATUS_OK, c, mkScript [] [] [] []))
    (fun w : script => sc_input w = []) 1000 (fun _ => true) (-1) demo_put 9).
  - split; [done|by vm_compute|]. exists demo_put. split; [by eexists|].
    exists (b! "9"). split; by vm_compute.
  - lia.
  - intros w n Hw _. exists w, (mkScript (sc_env w) (sc_input w) (sc_output w) (sc_stored w ++ [])).
    cbn. by rewrite Hw.
  - intros u cgi1 w1 [= _ <-]. done.
Defined.
