(* ===== verification/CgiOutput.v ===== *)
(** Responses: the part of src/AdHot/hub/cgi/cgi.c that writes headers, pages, redirects,
    errors and cookies.  The text of a format is built here and handed to
    [cgiwrap_writef]; zlib, the template engine and the growing strings of neo_str.h are
    parameters. *)
From Stdlib Require Import ZArith Lia Bool String.
From stdpp Require Import base list numbers.
From S2P Require Import Prelude Clib CgiString CgiStrip CgiHdf CgiParse.

Definition crlf : bytes := [13; 10].
Definition lf : bytes := [10].
Definition dq : bytes := [34].

(** [strstr (s, t) != NULL]. *)
Fixpoint strstr (s t : bytes) : bool :=
  list_Z_eqb (take (length t) s) t || match s with [] => false | _ :: s => strstr s t end.

Definition strchr_in (s : bytes) (c : Z) : bool := existsb (fun x => x =? c) s.

(** [!strncasecmp (a, b, n)]. *)
Definition strncasecmp (a b : bytes) (n : nat) : bool := strcasecmp (take n a) (take n b).

(** The tokens of [strtok_r (s, ",", ...)]. *)
Fixpoint comma_tokens (s cur : bytes) : list bytes :=
  match s with
  | [] => match cur with [] => [] | _ => [cur] end
  | c :: s =>
      if c =? 44 then match cur with [] => comma_tokens s [] | _ => cur :: comma_tokens s [] end
      else comma_tokens s (cur ++ [c])
  end.

(** What follows a call that did not fail. *)
Definition and_then {A} (r : NEOERR * A) (k : A -> NEOERR * A) : NEOERR * A :=
  if decide (r.1 = STATUS_OK) then k r.2 else r.

Section Output.
Context {H : Hdf} {W : CgiWrap}.

(** The writes of a function one after another, until one fails. *)
Fixpoint write_all (l : list bytes) (w : world) : NEOERR * world :=
  match l with
  | [] => (STATUS_OK, w)
  | s :: l => and_then (cgiwrap_writef w s) (write_all l)
  end.

(** The writes of a function that does not look at their results. *)
Definition write_each (l : list bytes) (w : world) : world :=
  fold_left (fun w s => (cgiwrap_writef w s).2) l w.

(** ** Headers *)

(** "%s" of NULL is undefined. *)
Fixpoint other_headers (fuel : nat) (s : hdf_t) (child : option path) (w : world) : outcome (NEOERR * world) :=
  match child with
  | None => Ret (STATUS_OK, w)
  | Some c =>
      match fuel with
      | O => NoFuel
      | S fuel =>
          match hdf_obj_value s c with
          | None => Crash
          | Some v =>
              let (err, w) := cgiwrap_writef w (v ++ crlf) in
              if decide (err = STATUS_OK) then other_headers fuel s (hdf_obj_next s c) w else Ret (err, w)
          end
      end
  end.

Definition no_cache_headers : list bytes :=
  [b! "Pragma: no-cache" ++ crlf;
   b! "Expires: Fri, 01 Jan 1990 00:00:00 GMT" ++ crlf;
   b! "Cache-control: no-cache, must-revalidate, no-cache=" ++ dq ++ b! "Set-Cookie" ++ dq ++ b! ", private" ++ crlf].

(** A header that is written when the data set has its value. *)
Definition header_if (name : bytes) (v : option bytes) : list bytes :=
  match v with Some v => [name ++ v ++ crlf] | None => [] end.

Definition content_type (type : bytes) (charset : option bytes) : bytes :=
  match charset with
  | Some charset => b! "Content-Type: " ++ type ++ b! "; charset=" ++ charset ++ crlf ++ crlf
  | None => b! "Content-Type: " ++ type ++ crlf ++ crlf
  end.

Definition cgi_headers (cgi : CGI) (w : world) : outcome (NEOERR * world) :=
  let s := hdf cgi in
  let (err, w) :=
    write_all (if hdf_get_int_value s [] (b! "Config.NoCache") 0 =? 0 then [] else no_cache_headers) w in
  if decide (err = STATUS_OK) then
    match hdf_get_obj s [] (b! "cgiout") with
    | Some obj =>
        let (err, w) :=
          write_all (header_if (b! "Status: ") (hdf_get_value s obj (b! "Status") None)
                     ++ header_if (b! "Location: ") (hdf_get_value s obj (b! "Location") None)) w in
        if decide (err = STATUS_OK) then
          let! (err, w) :=
            match hdf_get_obj s [] (b! "cgiout.other") with
            | Some other => other_headers (S (length (hdf_data s))) s (hdf_obj_child s other) w
            | None => Ret (STATUS_OK, w)
            end in
          if decide (err = STATUS_OK) then
            let charset := hdf_get_value s obj (b! "charset") None in
            let type := default (b! "text/html") (hdf_get_value s obj (b! "ContentType") (Some (b! "text/html"))) in
            Ret (write_all [content_type type charset] w)
          else Ret (err, w)
        else Ret (err, w)
    | None => Ret (write_all [content_type (b! "text/html") None] w)
    end
  else Ret (err, w).

(** ** The page *)

(** [deflate data n]: what [deflate] makes of [data] in a buffer of [n] bytes, [None] when
    zlib reports an error; [crc32 data] is zlib's checksum.  [string_append] is that of
    neo_str.h; [seconds t] is the text of [%5.3f]; [malloc_ok n] tells whether [malloc]
    finds [n] bytes. *)
Context (deflate : bytes -> Z -> option bytes) (crc32 : bytes -> Z).
Context (string_append : STRING -> bytes -> NEOERR * STRING).
Context (seconds : Z -> bytes) (malloc_ok : Z -> bool).

Definition cgi_compress (data : bytes) (olen : Z) : bytes + NERR_TYPE :=
  match deflate data olen with Some out => inl out | None => inr NERR_SYSTEM end.

(** [use_deflate] and [use_gzip] from the tokens of Accept-Encoding. *)
Fixpoint accepted_encodings (tokens : list bytes) (use_gzip : bool) : bool * bool :=
  match tokens with
  | [] => (false, use_gzip)
  | e :: tokens =>
      if strstr e (b! "deflate") then (true, false)
      else accepted_encodings tokens (use_gzip || strstr e (b! "gzip"))
  end.

(** The browsers that are trusted with a compressed page. *)
Definition browser_ok (s : hdf_t) : bool :=
  match hdf_get_value s [] (b! "HTTP.UserAgent") None with
  | Some a =>
      if strstr a (b! "MSIE 4") || strstr a (b! "MSIE 5") || strstr a (b! "MSIE 6") then
        negb match hdf_get_value s [] (b! "HTTP.Accept") None with
             | Some e => list_Z_eqb e (b! "*/*")
             | None => false
             end
      else strncasecmp a (b! "mozilla/5.") 10
  | None => false
  end.

(** It announces the encoding in the data set. *)
Definition choose_encoding (is_html : bool) (s : hdf_t) : NEOERR * hdf_t * (bool * bool) :=
  if is_html && negb (hdf_get_int_value s [] (b! "Config.CompressionEnabled") 0 =? 0) then
    let (err, accept) := hdf_get_copy s [] (b! "HTTP.AcceptEncoding") in
    if decide (err = STATUS_OK) then
      let enc := match accept with
                 | Some a => accepted_encodings (comma_tokens a []) false
                 | None => (false, false)
                 end in
      let '(use_deflate, use_gzip) := if browser_ok s then enc else (false, false) in
      let (err, s) :=
        if use_deflate then hdf_set_value s [] (b! "cgiout.other.encoding") (Some (b! "Content-Encoding: deflate"))
        else if use_gzip then hdf_set_value s [] (b! "cgiout.other.encoding") (Some (b! "Content-Encoding: gzip"))
        else (STATUS_OK, s) in
      (err, s, (use_deflate, use_gzip))
    else (err, s, (false, false))
  else (STATUS_OK, s, (false, false)).

Fixpoint append_all (l : list bytes) (str : STRING) : NEOERR * STRING :=
  match l with
  | [] => (STATUS_OK, str)
  | s :: l => and_then (string_append str s) (append_all l)
  end.

(** The environment in the debug output; the loop ends when there is no more variable. *)
Fixpoint debug_env (fuel : nat) (w : world) (x : Z) (str : STRING) : outcome (NEOERR * STRING) :=
  match fuel with
  | O => NoFuel
  | S fuel =>
      let (err, kv) := cgiwrap_iterenv w x in
      if decide (err = STATUS_OK) then
        match kv with
        | None => Ret (STATUS_OK, str)
        | Some (k, v) =>
            let (err, str) := string_append str (k ++ b! " = " ++ v ++ b! "<br>") in
            if decide (err = STATUS_OK) then debug_env fuel w (x + 1) str else Ret (err, str)
        end
      else Ret (err, str)
  end.

Definition debug_page (fuel : nat) (s : hdf_t) (w : world) (str : STRING) : outcome (NEOERR * STRING) :=
  let (err, str) := string_append str (b! "<hr>") in
  if decide (err = STATUS_OK) then
    let! (err, str) := debug_env fuel w 0 str in
    if decide (err = STATUS_OK) then
      let (err, str) := string_append str (b! "<pre>") in
      if decide (err = STATUS_OK) then
        let (err, dump) := hdf_dump_str s in
        if decide (err = STATUS_OK) then Ret (string_append str dump) else Ret (err, str)
      else Ret (err, str)
    else Ret (err, str)
  else Ret (err, str).

(** The page as it will be sent. *)
Definition finish_page (fuel : nat) (s : hdf_t) (footer : option bytes) (ws_strip_level : Z)
    (do_debug : bool) (w : world) (str : STRING) : outcome (NEOERR * STRING) :=
  let (err, str) := append_all (match footer with Some f => [f] | None => [] end) str in
  if decide (err = STATUS_OK) then
    let! str := if ws_strip_level =? 0 then Ret str else cgi_html_ws_strip str ws_strip_level in
    if do_debug then debug_page fuel s w str else Ret (STATUS_OK, str)
  else Ret (err, str).

Definition page_bytes (str : STRING) : bytes := take (str_len str) (str_buf str).

Definition le_bytes4 (n : Z) : bytes :=
  [Z.land 0xff n; Z.land 0xff (Z.shiftr n 8); Z.land 0xff (Z.shiftr n 16); Z.land 0xff (Z.shiftr n 24)].

Definition gzip_header : bytes := [0x1f; 0x8b; 8; 0; 0; 0; 0; 0; 0; 3].

(** The body: the writes, and with what result. *)
Definition write_page (enc : bool * bool) (str : STRING) (w : world) : NEOERR * world :=
  let '(use_deflate, use_gzip) := enc in
  let page := page_bytes str in
  if use_deflate || use_gzip then
    let len2 := Z.of_nat (str_len str) * 2 in
    if malloc_ok len2 then
      match cgi_compress page len2 with
      | inl out =>
          and_then (if use_gzip : bool then cgiwrap_write w gzip_header else (STATUS_OK, w)) (fun w =>
          and_then (cgiwrap_write w out) (fun w =>
          if use_gzip : bool
          then cgiwrap_write w (le_bytes4 (crc32 page) ++ le_bytes4 (Z.of_nat (str_len str)))
          else (STATUS_OK, w)))
      | inr _ => cgiwrap_write w page
      end
    else cgiwrap_write w page
  else cgiwrap_write w page.

(** The password of a debugger, as cgi_output and cgi_display ask for it. *)
Definition debug_asked (s : hdf_t) (password : bytes) : bool :=
  negb (hdf_get_int_value s [] (b! "Config.DebugEnabled") 0 =? 0)
  && match hdf_get_value s [] (b! "Query.debug") None, hdf_get_value s [] password None with
     | Some d, Some p => list_Z_eqb d p
     | _, _ => false
     end.

Definition cgi_output (fuel : nat) (cgi : CGI) (str : STRING) (w : world) : outcome (NEOERR * CGI * world) :=
  let s := hdf cgi in
  let do_debug := debug_asked s (b! "Config.DebugPassword") in
  let do_timefooter := hdf_get_int_value s [] (b! "Config.TimeFooter") 1 in
  let ws_strip_level := hdf_get_int_value s [] (b! "Config.WhiteSpaceStrip") 1 in
  let dis := ne_timef w in
  let type := default (b! "text/html") (hdf_get_value s [] (b! "cgiout.ContentType") (Some (b! "text/html"))) in
  let is_html := strcasecmp type (b! "text/html") in
  let '(err, s, enc) := choose_encoding is_html s in
  let cgi := set_hdf s cgi in
  if decide (err = STATUS_OK) then
    let! (err, w) := cgi_headers cgi w in
    if decide (err = STATUS_OK) then
      let footer :=
        if do_timefooter =? 0 then None
        else Some (snprintf 50 (lf ++ b! "<!-- " ++ seconds (dis - time_start cgi) ++ b! ":"
                                ++ (if enc.1 || enc.2 then b! "1" else b! "0") ++ b! " -->" ++ lf)) in
      let! (err, str) :=
        if is_html then finish_page fuel s footer ws_strip_level do_debug w str else Ret (STATUS_OK, str) in
      if decide (err = STATUS_OK) then
        let (err, w) := write_page (if is_html then enc else (false, false)) str w in Ret (err, cgi, w)
      else Ret (err, cgi, w)
    else Ret (err, cgi, w)
  else Ret (err, cgi, w).

(** ** Errors and redirects *)

Definition error_head : list bytes :=
  [b! "Status: 500" ++ lf; b! "Content-Type: text/html" ++ lf ++ lf;
   b! "<html><body>" ++ lf ++ b! "An error occured:<pre>"].
Definition error_tail : list bytes := [b! "</pre></body></html>" ++ lf].

(** [trace] is the traceback of the error. *)
Definition cgi_neo_error (trace : bytes) (w : world) : world :=
  let w := write_each error_head w in
  let w := (cgiwrap_write w trace).2 in
  write_each error_tail w.

(** [text] is what the format and the arguments expand to. *)
Definition cgi_error (text : bytes) (w : world) : world :=
  write_each (error_head ++ [text] ++ error_tail) w.

Definition redirect_head : list bytes :=
  [b! "Status: 302" ++ crlf; b! "Content-Type: text/html" ++ crlf; b! "Pragma: no-cache" ++ crlf;
   b! "Expires: Fri, 01 Jan 1999 00:00:00 GMT" ++ crlf;
   b! "Cache-control: no-cache, no-cache=" ++ dq ++ b! "Set-Cookie" ++ dq ++ b! ", private" ++ crlf].
Definition redirect_tail : list bytes :=
  [crlf ++ crlf; b! "Redirect page<br><br>" ++ lf; b! "There is nothing to see here, please move along..."].

(** The beginning of the address of another page of the site. *)
Definition redirect_site (s : hdf_t) : list bytes :=
  let https := list_Z_eqb (default (b! "off") (hdf_get_value s [] (b! "CGI.HTTPS") (Some (b! "off")))) (b! "on") in
  let host := match hdf_get_value s [] (b! "HTTP.Host") None with
              | Some host => host
              | None => default (b! "localhost") (hdf_get_value s [] (b! "CGI.ServerName") (Some (b! "localhost")))
              end in
  (b! "Location: " ++ (if https then b! "https" else b! "http") ++ b! "://" ++ host) ::
  (if strchr_in host 58 then []
   else
     let port := hdf_get_int_value s [] (b! "CGI.ServerPort") 80 in
     if (https && (port =? 443)) || (negb https && (port =? 80)) then [] else [b! ":" ++ format_d port]).

Definition cgi_vredirect (cgi : CGI) (uri : bool) (text : bytes) (w : world) : world :=
  write_each (redirect_head ++ (if uri then [b! "Location: "] else redirect_site (hdf cgi))
              ++ [text] ++ redirect_tail) w.

Definition cgi_redirect (cgi : CGI) (text : bytes) (w : world) : world := cgi_vredirect cgi false text w.
Definition cgi_redirect_uri (cgi : CGI) (text : bytes) (w : world) : world := cgi_vredirect cgi true text w.

(** ** Cookies *)

(** The walk over CookieAuthority; a node without a value is a NULL domain. *)
Fixpoint find_authority (fuel : nat) (s : hdf_t) (host : bytes) (obj : option path) : outcome (option bytes) :=
  match obj with
  | None => Ret None
  | Some o =>
      match fuel with
      | O => NoFuel
      | S fuel =>
          match hdf_obj_value s o with
          | None => Crash
          | Some domain =>
              if (length domain <=? length host)%nat
                 && strncasecmp (drop (length host - length domain) host) domain (length domain)
              then Ret (Some domain)
              else find_authority fuel s host (hdf_obj_next s o)
          end
      end
  end.

Definition cgi_cookie_authority (cgi : CGI) (host : option bytes) : outcome (option bytes) :=
  let s := hdf cgi in
  let host := match host with Some h => Some h | None => hdf_get_value s [] (b! "HTTP.Host") None end in
  match host with
  | None => Ret None
  | Some host =>
      let h := (break_at (fun c => c =? 58) host).1 in
      match hdf_get_obj s [] (b! "CookieAuthority") with
      | None => Ret None
      | Some obj => find_authority (S (length (hdf_data s))) s h (hdf_obj_child s obj)
      end
  end.

(** [one_year] is the date the function formats when it is given none. *)
Definition cgi_cookie_set (name value : bytes) (path domain time_str : option bytes)
    (persistent secure : bool) (one_year : bytes) (w : world) : NEOERR * world :=
  let (err, str) :=
    append_all
      ([b! "Set-Cookie: " ++ name ++ b! "=" ++ value ++ b! "; path=" ++ default (b! "/") path]
       ++ (if persistent then [b! "; expires=" ++ default one_year time_str] else [])
       ++ match domain with Some d => [b! "; domain=" ++ d] | None => [] end
       ++ (if secure then [b! "; secure"] else [])
       ++ [crlf]) (mkSTRING [] 0) in
  if decide (err = STATUS_OK) then (STATUS_OK, (cgiwrap_write w (page_bytes str)).2)
  else (err, w).

Definition clear_cookie (name path : bytes) (domain : option bytes) : bytes :=
  b! "Set-Cookie: " ++ name ++ b! "=; path=" ++ path ++
  match domain with Some d => b! "; domain=" ++ d ++ b! ";" | None => b! "; " end ++
  b! "expires=Thursday, 01-Jan-1970 00:00:00 GMT" ++ crlf.

Definition cgi_cookie_clear (name : bytes) (domain path : option bytes) (w : world) : NEOERR * world :=
  let path := default (b! "/") path in
  let w := match domain with
           | Some d =>
               write_each
                 ((match d with 46 :: d' => [clear_cookie name path (Some d')] | _ => [] end)
                  ++ [clear_cookie name path (Some d)]) w
           | None => w
           end in
  (STATUS_OK, write_each [clear_cookie name path None] w).

(** ** Debugging *)

(** A line of the file of cgi_debug_init becomes a variable of the environment; the name
    is what neos_strip leaves at the beginning of the line, not the name it returns. *)
Definition debug_line (w : world) (line : bytes) : world :=
  let r := break_at (fun c => c =? 61) line in
  match r.2 with
  | _ :: v => (cgiwrap_putenv w (neos_strip_end r.1) (neos_strip v)).2
  | [] => w
  end.

(** [argv1] is [None] for a NULL; [fopen] gives the lines of a file. *)
Definition cgi_debug_init (argc : Z) (argv1 : option bytes) (fopen : bytes -> option (list bytes))
    (w : world) : outcome world :=
  if argc =? 0 then Ret w
  else
    match argv1 with
    | None => Crash
    | Some name =>
        match fopen name with
        | None => Ret w
        | Some lines => Ret (fold_left debug_line lines w)
        end
    end.

(** ** Templates *)

(** The template engine. *)
Context {CS : Type} (cs_init : hdf_t -> NEOERR * CS).
Context (cs_register_esc_strfunc cs_register_strfunc : CS -> bytes -> NEOERR * CS).
Context (cs_register_function : CS -> bytes -> Z -> NEOERR * CS).
Context (cs_parse_file : CS -> bytes -> NEOERR * CS).
Context (cs_render cs_dump : CS -> STRING -> NEOERR * STRING).

Definition cgi_register_strfuncs (cs : CS) : NEOERR * CS :=
  and_then (cs_register_esc_strfunc cs (b! "url_escape")) (fun cs =>
  and_then (cs_register_esc_strfunc cs (b! "html_escape")) (fun cs =>
  and_then (cs_register_strfunc cs (b! "text_html")) (fun cs =>
  and_then (cs_register_esc_strfunc cs (b! "js_escape")) (fun cs =>
  and_then (cs_register_strfunc cs (b! "html_strip")) (fun cs =>
  and_then (cs_register_esc_strfunc cs (b! "url_validate")) (fun cs =>
  and_then (cs_register_esc_strfunc cs (b! "x_rfeedtime")) (fun cs =>
  cs_register_function cs (b! "x_maxlen") 2))))))).

(** [*cs] is NULL after an error. *)
Definition cgi_cs_init (cgi : CGI) : NEOERR * option CS :=
  let (err, cs) := and_then (cs_init (hdf cgi)) cgi_register_strfuncs in
  (err, if decide (err = STATUS_OK) then Some cs else None).

Definition cgi_display (fuel : nat) (cgi : CGI) (cs_file : bytes) (w : world) :
    outcome (NEOERR * CGI * world) :=
  let s := hdf cgi in
  let do_dump := debug_asked s (b! "Config.DumpPassword") in
  let str := mkSTRING [] 0 in
  let (err, cs) :=
    and_then (and_then (cs_init s) cgi_register_strfuncs) (fun cs => cs_parse_file cs cs_file) in
  if decide (err = STATUS_OK) then
    if do_dump then
      let w := (cgiwrap_writef w (b! "Content-Type: text/plain" ++ lf ++ lf)).2 in
      let str := (string_append str (hdf_dump_str s).2).2 in
      let str := (cs_dump cs str).2 in
      Ret (STATUS_OK, cgi, (cgiwrap_writef w (cstr (str_buf str))).2)
    else
      let (err, str) := cs_render cs str in
      if decide (err = STATUS_OK) then cgi_output fuel cgi str w else Ret (err, cgi, w)
  else Ret (err, cgi, w).
End Output.
