(* ===== verification/CgiResponse.v ===== *)
(** Theorems about the responses of CgiOutput: what a client receives. *)
From Stdlib Require Import ZArith Lia Bool String.
From stdpp Require Import base list numbers.
From S2P Require Import Prelude Clib CgiString CgiStrip CgiHdf CgiParse CgiRequest CgiOutput.

(** ** What the wrapper and the strings promise *)

(** The bytes that have been written; writing succeeds and appends. *)
Class CgiOutputLaws (W : CgiWrap) := {
  written : world -> bytes;
  writef_law w s : exists w', cgiwrap_writef w s = (STATUS_OK, w') /\ written w' = written w ++ s;
  write_law w s : exists w', cgiwrap_write w s = (STATUS_OK, w') /\ written w' = written w ++ s
}.

(** [string_append] appends, also to a string that has no buffer yet. *)
Definition appends (string_append : STRING -> bytes -> NEOERR * STRING) : Prop :=
  forall str p t, holds_page str p \/ (str = mkSTRING [] 0 /\ p = []) ->
    exists str', string_append str t = (STATUS_OK, str') /\ holds_page str' (p ++ t).

Lemma script_write (w : script) s :
  exists w', (STATUS_OK, mkScript (sc_env w) (sc_input w) (sc_output w ++ s) (sc_stored w)) = (STATUS_OK, w') /\
    sc_output w' = sc_output w ++ s.
Proof. by eexists. Qed.

#[export] Instance script_output_laws : CgiOutputLaws script_wrap := {|
  written := sc_output : world -> bytes;
  writef_law := script_write;
  write_law := script_write
|}.

Definition demo_append (str : STRING) (t : bytes) : NEOERR * STRING :=
  (STATUS_OK, mkSTRING (take (str_len str) (str_buf str) ++ t ++ [0])
                (length (take (str_len str) (str_buf str)) + length t)).

Lemma holds_page_bytes str p : holds_page str p -> page_bytes str = p.
Proof.
  unfold holds_page, begins, page_bytes. intros [Hl Hb]. rewrite Hl.
  apply (f_equal (take (length p))) in Hb. rewrite take_take, length_app, Nat.min_l in Hb by lia.
  by rewrite Hb, take_app_length.
Qed.

Lemma demo_appends : appends demo_append.
Proof.
  intros str p t Hp. eexists. split; [done|].
  assert (take (str_len str) (str_buf str) = p) as ->.
  { destruct Hp as [Hp|[-> ->]]; [by apply holds_page_bytes|done]. }
  split; cbn.
  - by rewrite length_app.
  - unfold begins. by rewrite app_assoc, firstn_all.
Qed.

(** ** Headers *)

Section Response.
Context {H : Hdf} {L : HdfLaws H} {W : CgiWrap} {O : CgiOutputLaws W}.

Lemma write_all_ok l w :
  exists w', write_all l w = (STATUS_OK, w') /\ written w' = written w ++ concat l.
Proof.
  revert w. induction l as [|s l IH]; intros w; cbn [write_all concat].
  { exists w. by rewrite app_nil_r. }
  destruct (writef_law w s) as (w1 & E & H1). rewrite E. unfold and_then. cbn [fst snd].
  rewrite decide_True by done. destruct (IH w1) as (w2 & -> & H2). exists w2. split; [done|].
  by rewrite H2, H1, <-app_assoc.
Qed.

Lemma write_each_ok l w : written (write_each l w) = written w ++ concat l.
Proof.
  unfold write_each. revert w. induction l as [|s l IH]; intros w; cbn [fold_left concat]; [by rewrite app_nil_r|].
  rewrite IH. destruct (writef_law w s) as (w1 & -> & H1). cbn. by rewrite H1, <-app_assoc.
Qed.

(** The values of the nodes below a node. *)
Definition child_values (s : hdf_t) (p : path) : list (option bytes) :=
  map (hdf_obj_value s) (ds_children (hdf_data s) p).

Lemma other_headers_ok fuel s p l r vs w :
  ds_children (hdf_data s) p = l ++ r -> (length r <= fuel)%nat ->
  map (hdf_obj_value s) r = map Some vs ->
  exists w', other_headers fuel s (head r) w = Ret (STATUS_OK, w') /\
    written w' = written w ++ concat (map (fun v => v ++ crlf) vs).
Proof.
  revert l r vs w. induction fuel as [|fuel IH]; intros l r vs w Hc Hf Hv.
  { destruct r; [|cbn in Hf; lia]. destruct vs; [|done]. cbn. exists w. by rewrite app_nil_r. }
  destruct r as [|q r], vs as [|v vs]; try done; cbn [head other_headers map concat].
  { exists w. by rewrite app_nil_r. }
  injection Hv as -> Hv. destruct (writef_law w (v ++ crlf)) as (w1 & -> & H1).
  rewrite decide_True by done. rewrite (hdf_obj_next_law s p l q r Hc).
  destruct (IH (l ++ [q]) r vs w1) as (w2 & -> & H2); [by rewrite Hc, <-app_assoc|cbn in Hf; lia|done|].
  exists w2. split; [done|]. by rewrite H2, H1, <-app_assoc.
Qed.

(** The header lines of a data set, when the nodes below cgiout.other have values. *)
Definition other_values (s : hdf_t) : list bytes :=
  match hdf_get_obj s [] (b! "cgiout.other") with
  | Some other => omap (fun v : option bytes => v) (child_values s other)
  | None => []
  end.

Definition header_lines (s : hdf_t) : list bytes :=
  (if hdf_get_int_value s [] (b! "Config.NoCache") 0 =? 0 then [] else no_cache_headers) ++
  match hdf_get_obj s [] (b! "cgiout") with
  | Some obj =>
      header_if (b! "Status: ") (hdf_get_value s obj (b! "Status") None) ++
      header_if (b! "Location: ") (hdf_get_value s obj (b! "Location") None) ++
      map (fun v => v ++ crlf) (other_values s) ++
      [content_type (default (b! "text/html") (hdf_get_value s obj (b! "ContentType") (Some (b! "text/html"))))
         (hdf_get_value s obj (b! "charset") None)]
  | None => [content_type (b! "text/html") None]
  end.

Definition others_have_values (s : hdf_t) : Prop :=
  forall other, hdf_get_obj s [] (b! "cgiout.other") = Some other ->
    Forall (fun v : option bytes => v <> None) (child_values s other).

Lemma all_some (l : list (option bytes)) :
  Forall (fun v : option bytes => v <> None) l -> l = map Some (omap (fun v : option bytes => v) l).
Proof. induction 1 as [|[v|] l Hv _ IH]; cbn; [done| |done]. by rewrite <-IH. Qed.

Lemma cgi_headers_ok cgi w :
  others_have_values (hdf cgi) ->
  exists w', cgi_headers cgi w = Ret (STATUS_OK, w') /\
    written w' = written w ++ concat (header_lines (hdf cgi)).
Proof.
  intros Hoth. unfold cgi_headers, header_lines. set (s := hdf cgi) in *. rewrite concat_app.
  set (nc := if hdf_get_int_value s [] (b! "Config.NoCache") 0 =? 0 then [] else no_cache_headers).
  destruct (write_all_ok nc w) as (w1 & -> & H1). rewrite decide_True by done.
  destruct (hdf_get_obj s [] (b! "cgiout")) as [obj|].
  - set (h1 := header_if (b! "Status: ") _). set (h2 := header_if (b! "Location: ") _).
    destruct (write_all_ok (h1 ++ h2) w1) as (w2 & -> & H2). rewrite decide_True by done.
    assert (exists w3, match hdf_get_obj s [] (b! "cgiout.other") with
              | Some other => other_headers (S (length (hdf_data s))) s (hdf_obj_child s other) w2
              | None => Ret (STATUS_OK, w2) end = Ret (STATUS_OK, w3) /\
            written w3 = written w2 ++ concat (map (fun v => v ++ crlf) (other_values s))) as (w3 & -> & H3).
    { unfold other_values. destruct (hdf_get_obj s [] (b! "cgiout.other")) as [other|] eqn:E.
      - rewrite hdf_obj_child_law.
        apply (other_headers_ok (S (length (hdf_data s))) s other [] (ds_children (hdf_data s) other)); [done| |].
        + pose proof (ds_children_length (hdf_data s) other). lia.
        + by apply all_some, Hoth.
      - exists w2. cbn. by rewrite app_nil_r. }
    cbn [obind]. rewrite decide_True by done. set (ct := content_type _ _).
    destruct (write_all_ok [ct] w3) as (w4 & -> & H4). exists w4. split; [done|].
    rewrite H4, H3, H2, H1. rewrite !concat_app. by rewrite <-!app_assoc.
  - destruct (write_all_ok [content_type (b! "text/html") None] w1) as (w2 & -> & H2). exists w2.
    split; [done|]. by rewrite H2, H1, <-app_assoc.
Qed.

(** ** Pages *)

Context (deflate : bytes -> Z -> option bytes) (crc32 : bytes -> Z).
Context (string_append : STRING -> bytes -> NEOERR * STRING) (Happ : appends string_append).
Context (seconds : Z -> bytes) (malloc_ok : Z -> bool).

(** The comment at the end of a page. *)
Definition footer_text (cgi : CGI) (enc : bool * bool) (w : world) : bytes :=
  if hdf_get_int_value (hdf cgi) [] (b! "Config.TimeFooter") 1 =? 0 then []
  else snprintf 50 (lf ++ b! "<!-- " ++ seconds (ne_timef w - time_start cgi) ++ b! ":"
                      ++ (if enc.1 || enc.2 then b! "1" else b! "0") ++ b! " -->" ++ lf).

(** The page as it is stripped. *)
Definition page_text (cgi : CGI) (enc : bool * bool) (w : world) (page : bytes) : bytes :=
  let page := page ++ footer_text cgi enc w in
  let level := hdf_get_int_value (hdf cgi) [] (b! "Config.WhiteSpaceStrip") 1 in
  if level =? 0 then page else stripped level page.

(** The page in the encoding that was chosen, or as it is when it cannot be compressed. *)
Definition body_text (enc : bool * bool) (page : bytes) : bytes :=
  let n := Z.of_nat (length page) in
  if enc.1 || enc.2 then
    match (if malloc_ok (n * 2) then deflate page (n * 2) else None) with
    | Some out => if enc.2 then gzip_header ++ out ++ le_bytes4 (crc32 page) ++ le_bytes4 n else out
    | None => page
    end
  else page.

Lemma write_page_ok enc str page w :
  holds_page str page ->
  exists w', write_page deflate crc32 malloc_ok enc str w = (STATUS_OK, w') /\
    written w' = written w ++ body_text enc page.
Proof.
  intros Hp. unfold write_page, body_text, cgi_compress. rewrite (holds_page_bytes str page Hp).
  destruct Hp as [-> _]. destruct enc as [d g]. cbn [fst snd]. destruct (d || g); [|apply write_law].
  destruct (malloc_ok _); [|apply write_law]. destruct (deflate _ _) as [out|]; [|apply write_law].
  destruct g; unfold and_then; cbn [fst snd]; rewrite ?decide_True by done.
  - destruct (write_law w gzip_header) as (w1 & -> & H1). cbn [fst snd]. rewrite decide_True by done.
    destruct (write_law w1 out) as (w2 & -> & H2). cbn [fst snd]. rewrite decide_True by done.
    destruct (write_law w2 (le_bytes4 (crc32 page) ++ le_bytes4 (Z.of_nat (length page)))) as (w3 & -> & H3).
    exists w3. split; [done|]. by rewrite H3, H2, H1, <-!app_assoc.
  - destruct (write_law w out) as (w1 & -> & H1). cbn [fst snd]. rewrite decide_True by done. by exists w1.
Qed.

Lemma finish_page_ok fuel s footer level w str page rest_footer :
  holds_page str page -> rest_footer = default [] footer ->
  exists str', finish_page string_append fuel s footer level false w str = Ret (STATUS_OK, str') /\
    holds_page str' (if level =? 0 then page ++ rest_footer else stripped level (page ++ rest_footer)).
Proof.
  intros Hp ->. unfold finish_page.
  assert (exists str1, append_all string_append (match footer with Some f => [f] | None => [] end) str
    = (STATUS_OK, str1) /\ holds_page str1 (page ++ default [] footer)) as (str1 & -> & H1).
  { destruct footer as [f|]; cbn; [|exists str; by rewrite app_nil_r].
    destruct (Happ str page f) as (str1 & -> & H1); [by left|]. unfold and_then. cbn.
    rewrite decide_True by done. by exists str1. }
  rewrite decide_True by done. destruct (level =? 0); cbn [obind]; [by exists str1|].
  set (pg := page ++ _) in *. destruct H1 as [Hlen Hb].
  destruct (cgi_html_ws_strip_ok str1 level pg (drop (length (pg ++ [0])) (str_buf str1))) as (str2 & -> & H2 & _).
  { done. }
  { rewrite <-(take_drop (length (pg ++ [0])) (str_buf str1)) at 1. unfold begins in Hb. rewrite Hb.
    by rewrite <-app_assoc. }
  cbn [obind]. by exists str2.
Qed.

(** C29.  For a page of HTML that no debugger asked for, cgi_output sends the header
    lines of the data set and then the page with its footer, stripped, in the encoding it
    chose.  The Content-Encoding line is in the data set before the page is compressed:
    when that fails, the plain page follows it. *)
Theorem cgi_output_sends fuel cgi str page w s' enc :
  holds_page str page ->
  hdf_get_value (hdf cgi) [] (b! "cgiout.ContentType") (Some (b! "text/html")) = Some (b! "text/html") ->
  debug_asked (hdf cgi) (b! "Config.DebugPassword") = false ->
  choose_encoding true (hdf cgi) = (STATUS_OK, s', enc) -> others_have_values s' ->
  exists w',
    cgi_output deflate crc32 string_append seconds malloc_ok fuel cgi str w
      = Ret (STATUS_OK, set_hdf s' cgi, w') /\
    written w' = written w ++ concat (header_lines s') ++ body_text enc (page_text cgi enc w page) /\
    (enc <> (false, false) ->
     (exists v, (v = b! "Content-Encoding: deflate" \/ v = b! "Content-Encoding: gzip") /\
        hdf_get_value s' [] (b! "cgiout.other.encoding") None = Some v) /\
     ((forall n, malloc_ok n = false) \/ (forall d n, deflate d n = None) ->
      body_text enc (page_text cgi enc w page) = page_text cgi enc w page)).
Proof.
  intros Hp Hct Hdbg Henc Hoth. unfold cgi_output. rewrite Hct, Hdbg. cbn zeta. change (default (b! "text/html") (Some (b! "text/html"))) with (b! "text/html").
  change (strcasecmp (b! "text/html") (b! "text/html")) with true. rewrite Henc, decide_True by done.
  destruct (cgi_headers_ok (set_hdf s' cgi) w Hoth) as (w1 & -> & H1). cbn [obind].
  rewrite decide_True by done. cbn [hdf set_hdf time_start] in *.
  set (footer := if _ =? 0 then None else Some _). set (level := hdf_get_int_value _ _ _ _).
  destruct (finish_page_ok fuel s' footer level w1 str page (footer_text cgi enc w) Hp) as (str' & -> & H2).
  { unfold footer, footer_text. by destruct (_ =? 0). }
  cbn [obind]. rewrite decide_True by done.
  destruct (write_page_ok enc str' _ w1 H2) as (w2 & -> & H3). exists w2. split; [done|]. split.
  { rewrite H3, H1. unfold page_text. fold level. by rewrite <-app_assoc. }
  intros Hne. split.
  - unfold choose_encoding in Henc. destruct (true && _); [|by simplify_eq].
    destruct (hdf_get_copy _ _ _) as [err accept]. case_decide; [|by simplify_eq].
    destruct (if browser_ok _ then _ else _) as [d g].
    assert (good_name (b! "cgiout.other.encoding")) as Hg by (apply (bool_decide_unpack _); by vm_compute).
    assert (forall v s1, hdf_set_value (hdf cgi) [] (b! "cgiout.other.encoding") (Some v) = (STATUS_OK, s1) ->
      hdf_get_value s1 [] (b! "cgiout.other.encoding") None = Some v) as Hset.
    { intros v s1 E. destruct (hdf_set_value_law (hdf cgi) [] _ (Some v) Hg) as (s2 & E2 & D).
      rewrite E2 in E. injection E as <-. apply hdf_get_value_law; [done|]. rewrite D.
      apply (ds_set_at _ []), split_dots_nonempty. }
    destruct d; [|destruct g; [|by simplify_eq]];
      (destruct (hdf_set_value (hdf cgi) [] _ _) as [e2 s2] eqn:E; simplify_eq);
      eexists; (split; [|by apply Hset]); [by left|by right].
  - intros Hf. unfold body_text. destruct (enc.1 || enc.2); [|done].
    destruct Hf as [Hf|Hf]; [by rewrite Hf|]. rewrite Hf. by destruct (malloc_ok _).
Qed.

(** ** Cookies *)

(** [h] ends with [d], in lower or upper case. *)
Definition ends_nocase (h d : bytes) : bool :=
  bool_decide (map tolower d `suffix_of` map tolower h).

Lemma suffix_test h d :
  (length d <=? length h)%nat && strncasecmp (drop (length h - length d) h) d (length d) = ends_nocase h d.
Proof.
  apply eq_true_iff_eq. unfold ends_nocase. rewrite bool_decide_eq_true, andb_true_iff, Nat.leb_le.
  unfold strncasecmp, strcasecmp. rewrite list_Z_eqb_spec. split.
  - intros [Hle E]. rewrite !take_ge in E by (rewrite ?length_drop; lia).
    rewrite <-E. exists (map tolower (take (length h - length d) h)). by rewrite <-map_app, take_drop.
  - intros [k E]. assert (length h = length k + length d)%nat as Hl.
    { apply (f_equal length) in E. by rewrite length_app, !length_map in E. }
    split; [lia|]. rewrite !take_ge by (rewrite ?length_drop; lia).
    apply (f_equal (drop (length h - length d))) in E. rewrite skipn_map in E. rewrite E.
    rewrite drop_app_length'; [done|lia].
Qed.

Lemma find_authority_ok fuel s p host l r vs :
  ds_children (hdf_data s) p = l ++ r -> (length r <= fuel)%nat ->
  map (hdf_obj_value s) r = map Some vs ->
  find_authority fuel s host (head r) = Ret (List.find (ends_nocase host) vs).
Proof.
  revert l r vs. induction fuel as [|fuel IH]; intros l r vs Hc Hf Hv.
  { destruct r; [|cbn in Hf; lia]. by destruct vs. }
  destruct r as [|q r], vs as [|v vs]; try done; cbn [head find_authority List.find].
  injection Hv as -> Hv. rewrite suffix_test. destruct (ends_nocase host v); [done|].
  rewrite (hdf_obj_next_law s p l q r Hc). apply (IH (l ++ [q])); [by rewrite Hc, <-app_assoc|cbn in Hf; lia|done].
Qed.

(** cgi_cookie_authority gives the first domain listed under CookieAuthority with
    which the host name, without its port, ends; the host may continue the domain
    anywhere, not only at a dot. *)
Theorem cgi_cookie_authority_finds cgi host port domains o :
  hdf_get_obj (hdf cgi) [] (b! "CookieAuthority") = Some o ->
  child_values (hdf cgi) o = map Some domains ->
  Forall (fun c => c <> 58) host -> port = [] \/ head port = Some 58 ->
  cgi_cookie_authority cgi (Some (host ++ port)) = Ret (List.find (ends_nocase host) domains) /\
  forall d extra, In d domains -> host = extra ++ d -> List.find (ends_nocase host) domains <> None.
Proof.
  intros Ho Hv Hh Hp. split.
  - unfold cgi_cookie_authority.
    assert ((break_at (fun c => c =? 58) (host ++ port)).1 = host) as ->.
    { assert (Forall (fun c => (c =? 58) = false) host) as Hh'
        by (eapply List.Forall_impl; [|exact Hh]; cbn; lia).
      destruct port as [|c port]; [by rewrite app_nil_r, break_at_all|].
      destruct Hp as [Hp|Hp]; [done|]. injection Hp as ->. by rewrite break_at_stop. }
    rewrite Ho, hdf_obj_child_law.
    apply (find_authority_ok (S (length (hdf_data (hdf cgi)))) (hdf cgi) o host [] (ds_children (hdf_data (hdf cgi)) o));
      [done| |done]. pose proof (ds_children_length (hdf_data (hdf cgi)) o). lia.
  - intros d extra Hd -> Hnone. apply (find_none _ _ Hnone) in Hd. unfold ends_nocase in Hd.
    apply bool_decide_eq_false in Hd. apply Hd. rewrite map_app. by eexists.
Qed.
End Response.

(** ** Concrete responses *)

Definition demo_hdf2 : Hdf := flat_hdf (fun s => Some (atoi s)) format_d.

Definition set_values (l : list (string * string)) : flat :=
  fold_left (fun s nv => (flat_set s [] (bytes_of_string nv.1) (Some (bytes_of_string nv.2))).2) l flat_empty.

(** A browser that takes gzip, and a page that does not compress. *)
Definition demo_cgi : CGI (H := demo_hdf2) :=
  mkCGI (H := demo_hdf2) (set_values [("Config.CompressionEnabled", "1"); ("HTTP.AcceptEncoding", "gzip");
    ("HTTP.UserAgent", "Mozilla/5.0"); ("Config.TimeFooter", "0"); ("CookieAuthority.0", "neotonic.com")]%string)
    false 0 [] [] [] 0.

Definition demo_encoded : flat :=
  (choose_encoding (H := demo_hdf2) true (hdf demo_cgi)).1.2.

Lemma cgi_output_sends_witness :
  exists w', cgi_output (H := demo_hdf2) (fun _ _ => None) (fun _ => 0) demo_append (fun _ => []) (fun _ => true) 0
      demo_cgi (mkSTRING (b! "hi" ++ [0]) 2) (mkScript [] [] [] [])
      = Ret (STATUS_OK, set_hdf (H := demo_hdf2) demo_encoded demo_cgi, w') /\
    sc_output w' = b! "Content-Encoding: gzip" ++ crlf ++ b! "Content-Type: text/html" ++ crlf ++ crlf ++ b! "hi".
Proof.
  destruct (cgi_output_sends (H := demo_hdf2) (W := script_wrap) (fun _ _ => None) (fun _ => 0) demo_append demo_appends
    (fun _ => []) (fun _ => true) 0 demo_cgi (mkSTRING (b! "hi" ++ [0]) 2) (b! "hi") (mkScript [] [] [] [])
    demo_encoded (false, true)) as (w' & E & Hw & _).
  - done.
  - by vm_compute.
  - by vm_compute.
  - by vm_compute.
  - intros other Ho. vm_compute in Ho. injection Ho as <-. apply (bool_decide_unpack _). by vm_compute.
  - exists w'. split; [exact E|]. etransitivity; [exact Hw|]. by vm_compute.
Defined.

Lemma cgi_cookie_authority_finds_witness :
  cgi_cookie_authority (H := demo_hdf2) demo_cgi (Some (b! "evilNeotonic.com" ++ b! ":8080"))
    = Ret (Some (b! "neotonic.com")).
Proof.
  apply (cgi_cookie_authority_finds (H := demo_hdf2) demo_cgi (b! "evilNeotonic.com") (b! ":8080")
    [b! "neotonic.com"] [b! "CookieAuthority"]).
  - by vm_compute.
  - by vm_compute.
  - by repeat constructor.
  - by right.
Defined.
