(* ===== verification/CwfHttp.v ===== *)
(** The HTTP vocabulary of the web framework (cwf/http.h and cwf/http.cc): the
    enumerations with their names, the classes of status codes, the attributes of a
    header value and the dates.

    A position in a buffer is the rest of the buffer from there. *)
From Stdlib Require Import ZArith Lia Bool String.
From stdpp Require Import base list numbers.
From S2P Require Import Prelude Clib.

(** ** Enumerations *)

(** Standard HTTP status codes. *)
Inductive HttpStatusCode :=
  | HC_CONTINUE | HC_SWITCHING_PROTOCOLS | HC_PROCESSING | HC_OK | HC_CREATED | HC_ACCEPTED
  | HC_NON_AUTHORATIVE_INFORMATION | HC_NO_CONTENT | HC_RESET_CONTENT | HC_PARTIAL_CONTENT
  | HC_MULTI_STATUS | HC_MULTIPLE_CHOICES | HC_MOVED_PERMANENTLY | HC_FOUND | HC_SEE_OTHER
  | HC_NOT_MODIFIED | HC_USE_PROXY | HC_SWITCH_PROXY | HC_TEMPORARY_REDIRECT | HC_BAD_REQUEST
  | HC_UNAUTHORIZED | HC_PAYMENT_REQUIRED | HC_FORBIDDEN | HC_NOT_FOUND | HC_METHOD_NOT_ALLOWED
  | HC_NOT_ACCEPTABLE | HC_PROXY_AUTHENTICATION_REQUIRED | HC_REQUEST_TIMEOUT | HC_CONFLICT
  | HC_GONE | HC_LENGTH_REQUIRED | HC_PRECONDITION_FAILED | HC_REQUEST_ENTITY_TOO_LARGE
  | HC_REQUEST_URI_TOO_LONG | HC_UNSUPPORTED_MEDIA_TYPE | HC_REQUEST_RANGE_NOT_SATISFIABLE
  | HC_EXPECTATION_FAILED | HC_UNPROCESSABLE_ENTITY | HC_LOCKED | HC_FAILED_DEPENDENCY
  | HC_UNORDERED_COLLECTION | HC_UPGRADE_REQUIRED | HC_RETRY_WITH | HC_INTERNAL_SERVER_ERROR
  | HC_NOT_IMPLEMENTED | HC_BAD_GATEWAY | HC_SERVICE_UNAVAILABLE | HC_GATEWAY_TIMEOUT
  | HC_HTTP_VERSION_NOT_SUPPORTED | HC_INSUFFICIENT_STORAGE | HC_BANDWIDTH_LIMIT_EXCEEDED.

Definition code_value (c : HttpStatusCode) : Z :=
  match c with
  | HC_CONTINUE => 100 | HC_SWITCHING_PROTOCOLS => 101 | HC_PROCESSING => 102 | HC_OK => 200
  | HC_CREATED => 201 | HC_ACCEPTED => 202 | HC_NON_AUTHORATIVE_INFORMATION => 203
  | HC_NO_CONTENT => 204 | HC_RESET_CONTENT => 205 | HC_PARTIAL_CONTENT => 206
  | HC_MULTI_STATUS => 207 | HC_MULTIPLE_CHOICES => 300 | HC_MOVED_PERMANENTLY => 301
  | HC_FOUND => 302 | HC_SEE_OTHER => 303 | HC_NOT_MODIFIED => 304 | HC_USE_PROXY => 305
  | HC_SWITCH_PROXY => 306 | HC_TEMPORARY_REDIRECT => 307 | HC_BAD_REQUEST => 400
  | HC_UNAUTHORIZED => 401 | HC_PAYMENT_REQUIRED => 402 | HC_FORBIDDEN => 403 | HC_NOT_FOUND => 404
  | HC_METHOD_NOT_ALLOWED => 405 | HC_NOT_ACCEPTABLE => 406
  | HC_PROXY_AUTHENTICATION_REQUIRED => 407 | HC_REQUEST_TIMEOUT => 408 | HC_CONFLICT => 409
  | HC_GONE => 410 | HC_LENGTH_REQUIRED => 411 | HC_PRECONDITION_FAILED => 412
  | HC_REQUEST_ENTITY_TOO_LARGE => 413 | HC_REQUEST_URI_TOO_LONG => 414
  | HC_UNSUPPORTED_MEDIA_TYPE => 415 | HC_REQUEST_RANGE_NOT_SATISFIABLE => 416
  | HC_EXPECTATION_FAILED => 417 | HC_UNPROCESSABLE_ENTITY => 422 | HC_LOCKED => 423
  | HC_FAILED_DEPENDENCY => 424 | HC_UNORDERED_COLLECTION => 425 | HC_UPGRADE_REQUIRED => 426
  | HC_RETRY_WITH => 449 | HC_INTERNAL_SERVER_ERROR => 500 | HC_NOT_IMPLEMENTED => 501
  | HC_BAD_GATEWAY => 502 | HC_SERVICE_UNAVAILABLE => 503 | HC_GATEWAY_TIMEOUT => 504
  | HC_HTTP_VERSION_NOT_SUPPORTED => 505 | HC_INSUFFICIENT_STORAGE => 506
  | HC_BANDWIDTH_LIMIT_EXCEEDED => 509
  end.

Inductive HttpVersion :=
  | HVER_1_0 | HVER_1_1 | HVER_X.
Inductive HttpVerb :=
  | HV_GET | HV_POST | HV_PUT | HV_DELETE | HV_CONNECT | HV_HEAD.
Inductive HttpHeader :=
  | HH_ACCEPT | HH_ACCEPT_CHARSET | HH_ACCEPT_ENCODING | HH_ACCEPT_LANGUAGE | HH_AGE
  | HH_CACHE_CONTROL | HH_CONNECTION | HH_CONTENT_LENGTH | HH_CONTENT_RANGE | HH_CONTENT_TYPE
  | HH_COOKIE | HH_DATE | HH_ETAG | HH_EXPIRES | HH_HOST | HH_IF_MODIFIED_SINCE | HH_IF_NONE_MATCH
  | HH_KEEP_ALIVE | HH_LAST_MODIFIED | HH_LOCATION | HH_PROXY_AUTHENTICATE | HH_PROXY_AUTHORIZATION
  | HH_PROXY_CONNECTION | HH_RANGE | HH_SERVER | HH_SET_COOKIE | HH_TE | HH_TRAILERS
  | HH_TRANSFER_ENCODING | HH_UPGRADE | HH_USER_AGENT | HH_WWW_AUTHENTICATE.

#[export] Instance HttpStatusCode_eq_dec : EqDecision HttpStatusCode.
Proof. solve_decision. Defined.
#[export] Instance HttpVersion_eq_dec : EqDecision HttpVersion.
Proof. solve_decision. Defined.
#[export] Instance HttpVerb_eq_dec : EqDecision HttpVerb.
Proof. solve_decision. Defined.
#[export] Instance HttpHeader_eq_dec : EqDecision HttpHeader.
Proof. solve_decision. Defined.

(** The enumerators in order: the value of one is its place. *)
Definition versions : list HttpVersion :=
  [HVER_1_0; HVER_1_1; HVER_X].
Definition verbs : list HttpVerb :=
  [HV_GET; HV_POST; HV_PUT; HV_DELETE; HV_CONNECT; HV_HEAD].
Definition headers : list HttpHeader :=
  [HH_ACCEPT; HH_ACCEPT_CHARSET; HH_ACCEPT_ENCODING; HH_ACCEPT_LANGUAGE; HH_AGE; HH_CACHE_CONTROL;
   HH_CONNECTION; HH_CONTENT_LENGTH; HH_CONTENT_RANGE; HH_CONTENT_TYPE; HH_COOKIE; HH_DATE;
   HH_ETAG; HH_EXPIRES; HH_HOST; HH_IF_MODIFIED_SINCE; HH_IF_NONE_MATCH; HH_KEEP_ALIVE;
   HH_LAST_MODIFIED; HH_LOCATION; HH_PROXY_AUTHENTICATE; HH_PROXY_AUTHORIZATION;
   HH_PROXY_CONNECTION; HH_RANGE; HH_SERVER; HH_SET_COOKIE; HH_TE; HH_TRAILERS;
   HH_TRANSFER_ENCODING; HH_UPGRADE; HH_USER_AGENT; HH_WWW_AUTHENTICATE].

Definition kHttpVersions : list (list Z) :=
  [b! "1.0"; b! "1.1"; b! "1.x"].
Definition kHttpVerbs : list (list Z) :=
  [b! "GET"; b! "POST"; b! "PUT"; b! "DELETE"; b! "CONNECT"; b! "HEAD"].
Definition kHttpHeaders : list (list Z) :=
  [b! "Accept"; b! "Accept-Charset"; b! "Accept-Encoding"; b! "Accept-Language"; b! "Age";
   b! "Cache-Control"; b! "Connection"; b! "Content-Length"; b! "Content-Range"; b! "Content-Type";
   b! "Cookie"; b! "Date"; b! "ETag"; b! "Expires"; b! "Host"; b! "If-Modified-Since";
   b! "If-None-Match"; b! "Keep-Alive"; b! "Last-Modified"; b! "Location"; b! "Proxy-Authenticate";
   b! "Proxy-Authorization"; b! "Proxy-Connection"; b! "Range"; b! "Server"; b! "Set-Cookie";
   b! "TE"; b! "Trailers"; b! "Transfer-Encoding"; b! "Upgrade"; b! "User-Agent";
   b! "WWW-Authenticate"].

(** [_stricmp] of a C string and a name of a table, whether it is 0. *)
Definition stricmp_eq (needle name : list Z) : bool :=
  list_Z_eqb (map tolower (cstr needle)) (map tolower name).

Fixpoint find_string (index : nat) (needle : list Z) (haystack : list (list Z)) : option nat :=
  match haystack with
  | [] => None
  | name :: haystack => if stricmp_eq needle name then Some index else find_string (S index) needle haystack
  end.

(** [Enum<E>] for the enumerators [vals] with the table [Names]. *)
Class Enum (E : Type) := {
  vals : list E;
  Names : list (list Z);
}.
#[export] Instance HttpVersion_Enum : Enum HttpVersion := {| vals := versions; Names := kHttpVersions |}.
#[export] Instance HttpVerb_Enum : Enum HttpVerb := {| vals := verbs; Names := kHttpVerbs |}.
#[export] Instance HttpHeader_Enum : Enum HttpHeader := {| vals := headers; Names := kHttpHeaders |}.

Fixpoint position {A} `{EqDecision A} (x : A) (l : list A) : nat :=
  match l with
  | [] => 0
  | y :: l => if decide (x = y) then 0 else S (position x l)
  end%nat.
Definition ToString {E} `{!Enum E, !EqDecision E} (val : E) : list Z := nth (position val vals) Names [].
(** The value and the result; the value is kept when nothing matches. *)
Definition FromString {E} `{!Enum E} (val : E) (str : list Z) : E * bool :=
  match find_string 0 str Names with
  | None => (val, false)
  | Some index => (nth index vals val, true)
  end.

(** ** Status codes and headers *)

Definition HttpCodeIsInformational (code : Z) : bool := code / 100 =? 1.
Definition HttpCodeIsSuccessful (code : Z) : bool := code / 100 =? 2.
Definition HttpCodeIsRedirection (code : Z) : bool := code / 100 =? 3.
Definition HttpCodeIsClientError (code : Z) : bool := code / 100 =? 4.
Definition HttpCodeIsServerError (code : Z) : bool := code / 100 =? 5.

Definition HttpCodeHasBody (code : Z) : bool :=
  negb (HttpCodeIsInformational code) && negb (code =? code_value HC_NO_CONTENT)
  && negb (code =? code_value HC_NOT_MODIFIED).

Definition HttpCodeIsCacheable (code : Z) : bool :=
  existsb (fun c => code =? code_value c)
    [HC_OK; HC_UNAUTHORIZED; HC_PARTIAL_CONTENT; HC_MULTIPLE_CHOICES; HC_MOVED_PERMANENTLY; HC_GONE].

Definition HttpHeaderIsEndToEnd (header : HttpHeader) : bool :=
  match header with
  | HH_CONNECTION | HH_KEEP_ALIVE | HH_PROXY_AUTHENTICATE | HH_PROXY_AUTHORIZATION
  | HH_TE | HH_TRAILERS | HH_TRANSFER_ENCODING | HH_UPGRADE => false
  | _ => true
  end.

Definition HttpHeaderIsCollapsible (header : HttpHeader) : bool :=
  match header with
  | HH_SET_COOKIE | HH_PROXY_AUTHENTICATE | HH_WWW_AUTHENTICATE => false
  | _ => true
  end.

(** ** Attributes *)

Definition IsEndOfAttributeName (s : list Z) : bool :=
  match s with
  | [] => true
  | c :: t =>
      isspace c ||
      match t with
      | d :: _ => (c =? 61) && negb (isspace d) && negb (d =? 61)
      | [] => false
      end
  end.

(** The name and where it ends. *)
Fixpoint attribute_name (s : list Z) : list Z * list Z :=
  match s with
  | [] => ([], [])
  | c :: t => if IsEndOfAttributeName s then ([], s) else let '(n, r) := attribute_name t in (c :: n, r)
  end.

(** The value after the opening quote, and what follows the closing one. *)
Fixpoint quoted_value (s : list Z) : list Z * list Z :=
  match s with
  | [] => ([], [])
  | c :: t =>
      if c =? 34 then ([], t)
      else
        match t with
        | d :: u =>
            if c =? 92 then let '(v, r) := quoted_value u in (d :: v, r)
            else let '(v, r) := quoted_value t in (c :: v, r)
        | [] => ([c], [])
        end
  end.

Definition plain_value (s : list Z) : list Z * list Z :=
  span (fun c => negb (isspace c) && negb (c =? 44)) s.

(** One attribute, from its first character. *)
Definition parse_attribute (s : list Z) : (list Z * list Z) * list Z :=
  let '(name, s) := attribute_name s in
  let '(value, s) :=
    match s with
    | c :: t =>
        if c =? 61 then
          match t with
          | q :: u => if q =? 34 then quoted_value u else plain_value t
          | [] => ([], [])
          end
        else ([], s)
    | [] => ([], [])
    end in
  ((name, value), match s with c :: t => if c =? 44 then t else s | [] => [] end).

Fixpoint ParseAttributes_loop (k : nat) (s : list Z) (attributes : list (list Z * list Z))
    : outcome (list (list Z * list Z)) :=
  match k with
  | O => NoFuel
  | S k =>
      match skip_space s with
      | [] => Ret attributes
      | s => let '(a, s) := parse_attribute s in ParseAttributes_loop k s (attributes ++ [a])
      end
  end.
Definition HttpParseAttributes (data : list Z) (attributes : list (list Z * list Z))
    : outcome (list (list Z * list Z)) :=
  ParseAttributes_loop (S (length data)) data attributes.

Fixpoint HttpHasAttribute (attributes : list (list Z * list Z)) (name : list Z) : option (list Z) :=
  match attributes with
  | [] => None
  | (n, v) :: attributes => if list_Z_eqb n name then Some v else HttpHasAttribute attributes name
  end.
Definition HttpHasNthAttribute (attributes : list (list Z * list Z)) (index : nat) : option (list Z * list Z) :=
  attributes !! index.

(** ** Dates *)

(** [sscanf], one definition per directive; the results are what was read and the
    rest of the input. *)
Definition scan_word (width : nat) (s : list Z) : option (list Z * list Z) :=
  let '(w, _) := span (fun c => negb (isspace c)) (take width (skip_space s)) in
  match w with [] => None | _ => Some (w, drop (length w) (skip_space s)) end.
Definition scan_char (c : Z) (s : list Z) : option (list Z) :=
  match s with d :: t => if d =? c then Some t else None | [] => None end.
(** [strtol] saturates and the value is converted to [int]. *)
Definition scan_int (s : list Z) : option (Z * list Z) :=
  let s := skip_space s in
  let '(neg, s) :=
    match s with
    | c :: t => if c =? 45 then (true, t) else if c =? 43 then (false, t) else (false, s)
    | [] => (false, s)
    end in
  let '(ds, r) := span isdigit s in
  match ds with
  | [] => None
  | _ =>
      let v := dec_value ds in
      Some (s32 (if neg : bool then Z.max (- v) (- 2 ^ 63) else Z.min v (2 ^ 63 - 1)), r)
  end.
Definition scan_bytes (width : nat) (s : list Z) : option (list Z * list Z) :=
  match s with [] => None | _ => Some (take width s, drop width s) end.

Record tm := mkTm {
  tm_mday : Z;
  tm_mon : Z;
  tm_year : Z;
  tm_hour : Z;
  tm_min : Z;
  tm_sec : Z;
}.

(** "%*3s, %d %3s %d %d:%d:%d %5c": the fields, the month and the zone. *)
Definition scan_date (s : list Z) : option (tm * list Z * list Z) :=
  '(_, s) ← scan_word 3 s;
  s ← scan_char 44 s;
  '(mday, s) ← scan_int (skip_space s);
  '(month, s) ← scan_word 3 (skip_space s);
  '(year, s) ← scan_int (skip_space s);
  '(hour, s) ← scan_int (skip_space s);
  s ← scan_char 58 s;
  '(min, s) ← scan_int s;
  s ← scan_char 58 s;
  '(sec, s) ← scan_int s;
  '(zone, _) ← scan_bytes 5 (skip_space s);
  Some (mkTm mday 0 year hour min sec, month, zone).

Definition toupper (c : Z) : Z := if (97 <=? c) && (c <=? 122) then c - 32 else c.

(** The switch on the month, an array of four characters padded with NUL. *)
Definition month_number (month : list Z) : Z :=
  let m i := nth i month 0 in
  let c := toupper (m 2%nat) in
  if c =? 78 then (if m 1%nat =? 65 then 0 else 5)
  else if c =? 66 then 1
  else if c =? 82 then (if m 0%nat =? 77 then 2 else 3)
  else if c =? 89 then 4
  else if c =? 76 then 6
  else if c =? 71 then 7
  else if c =? 80 then 8
  else if c =? 84 then 9
  else if c =? 86 then 10
  else if c =? 67 then 11
  else 0.

Definition kTimeZones : list (list Z) :=
  [b! "UT"; b! "GMT"; b! "EST"; b! "EDT"; b! "CST"; b! "CDT"; b! "MST"; b! "MDT"; b! "PST"; b! "PDT";
   b! "A"; b! "B"; b! "C"; b! "D"; b! "E"; b! "F"; b! "G"; b! "H"; b! "I"; b! "K"; b! "L"; b! "M";
   b! "N"; b! "O"; b! "P"; b! "Q"; b! "R"; b! "S"; b! "T"; b! "U"; b! "V"; b! "W"; b! "X"; b! "Y"].
Definition kTimeZoneOffsets : list Z :=
  [0; 0; -5; -4; -6; -5; -7; -6; -8; -7;
   -1; -2; -3; -4; -5; -6; -7; -8; -9; -10; -11; -12;
   1; 2; 3; 4; 5; 6; 7; 8; 9; 10; 11; 12].

Section Dates.
(** [mktime] and [timezone] depend on where the process runs. *)
Variable mktime : tm -> Z.
Variable timezone : Z.

(** [None] is the result false. *)
Definition HttpDateToSeconds (date : list Z) : option Z :=
  '(t, month, zone) ← scan_date (cstr date);
  let t := mkTm (tm_mday t) (month_number month) (s32 (tm_year t - 1900)) (tm_hour t) (tm_min t) (tm_sec t) in
  let non_gmt := u64 (mktime t) in
  let z i := nth i zone 0 in
  gmt ← (if (z 0%nat =? 43) || (z 0%nat =? 45) then
           if negb (isdigit (z 1%nat)) || negb (isdigit (z 2%nat)) || negb (isdigit (z 3%nat)) || negb (isdigit (z 4%nat))
           then None
           else
             let hours := (z 1%nat - 48) * 10 + (z 2%nat - 48) in
             let minutes := (z 3%nat - 48) * 10 + (z 4%nat - 48) in
             let offset := (hours * 60 + minutes) * 60 in
             Some (if negb (u64 (non_gmt + Z.b2z (z 0%nat =? 43)) =? 0) then u64 offset else u64 (- offset))
         else
           zindex ← find_string 0 zone kTimeZones;
           Some (u64 (non_gmt + nth zindex kTimeZoneOffsets 0 * 60 * 60)));
  Some (u64 (gmt - timezone)).
End Dates.

(** ** Names and values *)

(** The enumerators are all there, and no two names are the same for [_stricmp]. *)
Class EnumLaws (E : Type) `{!Enum E, !EqDecision E} : Prop := {
  vals_all : forall v : E, v ∈ vals;
  vals_once : NoDup (vals (E := E));
  names_length : length Names = length vals;
  names_distinct : NoDup (map (map tolower) Names);
}.
#[export] Instance HttpVersion_laws : EnumLaws HttpVersion.
Proof. split; [intros []| |done|]; apply (bool_decide_unpack _); by vm_compute. Qed.
#[export] Instance HttpVerb_laws : EnumLaws HttpVerb.
Proof. split; [intros []| |done|]; apply (bool_decide_unpack _); by vm_compute. Qed.
#[export] Instance HttpHeader_laws : EnumLaws HttpHeader.
Proof. split; [intros []| |done|]; apply (bool_decide_unpack _); by vm_compute. Qed.

Lemma stricmp_eq_spec s n : stricmp_eq s n = true <-> map tolower (cstr s) = map tolower n.
Proof. apply list_Z_eqb_spec. Qed.

Lemma find_string_spec i s h :
  match find_string i s h with
  | Some j => exists k n, j = (i + k)%nat /\ h !! k = Some n /\ stricmp_eq s n = true
  | None => forall n, n ∈ h -> stricmp_eq s n = false
  end.
Proof.
  revert i. induction h as [|n h IH]; intros i; cbn [find_string]; [by intros n ?%not_elem_of_nil|].
  destruct (stricmp_eq s n) eqn:E; [exists 0%nat, n; by rewrite Nat.add_0_r|].
  specialize (IH (S i)). destruct (find_string (S i) s h) as [j|].
  - destruct IH as (k & m & -> & ? & ?). exists (S k), m. split_and!; [lia|done|done].
  - intros m [->|Hm]%elem_of_cons; auto.
Qed.

Lemma position_lookup {A} `{EqDecision A} (x : A) l : x ∈ l -> l !! position x l = Some x.
Proof.
  induction l as [|y l IH]; [by intros ?%not_elem_of_nil|]. cbn [position]. case_decide as E; [by subst|].
  intros [?|Hx]%elem_of_cons; [done|]. by apply IH.
Qed.

Section Enums.
Context {E : Type} `{HE : Enum E, !EqDecision E, !EnumLaws E}.

Lemma ToString_lookup (v : E) : Names !! position v vals = Some (ToString v).
Proof.
  pose proof (position_lookup v vals (vals_all v)) as Hv. apply lookup_lt_Some in Hv as Hl. rewrite <- names_length in Hl.
  unfold ToString. destruct (lookup_lt_is_Some_2 Names (position v vals) Hl) as [n Hn]. rewrite Hn.
  f_equal. by rewrite (nth_lookup_Some _ _ _ _ Hn).
Qed.

Lemma names_once i j s n m : Names !! i = Some n -> Names !! j = Some m ->
  stricmp_eq s n = true -> stricmp_eq s m = true -> i = j.
Proof.
  intros Hi Hj Hn%stricmp_eq_spec Hm%stricmp_eq_spec. eapply (NoDup_lookup _ i j _ names_distinct).
  - by rewrite list_lookup_fmap, Hi.
  - rewrite list_lookup_fmap, Hj. cbn. by rewrite <- Hn, Hm.
Qed.

(** Parsing the name of an enumerator gives the enumerator back, in any mixture
    of cases; what parses is the name of the result; and any other text is refused
    and the variable keeps its value. *)
Theorem FromString_ToString (w v : E) s :
  (stricmp_eq s (ToString v) = true -> FromString w s = (v, true)) /\
  (FromString w s = (v, true) -> stricmp_eq s (ToString v) = true) /\
  (FromString w s = (v, false) -> v = w /\ forall u : E, stricmp_eq s (ToString u) = false).
Proof.
  unfold FromString. pose proof (find_string_spec 0 s Names) as H. destruct (find_string 0 s Names) as [j|].
  - destruct H as (k & n & -> & Hk & Hs). cbn [Nat.add]. apply lookup_lt_Some in Hk as Hl. rewrite names_length in Hl.
    destruct (lookup_lt_is_Some_2 vals k Hl) as [u Hu]. rewrite (nth_lookup_Some _ _ w _ Hu).
    assert (Hpos : forall v : E, stricmp_eq s (ToString v) = true -> u = v).
    { intros x Hx. rewrite (names_once _ _ _ _ _ Hk (ToString_lookup x) Hs Hx) in Hu.
      rewrite (position_lookup x vals (vals_all x)) in Hu. by injection Hu. }
    split_and!; [by intros ->%Hpos| |by intros [=]]. intros [= <-].
    rewrite (NoDup_lookup _ _ _ _ vals_once Hu (position_lookup u vals (vals_all u))) in Hk.
    rewrite ToString_lookup in Hk. by injection Hk as ->.
  - assert (Hno : forall u : E, stricmp_eq s (ToString u) = false).
    { intros u. apply H. apply list_elem_of_lookup. eexists. apply ToString_lookup. }
    split_and!; [by rewrite Hno|by intros [=]|]. by intros [= <-].
Qed.
End Enums.

Example FromString_ToString_witness :
  FromString HH_AGE (b! "content-TYPE") = (HH_CONTENT_TYPE, true).
Proof. apply (FromString_ToString HH_AGE HH_CONTENT_TYPE (b! "content-TYPE")). by vm_compute. Defined.

(** ** Attributes *)

(** How an attribute is written: a name alone, with a plain or with a quoted value. *)
Inductive attribute_form := Bare | Plain | Quoted.

Definition quote (v : list Z) : list Z :=
  flat_map (fun c => if (c =? 34) || (c =? 92) then [92; c] else [c]) v.
Definition attribute_text (f : attribute_form) (a : list Z * list Z) : list Z :=
  match f with
  | Bare => a.1
  | Plain => a.1 ++ 61 :: a.2
  | Quoted => a.1 ++ 61 :: 34 :: quote a.2 ++ [34]
  end.

Definition spaces (s : list Z) : Prop := Forall (fun c => isspace c = true) s.
Definition name_char (c : Z) : Prop := isspace c = false /\ c <> 61.
Definition plain_char (c : Z) : Prop := isspace c = false /\ c <> 44.
(** A name does not begin with a comma, a plain value not with an equals sign or a quote;
    a bare name is followed by a space, the others also by a comma. *)
Definition attribute_ok (f : attribute_form) (a : list Z * list Z) (sep : list Z) : Prop :=
  Forall name_char a.1 /\ hd 0 a.1 <> 44 /\
  match f with
  | Bare => a.1 <> [] /\ a.2 = [] /\ spaces sep /\ sep <> []
  | Plain => (exists c v, a.2 = c :: v /\ c <> 61 /\ c <> 34) /\ Forall plain_char a.2 /\
      sep <> [] /\ exists u, (sep = u \/ sep = 44 :: u) /\ spaces u
  | Quoted => exists u, (sep = u \/ sep = 44 :: u) /\ spaces u
  end.

Fixpoint attributes_text (l : list (attribute_form * (list Z * list Z) * list Z)) : list Z :=
  match l with
  | [] => []
  | (f, a, sep) :: l => attribute_text f a ++ sep ++ attributes_text l
  end.

Lemma skip_space_spaces u s : spaces u -> skip_space (u ++ s) = skip_space s.
Proof. induction 1 as [|c u Hc Hu IH]; [done|]. cbn [app skip_space]. by rewrite Hc. Qed.

Lemma attribute_name_char c t : name_char c -> attribute_name (c :: t) = (c :: (attribute_name t).1, (attribute_name t).2).
Proof.
  intros [Hs Hc]. cbn [attribute_name IsEndOfAttributeName]. rewrite Hs, (proj2 (Z.eqb_neq _ _) Hc). cbn [orb].
  destruct t; cbn [andb]; by destruct (attribute_name _).
Qed.

Lemma attribute_name_app n s : Forall name_char n -> attribute_name (n ++ s) = (n ++ (attribute_name s).1, (attribute_name s).2).
Proof.
  induction 1 as [|c n Hc Hn IH]; cbn [app]; [by destruct (attribute_name s)|].
  rewrite attribute_name_char by done. by rewrite IH.
Qed.

Lemma attribute_name_end s : IsEndOfAttributeName s = true -> attribute_name s = ([], s).
Proof. intros H. destruct s; [done|]. cbn [attribute_name]. by rewrite H. Qed.

Lemma quoted_value_quote v r : quoted_value (quote v ++ 34 :: r) = (v, r).
Proof.
  induction v as [|c v IH]; [done|]. cbn [quote flat_map]. fold (quote v). destruct ((c =? 34) || (c =? 92)) eqn:E.
  - cbn [app quoted_value Z.eqb]. change (92 =? 34) with false. change (92 =? 92) with true. cbn iota. by rewrite IH.
  - apply orb_false_iff in E as [E1 E2]. cbn [app quoted_value]. rewrite E1, E2.
    destruct (quote v ++ 34 :: r) eqn:Eq; [by destruct (quote v)|]. by rewrite IH.
Qed.

Lemma plain_value_app v s : Forall plain_char v -> match s with c :: _ => isspace c = true \/ c = 44 | [] => True end ->
  plain_value (v ++ s) = (v, s).
Proof.
  intros Hv Hs. unfold plain_value. induction Hv as [|c v [Hc Hn] Hv IH]; cbn [app span].
  - destruct s as [|c s]; [done|]. cbn [span]. destruct Hs as [->| ->]; [done|]. by rewrite andb_false_r.
  - rewrite Hc, (proj2 (Z.eqb_neq _ _) Hn). cbn [negb andb]. by rewrite IH.
Qed.

(** What is left of a separator after one comma. *)
Lemma drop_comma u sep s : sep = u \/ sep = 44 :: u -> spaces u ->
  exists u', spaces u' /\ match sep ++ s with c :: t => if c =? 44 then t else sep ++ s | [] => [] end =
    (if decide (sep = []) then match s with c :: t => if c =? 44 then t else s | [] => [] end else u' ++ s).
Proof.
  intros [->| ->] Hu; [|exists u; by split]. destruct u as [|c u]; [exists []; split; [constructor|by destruct s]|].
  exists (c :: u). split; [done|]. cbn [app]. apply List.Forall_cons_iff in Hu as [Hc _].
  destruct (Z.eqb_spec c 44) as [->|]; done.
Qed.

Lemma parse_attribute_text f a sep s : attribute_ok f a sep ->
  match s with c :: _ => c <> 44 | [] => True end ->
  exists u, spaces u /\ parse_attribute (attribute_text f a ++ sep ++ s) = (a, u ++ s).
Proof.
  intros (Hn & _ & Ha) Hs. destruct a as [n v]. cbn [fst snd] in *. unfold parse_attribute. destruct f; cbn [attribute_text fst snd].
  - destruct Ha as (Hne & -> & Hsp & Hsn). rewrite attribute_name_app by done.
    destruct sep as [|c u]; [done|]. apply List.Forall_cons_iff in Hsp as [Hc Hu].
    assert (Hc1 : c <> 61 /\ c <> 44) by (split; intros ->; discriminate). cbn [app].
    rewrite attribute_name_end by (cbn [IsEndOfAttributeName]; by rewrite Hc). cbn [fst snd].
    rewrite app_nil_r, !(proj2 (Z.eqb_neq _ _)) by tauto. exists (c :: u). split; [by constructor|done].
  - destruct Ha as ((c & v' & -> & Hc61 & Hc34) & Hp & Hsne & u & Hsep & Hu). rewrite <- app_assoc. cbn [app].
    rewrite attribute_name_app by done. apply List.Forall_cons_iff in Hp as Hp'. destruct Hp' as [[Hcs Hc44] _].
    rewrite attribute_name_end.
    2:{ cbn [IsEndOfAttributeName]. rewrite Hcs, (proj2 (Z.eqb_neq _ _) Hc61). done. }
    cbn [fst snd]. change (61 =? 61) with true. cbn iota. rewrite (proj2 (Z.eqb_neq _ _) Hc34), app_nil_r.
    change (c :: v' ++ sep ++ s) with ((c :: v') ++ sep ++ s).
    rewrite (plain_value_app (c :: v') (sep ++ s)); [|done|].
    2:{ destruct Hsep as [->| ->]; cbn [app]; [|by right]. destruct u as [|d u]; [done|]. left.
        by apply List.Forall_cons_iff in Hu as [? _]. }
    destruct (drop_comma u sep s Hsep Hu) as (u' & Hu' & ->). rewrite decide_False by done. by exists u'.
  - destruct Ha as (u & Hsep & Hu). rewrite <- app_assoc. cbn [app]. rewrite attribute_name_app by done.
    rewrite attribute_name_end by done. cbn [fst snd]. change (61 =? 61) with true. change (34 =? 34) with true.
    cbn iota. rewrite <- app_assoc. cbn [app]. rewrite quoted_value_quote, app_nil_r.
    destruct (drop_comma u sep s Hsep Hu) as (u' & Hu' & ->). case_decide; [|by exists u'].
    exists []. split; [constructor|]. destruct s as [|c s]; [done|]. by rewrite (proj2 (Z.eqb_neq _ _) Hs).
Qed.

Definition attributes_of (l : list (attribute_form * (list Z * list Z) * list Z)) : list (list Z * list Z) :=
  map (fun x => x.1.2) l.
Definition attributes_ok (l : list (attribute_form * (list Z * list Z) * list Z)) : Prop :=
  Forall (fun x => attribute_ok x.1.1 x.1.2 x.2) l.

(** An attribute begins with a character that is neither a space nor a comma. *)
Lemma attribute_text_head f a sep s : attribute_ok f a sep ->
  exists c t, attribute_text f a ++ s = c :: t /\ isspace c = false /\ c <> 44.
Proof.
  intros (Hn & Hh & Ha). destruct a as [[|c n] v]; cbn [fst snd hd] in *.
  - destruct f; cbn [attribute_text fst snd app]; [by destruct Ha|by eexists _, _|by eexists _, _].
  - apply List.Forall_cons_iff in Hn as [[Hc _] _]. destruct f; cbn [attribute_text fst snd app]; by eexists _, _.
Qed.

Lemma attributes_text_head l : attributes_ok l -> match attributes_text l with c :: _ => c <> 44 | [] => True end.
Proof.
  destruct l as [|[[f a] sep] l]; [done|]. intros [H _]%List.Forall_cons_iff. cbn [attributes_text].
  by destruct (attribute_text_head f a sep (sep ++ attributes_text l) H) as (c & t & -> & _ & ?).
Qed.

Lemma ParseAttributes_loop_text l : forall k u acc, attributes_ok l -> spaces u -> (length l < k)%nat ->
  ParseAttributes_loop k (u ++ attributes_text l) acc = Ret (acc ++ attributes_of l).
Proof.
  induction l as [|[[f a] sep] l IH]; intros k u acc Hl Hu Hk; (destruct k as [|k]; [lia|]);
    cbn [ParseAttributes_loop]; rewrite skip_space_spaces by done; cbn [attributes_text attributes_of map].
  { cbn. by rewrite app_nil_r. }
  apply List.Forall_cons_iff in Hl as [Ha Hl]. cbn [fst snd] in Ha.
  destruct (attribute_text_head f a sep (sep ++ attributes_text l) Ha) as (c & t & E & Hc & _).
  assert (Es : skip_space (attribute_text f a ++ sep ++ attributes_text l) = attribute_text f a ++ sep ++ attributes_text l).
  { rewrite E. cbn [skip_space]. by rewrite Hc. }
  rewrite Es. destruct (parse_attribute_text f a sep (attributes_text l) Ha (attributes_text_head l Hl)) as (u' & Hu' & Ep).
  rewrite E. cbn iota. rewrite <- E, Ep. rewrite IH by (done || (cbn in Hk; lia)). cbn [fst snd]. by rewrite <- app_assoc.
Qed.

Lemma attributes_text_length l : attributes_ok l -> (length l <= length (attributes_text l))%nat.
Proof.
  induction l as [|[[f a] sep] l IH]; [done|]. intros [Ha Hl]%List.Forall_cons_iff. cbn [attributes_text length fst snd] in *.
  destruct (attribute_text_head f a sep [] Ha) as (c & t & E & _). apply (f_equal length) in E.
  rewrite app_nil_r in E. rewrite !length_app, E. cbn [length]. specialize (IH Hl). lia.
Qed.

(** [HttpParseAttributes] reads back a list of attributes written in any of the
    three forms, quoted values with their escapes included, and adds them to those
    it was given. *)
Theorem HttpParseAttributes_roundtrip u l acc : attributes_ok l -> spaces u ->
  HttpParseAttributes (u ++ attributes_text l) acc = Ret (acc ++ attributes_of l).
Proof.
  intros Hl Hu. apply ParseAttributes_loop_text; [done|done|]. rewrite length_app.
  pose proof (attributes_text_length l Hl). lia.
Qed.

(** " Digest realm=" and a quoted string with a quote in it, ", qop=auth, n=1 ". *)
Definition demo_attributes : list (attribute_form * (list Z * list Z) * list Z) :=
  [(Bare, (b! "Digest", []), b! " "); (Quoted, (b! "realm", [97; 34]), b! ", ");
   (Plain, (b! "qop", b! "auth"), b! ", "); (Plain, (b! "n", b! "1"), b! " ")].
Example HttpParseAttributes_roundtrip_witness :
  HttpParseAttributes (b! " Digest realm=" ++ [34; 97; 92; 34; 34] ++ b! ", qop=auth, n=1 ") []
    = Ret [(b! "Digest", []); (b! "realm", [97; 34]); (b! "qop", b! "auth"); (b! "n", b! "1")].
Proof.
  apply (HttpParseAttributes_roundtrip (b! " ") demo_attributes []); [|by repeat constructor].
  unfold attributes_ok, demo_attributes. repeat apply List.Forall_cons; try apply List.Forall_nil;
    (split; [repeat constructor; discriminate|]); (split; [discriminate|]); cbn [fst snd].
  - split_and!; [done|done|by repeat constructor|done].
  - exists (b! " "). split; [by right|by repeat constructor].
  - split; [by eexists _, _|]. split; [repeat constructor; discriminate|]. split; [done|].
    exists (b! " "). split; [by right|by repeat constructor].
  - split; [by eexists _, _|]. split; [repeat constructor; discriminate|]. split; [done|].
    exists (b! " "). split; [by left|by repeat constructor].
Defined.

(** A name alone that is followed by a comma keeps it, and is not found. *)
Example bare_attribute_keeps_comma :
  HttpParseAttributes (b! "no-cache, no-store") [] = Ret [(b! "no-cache,", []); (b! "no-store", [])] /\
  HttpHasAttribute [(b! "no-cache,", []); (b! "no-store", [])] (b! "no-cache") = None.
Proof. by vm_compute. Qed.

(** ** Termination *)

Lemma span_length f s : (length (span f s).2 <= length s)%nat.
Proof. induction s as [|c s IH]; [done|]. cbn [span]. destruct (f c); cbn; lia. Qed.

Lemma quoted_value_length s : (length (quoted_value s).2 <= length s)%nat.
Proof.
  assert (H : forall n s, (length s <= n)%nat -> (length (quoted_value s).2 <= length s)%nat); [|by apply (H (length s))].
  clear s. induction n as [|n IH]; intros [|c t] Hn; cbn [length] in Hn; try (cbn; lia). cbn [quoted_value].
  destruct (c =? 34); [cbn; lia|]. destruct t as [|d u]; [cbn; lia|]. cbn [length] in Hn. destruct (c =? 92).
  - pose proof (IH u ltac:(lia)). destruct (quoted_value u). cbn in *. lia.
  - pose proof (IH (d :: u) ltac:(cbn; lia)). destruct (quoted_value (d :: u)). cbn in *. lia.
Qed.

Lemma attribute_name_length s : (length (attribute_name s).1 + length (attribute_name s).2 = length s)%nat.
Proof.
  induction s as [|c t IH]; [done|]. cbn [attribute_name]. destruct (IsEndOfAttributeName _); [done|].
  destruct (attribute_name t). cbn in *. lia.
Qed.

Lemma parse_attribute_length c t : isspace c = false -> (length (parse_attribute (c :: t)).2 <= length t)%nat.
Proof.
  intros Hc. unfold parse_attribute. pose proof (attribute_name_length (c :: t)) as Hn.
  assert (H1 : (attribute_name (c :: t)).1 = [] -> (attribute_name (c :: t)).2 = 61 :: t).
  { cbn [attribute_name]. destruct (IsEndOfAttributeName (c :: t)) eqn:E; [|by destruct (attribute_name t)].
    intros _. cbn [IsEndOfAttributeName] in E. rewrite Hc in E. destruct t; [done|]. cbn [orb] in E.
    destruct (Z.eqb_spec c 61) as [->|]; done. }
  destruct (attribute_name (c :: t)) as [n s]. cbn [fst snd length] in *.
  assert (Hcomma : forall s, (length (match s with c :: t => if (c =? 44)%Z then t else s | [] => [] end) <= length s)%nat).
  { intros [|d u]; [done|]. destruct (d =? 44); cbn; lia. }
  destruct s as [|d u]; [cbn; lia|]. destruct (Z.eqb_spec d 61) as [->|Hd].
  - assert (Hu : (length u <= length t)%nat) by (cbn [length] in Hn; lia). destruct u as [|q w]; [cbn; lia|].
    destruct (q =? 34); [pose proof (quoted_value_length w) as Hv|pose proof (span_length (fun c => negb (isspace c) && negb (c =? 44)) (q :: w)) as Hv].
    + destruct (quoted_value w) as [v r]. cbn [snd] in *. specialize (Hcomma r). cbn [length] in *. lia.
    + unfold plain_value. destruct (span _ (q :: w)) as [v r]. cbn [snd] in *. specialize (Hcomma r). cbn [length] in *. lia.
  - assert (n <> []) by (intros ->; specialize (H1 eq_refl); by injection H1).
    cbn [snd]. specialize (Hcomma (d :: u)). destruct n; [done|]. cbn [length] in *. lia.
Qed.

Lemma skip_space_head s : match skip_space s with c :: _ => isspace c = false | [] => True end /\
  (length (skip_space s) <= length s)%nat.
Proof.
  induction s as [|c s [H1 H2]]; [done|]. cbn [skip_space]. destruct (isspace c) eqn:E; [split; [done|cbn; lia]|done].
Qed.

(** Whatever the text is, [HttpParseAttributes] ends. *)
Theorem HttpParseAttributes_total data acc : returns (HttpParseAttributes data acc).
Proof.
  unfold HttpParseAttributes. assert (H : forall k s acc, (length s < k)%nat -> returns (ParseAttributes_loop k s acc)).
  { induction k as [|k IH]; intros s acc' Hk; [lia|]. cbn [ParseAttributes_loop].
    destruct (skip_space_head s) as [H1 H2]. destruct (skip_space s) as [|c t]; [by eexists|].
    pose proof (parse_attribute_length c t H1). destruct (parse_attribute (c :: t)) as [a r]. cbn [snd length] in *.
    apply IH. lia. }
  apply H. lia.
Qed.

(** ** Dates *)

Definition digit_char (n : Z) : Z := 48 + n mod 10.
Definition two_digits (n : Z) : list Z := [digit_char (n / 10); digit_char n].
Definition four_digits (n : Z) : list Z := two_digits (n / 100) ++ two_digits n.
Definition month_names : list (list Z) :=
  [b! "Jan"; b! "Feb"; b! "Mar"; b! "Apr"; b! "May"; b! "Jun"; b! "Jul"; b! "Aug"; b! "Sep"; b! "Oct"; b! "Nov"; b! "Dec"].

(** A date of RFC 1123, the months counted from 0. *)
Definition http_date (wday : list Z) (t : tm) (zone : list Z) : list Z :=
  wday ++ b! ", " ++ two_digits (tm_mday t) ++ [32] ++ nth (Z.to_nat (tm_mon t)) month_names [] ++ [32]
  ++ four_digits (tm_year t) ++ [32] ++ two_digits (tm_hour t) ++ [58] ++ two_digits (tm_min t) ++ [58]
  ++ two_digits (tm_sec t) ++ [32] ++ zone.

Record date_ok (wday : list Z) (t : tm) : Prop := {
  date_wday : length wday = 3%nat /\ Forall (fun c => isspace c = false /\ c <> 0) wday;
  date_mday : 0 <= tm_mday t < 100;
  date_mon : 0 <= tm_mon t < 12;
  date_year : 0 <= tm_year t < 10000;
  date_time : 0 <= tm_hour t < 100 /\ 0 <= tm_min t < 100 /\ 0 <= tm_sec t < 100;
}.

Lemma digit_char_range n : 48 <= digit_char n <= 57.
Proof. unfold digit_char. pose proof (Z.mod_pos_bound n 10 ltac:(lia)). lia. Qed.
Lemma isdigit_range c : isdigit c = true <-> 48 <= c <= 57.
Proof. unfold isdigit. rewrite andb_true_iff, !Z.leb_le. lia. Qed.
Lemma digit_not_space c : 48 <= c <= 57 -> isspace c = false.
Proof. intros H. unfold isspace. destruct (Z.eqb_spec c 32), (Z.leb_spec 9 c), (Z.leb_spec c 13); cbn; lia || done. Qed.

(** A number before a character that is no digit. *)
Lemma scan_int_digits c ds r v : Forall (fun c => 48 <= c <= 57) (c :: ds) -> isdigit (hd 0 r) = false ->
  dec_value (c :: ds) = v -> 0 <= v < 2 ^ 31 -> scan_int ((c :: ds) ++ r) = Some (v, r).
Proof.
  intros Hd Hr Hv Hb. apply List.Forall_cons_iff in Hd as Hd'. destruct Hd' as [Hc _]. unfold scan_int. cbn [app skip_space].
  rewrite digit_not_space by done. rewrite !(proj2 (Z.eqb_neq c _)) by lia.
  assert (Hspan : span isdigit ((c :: ds) ++ r) = (c :: ds, r)).
  { clear Hc Hv. induction Hd as [|d l Hx Hl IH]; cbn [app span].
    - destruct r as [|x r]; [done|]. cbn [hd] in Hr. cbn [span]. by rewrite Hr.
    - rewrite (proj2 (isdigit_range d) Hx), IH. done. }
  cbn [app] in Hspan. rewrite Hspan, Hv. rewrite Z.min_l by lia. by rewrite s32_small by lia.
Qed.

Lemma scan_two n r : 0 <= n < 100 -> isdigit (hd 0 r) = false -> scan_int (two_digits n ++ r) = Some (n, r).
Proof.
  intros Hn Hr. apply scan_int_digits; [repeat constructor; apply digit_char_range|done| |lia].
  unfold dec_value, digit_char. cbn [fold_left].
  pose proof (Z.div_mod n 10 ltac:(lia)). pose proof (Z.mod_pos_bound n 10 ltac:(lia)).
  rewrite (Z.mod_small (n / 10)) by lia. lia.
Qed.
Lemma scan_four n r : 0 <= n < 10000 -> isdigit (hd 0 r) = false -> scan_int (four_digits n ++ r) = Some (n, r).
Proof.
  intros Hn Hr. apply scan_int_digits; [repeat constructor; apply digit_char_range|done| |lia].
  unfold dec_value, two_digits, digit_char. cbn [fold_left].
  pose proof (Z.div_mod n 100 ltac:(lia)). pose proof (Z.mod_pos_bound n 100 ltac:(lia)).
  pose proof (Z.div_mod (n / 100) 10 ltac:(lia)). pose proof (Z.mod_pos_bound (n / 100) 10 ltac:(lia)).
  pose proof (Z.div_mod n 10 ltac:(lia)). pose proof (Z.mod_pos_bound n 10 ltac:(lia)).
  rewrite (Z.mod_small (n / 100 / 10)) by lia.
  assert (n / 10 = n / 100 * 10 + n / 10 mod 10).
  { assert (n / 100 = n / 10 / 10) as -> by (by rewrite Z.div_div by lia).
    pose proof (Z.div_mod (n / 10) 10 ltac:(lia)). lia. }
  lia.
Qed.

Lemma digits_no_space n s : skip_space (two_digits n ++ s) = two_digits n ++ s.
Proof. unfold two_digits. cbn [app skip_space]. by rewrite digit_not_space by apply digit_char_range. Qed.

Lemma month_ok m : 0 <= m < 12 ->
  exists a b c, nth (Z.to_nat m) month_names [] = [a; b; c] /\
    Forall (fun x => isspace x = false /\ x <> 0) [a; b; c] /\
    month_number [a; b; c] = if m =? 0 then 5 else m.
Proof.
  intros Hm. assert (H : m = 0 \/ m = 1 \/ m = 2 \/ m = 3 \/ m = 4 \/ m = 5 \/ m = 6 \/ m = 7 \/ m = 8 \/ m = 9 \/ m = 10 \/ m = 11) by lia.
  repeat destruct H as [->|H]; try subst m; (eexists _, _, _; split; [reflexivity|]; split; [by repeat constructor|done]).
Qed.

Lemma cstr_plain s : Forall (fun c => c <> 0) s -> cstr s = s.
Proof.
  intros Hs. induction Hs as [|c s Hc Hs IH]; [done|]. cbn [cstr]. rewrite (proj2 (Z.eqb_neq _ _) Hc). by rewrite IH.
Qed.

Lemma scan_word_three a b c s : Forall (fun x => isspace x = false /\ x <> 0) [a; b; c] ->
  scan_word 3 (a :: b :: c :: s) = Some ([a; b; c], s).
Proof.
  intros H. apply List.Forall_cons_iff in H as [[Ha _] H]. apply List.Forall_cons_iff in H as [[Hb _] H].
  apply List.Forall_cons_iff in H as [[Hc _] _]. unfold scan_word. cbn [skip_space]. rewrite Ha. cbn [take span].
  by rewrite Ha, Hb, Hc.
Qed.

Lemma scan_date_ok wday t zone : date_ok wday t -> zone <> [] -> isspace (hd 0 zone) = false ->
  exists month, scan_date (http_date wday t zone) =
      Some (mkTm (tm_mday t) 0 (tm_year t) (tm_hour t) (tm_min t) (tm_sec t), month, take 5 zone) /\
    month_number month = if tm_mon t =? 0 then 5 else tm_mon t.
Proof.
  intros [[Hl Hw] Hd Hm Hy (Hh & Hi & Hs)] Hz Hz0. destruct (month_ok _ Hm) as (a & b & c & Em & Habc & Hn).
  destruct wday as [|w1 [|w2 [|w3 []]]]; try discriminate Hl. unfold http_date, scan_date. rewrite Em.
  change (b! ", ") with [44; 32]. cbn [app].
  assert (Hsp : forall s, skip_space (32 :: s) = skip_space s) by done.
  assert (Hcolon : forall c s, scan_char c (c :: s) = Some s) by (intros; cbn [scan_char]; by rewrite Z.eqb_refl).
  rewrite scan_word_three by done. cbn [mbind option_bind]. rewrite Hcolon. cbn [mbind option_bind].
  rewrite Hsp, digits_no_space, scan_two by done. cbn [mbind option_bind].
  rewrite Hsp. cbn [skip_space]. pose proof (proj1 (List.Forall_inv Habc)) as Ha. cbn beta in Ha. rewrite Ha.
  rewrite scan_word_three by done. cbn [mbind option_bind]. unfold four_digits.
  rewrite Hsp, <- (app_assoc (two_digits _)), digits_no_space, app_assoc. fold (four_digits (tm_year t)).
  rewrite scan_four by done. cbn [mbind option_bind]. rewrite Hsp, digits_no_space, scan_two by done. cbn [mbind option_bind].
  rewrite Hcolon. cbn [mbind option_bind]. rewrite scan_two by done. cbn [mbind option_bind]. rewrite Hcolon.
  cbn [mbind option_bind]. rewrite scan_two by done. cbn [mbind option_bind]. rewrite Hsp.
  destruct zone as [|z zone]; [done|]. cbn [skip_space]. cbn [hd] in Hz0. rewrite Hz0. cbn [scan_bytes mbind option_bind].
  by exists [a; b; c].
Qed.

Lemma http_date_plain wday t zone : date_ok wday t -> Forall (fun c => c <> 0) zone -> cstr (http_date wday t zone) = http_date wday t zone.
Proof.
  intros [[_ Hw] _ Hm _ _] Hz. apply cstr_plain. destruct (month_ok _ Hm) as (a & b & c & Em & Habc & _).
  unfold http_date. rewrite Em. change (b! ", ") with [44; 32].
  assert (H2 : forall n, Forall (fun c => c <> 0) (two_digits n)).
  { intros n. repeat constructor; match goal with |- digit_char ?m <> 0 => pose proof (digit_char_range m) end; lia. }
  unfold four_digits. repeat apply Forall_app_2; try apply H2; try (by repeat constructor); try done.
  - by eapply (List.Forall_impl _ (fun c H => proj2 H)).
  - by eapply (List.Forall_impl _ (fun c H => proj2 H)).
Qed.

Lemma zones_ok i zone : kTimeZones !! i = Some zone ->
  find_string 0 (take 5 zone) kTimeZones = Some i /\ zone <> [] /\ isspace (hd 0 zone) = false /\
  Forall (fun c => c <> 0) zone /\ (nth 0 (take 5 zone) 0 =? 43) = false /\ (nth 0 (take 5 zone) 0 =? 45) = false.
Proof.
  intros H. do 34 (destruct i as [|i]; [injection H as <-; split_and!; first [done | (repeat constructor; discriminate)]|]). discriminate H.
Qed.

Section DatesOk.
Context (mktime : tm -> Z) (timezone : Z).

(** The moment of a date in the time of the process, as the code reads the month. *)
Definition date_seconds (t : tm) : Z :=
  u64 (mktime (mkTm (tm_mday t) (if tm_mon t =? 0 then 5 else tm_mon t) (s32 (tm_year t - 1900))
                 (tm_hour t) (tm_min t) (tm_sec t))).

(** What [HttpDateToSeconds] makes of a date of RFC 1123.  With a named zone it
    adds the offset of the zone to the local time and takes off that of the process;
    but January, whose name is not in capitals, is read as June.  With a numeric
    zone it does not use the date: by the precedence of [?:] the result is the
    offset of the zone less that of the process, also when the sign is a minus. *)
Theorem HttpDateToSeconds_rfc1123 wday t : date_ok wday t ->
  (forall i zone, kTimeZones !! i = Some zone ->
     HttpDateToSeconds mktime timezone (http_date wday t zone) =
     Some (u64 (u64 (date_seconds t + nth i kTimeZoneOffsets 0 * 60 * 60) - timezone))) /\
  (forall sign hours minutes, sign = 43 \/ sign = 45 -> 0 <= hours < 100 -> 0 <= minutes < 100 ->
     0 < date_seconds t < 2 ^ 64 - 1 ->
     HttpDateToSeconds mktime timezone (http_date wday t (sign :: two_digits hours ++ two_digits minutes)) =
     Some (u64 ((hours * 60 + minutes) * 60 - timezone))).
Proof.
  intros Hd. split.
  - intros i zone (Hf & Hne & Hsp & Hz & Hn43 & Hn45)%zones_ok.
    destruct (scan_date_ok wday t zone Hd Hne Hsp) as (month & E & Hm).
    unfold HttpDateToSeconds. rewrite http_date_plain, E by done. cbn [mbind option_bind]. rewrite Hn43, Hn45, Hf.
    cbn [orb mbind option_bind tm_mday tm_year tm_hour tm_min tm_sec]. by rewrite Hm.
  - intros sign hours minutes Hs Hh Hi Hb. pose proof (fun n => proj2 (isdigit_range (digit_char n)) (digit_char_range n)) as Hdig.
    set (zone := sign :: two_digits hours ++ two_digits minutes).
    destruct (scan_date_ok wday t zone Hd) as (month & E & Hm); [done|by destruct Hs as [->| ->]|].
    unfold HttpDateToSeconds. rewrite http_date_plain; [|done|].
    2:{ subst zone. unfold two_digits. cbn [app]. repeat apply List.Forall_cons; try apply List.Forall_nil;
          try (match goal with |- digit_char ?m <> 0 => pose proof (digit_char_range m) end; lia). destruct Hs; lia. }
    rewrite E. subst zone. unfold two_digits. cbn [app take nth mbind option_bind tm_mday tm_year tm_hour tm_min tm_sec].
    rewrite !Hdig, Hm. cbn [negb orb mbind option_bind]. fold (date_seconds t).
    replace ((sign =? 43) || (sign =? 45)) with true by (destruct Hs as [->| ->]; done).
    assert (Hnz : (u64 (date_seconds t + Z.b2z (sign =? 43)) =? 0) = false).
    { apply Z.eqb_neq. unfold u64. destruct Hs as [->| ->]; cbn [Z.b2z]; change (43 =? 43) with true;
        change (45 =? 43) with false; cbn [Z.b2z]; rewrite Z.mod_small; lia. }
    rewrite Hnz. cbn [negb mbind option_bind]. f_equal. unfold u64. rewrite Zminus_mod_idemp_l. f_equal.
    unfold digit_char. pose proof (Z.div_mod hours 10 ltac:(lia)). pose proof (Z.div_mod minutes 10 ltac:(lia)).
    pose proof (Z.mod_pos_bound hours 10 ltac:(lia)). pose proof (Z.mod_pos_bound minutes 10 ltac:(lia)).
    rewrite (Z.mod_small (hours / 10)), (Z.mod_small (minutes / 10)) by lia. lia.
Qed.
End DatesOk.

(** "Sun, 06 Nov 1994 08:49:37 -0130" in a process that counts only the seconds. *)
Example HttpDateToSeconds_rfc1123_witness :
  HttpDateToSeconds (fun t => tm_sec t) 0 (http_date (b! "Sun") (mkTm 6 10 1994 8 49 37) (b! "-0130")) = Some 5400.
Proof.
  apply (HttpDateToSeconds_rfc1123 (fun t => tm_sec t) 0 (b! "Sun") (mkTm 6 10 1994 8 49 37)) with (sign := 45) (hours := 1) (minutes := 30).
  - split; cbn; [split; [done|repeat constructor; discriminate]|lia..].
  - by right.
  - lia.
  - lia.
  - by vm_compute.
Defined.
