(* ===== verification/CwfRequest.v ===== *)
(** Requests and responses of the web framework (cwf/stream.h, stream.cc, cookie.h) and
    its dispatcher (cwf/frame.cc), on the streams of fcgiapp.c.

    boost is not part of the repository: the functions the framework calls of it are
    the class [Boost], with what their documentation promises in [BoostLaws]. *)
From Stdlib Require Import ZArith Lia Bool String.
From stdpp Require Import base list numbers gmap sorting.
From S2P Require Import Prelude Clib FcgiProto OsUnix FcgiStream FcgiSink FcgiWriter FcgiReader FcgiSource.
From S2P Require Import BaseEncode CwfHttp.

(** ** boost *)

(** [split (is_any_of)], [starts_with] and [lexical_cast<int>], where [None] is the
    exception. *)
Class Boost := {
  split : (Z -> bool) -> list Z -> list (list Z);
  starts_with : list Z -> list Z -> bool;
  lexical_cast_int : list Z -> option Z;
}.

(** The tokens with a separator between each two of them. *)
Fixpoint weave (tokens : list (list Z)) (seps : list Z) : list Z :=
  match tokens, seps with
  | t :: tokens, c :: seps => t ++ c :: weave tokens seps
  | t :: _, [] => t
  | [], _ => []
  end.

(** Each separator of the text ends a token, and [starts_with] compares a prefix; a
    decimal number in range is converted. *)
Class BoostLaws `{BO : Boost} : Prop := {
  split_weave : forall p s, exists seps, length (split p s) = S (length seps) /\
    Forall (fun c => p c = true) seps /\ Forall (Forall (fun c => p c = false)) (split p s) /\
    s = weave (split p s) seps;
  starts_with_prefix : forall s p, starts_with s p = true <-> exists r, s = p ++ r;
  lexical_cast_decimal : forall k, 0 <= k < 2 ^ 31 -> lexical_cast_int (format_d k) = Some k;
}.

(** ** Cookies *)

Record Item := mkItem {
  name : list Z;
  value : list Z;
  domain : list Z;
  path : list Z;
  expires : list Z;
  maxage : Z;
  secure : Z;
  version : list Z;
}.
Definition new_Item : Item := mkItem [] [] [] [] [] 0 0 [].
Definition set_value (v : list Z) (i : Item) : Item :=
  mkItem (name i) v (domain i) (path i) (expires i) (maxage i) (secure i) (version i).

Definition Item_text (i : Item) : list Z :=
  let ret := name i ++ [61] ++ value i in
  let ret := match domain i with [] => ret | d => ret ++ b! ";Domain=" ++ d end in
  let ret := match path i with [] => ret | d => ret ++ b! ";Path=" ++ d end in
  match expires i with [] => ret | d => ret ++ b! ";Expires=" ++ d end.

(** [cookie_], a [std::map]. *)
Abbreviation Cookie := (gmap (list Z) Item).

(** [std::map::insert] keeps what is there. *)
Definition insert_new {A} (k : list Z) (v : A) (m : gmap (list Z) A) : gmap (list Z) A :=
  match m !! k with Some _ => m | None => <[k := v]> m end.

Definition Add (n val : list Z) (c : Cookie) : Cookie := alter (set_value val) n (insert_new n new_Item c).
(** The overload that answers the item; its reference is the entry of the map. *)
Definition Add_item (n : list Z) (c : Cookie) : Cookie := insert_new n new_Item c.
Definition Get (n : list Z) (c : Cookie) : list Z :=
  match c !! cstr n with Some i => value i | None => [] end.

(** [operator<] of [std::string], as "not greater". *)
Fixpoint string_leb (a b : list Z) : bool :=
  match a, b with
  | [], _ => true
  | _ :: _, [] => false
  | x :: a, y :: b => (x <? y) || ((x =? y) && string_leb a b)
  end.
Definition Cookie_text (c : Cookie) : list Z :=
  concat (map (fun kv => Item_text kv.2)
            (merge_sort (fun kv kw => Is_true (string_leb kv.1 kw.1)) (map_to_list c))).

Definition DateFormat (hour day month : Z) : list Z := b! "Tue, 03-Sep-2019 11:25:23 GMT".

(** [find_first_of (c)] and the two [substr]s around it. *)
Fixpoint split_at (c : Z) (s : list Z) : option (list Z * list Z) :=
  match s with
  | [] => None
  | d :: s => if d =? c then Some ([], s)
              else match split_at c s with Some (a, b) => Some (d :: a, b) | None => None end
  end.

Section Framework.
Context `{BO : Boost}.

Definition is_any_of (cs : list Z) (c : Z) : bool := char_in c cs.

Definition Parse (text : list Z) (c : Cookie) : Cookie :=
  let pre := b! "Cookie: " in
  let t := if starts_with text pre then drop (length pre) text else text in
  fold_left (fun c i => match split_at 61 i with Some (n, v) => Add n v c | None => c end)
    (split (is_any_of (b! "; *")) t) c.

(** ** Requests *)

Abbreviation StringMap := (gmap (list Z) (list Z)).

Record Request := mkRequest {
  host_ : list Z;
  url_ : list Z;
  user_ : option (list Z * Z);
  cookie_ : Cookie;
  query_ : StringMap;
  header_ : StringMap;
  query_string_ : list Z;
  form_ : StringMap;
  method_ : HttpVerb;
}.
Definition new_Request : Request := mkRequest [] [] None ∅ ∅ ∅ [] ∅ HV_GET.

Definition set_host (v : list Z) (q : Request) : Request :=
  mkRequest v (url_ q) (user_ q) (cookie_ q) (query_ q) (header_ q) (query_string_ q) (form_ q) (method_ q).
Definition set_url (v : list Z) (q : Request) : Request :=
  mkRequest (host_ q) v (user_ q) (cookie_ q) (query_ q) (header_ q) (query_string_ q) (form_ q) (method_ q).
Definition set_user (v : option (list Z * Z)) (q : Request) : Request :=
  mkRequest (host_ q) (url_ q) v (cookie_ q) (query_ q) (header_ q) (query_string_ q) (form_ q) (method_ q).
Definition set_cookie (v : Cookie) (q : Request) : Request :=
  mkRequest (host_ q) (url_ q) (user_ q) v (query_ q) (header_ q) (query_string_ q) (form_ q) (method_ q).
Definition set_query (v : StringMap) (q : Request) : Request :=
  mkRequest (host_ q) (url_ q) (user_ q) (cookie_ q) v (header_ q) (query_string_ q) (form_ q) (method_ q).
Definition set_header (v : StringMap) (q : Request) : Request :=
  mkRequest (host_ q) (url_ q) (user_ q) (cookie_ q) (query_ q) v (query_string_ q) (form_ q) (method_ q).
Definition set_query_string (v : list Z) (q : Request) : Request :=
  mkRequest (host_ q) (url_ q) (user_ q) (cookie_ q) (query_ q) (header_ q) v (form_ q) (method_ q).
Definition set_form (v : StringMap) (q : Request) : Request :=
  mkRequest (host_ q) (url_ q) (user_ q) (cookie_ q) (query_ q) (header_ q) (query_string_ q) v (method_ q).
Definition set_method (v : HttpVerb) (q : Request) : Request :=
  mkRequest (host_ q) (url_ q) (user_ q) (cookie_ q) (query_ q) (header_ q) (query_string_ q) (form_ q) v.

(** A member of a [StringMap], or [kEmptyString]. *)
Definition member (m : StringMap) (key : list Z) : list Z :=
  match m !! cstr key with Some v => v | None => [] end.
Definition query (q : Request) (key : list Z) : list Z := member (query_ q) key.
Definition form (q : Request) (key : list Z) : list Z := member (form_ q) key.
Definition header (q : Request) (key : list Z) : list Z := member (header_ q) key.
Definition get (q : Request) (key : list Z) : list Z :=
  match query q key with [] => form q key | ret => ret end.

(** The overloads for integers. *)
Definition int_value (s : list Z) (default_value : Z) : Z :=
  match s with
  | [] => default_value
  | _ => match lexical_cast_int s with Some n => n | None => default_value end
  end.
Definition query_int (q : Request) (key : list Z) (default_value : Z) : Z := int_value (query q key) default_value.
Definition form_int (q : Request) (key : list Z) (default_value : Z) : Z := int_value (form q key) default_value.
Definition get_int (q : Request) (key : list Z) (default_value : Z) : Z := int_value (get q key) default_value.

(** One string of the environment. *)
Definition env_entry (q : Request) (str : list Z) : Request :=
  match split_at 61 str with
  | None => q
  | Some (key, value) =>
      match value with
      | [] => q
      | _ =>
          if starts_with key (b! "HTTP_") then set_header (<[drop 5 key := value]> (header_ q)) q
          else if list_Z_eqb key (b! "QUERY_STRING") then set_query_string value q
          else if list_Z_eqb key (b! "REQUEST_METHOD") then set_method (FromString (method_ q) value).1 q
          else if list_Z_eqb key (b! "REQUEST_URI") then set_url value q
          else set_header (<[key := value]> (header_ q)) q
      end
  end.

(** The file's [url_decode]: the buffer has one byte more than the source, and the
    result is what it holds up to the first NUL. *)
Definition url_decode (junk : nat -> list Z) (source : list Z) : outcome (nat * list Z) :=
  let n := length source in
  let m := source ++ [0] ++ resize (n + 1)%nat 0 (junk (n + 1)%nat) in
  let! (m, ret) := BaseEncode.url_decode m (Some (S n)) (n + 1)%nat 0%nat n in
  Ret (ret, cstr (drop (S n) m)).

Section Init.
(** The contents of new memory; the function pointer and the bound of the input. *)
Variable junk : nat -> list Z.
Variable fillBuffProc : sys -> outcome sys.
Variable fuel : nat.

Fixpoint ParseQuery_loop (equal_array : list (list Z)) (ret : StringMap) : outcome StringMap :=
  match equal_array with
  | [] => Ret ret
  | i :: equal_array =>
      match split_at 61 i with
      | Some (key, value) =>
          let! (_, d) := url_decode junk value in
          ParseQuery_loop equal_array (insert_new key d ret)
      | None => ParseQuery_loop equal_array ret
      end
  end.
Definition ParseQuery (text : list Z) : outcome StringMap :=
  ParseQuery_loop (split (is_any_of (b! "&")) text) ∅.

(** Reads the body, in pieces of 2048 bytes; a shorter one is the last. *)
Fixpoint read_body (k : nat) (data : list Z) (y : sys) : outcome (list Z * sys) :=
  match k with
  | O => NoFuel
  | S k =>
      let! (bs, y) := FCGX_GetStr fillBuffProc fuel 2048 y in
      let data := data ++ bs in
      if (length bs <? 2048)%nat then Ret (data, y) else read_body k data y
  end.

(** The ASSERTs of the function log what they find and go on. *)
Definition Init (envp : list (list Z)) (q : Request) (y : sys) : outcome (bool * Request * sys) :=
  let q := fold_left env_entry envp q in
  let q := set_host (header q (b! "HOST")) q in
  let q := set_cookie (Parse (header q (b! "COOKIE")) (cookie_ q)) q in
  let! q :=
    match query_string_ q with
    | [] => Ret q
    | text => let! m := ParseQuery text in Ret (set_query m q)
    end in
  let! (q, y) :=
    (if decide (method_ q = HV_POST) then
       let! (data, y) := read_body fuel [] y in
       match data with
       | [] => Ret (q, y)
       | _ => let! m := ParseQuery data in Ret (set_form m q, y)
       end
     else Ret (q, y)) in
  let bad := bool_decide (url_ q = []) || bool_decide (host_ q = []) || bool_decide (header_ q = ∅) in
  Ret (negb bad, q, y).
End Init.

(** ** Responses *)

(** [hc_] has no value before the first [set_status_code]. *)
Record Header := mkHeader {
  list_ : list (HttpHeader * list Z);
  hc_ : option Z;
  message_ : list Z;
}.
Definition new_Header : Header := mkHeader [] None [].
Definition Header_Add (hh : HttpHeader) (value : list Z) (h : Header) : Header :=
  mkHeader (list_ h ++ [(hh, value)]) (hc_ h) (message_ h).
Definition set_status_code (hc : Z) (message : list Z) (h : Header) : Header := mkHeader (list_ h) (Some hc) message.

Definition CRLF : list Z := [13; 10].
Definition Write (h : Header) : outcome (list Z) :=
  match hc_ h with
  | None => Crash
  | Some hc =>
      Ret (b! "HTTP/" ++ ToString HVER_X ++ [32] ++ format_d hc ++ [32] ++ message_ h ++ CRLF
           ++ concat (map (fun i => ToString i.1 ++ b! ": " ++ i.2 ++ CRLF) (list_ h)) ++ CRLF)
  end.

(** A response but for its streams. *)
Record Response := mkResponse {
  stem_ : list Z;
  rheader_ : Header;
}.
Definition new_Response : Response := mkResponse [] new_Header.
Definition set_rheader (v : Header) (p : Response) : Response := mkResponse (stem_ p) v.
Definition Emit (s : list Z) (p : Response) : Response := mkResponse (stem_ p ++ s) (rheader_ p).

Section Output.
Variable emptyBuffProc : bool -> sys -> outcome sys.

Definition WriteRaw (text : list Z) (y : sys) : outcome sys :=
  let! (_, y) := FCGX_PutStr emptyBuffProc text y in Ret y.
Definition OutputHeader (p : Response) (y : sys) : outcome (bool * sys) :=
  let! r := Write (rheader_ p) in
  let! (_, y) := FCGX_PutStr emptyBuffProc r y in Ret (true, y).

(** ** The dispatcher *)

Definition GenerateCommonHeader (status_code : Z) (message content_type : list Z) (h : Header) : Header :=
  let h := set_status_code status_code message h in
  match content_type with [] => h | _ => Header_Add HH_CONTENT_TYPE content_type h end.

Definition ResponseError (code : Z) (message : list Z) (p : Response) (y : sys) : outcome (Response * sys) :=
  let p := set_rheader (GenerateCommonHeader code message [] (rheader_ p)) p in
  let! (_, y) := OutputHeader p y in Ret (p, y).

(** An object of a class derived from [BaseAction]: what it answers and what it does
    to the request, the response and its output stream. *)
Record BaseAction := mkAction {
  Match : list Z -> bool;
  Process_action : Request -> Response -> sys -> outcome (Z * Request * Response * sys);
}.

Record FrameWork := mkFrameWork { host_action_ : list BaseAction }.
Definition new_FrameWork : FrameWork := mkFrameWork [].
Definition AddAction (a : BaseAction) (fw : FrameWork) : FrameWork := mkFrameWork (host_action_ fw ++ [a]).
(** The static [default_actions_]. *)
Definition RegisterAction (a : BaseAction) (default_actions_ : option (list BaseAction)) : option (list BaseAction) :=
  Some (match default_actions_ with Some l => l | None => [] end ++ [a]).
Definition InitHost (default_actions_ : option (list BaseAction)) (fw : FrameWork) : bool * FrameWork :=
  (true, match default_actions_ with Some l => mkFrameWork l | None => fw end).

Definition Find (url : list Z) (fw : FrameWork) : option BaseAction :=
  List.find (fun ha => Match ha url) (host_action_ fw).

Definition Process (fw : FrameWork) (q : Request) (p : Response) (y : sys) : outcome (Z * Request * Response * sys) :=
  match Find (url_ q) fw with
  | None =>
      let! (p, y) := ResponseError (code_value HC_NOT_FOUND) (b! "Not Found") p y in
      Ret (code_value HC_NOT_FOUND, q, p, y)
  | Some a =>
      let! (rc, q, p, y) := Process_action a q p y in
      if negb (rc =? code_value HC_OK) then
        let! (p, y) := ResponseError rc (b! "Service") p y in Ret (rc, q, p, y)
      else Ret (rc, q, p, y)
  end.
End Output.

(** [StringPattern] and [AnyPattern], which actions use to match. *)
Definition StringPattern_Match (text_ url : list Z) : bool := starts_with url text_.
Definition AnyPattern_Match (url : list Z) : bool := true.
End Framework.

(** ** Splitting *)

Fixpoint tokens (p : Z -> bool) (s : list Z) : list (list Z) :=
  match s with
  | [] => [[]]
  | c :: s =>
      if p c then [] :: tokens p s
      else match tokens p s with t :: ts => (c :: t) :: ts | [] => [[c]] end
  end.

Definition free (p : Z -> bool) (t : list Z) : Prop := Forall (fun c => p c = false) t.

Lemma tokens_app p t c s : free p t -> p c = true -> tokens p (t ++ c :: s) = t :: tokens p s.
Proof. intros Ht Hc. induction Ht as [|d t Hd Ht IH]; cbn [app tokens]; [by rewrite Hc|]. by rewrite Hd, IH. Qed.
Lemma tokens_sep p c s : p c = true -> tokens p (c :: s) = [] :: tokens p s.
Proof. intros Hc. cbn [tokens]. by rewrite Hc. Qed.
Lemma tokens_free p t : free p t -> tokens p t = [t].
Proof. intros Ht. induction Ht as [|d t Hd Ht IH]; [done|]. cbn [tokens]. by rewrite Hd, IH. Qed.

Lemma tokens_weave p ts seps : length ts = S (length seps) -> Forall (fun c => p c = true) seps -> Forall (free p) ts ->
  tokens p (weave ts seps) = ts.
Proof.
  intros Hl Hs. revert ts Hl. induction Hs as [|c seps Hc Hs IH]; intros ts Hl Ht.
  - destruct ts as [|t [|]]; try discriminate Hl. apply List.Forall_cons_iff in Ht as [Ht _]. cbn. by apply tokens_free.
  - destruct ts as [|t ts]; [discriminate Hl|]. apply List.Forall_cons_iff in Ht as [Ht Hts]. cbn [weave].
    rewrite tokens_app by done. rewrite IH; [done| |done]. by injection Hl.
Qed.

Lemma split_at_app c a b : Forall (fun d => d <> c) a -> split_at c (a ++ c :: b) = Some (a, b).
Proof.
  intros Ha. induction Ha as [|d a Hd Ha IH]; cbn [app split_at]; [by rewrite Z.eqb_refl|].
  by rewrite (proj2 (Z.eqb_neq _ _) Hd), IH.
Qed.
Lemma split_at_none c a : Forall (fun d => d <> c) a -> split_at c a = None.
Proof.
  intros Ha. induction Ha as [|d a Hd Ha IH]; [done|]. cbn [split_at]. by rewrite (proj2 (Z.eqb_neq _ _) Hd), IH.
Qed.

Section Laws.
Context `{BL : BoostLaws}.

Lemma split_tokens p s : split p s = tokens p s.
Proof.
  destruct (split_weave p s) as (seps & Hl & Hs & Ht & E).
  rewrite E at 2. symmetry. by apply tokens_weave.
Qed.

Lemma starts_with_app p r : starts_with (p ++ r) p = true.
Proof. apply starts_with_prefix. by exists r. Qed.

(** ** Cookies *)

(** What a browser sends: the pairs with a semicolon and a space between them. *)
Fixpoint cookie_header (pairs : list (list Z * list Z)) : list Z :=
  match pairs with
  | [] => []
  | [(n, v)] => n ++ 61 :: v
  | (n, v) :: pairs => n ++ 61 :: v ++ 59 :: 32 :: cookie_header pairs
  end.

Lemma cookie_header_cons n v p pairs :
  cookie_header ((n, v) :: p :: pairs) = (n ++ 61 :: v) ++ 59 :: 32 :: cookie_header (p :: pairs).
Proof. by rewrite <- app_assoc. Qed.

Definition cookie_sep : Z -> bool := is_any_of (b! "; *").
Definition cookie_pair (nv : list Z * list Z) : Prop :=
  Forall (fun c => c <> 61) nv.1 /\ free cookie_sep nv.1 /\ free cookie_sep nv.2.

(** The value that is set last. *)
Fixpoint last_value (k : list Z) (pairs : list (list Z * list Z)) (default : list Z) : list Z :=
  match pairs with
  | [] => default
  | (n, v) :: pairs => last_value k pairs (if decide (n = k) then v else default)
  end.

Lemma Add_value n v c k :
  (match Add n v c !! k with Some i => value i | None => [] end) =
  if decide (n = k) then v else match c !! k with Some i => value i | None => [] end.
Proof.
  unfold Add, insert_new. destruct (decide (n = k)) as [->|E].
  - rewrite lookup_alter_eq. destruct (c !! k) as [i|] eqn:Ec; [by rewrite Ec|]. by rewrite lookup_insert_eq.
  - rewrite lookup_alter_ne by done. destruct (c !! n); [done|]. by rewrite lookup_insert_ne.
Qed.

Lemma cookie_tokens pairs : Forall cookie_pair pairs -> forall c k,
  (match fold_left (fun c i => match split_at 61 i with Some (n, v) => Add n v c | None => c end)
      (tokens cookie_sep (cookie_header pairs)) c !! k with Some i => value i | None => [] end) =
  last_value k pairs (match c !! k with Some i => value i | None => [] end).
Proof.
  induction 1 as [|[n v] pairs (Hn & Hfn & Hfv) Hp IH]; intros c k; [done|]. cbn [fst snd] in *.
  assert (Hfree : free cookie_sep (n ++ 61 :: v)) by (apply Forall_app_2; [done|]; by constructor).
  destruct pairs as [|[n2 v2] pairs].
  - cbn [cookie_header last_value]. rewrite tokens_free by done. cbn [fold_left]. rewrite split_at_app by done.
    apply Add_value.
  - rewrite cookie_header_cons, (tokens_app cookie_sep _ 59) by done.
    rewrite tokens_sep by done.
    cbn [fold_left]. rewrite split_at_app by done. cbn [split_at]. rewrite IH. cbn [last_value].
    f_equal. rewrite Add_value. done.
Qed.

(** The text of cookies never begins like the name of the header. *)
Lemma cookie_header_plain pairs : Forall cookie_pair pairs -> starts_with (cookie_header pairs) (b! "Cookie: ") = false.
Proof.
  intros Hp. apply not_true_is_false. intros (r & E)%starts_with_prefix.
  destruct pairs as [|[n v] pairs]; [done|]. apply List.Forall_cons_iff in Hp as [(Hn & Hfn & Hfv) _]. cbn [fst snd] in *.
  assert (Hfree : free cookie_sep (n ++ 61 :: v)) by (apply Forall_app_2; [done|]; by constructor).
  assert (Et : exists ts, tokens cookie_sep (cookie_header ((n, v) :: pairs)) = (n ++ 61 :: v) :: ts).
  { destruct pairs as [|p pairs]; [cbn [cookie_header]; rewrite tokens_free by done; by eexists|].
    rewrite cookie_header_cons, (tokens_app cookie_sep _ 59) by done. by eexists. }
  destruct Et as [ts Et]. rewrite E in Et. change (b! "Cookie: " ++ r) with (b! "Cookie:" ++ 32 :: r) in Et.
  rewrite (tokens_app cookie_sep _ 32) in Et; [|by repeat constructor|done]. injection Et as Et _.
  apply (f_equal (split_at 61)) in Et. rewrite split_at_app in Et by done. discriminate Et.
Qed.

(** Parsing what a browser sends, with or without the name of the header, gives
    every name the value it was sent with, the last one when it is sent twice, and
    leaves the other cookies as they were. *)
Theorem Cookie_Parse_gets pairs c k : Forall cookie_pair pairs -> Forall (fun x => x <> 0) k ->
  Get k (Parse (cookie_header pairs) c) = last_value k pairs (Get k c) /\
  Get k (Parse (b! "Cookie: " ++ cookie_header pairs) c) = last_value k pairs (Get k c).
Proof.
  intros Hp Hk. unfold Get, Parse. rewrite cstr_plain, cookie_header_plain, starts_with_app by done.
  rewrite drop_app_length, !split_tokens. split; by apply cookie_tokens.
Qed.

(** ** Query strings and forms *)

(** What a browser sends for a form: the values are encoded as by [url_encode]. *)
Definition form_pair (kv : list Z * list Z) : list Z := kv.1 ++ 61 :: encoded url_encode_char kv.2.
Fixpoint form_text (pairs : list (list Z * list Z)) : list Z :=
  match pairs with
  | [] => []
  | [kv] => form_pair kv
  | kv :: pairs => form_pair kv ++ 38 :: form_text pairs
  end.

Definition form_ok (kv : list Z * list Z) : Prop :=
  Forall (fun c => c <> 61 /\ c <> 38) kv.1 /\ Forall (fun c => is_byte c /\ c <> 0) kv.2.

(** The value that comes first. *)
Fixpoint first_value (k : list Z) (pairs : list (list Z * list Z)) : list Z :=
  match pairs with
  | [] => []
  | (n, v) :: pairs => if decide (n = k) then v else first_value k pairs
  end.

Definition amp : Z -> bool := is_any_of (b! "&").

Lemma amp_false c : c <> 38 -> amp c = false.
Proof. intros H. unfold amp, is_any_of, char_in. cbn. rewrite orb_false_r. by apply Z.eqb_neq. Qed.

Lemma form_pair_free kv : form_ok kv -> free amp (form_pair kv).
Proof.
  intros [Hk Hv]. apply Forall_app_2; [|constructor; [done|]].
  - eapply List.Forall_impl; [|exact Hk]. intros c [_ Hc]. by apply amp_false.
  - eapply List.Forall_impl; [|apply url_encoded_safe].
    2:{ eapply List.Forall_impl; [|exact Hv]. by intros c [Hc _]. }
    intros c [->|Hc]; [done|]. apply amp_false. by intros ->.
Qed.

Lemma url_decode_encoded junk v : Forall (fun c => is_byte c /\ c <> 0) v ->
  exists n, url_decode junk (encoded url_encode_char v) = Ret (n, v).
Proof.
  intros Hv. set (src := encoded url_encode_char v). unfold url_decode.
  destruct (transform_memory src (length src + 1) (junk (length src + 1)%nat)) as [Hl Hs].
  set (m := src ++ [0] ++ resize (length src + 1) 0 (junk (length src + 1)%nat)) in *.
  destruct (url_decode_spec m (S (length src)) (length src + 1) 0 (length src)) as [E _]; try lia.
  cbn [Nat.add] in E. rewrite Hs in E.
  assert (Ht : transformed (dec_step url_decode_next) (length src + 1) src = v).
  { unfold transformed. subst src. rewrite (dec_step_emits url_encode_char url_decode_next _ _ v); [|by eapply List.Forall_impl; [|exact Hv]; intros c [Hc _]|done].
    rewrite take_ge; [done|]. pose proof (encoded_length_ge url_encode_char url_decode_next v). lia. }
  rewrite Ht in E. rewrite E. cbn [obind]. exists (length v). f_equal. f_equal.
  pose proof (encoded_length_ge url_encode_char url_decode_next v) as Hlv. fold src in Hlv.
  assert (Em : drop (S (length src)) (mem_write m (S (length src)) (v ++ [0])) = v ++ 0 :: drop (length v + 1) (resize (length src + 1) 0 (junk (length src + 1)%nat))).
  { unfold mem_write. rewrite drop_app_ge by (rewrite length_take; lia). rewrite length_take.
    replace (S (length src) - Nat.min (S (length src)) (length m))%nat with 0%nat by lia. rewrite drop_0, <- app_assoc. cbn [app].
    f_equal. f_equal. subst m. rewrite (app_assoc src [0]). rewrite drop_app_ge by (rewrite !length_app; cbn [length]; lia).
    f_equal. rewrite !length_app. cbn [length]. lia. }
  rewrite Em. apply cstr_nonzero_app. eapply List.Forall_impl; [|exact Hv]. by intros c [_ Hc].
Qed.

Lemma insert_new_lookup {A} (k n : list Z) (v : A) m :
  insert_new n v m !! k = match m !! k with Some w => Some w | None => if decide (n = k) then Some v else None end.
Proof.
  unfold insert_new. destruct (m !! n) as [w|] eqn:E.
  - destruct (m !! k) eqn:Ek; [done|]. rewrite decide_False; [done|]. intros ->. congruence.
  - destruct (decide (n = k)) as [->|Hn]; [by rewrite lookup_insert_eq, E|]. rewrite lookup_insert_ne by done. by destruct (m !! k).
Qed.

Lemma form_tokens p pairs : form_ok p -> tokens amp (form_text (p :: pairs)) =
  form_pair p :: match pairs with [] => [] | _ => tokens amp (form_text pairs) end.
Proof.
  intros Hp. pose proof (form_pair_free p Hp). destruct pairs as [|p2 pairs]; [by apply tokens_free|].
  change (form_text (p :: p2 :: pairs)) with (form_pair p ++ 38 :: form_text (p2 :: pairs)). by apply tokens_app.
Qed.

Lemma ParseQuery_loop_form junk pairs : Forall form_ok pairs -> forall m,
  exists m', ParseQuery_loop junk (match pairs with [] => [] | _ => tokens amp (form_text pairs) end) m = Ret m' /\
    forall k, m' !! k = match m !! k with
                       | Some w => Some w
                       | None => if decide (k ∈ map fst pairs) then Some (first_value k pairs) else None
                       end.
Proof.
  induction 1 as [|[n v] pairs Hp Hps IH]; intros m.
  { exists m. split; [done|]. intros k. destruct (m !! k); [done|]. rewrite decide_False; [done|]. by intros ?%not_elem_of_nil. }
  rewrite form_tokens by done. cbn [ParseQuery_loop]. unfold form_pair at 1. cbn [fst snd].
  rewrite split_at_app by (eapply List.Forall_impl; [|exact (proj1 Hp)]; by intros c [Hc _]).
  destruct (url_decode_encoded junk v (proj2 Hp)) as [l ->]. cbn [obind].
  destruct (IH (insert_new n v m)) as (m' & E & Hm'). exists m'. split; [exact E|]. intros k. rewrite Hm', insert_new_lookup.
  cbn [map first_value fst]. destruct (m !! k); [done|]. destruct (decide (n = k)) as [->|Hn].
  - rewrite decide_True by (by left). done.
  - destruct (decide (k ∈ map fst pairs)); [rewrite decide_True by (by right)|rewrite decide_False]; try done.
    intros [?|?]%elem_of_cons; [by subst|done].
Qed.

Lemma ParseQuery_form junk pairs : Forall form_ok pairs -> pairs <> [] ->
  exists m, ParseQuery junk (form_text pairs) = Ret m /\
    forall k, Forall (fun c => c <> 0) k -> member m k = first_value k pairs.
Proof.
  intros Hp Hne. destruct (ParseQuery_loop_form junk pairs Hp ∅) as (m & E & Hm). exists m. split.
  - unfold ParseQuery. rewrite split_tokens. by destruct pairs.
  - intros k Hk. unfold member. rewrite cstr_plain, Hm, lookup_empty by done. case_decide as Hin; [done|].
    clear -Hin. induction pairs as [|[n v] pairs IH]; [done|]. cbn [first_value map fst] in *.
    rewrite decide_False by (intros ->; apply Hin; by left). apply IH. intros H. apply Hin. by right.
Qed.

Lemma form_text_nil pairs : form_text pairs = [] <-> pairs = [].
Proof.
  split; [|by intros ->]. destruct pairs as [|[k v] [|]]; [done|..]; unfold form_text, form_pair; by destruct k.
Qed.

(** ** Requests *)

(** The entry a string of the environment makes in the header map. *)
Definition header_entry (str : list Z) : option (list Z * list Z) :=
  match split_at 61 str with
  | None | Some (_, []) => None
  | Some (key, value) =>
      if starts_with key (b! "HTTP_") then Some (drop 5 key, value)
      else if list_Z_eqb key (b! "QUERY_STRING") || list_Z_eqb key (b! "REQUEST_METHOD") || list_Z_eqb key (b! "REQUEST_URI")
      then None
      else Some (key, value)
  end.
Fixpoint last_entry (k : list Z) (envp : list (list Z)) (default : option (list Z)) : option (list Z) :=
  match envp with
  | [] => default
  | str :: envp =>
      last_entry k envp
        (match header_entry str with Some (n, v) => if decide (n = k) then Some v else default | None => default end)
  end.

Lemma env_entry_header q str k : header_ (env_entry q str) !! k =
  match header_entry str with Some (n, v) => if decide (n = k) then Some v else header_ q !! k | None => header_ q !! k end.
Proof.
  unfold env_entry, header_entry. destruct (split_at 61 str) as [[key [|c value]]|]; [done| |done].
  assert (Hins : forall n, <[n := c :: value]> (header_ q) !! k = if decide (n = k) then Some (c :: value) else header_ q !! k).
  { intros n. case_decide as E; [by rewrite E, lookup_insert_eq|by rewrite lookup_insert_ne]. }
  destruct (starts_with key _); [apply Hins|]. destruct (list_Z_eqb key (b! "QUERY_STRING")); [done|].
  destruct (list_Z_eqb key (b! "REQUEST_METHOD")); [done|]. destruct (list_Z_eqb key (b! "REQUEST_URI")); [done|]. apply Hins.
Qed.

Lemma env_header envp q k : header_ (fold_left env_entry envp q) !! k = last_entry k envp (header_ q !! k).
Proof.
  revert q. induction envp as [|str envp IH]; intros q; [done|]. cbn [fold_left last_entry]. by rewrite IH, env_entry_header.
Qed.

Lemma env_keeps envp q : let q' := fold_left env_entry envp q in query_ q' = query_ q /\ form_ q' = form_ q.
Proof.
  revert q. induction envp as [|str envp IH]; intros q; [done|]. cbn [fold_left]. cbn zeta. destruct (IH (env_entry q str)) as [-> ->].
  unfold env_entry. repeat case_match; done.
Qed.

Section Read.
Context (junk : nat -> list Z) {fillBuffProc : sys -> outcome sys} {reads : list Z -> sys -> Prop} {ended : sys -> Prop}.
Context `{SO : !Source fillBuffProc reads ended}.
Abbreviation feeds := (feeds (reads := reads) (ended := ended)).

Lemma read_body_all fuel k data d y : feeds d y -> (length d + 1 < fuel)%nat -> (length d < k)%nat ->
  exists y', read_body fillBuffProc fuel k data y = Ret (data ++ d, y') /\ feeds [] y'.
Proof.
  revert data d y. induction k as [|k IH]; intros data d y Hy Hf Hk; [lia|]. cbn [read_body].
  destruct (feeds_GetStr fuel 2048 d y Hy Hf) as (y1 & E & Hy1). change (Z.of_nat 2048) with 2048 in E. rewrite E. cbn [obind].
  rewrite length_take. destruct (Nat.ltb_spec (Nat.min 2048 (length d)) 2048).
  - rewrite take_ge by lia. rewrite drop_ge in Hy1 by lia. by exists y1.
  - destruct (IH (data ++ take 2048 d) (drop 2048 d) y1 Hy1) as (y2 & E2 & Hy2); [rewrite length_drop; lia..|].
    rewrite E2, <- app_assoc, take_drop. by exists y2.
Qed.

(** The request that [Init] makes of an environment whose query string encodes
    [qpairs] and of a body that encodes [fpairs]. *)
Definition request_of (envp : list (list Z)) (qpairs fpairs : list (list Z * list Z)) (q : Request) : Prop :=
  let q0 := fold_left env_entry envp new_Request in
  (forall k, Forall (fun c => c <> 0) k ->
     query q k = first_value k qpairs /\
     form q k = (if decide (method_ q0 = HV_POST) then first_value k fpairs else []) /\
     header q k = default [] (last_entry k envp None)) /\
  method_ q = method_ q0 /\ url_ q = url_ q0 /\ host_ q = header q (b! "HOST").

Lemma Init_result fuel envp qpairs fpairs y (q0 := fold_left env_entry envp new_Request) :
  query_string_ q0 = form_text qpairs -> Forall form_ok qpairs -> Forall form_ok fpairs ->
  feeds (form_text fpairs) y -> (length (form_text fpairs) + 1 < fuel)%nat ->
  exists q y', Init junk fillBuffProc fuel envp new_Request y
      = Ret (negb (bool_decide (url_ q = []) || bool_decide (host_ q = []) || bool_decide (header_ q = ∅)), q, y') /\
    request_of envp qpairs fpairs q /\ header_ q = header_ q0 /\
    (if decide (method_ q0 = HV_POST) then feeds [] y' else y' = y).
Proof.
  intros Hqs Hq Hf Hy Hfuel. unfold Init. fold q0. destruct (env_keeps envp new_Request) as [Eq0 Ef0]. fold q0 in Eq0, Ef0.
  set (q1 := set_cookie _ (set_host _ q0)).
  assert (Hempty : forall k, member ∅ k = []) by (intros; unfold member; by rewrite lookup_empty).
  assert (Hquery : exists m, (match query_string_ q1 with [] => Ret q1 | text => let! m := ParseQuery junk text in Ret (set_query m q1) end)
      = Ret (set_query m q1) /\ forall k, Forall (fun c => c <> 0) k -> member m k = first_value k qpairs).
  { change (query_string_ q1) with (query_string_ q0). rewrite Hqs. destruct (decide (qpairs = [])) as [->|Hne].
    - exists ∅. split; [|intros k _; apply Hempty]. cbn [form_text]. f_equal. subst q1. unfold set_query, set_cookie, set_host.
      cbn. by rewrite Eq0.
    - destruct (ParseQuery_form junk qpairs Hq Hne) as (m & E & Hm). exists m. split; [|done]. revert E.
      destruct (form_text qpairs) eqn:Et; [by apply form_text_nil in Et|by intros ->]. }
  destruct Hquery as (m & -> & Hm). cbn [obind].
  assert (Hform : exists m' y', (if decide (method_ (set_query m q1) = HV_POST) then
       let! (data, y) := read_body fillBuffProc fuel fuel [] y in
       match data with
       | [] => Ret (set_query m q1, y)
       | _ => let! m' := ParseQuery junk data in Ret (set_form m' (set_query m q1), y)
       end
     else Ret (set_query m q1, y)) = Ret (set_form m' (set_query m q1), y') /\
     (forall k, Forall (fun c => c <> 0) k -> member m' k = if decide (method_ q0 = HV_POST) then first_value k fpairs else []) /\
     (if decide (method_ q0 = HV_POST) then feeds [] y' else y' = y)).
  { change (method_ (set_query m q1)) with (method_ q0).
    assert (Hsame : set_form ∅ (set_query m q1) = set_query m q1).
    { subst q1. unfold set_form, set_query, set_cookie, set_host. cbn. by rewrite Ef0. }
    destruct (decide (method_ q0 = HV_POST)) as [Hpost|Hpost].
    2:{ exists ∅, y. by rewrite Hsame. }
    destruct (read_body_all fuel fuel [] (form_text fpairs) y Hy Hfuel) as (y' & -> & Hy'); [lia|]. cbn [obind app].
    destruct (decide (fpairs = [])) as [->|Hne]; [exists ∅, y'; by rewrite Hsame|].
    destruct (ParseQuery_form junk fpairs Hf Hne) as (m' & E & Hm'). exists m', y'. split; [|done]. revert E.
    destruct (form_text fpairs) eqn:Et; [by apply form_text_nil in Et|by intros ->]. }
  destruct Hform as (m' & y' & -> & Hm' & Hy'). cbn [obind]. eexists _, y'. split; [reflexivity|]. split_and!; try done.
  split_and!; try done. intros k Hk. split_and!; [by apply Hm|by apply Hm'|].
  unfold header, member. cbn. rewrite cstr_plain by done. fold q0. by rewrite (env_header envp new_Request k : header_ q0 !! k = _).
Qed.

(** C12. The framework reads a request from its environment and its input: every field
    of the query string and of a posted form has the value the browser encoded, the
    first one when a name is repeated; a header is the last non-empty value of the
    variables it may come from; the method, the URL and the query string are those
    of the environment; and the request is good when it has a URL, a host and some
    header. *)
Theorem Init_reads_request fuel envp qpairs fpairs y (q0 := fold_left env_entry envp new_Request) :
  query_string_ q0 = form_text qpairs -> Forall form_ok qpairs -> Forall form_ok fpairs ->
  feeds (form_text fpairs) y -> (length (form_text fpairs) + 1 < fuel)%nat ->
  exists ok q y', Init junk fillBuffProc fuel envp new_Request y = Ret (ok, q, y') /\
    request_of envp qpairs fpairs q /\
    (if decide (method_ q0 = HV_POST) then feeds [] y' else y' = y) /\
    (ok = true <-> url_ q0 <> [] /\ host_ q <> [] /\ exists k v, last_entry k envp None = Some v).
Proof.
  intros Hqs Hq Hf Hy Hfuel. destruct (Init_result fuel envp qpairs fpairs y) as (q & y' & E & Hr & Hh & Hy'); try done.
  eexists _, q, y'. split; [exact E|]. split_and!; [done|done|]. destruct Hr as (_ & _ & -> & _).
  assert (Hk : forall k, header_ q !! k = last_entry k envp None) by (intros; rewrite Hh; apply env_header).
  rewrite negb_true_iff, !orb_false_iff, !bool_decide_eq_false, map_empty. setoid_rewrite Hk.
  split; [intros [[H1 H2] H3]|intros (H1 & H2 & k & v & H3)]; split_and!; try done.
  - destruct (map_choose (header_ q)) as (k & v & Hkv); [|exists k, v; by rewrite <- Hk].
    intros He. apply H3. intros k. by rewrite <- Hk, He.
  - intros He. by rewrite He in H3.
Qed.
End Read.
End Laws.

(** ** Responses *)

(** The text of a header with a status. *)
Definition header_text (code : Z) (message : list Z) (h : Header) : list Z :=
  b! "HTTP/1.x " ++ format_d code ++ [32] ++ message ++ CRLF
  ++ concat (map (fun i => ToString i.1 ++ b! ": " ++ i.2 ++ CRLF) (list_ h)) ++ CRLF.

Section Respond.
Context `{BO : Boost} {emptyBuffProc : bool -> sys -> outcome sys} {holds : list Z -> sys -> Prop}.
Context `{SK : !Sink emptyBuffProc holds}.

Lemma ResponseError_writes code message p d y : holds d y ->
  exists p' y', ResponseError emptyBuffProc code message p y = Ret (p', y') /\ stem_ p' = stem_ p /\
    list_ (rheader_ p') = list_ (rheader_ p) /\ holds (d ++ header_text code message (rheader_ p)) y'.
Proof.
  intros Hy. unfold ResponseError, OutputHeader, GenerateCommonHeader. cbn [rheader_ set_rheader Write set_status_code hc_ obind].
  match goal with |- context[FCGX_PutStr emptyBuffProc ?s y] => destruct (PutStr_sink s d y Hy) as (y' & -> & Hy') end.
  cbn [obind]. eexists _, y'. split_and!; [reflexivity|done|done|exact Hy'].
Qed.

(** What an action does on its stream. *)
Definition acts (a : BaseAction) (q : Request) (p : Response) (rc : Z) (q' : Request) (p' : Response) (out : list Z) : Prop :=
  forall d y, holds d y -> exists y', Process_action a q p y = Ret (rc, q', p', y') /\ holds (d ++ out) y'.

(** C13. The dispatcher gives a request to the first action that matches its URL and
    adds nothing when it succeeds.  When no action matches it answers 404; when the
    action fails it answers the code of the action, after what the action has
    written and with the headers it has added. *)
Theorem Process_dispatches fw q p d y : holds d y ->
  ((forall a, In a (host_action_ fw) -> Match a (url_ q) = false) ->
     exists p' y', Process emptyBuffProc fw q p y = Ret (404, q, p', y') /\
       holds (d ++ header_text 404 (b! "Not Found") (rheader_ p)) y') /\
  (forall before a after rc q' p' out, host_action_ fw = before ++ a :: after ->
     (forall b, In b before -> Match b (url_ q) = false) -> Match a (url_ q) = true -> acts a q p rc q' p' out ->
     exists p'' y', Process emptyBuffProc fw q p y = Ret (rc, q', p'', y') /\ stem_ p'' = stem_ p' /\
       holds (d ++ out ++ if rc =? 200 then [] else header_text rc (b! "Service") (rheader_ p')) y').
Proof.
  intros Hy. unfold Process, Find. split.
  - intros Hno. assert (List.find (fun ha => Match ha (url_ q)) (host_action_ fw) = None) as ->.
    { destruct (List.find _ _) as [a|] eqn:E; [|done]. apply List.find_some in E as [Hin Hm]. by rewrite Hno in Hm. }
    destruct (ResponseError_writes (code_value HC_NOT_FOUND) (b! "Not Found") p d y Hy) as (p' & y' & -> & _ & _ & Hy').
    cbn [obind]. by exists p', y'.
  - intros before a after rc q' p' out Ef Hb Ha Hact. rewrite Ef.
    assert (List.find (fun ha => Match ha (url_ q)) (before ++ a :: after) = Some a) as ->.
    { clear Ef. induction before as [|b before IH]; cbn [app List.find]; [by rewrite Ha|].
      rewrite Hb by (by left). apply IH. intros b' Hb'. apply Hb. by right. }
    destruct (Hact d y Hy) as (y1 & -> & Hy1). cbn [obind]. change (code_value HC_OK) with 200.
    destruct (Z.eqb_spec rc 200) as [->|Hrc]; cbn [negb].
    + exists p', y1. by rewrite app_nil_r.
    + destruct (ResponseError_writes rc (b! "Service") p' _ y1 Hy1) as (p'' & y2 & -> & Hs & _ & Hy2). cbn [obind].
      exists p'', y2. by rewrite <- app_assoc in Hy2.
Qed.
End Respond.

(** ** A concrete boost and requests *)

Definition std_boost : Boost := {|
  split := tokens;
  starts_with s p := list_Z_eqb (take (length p) s) p;
  lexical_cast_int s := match s with [] => None | _ => if forallb isdigit s then Some (atoi s) else None end;
|}.

Lemma std_boost_laws : BoostLaws (BO := std_boost).
Proof.
  split.
  - intros p s. cbn [split std_boost]. induction s as [|c s (seps & Hl & Hs & Ht & E)]; cbn [tokens].
    { exists []. split_and!; [done|constructor|by repeat constructor|done]. }
    destruct (p c) eqn:Ec.
    + exists (c :: seps). cbn [length weave app]. rewrite Hl, <- E. split_and!; [done|by constructor|constructor; [constructor|done]|done].
    + destruct (tokens p s) as [|t ts] eqn:Et; [discriminate Hl|]. apply List.Forall_cons_iff in Ht as [Ht Hts].
      exists seps. split_and!; [done|done|repeat constructor; done|]. destruct seps; cbn [weave app]; by rewrite E at 1.
  - intros s p. cbn [starts_with std_boost]. rewrite list_Z_eqb_spec. split.
    + intros E. exists (drop (length p) s). rewrite <- E at 1. by rewrite take_drop.
    + intros [r ->]. by rewrite take_app_length.
  - intros k Hk. cbn [lexical_cast_int std_boost]. rewrite atoi_format_d by done.
    pose proof (format_d_plain k ltac:(lia)) as Hp.
    assert (Hne : format_d k <> []).
    { unfold format_d. destruct (k <? 0); [done|]. cbn [dec_digits]. destruct (k <? 10); [done|].
      intros E%(f_equal length). rewrite length_app in E. cbn [length] in E. lia. }
    assert (forallb isdigit (format_d k) = true) as ->.
    { apply forallb_forall. intros c Hc. apply isdigit_range. by apply (proj1 (List.Forall_forall _ _) Hp). }
    by destruct (format_d k).
Qed.

Example Cookie_Parse_gets_witness :
  Get (b! "b") (Parse (BO := std_boost) (cookie_header [(b! "a", b! "1"); (b! "b", b! "2=3"); (b! "a", b! "4")]) ∅)
    = b! "2=3".
Proof.
  apply (Cookie_Parse_gets (BL := std_boost_laws) [(b! "a", b! "1"); (b! "b", b! "2=3"); (b! "a", b! "4")] ∅ (b! "b"));
    repeat constructor; discriminate.
Defined.

(** An asterisk ends a cookie. *)
Example asterisk_ends_cookie :
  Get (b! "a") (Parse (BO := std_boost) (b! "a=x*y") ∅) = b! "x".
Proof. by vm_compute. Qed.
(** The text of a cookie that was added has no name, and cookies run together. *)
Example added_cookies_have_no_name :
  Cookie_text (Add (b! "SID") (b! "1") (Add (b! "NID") (b! "2") ∅)) = b! "=2=1".
Proof. by vm_compute. Qed.

(** A post of one field to a host; the client sends a header that has the name of a
    variable of the server. *)
Definition demo_envp : list (list Z) :=
  [b! "REQUEST_METHOD=POST"; b! "REQUEST_URI=/feed"; b! "QUERY_STRING=q=1"; b! "REMOTE_ADDR=10.0.0.1";
   b! "HTTP_HOST=example.org"; b! "HTTP_REMOTE_ADDR=127.0.0.1"].
Definition demo_form : list (list Z * list Z) := [(b! "text", b! "a&b c"); (b! "text", b! "d")].
Definition demo_post : sys :=
  upd_strm (set_stop (length (form_text demo_form)))
    (mkSys (NewReader 8 (form_text demo_form ++ replicate 32 0) 64 FCGI_STDIN) FcgiWriter.demo_request demo_os).

Example Init_reads_request_witness :
  exists q y', Init (BO := std_boost) (fun _ => []) end_fill 60 demo_envp new_Request demo_post = Ret (true, q, y') /\
    form q (b! "text") = b! "a&b c" /\ query q (b! "q") = b! "1" /\ header q (b! "REMOTE_ADDR") = b! "127.0.0.1".
Proof.
  destruct (Init_reads_request (BL := std_boost_laws) (fun _ => []) (SO := buffer_source) 60 demo_envp
    [(b! "q", b! "1")] demo_form demo_post) as (ok & q & y' & E & (Hf & Hm & Hu & Hh) & Hy & Hok).
  - by vm_compute.
  - repeat constructor; discriminate.
  - repeat constructor; discriminate.
  - left. split_and!; first [by vm_compute | apply Nat.leb_le; by vm_compute].
  - apply Nat.ltb_lt. by vm_compute.
  - assert (ok = true) as ->.
    { apply Hok. rewrite Hh. destruct (Hf (b! "HOST")) as (_ & _ & ->); [repeat constructor; discriminate|].
      split_and!; [by vm_compute|by vm_compute|]. exists (b! "HOST"). eexists. by vm_compute. }
    exists q, y'. split; [exact E|]. destruct (Hf (b! "text")) as (_ & -> & _); [repeat constructor; discriminate|].
    destruct (Hf (b! "q")) as (-> & _ & _); [repeat constructor; discriminate|].
    destruct (Hf (b! "REMOTE_ADDR")) as (_ & _ & ->); [repeat constructor; discriminate|].
    split_and!; by vm_compute.
Defined.

(** An action that writes and fails. *)
Definition demo_action : BaseAction :=
  mkAction (fun url => AnyPattern_Match url)
    (fun q p y => let! y := WriteRaw EmptyBuffProc (b! "x") y in Ret (503, q, p, y)).

Example Process_dispatches_witness :
  exists p' y', Process EmptyBuffProc (AddAction demo_action new_FrameWork) new_Request new_Response
      (mkSys (NewWriter 8 (replicate 32 0) 10 FCGI_STDOUT) FcgiWriter.demo_request demo_os)
      = Ret (503, new_Request, p', y') /\
    holds_records demo_os FcgiWriter.demo_conn FcgiWriter.demo_request FCGI_STDOUT false
      (b! "x" ++ header_text 503 (b! "Service") new_Header) y'.
Proof.
  pose proof (records_sink demo_os FcgiWriter.demo_conn FcgiWriter.demo_request FCGI_STDOUT false
    eq_refl ltac:(by vm_compute) ltac:(by vm_compute)) as SK.
  destruct (Process_dispatches (emptyBuffProc := EmptyBuffProc) (SK := SK WriteCloseRecords) (AddAction demo_action new_FrameWork) new_Request new_Response []
    (mkSys (NewWriter 8 (replicate 32 0) 10 FCGI_STDOUT) FcgiWriter.demo_request demo_os)) as [_ H].
  - apply NewWriter_holds; [lia|done|done|]. repeat constructor.
  - destruct (H [] demo_action [] 503 new_Request new_Response (b! "x")) as (p' & y' & E & _ & Hy'); [done|done|done| |].
    + intros d y Hd. cbn [Process_action demo_action]. unfold WriteRaw.
      destruct (PutStr_sink (emptyBuffProc := EmptyBuffProc) (SK := SK WriteCloseRecords) (b! "x") d y Hd) as (y' & -> & Hy'). by exists y'.
    + exists p', y'. split; [exact E|exact Hy'].
Defined.
