(* ===== verification/CwfServe.v ===== *)
(** A process that serves web requests: [FastcgiProc] of cwf/frame.cc, which accepts
    requests over FastCGI, reads them, dispatches them to the actions and finishes
    them; and the whole way of a request from the bytes on its connection to the
    records of the answer. *)
From Stdlib Require Import ZArith Lia Bool String.
From stdpp Require Import base list numbers gmap.
From S2P Require Import Prelude Clib FcgiProto OsUnix FcgiStream FcgiSink FcgiWriter.
From S2P Require Import FcgiParams FcgiReader FcgiSource FcgiWire FcgiInput FcgiRequest FcgiFinish.
From S2P Require Import CwfHttp CwfRequest.

(** ** Paths of the process *)

(** [log_dir[len - 1]] is before the string when it is empty. *)
Definition MakeLogDirPath (log_dir : list Z) (pid : Z) : outcome (list Z) :=
  match last (cstr log_dir) with
  | None => Crash
  | Some c => Ret (cstr log_dir ++ (if c =? 47 then [] else [47]) ++ format_d pid)
  end.
Definition MakeXarFilePath (log_dir : list Z) (pid : Z) : outcome (list Z) :=
  let! s := MakeLogDirPath log_dir pid in Ret (s ++ b! ".xar").

(** ** The loop *)

Section Serve.
Context `{BO : Boost}.
(** [inet_addr]; what each call of [FCGX_Accept_r] finds; the contents of new memory;
    the bound of the loops that read. *)
Variable inet_addr : list Z -> Z.
Variable env : nat -> accept_env.
Variable junk : nat -> list Z.
Variable fuel : nat.

Definition accept_r (e : accept_env) : fcgx -> outcome (Z * fcgx) :=
  FCGX_Accept_r inet_addr (ae_stack e) (ae_addr_in e) (ae_addr_out e) (ae_addr_err e)
    (ae_mem_in e) (ae_mem_out e) (ae_mem_err e) fuel.

(** The body of the loop. A request that [Init] rejects is processed all the same. *)
Definition serve_request (fw : FrameWork) (e : accept_env) (g : fcgx) : outcome fcgx :=
  match in_ g, envp g with
  | Some s, Some envp =>
      let! (_, q, y) := Init junk (FillBuffProc (ae_stack e) fuel) fuel (map cstr envp) new_Request (view s g) in
      let g := set_in_ (Some (strm y)) (unview y g) in
      match out g with
      | Some s =>
          let! (_, _, _, y) := Process EmptyBuffProc fw q new_Response (view s g) in
          Ret (set_out (Some (strm y)) (unview y g))
      | None => Crash
      end
  | _, _ => Crash
  end.

Fixpoint FastcgiProc_loop (k i : nat) (fw : FrameWork) (g : fcgx) : outcome fcgx :=
  match k with
  | O => NoFuel
  | S k =>
      let! (r, g) := accept_r (env i) g in
      if r <? 0 then Ret g
      else let! g := serve_request fw (env i) g in FastcgiProc_loop k (S i) fw g
  end.
Definition FastcgiProc (k : nat) (fw : FrameWork) (g : fcgx) : outcome fcgx :=
  FastcgiProc_loop k 0 fw (FCGX_InitRequest 0 0 g).2.

(** ** What arrives and what is answered *)

(** The buffers are as long as [Malloc] was asked for. *)
Record env_ok (e : accept_env) : Prop := {
  eo_stack : length (ae_stack e) = 64%nat;
  eo_addr_in : 0 <= ae_addr_in e < 2 ^ 64 - 8;
  eo_addr_out : 0 <= ae_addr_out e < 2 ^ 64 - 8;
  eo_addr_err : 0 <= ae_addr_err e < 2 ^ 64 - 8;
  eo_mem_in : Z.of_nat (length (ae_mem_in e)) = 8192;
  eo_mem_out : Z.of_nat (length (ae_mem_out e)) = 8192;
  eo_mem_err : Z.of_nat (length (ae_mem_err e)) = 512;
}.

(** A web server that connects to pass on one request: the connection, the records of
    the request as [request_sent] has them, the fields the browser encoded, and what
    the actions write for it. *)
Record client := mkClient {
  cl_fd : Z;
  cl_addr : sockaddr;
  cl_conn : conn;
  cl_chunks : list (list Z);
  cl_later : list read_event;
  cl_begin : record;
  cl_param_records : list record;
  cl_params : list (list Z * list Z);
  cl_input_records : list record;
  cl_end_padding : list Z;
  cl_tail : list Z;
  cl_answers1 : list Z;
  cl_answers2 : list Z;
  cl_role : list Z;
  cl_query : list (list Z * list Z);
  cl_form : list (list Z * list Z);
  cl_response : list Z;
}.

Definition cl_id (c : client) : Z := rec_id (cl_begin c).
Definition cl_last (c : client) : list Z :=
  encode_record (mkRecord FCGI_STDIN (cl_id c) [] (cl_end_padding c)) ++ cl_tail c.
(** The strings of the environment. *)
Definition cl_envp (c : client) : list (list Z) := map cstr ((cl_role c ++ [0]) :: map entry (cl_params c)).

(** The actions write [out] for a request, on any stream, whatever code they answer. *)
Definition answers (fw : FrameWork) (q : Request) (out : list Z) : Prop :=
  forall holds (SK : Sink EmptyBuffProc holds) d y, holds d y ->
    exists r q' p' y', Process EmptyBuffProc fw q new_Response y = Ret (r, q', p', y') /\ holds (d ++ out) y'.

Record client_ok (fw : FrameWork) (addrs : option (list Z)) (e : accept_env) (c : client) : Prop := {
  co_fd : 0 <= cl_fd c;
  co_peer : peer_ok inet_addr addrs (cl_addr c) (cl_conn c) = true;
  co_rx : c_rx (cl_conn c) = map RData (cl_chunks c) ++ cl_later c;
  co_chunks : Forall (fun b => b <> []) (cl_chunks c);
  co_writes : wtakes (c_wr (cl_conn c));
  co_bytes : concat (cl_chunks c)
    = request_bytes (cl_begin c) (cl_param_records c) (cl_input_records c) (cl_last c);
  co_sent : forall q, request_sent (ae_stack e) (set_isBeginProcessed false (set_ipcFd (cl_fd c) q))
    (cl_begin c) (cl_param_records c) (cl_params c) (cl_answers1 c) (cl_input_records c)
    (form_text (cl_form c)) (cl_answers2 c) (cl_last c) (cl_later c) 0 (cl_role c);
  co_padding : Z.of_nat (length (cl_end_padding c)) <= 255;
  co_close : Z.land (begin_flags (begin_body_of_bytes (rec_content (cl_begin c)))) FCGI_KEEP_CONN = 0;
  co_fuel : (length (concat (cl_chunks c)) + 2 < fuel)%nat;
  co_query_string : query_string_ (fold_left env_entry (cl_envp c) new_Request) = form_text (cl_query c);
  co_query : Forall form_ok (cl_query c);
  co_form : Forall form_ok (cl_form c);
  co_answer : forall q, request_of (cl_envp c) (cl_query c) (cl_form c) q -> answers fw q (cl_response c);
}.

(** What a client has received when its connection is closed: answers to management
    records, the response in records of the output stream, the end of that stream and
    the end of the request. *)
Definition answered (c : client) (closed : Z * list Z) : Prop :=
  closed.1 = cl_fd c /\
  exists rep rs, closed.2 = c_tx (cl_conn c) ++ rep ++ encode_records
      (rs ++ [mkRecord FCGI_STDOUT (cl_id c) [] []; end_request_record (cl_id c) 0 FCGI_REQUEST_COMPLETE]) /\
    rep `prefix_of` cl_answers1 c ++ cl_answers2 c /\
    Forall (data_record FCGI_STDOUT (cl_id c)) rs /\ concat (map rec_content rs) = cl_response c.

(** No request is open, and the process has not been told to stop. *)
Record at_rest (addrs : option (list Z)) (g : fcgx) : Prop := {
  ar_init : fcgx_libInitialized g = true;
  ar_addrs : webServerAddressList g = addrs;
  ar_in : in_ g = None;
  ar_fd : ipcFd (rq g) = -1;
  ar_keep : keepConnection (rq g) = false;
  ar_status : appStatus (rq g) = 0;
  ar_pending : shutdownPending (fos g) = false;
  ar_now : shutdownNow (fos g) = false;
  ar_async : asyncIoInUse (async (fos g)) = false;
}.

(** The event that ends the loop: [accept] fails for good, or SIGUSR1 arrives. *)
Definition stops (ev : accept_event) : Prop :=
  exists sig e, ev = AErr sig e /\ (sig = true \/ e <> EINTR /\ is_reasonable_accept_errno e = false).

Definition connects (c : client) : accept_event := AConn false (cl_fd c) (cl_addr c) (cl_conn c).
End Serve.

(** ** Streams between the operations on them *)

Lemma feeds_at o c fd later stack q T last base fuel rep d y :
  (exists pad tail, last = encode_record (mkRecord T (requestId q) [] pad) ++ tail) ->
  feeds (reads := reads_stream o c fd later stack q T last base fuel (base ++ rep))
    (ended := ended_stream o c fd later q T last 0 (base ++ rep)) d y ->
  exists tx rest flat, at_ o c fd later q T tx flat y /\ base `prefix_of` tx /\ tx ++ rest = base ++ rep.
Proof.
  intros (pad & tail & Hlast) [(cc & pad' & rs & d' & tx & rest & _ & [Hp Ht] & Hd & _)|[_ [_ Hend]]].
  - destruct Hd as (_ & Hat & _). by eexists _, _, _.
  - destruct (Hend pad tail Hlast) as [Hat _]. eexists _, [], _. rewrite app_nil_r.
    split_and!; [exact Hat|by apply prefix_app_r|done].
Qed.

Lemma holds_open o c q T any d y : holds_records o c q T any d y ->
  exists rs any', open_writer T any' (pending y) (strm y) /\ Forall (data_record T (requestId q)) rs /\
    d = concat (map rec_content rs) ++ pending y /\ sent o c q (encode_records rs) y /\ req y = q /\
    any' = any || negb (bool_decide (rs = [])).
Proof.
  intros (Hi & Hq & HT & Hr & Hn & rs & Hs & Hrs & Ha & Hd).
  exists rs, (isAnythingWritten (sdata y)). split_and!; try done. intros q' o' y'. split_and!; try done.
  by destruct Hi.
Qed.

Lemma records_nil T id rs : Forall (data_record T id) rs -> concat (map rec_content rs) = [] -> rs = [].
Proof.
  intros Hrs Hc. destruct rs as [|r rs]; [done|]. apply Forall_cons in Hrs as [(_ & _ & Hne & _) _].
  cbn [map concat] in Hc. by apply app_eq_nil in Hc as [Hc _].
Qed.

Lemma NewWriter_open addr mem n T :
  0 <= addr < 2 ^ 64 - 8 ->
  Z.of_nat (length mem) = AlignInt8 (Z.min (Z.max n 32) (FCGI_MAX_LENGTH + 1)) ->
  open_writer T false [] (NewWriter addr mem n T).
Proof.
  intros Ha Hm.
  destruct (holds_open _ _ _ _ _ _ _ (NewWriter_holds addr mem n T demo_request demo_os demo_conn Ha Hm
    eq_refl ltac:(by repeat constructor))) as (rs & any & Ho & Hrs & Hd & _ & _ & ->).
  symmetry in Hd. apply app_eq_nil in Hd as [Hc Hp]. cbn [strm] in Ho. rewrite Hp in Ho.
  by apply (records_nil _ _ _ Hrs) in Hc as ->.
Qed.

(** ** One turn of the loop *)

Section Proofs.
Context `{BL : BoostLaws}.
Context (inet_addr : list Z -> Z) (junk : nat -> list Z) (fuel : nat) (fw : FrameWork) (addrs : option (list Z)).

(** The body of the loop, on a request whose streams are open. *)
Lemma serve_request_ok e c o g s q :
  client_ok inet_addr fuel fw addrs e c -> env_ok e -> shutdownNow o = false ->
  in_ g = Some s -> envp g = Some ((cl_role c ++ [0]) :: map entry (cl_params c)) -> rq g = q ->
  out g = Some (NewWriter (ae_addr_out e) (ae_mem_out e) 8192 FCGI_STDOUT) ->
  requestId q = cl_id c -> ipcFd q = cl_fd c -> 0 < cl_id c < 65536 ->
  reads_stream o (cl_conn c) (cl_fd c) (cl_later c) (ae_stack e) q FCGI_STDIN (cl_last c)
    (c_tx (cl_conn c) ++ cl_answers1 c) fuel ((c_tx (cl_conn c) ++ cl_answers1 c) ++ cl_answers2 c)
    (form_text (cl_form c)) (view s g) ->
  exists g2 s2 so c2 rep rest rs any d, serve_request junk fuel fw e g = Ret g2 /\
    in_ g2 = Some s2 /\ FCGI_errno s2 = 0 /\ err g2 = err g /\ out g2 = Some so /\
    open_writer FCGI_STDOUT any d so /\ rq g2 = q /\ same_library g g2 /\
    fos g2 = put_conn (cl_fd c) c2 o /\ wtakes (c_wr c2) /\
    c_tx c2 = c_tx (cl_conn c) ++ rep ++ encode_records rs /\ rep ++ rest = cl_answers1 c ++ cl_answers2 c /\
    Forall (data_record FCGI_STDOUT (cl_id c)) rs /\ concat (map rec_content rs) ++ d = cl_response c.
Proof.
  intros Hc He Hsh Hi Henv Hq Ho Hid Hfd Hidb Hreads. destruct Hc. destruct He.
  assert (Hend : ending q FCGI_STDIN (cl_later c) (cl_last c) 0).
  { unfold cl_last. rewrite <- Hid. by apply end_of_stream. }
  pose proof (stream_source o (cl_conn c) (cl_fd c) (cl_later c) Hsh (ae_stack e) q FCGI_STDIN (cl_last c) 0
    (c_tx (cl_conn c) ++ cl_answers1 c) ltac:(done) ltac:(done) ltac:(by rewrite Hid) eo_stack0 Hend fuel
    ((c_tx (cl_conn c) ++ cl_answers1 c) ++ cl_answers2 c)) as SO.
  assert (Hlen : (length (form_text (cl_form c)) + 2 < fuel)%nat).
  { destruct (co_sent0 q). pose proof (wires_data_length _ _ _ _ _ _ _ rs_input) as Hl.
    rewrite co_bytes0 in co_fuel0. unfold request_bytes in co_fuel0. rewrite !length_app in co_fuel0. lia. }
  destruct (Init_result (SO := SO) junk fuel (cl_envp c) (cl_query c) (cl_form c) (view s g))
    as (w & y & HI & Hw & _ & Hy); try done; [by left|lia|].
  assert (Hf : exists tx rest flat, at_ o (cl_conn c) (cl_fd c) (cl_later c) q FCGI_STDIN tx flat y /\
    (c_tx (cl_conn c) ++ cl_answers1 c) `prefix_of` tx /\ tx ++ rest = (c_tx (cl_conn c) ++ cl_answers1 c) ++ cl_answers2 c).
  { destruct (decide _); [|subst y]; eapply feeds_at; [|exact Hy| |by left];
      unfold cl_last; rewrite <- Hid; by eexists _, _. }
  destruct Hf as (tx & rest & flat & Hat & [rep' ->] & Htx). rewrite <- !app_assoc in Htx. apply app_inv_head in Htx.
  unfold serve_request. rewrite Hi, Henv. change (FillBuffProc (ae_stack e) fuel) with (FillBuff_loop (ae_stack e) fuel []).
  change (map cstr _) with (cl_envp c). rewrite HI. cbn [obind].
  destruct Hat as [_ _ (chunks & wr & Hos & _ & Hwr & _) Hrq _ _ _ Herr].
  set (c1 := conn_io (cl_conn c) _ wr _) in Hos. change (out (set_in_ _ _)) with (out g). rewrite Ho.
  assert (Hc1 : k_conns (kern (os y)) !! ipcFd q = Some c1) by (rewrite Hos, Hfd; apply put_conn_lookup).
  pose proof (records_sink (os y) c1 q FCGI_STDOUT false ltac:(by rewrite Hos) ltac:(done) ltac:(lia) WriteCloseRecords) as SK.
  destruct (co_answer0 w Hw _ SK [] (mkSys (NewWriter (ae_addr_out e) (ae_mem_out e) 8192 FCGI_STDOUT) q (os y)))
    as (r & w' & p' & y2 & HP & Hy2); [by apply NewWriter_holds|].
  unfold view, unview. cbn [rq fos set_in_ set_fos set_rq]. rewrite Hrq, HP. cbn [obind].
  destruct (holds_open _ _ _ _ _ _ _ Hy2) as (rs & any & Hopen & Hrs & Hd & (wr2 & Hos2 & Hwr2) & Hq2 & _).
  eexists _, (strm y), (strm y2), _, (cl_answers1 c ++ rep'), rest, rs, any, (pending y2). split; [reflexivity|].
  cbn [in_ err out rq fos set_out set_in_ set_fos set_rq]. rewrite Hos2, Hos, Hfd, put_conn_put_conn.
  split_and!; try done; [cbn; by rewrite <- !app_assoc|by rewrite <- app_assoc|by rewrite <- Hid].
Qed.

(** A request from [accept] to the end of [FCGX_Finish_r]. *)
Lemma turn_ok e c evs g :
  client_ok inet_addr fuel fw addrs e c -> env_ok e -> at_rest addrs g -> k_accept (kern (fos g)) = connects c :: evs ->
  exists g1 g2 g3 tx,
    Accept_loop inet_addr (ae_stack e) (ae_addr_in e) (ae_addr_out e) (ae_addr_err e)
      (ae_mem_in e) (ae_mem_out e) (ae_mem_err e) fuel fuel g = Ret (0, g1) /\
    serve_request junk fuel fw e g1 = Ret g2 /\ fcgx_libInitialized g2 = true /\
    FCGX_Finish_r g2 = Ret g3 /\ at_rest addrs g3 /\ k_accept (kern (fos g3)) = evs /\
    k_closed (kern (fos g3)) = k_closed (kern (fos g)) ++ [(cl_fd c, tx)] /\ answered c (cl_fd c, tx).
Proof.
  intros Hc He Hg Ha. pose proof Hc as []. pose proof He as []. destruct Hg.
  destruct (Accept_opens inet_addr (ae_stack e) (ae_addr_in e) (ae_addr_out e) (ae_addr_err e) (ae_mem_in e) (ae_mem_out e)
    (ae_mem_err e) eo_stack0 eo_addr_in0 eo_mem_in0 fuel g (cl_fd c) (cl_addr c) (cl_conn c) evs (cl_chunks c)
    (cl_begin c) (cl_param_records c) (cl_params c) (cl_answers1 c) (cl_input_records c) (form_text (cl_form c))
    (cl_answers2 c) (cl_last c) (cl_later c) 0 (cl_role c))
    as (g1 & s1 & o1 & HA & He1 & Hq1 & Ho1 & Herr1 & Hi1 & Hsn1 & Hk1 & Ha1 & Hp1 & Has1 & Hl1 & Hreads & _);
    try done; [by rewrite ar_addrs0|].
  set (q := set_nWriters 2 _) in *.
  assert (Hidb : 0 < cl_id c < 65536) by (destruct (co_sent0 (rq g)) as [(_ & ? & _) _ ?]; unfold cl_id; lia).
  destruct (serve_request_ok e c o1 g1 s1 q Hc He Hsn1 Hi1 He1 Hq1 Ho1 eq_refl eq_refl Hidb Hreads)
    as (g2 & s2 & so & c2 & rep & rest & rs & any & d & HS & Hi2 & Hs2 & Herr2 & Ho2 & Hopen & Hq2 & Hl2 & Hf2 & Hw2 & Htx & Hrep & Hrs & Hd).
  assert (Hkeep : keepConnection q = false).
  { change (negb (Z.land (begin_flags (begin_body_of_bytes (rec_content (cl_begin c)))) FCGI_KEEP_CONN =? 0) = false).
    by rewrite co_close0. }
  destruct (Finish_sends g2 s2 (NewWriter (ae_addr_err e) (ae_mem_err e) 512 FCGI_STDERR) so c2 false any [] d)
    as (g3 & ers & ors & HF & Hers & Hec & Hors & Hoc & Hi3 & _ & _ & _ & Hl3 & Hs3 & Ha3 & Hq3 & Hfin);
    rewrite ?Hq2, ?Hf2, ?Herr2; try done; [by apply NewWriter_open|change (requestId q) with (cl_id c); lia|change (ipcFd q) with (cl_fd c); lia|apply put_conn_lookup|cbn; by rewrite Has1|].
  rewrite Hq2, Hkeep in Hfin, Hq3. destruct Hfin as (_ & _ & Hclosed).
  rewrite (records_nil _ _ _ Hers Hec), Htx, Hf2 in Hclosed. destruct Hl1 as [Hl1 Hl1'], Hl2 as [Hl2 Hl2'], Hl3 as [Hl3 Hl3'].
  destruct Hs3 as (Hs3 & Hs3' & Hs3''). rewrite Hf2 in Hs3, Hs3', Hs3'', Ha3. cbn in Hs3, Hs3', Hs3'', Ha3.
  exists g1, g2, g3. eexists. split_and!; [exact HA|exact HS|congruence|exact HF| |congruence|by rewrite Hclosed, <- Hk1|].
  - constructor; rewrite ?Hq3; first [congruence | done].
  - split; [done|]. exists rep, (rs ++ ors). split_and!.
    + cbn [snd]. unfold finish_bytes. rewrite <- !app_assoc, (encode_records_app rs). cbn [closing_records app negb andb bool_decide].
      by rewrite <- ar_status0.
    + by exists rest.
    + apply Forall_app. rewrite Hq2 in Hors. by split.
    + by rewrite map_app, concat_app, Hoc.
Qed.
Lemma accept_fails e g ev evs :
  stops ev -> (0 < fuel)%nat -> ipcFd (rq g) = -1 -> shutdownPending (fos g) = false -> k_accept (kern (fos g)) = ev :: evs ->
  exists r g', Accept_loop inet_addr (ae_stack e) (ae_addr_in e) (ae_addr_out e) (ae_addr_err e)
      (ae_mem_in e) (ae_mem_out e) (ae_mem_err e) fuel fuel g = Ret (r, g') /\ r < 0 /\
    k_closed (kern (fos g')) = k_closed (kern (fos g)).
Proof.
  intros (sig & err & -> & Hev) Hf Hfd Hp Ha. destruct fuel as [|F]; [lia|]. cbn [Accept_loop]. rewrite Hfd.
  cbn [Z.ltb Z.compare]. unfold OS_Accept. cbn [accept_outer]. change (AcquireLock _ _ =? 0) with true.
  cbn [negb accept_inner accept_retry]. rewrite Hp. unfold sys_accept. rewrite Ha, Hp. cbn [orb].
  set (o1 := set_os_errno _ _).
  assert (Hr : (os_errno o1 =? EINTR) && negb (negb (Z.land (rq_flags (rq g)) 1 =? 0)) && negb (shutdownPending o1) = false).
  { cbn. destruct Hev as [->|[He _]]; [apply andb_false_r|]. apply Z.eqb_neq in He. by rewrite He. }
  rewrite Hr. cbn [obind Z.ltb Z.compare].
  assert (Hs : shutdownPending o1 || negb (is_reasonable_accept_errno (os_errno o1)) = true).
  { cbn. destruct Hev as [->|[_ ->]]; [done|apply orb_true_r]. }
  rewrite Hs. cbn [obind Z.ltb Z.compare]. cbn [os_errno set_os_errno fos set_fos set_rq].
  set (r := if os_errno o1 >? 0 then _ else _). assert (r < 0) as Hneg by (subst r; cbn; destruct (Z.gtb_spec err 0); lia).
  apply Z.ltb_lt in Hneg as Hb. rewrite Hb. by eexists r, _.
Qed.

Lemma FastcgiProc_loop_serves env clients ev evs : forall k i g g0,
  stops ev -> (0 < fuel)%nat -> (forall i, env_ok (env i)) ->
  (forall j c, clients !! j = Some c -> client_ok inet_addr fuel fw addrs (env (i + j)%nat) c) ->
  fcgx_libInitialized g = true -> FCGX_Finish_r g = Ret g0 -> at_rest addrs g0 ->
  k_accept (kern (fos g0)) = map connects clients ++ ev :: evs -> (length clients < k)%nat ->
  exists g' closed, FastcgiProc_loop inet_addr env junk fuel k i fw g = Ret g' /\
    k_closed (kern (fos g')) = k_closed (kern (fos g0)) ++ closed /\ Forall2 answered clients closed.
Proof.
  induction clients as [|c clients IH]; intros k i g g0 Hev Hf He Hc Hl HF Hg Ha Hk;
    (destruct k as [|k]; [cbn in Hk; lia|]); cbn [FastcgiProc_loop]; unfold accept_r, FCGX_Accept_r; rewrite Hl, HF; cbn [negb obind].
  - destruct (accept_fails (env i) g0 ev evs Hev Hf) as (r & g' & -> & Hr & Hcl); try apply Hg; [done|]. cbn [obind].
    apply Z.ltb_lt in Hr as ->. exists g', []. rewrite app_nil_r. by split_and!.
  - pose proof (Hc 0%nat c eq_refl) as Hc0. rewrite Nat.add_0_r in Hc0.
    destruct (turn_ok (env i) c _ g0 Hc0 (He i) Hg Ha) as (g1 & g2 & g3 & tx & -> & HS & Hl2 & HF2 & Hg3 & Ha3 & Hcl & Hans).
    cbn [obind Z.ltb Z.compare]. rewrite HS. cbn [obind].
    destruct (IH k (S i) g2 g3 Hev Hf He) as (g' & closed & E & Hcl' & Hall); try done; [|cbn in Hk; lia|].
    { intros j c' Hj. rewrite Nat.add_succ_comm. by apply (Hc (S j)). }
    exists g', ((cl_fd c, tx) :: closed). split; [exact E|]. split; [by rewrite Hcl', Hcl, <- app_assoc|by constructor].
Qed.

(** C1. A process serves its clients one after another, from the bytes of a request on
    the wire to the records of its answer.  Whatever the sizes in which the bytes of a
    request arrive and whatever management records and records of other requests come
    in between, the actions get a request whose fields, headers and form have the
    values that were sent, and what they write for it is what the client receives, as
    records of the output stream, before the stream and the request are ended and the
    connection is closed; no client gets what was written for another.  The loop ends when [accept] fails for good or the process is told to
    stop. *)
Theorem FastcgiProc_serves env clients ev evs k g :
  fcgx_libInitialized g = true -> webServerAddressList g = addrs -> shutdownPending (fos g) = false ->
  shutdownNow (fos g) = false -> asyncIoInUse (async (fos g)) = false ->
  k_accept (kern (fos g)) = map connects clients ++ ev :: evs -> stops ev ->
  (forall i, env_ok (env i)) ->
  (forall i c, clients !! i = Some c -> client_ok inet_addr fuel fw addrs (env i) c) ->
  (0 < fuel)%nat -> (length clients < k)%nat ->
  exists g' closed, FastcgiProc inet_addr env junk fuel k fw g = Ret g' /\
    k_closed (kern (fos g')) = k_closed (kern (fos g)) ++ closed /\ Forall2 answered clients closed.
Proof.
  intros. apply (FastcgiProc_loop_serves env clients ev evs k 0 (FCGX_InitRequest 0 0 g).2
    (FCGX_InitRequest 0 0 g).2); done.
Qed.
End Proofs.

(** ** Two clients *)

Definition demo_server : FrameWork :=
  AddAction (mkAction (StringPattern_Match (BO := std_boost) (b! "/feed"))
    (fun q p y => let! y := WriteRaw EmptyBuffProc (form q (b! "text")) y in Ret (200, q, p, y))) new_FrameWork.
Definition demo_accept : accept_env :=
  mkAccept (replicate 64 0) 8 16 24 (replicate (64 * 128) 0) (replicate (64 * 128) 0) (replicate 512 0).

(** A client whose body, if it has one, follows a management record. *)
Definition demo_client_of (fd id : Z) (params form : list (list Z * list Z)) (response : list Z) : client :=
  let begin := mkRecord FCGI_BEGIN_REQUEST id [0; 1; 0; 0; 0; 0; 0; 0] [] in
  let prs := [mkRecord FCGI_PARAMS id (encode_pairs params) []] in
  let irs := match form with [] => [] | _ => [mkRecord 99 0 [] []; mkRecord FCGI_STDIN id (form_text form) [0]] end in
  let last := encode_record (mkRecord FCGI_STDIN id [] []) ++ [] in
  let chunks := chop 300 10 (request_bytes begin prs irs last) in
  mkClient fd SA_unix (mkConn (map RData chunks ++ []) [WTake 3] [] true []) chunks [] begin prs params irs [] [] []
    (match form with [] => [] | _ => encode_record (unknown_type_record 99) end) (b! "FCGI_ROLE=RESPONDER")
    [] form response.

Definition demo_poster : client :=
  demo_client_of 5 7 [(b! "REQUEST_METHOD", b! "POST"); (b! "REQUEST_URI", b! "/feed"); (b! "HTTP_HOST", b! "a.org")]
    [(b! "text", b! "a&b c")] (b! "a&b c").
Definition demo_getter : client :=
  demo_client_of 6 1 [(b! "REQUEST_URI", b! "/x"); (b! "HTTP_HOST", b! "a.org")] []
    (header_text 404 (b! "Not Found") new_Header).

Lemma demo_poster_ok : client_ok (BO := std_boost) (fun _ => 0) 400 demo_server None demo_accept demo_poster.
Proof.
  constructor; try done.
  - vm_compute. repeat constructor; intros [=].
  - repeat constructor.
  - intros q. constructor; try reflexivity; try done.
    + repeat constructor; concrete_record.
    + rewrite <- (app_nil_r (encode_pairs _)). change (cl_answers1 demo_poster) with ([] ++ [] : list Z).
      apply wires_cons; [concrete_record|by apply wire_data|done|apply wires_nil].
    + change (form_text (cl_form demo_poster)) with ([] ++ form_text (cl_form demo_poster) ++ []).
      change (cl_answers2 demo_poster) with (encode_record (unknown_type_record 99) ++ [] ++ []).
      apply wires_cons; [concrete_record|by apply wire_unknown|done|].
      apply wires_cons; [concrete_record|by apply wire_data|done|apply wires_nil].
    + match goal with |- ending ?q _ _ _ _ => apply (end_of_stream q FCGI_STDIN [] [] []) end. cbn. lia.
  - vm_compute. lia.
  - repeat constructor; discriminate.
  - intros q (Hk & _ & Hu & _) holds SK d y Hy. destruct (Hk (b! "text")) as (_ & Hf & _); [repeat constructor; discriminate|].
    assert (Hform : form q (b! "text") = b! "a&b c") by (rewrite Hf; by vm_compute).
    assert (Hm : StringPattern_Match (BO := std_boost) (b! "/feed") (url_ q) = true) by (rewrite Hu; by vm_compute).
    unfold Process, Find. cbn [host_action_ demo_server AddAction new_FrameWork app List.find Match].
    rewrite Hm. cbn [Process_action]. rewrite Hform. unfold WriteRaw.
    destruct (PutStr_sink (emptyBuffProc := EmptyBuffProc) (SK := SK) (b! "a&b c") d y Hy) as (y' & -> & Hy').
    cbn [obind]. by eexists _, q, new_Response, y'.
Qed.

Lemma demo_getter_ok : client_ok (BO := std_boost) (fun _ => 0) 400 demo_server None demo_accept demo_getter.
Proof.
  constructor; try done.
  - vm_compute. repeat constructor; intros [=].
  - repeat constructor.
  - intros q. constructor; try reflexivity; try done.
    + repeat constructor; concrete_record.
    + rewrite <- (app_nil_r (encode_pairs _)). change (cl_answers1 demo_getter) with ([] ++ [] : list Z).
      apply wires_cons; [concrete_record|by apply wire_data|done|apply wires_nil].
    + apply wires_nil.
    + match goal with |- ending ?q _ _ _ _ => apply (end_of_stream q FCGI_STDIN [] [] []) end. cbn. lia.
  - vm_compute. lia.
  - intros q (_ & _ & Hu & _) holds SK d y Hy.
    assert (Hm : StringPattern_Match (BO := std_boost) (b! "/feed") (url_ q) = false) by (rewrite Hu; by vm_compute).
    unfold Process, Find. cbn [host_action_ demo_server AddAction new_FrameWork app List.find Match]. rewrite Hm.
    destruct (ResponseError_writes (emptyBuffProc := EmptyBuffProc) (SK := SK) (code_value HC_NOT_FOUND) (b! "Not Found")
      new_Response d y Hy) as (p' & y' & -> & _ & _ & Hy').
    cbn [obind]. by eexists _, q, p', y'.
Qed.

Definition demo_process : fcgx :=
  mkFcgx (FcgiStream.mkRequest 0 0 (-1) false false 0 0 0 0) None None None None None 1 true None
    (mkOs 0 false false true demo_aio
       (mkKernel ∅ [connects demo_poster; connects demo_getter; AErr true EINTR] [])).

Lemma FastcgiProc_serves_witness :
  exists g' closed, FastcgiProc (BO := std_boost) (fun _ => 0) (fun _ => demo_accept) (fun _ => []) 400 3 demo_server demo_process
      = Ret g' /\
    k_closed (kern (fos g')) = [] ++ closed /\ Forall2 answered [demo_poster; demo_getter] closed.
Proof.
  apply (FastcgiProc_serves (BL := std_boost_laws) (fun _ => 0) (fun _ => []) 400 demo_server None (fun _ => demo_accept)
    [demo_poster; demo_getter] (AErr true EINTR) [] 3 demo_process); try done.
  - exists true, EINTR. split; [done|by left].
  - intros [|[|i]] c [= <-]; [exact demo_poster_ok|exact demo_getter_ok].
  - lia.
  - cbn. lia.
Defined.
