(* ===== verification/CwfConnect.v ===== *)
(** The start of a web process: FastcgiConnect of cwf/connect.cc (its POSIX part),
    which binds the listening socket and forks the children that will serve it, and
    what main of cwf/cwfmain.cc does with its result.

    A process has a table of descriptors with the rules of POSIX for it: a new
    descriptor is the lowest one that is free, [dup2] replaces, [close] frees.
    Whether a call succeeds, and what [fork] and [waitpid] answer, is a function
    [answer] of the calls made so far and the next one. *)
From Stdlib Require Import ZArith Lia Bool String.
From stdpp Require Import base list numbers gmap.
From S2P Require Import Prelude Clib FcgiProto OsUnix OsSocket.

(** ** Descriptors *)

(** What a descriptor is open on: something the process was started with, a socket,
    one that has been bound, one that listens, /dev/null. *)
Inductive desc :=
| Inherited (n : Z)
| Fresh (f : family)
| Bound (a : sock_addr)
| Listening (a : sock_addr) (backlog : Z)
| DevNull.

Inductive call :=
| KSocket (f : family)
| KConnect (fd : Z) (a : sock_addr)
| KUnlink (path : list Z)
| KReuseAddr (fd : Z)
| KBind (fd : Z) (a : sock_addr)
| KChown (path : list Z) (uid gid : Z)
| KChmod (path : list Z) (mode : Z)
| KListen (fd backlog : Z)
| KClose (fd : Z)
| KDup2 (fd fd2 : Z)
| KFork
| KSetsid
| KOpenNull
| KSelect
| KWaitpid (child : Z).

(** [put_env] is the string the last [putenv] has made part of the environment. *)
Record proc := mkProc {
  fds : gmap Z desc;
  calls : list call;
  put_env : option (list Z);
}.
Definition set_fds (v : gmap Z desc) (p : proc) : proc := mkProc v (calls p) (put_env p).
Definition putenv (s : list Z) (p : proc) : proc := mkProc (fds p) (calls p) (Some s).

(** The lowest descriptor from [i] on that is free. *)
Fixpoint lowest_from (k : nat) (i : Z) (m : gmap Z desc) : Z :=
  match k with
  | O => i
  | S k => match m !! i with None => i | Some _ => lowest_from k (i + 1) m end
  end.
Definition lowest (m : gmap Z desc) : Z := lowest_from (size m) 0 m.

Definition ENOENT : Z := 2.
Definition STDOUT_FILENO : Z := 1.
Definition STDERR_FILENO : Z := 2.

(** What a call that succeeds returns and does to the table; [r] is what [answer] gives. *)
Definition effect (c : call) (r : Z) (m : gmap Z desc) : Z * gmap Z desc :=
  match c with
  | KSocket f => (lowest m, <[lowest m := Fresh f]> m)
  | KOpenNull => (lowest m, <[lowest m := DevNull]> m)
  | KBind fd a => (0, alter (fun _ => Bound a) fd m)
  | KListen fd n => (0, alter (fun d => match d with Bound a => Listening a n | d => d end) fd m)
  | KClose fd => (0, delete fd m)
  | KDup2 fd fd2 => match m !! fd with Some d => (fd2, <[fd2 := d]> m) | None => (-1, m) end
  | KFork | KWaitpid _ => (r, m)
  | _ => (0, m)
  end.

Section Connect.
Variable answer : list call -> call -> Z * Z.
Variable inet_addr : list Z -> Z.

Definition do_call (c : call) (p : proc) : Z * proc :=
  let r := fst (answer (calls p) c) in
  let '(r, m) := if r <? 0 then (-1, fds p) else effect c r (fds p) in
  (r, mkProc m (calls p ++ [c]) (put_env p)).
Definition errno_after (c : call) (p : proc) : Z := snd (answer (calls p) c).

(** ** bind_socket *)

(** The address, with its Internet part already checked: [None] is a bad address.
    [strcpy] needs the path and its NUL to fit into [sun_path]. *)
Definition socket_address (addr : option (list Z)) (port : Z) (unixsocket : option (list Z))
    : outcome (option sock_addr) :=
  match unixsocket with
  | Some path =>
      ASSERT (length path <? SUN_PATH_SIZE)%nat in
      Ret (Some (SA_un path (SUN_FAMILY_SIZE + Z.of_nat (length path))))
  | None =>
      match addr with
      | None => Ret (Some (SA_in INADDR_ANY (u16 port)))
      | Some a =>
          let s_addr := inet_addr a in
          Ret (if s_addr =? INADDR_NONE then None else Some (SA_in s_addr (u16 port)))
      end
  end.

(** Tests that nobody listens on the path and removes what is left there: false when
    the function must give up. *)
Definition clear_path (path : list Z) (a : sock_addr) (p : proc) : bool * proc :=
  let '(fcgi_fd, p) := do_call (KSocket AF_UNIX) p in
  if fcgi_fd =? -1 then (false, p)
  else
    let '(r, p) := do_call (KConnect fcgi_fd a) p in
    if r =? 0 then let '(_, p) := do_call (KClose fcgi_fd) p in (false, p)
    else
      let e := errno_after (KUnlink path) p in
      let '(r, p) := do_call (KUnlink path) p in
      if (r =? -1) && negb (e =? ENOENT) then (false, p)
      else let '(_, p) := do_call (KClose fcgi_fd) p in (true, p).

(** The owner and the mode of the path: false when a call fails. *)
Definition set_owner (path : list Z) (uid gid mode fcgi_fd : Z) (p : proc) : bool * proc :=
  let abandon p :=
    let '(_, p) := do_call (KClose fcgi_fd) p in
    let '(_, p) := do_call (KUnlink path) p in (false, p) in
  if negb (uid =? 0) || negb (gid =? 0) then
    let uid := if uid =? 0 then -1 else uid in
    let gid := if gid =? 0 then -1 else gid in
    let '(r, p) := do_call (KChown path uid gid) p in
    if r =? -1 then abandon p
    else
      let '(r, p) := do_call (KChmod path mode) p in
      if r =? -1 then abandon p else (true, p)
  else (true, p).

Definition bind_socket (addr : option (list Z)) (port : Z) (unixsocket : option (list Z))
    (uid gid mode : Z) (p : proc) : outcome (Z * proc) :=
  let! a := socket_address addr port unixsocket in
  match a with
  | None => Ret (-1, p)
  | Some a =>
      let '(ok, p) := match unixsocket with Some path => clear_path path a p | None => (true, p) end in
      if negb ok then Ret (-1, p)
      else
        let '(fcgi_fd, p) := do_call (KSocket (addr_family a)) p in
        if fcgi_fd =? -1 then Ret (-1, p)
        else
          let '(r, p) := do_call (KReuseAddr fcgi_fd) p in
          if r <? 0 then Ret (-1, p)
          else
            let '(r, p) := do_call (KBind fcgi_fd a) p in
            if r =? -1 then Ret (-1, p)
            else
              let '(ok, p) :=
                match unixsocket with Some path => set_owner path uid gid mode fcgi_fd p | None => (true, p) end in
              if negb ok then Ret (-1, p)
              else
                let '(r, p) := do_call (KListen fcgi_fd 1024) p in
                Ret (if r =? -1 then -1 else fcgi_fd, p)
  end.

(** ** FastcgiConnect *)

Fixpoint close_from (k : nat) (i : Z) (p : proc) : proc :=
  match k with
  | O => p
  | S k =>
      let p := if negb (i =? FCGI_LISTENSOCK_FILENO) then snd (do_call (KClose i) p) else p in
      close_from k (i + 1) p
  end.

(** The child: the listening socket becomes descriptor 0, standard output and error
    /dev/null, and the descriptors below that of /dev/null are closed. *)
Definition child_setup (fcgi_fd : Z) (p : proc) : proc :=
  let p := putenv (snprintf 64 (b! "PHP_FCGI_CHILDREN=" ++ format_d 0)) p in
  let p :=
    if negb (fcgi_fd =? FCGI_LISTENSOCK_FILENO) then
      let '(_, p) := do_call (KClose FCGI_LISTENSOCK_FILENO) p in
      let '(_, p) := do_call (KDup2 fcgi_fd FCGI_LISTENSOCK_FILENO) p in
      snd (do_call (KClose fcgi_fd) p)
    else p in
  let '(_, p) := do_call KSetsid p in
  let '(max_fd, p) := do_call KOpenNull p in
  let p :=
    if negb (max_fd =? -1) then
      let p := if negb (max_fd =? STDOUT_FILENO) then snd (do_call (KDup2 max_fd STDOUT_FILENO) p) else p in
      let p := if negb (max_fd =? STDERR_FILENO) then snd (do_call (KDup2 max_fd STDERR_FILENO) p) else p in
      if negb (max_fd =? STDOUT_FILENO) && negb (max_fd =? STDERR_FILENO)
      then snd (do_call (KClose max_fd) p) else p
    else p in
  close_from (Z.to_nat (max_fd - 3)) 3 p.

(** The macros of sys/wait.h, and what the parent makes of a status. *)
Definition WIFEXITED (status : Z) : bool := Z.land status 127 =? 0.
Definition WEXITSTATUS (status : Z) : Z := Z.land (Z.shiftr status 8) 255.
Definition WIFSIGNALED (status : Z) : bool := Z.shiftr (s8 (Z.land status 127 + 1)) 1 >? 0.
Definition child_rc (status : Z) : Z :=
  if WIFEXITED status then WEXITSTATUS status else if WIFSIGNALED status then 1 else status.

(** [status] of [waitpid], by the calls before it. *)
Variable wait_status : list call -> Z.

Fixpoint fork_loop (fork_count : nat) (fcgi_fd rc : Z) (p : proc) : Z * proc :=
  match fork_count with
  | O => let '(_, p) := do_call (KClose fcgi_fd) p in (rc, p)
  | S fork_count =>
      let '(child, p) := do_call KFork p in
      if child =? 0 then (-1, child_setup fcgi_fd p)
      else if child =? -1 then fork_loop fork_count fcgi_fd rc p
      else
        let '(_, p) := do_call KSelect p in
        let status := wait_status (calls p) in
        let '(r, p) := do_call (KWaitpid child) p in
        fork_loop fork_count fcgi_fd (if (r =? 0) || (r =? -1) then rc else child_rc status) p
  end.

Definition FastcgiConnect (addr : option (list Z)) (port : Z) (unixsocket : option (list Z))
    (mode fork_count : Z) (p : proc) : outcome (Z * proc) :=
  let! (fcgi_fd, p) := bind_socket addr port unixsocket 0 0 mode p in
  if fcgi_fd =? -1 then Ret (0, p) else Ret (fork_loop (Z.to_nat fork_count) fcgi_fd 0 p).
End Connect.

(** ** main *)

(** What main does after FastcgiConnect: exit with a status, or go on to FastcgiMain. *)
Inductive main_next := Exit (status : Z) | Serve.
Definition main_after_connect (rc fork_count : Z) : main_next :=
  if (rc =? 0) && (fork_count >? 0) then Exit 0 else if negb (rc =? -1) then Exit 1 else Serve.

(** ** The lowest free descriptor *)

Lemma lowest_from_is (m : gmap Z desc) s : m !! s = None -> forall k i,
  i <= s <= i + Z.of_nat k -> (forall j, i <= j < s -> is_Some (m !! j)) -> lowest_from k i m = s.
Proof.
  intros Hs. induction k as [|k IH]; intros i Hi Hj; cbn [lowest_from]; [lia|].
  destruct (Z.eq_dec i s) as [->|Hne]; [by rewrite Hs|].
  destruct (Hj i) as [d ->]; [lia|]. apply IH; [lia|]. intros j Hj'. apply Hj. lia.
Qed.

(** [s] is the lowest free descriptor of [m]. *)
Definition lowest_free (m : gmap Z desc) (s : Z) : Prop :=
  0 <= s /\ m !! s = None /\ forall j, 0 <= j < s -> is_Some (m !! j).

Lemma lowest_is m s : lowest_free m s -> lowest m = s.
Proof.
  intros (H0 & Hs & Hj). apply lowest_from_is; [done| |done].
  assert (Hsub : list_to_set (seqZ 0 s) ⊆ dom m).
  { intros j Hin. apply elem_of_list_to_set, elem_of_seqZ in Hin. apply elem_of_dom, Hj. lia. }
  apply subseteq_size in Hsub. rewrite size_list_to_set in Hsub by apply NoDup_seqZ.
  rewrite length_seqZ, size_dom in Hsub. lia.
Qed.

(** ** Calls that succeed *)

Section Proofs.
Context {answer : list call -> call -> Z * Z} {inet_addr : list Z -> Z} {wait_status : list call -> Z}.
(** Every call succeeds but [connect]: nobody listens on the path. *)
Hypothesis obliging : forall t c,
  match c with KConnect _ _ => fst (answer t c) < 0 | KFork | KWaitpid _ => True | _ => 0 <= fst (answer t c) end.

Definition plain (c : call) : Prop :=
  match c with KConnect _ _ | KFork | KWaitpid _ => False | _ => True end.
Definition after (c : call) (p : proc) : proc := mkProc (effect c 0 (fds p)).2 (calls p ++ [c]) (put_env p).

Lemma do_call_plain c p : plain c -> do_call answer c p = ((effect c 0 (fds p)).1, after c p).
Proof.
  intros Hc. unfold do_call, after. pose proof (obliging (calls p) c) as H.
  destruct c; try done;
    (match goal with |- context[?a <? 0] => destruct (Z.ltb_spec a 0); [lia|] end);
    cbn [effect]; try done; by destruct (fds p !! _).
Qed.
Lemma do_call_connect fd a p :
  do_call answer (KConnect fd a) p = (-1, mkProc (fds p) (calls p ++ [KConnect fd a]) (put_env p)).
Proof. unfold do_call. pose proof (obliging (calls p) (KConnect fd a)) as H. by apply Z.ltb_lt in H as ->. Qed.

(** ** The listening socket *)

Lemma close_fresh (m : gmap Z desc) s d : m !! s = None -> delete s (<[s := d]> m) = m.
Proof. apply delete_insert_id. Qed.

Definition no_fork (l : list call) : Prop := KFork ∉ l.

Lemma clear_path_ok path a s p : lowest_free (fds p) s ->
  exists p', clear_path answer path a p = (true, p') /\ fds p' = fds p /\
    calls p' = calls p ++ [KSocket AF_UNIX; KConnect s a; KUnlink path; KClose s].
Proof.
  intros Hs. pose proof Hs as (Hs0 & Hfree & _). unfold clear_path. rewrite do_call_plain by done.
  cbn [effect fst]. rewrite (lowest_is _ _ Hs). destruct (Z.eqb_spec s (-1)); [lia|].
  rewrite do_call_connect. cbn [Z.eqb]. rewrite do_call_plain by done. cbn [effect fst andb Z.eqb].
  rewrite do_call_plain by done. eexists. split; [reflexivity|]. split; cbn.
  - by rewrite (lowest_is _ _ Hs), close_fresh.
  - by rewrite <- !app_assoc.
Qed.

(** Descriptors and calls when the socket listens. *)
Lemma bind_socket_ok addr port unixsocket mode a s p :
  socket_address inet_addr addr port unixsocket = Ret (Some a) -> lowest_free (fds p) s ->
  exists p' l, bind_socket answer inet_addr addr port unixsocket 0 0 mode p = Ret (s, p') /\
    fds p' = <[s := Listening a 1024]> (fds p) /\
    calls p' = calls p ++ l ++ [KSocket (addr_family a); KReuseAddr s; KBind s a; KListen s 1024] /\
    l = match unixsocket with Some path => [KSocket AF_UNIX; KConnect s a; KUnlink path; KClose s] | None => [] end.
Proof.
  intros Ha Hs. pose proof Hs as (Hs0 & Hfree & _). unfold bind_socket. rewrite Ha. cbn [obind].
  set (cleared := match unixsocket with Some _ => _ | None => _ end).
  assert (exists q l, cleared = (true, q) /\ fds q = fds p /\ calls q = calls p ++ l /\
    l = match unixsocket with Some path => [KSocket AF_UNIX; KConnect s a; KUnlink path; KClose s] | None => [] end)
    as (q & l & -> & Hf & Hc & Hl).
  { subst cleared. destruct unixsocket as [path|].
    - destruct (clear_path_ok path a s p Hs) as (q & -> & Hf & Hc).
      eexists q, _. split_and!; [done|done|exact Hc|done].
    - exists p, []. by rewrite app_nil_r. }
  cbn [negb]. rewrite do_call_plain by done. cbn [effect fst]. rewrite Hf, (lowest_is _ _ Hs).
  destruct (Z.eqb_spec s (-1)); [lia|]. rewrite do_call_plain by done. cbn [effect fst Z.ltb Z.compare].
  rewrite do_call_plain by done. cbn [effect fst Z.eqb].
  assert (forall path q', set_owner answer path 0 0 mode s q' = (true, q')) as Hown by done.
  set (owned := match unixsocket with Some _ => _ | None => _ end).
  assert (owned = (true, after (KBind s a) (after (KReuseAddr s) (after (KSocket (addr_family a)) q)))) as ->
    by (subst owned; by destruct unixsocket).
  cbn [negb]. rewrite do_call_plain by done. cbn [effect fst Z.eqb]. eexists _, l. split; [reflexivity|]. split_and!; [| |done].
  - cbn. rewrite Hf, (lowest_is _ _ Hs), !alter_insert_eq. done.
  - cbn. by rewrite Hc, <- !app_assoc.
Qed.

(** ** The child *)

Lemma close_from_ok k : forall i p, 3 <= i -> exists l, calls (close_from answer k i p) = calls p ++ l /\
  forall j, fds (close_from answer k i p) !! j = if decide (i <= j < i + Z.of_nat k) then None else fds p !! j.
Proof.
  induction k as [|k IH]; intros i p Hi; cbn [close_from].
  { exists []. rewrite app_nil_r. split; [done|]. intros j. rewrite decide_False by lia. done. }
  unfold FCGI_LISTENSOCK_FILENO. destruct (Z.eqb_spec i 0); [lia|]. cbn [negb]. rewrite do_call_plain by done. cbn [snd].
  destruct (IH (i + 1) (after (KClose i) p)) as (l & Hc & Hf); [lia|]. exists (KClose i :: l). split.
  - rewrite Hc. cbn. by rewrite <- app_assoc.
  - intros j. rewrite Hf. cbn. destruct (decide (j = i)) as [->|Hne].
    + rewrite lookup_delete_eq, (decide_True (P := i <= i < _)) by lia. by destruct (decide _).
    + rewrite lookup_delete_ne by done. destruct (decide (i + 1 <= j < _)), (decide (i <= j < _)); done || lia.
Qed.

(** The descriptors of a child that serves: the socket, twice /dev/null, and what the
    process had above the lowest free descriptor. *)
Definition handed_over (s : Z) (a : sock_addr) (m : gmap Z desc) (j : Z) : option desc :=
  if j =? 0 then Some (Listening a 1024)
  else if (j =? 1) || (j =? 2) then Some DevNull
  else if (3 <=? j) && (j <=? s) then None
  else m !! j.

Lemma after_dup2 p fd fd2 d : fds p !! fd = Some d -> fds (after (KDup2 fd fd2) p) = <[fd2 := d]> (fds p).
Proof. intros H. unfold after, effect. cbn. by rewrite H. Qed.

(** Standard output and error, from the descriptor [s] of /dev/null. *)
Lemma redirect_ok s p : 3 <= s -> fds p !! s = Some DevNull ->
  let p1 := after (KDup2 s STDOUT_FILENO) p in let p2 := after (KDup2 s STDERR_FILENO) p1 in
  fds (after (KClose s) p2) = delete s (<[2 := DevNull]> (<[1 := DevNull]> (fds p))).
Proof.
  intros Hs Hd p1 p2. assert (E1 : fds p1 = <[1 := DevNull]> (fds p)) by (by apply after_dup2).
  assert (E2 : fds p2 = <[2 := DevNull]> (fds p1)).
  { apply after_dup2. rewrite E1, lookup_insert_ne by lia. done. }
  change (delete s (fds p2) = delete s (<[2 := DevNull]> (<[1 := DevNull]> (fds p)))). by rewrite E2, E1.
Qed.

(** The listening socket is moved to descriptor 0, and [s] is free again. *)
Lemma move_socket_ok s a m p : lowest_free m s -> 3 <= s -> fds p = <[s := Listening a 1024]> m ->
  let p3 := after (KClose s) (after (KDup2 s 0) (after (KClose 0) p)) in
  fds p3 = <[0 := Listening a 1024]> (delete 0 m) /\ lowest_free (fds p3) s.
Proof.
  intros (_ & Hfree & Hlow) Hs Hp p3.
  assert (E : fds p3 = <[0 := Listening a 1024]> (delete 0 m)).
  { change (delete s (fds (after (KDup2 s 0) (after (KClose 0) p))) = <[0 := Listening a 1024]> (delete 0 m)).
    rewrite (after_dup2 _ s 0 (Listening a 1024)).
    - change (fds (after (KClose 0) p)) with (delete 0 (fds p)). rewrite Hp, delete_insert_ne by lia.
      rewrite delete_insert_ne, delete_insert_id by (rewrite ?lookup_delete_ne by lia; done || lia). done.
    - cbn. by rewrite Hp, lookup_delete_ne, lookup_insert_eq by lia. }
  split; [done|]. rewrite E. split_and!; [lia|by rewrite lookup_insert_ne, lookup_delete_ne by lia|].
  intros j Hj. destruct (decide (j = 0)) as [->|]; [rewrite lookup_insert_eq; eauto|].
  rewrite lookup_insert_ne, lookup_delete_ne by done. apply Hlow. lia.
Qed.

Lemma child_setup_ok s a m p : lowest_free m s -> 3 <= s -> fds p = <[s := Listening a 1024]> m ->
  exists l, calls (child_setup answer s p) = calls p ++ l /\
    (forall j, fds (child_setup answer s p) !! j = handed_over s a m j).
Proof.
  intros Hm Hs Hp. unfold child_setup, FCGI_LISTENSOCK_FILENO. set (p0 := putenv _ p).
  destruct (Z.eqb_spec s 0); [lia|]. cbn [negb]. rewrite do_call_plain by done. cbn [snd].
  rewrite !do_call_plain by done. cbn [snd].
  destruct (move_socket_ok s a m p0 Hm Hs Hp) as [E Hl]. set (p3 := after (KClose s) _) in *.
  set (p4 := after KSetsid p3). change (fds p4) with (fds p3).
  assert (EN : (effect KOpenNull 0 (fds p3)).1 = s) by (by apply lowest_is). rewrite !EN.
  unfold STDOUT_FILENO, STDERR_FILENO. destruct (Z.eqb_spec s (-1)), (Z.eqb_spec s 1), (Z.eqb_spec s 2); try lia. cbn [negb andb].
  set (p5 := after KOpenNull p4).
  assert (E5 : fds p5 = <[s := DevNull]> (fds p3)).
  { change (<[lowest (fds p3) := DevNull]> (fds p3) = <[s := DevNull]> (fds p3)). by rewrite (lowest_is _ _ Hl). }
  pose proof (redirect_ok s p5 Hs ltac:(rewrite E5; apply lookup_insert_eq)) as E6. cbn zeta in E6. unfold STDOUT_FILENO, STDERR_FILENO in E6.
  set (p6 := after (KClose s) (after (KDup2 s 2) _)) in *.
  rewrite E5, !delete_insert_ne, delete_insert_id, E in E6 by (lia || apply Hl).
  destruct (close_from_ok (Z.to_nat (s - 3)) 3 p6) as (l & Hc & Hf); [lia|]. eexists. split.
  - rewrite Hc. cbn. rewrite <- !app_assoc. reflexivity.
  - intros j. rewrite Hf, E6. unfold handed_over. destruct Hm as (_ & Hfree & _).
    destruct (Z.eqb_spec j 0) as [->|H0]; [by rewrite decide_False, !lookup_insert_ne, lookup_insert_eq by lia|].
    destruct (Z.eqb_spec j 1) as [->|H1]; [by rewrite decide_False, lookup_insert_ne, lookup_insert_eq by lia|].
    destruct (Z.eqb_spec j 2) as [->|H2]; [by rewrite decide_False, lookup_insert_eq by lia|]. cbn [orb].
    rewrite !lookup_insert_ne, lookup_delete_ne by done.
    destruct (Z.eq_dec j s) as [->|Hne]; [rewrite Hfree; by destruct (decide _), (_ && _)|].
    destruct (decide _), (Z.leb_spec 3 j), (Z.leb_spec j s); cbn [andb]; done || lia.
Qed.

(** ** Parent and children *)

(** The process is a child: one of its calls of [fork] has returned 0. *)
Definition forked (l : list call) : Prop := exists t u, l = t ++ KFork :: u /\ fst (answer t KFork) = 0.

Lemma forked_app l l' : forked l -> forked (l ++ l').
Proof. intros (t & u & -> & H). exists t, (u ++ l'). by rewrite <- app_assoc. Qed.
Lemma forked_snoc l c : forked (l ++ [c]) -> forked l \/ c = KFork /\ fst (answer l KFork) = 0.
Proof.
  intros (t & u & E & H). destruct u as [|d u _] using rev_ind.
  - apply app_inj_tail in E as [-> ->]. by right.
  - left. rewrite app_comm_cons, app_assoc in E. apply app_inj_tail in E as [-> _]. by exists t, u.
Qed.
Lemma forked_calls c p : ~ forked (calls p) -> c <> KFork -> ~ forked (calls (do_call answer c p).2).
Proof.
  intros Hn Hc H. assert (E : calls (do_call answer c p).2 = calls p ++ [c]).
  { unfold do_call. by destruct (if fst (answer (calls p) c) <? 0 then _ else _). }
  rewrite E in H. by apply forked_snoc in H as [H|[-> _]].
Qed.

Hypothesis status_nonneg : forall t, 0 <= wait_status t.

Lemma child_rc_nonneg status : 0 <= status -> 0 <= child_rc status.
Proof.
  intros H. unfold child_rc. destruct (WIFEXITED status); [|by destruct (WIFSIGNALED status)].
  apply Z.land_nonneg. by right.
Qed.

Lemma fork_loop_ok s a m n : lowest_free m s -> 3 <= s -> forall rc p,
  fds p = <[s := Listening a 1024]> m -> 0 <= rc -> ~ forked (calls p) ->
  exists r p', fork_loop answer wait_status n s rc p = (r, p') /\
    (r = -1 /\ forked (calls p') /\ (forall j, fds p' !! j = handed_over s a m j) \/
     0 <= r /\ ~ forked (calls p') /\ fds p' = m).
Proof.
  intros Hm Hs. induction n as [|n IH]; intros rc p Hp Hrc Hno; cbn [fork_loop].
  { pose proof (forked_calls (KClose s) p Hno ltac:(done)) as Hno'. rewrite do_call_plain in Hno' |- * by done.
    eexists _, _. split; [reflexivity|]. right. split_and!; [done|done|]. cbn. rewrite Hp. apply delete_insert_id, Hm. }
  unfold do_call at 1. set (r := fst (answer (calls p) KFork)). cbn [effect].
  assert (Hf : forked (calls p ++ [KFork]) -> r = 0).
  { intros [H|[_ H]]%forked_snoc; done. }
  destruct (Z.ltb_spec r 0).
  { cbn [Z.eqb]. apply IH; [done|done|]. intros ?%Hf. lia. }
  destruct (Z.eqb_spec r 0) as [Er|Er].
  - set (p1 := mkProc _ _ _). destruct (child_setup_ok s a m p1 Hm Hs Hp) as (l & Hl & Hfds).
    eexists _, _. split; [reflexivity|]. left. split_and!; [done| |done]. rewrite Hl. apply forked_app.
    exists (calls p), []. by split.
  - destruct (Z.eqb_spec r (-1)); [lia|]. rewrite do_call_plain by done. set (p1 := after KSelect _).
    assert (Hno1 : ~ forked (calls p1)).
    { subst p1. cbn. intros [H'|[H' _]]%forked_snoc; [by apply Er, Hf|done]. }
    pose proof (forked_calls (KWaitpid r) p1 Hno1 ltac:(done)) as Hno2.
    assert (Hw : fds (do_call answer (KWaitpid r) p1).2 = <[s := Listening a 1024]> m).
    { unfold do_call. by destruct (fst (answer (calls p1) (KWaitpid r)) <? 0). }
    destruct (do_call answer (KWaitpid r) p1) as [r2 p2]. apply IH; [done| |done].
    destruct ((r2 =? 0) || (r2 =? -1)); [done|]. apply child_rc_nonneg, status_nonneg.
Qed.
End Proofs.

(** C14. The children that FastcgiConnect forks serve on the socket it has bound.  When
    every call succeeds and nobody listens on the address yet, the function returns -1
    in a process that has been forked, and main goes on to serve: there the lowest
    descriptor is the socket that listens on the address, standard output and error
    are /dev/null, and the descriptors from 3 up to the lowest one that was free are
    closed.  In the parent it closes the socket, leaves the other descriptors as they
    were, and main exits, with 0 when children were asked for and its result is 0. *)
Theorem FastcgiConnect_hands_over answer inet_addr wait_status addr port unixsocket mode fork_count a s p
    (obliging : forall t c,
       match c with KConnect _ _ => fst (answer t c) < 0 | KFork | KWaitpid _ => True | _ => 0 <= fst (answer t c) end)
    (status_nonneg : forall t, 0 <= wait_status t) :
  socket_address inet_addr addr port unixsocket = Ret (Some a) -> lowest_free (fds p) s -> 3 <= s -> calls p = [] ->
  exists r p', FastcgiConnect answer inet_addr wait_status addr port unixsocket mode fork_count p = Ret (r, p') /\
    (forked (answer := answer) (calls p') -> r = -1 /\ main_after_connect r fork_count = Serve /\
       forall j, fds p' !! j = handed_over s a (fds p) j) /\
    (~ forked (answer := answer) (calls p') -> 0 <= r /\ fds p' = fds p /\
       main_after_connect r fork_count = Exit (if (r =? 0) && (fork_count >? 0) then 0 else 1)).
Proof.
  intros Ha Hs H3 Hc.
  destruct (bind_socket_ok (inet_addr := inet_addr) obliging addr port unixsocket mode a s p Ha Hs)
    as (p1 & l & Hb & Hf & Hc1 & Hl).
  assert (Hno : ~ forked (answer := answer) (calls p1)).
  { intros (t & u & E & _). assert (Hin : KFork ∈ calls p1) by (rewrite E; apply elem_of_app; right; by left).
    rewrite Hc1, Hc, Hl in Hin. apply list_elem_of_In in Hin. destruct unixsocket; cbn in Hin; intuition discriminate. }
  unfold FastcgiConnect. rewrite Hb. cbn [obind]. destruct (Z.eqb_spec s (-1)); [lia|].
  destruct (fork_loop_ok obliging status_nonneg s a (fds p) (Z.to_nat fork_count) Hs H3 0 p1 Hf ltac:(lia) Hno)
    as (r & p' & -> & [(-> & Hk & Hfd)|(Hr & Hk & Hfd)]); (eexists _, p'; split; [reflexivity|]); (split; [|]); intros Hk'; try done.
  split_and!; [done|done|]. unfold main_after_connect. destruct (_ && _); [done|].
  destruct (Z.eqb_spec r (-1)); [lia|done].
Qed.

(** A UNIX socket and three forks, of which the second one is seen from its child; the
    process has inherited descriptors 3 and 5. *)
Definition demo_kernel (t : list call) (c : call) : Z * Z :=
  match c with
  | KConnect _ _ => (-1, 111)
  | KFork => (if (length t <? 10)%nat then 77 else 0, 0)
  | _ => (0, 0)
  end.
Definition demo_proc : proc :=
  mkProc {[ 0 := Inherited 0; 1 := Inherited 1; 2 := Inherited 2; 3 := Inherited 3; 5 := Inherited 5 ]} [] None.

Lemma FastcgiConnect_hands_over_witness :
  exists p', FastcgiConnect demo_kernel (fun _ => 0) (fun _ => 0) None 0 (Some (b! "/tmp/s")) 0 3 demo_proc = Ret (-1, p') /\
    main_after_connect (-1) 3 = Serve /\ fds p' !! 0 = Some (Listening (SA_un (b! "/tmp/s") 8) 1024) /\
    fds p' !! 2 = Some DevNull /\ fds p' !! 3 = None /\ fds p' !! 4 = None /\ fds p' !! 5 = Some (Inherited 5).
Proof.
  destruct (FastcgiConnect_hands_over demo_kernel (fun _ => 0) (fun _ => 0) None 0 (Some (b! "/tmp/s")) 0 3
    (SA_un (b! "/tmp/s") 8) 4 demo_proc) as (r & p' & E & Hchild & _).
  - intros t c. by destruct c.
  - done.
  - by vm_compute.
  - split_and!; [lia|by vm_compute|]. intros j Hj.
    assert (j = 0 \/ j = 1 \/ j = 2 \/ j = 3) as [->|[->|[->| ->]]] by lia; vm_compute; eauto.
  - lia.
  - done.
  - exists p'. destruct Hchild as (-> & Hs & Hf).
    + assert (Hc : calls p' = calls (match FastcgiConnect demo_kernel (fun _ => 0) (fun _ => 0) None 0 (Some (b! "/tmp/s")) 0 3 demo_proc
        with Ret (_, q) => q | _ => demo_proc end)) by (by rewrite E).
      rewrite Hc. vm_compute.
      eexists [_; _; _; _; _; _; _; _; _; _; _], _. split; reflexivity.
    + split; [exact E|]. split; [done|]. rewrite !Hf. unfold handed_over. cbn [Z.eqb Z.leb Z.compare Pos.eqb Pos.compare Pos.compare_cont orb andb]. split_and!; reflexivity.
Defined.

(** The mode is not used: -M has no effect. *)
Lemma mode_is_ignored answer inet_addr wait_status addr port unixsocket mode mode' fork_count p :
  FastcgiConnect answer inet_addr wait_status addr port unixsocket mode fork_count p
  = FastcgiConnect answer inet_addr wait_status addr port unixsocket mode' fork_count p.
Proof. done. Qed.

(** Without -F no child is made, and the process exits with 1 without serving. *)
Lemma no_children_no_server answer inet_addr wait_status addr port unixsocket mode p fd p' :
  bind_socket answer inet_addr addr port unixsocket 0 0 mode p = Ret (fd, p') ->
  exists p'', FastcgiConnect answer inet_addr wait_status addr port unixsocket mode 0 p = Ret (0, p'') /\
    main_after_connect 0 0 = Exit 1.
Proof.
  intros E. unfold FastcgiConnect. rewrite E. cbn [obind]. destruct (fd =? -1); [by exists p'|].
  change (Z.to_nat 0) with 0%nat. cbn [fork_loop]. destruct (do_call answer (KClose fd) p') as [? q]. by exists q.
Qed.

(** A socket that cannot be bound is reported as success when children were asked for. *)
Lemma bind_failure_exits_0 answer inet_addr wait_status addr port unixsocket mode fork_count p p' :
  bind_socket answer inet_addr addr port unixsocket 0 0 mode p = Ret (-1, p') -> 0 < fork_count ->
  FastcgiConnect answer inet_addr wait_status addr port unixsocket mode fork_count p = Ret (0, p') /\
  main_after_connect 0 fork_count = Exit 0.
Proof.
  intros E Hn. unfold FastcgiConnect, main_after_connect. rewrite E. split; [done|].
  destruct (Z.gtb_spec fork_count 0); [done|lia].
Qed.
